(* ===== verification/_CoqProject ===== *)
-Q . S2P
Prelude.v
XString.v
Spinlock.v
Pipe.v
Kalloc.v
Log.v
Queue.v
Sorts.v
Binary.v
CacheSim.v
Trace.v
MyMalloc.v
Bio.v
Ide.v
Console.v
Kbd.v
Fs.v
FsBlocks.v
FsCache.v
FsInode.v
FsFile.v
FsPath.v
FsDir.v
FsRefs.v
Syscall.v
File.v
FileWrite.v
Sysfile.v
SysfileInv.v
SysfileEnds.v
SysfileSafe.v
UMalloc.v
Grep.v
Proc.v
ProcInv.v
Sh.v
ShParse.v
ShRun.v
Vm.v
VmInv.v
VmOps.v
VmKernel.v
VmSafe.v
Exec.v
VmUser.v
ExecLoad.v
ExecStack.v
ExecSafe.v
Mkfs.v
MkfsFile.v
MkfsImage.v
MkfsBuild.v
MkfsSafe.v
Trap.v
Words.v
MiniShell.v
MiniShellRun.v
UserLib.v
UserProgs.v
Mp.v
