(* ===== verification/Prelude.v ===== *)
(** * Verification of the CS5600 systems code

    The repository holds an operating system kernel with its user programs
    (xv6, under src/Lab11_xv6/deliverables) and the C programs of a course on
    computer systems (the other directories of src).  This library models the parts
    that carry their logic and proves what makes them correct.  Below, C files
    without a directory are those of xv6.

    ** How the code is translated

    A C function is a Rocq function on explicit state.  [outcome] is its result:
    [Ret] for a return, [Panic] for a call of the kernel's panic, [Undef] for an
    access outside the objects of the program, [NoFuel] for a loop that used up
    its bound.  [M S A] is code that threads a state [S].  Machine integers are
    [Z] with [u32], [i32] and [u8] written where the code wraps around.  Arrays are
    lists ([arr_get] and [arr_set] are [Undef] out of range), pointers to array
    elements are indices, maps from addresses are finite maps.  Code that several
    processors or processes run at once is a relation between states whose steps
    are the atomic parts of the code (up to the release of a lock, a sleep or a
    context switch), and the theorems are about every sequence of steps.

    ** Bounds

    A loop that is not structural has a fuel argument, and its caller passes a
    bound computed from the loop's data: the number of bytes left, the number of
    pages between two addresses, the length of a line.  The theorems say that the
    functions return [Ret] (or the panic the code has), so they include that the
    fuel is enough; no theorem is of the form that a result is right if there is
    one.

    ** The kernel, bottom up

    - XString: string.c and the rep stos instructions of x86.h on byte memory.
      [memmove_correct] covers overlapping ranges; [memset_correct] shows the word
      and byte variants equal; [safestrcpy_correct].
    - Spinlock: spinlock.c and sleeplock.c.  Mutual exclusion for any number of
      processors interleaving the micro-steps of acquire and release around the
      atomic exchange; pushcli and popcli restore the interrupt flag.
    - Kalloc: kalloc.c.  The free list threaded through the pages; a page is free
      or given out once ([kalloc_exclusive]).
    - Vm: vm.c.  Page directories and tables as words in pages of bytes.  VmInv has
      the ownership invariant, VmOps and VmKernel the operations, VmSafe the
      theorems: every page has one owner whatever the kernel does with its
      address spaces ([address_spaces_safe]), and a copied space has the memory of
      the original ([copyuvm_correct]).  The free list of Kalloc appears as the list
      it represents.
    - Exec: exec.c over Vm and Fs.  VmUser: the bytes and the flags of a user address
      space and what each operation of vm.c does to them.  ExecLoad: the program
      headers; ExecStack: the stack with its guard page and the arguments; ExecSafe:
      a successful exec leaves the image of the file, zeros behind it and the
      arguments where main expects them, a failed one leaves the caller's space and
      returns every page ([exec_correct]).
    - Proc: proc.c and the descriptor calls of sysfile.c, with ProcInv: the process
      table under all interleavings of several processors (states, pids, parents,
      references to files and directories).
    - Trap: trap.c over Proc, Ide, Console and Kbd: what each vector does
      ([trap_correct]), and that a process that was killed runs no more user code
      ([killed_process_exits]).
    - Pipe: pipe.c.  Bytes arrive in order, once, across the wrap-around of the
      counters, for any interleaving of readers and writers.
    - Bio: bio.c and the requests of ide.c as callers see them.  The ring of buffers,
      coherence with the disk, recycling in least-recently-used order.
    - Ide: ide.c.  The queue of disk requests with the interrupt handler: the driver
      refines the atomic request that Bio calls ([driver_refines_iderw]), and every
      request is served ([disk_request_served]).
    - Console: console.c.  The line editor between keyboard interrupts and
      consoleread, and the digits that printint prints.  Kbd: the scan code
      automaton of kbd.c; it gives characters only ([kbd_types]).
    - Mp: mp.c.  The search for the tables of the firmware, and mpinit, which learns
      the processors ([mpinit_correct]) or, at an entry it does not know, hangs
      ([unknown_entry]).
    - Log: log.c.  A crash at any write of a commit leaves, after recovery, all of
      the transaction or nothing; operations in any order keep the log well formed;
      recovery is idempotent in effect.
    - Fs: fs.c over the block layer that Bio and Log provide.  FsBlocks: the block
      bitmap.  FsInode: inodes on disk, a round trip.  FsFile: block map, reads and
      writes as operations on an array of bytes.  FsCache: reference counts of
      the inode cache.  FsPath: path names and directory names.
      FsDir: directories as
      finite maps from names to inode numbers.  FsRefs: what each operation of fs.c
      does to the references and the locks that the process holds, as triples.
    - File: file.c and pipealloc.  Reference counts of open files; FileWrite: a write
      of any length through several transactions.
    - Syscall: syscall.c and sys_sleep, sys_exec of sysproc.c and sysfile.c: the
      checks of the arguments that user code passes ([argument_checks]) and the
      dispatch.
    - Sysfile: the file system calls of sysfile.c over Fs, File and Pipe.
      SysfileInv has the assertions on references, locks and the transaction,
      SysfileEnds the absence of loops that end by their bound, SysfileSafe the
      theorem that every call leaves no inode locked, no transaction open and the
      reference counts equal to the pointers that exist ([syscalls_balanced]).

    ** The disk image

    - Mkfs: mkfs.c over an image of sectors.  MkfsFile and MkfsImage: iappend does on
      the image what writei of Fs does on a file system that has the same blocks
      and inodes, so its files are described by the lemmas of FsFile.  MkfsBuild: the
      invariant of the image while files are added.  MkfsSafe: the image that main
      writes is a consistent file system with the files under their names in the
      root directory ([mkfs_image]).

    ** User programs of xv6

    - UserLib: ulib.c and printf.c; numbers are printed as their numerals and read
      back ([printint_numeral], [atoi_printint]).  UserProgs: wc ([wc_correct]), cat,
      cp, echo and ls over the results of their system calls.

    - UMalloc: umalloc.c.  The circular free list in address order: blocks that are
      given out do not overlap each other or the list ([umalloc_safe]).
    - Grep: grep.c.  The matcher decides the language of its patterns, and the line
      loop prints the matching lines of its input.
    - Sh: the parser of sh.c.  ShParse: it accepts exactly its grammar, and the tree
      it returns reads back as the meaning of the line.  ShRun: runcmd and main give
      every program the descriptors that pipes and redirections ask for, and none
      besides.

    ** Course programs

    - MiniShell: src/Assignment4_Shell/shell.c, reading a line and parsing it in
      place with strtok.  MiniShellRun: the built-in commands, redirections, pipes
      and the loop.  Which programs run, with which arguments, input and output, is
      what the words of the lines say, and where the code goes wrong is part of the
      statement ([mini_shell_correct]).  Words: the words of a line, for MiniShell and wc.
    - Queue: src/Assignment2/queue_array.c refines a bounded first-in first-out
      queue; src/Lab2_LinkedList/linkedlist.c.
    - Sorts: src/Assignment3/bubblesort.c and insertionsort.c.
    - MyMalloc: the allocators of src/Assignment5_Memory and
      src/Assignment6_AdvancedMemory.
    - Binary, CacheSim, Trace: the binary strings, cache simulators and trace
      generators of src/Assignment5_Memory/CacheSimulator and
      src/Lab6_CacheSimulator, against reference caches.

    ** How the parts fit

    A file requires the files of the components it calls.  Where two components
    meet at a contract, the lower one proves it and the upper one is stated over
    it: Log and Bio give Fs a block store; Kalloc gives Vm a list of free pages;
    Fs and Pipe are the objects behind File; [writei] and [readi] of Fs are what
    FileWrite composes; Ide implements the request that Bio takes as a primitive;
    FsRefs gives Sysfile its triples; Exec runs over the triples of VmOps and the reads of
    FsFile; Trap composes the handlers of Ide, Console and Kbd with the table of Proc;
    MkfsSafe ends in the assertions that Fs starts from; the lexer and grammar of
    ShParse are what ShRun runs.

    ** Not modelled

    Boot and interrupt controller code (lapic.c, ioapic.c, picirq.c, main.c,
    bootmain.c, the set-up of uart.c) is port input and output; the functions of
    vm.c that load processor registers (seginit, switchkvm, switchuvm), idtinit and
    the assembly files depend on the processor.  In src/Assignment4_Shell the signal
    handlers of shell.c are left out, shell_draft.c is an earlier draft of the same
    program, and the other files there are exercises.  The remaining user programs
    of xv6 make one system call per argument; the remaining labs call interfaces of
    the host (threads, sockets, vector units); usertests.c, forktest.c, stressfs.c
    and the tests of the allocators are test programs.  Printing is left out
    except where it is the result.  In the allocators [malloc] may fail where the
    model says so; in the shell of xv6 it is taken to succeed. *)

From stdpp Require Import base numbers list gmap strings.
From Stdlib Require Import ZArith Lia.

Open Scope Z_scope.

(** ** Outcomes of C code

    A C function that returns normally yields [Ret]; a call to the kernel's
    [panic] yields [Panic] with its message; an access outside the objects of
    the program (undefined behaviour of C) yields [Undef]; [NoFuel] is the
    artefact of a loop whose bound is a parameter. *)
Inductive outcome (A : Type) : Type :=
  | Ret (a : A)
  | Panic (msg : string)
  | Undef
  | NoFuel.
Arguments Ret {A} a.
Arguments Panic {A} msg.
Arguments Undef {A}.
Arguments NoFuel {A}.

#[export] Instance outcome_ret : MRet outcome := fun A a => Ret a.
#[export] Instance outcome_bind : MBind outcome := fun A B f o =>
  match o with
  | Ret a => f a
  | Panic m => Panic m
  | Undef => Undef
  | NoFuel => NoFuel
  end.

(** Lifting a partial access (array element, mapped byte) to an outcome. *)
Definition opt {A} (o : option A) : outcome A :=
  match o with Some a => Ret a | None => Undef end.

Lemma bind_Ret {A B} (o : outcome A) (f : A → outcome B) (b : B) :
  (o ≫= f) = Ret b ↔ ∃ a, o = Ret a ∧ f a = Ret b.
Proof. destruct o; cbn; naive_solver. Qed.

Lemma opt_Ret {A} (o : option A) (a : A) : opt o = Ret a ↔ o = Some a.
Proof. destruct o; cbn; naive_solver. Qed.

(** ** Machine integers

    The programs run on machines with 32-bit [int]/[unsigned int]; [u32] is
    the reduction of unsigned arithmetic, [i32] the reading of a 32-bit
    pattern as a signed [int], [u8] the reduction to [unsigned char]. *)
Definition u32 (x : Z) : Z := x mod 2 ^ 32.
Definition u8 (x : Z) : Z := x mod 2 ^ 8.
Definition i32 (x : Z) : Z := (x + 2 ^ 31) mod 2 ^ 32 - 2 ^ 31.

Lemma u32_small x : 0 ≤ x < 2 ^ 32 → u32 x = x.
Proof. intros. unfold u32. by rewrite Z.mod_small. Qed.

Lemma u32_range x : 0 ≤ u32 x < 2 ^ 32.
Proof. unfold u32. by apply Z.mod_pos_bound. Qed.

Lemma u32_idemp x : u32 (u32 x) = u32 x.
Proof. apply u32_small, u32_range. Qed.

Lemma u32_add_l x y : u32 (u32 x + y) = u32 (x + y).
Proof. unfold u32. by rewrite Zplus_mod_idemp_l. Qed.

Lemma u32_sub x y : u32 (u32 x - u32 y) = u32 (x - y).
Proof. unfold u32. by rewrite <- Zminus_mod. Qed.

Lemma u8_range x : 0 ≤ u8 x < 256.
Proof. unfold u8. by apply (Z.mod_pos_bound x (2 ^ 8)). Qed.

Lemma u8_small x : 0 ≤ x < 256 → u8 x = x.
Proof. intros. unfold u8. by rewrite Z.mod_small. Qed.

Lemma i32_small x : - 2 ^ 31 ≤ x < 2 ^ 31 → i32 x = x.
Proof. intros. unfold i32. rewrite Z.mod_small; lia. Qed.

Lemma i32_range x : - 2 ^ 31 ≤ i32 x < 2 ^ 31.
Proof. unfold i32. pose proof (Z.mod_pos_bound (x + 2 ^ 31) (2 ^ 32)). lia. Qed.

(** ** Hint databases and tactics *)
Create HintDb machine.
Create Rewrite HintDb machine.
#[export] Hint Resolve u32_range u8_range i32_range : machine.
#[export] Hint Rewrite u32_idemp u32_add_l u32_sub : machine.

(** Split every boolean test of the goal or a hypothesis into its proposition. *)
Ltac bool_to_prop :=
  repeat match goal with
  | H : (_ =? _) = true |- _ => apply Z.eqb_eq in H
  | H : (_ =? _) = false |- _ => apply Z.eqb_neq in H
  | H : (_ <? _) = true |- _ => apply Z.ltb_lt in H
  | H : (_ <? _) = false |- _ => apply Z.ltb_ge in H
  | H : (_ <=? _) = true |- _ => apply Z.leb_le in H
  | H : (_ <=? _) = false |- _ => apply Z.leb_gt in H
  | H : _ && _ = true |- _ => apply andb_true_iff in H as [? ?]
  | H : _ || _ = false |- _ => apply orb_false_iff in H as [? ?]
  | H : negb _ = true |- _ => apply negb_true_iff in H
  | H : negb _ = false |- _ => apply negb_false_iff in H
  end.

(** Case analysis on the first [if] of the goal, keeping the test. *)
Ltac case_if :=
  match goal with
  | |- context [if ?b then _ else _] => destruct b eqn:?; bool_to_prop
  end.

Tactic Notation "case_if" "as" ident(H) :=
  match goal with
  | |- context [if ?b then _ else _] => destruct b eqn:H; bool_to_prop
  end.

(** Invert a successful monadic computation into its steps. *)
Ltac inv_ret :=
  repeat match goal with
  | H : (_ ≫= _) = Ret _ |- _ =>
      apply bind_Ret in H; destruct H as (? & ? & H); cbn beta in H
  | H : opt _ = Ret _ |- _ => apply opt_Ret in H
  | H : Ret _ = Ret _ |- _ => injection H; clear H; intros
  | H : Panic _ = Ret _ |- _ => discriminate H
  | H : Undef = Ret _ |- _ => discriminate H
  | H : NoFuel = Ret _ |- _ => discriminate H
  end.

(** ** C arrays

    An array is the list of its elements; an index outside it is [Undef]. *)
Definition arr_get {A} (l : list A) (i : Z) : outcome A :=
  if i <? 0 then Undef else opt (l !! Z.to_nat i).
Definition arr_set {A} (l : list A) (i : Z) (x : A) : outcome (list A) :=
  if (0 <=? i) && (i <? Z.of_nat (length l)) then Ret (<[Z.to_nat i := x]> l) else Undef.

Lemma arr_get_nat {A} (l : list A) (i : nat) : arr_get l (Z.of_nat i) = opt (l !! i).
Proof. unfold arr_get. case_if; [lia|]. by rewrite Nat2Z.id. Qed.

Lemma arr_get_Ret {A} (l : list A) i x :
  arr_get l i = Ret x ↔ 0 ≤ i ∧ l !! Z.to_nat i = Some x.
Proof. unfold arr_get. case_if; rewrite ?opt_Ret; naive_solver lia. Qed.

Lemma arr_get_in {A} (l : list A) i :
  0 ≤ i < Z.of_nat (length l) → ∃ x, arr_get l i = Ret x ∧ l !! Z.to_nat i = Some x.
Proof.
  intros Hi. destruct (lookup_lt_is_Some_2 l (Z.to_nat i)) as [x Hx]; [lia|].
  exists x. rewrite arr_get_Ret. auto with lia.
Qed.

Lemma arr_set_in {A} (l : list A) i x :
  0 ≤ i < Z.of_nat (length l) → arr_set l i x = Ret (<[Z.to_nat i := x]> l).
Proof.
  intros Hi. unfold arr_set. case_if as E; [done|].
  apply andb_false_iff in E as [?|?]; bool_to_prop; lia.
Qed.

Lemma arr_set_Ret {A} (l l' : list A) i x :
  arr_set l i x = Ret l' → 0 ≤ i < Z.of_nat (length l) ∧ l' = <[Z.to_nat i := x]> l.
Proof. unfold arr_set. case_if; [|done]. intros [= <-]. auto with lia. Qed.

(** ** State with outcomes

    Code that threads a state of type [S] and may panic. *)
Definition M (S A : Type) : Type := S → outcome (A * S).
#[export] Instance M_ret {S} : MRet (M S) := fun A a s => Ret (a, s).
#[export] Instance M_bind {S} : MBind (M S) := fun A B f c s => '(a, s') ← c s; f a s'.

Definition get_st {S} : M S S := fun s => Ret (s, s).
Definition put_st {S} (s : S) : M S unit := fun _ => Ret (tt, s).
Definition lift {S A} (o : outcome A) : M S A := fun s => a ← o; Ret (a, s).
Definition panic {S A} (msg : string) : M S A := fun _ => Panic msg.

(** [for(i = from; i < from + cnt; i++) body(i)]. *)
Fixpoint for_loop {S} (from : Z) (cnt : nat) (body : Z → M S unit) : M S unit :=
  match cnt with
  | O => mret tt
  | S cnt => body from ;; for_loop (from + 1) cnt body
  end.

Lemma M_bind_run {S A B} (c : M S A) (f : A → M S B) s a s' :
  c s = Ret (a, s') → (c ≫= f) s = f a s'.
Proof. intros H. unfold mbind, M_bind. by rewrite H. Qed.

Lemma M_bind_Ret {S A B} (c : M S A) (f : A → M S B) s b s' :
  (c ≫= f) s = Ret (b, s') ↔ ∃ a s1, c s = Ret (a, s1) ∧ f a s1 = Ret (b, s').
Proof.
  unfold mbind at 1, M_bind. rewrite bind_Ret. split.
  - intros ([a s1] & E1 & E2). eauto.
  - intros (a & s1 & E1 & E2). by exists (a, s1).
Qed.

(** A loop whose [k]-th iteration takes the invariant from [k] to [k + 1]. *)
Lemma for_loop_inv {S} (I : nat → S → Prop) body from n s :
  I 0%nat s →
  (∀ k s, (k < n)%nat → I k s →
     ∃ s', body (from + Z.of_nat k) s = Ret (tt, s') ∧ I (1 + k)%nat s') →
  ∃ s', for_loop from n body s = Ret (tt, s') ∧ I n s'.
Proof.
  intros H0 Hstep.
  assert (∀ cnt k s, (k + cnt = n)%nat → I k s →
    ∃ s', for_loop (from + Z.of_nat k) cnt body s = Ret (tt, s') ∧ I n s') as Hgen.
  { induction cnt as [|cnt IH]; intros k s1 Hk Hi; cbn [for_loop].
    - exists s1. split; [done|]. by replace n with k by lia.
    - destruct (Hstep k s1) as (s2 & E & Hi2); [lia|done|].
      destruct (IH (1 + k)%nat s2) as (s3 & E3 & Hi3); [lia|done|].
      exists s3. split; [|done]. erewrite M_bind_run by done.
      by replace (from + Z.of_nat k + 1) with (from + Z.of_nat (1 + k)) by lia. }
  destruct (Hgen n 0%nat s) as (s' & E & Hi); [done..|].
  exists s'. rewrite Z.add_0_r in E. done.
Qed.
