(* ===== verification/XString.v ===== *)
(** * The kernel's memory and string routines (xv6 [string.c])

    Memory is a finite map from 32-bit addresses to bytes; reading or writing
    an unmapped address is [Undef].  Pointer arithmetic wraps at 32 bits as
    on the machine xv6 runs on.  [stosb]/[stosl] of [x86.h] are the string
    instructions [memset] is built on. *)

From stdpp Require Import base numbers list gmap strings.
From S2P Require Import Prelude.

Open Scope Z_scope.

Abbreviation mem := (gmap Z Z).

(** Reading and writing one byte through a [char*]. *)
Definition load (m : mem) (a : Z) : outcome Z := opt (m !! a).
Definition store (m : mem) (a b : Z) : outcome mem :=
  match m !! a with
  | Some _ => Ret (<[a := b]> m)
  | None => Undef
  end.

(** Pointer increment on a 32-bit machine. *)
Definition ptr_add (p i : Z) : Z := u32 (p + i).

(** ** Operations *)

(** [rep stosb]: store the low byte of [data] [cnt] times. *)
Fixpoint stosb (m : mem) (addr data : Z) (cnt : nat) : outcome mem :=
  match cnt with
  | O => Ret m
  | S cnt => m ← store m addr (u8 data); stosb m (ptr_add addr 1) data cnt
  end.

(** [rep stosl]: store the 32-bit word [data], little endian, [cnt] times. *)
Fixpoint stosl (m : mem) (addr data : Z) (cnt : nat) : outcome mem :=
  match cnt with
  | O => Ret m
  | S cnt =>
      m ← store m addr (u8 data);
      m ← store m (ptr_add addr 1) (u8 (Z.shiftr data 8));
      m ← store m (ptr_add addr 2) (u8 (Z.shiftr data 16));
      m ← store m (ptr_add addr 3) (u8 (Z.shiftr data 24));
      stosl m (ptr_add addr 4) data cnt
  end.

Definition memset (m : mem) (dst c n : Z) : outcome (Z * mem) :=
  if (Z.rem (i32 dst) 4 =? 0) && (n mod 4 =? 0) then
    let c := Z.land c 255 in
    m ← stosl m dst
          (u32 (Z.lor (Z.lor (Z.lor (Z.shiftl c 24) (Z.shiftl c 16)) (Z.shiftl c 8)) c))
          (Z.to_nat (n / 4));
    Ret (dst, m)
  else
    m ← stosb m dst c (Z.to_nat n);
    Ret (dst, m).

(** [while(n-- > 0)] of an unsigned [n] is recursion on [n]. *)
Fixpoint memcmp_loop (m : mem) (s1 s2 : Z) (n : nat) : outcome Z :=
  match n with
  | O => Ret 0
  | S n =>
      a ← load m s1;
      b ← load m s2;
      if negb (a =? b) then Ret (a - b)
      else memcmp_loop m (ptr_add s1 1) (ptr_add s2 1) n
  end.
Definition memcmp (m : mem) (v1 v2 n : Z) : outcome Z :=
  memcmp_loop m v1 v2 (Z.to_nat n).

Fixpoint copy_down (m : mem) (s d : Z) (n : nat) : outcome mem :=
  match n with
  | O => Ret m
  | S n =>
      let d := ptr_add d (-1) in
      let s := ptr_add s (-1) in
      b ← load m s;
      m ← store m d b;
      copy_down m s d n
  end.

Fixpoint copy_up (m : mem) (s d : Z) (n : nat) : outcome mem :=
  match n with
  | O => Ret m
  | S n =>
      b ← load m s;
      m ← store m d b;
      copy_up m (ptr_add s 1) (ptr_add d 1) n
  end.

Definition memmove (m : mem) (dst src n : Z) : outcome (Z * mem) :=
  let s := src in
  let d := dst in
  if (s <? d) && (d <? ptr_add s n) then
    m ← copy_down m (ptr_add s n) (ptr_add d n) (Z.to_nat n);
    Ret (dst, m)
  else
    m ← copy_up m s d (Z.to_nat n);
    Ret (dst, m).

Definition memcpy (m : mem) (dst src n : Z) : outcome (Z * mem) :=
  memmove m dst src n.

Fixpoint strncmp_loop (m : mem) (p q : Z) (n : nat) : outcome Z :=
  match n with
  | O => Ret 0
  | S n' =>
      a ← load m p;
      if a =? 0 then b ← load m q; Ret (u8 a - u8 b)
      else
        b ← load m q;
        if a =? b then strncmp_loop m (ptr_add p 1) (ptr_add q 1) n'
        else Ret (u8 a - u8 b)
  end.
Definition strncmp (m : mem) (p q n : Z) : outcome Z :=
  strncmp_loop m p q (Z.to_nat n).

(** The second loop of [strncpy]: pad with NULs. *)
Fixpoint pad_zero (m : mem) (s : Z) (n : nat) : outcome mem :=
  match n with
  | O => Ret m
  | S n => m ← store m s 0; pad_zero m (ptr_add s 1) n
  end.

Fixpoint strncpy_loop (m : mem) (s t : Z) (n : nat) : outcome mem :=
  match n with
  | O => Ret m
  | S n =>
      c ← load m t;
      m ← store m s c;
      if c =? 0 then pad_zero m (ptr_add s 1) n
      else strncpy_loop m (ptr_add s 1) (ptr_add t 1) n
  end.
Definition strncpy (m : mem) (s t n : Z) : outcome (Z * mem) :=
  m ← strncpy_loop m s t (Z.to_nat n); Ret (s, m).

(** The copying loop of [safestrcpy] and its final NUL store; [n] is the value
    after the pre-decrement [--n] of the loop test. *)
Fixpoint safestrcpy_loop (m : mem) (s t : Z) (n : nat) : outcome mem :=
  match n with
  | O => store m s 0
  | S n =>
      c ← load m t;
      m ← store m s c;
      if c =? 0 then store m (ptr_add s 1) 0
      else safestrcpy_loop m (ptr_add s 1) (ptr_add t 1) n
  end.
Definition safestrcpy (m : mem) (s t n : Z) : outcome (Z * mem) :=
  if n <=? 0 then Ret (s, m)
  else m ← safestrcpy_loop m s t (Z.to_nat (n - 1)); Ret (s, m).

Fixpoint strlen_loop (m : mem) (s n : Z) (fuel : nat) : outcome Z :=
  match fuel with
  | O => NoFuel
  | S fuel =>
      c ← load m (ptr_add s n);
      if c =? 0 then Ret n else strlen_loop m s (n + 1) fuel
  end.
Definition strlen (fuel : nat) (m : mem) (s : Z) : outcome Z :=
  strlen_loop m s 0 fuel.

(** ** Specifications *)

(** The [n] bytes at [a] are mapped and do not reach the end of memory. *)
Definition range_ok (m : mem) (a : Z) (n : nat) : Prop :=
  0 ≤ a ∧ a + Z.of_nat n < 2 ^ 32 ∧
  ∀ i, 0 ≤ i < Z.of_nat n → is_Some (m !! (a + i)).

(** [m'] is [m] with the [n] bytes at [dst] replaced by [f]. *)
Definition updated (m m' : mem) (dst : Z) (n : nat) (f : Z → option Z) : Prop :=
  ∀ a, m' !! a = if decide (dst ≤ a < dst + Z.of_nat n) then f (a - dst) else m !! a.

Lemma ptr_add_small p i : 0 ≤ p + i < 2 ^ 32 → ptr_add p i = p + i.
Proof. intros. by apply u32_small. Qed.

Lemma range_ok_0 m a n : range_ok m a (S n) → is_Some (m !! a).
Proof. intros (? & ? & H). rewrite <-(Z.add_0_r a). apply H. lia. Qed.

Lemma range_ok_tail m a n : range_ok m a (S n) → range_ok m (a + 1) n.
Proof.
  intros (? & ? & H). split_and!; [lia..|]. intros i Hi.
  replace (a + 1 + i) with (a + (i + 1)) by lia. apply H. lia.
Qed.

Lemma range_ok_init m a n : range_ok m a (S n) → range_ok m a n.
Proof. intros (? & ? & H). split_and!; [lia..|]. intros i Hi. apply H. lia. Qed.

Lemma range_ok_last m a n : range_ok m a (S n) → is_Some (m !! (a + Z.of_nat n)).
Proof. intros (? & ? & H). apply H. lia. Qed.

Lemma range_ok_insert m a n k b : range_ok m a n → range_ok (<[k := b]> m) a n.
Proof.
  intros (? & ? & H). split_and!; [lia..|]. intros i Hi.
  rewrite lookup_insert. case_decide; eauto.
Qed.

Lemma store_mapped m a b : is_Some (m !! a) → store m a b = Ret (<[a := b]> m).
Proof. intros [x Hx]. unfold store. by rewrite Hx. Qed.

Create HintDb memory.
#[export] Hint Resolve range_ok_0 range_ok_tail range_ok_init range_ok_last
  range_ok_insert : memory.

Lemma copy_up_spec n : ∀ m s d,
  range_ok m s n → range_ok m d n → (d ≤ s ∨ s + Z.of_nat n ≤ d) →
  ∃ m', copy_up m s d n = Ret m' ∧ updated m m' d n (fun i => m !! (s + i)).
Proof.
  induction n as [|n IH]; intros m s d Hs Hd Hov.
  { exists m. split; [done|]. intros a. case_decide; [lia|done]. }
  destruct (range_ok_0 _ _ _ Hs) as [b Hb].
  destruct (IH (<[d := b]> m) (s + 1) (d + 1)) as (m' & Hrun & Hupd);
    [auto with memory..|lia|].
  pose proof Hs as (? & ? & _). pose proof Hd as (? & ? & _).
  exists m'. split.
  { cbn. unfold load. rewrite Hb; cbn.
    rewrite store_mapped by eauto with memory. cbn.
    by rewrite !ptr_add_small by lia. }
  intros a. rewrite Hupd. repeat case_decide; try lia.
  - rewrite lookup_insert_ne by lia. f_equal. lia.
  - assert (a = d) as -> by lia. rewrite lookup_insert_eq, <-Hb. f_equal. lia.
  - rewrite lookup_insert_ne by lia. done.
Qed.

Lemma copy_down_spec n : ∀ m s d,
  range_ok m s n → range_ok m d n → s < d →
  ∃ m', copy_down m (s + Z.of_nat n) (d + Z.of_nat n) n = Ret m' ∧
        updated m m' d n (fun i => m !! (s + i)).
Proof.
  induction n as [|n IH]; intros m s d Hs Hd Hov.
  { exists m. split; [done|]. intros a. case_decide; [lia|done]. }
  destruct (range_ok_last _ _ _ Hs) as [b Hb].
  destruct (IH (<[d + Z.of_nat n := b]> m) s d) as (m' & Hrun & Hupd);
    [auto with memory..|lia|].
  pose proof Hs as (? & ? & _). pose proof Hd as (? & ? & _).
  exists m'. split.
  { cbn [copy_down]. unfold load. rewrite !ptr_add_small by lia.
    replace (s + Z.of_nat (S n) + -1) with (s + Z.of_nat n) by lia.
    replace (d + Z.of_nat (S n) + -1) with (d + Z.of_nat n) by lia.
    rewrite Hb; cbn. by rewrite store_mapped by eauto with memory. }
  intros a. rewrite Hupd. repeat case_decide; try lia.
  - rewrite lookup_insert_ne by lia. done.
  - assert (a = d + Z.of_nat n) as -> by lia. rewrite lookup_insert_eq, <-Hb.
    f_equal. lia.
  - rewrite lookup_insert_ne by lia. done.
Qed.

Lemma memmove_spec (m : mem) (dst src n : Z) :
  0 ≤ n → range_ok m src (Z.to_nat n) → range_ok m dst (Z.to_nat n) →
  ∃ m', memmove m dst src n = Ret (dst, m') ∧
        updated m m' dst (Z.to_nat n) (fun i => m !! (src + i)).
Proof.
  intros Hn Hs Hd. unfold memmove.
  pose proof Hs as (? & ? & _). pose proof Hd as (? & ? & _).
  rewrite !(ptr_add_small _ n) by lia. case_if as Eov.
  - destruct (copy_down_spec (Z.to_nat n) m src dst) as (m' & E & U); [done..|lia|].
    rewrite Z2Nat.id in E by lia. rewrite E. eauto.
  - destruct (copy_up_spec (Z.to_nat n) m src dst) as (m' & E & U); [done..| |].
    { apply andb_false_iff in Eov as [?|?]; bool_to_prop; lia. }
    rewrite E. eauto.
Qed.

(** C33. [memmove] copies the [n] source bytes to the destination and leaves
    every other byte of memory alone, whatever the overlap of the two ranges:
    the result holds, at [dst + i], the byte [src + i] had before the call. *)
Theorem memmove_correct (m : mem) (dst src n : Z) :
  0 ≤ n → range_ok m src (Z.to_nat n) → range_ok m dst (Z.to_nat n) →
  ∃ m', memmove m dst src n = Ret (dst, m') ∧
        updated m m' dst (Z.to_nat n) (fun i => m !! (src + i)).
Proof. apply memmove_spec. Qed.

Lemma stosb_spec n : ∀ m a data,
  range_ok m a n →
  ∃ m', stosb m a data n = Ret m' ∧ updated m m' a n (fun _ => Some (u8 data)).
Proof.
  induction n as [|n IH]; intros m a data Ha.
  { exists m. split; [done|]. intros x. case_decide; [lia|done]. }
  destruct (IH (<[a := u8 data]> m) (a + 1) data) as (m' & Hrun & Hupd);
    [auto with memory|].
  pose proof Ha as (? & ? & _).
  exists m'. split.
  { cbn. rewrite store_mapped by eauto with memory. cbn.
    by rewrite ptr_add_small by lia. }
  intros x. rewrite Hupd. repeat case_decide; try lia; try done.
  - assert (x = a) as -> by lia. by rewrite lookup_insert_eq.
  - by rewrite lookup_insert_ne by lia.
Qed.

(** A word whose four bytes are all [b]. *)
Definition splat (data b : Z) : Prop :=
  u8 data = b ∧ u8 (Z.shiftr data 8) = b ∧
  u8 (Z.shiftr data 16) = b ∧ u8 (Z.shiftr data 24) = b.

Lemma range_ok_drop m a n k :
  range_ok m a (k + n) → range_ok m (a + Z.of_nat k) n.
Proof.
  intros (? & ? & H). split_and!; [lia..|]. intros i Hi.
  rewrite <-Z.add_assoc. apply H. lia.
Qed.

Lemma stosl_spec n : ∀ m a data b,
  splat data b → range_ok m a (4 * n) →
  ∃ m', stosl m a data n = Ret m' ∧ updated m m' a (4 * n) (fun _ => Some b).
Proof.
  induction n as [|n IH]; intros m a data b Hb Ha.
  { exists m. split; [done|]. intros x. case_decide; [lia|done]. }
  replace (4 * S n)%nat with (4 + 4 * n)%nat in * by lia.
  pose proof Ha as (? & ? & Hmap).
  destruct (IH (<[a + 3 := b]> (<[a + 2 := b]> (<[a + 1 := b]> (<[a := b]> m))))
              (a + 4) data b) as (m' & Hrun & Hupd); [done| |].
  { repeat apply range_ok_insert. by apply (range_ok_drop m a (4 * n) 4). }
  assert (∀ i, 0 ≤ i < 4 → is_Some (m !! (a + i))) as H4 by (intros; apply Hmap; lia).
  destruct Hb as (B0 & B1 & B2 & B3).
  exists m'. split.
  { cbn [stosl]. rewrite B0, B1, B2, B3, !ptr_add_small by lia.
    rewrite store_mapped by (rewrite <-(Z.add_0_r a); apply H4; lia). cbn.
    rewrite store_mapped by (rewrite !lookup_insert_is_Some'; right; apply H4; lia). cbn.
    rewrite store_mapped by (rewrite !lookup_insert_is_Some'; right; right; apply H4; lia). cbn.
    rewrite store_mapped
      by (rewrite !lookup_insert_is_Some'; right; right; right; apply H4; lia). done. }
  intros x. rewrite Hupd.
  repeat case_decide; try lia; try done; rewrite !lookup_insert; repeat case_decide; try lia; done.
Qed.

Definition splat_word (c : Z) : Z :=
  u32 (Z.lor (Z.lor (Z.lor (Z.shiftl c 24) (Z.shiftl c 16)) (Z.shiftl c 8)) c).

Lemma splat_word_ok c : 0 ≤ c < 256 → splat (splat_word c) c.
Proof.
  intros Hc.
  assert (Forall (fun c => splat (splat_word c) c) (seqZ 0 256)) as HF.
  { apply (bool_decide_unpack _); vm_compute; exact I. }
  rewrite Forall_forall in HF. apply HF. apply elem_of_seqZ. lia.
Qed.

Lemma memset_spec (m : mem) (dst c n : Z) :
  0 ≤ n → range_ok m dst (Z.to_nat n) →
  ∃ m', memset m dst c n = Ret (dst, m') ∧
        updated m m' dst (Z.to_nat n) (fun _ => Some (u8 c)).
Proof.
  intros Hn Hd. unfold memset. case_if.
  - assert (Z.land c 255 = u8 c) as -> by (apply (Z.land_ones c 8); lia).
    assert (4 * Z.to_nat (n / 4) = Z.to_nat n)%nat as E4.
    { pose proof (Z.div_mod n 4). lia. }
    destruct (stosl_spec (Z.to_nat (n / 4)) m dst (splat_word (u8 c)) (u8 c))
      as (m' & E & U).
    { apply splat_word_ok, u8_range. }
    { by rewrite E4. }
    unfold splat_word in E. rewrite E. rewrite E4 in U. eauto.
  - destruct (stosb_spec (Z.to_nat n) m dst c) as (m' & E & U); [done|].
    rewrite E. eauto.
Qed.

(** [memset] fills the [n] bytes at [dst] with the low byte of [c] and
    changes nothing else, on both of its paths: the word-wise one taken for
    an aligned range and the byte-wise one. *)
Theorem memset_correct (m : mem) (dst c n : Z) :
  0 ≤ n → range_ok m dst (Z.to_nat n) →
  ∃ m', memset m dst c n = Ret (dst, m') ∧
        updated m m' dst (Z.to_nat n) (fun _ => Some (u8 c)).
Proof. apply memset_spec. Qed.

(** ** C strings in memory *)

(** The bytes [l] are stored at [a], below the end of memory. *)
Definition bytes_at (m : mem) (a : Z) (l : list Z) : Prop :=
  0 ≤ a ∧ a + Z.of_nat (length l) < 2 ^ 32 ∧
  ∀ i b, l !! i = Some b → m !! (a + Z.of_nat i) = Some b.

(** The NUL-terminated string [l] is stored at [a]. *)
Definition cstr (m : mem) (a : Z) (l : list Z) : Prop :=
  bytes_at m a (l ++ [0]) ∧ Forall (λ b, 0 < b < 256) l.

Lemma bytes_at_cons m a b l :
  bytes_at m a (b :: l) ↔
  0 ≤ a ∧ a + Z.of_nat (S (length l)) < 2 ^ 32 ∧ m !! a = Some b ∧ bytes_at m (a + 1) l.
Proof.
  unfold bytes_at. cbn [length]. split.
  - intros (? & ? & H). split_and!; [lia..| |lia|lia|].
    + rewrite <-(Z.add_0_r a). by apply (H 0%nat).
    + intros i c Hc. specialize (H (S i) c Hc). by replace (a + 1 + Z.of_nat i) with (a + Z.of_nat (S i)) by lia.
  - intros (? & ? & Hb & ? & ? & H). split_and!; [lia..|].
    intros [|i] c Hc; cbn in Hc.
    + simplify_eq. by rewrite Z.add_0_r.
    + specialize (H i c Hc). by replace (a + Z.of_nat (S i)) with (a + 1 + Z.of_nat i) by lia.
Qed.

Lemma bytes_at_nil m a : 0 ≤ a < 2 ^ 32 → bytes_at m a [].
Proof. intros. split_and!; cbn; [lia..|]. intros i b Hb. by rewrite lookup_nil in Hb. Qed.

Lemma cstr_nil m a : cstr m a [] → m !! a = Some 0.
Proof. intros [H _]. by apply bytes_at_cons in H as (_ & _ & ? & _). Qed.

Lemma cstr_cons m a b l :
  cstr m a (b :: l) → 0 < b < 256 ∧ 0 ≤ a < 2 ^ 32 - 1 ∧ m !! a = Some b ∧ cstr m (a + 1) l.
Proof.
  intros [H HF]. apply bytes_at_cons in H as (? & H1 & ? & ?).
  rewrite length_app in H1. cbn in H1.
  apply Forall_cons in HF as [? ?]. split_and!; try lia; try done.
Qed.

(** [strlen] of a stored string is its length, given fuel beyond it. *)
Lemma strlen_correct m l : ∀ fuel s,
  cstr m s l → (length l < fuel)%nat → strlen fuel m s = Ret (Z.of_nat (length l)).
Proof.
  intros fuel s Hl. unfold strlen.
  assert (∀ k s0 l0 f, s = s0 + Z.of_nat k → cstr m s l0 → 0 ≤ s0 → (length l0 < f)%nat →
     strlen_loop m s0 (Z.of_nat k) f = Ret (Z.of_nat k + Z.of_nat (length l0))) as Hgen.
  { clear. intros k s0 l0. revert k s.
    induction l0 as [|b l IH]; intros k s [|f] -> Hl ? Hf; cbn in Hf; [lia| |lia|].
    - pose proof Hl as [(? & H1 & _) _]. cbn in H1. apply cstr_nil in Hl.
      cbn [strlen_loop]. rewrite ptr_add_small by lia. unfold load. rewrite Hl. cbn. f_equal. lia.
    - apply cstr_cons in Hl as (? & ? & E & Hl). cbn [strlen_loop].
      rewrite ptr_add_small by lia. unfold load. rewrite E. cbn.
      case_if; [lia|]. replace (Z.of_nat k + 1) with (Z.of_nat (S k)) by lia.
      rewrite (IH (S k) (s0 + Z.of_nat k + 1)); [|lia|done|lia|lia]. f_equal. cbn. lia. }
  intros Hf. pose proof Hl as [(? & _) _].
  apply (Hgen 0%nat s l fuel); (done || lia).
Qed.

(** [strncmp] against the comparison of the first [n] characters. *)
Lemma strncmp_eq_iff m lp : ∀ lq p q (n : nat),
  cstr m p lp → cstr m q lq →
  ∃ r, strncmp m p q (Z.of_nat n) = Ret r ∧ (r = 0 ↔ take n lp = take n lq).
Proof.
  unfold strncmp.
  induction lp as [|a lp IH]; intros lq p q n Hp Hq; rewrite Nat2Z.id;
    (destruct n as [|n]; [by exists 0|]); cbn [strncmp_loop]; unfold load.
  - rewrite (cstr_nil _ _ Hp). destruct lq as [|b lq].
    + rewrite (cstr_nil _ _ Hq). by exists 0.
    + apply cstr_cons in Hq as (? & _ & E & _). rewrite E. cbn.
      eexists. split; [done|]. rewrite !u8_small by lia. cbn. split; [intros; exfalso; lia|done].
  - apply cstr_cons in Hp as (? & ? & Ep & Hp). rewrite Ep. cbn.
    case_if; [lia|]. destruct lq as [|b lq].
    + rewrite (cstr_nil _ _ Hq). cbn. case_if; [lia|].
      eexists. split; [done|]. rewrite !u8_small by lia. cbn. split; [intros; exfalso; lia|done].
    + apply cstr_cons in Hq as (? & ? & Eq & Hq). rewrite Eq. cbn. case_if.
      * destruct (IH lq (p + 1) (q + 1) n Hp Hq) as (r & E & Hr).
        rewrite Nat2Z.id in E. exists r. rewrite !ptr_add_small by lia.
        split; [done|]. cbn. subst. split; [intros ->%Hr; done|intros [= ?]; by apply Hr].
      * eexists. split; [done|]. rewrite !u8_small by lia. cbn. split; [intros; exfalso; lia|congruence].
Qed.

Lemma bytes_at_insert_out m a l k b :
  bytes_at m a l → (k < a ∨ a + Z.of_nat (length l) ≤ k) → bytes_at (<[k := b]> m) a l.
Proof.
  intros (? & ? & H) Hk. split_and!; [lia..|]. intros i c Hc.
  pose proof (lookup_lt_Some _ _ _ Hc). rewrite lookup_insert_ne by lia. by apply H.
Qed.
#[export] Hint Resolve bytes_at_insert_out : memory.

(** The loop of [safestrcpy], for a source the destination does not overlap. *)
Lemma safestrcpy_loop_spec n : ∀ m s t l,
  range_ok m s (S n) → cstr m t l →
  (s + Z.of_nat (S n) ≤ t ∨ t + Z.of_nat (length l) < s) →
  ∃ m', safestrcpy_loop m s t n = Ret m' ∧ cstr m' s (take n l) ∧
        ∀ a, (a < s ∨ s + Z.of_nat (S n) ≤ a) → m' !! a = m !! a.
Proof.
  induction n as [|n IH]; intros m s t l Hs Ht Hdis; pose proof Hs as (? & ? & _).
  { cbn. rewrite store_mapped by eauto with memory. eexists; split; [done|]. split.
    - split; [|constructor]. apply bytes_at_cons. cbn.
      rewrite lookup_insert_eq. split_and!; [lia..|done|apply bytes_at_nil; lia].
    - intros a Ha. by rewrite lookup_insert_ne by lia. }
  cbn [safestrcpy_loop]. unfold load. destruct l as [|b l].
  - rewrite (cstr_nil _ _ Ht). cbn. rewrite store_mapped by eauto with memory. cbn.
    rewrite ptr_add_small, store_mapped by (lia || eauto with memory).
    eexists; split; [done|]. split.
    + split; [|constructor]. apply bytes_at_cons. cbn.
      rewrite lookup_insert_ne, lookup_insert_eq by lia.
      split_and!; [lia..|done|apply bytes_at_nil; lia].
    + intros a Ha. by rewrite !lookup_insert_ne by lia.
  - pose proof (cstr_cons _ _ _ _ Ht) as (Hb & ? & E & [Ht' HF]). rewrite E. cbn.
    rewrite store_mapped by eauto with memory. cbn. case_if; [lia|].
    rewrite !ptr_add_small by lia.
    destruct (IH (<[s := b]> m) (s + 1) (t + 1) l) as (m' & E' & Hc & Hfr).
    { auto with memory. }
    { split; [|done]. apply bytes_at_insert_out; [done|]. rewrite length_app. cbn in *. lia. }
    { cbn in *. lia. }
    exists m'. split; [done|]. destruct Hc as [Hc HFc]. split.
    + split; [|constructor; done]. cbn. apply bytes_at_cons.
      split_and!; [lia| | |done].
      * destruct Hc as (_ & Hc & _). lia.
      * by rewrite Hfr, lookup_insert_eq by lia.
    + intros a Ha. by rewrite Hfr, lookup_insert_ne by lia.
Qed.

(** [safestrcpy] always leaves a NUL-terminated string in a buffer of
    [n > 0] bytes: the longest prefix of the source that fits in [n - 1]
    characters, and no byte outside the buffer changes. *)
Theorem safestrcpy_correct (m : mem) (s t n : Z) (l : list Z) :
  0 < n → range_ok m s (Z.to_nat n) → cstr m t l →
  (s + n ≤ t ∨ t + Z.of_nat (length l) < s) →
  ∃ m', safestrcpy m s t n = Ret (s, m') ∧
        cstr m' s (take (Z.to_nat (n - 1)) l) ∧
        ∀ a, (a < s ∨ s + n ≤ a) → m' !! a = m !! a.
Proof.
  intros Hn Hs Ht Hdis. unfold safestrcpy. case_if; [lia|].
  destruct (safestrcpy_loop_spec (Z.to_nat (n - 1)) m s t l) as (m' & E & Hc & Hfr).
  { by replace (S (Z.to_nat (n - 1))) with (Z.to_nat n) by lia. }
  { done. }
  { lia. }
  exists m'. rewrite E. split_and!; [done..|]. intros a Ha. apply Hfr. lia.
Qed.

(** ** Concrete runs *)

(** Eight bytes of memory at address 100. *)
Definition mem8 : mem := list_to_map (imap (λ i b, (100 + Z.of_nat i, b)) [1; 2; 3; 4; 5; 6; 0; 9]).

Lemma mem8_range a n : 100 ≤ a → a + Z.of_nat n ≤ 108 → range_ok mem8 a n.
Proof.
  intros. split_and!; [lia..|]. intros i Hi.
  assert (Forall (λ x, is_Some (mem8 !! x)) (seqZ 100 8)) as HF
    by (apply (bool_decide_unpack _); vm_compute; exact I).
  rewrite Forall_forall in HF. apply HF, elem_of_seqZ. lia.
Qed.

Lemma memmove_correct_witness :
  ∃ m', memmove mem8 102 100 4 = Ret (102, m') ∧
        updated mem8 m' 102 4 (fun i => mem8 !! (100 + i)).
Proof. apply (memmove_correct mem8 102 100 4); [lia|apply mem8_range; lia..]. Defined.

Lemma memset_correct_witness :
  ∃ m', memset mem8 100 300 4 = Ret (100, m') ∧
        updated mem8 m' 100 4 (fun _ => Some (u8 300)).
Proof. apply (memset_correct mem8 100 300 4); [lia|apply mem8_range; lia]. Defined.

Lemma safestrcpy_correct_witness :
  ∃ m', safestrcpy mem8 100 104 3 = Ret (100, m') ∧
        cstr m' 100 (take 2 [5; 6]) ∧
        ∀ a, (a < 100 ∨ 103 ≤ a) → m' !! a = mem8 !! a.
Proof.
  apply (safestrcpy_correct mem8 100 104 3 [5; 6]); [lia|apply mem8_range; lia| |cbn; lia].
  split; [|repeat constructor; lia]. split_and!; cbn; [lia..|].
  intros i b Hb. do 3 (destruct i as [|i]; [simplify_eq/=; reflexivity|]). done.
Defined.
