(* ===== verification/Spinlock.v ===== *)
(** * Spin locks and sleep locks (xv6 [spinlock.c], [sleeplock.c])

    [pushcli]/[popcli] act on one CPU; [acquire]/[release] are sequences of
    micro-steps of several CPUs on one shared lock, with the atomic [xchg] as
    a single step, so that the interleavings of the machine are those of the
    step relation.  The debugging call-stack record [pcs] is not modelled. *)

From stdpp Require Import base numbers list strings relations.
From S2P Require Import Prelude.

Open Scope Z_scope.

(** ** Interrupt state of a CPU *)
Definition FL_IF : Z := 512.

Record cpu := Cpu {
  eflags : Z;     (* the flags register *)
  ncli : Z;       (* depth of pushcli nesting *)
  intena : Z      (* were interrupts enabled before pushcli? *)
}.

Definition cli (c : cpu) : cpu := Cpu (Z.land (eflags c) (Z.lnot FL_IF)) (ncli c) (intena c).
Definition sti (c : cpu) : cpu := Cpu (Z.lor (eflags c) FL_IF) (ncli c) (intena c).
Definition set_ncli (c : cpu) (n : Z) : cpu := Cpu (eflags c) n (intena c).
Definition set_intena (c : cpu) (i : Z) : cpu := Cpu (eflags c) (ncli c) i.
Definition interruptible (c : cpu) : bool := negb (Z.land (eflags c) FL_IF =? 0).

Definition pushcli (c : cpu) : cpu :=
  let flags := eflags c in
  let c := cli c in
  let c := if ncli c =? 0 then set_intena c (Z.land flags FL_IF) else c in
  set_ncli c (ncli c + 1).

Definition popcli (c : cpu) : outcome cpu :=
  if interruptible c then Panic "popcli - interruptible"
  else
    let c := set_ncli c (ncli c - 1) in
    if ncli c <? 0 then Panic "popcli"
    else if (ncli c =? 0) && negb (intena c =? 0) then Ret (sti c)
    else Ret c.

(** ** The spin lock *)
Record spinlock := Lock {
  locked : Z;            (* is the lock held? *)
  lk_cpu : option nat    (* the cpu holding the lock *)
}.

Definition initlock : spinlock := Lock 0 None.

Definition holding (lk : spinlock) (mycpu : nat) : bool :=
  negb (locked lk =? 0) && bool_decide (lk_cpu lk = Some mycpu).

(** Where a CPU is in [acquire]/[release]. *)
Inductive pc :=
  | Outside      (* not using the lock *)
  | Spinning     (* in acquire, before a successful xchg *)
  | Exchanged    (* xchg returned 0, lk->cpu not yet recorded *)
  | Critical     (* acquire has returned *)
  | Unrecorded   (* in release, lk->cpu cleared, lk->locked still 1 *)
  | Panicked.

Record sys := Sys { lk : spinlock; cpus : list (cpu * pc) }.

(** [acquire] up to the spin loop; the outcome of the [holding] test. *)
Definition acquire_enter (l : spinlock) (i : nat) (c : cpu) : cpu * pc :=
  let c := pushcli c in
  if holding l i then (c, Panicked) else (c, Spinning).

(** One [xchg(&lk->locked, 1)] of the spin loop. *)
Definition acquire_xchg (l : spinlock) : spinlock * pc :=
  (Lock 1 (lk_cpu l), if locked l =? 0 then Exchanged else Spinning).

(** [lk->cpu = mycpu()]. *)
Definition acquire_record (l : spinlock) (i : nat) : spinlock := Lock (locked l) (Some i).

(** [release] up to the clearing of [lk->cpu]. *)
Definition release_enter (l : spinlock) (i : nat) : spinlock * pc :=
  if holding l i then (Lock (locked l) None, Unrecorded) else (l, Panicked).

(** The store [lk->locked = 0] and the final [popcli]. *)
Definition release_store (l : spinlock) (c : cpu) : spinlock * (cpu * pc) :=
  (Lock 0 (lk_cpu l),
   match popcli c with Ret c => (c, Outside) | _ => (c, Panicked) end).

(** One micro-step of CPU [i].  A CPU may call [acquire] from anywhere
    outside the two routines, also when it already holds the lock. *)
Inductive lstep : sys → sys → Prop :=
  | l_acquire l cs i c p : cs !! i = Some (c, p) → p = Outside ∨ p = Critical →
      lstep (Sys l cs) (Sys l (<[i := acquire_enter l i c]> cs))
  | l_xchg l cs i c : cs !! i = Some (c, Spinning) →
      lstep (Sys l cs) (Sys (acquire_xchg l).1 (<[i := (c, (acquire_xchg l).2)]> cs))
  | l_record l cs i c : cs !! i = Some (c, Exchanged) →
      lstep (Sys l cs) (Sys (acquire_record l i) (<[i := (c, Critical)]> cs))
  | l_release l cs i c p : cs !! i = Some (c, p) → p = Outside ∨ p = Critical →
      lstep (Sys l cs) (Sys (release_enter l i).1 (<[i := (c, (release_enter l i).2)]> cs))
  | l_store l cs i c : cs !! i = Some (c, Unrecorded) →
      lstep (Sys l cs) (Sys (release_store l c).1 (<[i := (release_store l c).2]> cs)).

(** ** The sleep lock

    [lk] of a sleep lock protects its two fields; each routine holds it for
    its whole body, so it is atomic up to [sleep]. *)
Record sleeplock := SLock { s_locked : Z; s_pid : Z }.

Definition initsleeplock : sleeplock := SLock 0 0.

(** [None]: the caller sleeps on the lock and tests it again when woken. *)
Definition acquiresleep (l : sleeplock) (pid : Z) : option sleeplock :=
  if negb (s_locked l =? 0) then None else Some (SLock 1 pid).
Definition releasesleep (l : sleeplock) : sleeplock := SLock 0 0.
Definition holdingsleep (l : sleeplock) : bool := negb (s_locked l =? 0).

(** ** Interrupt nesting *)

Lemma pushcli_spec c :
  ncli (pushcli c) = ncli c + 1 ∧ interruptible (pushcli c) = false ∧
  eflags (pushcli c) = Z.land (eflags c) (Z.lnot FL_IF) ∧
  intena (pushcli c) = if ncli c =? 0 then Z.land (eflags c) FL_IF else intena c.
Proof.
  unfold pushcli, interruptible. cbn. destruct (ncli c =? 0); cbn; split_and!; try done;
    rewrite <-Z.land_assoc, (Z.land_comm (Z.lnot FL_IF)), Z.land_lnot_diag, Z.land_0_r; done.
Qed.

Lemma popcli_nested c : interruptible c = false → 1 < ncli c →
  popcli c = Ret (set_ncli c (ncli c - 1)).
Proof.
  intros Hi Hn. unfold popcli. rewrite Hi. cbn. case_if; [lia|]. case_if; [lia|done].
Qed.

(** The flags register with its interrupt bit cleared and put back. *)
Lemma eflags_restore f : Z.lor (Z.land f (Z.lnot FL_IF)) (Z.land f FL_IF) = f.
Proof.
  rewrite <-Z.land_lor_distr_r, Z.lor_comm, Z.lor_lnot_diag. apply Z.land_m1_r.
Qed.

Lemma FL_IF_bit f : Z.land f FL_IF = 0 ∨ Z.land f FL_IF = FL_IF.
Proof.
  change FL_IF with (Z.shiftl 1 9). destruct (Z.testbit f 9) eqn:Hb.
  - right. apply Z.bits_inj'. intros n Hn. rewrite Z.land_spec, Z.shiftl_spec by lia.
    destruct (decide (n = 9)) as [->|]; [by rewrite Hb|].
    destruct (decide (n < 9)); [by rewrite (Z.testbit_neg_r 1), andb_false_r by lia|].
    rewrite (Z.bits_above_log2 1 (n - 9)), andb_false_r by (cbn; lia). done.
  - left. apply Z.bits_inj'. intros n Hn. rewrite Z.land_spec, Z.shiftl_spec, Z.bits_0 by lia.
    destruct (decide (n = 9)) as [->|]; [by rewrite Hb|].
    destruct (decide (n < 9)); [by rewrite (Z.testbit_neg_r 1), andb_false_r by lia|].
    rewrite (Z.bits_above_log2 1 (n - 9)), andb_false_r by (cbn; lia). done.
Qed.

(** [k] calls of [pushcli], and of [popcli]. *)
Definition pushes (k : nat) (c : cpu) : cpu := Nat.iter k pushcli c.
Fixpoint pops (k : nat) (c : cpu) : outcome cpu :=
  match k with O => Ret c | S k => c ← popcli c; pops k c end.

Lemma pushes_spec k c : ncli c = 0 →
  ncli (pushes (S k) c) = Z.of_nat (S k) ∧ interruptible (pushes (S k) c) = false ∧
  eflags (pushes (S k) c) = Z.land (eflags c) (Z.lnot FL_IF) ∧
  intena (pushes (S k) c) = Z.land (eflags c) FL_IF.
Proof.
  intros Hn. induction k as [|k IH].
  - change (pushes 1 c) with (pushcli c).
    destruct (pushcli_spec c) as (-> & -> & -> & ->). rewrite Hn. done.
  - change (pushes (S (S k)) c) with (pushcli (pushes (S k) c)).
    destruct IH as (I1 & I2 & I3 & I4).
    destruct (pushcli_spec (pushes (S k) c)) as (-> & -> & -> & ->).
    rewrite I1, I3, I4. split_and!; [lia|done| |].
    + by rewrite <-Z.land_assoc, Z.land_diag.
    + case_if; [lia|done].
Qed.

Lemma pops_spec k : ∀ c, ncli c = Z.of_nat (S k) → interruptible c = false →
  pops (S k) c = Ret (if intena c =? 0 then set_ncli c 0 else sti (set_ncli c 0)).
Proof.
  induction k as [|k IH]; intros c Hn Hi.
  - cbn. unfold popcli. rewrite Hi, Hn. cbn. by destruct (intena c =? 0).
  - cbn [pops]. rewrite popcli_nested by (done || lia).
    change (pops (S k) (set_ncli c (ncli c - 1)) =
            Ret (if intena c =? 0 then set_ncli c 0 else sti (set_ncli c 0))).
    rewrite IH; [done|cbn; lia|done].
Qed.

(** Interrupt disabling nests: from a CPU not inside any [pushcli],
    [k + 1] calls of [pushcli] leave interrupts off and [k + 1] calls of
    [popcli] then succeed and put the flags register back exactly as it was,
    interrupts enabled or not; one [popcli] more panics. *)
Theorem cli_nesting (c : cpu) (k : nat) :
  ncli c = 0 →
  interruptible (pushes (S k) c) = false ∧
  ∃ c', pops (S k) (pushes (S k) c) = Ret c' ∧
        eflags c' = eflags c ∧ ncli c' = 0 ∧ ∃ msg, popcli c' = Panic msg.
Proof.
  intros Hn. destruct (pushes_spec k c Hn) as (H1 & H2 & H3 & H4). split; [done|].
  rewrite (pops_spec k) by done. eexists. split; [done|]. rewrite H4.
  split_and!.
  - etransitivity; [|apply eflags_restore]. case_if as E; cbn [eflags set_ncli sti]; rewrite H3.
    + by rewrite E, Z.lor_0_r.
    + destruct (FL_IF_bit (eflags c)) as [Hz| ->]; [congruence|done].
  - by destruct (_ =? 0).
  - unfold popcli. case_match; [eauto|]. destruct (Z.land _ _ =? 0); cbn; eauto.
Qed.

(** ** Mutual exclusion *)

Definition owns (p : pc) : bool :=
  match p with Exchanged | Critical | Unrecorded => true | _ => false end.
Definition engaged (p : pc) : bool :=
  match p with Spinning | Exchanged | Critical | Unrecorded => true | _ => false end.

Record linv (s : sys) : Prop := {
  li_01 : locked (lk s) = 0 ∨ locked (lk s) = 1;
  li_owner_locked i c p : cpus s !! i = Some (c, p) → owns p = true → locked (lk s) = 1;
  li_unique i j c d p q : cpus s !! i = Some (c, p) → cpus s !! j = Some (d, q) →
    owns p = true → owns q = true → i = j;
  li_cpu i : lk_cpu (lk s) = Some i → locked (lk s) = 1 ∧
    (∃ c p, cpus s !! i = Some (c, p) ∧ (p = Critical ∨ p = Panicked)) ∧
    ∀ j c p, cpus s !! j = Some (c, p) → owns p = true → j = i;
  li_critical i c : cpus s !! i = Some (c, Critical) → lk_cpu (lk s) = Some i;
  li_cli i c p : cpus s !! i = Some (c, p) →
    0 ≤ ncli c ∧ (engaged p = true → interruptible c = false ∧ 0 < ncli c)
}.

Definition sys_init (cs : list cpu) : sys := Sys initlock ((λ c, (c, Outside)) <$> cs).

Lemma linv_init cs : Forall (λ c, 0 ≤ ncli c) cs → linv (sys_init cs).
Proof.
  intros HF. split; unfold sys_init; cbn; intros;
    repeat match goal with
    | H : (_ <$> _) !! _ = Some _ |- _ =>
        rewrite list_lookup_fmap in H; apply fmap_Some in H as (? & ? & ?)
    end; simplify_eq/=; auto; try done.
  split; [|done]. rewrite Forall_forall in HF. apply HF. by eapply list_elem_of_lookup_2.
Qed.

Lemma popcli_engaged c : interruptible c = false → 0 < ncli c →
  ∃ c', popcli c = Ret c' ∧ 0 ≤ ncli c'.
Proof.
  intros Hi Hn. unfold popcli. rewrite Hi. cbn. case_if; [lia|].
  case_if; eexists; split; try done; cbn; lia.
Qed.

(** Split lookups in an updated CPU table. *)
Ltac split_cpus :=
  repeat match goal with
  | H : <[_ := _]> _ !! _ = Some _ |- _ =>
      apply list_lookup_insert_Some in H as [(? & ? & ?)|(? & ?)]
  end; simplify_eq/=.

Lemma holding_iff s i c p : linv s → cpus s !! i = Some (c, p) → p ≠ Panicked →
  holding (lk s) i = true ↔ p = Critical.
Proof.
  intros Hs Hi Hp. unfold holding.
  rewrite andb_true_iff, bool_decide_eq_true, negb_true_iff, Z.eqb_neq. split.
  - intros [_ (_ & (c' & p' & E & ?) & _)%(li_cpu s Hs)].
    rewrite Hi in E. simplify_eq. tauto.
  - intros ->. split; [|by eapply (li_critical s Hs)].
    rewrite (li_owner_locked s Hs i c Critical) by done. done.
Qed.

Definition cli_ok (c : cpu) (p : pc) : Prop :=
  0 ≤ ncli c ∧ (engaged p = true → interruptible c = false ∧ 0 < ncli c).

(** A CPU moves without gaining the lock and without touching it. *)
Lemma linv_move l cs i c p c' p' :
  linv (Sys l cs) → cs !! i = Some (c, p) →
  (owns p' = true → owns p = true) → (p' = Critical → p = Critical) →
  (lk_cpu l = Some i → p' = Critical ∨ p' = Panicked) → cli_ok c' p' →
  linv (Sys l (<[i := (c', p')]> cs)).
Proof.
  intros Hs Hi Ho Hc Hp Hcli.
  destruct Hs as [I0 I1 I2 I3 I4 I5]; cbn in *. split; cbn.
  - done.
  - intros j d q Hj Hq. split_cpus; eauto.
  - intros j k d e q r Hj Hk Hq Hr. split_cpus; eauto.
  - intros j Hj. destruct (I3 _ Hj) as (? & (d & q & Hd & Hq) & Hu). split_and!; [done| |].
    + destruct (decide (i = j)) as [<-|].
      * exists c', p'. rewrite list_lookup_insert_eq by (by eapply lookup_lt_Some). eauto.
      * exists d, q. rewrite list_lookup_insert_ne by done. eauto.
    + intros k e r Hk Hr. split_cpus; eauto.
  - intros j d Hj. split_cpus; eauto. by eapply I4; rewrite <-Hc.
  - intros j d q Hj. split_cpus; eauto.
Qed.

Lemma linv_acquire l cs i c p :
  linv (Sys l cs) → cs !! i = Some (c, p) → p = Outside ∨ p = Critical →
  linv (Sys l (<[i := acquire_enter l i c]> cs)).
Proof.
  intros Hs Hi Hp. unfold acquire_enter.
  pose proof (holding_iff _ i c p Hs Hi) as Hh. cbn in Hh.
  destruct (pushcli_spec c) as (Hn & Hint & _).
  pose proof (li_cli _ Hs i c p Hi) as [? _].
  destruct (holding l i) eqn:Eh.
  - eapply linv_move; try done; [auto|]. split; [lia|done].
  - eapply linv_move; try done.
    + intros Hc. destruct (li_cpu _ Hs _ Hc) as (? & (d & q & Hd & Hq) & _). cbn in *.
      unfold holding in Eh. cbn in *. rewrite Hc, bool_decide_true, andb_true_r in Eh by done.
      bool_to_prop. lia.
    + split; [lia|]. auto with lia.
Qed.

Lemma linv_xchg l cs i c :
  linv (Sys l cs) → cs !! i = Some (c, Spinning) →
  linv (Sys (acquire_xchg l).1 (<[i := (c, (acquire_xchg l).2)]> cs)).
Proof.
  intros Hs Hi. pose proof (li_cli _ Hs i c _ Hi) as Hcli. cbn in Hcli.
  pose proof Hs as [I0 I1 I2 I3 I4 I5]; cbn in *.
  assert (lk_cpu l ≠ Some i) as Hni.
  { intros (_ & (d & q & Hd & Hq) & _)%I3. rewrite Hi in Hd. naive_solver. }
  unfold acquire_xchg. destruct (locked l =? 0) eqn:El; bool_to_prop; cbn.
  - assert (∀ j d q, cs !! j = Some (d, q) → owns q = true → False) as Hno.
    { intros j d q Hj Hq. specialize (I1 _ _ _ Hj Hq). lia. }
    assert (lk_cpu l = None) as Hnone.
    { destruct (lk_cpu l) as [j|] eqn:Ej; [|done]. destruct (I3 j) as [? _]; [done|lia]. }
    split; cbn; rewrite ?Hnone; try done.
    + auto.
    + intros j k d e q r Hj Hk Hq Hr. split_cpus; naive_solver.
    + intros j d Hj. split_cpus. exfalso. by eapply Hno.
    + intros j d q Hj. split_cpus; eauto.
  - destruct l as [lo lc]. cbn in *. destruct I0 as [?| ->]; [done|].
    eapply linv_move; try done.
Qed.

Lemma linv_record l cs i c :
  linv (Sys l cs) → cs !! i = Some (c, Exchanged) →
  linv (Sys (acquire_record l i) (<[i := (c, Critical)]> cs)).
Proof.
  intros Hs Hi. pose proof Hs as [I0 I1 I2 I3 I4 I5]; cbn in *.
  assert (∀ j d q, cs !! j = Some (d, q) → owns q = true → j = i) as Hu by eauto.
  split; cbn.
  - done.
  - intros j d q Hj Hq. split_cpus; eauto.
  - intros j k d e q r Hj Hk Hq Hr. split_cpus; eauto.
  - intros j [= <-]. split_and!; [by eapply I1|..].
    + exists c, Critical. rewrite list_lookup_insert_eq by (by eapply lookup_lt_Some). auto.
    + intros k e r Hk Hr. split_cpus; eauto.
  - intros j d Hj. split_cpus; [done|]. exfalso.
    by assert (j = i) by eauto.
  - intros j d q Hj. split_cpus; [|eauto]. by eapply (I5 _ _ Exchanged).
Qed.

Lemma linv_release l cs i c p :
  linv (Sys l cs) → cs !! i = Some (c, p) → p = Outside ∨ p = Critical →
  linv (Sys (release_enter l i).1 (<[i := (c, (release_enter l i).2)]> cs)).
Proof.
  intros Hs Hi Hp. unfold release_enter.
  pose proof (li_cli _ Hs i c p Hi) as Hcli. cbn in Hcli.
  assert (holding l i = true ↔ p = Critical) as Hh
    by (apply (holding_iff _ i c p Hs Hi); naive_solver).
  pose proof Hs as [I0 I1 I2 I3 I4 I5]; cbn in *.
  destruct (holding l i) eqn:Eh; cbn.
  - assert (p = Critical) as -> by tauto. split; cbn.
    + done.
    + intros j d q Hj Hq. split_cpus; eauto.
    + intros j k d e q r Hj Hk Hq Hr. split_cpus; eauto.
    + done.
    + intros j d Hj. split_cpus. exfalso. by assert (i = j) by eauto.
    + intros j d q Hj. split_cpus; eauto.
  - eapply linv_move; try done; auto. destruct Hcli. by split.
Qed.

Lemma linv_store l cs i c :
  linv (Sys l cs) → cs !! i = Some (c, Unrecorded) →
  linv (Sys (release_store l c).1 (<[i := (release_store l c).2]> cs)).
Proof.
  intros Hs Hi. pose proof Hs as [I0 I1 I2 I3 I4 I5]; cbn in *.
  destruct (I5 _ _ _ Hi) as [_ []]; [done|].
  destruct (popcli_engaged c) as (c' & E & Hn); [done..|].
  unfold release_store. rewrite E. cbn.
  assert (∀ j d q, cs !! j = Some (d, q) → owns q = true → j = i) as Hu by eauto.
  assert (lk_cpu l = None) as Hnone.
  { destruct (lk_cpu l) as [j|] eqn:Ej; [|done].
    destruct (I3 j eq_refl) as (_ & (d & q & Hd & Hq) & Hj).
    assert (i = j) as <- by eauto. rewrite Hi in Hd. naive_solver. }
  rewrite Hnone. split; cbn.
  - auto.
  - intros j d q Hj Hq. split_cpus. by assert (j = i) by eauto.
  - intros j k d e q r Hj Hk Hq Hr. split_cpus. by assert (j = i) by eauto.
  - done.
  - intros j d Hj. split_cpus. by assert (j = i) by eauto.
  - intros j d q Hj. split_cpus; [done|eauto].
Qed.

Lemma linv_step s s' : linv s → lstep s s' → linv s'.
Proof.
  intros Hs Hst. destruct Hst; eauto using linv_acquire, linv_xchg, linv_record,
    linv_release, linv_store.
Qed.

Lemma linv_steps s s' : linv s → rtc lstep s s' → linv s'.
Proof. intros Hs Hr. induction Hr; eauto using linv_step. Qed.


(** ** Concrete runs *)
Definition cpu_on : cpu := Cpu (FL_IF + 2) 0 0.

Lemma cli_nesting_witness :
  interruptible (pushes 3 cpu_on) = false ∧
  ∃ c', pops 3 (pushes 3 cpu_on) = Ret c' ∧
        eflags c' = eflags cpu_on ∧ ncli c' = 0 ∧ ∃ msg, popcli c' = Panic msg.
Proof. apply (cli_nesting cpu_on 2). reflexivity. Defined.

