(* ===== verification/Pipe.v ===== *)
(** * Pipes (xv6 [pipe.c])

    A pipe is a 512-byte ring buffer with two free-running 32-bit counters.
    [pipewrite] and [piperead] hold the pipe's lock except while they sleep,
    so a call is a sequence of atomic segments: a segment runs until the call
    returns or sleeps, and a sleeping call resumes with the pipe as others
    left it.  The theorems are about any interleaving of such segments. *)

From stdpp Require Import base numbers list strings relations.
From S2P Require Import Prelude.

Open Scope Z_scope.

(** ** State *)
Definition PIPESIZE : Z := 512.

Record pipe := Pipe {
  data : list Z;
  nread : Z;       (* number of bytes read *)
  nwrite : Z;      (* number of bytes written *)
  readopen : Z;    (* read fd is still open *)
  writeopen : Z    (* write fd is still open *)
}.

(** Sleep channels: the addresses of the two counters. *)
Inductive chan := Chan_nread | Chan_nwrite.

(** How a segment ends: the call returns a value, or sleeps on a channel.
    [seg_i] is the loop index reached, [seg_woken] the channels woken. *)
Inductive status := Returns (r : Z) | Sleeps (c : chan).
Record segment := Segment {
  seg_status : status;
  seg_i : Z;
  seg_pipe : pipe;
  seg_woken : list chan
}.

(** ** Operations *)

(** The fields [pipealloc] initialises; the data page comes from [kalloc]. *)
Definition pipe_init (page : list Z) : pipe := Pipe page 0 0 1 1.

(** Returns the pipe, the channels woken, and whether its page is freed. *)
Definition pipeclose (p : pipe) (writable : bool) : pipe * list chan * bool :=
  let '(p, w) :=
    if writable
    then (Pipe (data p) (nread p) (nwrite p) (readopen p) 0, [Chan_nread])
    else (Pipe (data p) (nread p) (nwrite p) 0 (writeopen p), [Chan_nwrite]) in
  (p, w, (readopen p =? 0) && (writeopen p =? 0)).

Definition full (p : pipe) : bool := nwrite p =? u32 (nread p + PIPESIZE).
Definition empty (p : pipe) : bool := nread p =? nwrite p.

(** [p->data[p->nwrite++ % PIPESIZE] = b]. *)
Definition put (p : pipe) (b : Z) : outcome pipe :=
  d ← arr_set (data p) (nwrite p mod PIPESIZE) b;
  Ret (Pipe d (nread p) (u32 (nwrite p + 1)) (readopen p) (writeopen p)).

(** [p->data[p->nread++ % PIPESIZE]]. *)
Definition get (p : pipe) : outcome (Z * pipe) :=
  b ← arr_get (data p) (nread p mod PIPESIZE);
  Ret (b, Pipe (data p) (u32 (nread p + 1)) (nwrite p) (readopen p) (writeopen p)).

(** The loop of [pipewrite] from index [i], with [n - i = cnt] bytes to go. *)
Fixpoint pipewrite_loop (p : pipe) (killed : bool) (addr : list Z) (n i : Z) (cnt : nat)
    : outcome segment :=
  match cnt with
  | O => Ret (Segment (Returns n) i p [Chan_nread])
  | S cnt =>
      if full p then
        if (readopen p =? 0) || killed then Ret (Segment (Returns (-1)) i p [])
        else Ret (Segment (Sleeps Chan_nwrite) i p [Chan_nread])
      else
        b ← arr_get addr i;
        p ← put p b;
        pipewrite_loop p killed addr n (i + 1) cnt
  end.

(** A call starts at [i = 0]; after a sleep it resumes at the index reached. *)
Definition pipewrite_from (i : Z) (p : pipe) (killed : bool) (addr : list Z) (n : Z)
    : outcome segment :=
  pipewrite_loop p killed addr n i (Z.to_nat (n - i)).
Definition pipewrite := pipewrite_from 0.

(** The copy loop of [piperead]: the bytes stored to [addr], in order. *)
Fixpoint piperead_loop (p : pipe) (cnt : nat) : outcome (list Z * pipe) :=
  match cnt with
  | O => Ret ([], p)
  | S cnt =>
      if empty p then Ret ([], p)
      else
        '(b, p) ← get p;
        '(bs, p) ← piperead_loop p cnt;
        Ret (b :: bs, p)
  end.

(** A segment of [piperead] and the bytes it copied out. *)
Definition piperead (p : pipe) (killed : bool) (n : Z) : outcome (segment * list Z) :=
  if empty p && negb (writeopen p =? 0) then
    if killed then Ret (Segment (Returns (-1)) 0 p [], [])
    else Ret (Segment (Sleeps Chan_nread) 0 p [], [])
  else
    '(bs, p) ← piperead_loop p (Z.to_nat n);
    let i := Z.of_nat (length bs) in
    Ret (Segment (Returns i) i p [Chan_nwrite], bs).

(** ** Invariant and abstract contents *)

(** Number of bytes buffered, and the buffered bytes oldest first. *)
Definition count (p : pipe) : Z := u32 (nwrite p - nread p).
Definition slot (p : pipe) (k : nat) : nat :=
  Z.to_nat ((nread p + Z.of_nat k) mod PIPESIZE).
Definition contents (p : pipe) : list Z :=
  (λ k, data p !!! slot p k) <$> seq 0 (Z.to_nat (count p)).

Record pipe_ok (p : pipe) : Prop := {
  ok_data : length (data p) = 512%nat;
  ok_nread : 0 ≤ nread p < 2 ^ 32;
  ok_nwrite : 0 ≤ nwrite p < 2 ^ 32;
  ok_count : count p ≤ PIPESIZE
}.

Ltac unmod := unfold count, u32, PIPESIZE in *.

Lemma full_iff p : pipe_ok p → full p = true ↔ count p = PIPESIZE.
Proof.
  intros [_ ? ? ?]. unfold full. rewrite Z.eqb_eq. unmod.
  Z.div_mod_to_equations; lia.
Qed.

Lemma empty_iff p : pipe_ok p → empty p = true ↔ count p = 0.
Proof.
  intros [_ ? ? ?]. unfold empty. rewrite Z.eqb_eq. unmod.
  Z.div_mod_to_equations; lia.
Qed.

Lemma count_range p : 0 ≤ count p < 2 ^ 32.
Proof. apply u32_range. Qed.

(** The write position is the slot just past the buffered bytes. *)
Lemma write_slot p : pipe_ok p →
  Z.to_nat (nwrite p mod PIPESIZE) = slot p (Z.to_nat (count p)).
Proof.
  intros [_ ? ? ?]. unfold slot. f_equal. pose proof (count_range p).
  rewrite Z2Nat.id by lia. unmod. Z.div_mod_to_equations; lia.
Qed.

Lemma slot_lt p k : (slot p k < 512)%nat.
Proof. unfold slot, PIPESIZE. pose proof (Z.mod_pos_bound (nread p + Z.of_nat k) 512). lia. Qed.

Lemma slot_inj p j k : (j < 512)%nat → (k < 512)%nat → slot p j = slot p k → j = k.
Proof. unfold slot, PIPESIZE. intros. Z.div_mod_to_equations; lia. Qed.

Lemma contents_length p : Z.of_nat (length (contents p)) = count p.
Proof.
  unfold contents. rewrite length_fmap, length_seq. pose proof (count_range p). lia.
Qed.

(** Storing a byte into a pipe that is not full appends it. *)
Lemma put_spec p b : pipe_ok p → full p = false →
  ∃ p', put p b = Ret p' ∧ pipe_ok p' ∧ contents p' = contents p ++ [b] ∧
        readopen p' = readopen p ∧ writeopen p' = writeopen p.
Proof.
  intros Hok Hf. pose proof Hok as [Hd Hr Hw Hc].
  assert (count p < PIPESIZE) as Hlt.
  { destruct (decide (count p = PIPESIZE)) as [E|E]; [|lia].
    apply full_iff in E; congruence. }
  unfold put. rewrite arr_set_in.
  2:{ rewrite Hd. unfold PIPESIZE. pose proof (Z.mod_pos_bound (nwrite p) 512). lia. }
  cbn. eexists. split; [done|].
  set (p' := Pipe _ _ _ _ _). pose proof (count_range p) as Hcr.
  assert (count p' = count p + 1) as Hcnt.
  { subst p'. unmod; cbn. Z.div_mod_to_equations; lia. }
  split; [|split; [|done]].
  { split; cbn; [by rewrite length_insert|done|apply u32_range|]. lia. }
  unfold contents. rewrite Hcnt.
  replace (Z.to_nat (count p + 1)) with (S (Z.to_nat (count p))) by lia.
  rewrite seq_S, fmap_app. cbn [fmap list_fmap]. f_equal.
  - apply list_fmap_ext. intros i k Hk. apply lookup_seq in Hk as [-> Hk].
    subst p'. cbn [data]. rewrite write_slot by done.
    change (slot (Pipe _ _ _ _ _) (0 + i)) with (slot p (0 + i)).
    rewrite list_lookup_total_insert_ne; [done|].
    intros E. unfold PIPESIZE in *. apply slot_inj in E; lia.
  - subst p'. cbn [data]. rewrite write_slot by done.
    change (slot (Pipe _ _ _ _ _) (0 + Z.to_nat (count p))) with (slot p (Z.to_nat (count p))).
    rewrite list_lookup_total_insert_eq; [done|]. rewrite Hd. apply slot_lt.
Qed.

(** Taking a byte from a pipe that is not empty removes the oldest. *)
Lemma get_spec p : pipe_ok p → empty p = false →
  ∃ b p', get p = Ret (b, p') ∧ pipe_ok p' ∧ contents p = b :: contents p' ∧
          readopen p' = readopen p ∧ writeopen p' = writeopen p.
Proof.
  intros Hok He. pose proof Hok as [Hd Hr Hw Hc].
  pose proof (count_range p) as Hcr.
  assert (0 < count p) as Hpos.
  { destruct (decide (count p = 0)) as [E|E]; [|lia].
    apply empty_iff in E; congruence. }
  destruct (arr_get_in (data p) (nread p mod PIPESIZE)) as (b & Eb & Hb).
  { rewrite Hd. unfold PIPESIZE. pose proof (Z.mod_pos_bound (nread p) 512). lia. }
  unfold get. rewrite Eb. cbn. do 2 eexists. split; [done|].
  set (p' := Pipe _ _ _ _ _).
  assert (count p' = count p - 1) as Hcnt.
  { subst p'. unmod; cbn. Z.div_mod_to_equations; lia. }
  split; [|split; [|done]].
  { split; cbn; [done|apply u32_range|done|]. lia. }
  unfold contents. rewrite Hcnt.
  replace (Z.to_nat (count p)) with (S (Z.to_nat (count p - 1))) by lia.
  rewrite <-cons_seq, <-fmap_S_seq, fmap_cons, <-list_fmap_compose. f_equal.
  - apply list_lookup_total_correct. unfold slot. rewrite Z.add_0_r. done.
  - apply list_fmap_ext. intros i k _. subst p'. cbn [data compose]. f_equal.
    unfold slot; cbn [nread]. f_equal. unmod. Z.div_mod_to_equations; lia.
Qed.

(** What a segment of [pipewrite] that started at [i] did: it appended the
    bytes between [i] and the index reached, and it stopped for a reason. *)
Record write_seg (p : pipe) (killed : bool) (addr : list Z) (n i : Z) (g : segment) : Prop := {
  ws_ok : pipe_ok (seg_pipe g);
  ws_i : i ≤ seg_i g ≤ n;
  ws_contents : contents (seg_pipe g) =
    contents p ++ take (Z.to_nat (seg_i g - i)) (drop (Z.to_nat i) addr);
  ws_open : readopen (seg_pipe g) = readopen p ∧ writeopen (seg_pipe g) = writeopen p;
  ws_status : match seg_status g with
    | Returns r =>
        (r = n ∧ seg_i g = n ∧ seg_woken g = [Chan_nread]) ∨
        (r = -1 ∧ count (seg_pipe g) = PIPESIZE ∧ seg_i g < n ∧
         (readopen p = 0 ∨ killed = true))
    | Sleeps c => c = Chan_nwrite ∧ count (seg_pipe g) = PIPESIZE ∧ seg_i g < n ∧
        readopen p ≠ 0 ∧ killed = false ∧ seg_woken g = [Chan_nread]
    end
}.

Lemma pipewrite_loop_spec killed addr n cnt : ∀ p i,
  pipe_ok p → 0 ≤ i → n = i + Z.of_nat cnt → n ≤ Z.of_nat (length addr) →
  ∃ g, pipewrite_loop p killed addr n i cnt = Ret g ∧ write_seg p killed addr n i g.
Proof.
  induction cnt as [|cnt IH]; intros p i Hok Hi Hn Hlen; cbn [pipewrite_loop].
  { eexists. split; [done|]. split; cbn; [done|lia| |done|auto with lia].
    by rewrite Z.sub_diag, take_0, app_nil_r. }
  destruct (full p) eqn:Hf.
  - apply full_iff in Hf; [|done]. case_if as Ek.
    + eexists. split; [done|].
      split; cbn; [done|lia|by rewrite Z.sub_diag, take_0, app_nil_r|done|].
      right. split_and!; [done|done|lia|].
      apply orb_true_iff in Ek as [?|?]; bool_to_prop; auto.
    + eexists. split; [done|].
      split; cbn; [done|lia|by rewrite Z.sub_diag, take_0, app_nil_r|done|].
      split_and!; (done || lia).
  - destruct (arr_get_in addr i) as (b & Eb & Hb); [lia|]. rewrite Eb. cbn.
    destruct (put_spec p b Hok Hf) as (p' & Ep & Hok' & Hc & Hro & Hwo). rewrite Ep. cbn.
    destruct (IH p' (i + 1) Hok') as (g & Eg & [G1 G2 G3 G4 G5]); [lia..|].
    exists g. split; [done|]. split; [done|lia| |rewrite <-Hro, <-Hwo; done|].
    + rewrite G3, Hc, <-app_assoc. f_equal.
      replace (Z.to_nat (i + 1)) with (S (Z.to_nat i)) by lia.
      rewrite (drop_S addr b (Z.to_nat i)) by done.
      replace (Z.to_nat (seg_i g - i)) with (S (Z.to_nat (seg_i g - (i + 1)))) by lia.
      done.
    + by rewrite <-Hro.
Qed.

Lemma piperead_loop_spec cnt : ∀ p, pipe_ok p →
  ∃ p', piperead_loop p cnt = Ret (take cnt (contents p), p') ∧ pipe_ok p' ∧
        contents p' = drop cnt (contents p) ∧
        readopen p' = readopen p ∧ writeopen p' = writeopen p.
Proof.
  induction cnt as [|cnt IH]; intros p Hok; cbn [piperead_loop].
  { exists p. by rewrite take_0, drop_0. }
  destruct (empty p) eqn:He.
  - apply empty_iff in He; [|done].
    assert (contents p = []) as E.
    { apply length_zero_iff_nil. pose proof (contents_length p). lia. }
    exists p. by rewrite E.
  - destruct (get_spec p Hok He) as (b & p1 & Eb & Hok1 & Hc & Hro & Hwo).
    rewrite Eb. cbn. destruct (IH p1 Hok1) as (p2 & E2 & Hok2 & Hc2 & ? & ?).
    rewrite E2. cbn. exists p2. rewrite Hc. cbn. split_and!; congruence.
Qed.

Lemma pipewrite_from_spec p killed addr n i :
  pipe_ok p → 0 ≤ i ≤ n → n ≤ Z.of_nat (length addr) →
  ∃ g, pipewrite_from i p killed addr n = Ret g ∧ write_seg p killed addr n i g.
Proof. intros. apply pipewrite_loop_spec; [done|lia..]. Qed.

(** [piperead] when it waits, and when it copies. *)
Lemma piperead_waits p killed n : pipe_ok p → count p = 0 → writeopen p ≠ 0 →
  piperead p killed n =
    Ret (Segment (if killed then Returns (-1) else Sleeps Chan_nread) 0 p [], []).
Proof.
  intros Hok Hc Hw. unfold piperead. apply empty_iff in Hc; [|done]. rewrite Hc.
  apply Z.eqb_neq in Hw. rewrite Hw. by destruct killed.
Qed.

Lemma piperead_copies p killed n : pipe_ok p → ¬ (count p = 0 ∧ writeopen p ≠ 0) →
  let bs := take (Z.to_nat n) (contents p) in
  ∃ p', piperead p killed n =
          Ret (Segment (Returns (Z.of_nat (length bs))) (Z.of_nat (length bs)) p'
                 [Chan_nwrite], bs) ∧
        pipe_ok p' ∧ contents p = bs ++ contents p' ∧
        readopen p' = readopen p ∧ writeopen p' = writeopen p.
Proof.
  intros Hok Hd. unfold piperead.
  assert (empty p && negb (writeopen p =? 0) = false) as ->.
  { apply andb_false_iff. destruct (empty p) eqn:He; [|auto]. right.
    apply negb_false_iff, Z.eqb_eq. apply empty_iff in He; [|done].
    destruct (decide (writeopen p = 0)); tauto. }
  destruct (piperead_loop_spec (Z.to_nat n) p Hok) as (p' & E & Hok' & Hc & ? & ?).
  rewrite E. cbn. exists p'. rewrite Hc, take_drop. done.
Qed.

(** A segment of [pipewrite] never goes wrong, preserves the pipe's
    invariant, appends exactly the bytes between the index it started from and
    the index it reached, returns [n] only when all bytes are in the pipe,
    returns [-1] only when the pipe is full and the read end is closed or the
    writer killed, and sleeps only on a full pipe it has woken readers of. *)
Theorem pipewrite_segment (p : pipe) (killed : bool) (addr : list Z) (n i : Z) :
  pipe_ok p → 0 ≤ i ≤ n → n ≤ Z.of_nat (length addr) →
  ∃ g, pipewrite_from i p killed addr n = Ret g ∧ write_seg p killed addr n i g.
Proof. apply pipewrite_from_spec. Qed.

(** [piperead] sleeps exactly when the pipe is empty with its write end
    open (and the reader is not killed); otherwise it returns the oldest
    [min n count] bytes in order, zero bytes meaning end of file, leaves the
    rest in the pipe and wakes the writers. *)
Theorem piperead_segment (p : pipe) (killed : bool) (n : Z) :
  pipe_ok p →
  if decide (count p = 0 ∧ writeopen p ≠ 0) then
    piperead p killed n =
      Ret (Segment (if killed then Returns (-1) else Sleeps Chan_nread) 0 p [], [])
  else
    let bs := take (Z.to_nat n) (contents p) in
    ∃ p', piperead p killed n =
            Ret (Segment (Returns (Z.of_nat (length bs))) (Z.of_nat (length bs)) p'
                   [Chan_nwrite], bs) ∧
          pipe_ok p' ∧ contents p = bs ++ contents p' ∧
          readopen p' = readopen p ∧ writeopen p' = writeopen p.
Proof.
  intros Hok. case_decide as Hd.
  - destruct Hd. by apply piperead_waits.
  - by apply piperead_copies.
Qed.

(** ** Interleavings

    The pipe with what all writers have appended and all readers taken. *)
Record psys := PSys { sp : pipe; written : list Z; consumed : list Z }.

Inductive pstep : psys → psys → Prop :=
  | ps_write p W R killed addr n i g :
      0 ≤ i ≤ n → n ≤ Z.of_nat (length addr) →
      pipewrite_from i p killed addr n = Ret g →
      pstep (PSys p W R)
        (PSys (seg_pipe g) (W ++ take (Z.to_nat (seg_i g - i)) (drop (Z.to_nat i) addr)) R)
  | ps_read p W R killed n g bs :
      piperead p killed n = Ret (g, bs) →
      pstep (PSys p W R) (PSys (seg_pipe g) W (R ++ bs))
  | ps_close p W R writable p' w freed :
      pipeclose p writable = (p', w, freed) →
      pstep (PSys p W R) (PSys p' W R).

Definition psys_init (page : list Z) : psys := PSys (pipe_init page) [] [].

Definition psys_ok (s : psys) : Prop :=
  pipe_ok (sp s) ∧ written s = consumed s ++ contents (sp s).

Lemma pipe_init_ok page : length page = 512%nat → psys_ok (psys_init page).
Proof. intros. split; [split; cbn; unfold count, u32, PIPESIZE; cbn; (done || lia)|done]. Qed.

Lemma pipeclose_ok p writable p' w freed :
  pipe_ok p → pipeclose p writable = (p', w, freed) →
  pipe_ok p' ∧ contents p' = contents p.
Proof.
  intros [? ? ? ?] E. unfold pipeclose in E.
  destruct writable; simplify_eq/=; (split; [by split|done]).
Qed.

Lemma pstep_ok s s' : psys_ok s → pstep s s' → psys_ok s'.
Proof.
  intros [Hok HF] Hst. unfold psys_ok.
  destruct Hst as [p W R killed addr n i g Hi Hn E|p W R killed n g bs E|p W R wr p' w f E];
    cbn in *.
  - destruct (pipewrite_from_spec p killed addr n i Hok Hi Hn) as (g' & E' & [G1 _ G3 _ _]).
    assert (g' = g) as -> by congruence. split; [done|].
    by rewrite G3, HF, app_assoc.
  - destruct (decide (count p = 0 ∧ writeopen p ≠ 0)) as [[H1 H2]|H].
    + rewrite piperead_waits in E by done. simplify_eq/=. by rewrite app_nil_r.
    + destruct (piperead_copies p killed n Hok H) as (p' & E' & ? & Hc & _). rewrite E' in E. simplify_eq/=.
      split; [done|]. by rewrite <-app_assoc, <-Hc.
  - destruct (pipeclose_ok _ _ _ _ _ Hok E) as [? ->]. done.
Qed.

(** C25. However calls of any number of readers and writers interleave, the
    bytes delivered so far followed by the bytes still buffered are exactly
    the bytes accepted so far, in order: the pipe neither loses, duplicates
    nor reorders data, and never buffers more than 512 bytes, including
    across wrap-around of its 32-bit counters. *)
Theorem pipe_fifo (page : list Z) (s : psys) :
  length page = 512%nat → rtc pstep (psys_init page) s →
  written s = consumed s ++ contents (sp s) ∧ (length (contents (sp s)) ≤ 512)%nat.
Proof.
  intros Hpage Hr.
  assert (psys_ok s) as [Hok HF].
  { pose proof (pipe_init_ok page Hpage) as H0. revert H0.
    induction Hr as [|s1 s2 s3 Hst _ IH]; [done|]. intros H0. apply IH.
    by apply (pstep_ok s1). }
  split; [done|]. pose proof (contents_length (sp s)). destruct Hok as [_ _ _ Hc].
  unfold PIPESIZE in Hc. lia.
Qed.

(** ** Concrete runs *)
Definition page0 : list Z := replicate 512 0.

Lemma page0_ok : pipe_ok (pipe_init page0).
Proof. apply (pipe_init_ok page0). reflexivity. Qed.

Lemma pipewrite_segment_witness :
  ∃ g, pipewrite_from 1 (pipe_init page0) false [7; 8; 9] 3 = Ret g ∧
       write_seg (pipe_init page0) false [7; 8; 9] 3 1 g.
Proof. apply (pipewrite_segment (pipe_init page0) false [7; 8; 9] 3 1 page0_ok); cbn; lia. Defined.

Lemma piperead_segment_witness :
  piperead (pipe_init page0) false 4 =
    Ret (Segment (Sleeps Chan_nread) 0 (pipe_init page0) [], []).
Proof. exact (piperead_segment (pipe_init page0) false 4 page0_ok). Defined.

(** Two writes, the counters, and a read of the first byte. *)
Lemma pipe_fifo_witness :
  ∃ s, consumed s = [10] ∧ contents (sp s) = [20] ∧
       written s = consumed s ++ contents (sp s) ∧ (length (contents (sp s)) ≤ 512)%nat.
Proof.
  eexists. split; [|split]; [| |apply (pipe_fifo page0)].
  3: reflexivity.
  3: { eapply rtc_l.
       { apply (ps_write (pipe_init page0) [] [] false [10; 20] 2 0); [lia|cbn; lia|].
         vm_compute. reflexivity. }
       eapply rtc_l; [|apply rtc_refl].
       apply (ps_read _ _ _ false 1). vm_compute. reflexivity. }
  - reflexivity.
  - vm_compute. reflexivity.
Defined.
