(* ===== verification/Kalloc.v ===== *)
(** * The physical page allocator (xv6 [kalloc.c])

    Free pages form a linked list threaded through their own first words, in
    the byte memory of [XString]; [kfree] fills a page with junk before it
    links it.  The end of the kernel image, which the linker provides, is the
    section variable [kend]. *)

From stdpp Require Import base numbers list gmap strings relations.
From S2P Require Import Prelude XString.

Open Scope Z_scope.

(** ** Constants ([mmu.h], [memlayout.h]) *)
Definition PGSIZE : Z := 4096.
Definition KERNBASE : Z := 2147483648.
Definition PHYSTOP : Z := 234881024.

Definition V2P (a : Z) : Z := u32 (a - KERNBASE).
Definition PGROUNDUP (sz : Z) : Z := Z.land (u32 (sz + PGSIZE - 1)) (u32 (Z.lnot (PGSIZE - 1))).

(** ** 32-bit words in memory *)
Definition load32 (m : mem) (a : Z) : outcome Z :=
  b0 ← load m a;
  b1 ← load m (ptr_add a 1);
  b2 ← load m (ptr_add a 2);
  b3 ← load m (ptr_add a 3);
  Ret (b0 + 256 * b1 + 65536 * b2 + 16777216 * b3).

Definition store32 (m : mem) (a w : Z) : outcome mem :=
  m ← store m a (u8 w);
  m ← store m (ptr_add a 1) (u8 (w / 256));
  m ← store m (ptr_add a 2) (u8 (w / 65536));
  store m (ptr_add a 3) (u8 (w / 16777216)).

(** ** State and operations *)
Record kmem := KMem {
  use_lock : bool;
  k_locked : bool;     (* the lock, as its holder sees it *)
  freelist : Z;        (* 0 is the null pointer *)
  kmemory : mem
}.

Definition k_acquire (k : kmem) : outcome kmem :=
  if use_lock k then
    if k_locked k then Panic "acquire"
    else Ret (KMem (use_lock k) true (freelist k) (kmemory k))
  else Ret k.

Definition k_release (k : kmem) : outcome kmem :=
  if use_lock k then
    if k_locked k then Ret (KMem (use_lock k) false (freelist k) (kmemory k))
    else Panic "release"
  else Ret k.

Section kalloc.
Context (kend : Z).

Definition kfree (k : kmem) (v : Z) : outcome kmem :=
  if negb (v mod PGSIZE =? 0) || (v <? kend) || (PHYSTOP <=? V2P v)
  then Panic "kfree"
  else
    '(_, m) ← memset (kmemory k) v 1 PGSIZE;
    let k := KMem (use_lock k) (k_locked k) (freelist k) m in
    k ← k_acquire k;
    let r := v in
    m ← store32 (kmemory k) r (freelist k);
    k_release (KMem (use_lock k) (k_locked k) r m).

(** [for(; p + PGSIZE <= (char* )vend; p += PGSIZE) kfree(p);] *)
Fixpoint freerange_loop (k : kmem) (p vend : Z) (fuel : nat) : outcome kmem :=
  match fuel with
  | O => NoFuel
  | S fuel =>
      if ptr_add p PGSIZE <=? vend then
        k ← kfree k p;
        freerange_loop k (ptr_add p PGSIZE) vend fuel
      else Ret k
  end.

Definition freerange (k : kmem) (vstart vend : Z) : outcome kmem :=
  let p := PGROUNDUP vstart in
  freerange_loop k p vend (S (Z.to_nat ((vend - p) / PGSIZE))).

Definition kinit1 (m : mem) (vstart vend : Z) : outcome kmem :=
  freerange (KMem false false 0 m) vstart vend.

Definition kinit2 (k : kmem) (vstart vend : Z) : outcome kmem :=
  k ← freerange k vstart vend;
  Ret (KMem true (k_locked k) (freelist k) (kmemory k)).

Definition kalloc (k : kmem) : outcome (Z * kmem) :=
  k ← k_acquire k;
  let r := freelist k in
  k ← (if negb (r =? 0) then
         next ← load32 (kmemory k) r;
         Ret (KMem (use_lock k) (k_locked k) next (kmemory k))
       else Ret k);
  k ← k_release k;
  Ret (r, k).

(** ** The free list as a list of pages *)

(** A page the allocator may manage, and its bytes in memory. *)
Definition page_ok (a : Z) : Prop :=
  a mod PGSIZE = 0 ∧ kend ≤ a ∧ KERNBASE < a ∧ a < KERNBASE + PHYSTOP.
Definition page_mapped (m : mem) (a : Z) : Prop := range_ok m a (Z.to_nat PGSIZE).

Fixpoint chain (m : mem) (p : Z) (l : list Z) : Prop :=
  match l with
  | [] => p = 0
  | a :: l => p = a ∧ page_ok a ∧ page_mapped m a ∧ ∃ next, load32 m a = Ret next ∧ chain m next l
  end.

Record kinv (k : kmem) (l : list Z) : Prop := {
  ki_chain : chain (kmemory k) (freelist k) l;
  ki_nodup : NoDup l;
  ki_unlocked : k_locked k = false
}.

End kalloc.

(** ** Words and pages *)

(** Two memories agree on the page at [a]. *)
Definition same_page (m m' : mem) (a : Z) : Prop :=
  ∀ i, 0 ≤ i < PGSIZE → m' !! (a + i) = m !! (a + i).

Lemma load32_same m m' a :
  0 ≤ a → a + PGSIZE < 2 ^ 32 → same_page m m' a → load32 m' a = load32 m a.
Proof.
  unfold PGSIZE. intros ? ? H. unfold load32, load, PGSIZE in *.
  rewrite !ptr_add_small by lia.
  pose proof (H 0) as Hz. rewrite Z.add_0_r in Hz.
  rewrite Hz, !H by (unfold PGSIZE; lia). done.
Qed.

Lemma page_mapped_same m m' a : page_mapped m a → same_page m m' a → page_mapped m' a.
Proof.
  intros (? & ? & H) Hs. split_and!; [done..|]. intros i Hi. rewrite Hs by lia. auto.
Qed.

Lemma chain_same kend m m' l : ∀ p,
  chain kend m p l → (∀ a, a ∈ l → same_page m m' a) → chain kend m' p l.
Proof.
  induction l as [|a l IH]; intros p; [done|]. cbn.
  intros (-> & Hp & Hm & next & Hn & Hc) Hs. split_and!; [done..| |].
  - eapply page_mapped_same; [done|]. apply Hs. left.
  - exists next. split.
    + rewrite (load32_same m); [done|destruct Hm; lia|destruct Hm as (_ & ? & _); lia|].
      apply Hs. left.
    + apply IH; [done|]. intros b Hb. apply Hs. by right.
Qed.

Lemma store32_spec m a w :
  0 ≤ w < 2 ^ 32 → page_mapped m a →
  ∃ m', store32 m a w = Ret m' ∧ load32 m' a = Ret w ∧ page_mapped m' a ∧
        ∀ x, ¬ (a ≤ x < a + 4) → m' !! x = m !! x.
Proof.
  intros Hw Hm. pose proof Hm as (? & Hend & Hmap). unfold PGSIZE in *.
  unfold store32. rewrite !ptr_add_small by lia.
  assert (∀ i, 0 ≤ i < 4096 → is_Some (m !! (a + i))) as H4 by (intros; apply Hmap; lia).
  rewrite store_mapped by (rewrite <-(Z.add_0_r a); apply H4; lia). cbn.
  rewrite store_mapped by (rewrite !lookup_insert_is_Some'; right; apply H4; lia). cbn.
  rewrite store_mapped by (rewrite !lookup_insert_is_Some'; right; right; apply H4; lia). cbn.
  rewrite store_mapped
    by (rewrite !lookup_insert_is_Some'; right; right; right; apply H4; lia).
  eexists. split; [done|]. split_and!.
  - unfold load32, load. rewrite !ptr_add_small by lia.
    rewrite !lookup_insert. repeat case_decide; try lia. cbn. f_equal.
    unfold u8. Z.div_mod_to_equations; lia.
  - by repeat apply range_ok_insert.
  - intros x Hx. by rewrite !lookup_insert_ne by lia.
Qed.

Lemma page_range kend a : page_ok kend a → KERNBASE < a ∧ a + PGSIZE < 2 ^ 32 ∧ V2P a < PHYSTOP.
Proof.
  intros (? & ? & ? & ?). unfold V2P, PGSIZE, KERNBASE, PHYSTOP in *.
  rewrite u32_small by lia. lia.
Qed.

(** Distinct pages do not overlap. *)
Lemma pages_disjoint kend a b i :
  page_ok kend a → page_ok kend b → a ≠ b → 0 ≤ i < PGSIZE → ¬ (a ≤ b + i < a + PGSIZE).
Proof.
  intros (Ha & _) (Hb & _). unfold PGSIZE in *. intros. Z.div_mod_to_equations; lia.
Qed.

Lemma chain_page_ok kend m p l a : chain kend m p l → a ∈ l → page_ok kend a.
Proof.
  revert p. induction l as [|b l IH]; intros p Hc Ha; [by apply not_elem_of_nil in Ha|].
  destruct Hc as (_ & ? & _ & next & _ & ?). apply elem_of_cons in Ha as [->|]; eauto.
Qed.

Lemma chain_head kend m p l : chain kend m p l → 0 ≤ p < 2 ^ 32.
Proof.
  destruct l as [|a l]; [cbn; lia|]. intros (-> & Hp & _).
  pose proof (page_range kend a Hp). unfold KERNBASE, PGSIZE in *. lia.
Qed.

(** ** The operations on the abstract free list *)

Lemma k_lock_unlock k : k_locked k = false →
  ∃ k', k_acquire k = Ret k' ∧ freelist k' = freelist k ∧ kmemory k' = kmemory k ∧
        use_lock k' = use_lock k ∧
        ∀ f m, k_release (KMem (use_lock k') (k_locked k') f m) = Ret (KMem (use_lock k) false f m).
Proof.
  intros Hl. unfold k_acquire, k_release.
  destruct (use_lock k) eqn:Hu; [rewrite Hl|]; eexists; split; try done; cbn;
    rewrite ?Hu, ?Hl; done.
Qed.

Lemma kfree_spec kend k l v :
  kinv kend k l → page_ok kend v → page_mapped (kmemory k) v → v ∉ l →
  ∃ k', kfree kend k v = Ret k' ∧ kinv kend k' (v :: l) ∧ use_lock k' = use_lock k ∧
        ∀ x, ¬ (v ≤ x < v + PGSIZE) → kmemory k' !! x = kmemory k !! x.
Proof.
  intros [Hc Hnd Hl] Hv Hm Hnot. unfold kfree.
  pose proof (page_range kend v Hv) as (? & ? & ?). pose proof Hv as (Hal & ? & _).
  rewrite Hal. cbn [negb Z.eqb orb]. case_if as E.
  { apply orb_true_iff in E as [?|?]; bool_to_prop; lia. }
  destruct (memset_spec (kmemory k) v 1 PGSIZE) as (m1 & E1 & U1); [done|exact Hm|].
  rewrite E1. cbn [mbind outcome_bind].
  destruct (k_lock_unlock (KMem (use_lock k) (k_locked k) (freelist k) m1) Hl)
    as (k1 & -> & F1 & M1 & _ & Hrel). cbn in F1, M1. cbn [mbind outcome_bind].
  rewrite F1, M1.
  assert (page_mapped m1 v) as Hm1.
  { destruct Hm as (? & ? & ?). split_and!; [done..|]. intros i Hi. rewrite U1.
    case_decide; [eauto|lia]. }
  destruct (store32_spec m1 v (freelist k)) as (m2 & E2 & L2 & Hm2 & Fr2);
    [by eapply chain_head|done|].
  rewrite E2. cbn [mbind outcome_bind]. rewrite Hrel. eexists. split; [done|].
  assert (∀ x, ¬ (v ≤ x < v + PGSIZE) → m2 !! x = kmemory k !! x) as Hfr.
  { unfold PGSIZE in *. intros x Hx. rewrite Fr2 by lia. rewrite U1. case_decide; [lia|done]. }
  split; [|done]. split; [|by constructor|done]. cbn.
  split_and!; [done..|]. exists (freelist k). split; [done|].
  eapply chain_same; [done|]. intros a Ha i Hi. apply Hfr.
  eapply (pages_disjoint kend v a); eauto using chain_page_ok. set_solver.
Qed.

Lemma kalloc_spec kend k l :
  kinv kend k l →
  match l with
  | [] => kalloc k = Ret (0, k)
  | a :: l' => ∃ k', kalloc k = Ret (a, k') ∧ kinv kend k' l' ∧
      kmemory k' = kmemory k ∧ use_lock k' = use_lock k ∧ a ∉ l' ∧ page_ok kend a
  end.
Proof.
  intros [Hc Hnd Hl]. unfold kalloc.
  destruct (k_lock_unlock k Hl) as (k1 & -> & F1 & M1 & U1 & Hrel).
  cbn [mbind outcome_bind]. rewrite F1, M1. destruct l as [|a l'].
  - rewrite Hc in *. cbn. destruct k1 as [u1 l1 f1 m1], k as [u0 l0 f0 m0]; cbn in *.
    subst. rewrite Hrel. done.
  - destruct Hc as (-> & Hp & Hm & next & Hn & Hc).
    pose proof (page_range kend a Hp) as (? & _). unfold KERNBASE in *.
    case_if; [|lia]. rewrite Hn. cbn [mbind outcome_bind]. rewrite Hrel.
    apply NoDup_cons in Hnd as [? ?].
    eexists. split; [done|]. split_and!; [by split|done..].
Qed.

(** ** Initialisation *)

Definition pages (p : Z) (n : nat) : list Z := (λ i, p + Z.of_nat i * PGSIZE) <$> seq 0 n.

Lemma pages_S p n : pages p (S n) = p :: pages (p + PGSIZE) n.
Proof.
  unfold pages. rewrite <-cons_seq, <-fmap_S_seq, fmap_cons, <-list_fmap_compose.
  f_equal; [lia|]. apply list_fmap_ext. intros i x _. cbn [compose]. lia.
Qed.

Lemma elem_of_pages p n a : a ∈ pages p n → ∃ i, 0 ≤ i < Z.of_nat n ∧ a = p + i * PGSIZE.
Proof.
  unfold pages. intros (i & -> & Hi)%list_elem_of_fmap. apply elem_of_seq in Hi.
  exists (Z.of_nat i). lia.
Qed.

Lemma freerange_loop_spec kend n : ∀ k l p vend fuel,
  kinv kend k l → p mod PGSIZE = 0 → kend ≤ p → KERNBASE < p →
  p + Z.of_nat n * PGSIZE ≤ vend < p + Z.of_nat (S n) * PGSIZE →
  vend ≤ KERNBASE + PHYSTOP → (n < fuel)%nat →
  (∀ a, a ∈ pages p n → page_mapped (kmemory k) a ∧ a ∉ l) →
  ∃ k', freerange_loop kend k p vend fuel = Ret k' ∧ use_lock k' = use_lock k ∧
        kinv kend k' (rev (pages p n) ++ l) ∧
        ∀ a, page_mapped (kmemory k) a → page_mapped (kmemory k') a.
Proof.
  induction n as [|n IH]; intros k l p vend [|fuel] Hk Hal Hend Hbase Hv Htop Hf Hp; try lia;
    cbn [freerange_loop]; unfold PGSIZE, KERNBASE, PHYSTOP in *;
    rewrite ptr_add_small by lia.
  { case_if; [lia|]. by exists k. }
  case_if; [|lia]. rewrite pages_S in *.
  destruct (Hp p) as [Hm Hnot]; [set_solver|].
  destruct (kfree_spec kend k l p) as (k1 & -> & Hk1 & Hu1 & Hfr); [done| |done|done|].
  { split; [done|]. unfold KERNBASE, PHYSTOP. lia. }
  assert (∀ a, page_mapped (kmemory k) a → page_mapped (kmemory k1) a) as Hmono.
  { intros a (? & ? & Ha). split_and!; [done..|]. intros i Hi.
    destruct (decide (p ≤ a + i < p + PGSIZE)).
    - destruct Hk1 as [(_ & _ & (_ & _ & Hp1) & _) _ _].
      replace (a + i) with (p + (a + i - p)) by lia. apply Hp1. unfold PGSIZE in *. lia.
    - rewrite Hfr by done. by apply Ha. }
  cbn [mbind outcome_bind].
  destruct (IH k1 (p :: l) (p + 4096) vend fuel) as (k2 & -> & Hu2 & Hk2 & Hm2); try done; try lia.
  { rewrite <-Hal. change 4096 with (1 * 4096) at 1. by rewrite Z.mod_add. }
  { intros a Ha. destruct (Hp a) as [Hma Hna]; [by right|]. split; [auto|].
    apply elem_of_pages in Ha as (i & ? & ->). unfold PGSIZE. rewrite not_elem_of_cons.
    split; [lia|done]. }
  exists k2. split_and!; [done|congruence| |auto].
  cbn [rev]. by rewrite <-app_assoc.
Qed.

Lemma PGROUNDUP_spec sz : 0 ≤ sz → sz + PGSIZE < 2 ^ 32 →
  PGROUNDUP sz mod PGSIZE = 0 ∧ sz ≤ PGROUNDUP sz < sz + PGSIZE.
Proof.
  unfold PGROUNDUP, PGSIZE. intros. rewrite (u32_small (sz + 4096 - 1)) by lia.
  assert (Z.land (sz + 4096 - 1) (u32 (Z.lnot (4096 - 1))) = (sz + 4095) / 4096 * 4096) as ->.
  { replace (sz + 4096 - 1) with (sz + 4095) by lia.
    rewrite <-(Z.shiftl_mul_pow2 _ 12), <-(Z.shiftr_div_pow2 _ 12), <-Z.ldiff_ones_r by lia.
    change (u32 (Z.lnot (4096 - 1))) with (Z.land (Z.lnot (Z.ones 12)) (Z.ones 32)).
    rewrite Z.land_assoc, Z.land_ones by lia. rewrite <-Z.ldiff_land.
    apply Z.mod_small. rewrite Z.ldiff_ones_r by lia.
    rewrite Z.shiftl_mul_pow2, Z.shiftr_div_pow2 by lia. Z.div_mod_to_equations; lia. }
  rewrite Z.mod_mul by done. Z.div_mod_to_equations; lia.
Qed.

(** Every byte between two addresses is mapped. *)
Definition region_mapped (m : mem) (lo hi : Z) : Prop :=
  ∀ x, lo ≤ x < hi → is_Some (m !! x).

(** The pages [kinit1] puts on the free list. *)
Definition init_pages (vstart vend : Z) : list Z :=
  rev (pages (PGROUNDUP vstart) (Z.to_nat ((vend - PGROUNDUP vstart) / PGSIZE))).

Lemma kinit1_spec kend m vstart vend :
  KERNBASE < vstart ≤ vend → kend ≤ vstart → PGROUNDUP vstart ≤ vend →
  vend ≤ KERNBASE + PHYSTOP → region_mapped m vstart vend →
  ∃ k, kinit1 kend m vstart vend = Ret k ∧ kinv kend k (init_pages vstart vend) ∧
       ∀ a, a ∈ init_pages vstart vend → page_ok kend a ∧ page_mapped (kmemory k) a.
Proof.
  intros Hbase Hend Hle Htop Hmap. unfold kinit1, freerange, init_pages.
  pose proof Htop as Htop'. unfold KERNBASE, PHYSTOP in Hbase, Htop'.
  destruct (PGROUNDUP_spec vstart) as [Hal Hr]; [lia|unfold PGSIZE; lia|].
  set (p := PGROUNDUP vstart) in *. set (n := Z.to_nat ((vend - p) / PGSIZE)).
  assert (p + Z.of_nat n * PGSIZE ≤ vend < p + Z.of_nat (S n) * PGSIZE) as Hn.
  { assert (0 ≤ (vend - p) / PGSIZE) by (apply Z.div_pos; unfold PGSIZE; lia).
    unfold n. rewrite Nat2Z.inj_succ, Z2Nat.id by done.
    unfold PGSIZE in *. Z.div_mod_to_equations; lia. }
  assert (∀ a, a ∈ pages p n → page_ok kend a ∧ page_mapped m a) as Hpg.
  { intros a (i & Hi & ->)%elem_of_pages. unfold PGSIZE, KERNBASE, PHYSTOP in *. split.
    - split; [by rewrite Z.mod_add|]. unfold KERNBASE, PHYSTOP. lia.
    - unfold page_mapped, range_ok, PGSIZE. split_and!; [lia..|].
      intros j Hj. apply Hmap. lia. }
  destruct (freerange_loop_spec kend n (KMem false false 0 m) [] p vend (S n))
    as (k & E & _ & Hk & Hmono); try done.
  { by split; [|constructor|]. }
  { lia. }
  { unfold KERNBASE. lia. }
  { lia. }
  { intros a Ha. split; [by apply Hpg|]. apply not_elem_of_nil. }
  rewrite app_nil_r in Hk. exists k. split_and!; [done..|].
  intros a Ha. rewrite list_elem_of_In, <-in_rev, <-list_elem_of_In in Ha. destruct (Hpg a Ha). auto.
Qed.

(** ** Clients

    The allocator with the pages its clients hold.  Clients take pages, write
    to the pages they hold, and give back pages they hold. *)
Record ksys := KSys { kk : kmem; held : list Z }.

Definition same_outside (m m' : mem) (hs : list Z) : Prop :=
  ∀ x, (∀ a, a ∈ hs → ¬ (a ≤ x < a + PGSIZE)) → m' !! x = m !! x.

Inductive kstep (kend : Z) : ksys → ksys → Prop :=
  | ks_alloc k hs a k' : kalloc k = Ret (a, k') → a ≠ 0 →
      kstep kend (KSys k hs) (KSys k' (a :: hs))
  | ks_alloc_fail k hs k' : kalloc k = Ret (0, k') → kstep kend (KSys k hs) (KSys k' hs)
  | ks_free k hs1 v hs2 k' : kfree kend k v = Ret k' →
      kstep kend (KSys k (hs1 ++ v :: hs2)) (KSys k' (hs1 ++ hs2))
  | ks_write k hs m' : same_outside (kmemory k) m' hs →
      (∀ x, is_Some (kmemory k !! x) → is_Some (m' !! x)) →
      kstep kend (KSys k hs) (KSys (KMem (use_lock k) (k_locked k) (freelist k) m') hs).

Record ksys_ok (kend : Z) (all : list Z) (s : ksys) (free : list Z) : Prop := {
  ks_inv : kinv kend (kk s) free;
  ks_perm : held s ++ free ≡ₚ all;
  ks_held a : a ∈ held s → page_ok kend a ∧ page_mapped (kmemory (kk s)) a
}.

Lemma page_mapped_mono m m' a :
  page_mapped m a → (∀ x, is_Some (m !! x) → is_Some (m' !! x)) → page_mapped m' a.
Proof. intros (? & ? & ?) Hmono. split_and!; auto. Qed.

Lemma kfree_mapped kend k l v k' a :
  kinv kend k' (v :: l) →
  (∀ x, ¬ (v ≤ x < v + PGSIZE) → kmemory k' !! x = kmemory k !! x) →
  page_mapped (kmemory k) a → page_mapped (kmemory k') a.
Proof.
  intros [(_ & _ & (_ & _ & Hv) & _) _ _] Hfr Ha. eapply page_mapped_mono; [done|].
  intros x Hx. destruct (decide (v ≤ x < v + PGSIZE)); [|by rewrite Hfr].
  replace x with (v + (x - v)) by lia. apply Hv. unfold PGSIZE in *. lia.
Qed.

Lemma kstep_ok kend all s s' free :
  NoDup all → ksys_ok kend all s free → kstep kend s s' →
  ∃ free', ksys_ok kend all s' free'.
Proof.
  intros Hnd [Hk Hp Hh] Hst. destruct Hst as [k hs a k' E Ha|k hs k' E|k hs1 v hs2 k' E|k hs m' Ho Hm];
    cbn in *.
  - pose proof (kalloc_spec kend k free Hk) as Hs. destruct free as [|b free]; [congruence|].
    pose proof Hk as [(_ & _ & Hmb & _) _ _].
    destruct Hs as (k1 & E1 & Hk1 & Hm1 & _ & _ & Hb). rewrite E in E1. simplify_eq.
    exists free. split; cbn; [done| |].
    + by rewrite <-Hp, Permutation_middle.
    + rewrite Hm1. intros x [->|Hx]%elem_of_cons; auto.
  - pose proof (kalloc_spec kend k free Hk) as Hs. destruct free as [|b free].
    { rewrite Hs in E. simplify_eq. by exists []. }
    destruct Hs as (k1 & E1 & _ & _ & _ & _ & Hb). rewrite E in E1. simplify_eq.
    destruct (page_range kend 0 Hb) as [? _]. unfold KERNBASE in *. lia.
  - assert (v ∉ free) as Hnot.
    { rewrite <-Hp in Hnd. apply NoDup_app in Hnd as (_ & Hd & _). apply Hd. set_solver. }
    destruct (Hh v) as [Hv Hmv]; [set_solver|].
    destruct (kfree_spec kend k free v Hk Hv Hmv Hnot) as (k1 & E1 & Hk1 & _ & Hfr).
    rewrite E in E1. simplify_eq. exists (v :: free). split; cbn; [done| |].
    + rewrite <-Hp. solve_Permutation.
    + intros x Hx. destruct (Hh x) as [? ?]; [set_solver|].
      split; [done|]. by eapply kfree_mapped.
  - exists free. split; cbn; [|done|].
    + destruct Hk as [Hc ? ?]. split; cbn; [|done|done].
      eapply chain_same; [done|]. intros a Ha i Hi. apply Ho. intros b Hb.
      rewrite <-Hp in Hnd. apply NoDup_app in Hnd as (_ & Hd & _).
      eapply (pages_disjoint kend b a); [by apply Hh|by eapply chain_page_ok| |done].
      intros ->. by eapply Hd.
    + intros a Ha. destruct (Hh a Ha). split; [done|]. by eapply page_mapped_mono.
Qed.

(** C30. After [kinit1], however clients allocate, write and free, the pages
    they hold and the pages on the free list are together exactly the pages
    of the initial range, each once: [kalloc] never hands out a page that is
    already held, never returns a page outside the range, and no page is
    lost; the free list stays well formed whatever clients write. *)
Theorem kalloc_exclusive (kend : Z) (m : mem) (vstart vend : Z) (k0 : kmem) (s : ksys) :
  KERNBASE < vstart ≤ vend → kend ≤ vstart → PGROUNDUP vstart ≤ vend →
  vend ≤ KERNBASE + PHYSTOP → region_mapped m vstart vend →
  kinit1 kend m vstart vend = Ret k0 → rtc (kstep kend) (KSys k0 []) s →
  ∃ free, kinv kend (kk s) free ∧ NoDup (held s ++ free) ∧
          held s ++ free ≡ₚ init_pages vstart vend.
Proof.
  intros H1 H2 H3 H4 H5 E Hr.
  destruct (kinit1_spec kend m vstart vend) as (k & E' & Hk & Hpg); [done..|].
  rewrite E in E'. simplify_eq. pose proof (ki_nodup _ _ _ Hk) as Hnd.
  assert (∃ free, ksys_ok kend (init_pages vstart vend) s free) as (free & [Hf Hp _]).
  { assert (∃ free, ksys_ok kend (init_pages vstart vend) (KSys k []) free) as H0.
    { eexists. split; cbn; [done|done|]. intros a Ha. by apply not_elem_of_nil in Ha. }
    clear E Hk. induction Hr as [|s1 s2 s3 Hst _ IH]; [done|].
    destruct H0 as [f H0]. apply IH. by eapply kstep_ok. }
  exists free. split_and!; [done| |done]. by rewrite Hp.
Qed.

(** ** Concrete run: two pages above the kernel, one of them allocated *)
Definition zero_mem (a n : Z) : mem := list_to_map ((λ x, (x, 0)) <$> seqZ a n).

Lemma zero_mem_mapped a n : region_mapped (zero_mem a n) a (a + n).
Proof.
  intros x Hx. apply elem_of_dom. unfold zero_mem. rewrite dom_list_to_map_L.
  apply elem_of_list_to_set, list_elem_of_fmap. exists (x, 0). split; [done|].
  apply list_elem_of_fmap. exists x. split; [done|]. by apply elem_of_seqZ.
Qed.

Definition two_pages : mem := zero_mem (KERNBASE + 4096) 8192.

Lemma two_pages_mapped : region_mapped two_pages (KERNBASE + 4096) (KERNBASE + 12288).
Proof. exact (zero_mem_mapped (KERNBASE + 4096) 8192). Qed.

Lemma kalloc_exclusive_witness :
  ∃ k0 a k1 free,
    kinit1 0 two_pages (KERNBASE + 4096) (KERNBASE + 12288) = Ret k0 ∧
    kalloc k0 = Ret (a, k1) ∧ a = KERNBASE + 8192 ∧
    kinv 0 k1 free ∧ NoDup ([a] ++ free) ∧
    [a] ++ free ≡ₚ init_pages (KERNBASE + 4096) (KERNBASE + 12288).
Proof.
  destruct (kinit1_spec 0 two_pages (KERNBASE + 4096) (KERNBASE + 12288)) as (k0 & E0 & Hk & _);
    [unfold KERNBASE; lia|unfold KERNBASE; lia|vm_compute; discriminate|
     unfold KERNBASE, PHYSTOP; lia|exact two_pages_mapped|].
  assert (init_pages (KERNBASE + 4096) (KERNBASE + 12288) =
          [KERNBASE + 8192; KERNBASE + 4096]) as Ep by (vm_compute; reflexivity).
  pose proof (kalloc_spec 0 k0 _ Hk) as Ha. rewrite Ep in Ha.
  destruct Ha as (k1 & E1 & _).
  destruct (kalloc_exclusive 0 two_pages (KERNBASE + 4096) (KERNBASE + 12288) k0
              (KSys k1 [KERNBASE + 8192])) as (free & H1 & H2 & H3);
    [unfold KERNBASE; lia|unfold KERNBASE; lia|vm_compute; discriminate|
     unfold KERNBASE, PHYSTOP; lia|exact two_pages_mapped|exact E0| |].
  { eapply rtc_once, ks_alloc; [exact E1|discriminate]. }
  exists k0, (KERNBASE + 8192), k1, free. split_and!; [exact E0|exact E1|done|done|done|done].
Defined.
