(* ===== verification/Log.v ===== *)
(** * The file-system log (xv6 [log.c])

    The state is the disk, the buffer cache as the log sees it (block number
    to data and dirty flag; [Bio] models the cache itself), the in-memory log
    and the sequence of block writes issued to the disk so far.  [bwrite] is
    synchronous and writes one sector, so the disk after a crash is the disk
    after a prefix of that sequence.  A block is its 128 32-bit words, so that
    the header cast of the code is a view of the words. *)

From stdpp Require Import base numbers list gmap strings relations.
From S2P Require Import Prelude.

Open Scope Z_scope.

(** ** Constants ([param.h], [fs.h]) *)
Definition MAXOPBLOCKS : Z := 10.
Definition LOGSIZE : Z := MAXOPBLOCKS * 3.
Definition BSIZE : Z := 512.

(** ** State *)
Abbreviation block := (list Z).

Record buf := Buf { b_data : block; b_dirty : bool }.

Record logheader := LogHeader { lh_n : Z; lh_block : list Z }.

Record log := Log {
  log_start : Z;
  log_size : Z;
  outstanding : Z;   (* how many FS sys calls are executing *)
  committing : Z;    (* in commit(), please wait *)
  lh : logheader
}.

Record fsst := FsSt {
  disk : gmap Z block;
  bufs : gmap Z buf;
  trace : list (Z * block);
  logs : log
}.

Definition set_bufs (s : fsst) (bs : gmap Z buf) : fsst := FsSt (disk s) bs (trace s) (logs s).
Definition set_log (s : fsst) (l : log) : fsst := FsSt (disk s) (bufs s) (trace s) l.
Definition set_lh (s : fsst) (h : logheader) : fsst :=
  set_log s (Log (log_start (logs s)) (log_size (logs s)) (outstanding (logs s))
               (committing (logs s)) h).
Definition set_n (s : fsst) (n : Z) : fsst :=
  set_lh s (LogHeader n (lh_block (lh (logs s)))).

(** ** The buffer cache as the log uses it *)

(** [bread]: the cached copy, or a fresh clean one read from the disk. *)
Definition bread (b : Z) : M fsst block := fun s =>
  match bufs s !! b with
  | Some bf => Ret (b_data bf, s)
  | None =>
      d ← opt (disk s !! b);
      Ret (d, set_bufs s (<[b := Buf d false]> (bufs s)))
  end.

(** Storing into [b->data] of a buffer returned by [bread]. *)
Definition set_data (b : Z) (d : block) : M fsst unit := fun s =>
  bf ← opt (bufs s !! b);
  Ret (tt, set_bufs s (<[b := Buf d (b_dirty bf)]> (bufs s))).

(** [bwrite]: the buffer goes to the disk and is clean afterwards. *)
Definition bwrite (b : Z) : M fsst unit := fun s =>
  bf ← opt (bufs s !! b);
  Ret (tt, FsSt (<[b := b_data bf]> (disk s)) (<[b := Buf (b_data bf) false]> (bufs s))
             (trace s ++ [(b, b_data bf)]) (logs s)).

(** ** [log.c] *)

(** The body of the loop of [install_trans]. *)
Definition install_block (tail : Z) : M fsst unit := fun s =>
  let l := logs s in
  (lbuf ← bread (log_start l + tail + 1);
   dst ← lift (arr_get (lh_block (lh l)) tail);
   bread dst ;;
   set_data dst lbuf ;;
   bwrite dst) s.
Definition install_trans : M fsst unit := fun s =>
  for_loop 0 (Z.to_nat (lh_n (lh (logs s)))) install_block s.

Definition read_head_word (buf : block) (i : Z) : M fsst unit := fun s =>
  (x ← lift (arr_get buf (1 + i));
   bl ← lift (arr_set (lh_block (lh (logs s))) i x);
   put_st (set_lh s (LogHeader (lh_n (lh (logs s))) bl))) s.
Definition read_head : M fsst unit := fun s =>
  (buf ← bread (log_start (logs s));
   n ← lift (arr_get buf 0);
   (fun s => Ret (tt, set_n s n)) ;;
   for_loop 0 (Z.to_nat n) (read_head_word buf)) s.

(** [hb->block[i] = log.lh.block[i]] on the header buffer. *)
Definition write_head_word (start : Z) (bl : list Z) (i : Z) : M fsst unit :=
  x ← lift (arr_get bl i);
  hb ← bread start;
  hb ← lift (arr_set hb (1 + i) x);
  set_data start hb.
Definition write_head : M fsst unit := fun s =>
  let h := lh (logs s) in
  (buf ← bread (log_start (logs s));
   hb ← lift (arr_set buf 0 (lh_n h));
   set_data (log_start (logs s)) hb ;;
   for_loop 0 (Z.to_nat (lh_n h)) (write_head_word (log_start (logs s)) (lh_block h)) ;;
   bwrite (log_start (logs s))) s.

Definition recover_from_log : M fsst unit :=
  read_head ;;
  install_trans ;;
  (fun s => Ret (tt, set_n s 0)) ;;
  write_head.

(** [initlog]: the geometry comes from the superblock. *)
Definition initlog (logstart nlog : Z) : M fsst unit := fun s =>
  (if BSIZE <=? 4 + 4 * LOGSIZE then panic "initlog: too big logheader" else mret tt) (s) ≫=
  fun '(_, s) =>
    let l := logs s in
    recover_from_log (set_log s (Log logstart nlog (outstanding l) (committing l) (lh l))).

(** [None]: the caller sleeps and tests again when woken. *)
Definition begin_op (s : fsst) : option fsst :=
  let l := logs s in
  if negb (committing l =? 0) then None
  else if LOGSIZE <? lh_n (lh l) + (outstanding l + 1) * MAXOPBLOCKS then None
  else Some (set_log s (Log (log_start l) (log_size l) (outstanding l + 1) (committing l) (lh l))).

(** The body of the loop of [write_log]. *)
Definition write_log_block (tail : Z) : M fsst unit := fun s =>
  let l := logs s in
  (bread (log_start l + tail + 1) ;;
   src ← lift (arr_get (lh_block (lh l)) tail);
   from ← bread src;
   set_data (log_start l + tail + 1) from ;;
   bwrite (log_start l + tail + 1)) s.
Definition write_log : M fsst unit := fun s =>
  for_loop 0 (Z.to_nat (lh_n (lh (logs s)))) write_log_block s.

Definition commit : M fsst unit := fun s =>
  if 0 <? lh_n (lh (logs s)) then
    (write_log ;;
     write_head ;;
     install_trans ;;
     (fun s => Ret (tt, set_n s 0)) ;;
     write_head) s
  else Ret (tt, s).

Definition end_op : M fsst unit := fun s =>
  let l := logs s in
  let out := outstanding l - 1 in
  if negb (committing l =? 0) then Panic "log.committing"
  else if out =? 0 then
    '(_, s) ← commit (set_log s (Log (log_start l) (log_size l) out 1 (lh l)));
    let l := logs s in
    Ret (tt, set_log s (Log (log_start l) (log_size l) (outstanding l) 0 (lh l)))
  else Ret (tt, set_log s (Log (log_start l) (log_size l) out (committing l) (lh l))).

(** The absorption scan of [log_write]: the index of [b], or [n]. *)
Fixpoint log_find (bl : list Z) (b i : Z) (cnt : nat) : outcome Z :=
  match cnt with
  | O => Ret i
  | S cnt => x ← arr_get bl i; if x =? b then Ret i else log_find bl b (i + 1) cnt
  end.

Definition log_write (b : Z) : M fsst unit := fun s =>
  let l := logs s in
  let h := lh l in
  if (LOGSIZE <=? lh_n h) || (log_size l - 1 <=? lh_n h) then Panic "too big a transaction"
  else if outstanding l <? 1 then Panic "log_write outside of trans"
  else
    i ← log_find (lh_block h) b 0 (Z.to_nat (lh_n h));
    bl ← arr_set (lh_block h) i b;
    bf ← opt (bufs s !! b);
    let s := set_lh s (LogHeader (if i =? lh_n h then lh_n h + 1 else lh_n h) bl) in
    Ret (tt, set_bufs s (<[b := Buf (b_data bf) true]> (bufs s))).

(** ** Crashes

    The disk a crash leaves after [k] of the writes issued since [d]. *)
Definition apply_writes (ws : list (Z * block)) (d : gmap Z block) : gmap Z block :=
  foldl (fun d w => <[w.1 := w.2]> d) d ws.

(** The machine after a reboot: empty cache, empty in-memory log. *)
Definition reboot (d : gmap Z block) (start size : Z) : fsst :=
  FsSt d ∅ [] (Log start size 0 0 (LogHeader 0 (replicate (Z.to_nat LOGSIZE) 0))).

(** ** Effects of the operations

    What programs see: cached data first, then the disk. *)
Definition view (s : fsst) : gmap Z block := (b_data <$> bufs s) ∪ disk s.

Definition coherent (s : fsst) : Prop :=
  ∀ b bf, bufs s !! b = Some bf →
    is_Some (disk s !! b) ∧ (b_dirty bf = false → disk s !! b = Some (b_data bf)).

Lemma view_lookup s b :
  view s !! b = match bufs s !! b with Some bf => Some (b_data bf) | None => disk s !! b end.
Proof.
  unfold view. rewrite lookup_union, lookup_fmap. destruct (bufs s !! b); cbn.
  - by destruct (disk s !! b).
  - by destruct (disk s !! b).
Qed.

(** From [s] to [s'] the blocks [ws] were written, and nothing else changed
    in what the disk and the cache hold. *)
Record wrote (s s' : fsst) (ws : list (Z * block)) : Prop := {
  w_disk : disk s' = apply_writes ws (disk s);
  w_trace : trace s' = trace s ++ ws;
  w_view : view s' = apply_writes ws (view s);
  w_logs : logs s' = logs s;
  w_coherent : coherent s';
  w_dirty b bf' : bufs s' !! b = Some bf' → b_dirty bf' = true →
    b ∉ ws.*1 ∧ ∃ bf, bufs s !! b = Some bf ∧ b_dirty bf = true
}.

Lemma wrote_nil s : coherent s → wrote s s [].
Proof.
  intros. split; cbn; rewrite ?app_nil_r; try done.
  intros b bf Hb Hd. split; [apply not_elem_of_nil|eauto].
Qed.

Lemma apply_writes_app ws1 ws2 d :
  apply_writes (ws1 ++ ws2) d = apply_writes ws2 (apply_writes ws1 d).
Proof. apply foldl_app. Qed.

Lemma wrote_trans s1 s2 s3 ws1 ws2 :
  wrote s1 s2 ws1 → wrote s2 s3 ws2 → wrote s1 s3 (ws1 ++ ws2).
Proof.
  intros [D1 T1 V1 L1 _ Y1] [D2 T2 V2 L2 C2 Y2]. split; [..|done|].
  - by rewrite D2, D1, apply_writes_app.
  - by rewrite T2, T1, app_assoc.
  - by rewrite V2, V1, apply_writes_app.
  - congruence.
  - intros b bf Hb Hd. destruct (Y2 _ _ Hb Hd) as (? & bf2 & Hb2 & Hd2).
    destruct (Y1 _ _ Hb2 Hd2) as (? & ?). rewrite fmap_app, not_elem_of_app. done.
Qed.

Lemma bread_spec s b d :
  coherent s → view s !! b = Some d →
  ∃ s' dty, bread b s = Ret (d, s') ∧ wrote s s' [] ∧ bufs s' !! b = Some (Buf d dty).
Proof.
  intros Hc Hv. rewrite view_lookup in Hv. unfold bread.
  destruct (bufs s !! b) as [[d' dty]|] eqn:Eb.
  - simplify_eq/=. exists s, dty. split_and!; [done|by apply wrote_nil|done].
  - rewrite Hv. cbn. exists (set_bufs s (<[b := Buf d false]> (bufs s))), false.
    split_and!; [done| |by cbn; rewrite lookup_insert_eq].
    split; cbn; rewrite ?app_nil_r; [done|done| |done| |].
    + apply map_eq. intros x. rewrite !view_lookup. cbn. rewrite lookup_insert.
      case_decide; [subst; by rewrite Eb, Hv|done].
    + intros x bf. cbn. rewrite lookup_insert. case_decide; [|apply Hc].
      intros [= <-]. subst. rewrite Hv. eauto.
    + intros x bf. rewrite lookup_insert. case_decide; [by intros [= <-]|].
      intros Hx Hd. split; [apply not_elem_of_nil|eauto].
Qed.

(** The idiom of the log: take a buffer, replace its data, write it. *)
Lemma set_bwrite_spec s b d bf :
  coherent s → bufs s !! b = Some bf →
  ∃ s', (set_data b d ;; bwrite b) s = Ret (tt, s') ∧ wrote s s' [(b, d)].
Proof.
  intros Hc Hb. eexists. split.
  { unfold set_data, bwrite, mbind, M_bind. cbn. rewrite Hb. cbn.
    rewrite lookup_insert_eq. cbn. reflexivity. }
  split; cbn; [done|done| |done| |].
  - apply map_eq. intros x. rewrite view_lookup. cbn. rewrite !lookup_insert.
    case_decide; [done|]. by rewrite view_lookup.
  - intros x bf'. cbn. rewrite !lookup_insert. case_decide; [|apply Hc].
    intros [= <-]. subst. eauto.
  - intros x bf'. rewrite !lookup_insert. case_decide; [by intros [= <-]|].
    intros Hx Hd. split; [|eauto]. intros ?%list_elem_of_singleton. congruence.
Qed.

Lemma apply_writes_union ws d : apply_writes ws d = apply_writes ws ∅ ∪ d.
Proof.
  revert d. induction ws as [|[b x] ws IH] using rev_ind; intros d; cbn.
  { by rewrite map_empty_union. }
  rewrite !apply_writes_app. cbn. by rewrite IH, insert_union_l.
Qed.

Lemma dom_apply_writes ws : dom (apply_writes ws ∅) = list_to_set ws.*1.
Proof.
  induction ws as [|[b x] ws IH] using rev_ind; [done|].
  rewrite apply_writes_app, fmap_app, list_to_set_app_L. cbn.
  rewrite dom_insert_L, IH. set_solver.
Qed.

Lemma apply_writes_notin ws d b : b ∉ ws.*1 → apply_writes ws d !! b = d !! b.
Proof.
  intros Hb. rewrite apply_writes_union, lookup_union_r; [done|].
  apply not_elem_of_dom. rewrite dom_apply_writes. set_solver.
Qed.

Lemma apply_writes_in ws d d' b :
  b ∈ ws.*1 → apply_writes ws d !! b = apply_writes ws d' !! b.
Proof.
  intros Hb. rewrite (apply_writes_union ws d), (apply_writes_union ws d').
  assert (is_Some (apply_writes ws ∅ !! b)) as [x Hx].
  { apply elem_of_dom. rewrite dom_apply_writes. set_solver. }
  by rewrite !(lookup_union_Some_l _ _ _ x).
Qed.

(** Writes that a later batch covers do not matter. *)
Lemma apply_writes_absorb ws1 ws2 d :
  ws1.*1 ⊆ ws2.*1 → apply_writes ws2 (apply_writes ws1 d) = apply_writes ws2 d.
Proof.
  intros Hs. apply map_eq. intros b. destruct (decide (b ∈ ws2.*1)).
  - by apply apply_writes_in.
  - rewrite !apply_writes_notin; [done|..]; auto.
Qed.

Lemma apply_writes_is_Some ws d b : is_Some (d !! b) → is_Some (apply_writes ws d !! b).
Proof.
  intros [x Hx]. rewrite apply_writes_union. apply lookup_union_is_Some. right. eauto.
Qed.

(** The in-memory log lists the blocks [hb]. *)
Record logged (s : fsst) (start : Z) (hb : list Z) : Prop := {
  lg_start : log_start (logs s) = start;
  lg_n : lh_n (lh (logs s)) = Z.of_nat (length hb);
  lg_block : take (length hb) (lh_block (lh (logs s))) = hb
}.

Lemma logged_lookup s start hb i b :
  logged s start hb → hb !! i = Some b → lh_block (lh (logs s)) !! i = Some b.
Proof.
  intros [_ _ Hb] Hi. rewrite <-Hb in Hi. by apply lookup_take_Some in Hi as [? _].
Qed.

(** The log blocks are [start + 1], [start + 2], ... *)
Definition log_addrs (start : Z) (n : nat) : list Z := (λ i, start + Z.of_nat i + 1) <$> seq 0 n.

Lemma log_addrs_lookup start n i :
  (i < n)%nat → log_addrs start n !! i = Some (start + Z.of_nat i + 1).
Proof.
  intros. unfold log_addrs. rewrite list_lookup_fmap, lookup_seq_lt by done. done.
Qed.

Lemma elem_of_log_addrs start n b :
  b ∈ log_addrs start n ↔ start + 1 ≤ b ≤ start + Z.of_nat n.
Proof.
  unfold log_addrs. rewrite list_elem_of_fmap. split.
  - intros (i & -> & Hi%elem_of_seq). lia.
  - intros. exists (Z.to_nat (b - start - 1)). rewrite elem_of_seq. lia.
Qed.

Lemma length_log_addrs start n : length (log_addrs start n) = n.
Proof. unfold log_addrs. by rewrite length_fmap, length_seq. Qed.

Lemma fst_take_zip {A B} (k : nat) (l : list A) (l' : list B) x :
  x ∈ (take k (zip l l')).*1 → x ∈ l.
Proof.
  intros ([a b] & -> & Hx)%list_elem_of_fmap. apply elem_of_take in Hx as (i & Hx & _).
  apply lookup_zip_with_Some in Hx as (? & ? & [= -> ->] & ? & _).
  by eapply list_elem_of_lookup_2.
Qed.

Lemma fst_zip_subset {A B} (l : list A) (l' : list B) x : x ∈ (zip l l').*1 → x ∈ l.
Proof.
  intros H. apply (fst_take_zip (length (zip l l')) l l'). by rewrite firstn_all.
Qed.

(** One iteration of either copying loop, as it extends a batch of writes. *)
Lemma wrote_snoc s0 s1 s2 (l : list Z) (vs : list block) k b v :
  wrote s0 s1 (take k (zip l vs)) → wrote s1 s2 [(b, v)] →
  l !! k = Some b → vs !! k = Some v →
  wrote s0 s2 (take (1 + k) (zip l vs)).
Proof.
  intros H1 H2 Hl Hv. rewrite (take_S_r _ _ (b, v)); [by eapply wrote_trans|].
  rewrite lookup_zip_with, Hl. cbn. by rewrite Hv.
Qed.

Lemma install_trans_spec s start hb vs :
  coherent s → logged s start hb → length vs = length hb →
  (∀ i v, vs !! i = Some v → view s !! (start + Z.of_nat i + 1) = Some v) →
  (∀ b, b ∈ hb → is_Some (view s !! b) ∧ b ∉ log_addrs start (length hb)) →
  ∃ s', install_trans s = Ret (tt, s') ∧ wrote s s' (zip hb vs).
Proof.
  intros Hc Hlg Hlen Hvs Hhb. unfold install_trans. rewrite (lg_n _ _ _ Hlg), Nat2Z.id.
  destruct (for_loop_inv (fun k s' => wrote s s' (take k (zip hb vs))) install_block 0 (length hb) s)
    as (s' & E & Hw).
  { by apply wrote_nil. }
  - intros k s1 Hk Hw. destruct (lookup_lt_is_Some_2 hb k Hk) as [b Hb].
    destruct (lookup_lt_is_Some_2 vs k) as [v Hv]; [lia|].
    destruct (Hhb b) as [Hsome Hnot]; [by eapply list_elem_of_lookup_2|].
    destruct Hw as [D1 T1 V1 L1 C1 Y1].
    assert (view s1 !! (start + Z.of_nat k + 1) = Some v) as Hlog.
    { rewrite V1, apply_writes_notin; [by apply Hvs|]. intros Hin%fst_take_zip.
      apply Hhb in Hin as [_ []]. apply elem_of_log_addrs. lia. }
    destruct (bread_spec s1 _ _ C1 Hlog) as (s2 & dty & E2 & W2 & _).
    assert (is_Some (view s2 !! b)) as [x Hx].
    { rewrite (w_view _ _ _ W2), V1. by do 2 apply apply_writes_is_Some. }
    destruct (bread_spec s2 _ _ (w_coherent _ _ _ W2) Hx) as (s3 & dty3 & E3 & W3 & B3).
    destruct (set_bwrite_spec s3 b v _ (w_coherent _ _ _ W3) B3) as (s4 & E4 & W4).
    exists s4. split.
    + unfold install_block; cbv beta zeta. rewrite L1, (lg_start _ _ _ Hlg), Z.add_0_l.
      erewrite M_bind_run by done.
      unfold lift at 1. rewrite arr_get_nat, (logged_lookup s start hb) with (b := b) by done.
      erewrite M_bind_run by done. erewrite M_bind_run by done. done.
    + eapply wrote_snoc; [by split| |done|done].
      apply (wrote_trans s1 s3 s4 [] [(b, v)]); [|done].
      by apply (wrote_trans s1 s2 s3 [] []).
  - exists s'. rewrite take_ge in Hw; [done|]. rewrite length_zip_with_l; lia.
Qed.

Lemma write_log_spec s start hb vs :
  coherent s → logged s start hb → length vs = length hb →
  (∀ i b v, hb !! i = Some b → vs !! i = Some v → view s !! b = Some v) →
  (∀ b, b ∈ hb → b ∉ log_addrs start (length hb)) →
  (∀ b, b ∈ log_addrs start (length hb) → is_Some (view s !! b)) →
  ∃ s', write_log s = Ret (tt, s') ∧ wrote s s' (zip (log_addrs start (length hb)) vs).
Proof.
  intros Hc Hlg Hlen Hvs Hhb Hla. unfold write_log. rewrite (lg_n _ _ _ Hlg), Nat2Z.id.
  set (la := log_addrs start (length hb)) in *.
  destruct (for_loop_inv (fun k s' => wrote s s' (take k (zip la vs))) write_log_block 0 (length hb) s)
    as (s' & E & Hw).
  { by apply wrote_nil. }
  - intros k s1 Hk Hw. destruct (lookup_lt_is_Some_2 hb k Hk) as [b Hb].
    destruct (lookup_lt_is_Some_2 vs k) as [v Hv]; [lia|].
    pose proof (log_addrs_lookup start (length hb) k Hk) as Ha. fold la in Ha.
    set (a := start + Z.of_nat k + 1) in *.
    destruct Hw as [D1 T1 V1 L1 C1 Y1].
    assert (is_Some (view s1 !! a)) as [x Hx].
    { rewrite V1. apply apply_writes_is_Some, Hla. by eapply list_elem_of_lookup_2. }
    destruct (bread_spec s1 _ _ C1 Hx) as (s2 & dty & E2 & W2 & B2).
    assert (view s2 !! b = Some v) as Hbv.
    { rewrite (w_view _ _ _ W2), V1. cbn. rewrite apply_writes_notin; [by eapply Hvs|].
      intros Hin%fst_take_zip. eapply Hhb; [|done]. by eapply list_elem_of_lookup_2. }
    destruct (bread_spec s2 _ _ (w_coherent _ _ _ W2) Hbv) as (s3 & dty3 & E3 & W3 & B3).
    assert (is_Some (bufs s3 !! a)) as [bf3 Hbf3].
    { revert E3. unfold bread. case_match; intros ?; simplify_eq/=; [eauto|].
      destruct (disk s2 !! b); simplify_eq/=. rewrite lookup_insert. case_decide; eauto. }
    destruct (set_bwrite_spec s3 a v _ (w_coherent _ _ _ W3) Hbf3) as (s4 & E4 & W4).
    exists s4. split.
    + unfold write_log_block; cbv beta zeta. rewrite L1, (lg_start _ _ _ Hlg), Z.add_0_l. fold a.
      erewrite M_bind_run by done.
      unfold lift at 1. rewrite arr_get_nat, (logged_lookup s start hb) with (b := b) by done.
      erewrite M_bind_run by done. erewrite M_bind_run by done. done.
    + eapply wrote_snoc; [by split| |done|done].
      apply (wrote_trans s1 s3 s4 [] [(a, v)]); [|done].
      by apply (wrote_trans s1 s2 s3 [] []).
  - exists s'. rewrite take_ge in Hw; [done|].
    rewrite length_zip_with_l; unfold la; rewrite length_log_addrs; lia.
Qed.

(** The words of a header block listing [hb], over previous contents [h0]. *)
Definition head_words (hb : list Z) (h0 : block) : block :=
  Z.of_nat (length hb) :: hb ++ drop (1 + length hb) h0.

Lemma head_words_step n (hb : list Z) (h0 : block) k x :
  hb !! k = Some x → (1 + k < length h0)%nat →
  <[S k := x]> (n :: take k hb ++ drop (1 + k) h0) = n :: take (S k) hb ++ drop (2 + k) h0.
Proof.
  intros Hx Hlen. destruct (lookup_lt_is_Some_2 h0 (1 + k) Hlen) as [y Hy].
  pose proof (lookup_lt_Some _ _ _ Hx).
  change (n :: <[k := x]> (take k hb ++ drop (1 + k) h0) = n :: take (S k) hb ++ drop (2 + k) h0).
  f_equal. rewrite (drop_S h0 y (1 + k) Hy), (take_S_r hb k x Hx).
  rewrite insert_app_r_alt by (rewrite length_take; lia).
  rewrite length_take, Nat.min_l, Nat.sub_diag by lia. cbn. by rewrite <-app_assoc.
Qed.

Lemma write_head_spec s start hb h0 :
  coherent s → logged s start hb → view s !! start = Some h0 →
  (1 + length hb ≤ length h0)%nat →
  ∃ s', write_head s = Ret (tt, s') ∧ wrote s s' [(start, head_words hb h0)].
Proof.
  intros Hc Hlg Hv Hlen. unfold write_head. cbv zeta.
  rewrite (lg_start _ _ _ Hlg), (lg_n _ _ _ Hlg), Nat2Z.id.
  destruct (bread_spec s start h0 Hc Hv) as (s1 & dty & E1 & W1 & B1).
  set (n := Z.of_nat (length hb)).
  set (st := λ k, set_bufs s1 (<[start := Buf (n :: take k hb ++ drop (1 + k) h0) dty]> (bufs s1))).
  destruct (for_loop_inv (λ k s', s' = st k) (write_head_word start (lh_block (lh (logs s))))
              0 (length hb) (st 0%nat)) as (s2 & E2 & Es2); [done| |].
  - intros k s' Hk ->. destruct (lookup_lt_is_Some_2 hb k Hk) as [x Hx]. eexists.
    split; [|done]. unfold write_head_word. rewrite Z.add_0_l, arr_get_nat.
    erewrite (logged_lookup s start hb) by done. unfold lift.
    erewrite M_bind_run by done.
    erewrite (M_bind_run (bread start)); [|unfold bread; cbn; by rewrite lookup_insert_eq].
    cbn [b_data]. rewrite arr_set_in.
    2:{ cbn. rewrite length_app, length_take, length_drop. lia. }
    erewrite M_bind_run by done. unfold set_data. cbn [bufs st set_bufs].
    rewrite lookup_insert_eq. cbn [opt mbind outcome_bind b_dirty].
    replace (Z.to_nat (1 + Z.of_nat k)) with (S k) by lia.
    rewrite head_words_step by (done || lia). unfold st, set_bufs. cbn.
    by rewrite insert_insert_eq.
  - destruct (set_bwrite_spec s1 start (head_words hb h0) _ (w_coherent _ _ _ W1) B1)
      as (s3 & E3 & W3).
    exists s3. split; [|by apply (wrote_trans s s1 s3 [])].
    erewrite M_bind_run by done. unfold lift. rewrite arr_set_in by lia.
    erewrite M_bind_run by done.
    erewrite (M_bind_run (set_data start _)).
    2:{ unfold set_data. rewrite B1. cbn. reflexivity. }
    replace (set_bufs s1 _) with (st 0%nat).
    2:{ unfold st. do 3 f_equal. destruct h0; [cbn in *; lia|]. by rewrite take_0. }
    erewrite M_bind_run by done. rewrite Es2.
    revert E3. erewrite (M_bind_run (set_data start _)).
    2:{ unfold set_data. rewrite B1. cbn. reflexivity. }
    intros <-. unfold st, n, head_words. by rewrite (take_ge hb).
Qed.

Lemma read_head_spec s start hb ws :
  coherent s → log_start (logs s) = start →
  view s !! start = Some (Z.of_nat (length hb) :: ws) → take (length hb) ws = hb →
  (length hb ≤ length (lh_block (lh (logs s))))%nat →
  ∃ s' bl, read_head s = Ret (tt, set_lh s' (LogHeader (Z.of_nat (length hb)) bl)) ∧
    wrote s s' [] ∧ take (length hb) bl = hb ∧ length bl = length (lh_block (lh (logs s))).
Proof.
  intros Hc Hst Hv Hws Hlen. unfold read_head. rewrite Hst.
  destruct (bread_spec s start _ Hc Hv) as (s1 & dty & E1 & W1 & B1).
  set (n := Z.of_nat (length hb)). set (bl0 := lh_block (lh (logs s))) in *.
  set (st := λ k, set_lh s1 (LogHeader n (take k hb ++ drop k bl0))).
  destruct (for_loop_inv (λ k s', s' = st k) (read_head_word (n :: ws)) 0 (length hb) (st 0%nat))
    as (s2 & E2 & Es2); [done| |].
  - intros k s' Hk ->. destruct (lookup_lt_is_Some_2 hb k Hk) as [x Hx]. eexists.
    split; [|done]. unfold read_head_word, lift. rewrite Z.add_0_l.
    replace (1 + Z.of_nat k) with (Z.of_nat (S k)) by lia. rewrite arr_get_nat.
    assert (ws !! k = Some x) as Hwx.
    { rewrite <-Hws in Hx. by apply lookup_take_Some in Hx as [? _]. }
    change ((n :: ws) !! S k) with (ws !! k). rewrite Hwx.
    erewrite M_bind_run by done. cbn [st set_lh set_log logs lh lh_block].
    rewrite arr_set_in by (rewrite length_app, length_take, length_drop; lia).
    erewrite M_bind_run by done. unfold put_st, st, set_lh. cbn. do 4 f_equal.
    rewrite Nat2Z.id. destruct (lookup_lt_is_Some_2 bl0 k) as [y Hy]; [lia|].
    rewrite (drop_S bl0 y k Hy), (take_S_r hb k x Hx).
    rewrite insert_app_r_alt by (rewrite length_take; lia).
    rewrite length_take, Nat.min_l, Nat.sub_diag by lia. cbn. by rewrite <-app_assoc.
  - exists s1, (take (length hb) hb ++ drop (length hb) bl0). split_and!.
    + erewrite M_bind_run by done. unfold lift.
      change (arr_get (n :: ws) 0) with (Ret n).
      erewrite M_bind_run by done. erewrite M_bind_run by done.
      unfold n at 1. rewrite Nat2Z.id. subst s2.
      transitivity (for_loop 0 (length hb) (read_head_word (n :: ws)) (st 0%nat)); [|exact E2].
      f_equal. unfold st, set_n. by rewrite (w_logs _ _ _ W1).
    + done.
    + rewrite take_app_le, !take_ge; rewrite ?length_take; try done; lia.
    + rewrite length_app, length_take, length_drop. lia.
Qed.

(** ** The logical disk *)

(** The block numbers the header on disk lists. *)
Definition hdr_blocks (d : gmap Z block) (start : Z) : list Z :=
  match d !! start with Some (n :: ws) => take (Z.to_nat n) ws | _ => [] end.

Definition log_vals (d : gmap Z block) (start : Z) (n : nat) : list block :=
  (λ a, d !!! a) <$> log_addrs start n.

(** The writes a complete installation of the log on [d] performs. *)
Definition log_writes (d : gmap Z block) (start : Z) : list (Z * block) :=
  let hb := hdr_blocks d start in zip hb (log_vals d start (length hb)).

(** What the disk [d] stands for: itself with its committed log installed. *)
Definition logical (d : gmap Z block) (start : Z) : gmap Z block :=
  apply_writes (log_writes d start) d.

(** A block outside the log area. *)
Definition home (start size b : Z) : Prop := ¬ (start ≤ b < start + size).

(** A disk whose log area is well formed. *)
Record log_ok (d : gmap Z block) (start size : Z) : Prop := {
  lo_hdr : ∃ n ws, d !! start = Some (n :: ws) ∧ 0 ≤ n ≤ LOGSIZE ∧ n < size ∧ length ws = 127%nat;
  lo_area b : start ≤ b < start + size → is_Some (d !! b);
  lo_home b : b ∈ hdr_blocks d start → is_Some (d !! b) ∧ home start size b
}.

Lemma hdr_blocks_eq d start n ws :
  d !! start = Some (n :: ws) → hdr_blocks d start = take (Z.to_nat n) ws.
Proof. unfold hdr_blocks. by intros ->. Qed.

Lemma log_ok_hdr d start size : log_ok d start size →
  ∃ ws, d !! start = Some (Z.of_nat (length (hdr_blocks d start)) :: ws) ∧
    hdr_blocks d start = take (length (hdr_blocks d start)) ws ∧ length ws = 127%nat ∧
    (length (hdr_blocks d start) ≤ 30)%nat ∧ Z.of_nat (length (hdr_blocks d start)) < size.
Proof.
  intros [(n & ws & E & Hn & Hs & Hl) _ _]. unfold LOGSIZE, MAXOPBLOCKS in *.
  rewrite (hdr_blocks_eq _ _ _ _ E), length_take, Hl, Nat.min_l by lia.
  exists ws. rewrite Z2Nat.id by lia. split_and!; try done; lia.
Qed.

Lemma log_vals_lookup d start n i v :
  log_vals d start n !! i = Some v → (i < n)%nat ∧ v = d !!! (start + Z.of_nat i + 1).
Proof.
  unfold log_vals. rewrite list_lookup_fmap. intros (a & Ha & ->)%fmap_Some_1.
  pose proof (lookup_lt_Some _ _ _ Ha) as Hi. rewrite length_log_addrs in Hi.
  rewrite log_addrs_lookup in Ha by done. by simplify_eq.
Qed.

Lemma length_log_vals d start n : length (log_vals d start n) = n.
Proof. unfold log_vals. by rewrite length_fmap, length_log_addrs. Qed.

Lemma log_writes_keys d start : (log_writes d start).*1 = hdr_blocks d start.
Proof. unfold log_writes. apply fst_zip. by rewrite length_log_vals. Qed.

(** Home blocks are not log blocks. *)
Lemma home_not_log start size b n :
  home start size b → Z.of_nat n < size → b ∉ log_addrs start n.
Proof. unfold home. intros Hb Hn. rewrite elem_of_log_addrs. lia. Qed.

(** The writes of recovery: install the log, then clear the header. *)
Definition recovery_writes (d : gmap Z block) (start : Z) : list (Z * block) :=
  log_writes d start ++ [(start, 0 :: drop 1 (d !!! start))].

Lemma recover_spec d start size : log_ok d start size →
  ∃ s', recover_from_log (reboot d start size) = Ret (tt, s') ∧
    trace s' = recovery_writes d start ∧ disk s' = apply_writes (recovery_writes d start) d ∧
    (∃ bl, logs s' = Log start size 0 0 (LogHeader 0 bl) ∧ length bl = 30%nat) ∧
    coherent s' ∧ ∀ b bf, bufs s' !! b = Some bf → b_dirty bf = false.
Proof.
  intros Hok. destruct (log_ok_hdr _ _ _ Hok) as (ws & Eh & Hhb & Hws & Hle & Hsz).
  set (hb := hdr_blocks d start) in *. set (s0 := reboot d start size).
  assert (view s0 = d) as V0.
  { apply map_eq. intros b. rewrite view_lookup. done. }
  assert (coherent s0) as C0 by (intros b bf; cbn; by rewrite lookup_empty).
  destruct (read_head_spec s0 start hb ws) as (s1 & bl & E1 & W1 & Hbl & Hlbl);
    [done|done|by rewrite V0|done|exact Hle|].
  set (s1' := set_lh s1 _) in E1.
  assert (coherent s1') as C1 by exact (w_coherent _ _ _ W1).
  assert (view s1' = d) as V1 by (rewrite <-V0; exact (w_view _ _ _ W1)).
  assert (logged s1' start hb) as G1.
  { split; cbn; [|done|done]. by rewrite (w_logs _ _ _ W1). }
  destruct (install_trans_spec s1' start hb (log_vals d start (length hb)))
    as (s2 & E2 & W2); [done|done|by rewrite length_log_vals| | |].
  { intros i v [Hi ->]%log_vals_lookup. rewrite V1.
    destruct (lo_area _ _ _ Hok (start + Z.of_nat i + 1)) as [x Hx]; [lia|].
    rewrite Hx. f_equal. by rewrite (lookup_total_correct _ _ _ Hx). }
  { intros b Hb. destruct (lo_home _ _ _ Hok b Hb). rewrite V1.
    split; [done|]. by apply (home_not_log start size). }
  assert (view s2 !! start = d !! start) as Hst2.
  { rewrite (w_view _ _ _ W2), V1, apply_writes_notin; [done|].
    change (zip hb _) with (log_writes d start). rewrite log_writes_keys. intros Hin.
    destruct (lo_home _ _ _ Hok _ Hin) as [_ Hh]. unfold home in Hh. lia. }
  set (s2' := set_n s2 0).
  destruct (write_head_spec s2' start [] (Z.of_nat (length hb) :: ws)) as (s3 & E3 & W3).
  { exact (w_coherent _ _ _ W2). }
  { split; cbn; [|done|done]. rewrite (w_logs _ _ _ W2). apply G1. }
  { change (view s2' !! start) with (view s2 !! start). by rewrite Hst2. }
  { cbn. lia. }
  exists s3.
  assert (d !!! start = Z.of_nat (length hb) :: ws) as Ht by (by apply lookup_total_correct).
  assert (recovery_writes d start = zip hb (log_vals d start (length hb)) ++
            [(start, head_words [] (Z.of_nat (length hb) :: ws))]) as ->.
  { unfold recovery_writes. by rewrite Ht. }
  split_and!.
  - unfold recover_from_log. do 3 (erewrite M_bind_run by done). done.
  - rewrite (w_trace _ _ _ W3). change (trace s2') with (trace s2).
    rewrite (w_trace _ _ _ W2). change (trace s1') with (trace s1).
    by rewrite (w_trace _ _ _ W1).
  - rewrite (w_disk _ _ _ W3). change (disk s2') with (disk s2).
    rewrite (w_disk _ _ _ W2). change (disk s1') with (disk s1).
    by rewrite (w_disk _ _ _ W1), apply_writes_app.
  - exists bl. rewrite (w_logs _ _ _ W3). unfold s2', set_n, set_lh, set_log. cbn.
    rewrite (w_logs _ _ _ W2). cbn. by rewrite (w_logs _ _ _ W1).
  - exact (w_coherent _ _ _ W3).
  - intros b bf Hb. destruct (b_dirty bf) eqn:Ed; [|done]. exfalso.
    destruct (w_dirty _ _ _ W3 _ _ Hb Ed) as (_ & bf2 & Hb2 & Ed2).
    destruct (w_dirty _ _ _ W2 _ _ Hb2 Ed2) as (_ & bf1 & Hb1 & Ed1).
    destruct (w_dirty _ _ _ W1 _ _ Hb1 Ed1) as (_ & bf0 & Hb0 & _).
    unfold s0, reboot in Hb0. cbn in Hb0. by rewrite lookup_empty in Hb0.
Qed.

(** ** Crashes during recovery *)

Lemma log_writes_same d d' start size :
  log_ok d start size → (∀ b, start ≤ b < start + size → d' !! b = d !! b) →
  hdr_blocks d' start = hdr_blocks d start ∧ log_writes d' start = log_writes d start.
Proof.
  intros Hok Hs. destruct (log_ok_hdr _ _ _ Hok) as (ws & Eh & _ & _ & _ & Hsz).
  assert (hdr_blocks d' start = hdr_blocks d start) as E.
  { unfold hdr_blocks. rewrite Hs by lia. done. }
  split; [done|]. unfold log_writes. rewrite E. f_equal.
  apply list_fmap_ext. intros i a Ha%list_elem_of_lookup_2%elem_of_log_addrs.
  unfold lookup_total, map_lookup_total. rewrite Hs by lia. done.
Qed.

Lemma home_key start size d b : log_ok d start size →
  b ∈ (log_writes d start).*1 → home start size b.
Proof. intros Hok. rewrite log_writes_keys. intros Hb. by apply (lo_home _ _ _ Hok). Qed.

(** A disk with an empty log stands for itself. *)
Lemma logical_empty d start : hdr_blocks d start = [] → logical d start = d.
Proof. intros E. unfold logical, log_writes. by rewrite E. Qed.

Lemma log_ok_same d d' start size : log_ok d start size →
  (∀ b, start ≤ b < start + size → d' !! b = d !! b) →
  (∀ b, is_Some (d !! b) → is_Some (d' !! b)) → log_ok d' start size.
Proof.
  intros Hok Hs Hsome. destruct (log_writes_same d d' start size Hok Hs) as [E _].
  destruct Hok as [(n & ws & Eh & ? & ? & ?) Harea Hhome]. split.
  - exists n, ws. rewrite Hs by lia. done.
  - intros b Hb. rewrite Hs by done. auto.
  - rewrite E. intros b Hb. destruct (Hhome b Hb). auto.
Qed.

(** A disk whose header is cleared. *)
Lemma log_ok_cleared d start size ws :
  0 < size → length ws = 127%nat → (∀ b, start ≤ b < start + size → is_Some (d !! b)) →
  d !! start = Some (0 :: ws) → log_ok d start size ∧ hdr_blocks d start = [].
Proof.
  intros Hs Hl Ha E. assert (hdr_blocks d start = []) as Eh by (unfold hdr_blocks; by rewrite E).
  split; [|done]. split; [|done|].
  - exists 0, ws. unfold LOGSIZE, MAXOPBLOCKS. split_and!; (done || lia).
  - rewrite Eh. intros b Hb. by apply not_elem_of_nil in Hb.
Qed.

Lemma recovery_prefix d start size k : log_ok d start size →
  let d' := apply_writes (take k (recovery_writes d start)) d in
  log_ok d' start size ∧
  ∀ b, home start size b → logical d' start !! b = logical d start !! b.
Proof.
  intros Hok d'. destruct (log_ok_hdr _ _ _ Hok) as (ws & Eh & _ & Hws & _ & Hsz).
  destruct (decide (k ≤ length (log_writes d start))%nat) as [Hk|Hk].
  - assert (d' = apply_writes (take k (log_writes d start)) d) as Ed.
    { unfold d', recovery_writes. by rewrite take_app_le. }
    assert (∀ b, start ≤ b < start + size → d' !! b = d !! b) as Hs.
    { intros b Hb. rewrite Ed, apply_writes_notin; [done|]. intros Hin.
      assert (home start size b) as []; [|done]. apply (home_key start size d b Hok).
      apply list_elem_of_fmap in Hin as (w & -> & (i & Hi & _)%elem_of_take).
      apply list_elem_of_fmap. exists w. split; [done|]. by eapply list_elem_of_lookup_2. }
    destruct (log_writes_same d d' start size Hok Hs) as [_ El]. split.
    + apply (log_ok_same d); [done..|]. rewrite Ed. intros b. apply apply_writes_is_Some.
    + intros b _. unfold logical. rewrite El, Ed, apply_writes_absorb; [done|].
      intros x (w & -> & (i & Hi & _)%elem_of_take)%list_elem_of_fmap.
      apply list_elem_of_fmap. exists w. split; [done|]. by eapply list_elem_of_lookup_2.
  - assert (d' = <[start := 0 :: ws]> (logical d start)) as Ed.
    { unfold d', recovery_writes. rewrite take_ge by (rewrite length_app; cbn; lia).
      rewrite apply_writes_app. cbn. by rewrite (lookup_total_correct _ _ _ Eh). }
    destruct (log_ok_cleared d' start size ws) as [Hok' He]; [lia|done| | |].
    { intros b Hb. unfold d'. by apply apply_writes_is_Some, (lo_area _ _ _ Hok). }
    { by rewrite Ed, lookup_insert_eq. }
    split; [done|]. intros b Hb. rewrite logical_empty by done.
    rewrite Ed, lookup_insert_ne; [done|]. unfold home in Hb. lia.
Qed.

(** A crash while [recover_from_log] runs after a reboot on [d]. *)
Definition recovery_crash (start size : Z) (d d' : gmap Z block) : Prop :=
  ∃ s k, recover_from_log (reboot d start size) = Ret (tt, s) ∧
         d' = apply_writes (take k (trace s)) d.

Lemma recovery_crash_logical start size d d' :
  log_ok d start size → recovery_crash start size d d' →
  log_ok d' start size ∧
  ∀ b, home start size b → logical d' start !! b = logical d start !! b.
Proof.
  intros Hok (s & k & E & ->). destruct (recover_spec d start size Hok) as (s' & E' & T & _).
  rewrite E in E'. simplify_eq. rewrite T. by apply recovery_prefix.
Qed.

Lemma recovery_crashes_logical start size d d' :
  log_ok d start size → rtc (recovery_crash start size) d d' →
  log_ok d' start size ∧
  ∀ b, home start size b → logical d' start !! b = logical d start !! b.
Proof.
  intros Hok Hr. induction Hr as [|d1 d2 d3 Hc _ IH]; [done|].
  destruct (recovery_crash_logical start size d1 d2 Hok Hc) as [Hok2 H2].
  destruct (IH Hok2) as [Hok3 H3]. split; [done|]. intros b Hb.
  by rewrite H3, H2.
Qed.

(** C3. Recovery is correct and idempotent: on any disk with a well-formed
    log, after any number of crashes at any point of recovery itself, a
    recovery that runs to its end succeeds, leaves every block outside the log
    equal to the logical disk (the committed log installed over the original
    contents), and leaves an empty log. *)
Theorem recovery_correct (d d' : gmap Z block) (start size : Z) :
  log_ok d start size → rtc (recovery_crash start size) d d' →
  ∃ s, recover_from_log (reboot d' start size) = Ret (tt, s) ∧
    (∀ b, home start size b → disk s !! b = logical d start !! b) ∧
    hdr_blocks (disk s) start = [] ∧ lh_n (lh (logs s)) = 0.
Proof.
  intros Hok Hr. destruct (recovery_crashes_logical _ _ _ _ Hok Hr) as [Hok' Hl].
  destruct (recover_spec d' start size Hok') as (s & E & T & D & (bl & N & _) & _ & _).
  exists s. destruct (log_ok_hdr _ _ _ Hok') as (ws & Eh & _).
  assert (disk s = <[start := 0 :: ws]> (logical d' start)) as Ed.
  { rewrite D. unfold recovery_writes. rewrite apply_writes_app. cbn.
    by rewrite (lookup_total_correct _ _ _ Eh). }
  split_and!; [done| | |by rewrite N].
  - intros b Hb. rewrite Ed, lookup_insert_ne; [by apply Hl|].
    unfold home in Hb. destruct (lo_hdr _ _ _ Hok') as (? & ? & ? & ? & ? & ?). lia.
  - rewrite Ed. unfold hdr_blocks. by rewrite lookup_insert_eq.
Qed.

(** ** Commit *)

(** The state between transactions and at the end of one: the disk's log is
    empty, the in-memory log lists [hb], and only logged blocks are dirty. *)
Record log_inv (s : fsst) (start size : Z) (hb : list Z) : Prop := {
  li_coherent : coherent s;
  li_logged : logged s start hb;
  li_size : log_size (logs s) = size;
  li_blocks : length (lh_block (lh (logs s))) = 30%nat;
  li_fits : (length hb ≤ 30)%nat ∧ Z.of_nat (length hb) < size;
  li_disk : log_ok (disk s) start size;
  li_empty : hdr_blocks (disk s) start = [];
  li_home b : b ∈ hb → is_Some (disk s !! b) ∧ home start size b;
  li_dirty b bf : bufs s !! b = Some bf → b_dirty bf = true → b ∈ hb
}.

Lemma view_clean s start size hb b :
  log_inv s start size hb → b ∉ hb → view s !! b = disk s !! b.
Proof.
  intros Hi Hb. rewrite view_lookup. destruct (bufs s !! b) as [bf|] eqn:E; [|done].
  destruct (li_coherent _ _ _ _ Hi _ _ E) as [_ Hc]. destruct (b_dirty bf) eqn:Ed.
  - by apply (li_dirty _ _ _ _ Hi) in E.
  - by rewrite Hc.
Qed.

(** Writing to each of [l] the value a function gives it. *)
Lemma apply_writes_fun (f : Z → block) l : ∀ x b,
  b ∈ l → apply_writes (zip l (f <$> l)) x !! b = Some (f b).
Proof.
  induction l as [|a l IH]; intros x b Hb; [by apply not_elem_of_nil in Hb|].
  change (apply_writes (zip l (f <$> l)) (<[a := f a]> x) !! b = Some (f b)).
  destruct (decide (b ∈ l)) as [|Hn]; [by apply IH|].
  apply elem_of_cons in Hb as [->|]; [|done].
  rewrite apply_writes_notin, lookup_insert_eq; [done|].
  rewrite fst_zip; [done|]. by rewrite length_fmap.
Qed.

Section commit.
Context (s : fsst) (start size : Z) (hb : list Z) (Hinv : log_inv s start size hb).
Context (h0 : block) (Hh0 : disk s !! start = Some h0).

Let d := disk s.
Let n := length hb.
Let la := log_addrs start n.
Let vs := (λ b, view s !!! b) <$> hb.

(** The writes of [commit], in the order they reach the disk. *)
Definition commit_writes : list (Z * block) :=
  (zip la vs ++ [(start, head_words hb h0)]) ++
  (zip hb vs ++ [(start, head_words [] (head_words hb h0))]).

Lemma commit_len : length vs = length hb ∧ length (zip la vs) = n ∧ length (zip hb vs) = n.
Proof.
  unfold vs, la, n.
  rewrite !length_zip_with, !length_fmap, length_log_addrs. lia.
Qed.

Lemma home_present b : b ∈ hb → is_Some (view s !! b).
Proof.
  intros Hb. rewrite view_lookup. destruct (bufs s !! b); [done|].
  by apply (li_home _ _ _ _ Hinv).
Qed.

Lemma vs_lookup i b v : hb !! i = Some b → vs !! i = Some v → view s !! b = Some v.
Proof.
  intros Hb Hv. unfold vs in Hv. rewrite list_lookup_fmap, Hb in Hv. simplify_eq/=.
  destruct (home_present b) as [x Hx]; [by eapply list_elem_of_lookup_2|].
  by rewrite Hx, (lookup_total_correct _ _ _ Hx).
Qed.

Lemma hb_home b : b ∈ hb → home start size b.
Proof. apply (li_home _ _ _ _ Hinv). Qed.

Lemma la_area b : b ∈ la → start < b < start + size.
Proof.
  unfold la, n. rewrite elem_of_log_addrs. destruct (li_fits _ _ _ _ Hinv). lia.
Qed.

Lemma start_area : start < start + size.
Proof. destruct (li_fits _ _ _ _ Hinv). lia. Qed.

Lemma h0_len : ∃ ws, h0 = 0 :: ws ∧ length ws = 127%nat.
Proof.
  destruct (log_ok_hdr _ _ _ (li_disk _ _ _ _ Hinv)) as (ws & E & _ & ? & _).
  rewrite (li_empty _ _ _ _ Hinv) in E. exists ws. split; [|done].
  rewrite Hh0 in E. by simplify_eq.
Qed.

Lemma keys_la k b : b ∈ (take k (zip la vs)).*1 → b ∈ la.
Proof. apply fst_take_zip. Qed.
Lemma keys_hb k b : b ∈ (take k (zip hb vs)).*1 → b ∈ hb.
Proof. apply fst_take_zip. Qed.

Lemma zip_lookup i (l : list Z) b v x : NoDup l → length l = length vs →
  l !! i = Some b → vs !! i = Some v → apply_writes (zip l vs) x !! b = Some v.
Proof.
  revert i l b v x. generalize vs as ws. clear.
  intros ws i l. revert i ws. induction l as [|a l IH]; intros i [|w ws] b v x Hnd Hlen Hb Hv;
    try done. apply NoDup_cons in Hnd as [Ha Hnd]. cbn in *. injection Hlen as Hlen.
  change (apply_writes (zip l ws) (<[a := w]> x) !! b = Some v).
  destruct i as [|i]; cbn in *; simplify_eq.
  - rewrite apply_writes_notin, lookup_insert_eq; [done|]. rewrite fst_zip; [done|lia].
  - by apply (IH i).
Qed.

Lemma la_nodup : NoDup la.
Proof.
  unfold la, log_addrs. apply NoDup_fmap_2; [|apply NoDup_seq]. intros i j. lia.
Qed.

(** The home blocks after all of them are installed. *)
Lemma installed b x : home start size b →
  (∀ c, home start size c → x !! c = d !! c) →
  apply_writes (zip hb vs) x !! b = view s !! b.
Proof.
  intros Hb Hx. destruct commit_len as (Hl & _ & _). destruct (decide (b ∈ hb)) as [Hin|Hin].
  - unfold vs. rewrite apply_writes_fun by done.
    destruct (home_present b Hin) as [v Hv]. by rewrite Hv, (lookup_total_correct _ _ _ Hv).
  - rewrite apply_writes_notin; [|rewrite fst_zip; [done|lia]].
    rewrite Hx by done. symmetry. by apply (view_clean s start size hb).
Qed.

Lemma commit_run : hb ≠ [] →
  ∃ s', commit s = Ret (tt, s') ∧ trace s' = trace s ++ commit_writes ∧
    disk s' = apply_writes commit_writes d ∧ view s' = apply_writes commit_writes (view s) ∧
    logs s' = logs (set_n s 0) ∧ coherent s' ∧
    (∀ b bf, bufs s' !! b = Some bf → b_dirty bf = false).
Proof.
  intros Hne. destruct commit_len as (Hl & _ & _). destruct h0_len as (ws0 & Eh0 & Hws0).
  pose proof (li_coherent _ _ _ _ Hinv) as C0. pose proof (li_logged _ _ _ _ Hinv) as G0.
  destruct (li_fits _ _ _ _ Hinv) as [Hfit Hsz].
  assert (∀ b, b ∈ hb → b ∉ la) as Hdis.
  { intros b Hb Ha. apply hb_home in Hb as []. apply la_area in Ha. lia. }
  destruct (write_log_spec s start hb vs C0 G0 Hl) as (s1 & E1 & W1); [|done| |].
  { intros i b v. apply vs_lookup. }
  { intros b Hb. rewrite (view_clean s start size hb) by (done || (intros ?; by eapply Hdis)).
    apply (lo_area _ _ _ (li_disk _ _ _ _ Hinv)). apply la_area in Hb. lia. }
  assert (start ∉ hb) as Hns.
  { intros []%hb_home. pose proof start_area. lia. }
  assert (start ∉ la) as Hnl by (intros ?%la_area; lia).
  destruct (write_head_spec s1 start hb h0) as (s2 & E2 & W2).
  { exact (w_coherent _ _ _ W1). }
  { destruct G0. split; by rewrite (w_logs _ _ _ W1). }
  { rewrite (w_view _ _ _ W1), apply_writes_notin; [|intros ?%(fst_zip_subset); done].
    by rewrite (view_clean s start size hb). }
  { rewrite Eh0. cbn. lia. }
  assert (∀ i v, vs !! i = Some v → view s2 !! (start + Z.of_nat i + 1) = Some v) as Hlog.
  { intros i v Hv. pose proof (lookup_lt_Some _ _ _ Hv) as Hi. rewrite Hl in Hi.
    rewrite (w_view _ _ _ W2). cbn. rewrite lookup_insert_ne by lia.
    rewrite (w_view _ _ _ W1). eapply zip_lookup; [apply la_nodup| | |exact Hv].
    - unfold la. rewrite length_log_addrs. by rewrite Hl.
    - by apply log_addrs_lookup. }
  destruct (install_trans_spec s2 start hb vs) as (s3 & E3 & W3).
  { exact (w_coherent _ _ _ W2). }
  { destruct G0. split; by rewrite (w_logs _ _ _ W2), (w_logs _ _ _ W1). }
  { done. }
  { done. }
  { intros b Hb. split; [|by apply Hdis].
    rewrite (w_view _ _ _ W2), (w_view _ _ _ W1). do 2 apply apply_writes_is_Some.
    by apply home_present. }
  destruct (write_head_spec (set_n s3 0) start [] (head_words hb h0)) as (s4 & E4 & W4).
  { exact (w_coherent _ _ _ W3). }
  { destruct G0. split; cbn; [|done|done].
    by rewrite (w_logs _ _ _ W3), (w_logs _ _ _ W2), (w_logs _ _ _ W1). }
  { change (view s3 !! start = Some (head_words hb h0)).
    rewrite (w_view _ _ _ W3), apply_writes_notin; [|intros ?%(fst_zip_subset); done].
    rewrite (w_view _ _ _ W2). cbn. by rewrite lookup_insert_eq. }
  { cbn. lia. }
  exists s4. unfold commit_writes. rewrite !apply_writes_app. split_and!.
  - unfold commit. rewrite (lg_n _ _ _ G0). case_if; [|destruct hb; [done|cbn in *; lia]].
    do 4 (erewrite M_bind_run by done). done.
  - rewrite (w_trace _ _ _ W4). change (trace (set_n s3 0)) with (trace s3).
    rewrite (w_trace _ _ _ W3), (w_trace _ _ _ W2), (w_trace _ _ _ W1).
    by rewrite <-!app_assoc.
  - rewrite (w_disk _ _ _ W4). change (disk (set_n s3 0)) with (disk s3).
    by rewrite (w_disk _ _ _ W3), (w_disk _ _ _ W2), (w_disk _ _ _ W1).
  - rewrite (w_view _ _ _ W4). change (view (set_n s3 0)) with (view s3).
    by rewrite (w_view _ _ _ W3), (w_view _ _ _ W2), (w_view _ _ _ W1).
  - rewrite (w_logs _ _ _ W4). unfold set_n, set_lh, set_log. cbn.
    by rewrite (w_logs _ _ _ W3), (w_logs _ _ _ W2), (w_logs _ _ _ W1).
  - exact (w_coherent _ _ _ W4).
  - intros b bf Hb. destruct (b_dirty bf) eqn:Ed; [|done]. exfalso.
    destruct (w_dirty _ _ _ W4 _ _ Hb Ed) as (_ & bf3 & Hb3 & Ed3).
    destruct (w_dirty _ _ _ W3 _ _ Hb3 Ed3) as (Hn3 & bf2 & Hb2 & Ed2).
    destruct (w_dirty _ _ _ W2 _ _ Hb2 Ed2) as (_ & bf1 & Hb1 & Ed1).
    destruct (w_dirty _ _ _ W1 _ _ Hb1 Ed1) as (_ & bf0 & Hb0 & Ed0).
    apply Hn3. rewrite fst_zip by lia. by eapply (li_dirty _ _ _ _ Hinv).
Qed.

(** The disk once the header is written, with [j] home blocks installed. *)
Let dmid (j : nat) : gmap Z block :=
  apply_writes (take j (zip hb vs)) (apply_writes (zip la vs ++ [(start, head_words hb h0)]) d).

Lemma dmid_area j b : start ≤ b < start + size →
  dmid j !! b = apply_writes (zip la vs ++ [(start, head_words hb h0)]) d !! b.
Proof.
  intros Hb. unfold dmid. apply apply_writes_notin. intros ?%keys_hb%hb_home. done.
Qed.

Lemma dmid_home b : home start size b →
  apply_writes (zip la vs ++ [(start, head_words hb h0)]) d !! b = d !! b.
Proof.
  intros Hb. apply apply_writes_notin. rewrite fmap_app. cbn. pose proof start_area.
  intros [Hin%fst_zip_subset%la_area|Hin]%elem_of_app; unfold home in Hb; [lia|].
  apply list_elem_of_singleton in Hin. lia.
Qed.

Lemma dmid_hdr j : dmid j !! start = Some (head_words hb h0).
Proof.
  pose proof start_area. rewrite dmid_area by lia. rewrite apply_writes_app. cbn.
  apply lookup_insert_eq.
Qed.

Lemma dmid_hdr_blocks j : hdr_blocks (dmid j) start = hb.
Proof.
  rewrite (hdr_blocks_eq _ _ _ _ (dmid_hdr j)), Nat2Z.id, take_app_le, take_ge; done.
Qed.

Lemma dmid_log_writes j : log_writes (dmid j) start = zip hb vs.
Proof.
  unfold log_writes. rewrite dmid_hdr_blocks. f_equal. destruct commit_len as (Hl & _ & _).
  apply (list_eq_same_length _ _ n); [done|by rewrite length_log_vals|].
  intros i x v Hi Hx Hv. apply log_vals_lookup in Hx as [_ ->].
  apply lookup_total_correct. destruct (li_fits _ _ _ _ Hinv).
  rewrite dmid_area by (unfold n in *; lia). rewrite apply_writes_app. cbn.
  rewrite lookup_insert_ne by lia. eapply zip_lookup; [apply la_nodup| | |exact Hv].
  - unfold la. by rewrite length_log_addrs.
  - by apply log_addrs_lookup.
Qed.

Lemma dmid_ok j : log_ok (dmid j) start size.
Proof.
  destruct (li_fits _ _ _ _ Hinv) as [Hfit Hsz]. destruct h0_len as (ws & E & Hws). split.
  - eexists _, _. split; [apply dmid_hdr|]. unfold LOGSIZE, MAXOPBLOCKS.
    split_and!; [lia|lia|done|]. rewrite E, length_app, length_drop. cbn. lia.
  - intros b Hb. unfold dmid.
    by do 2 apply apply_writes_is_Some; apply (lo_area _ _ _ (li_disk _ _ _ _ Hinv)).
  - rewrite dmid_hdr_blocks. intros b Hb. destruct (li_home _ _ _ _ Hinv b Hb). split; [|done].
    unfold dmid. by do 2 apply apply_writes_is_Some.
Qed.

Lemma dmid_logical j b : home start size b → logical (dmid j) start !! b = view s !! b.
Proof.
  intros Hb. unfold logical. rewrite dmid_log_writes. unfold dmid. rewrite apply_writes_absorb.
  - apply installed; [done|]. intros c Hc. by apply dmid_home.
  - intros x Hx%keys_hb. rewrite fst_zip; [done|]. destruct commit_len as (-> & _ & _). lia.
Qed.

(** The disk after any prefix of the writes of [commit]. *)
Lemma commit_prefix k :
  let d' := apply_writes (take k commit_writes) d in
  log_ok d' start size ∧
  ((k ≤ n)%nat ∧ (∀ b, home start size b → logical d' start !! b = d !! b) ∨
   (n < k)%nat ∧ (∀ b, home start size b → logical d' start !! b = view s !! b)).
Proof.
  intros d'. destruct commit_len as (_ & L1 & L2). pose proof (li_disk _ _ _ _ Hinv) as Hok.
  destruct (decide (k ≤ n)%nat) as [Hk|Hk].
  - assert (d' = apply_writes (take k (zip la vs)) d) as Ed.
    { unfold d', commit_writes. rewrite <-!app_assoc, take_app_le by lia. done. }
    assert (∀ b, b ∉ la → d' !! b = d !! b) as Hs.
    { intros b Hb. rewrite Ed. apply apply_writes_notin. by intros ?%keys_la. }
    assert (d' !! start = d !! start) as Hst by (apply Hs; intros ?%la_area; lia).
    assert (hdr_blocks d' start = []) as He.
    { unfold hdr_blocks. rewrite Hst. apply (li_empty _ _ _ _ Hinv). }
    split; [|left; split; [done|]].
    + destruct h0_len as (ws & E & Hws). pose proof start_area.
      apply (log_ok_cleared d' start size ws); [lia|done| |by rewrite Hst, <-E].
      intros b Hb. rewrite Ed. by apply apply_writes_is_Some, (lo_area _ _ _ Hok).
    + intros b Hb. rewrite logical_empty, Hs by (done || (intros ?%la_area; unfold home in *; lia)).
      done.
  - destruct (decide (k ≤ n + 1 + n)%nat) as [Hk'|Hk'].
    + assert (d' = dmid (k - (n + 1))) as ->.
      { unfold d', dmid, commit_writes.
        rewrite take_app_ge by (rewrite length_app; cbn; lia).
        rewrite length_app, L1. cbn. rewrite take_app_le by lia. apply apply_writes_app. }
      split; [apply dmid_ok|]. right. split; [lia|]. intros b. apply dmid_logical.
    + assert (d' = <[start := head_words [] (head_words hb h0)]> (dmid n)) as Ed.
      { unfold d', dmid, commit_writes. rewrite !take_ge; rewrite ?length_app; cbn; try lia.
        by rewrite !apply_writes_app. }
      pose proof start_area. destruct h0_len as (ws & E & Hws).
      destruct (log_ok_cleared d' start size (hb ++ drop (1 + length hb) h0)) as [Hok' He].
      * lia.
      * destruct (li_fits _ _ _ _ Hinv). rewrite E, length_app, length_drop. cbn. lia.
      * intros b Hb. rewrite Ed, lookup_insert. case_decide; [eauto|].
        by apply (lo_area _ _ _ (dmid_ok n)).
      * by rewrite Ed, lookup_insert_eq.
      * split; [done|]. right. split; [lia|]. intros b Hb.
        rewrite logical_empty, Ed, lookup_insert_ne by (done || unfold home in *; lia).
        unfold dmid. rewrite take_ge by lia. apply installed; [done|].
        intros c Hc. by apply dmid_home.
Qed.
End commit.

Lemma commit_ends s start size hb s' :
  log_inv s start size hb → hb ≠ [] → commit s = Ret (tt, s') → log_inv s' start size [].
Proof.
  intros Hinv Hne E.
  destruct (lo_hdr _ _ _ (li_disk _ _ _ _ Hinv)) as (n0 & ws0 & Hh0 & _).
  destruct (commit_run s start size hb Hinv _ Hh0 Hne) as (s1 & E1 & T & D & V & L & C & Y).
  rewrite E in E1. simplify_eq. destruct (li_fits _ _ _ _ Hinv).
  destruct (commit_prefix s start size hb Hinv _ Hh0
              (length (commit_writes s start hb (n0 :: ws0)))) as [Hok _].
  rewrite firstn_all, <-D in Hok.
  assert (hdr_blocks (disk s1) start = []) as He.
  { rewrite D. unfold commit_writes. rewrite !apply_writes_app. unfold hdr_blocks. cbn.
    by rewrite lookup_insert_eq. }
  destruct (li_logged _ _ _ _ Hinv) as [G1 G2 G3].
  split; try done; rewrite ?L; cbn.
  - split; rewrite ?L; done.
  - apply (li_size _ _ _ _ Hinv).
  - apply (li_blocks _ _ _ _ Hinv).
  - lia.
  - intros b Hb. by apply not_elem_of_nil in Hb.
  - intros b bf Hb Hd. rewrite (Y b bf Hb) in Hd. done.
Qed.

Lemma commit_spec (s : fsst) (start size : Z) (hb : list Z) :
  log_inv s start size hb →
  ∃ s' ws, commit s = Ret (tt, s') ∧ trace s' = trace s ++ ws ∧
    disk s' = apply_writes ws (disk s) ∧
    (∀ k, let d' := apply_writes (take k ws) (disk s) in
       log_ok d' start size ∧
       ((∀ b, home start size b → logical d' start !! b = disk s !! b) ∨
        (∀ b, home start size b → logical d' start !! b = view s !! b))) ∧
    (∀ b, home start size b → disk s' !! b = view s !! b) ∧
    log_inv s' start size [] ∧
    outstanding (logs s') = outstanding (logs s) ∧ committing (logs s') = committing (logs s).
Proof.
  intros Hinv. destruct (decide (hb = [])) as [->|Hne].
  - exists s, []. unfold commit. rewrite (lg_n _ _ _ (li_logged _ _ _ _ Hinv)). cbn.
    rewrite app_nil_r. split_and!; try done.
    + intros k. rewrite take_nil. cbn. split; [apply (li_disk _ _ _ _ Hinv)|]. left.
      intros b _. by rewrite logical_empty by apply (li_empty _ _ _ _ Hinv).
    + intros b _. symmetry. apply (view_clean s start size []); [done|apply not_elem_of_nil].
  - destruct (lo_hdr _ _ _ (li_disk _ _ _ _ Hinv)) as (n0 & ws0 & Hh0 & _).
    destruct (commit_run s start size hb Hinv _ Hh0 Hne) as (s' & E & T & D & V & L & C & Y).
    pose proof (commit_ends s start size hb s' Hinv Hne E) as Hinv'.
    set (ws := commit_writes s start hb (n0 :: ws0)) in *.
    exists s', ws. split_and!; try done; rewrite ?L; try done.
    + intros k. destruct (commit_prefix s start size hb Hinv _ Hh0 k) as [Hok [[_ H]|[_ H]]];
        auto.
    + intros b Hb.
      destruct (commit_prefix s start size hb Hinv _ Hh0 (length ws)) as [_ [[Hk _]|[_ H]]].
      { unfold ws, commit_writes in Hk. rewrite !length_app, !length_zip_with, length_fmap in Hk.
        rewrite length_log_addrs in Hk. cbn in Hk. lia. }
      rewrite <-H by done. unfold ws. rewrite firstn_all. fold ws. rewrite <-D.
      by rewrite logical_empty by apply (li_empty _ _ _ _ Hinv').
Qed.


(** ** Transactions *)

(** How file-system code updates a block: [bread], modify, [log_write]. *)
Definition fs_write (b : Z) (d : block) : M fsst unit :=
  bread b ;; set_data b d ;; log_write b.

Lemma log_find_spec bl b cnt : ∀ i,
  (i + cnt ≤ length bl)%nat →
  ∃ j, log_find bl b (Z.of_nat i) cnt = Ret (Z.of_nat j) ∧ (i ≤ j ≤ i + cnt)%nat ∧
       (j < i + cnt → bl !! j = Some b)%nat ∧
       (j = i + cnt → b ∉ take cnt (drop i bl))%nat.
Proof.
  induction cnt as [|cnt IH]; intros i Hlen; cbn [log_find].
  { exists i. split_and!; [done|lia|lia|lia|]. intros _. rewrite take_0. apply not_elem_of_nil. }
  rewrite arr_get_nat. destruct (lookup_lt_is_Some_2 bl i) as [x Hx]; [lia|].
  rewrite Hx. cbn. case_if.
  - subst. exists i. split_and!; [done|lia|lia|done|lia].
  - replace (Z.of_nat i + 1) with (Z.of_nat (S i)) by lia.
    destruct (IH (S i)) as (j & E & Hj & H1 & H2); [lia|]. exists j.
    split_and!; [done|lia|lia| |]; intros Hj'; [apply H1; lia|].
    rewrite (drop_S bl x i Hx). cbn. rewrite not_elem_of_cons. split; [done|apply H2; lia].
Qed.

Lemma log_find_logged bl hb b :
  take (length hb) bl = hb → (length hb ≤ length bl)%nat →
  ∃ j, log_find bl b 0 (length hb) = Ret (Z.of_nat j) ∧
       (b ∈ hb ∧ hb !! j = Some b ∨ b ∉ hb ∧ j = length hb).
Proof.
  intros Hhb Hlen. destruct (log_find_spec bl b (length hb) 0) as (j & E & Hj & H1 & H2); [lia|].
  exists j. split; [exact E|]. destruct (decide (j < length hb)%nat) as [Hlt|Hge].
  - left. assert (hb !! j = Some b) as Hb.
    { rewrite <-Hhb. rewrite lookup_take_lt by done. by apply H1. }
    split; [by eapply list_elem_of_lookup_2|done].
  - right. assert (j = length hb) as -> by lia. split; [|done].
    rewrite drop_0, Hhb in H2. by apply H2.
Qed.

(** The block numbers logged after [b] is written. *)
Definition log_add (hb : list Z) (b : Z) : list Z := if decide (b ∈ hb) then hb else hb ++ [b].

Lemma log_add_block bl hb b j :
  take (length hb) bl = hb → (length hb < length bl)%nat →
  (b ∈ hb ∧ hb !! j = Some b ∨ b ∉ hb ∧ j = length hb) →
  take (length (log_add hb b)) (<[j := b]> bl) = log_add hb b ∧
  (if Z.of_nat j =? Z.of_nat (length hb) then Z.of_nat (length hb) + 1 else Z.of_nat (length hb)) =
    Z.of_nat (length (log_add hb b)).
Proof.
  intros Hhb Hlen [[Hin Hj]|[Hin ->]]; unfold log_add; case_decide; try done.
  - pose proof (lookup_lt_Some _ _ _ Hj). split; [|case_if; [lia|done]].
    rewrite take_insert_lt, Hhb by done. by apply list_insert_id.
  - rewrite Z.eqb_refl, length_app. cbn. split; [|lia].
    rewrite Nat.add_1_r, (take_S_r _ _ b) by (by apply list_lookup_insert_eq).
    by rewrite take_insert_ge, Hhb by lia.
Qed.

Lemma fs_write_spec s start size hb b d x :
  log_inv s start size hb → home start size b → disk s !! b = Some x →
  (length hb < 30)%nat → Z.of_nat (length hb) + 1 < size → 1 ≤ outstanding (logs s) →
  ∃ s', fs_write b d s = Ret (tt, s') ∧ log_inv s' start size (log_add hb b) ∧
    disk s' = disk s ∧ trace s' = trace s ∧ view s' = <[b := d]> (view s) ∧
    outstanding (logs s') = outstanding (logs s) ∧ committing (logs s') = committing (logs s).
Proof.
  intros Hinv Hhome Hx Hfit Hsz Hout. pose proof Hinv as [C G Sz Bl Fit Dk Em Hm Dy].
  assert (is_Some (view s !! b)) as [y Hy] by (rewrite view_lookup; destruct (bufs s !! b); eauto).
  destruct (bread_spec s b y C Hy) as (s1 & dty & E1 & W1 & B1).
  destruct (log_find_logged (lh_block (lh (logs s))) hb b) as (j & Ej & Hj); [apply G|lia|].
  destruct (log_add_block (lh_block (lh (logs s))) hb b j) as [Hb' Hn']; [apply G|lia|done|].
  assert (j ≤ length hb)%nat as Hjle.
  { destruct Hj as [[_ Hj]|[_ ->]]; [apply lookup_lt_Some in Hj|]; lia. }
  pose proof (w_logs _ _ _ W1) as L1. pose proof (w_disk _ _ _ W1) as D1. cbn in D1.
  eexists. split.
  { unfold fs_write. erewrite M_bind_run by done.
    erewrite (M_bind_run (set_data b d)); [|unfold set_data; rewrite B1; reflexivity].
    unfold log_write, set_bufs. cbn [logs bufs]. rewrite L1, (lg_n _ _ _ G), Sz, Nat2Z.id.
    unfold LOGSIZE, MAXOPBLOCKS. case_if as Et.
    { apply orb_true_iff in Et as [?|?]; bool_to_prop; lia. }
    case_if; [lia|]. rewrite Ej. cbn [mbind outcome_bind].
    rewrite arr_set_in by lia. cbn [mbind outcome_bind opt b_data].
    rewrite lookup_insert_eq. cbn. rewrite Hn', Nat2Z.id, insert_insert_eq. reflexivity. }
  cbn. rewrite ?L1. cbn. split_and!; try done.
  - split; cbn; rewrite ?L1; cbn; rewrite ?D1; try done.
    + intros b' bf. cbn. rewrite lookup_insert. case_decide.
      * intros [= <-]. subst. split; [eauto|done].
      * intros Hbb%(w_coherent _ _ _ W1). by rewrite D1 in Hbb.
    + destruct G. split; cbn; rewrite ?L1; done.
    + by rewrite length_insert.
    + unfold log_add. case_decide; [|rewrite length_app; cbn]; lia.
    + intros b'. unfold log_add. case_decide; [apply Hm|].
      rewrite elem_of_app, list_elem_of_singleton. intros [?| ->]; [by apply Hm|]. eauto.
    + intros b' bf. rewrite lookup_insert. unfold log_add. case_decide.
      * intros _ _. subst. case_decide; [done|]. set_solver.
      * intros Hb1 Hd. destruct (w_dirty _ _ _ W1 _ _ Hb1 Hd) as (_ & bf0 & Hb0 & Hd0).
        specialize (Dy _ _ Hb0 Hd0). case_decide; set_solver.
  - by rewrite (w_trace _ _ _ W1), app_nil_r.
  - apply map_eq. intros b'. rewrite view_lookup. cbn. rewrite lookup_insert.
    rewrite lookup_insert. case_decide; [done|].
    change (view s) with (apply_writes [] (view s)). by rewrite <-(w_view _ _ _ W1), view_lookup.
Qed.

Lemma recover_inv d start size s : log_ok d start size →
  recover_from_log (reboot d start size) = Ret (tt, s) →
  log_inv s start size [] ∧ outstanding (logs s) = 0 ∧ committing (logs s) = 0.
Proof.
  intros Hok E. destruct (recover_spec d start size Hok) as (s' & E' & _ & D & (bl & L & Hbl) & C & Y).
  rewrite E in E'. simplify_eq. rewrite L. destruct (log_ok_hdr _ _ _ Hok) as (ws & Eh & _ & _ & _ & Hs).
  destruct (recovery_prefix d start size (length (recovery_writes d start)) Hok) as [Hok' _].
  rewrite firstn_all, <-D in Hok'. split; [|done]. split; rewrite ?L; cbn; try done; try lia.
  - split; rewrite ?L; done.
  - rewrite D. unfold recovery_writes, hdr_blocks. rewrite apply_writes_app. cbn.
    by rewrite lookup_insert_eq.
  - intros b Hb. by apply not_elem_of_nil in Hb.
  - intros b bf Hb Hd. by rewrite (Y b bf Hb) in Hd.
Qed.

(** The log with its active operations, each with the number of blocks it has
    written, and the contents at the last commit. *)
Record tsys := TSys { ts : fsst; tops : list Z; tbase : gmap Z block }.

Inductive tstep (start size : Z) : tsys → tsys → Prop :=
  | t_begin s ops base s' : begin_op s = Some s' →
      tstep start size (TSys s ops base) (TSys s' (0 :: ops) base)
  | t_write s ops1 u ops2 base b d x s' : u < MAXOPBLOCKS → home start size b →
      disk s !! b = Some x → fs_write b d s = Ret (tt, s') →
      tstep start size (TSys s (ops1 ++ u :: ops2) base) (TSys s' (ops1 ++ (u + 1) :: ops2) base)
  | t_end s ops1 u ops2 base s' : end_op s = Ret (tt, s') →
      tstep start size (TSys s (ops1 ++ u :: ops2) base)
        (TSys s' (ops1 ++ ops2) (if decide (ops1 ++ ops2 = []) then view s else base)).

(** The log space the active operations may still use. *)
Definition reserved (ops : list Z) : Z := foldr (λ u acc, MAXOPBLOCKS - u + acc) 0 ops.

Lemma reserved_middle ops1 u ops2 :
  reserved (ops1 ++ u :: ops2) = MAXOPBLOCKS - u + reserved (ops1 ++ ops2).
Proof. induction ops1 as [|v ops1 IH]; cbn; [done|]. unfold reserved in IH. rewrite IH. lia. Qed.

Lemma reserved_bound ops : Forall (λ u, 0 ≤ u ≤ MAXOPBLOCKS) ops →
  0 ≤ reserved ops ≤ MAXOPBLOCKS * Z.of_nat (length ops).
Proof. unfold MAXOPBLOCKS. induction 1; cbn [reserved foldr length] in *; [lia|].
  unfold reserved, MAXOPBLOCKS in *. lia. Qed.

Record tinv (start size : Z) (t : tsys) (hb : list Z) : Prop := {
  ti_log : log_inv (ts t) start size hb;
  ti_out : outstanding (logs (ts t)) = Z.of_nat (length (tops t));
  ti_com : committing (logs (ts t)) = 0;
  ti_ops : Forall (λ u, 0 ≤ u ≤ MAXOPBLOCKS) (tops t);
  ti_room : Z.of_nat (length hb) + reserved (tops t) ≤ LOGSIZE;
  ti_base b : home start size b → disk (ts t) !! b = tbase t !! b
}.

Lemma log_inv_set_log s start size hb out com :
  log_inv s start size hb →
  log_inv (set_log s (Log (log_start (logs s)) (log_size (logs s)) out com (lh (logs s))))
    start size hb.
Proof. intros [? [? ? ?] ? ? ? ? ? ? ?]. by split. Qed.

Lemma tinv_begin start size s ops base hb s' :
  tinv start size (TSys s ops base) hb → begin_op s = Some s' →
  tinv start size (TSys s' (0 :: ops) base) hb.
Proof.
  intros [L O C F R B] E. cbn in *. unfold begin_op in E. repeat case_match; simplify_eq.
  bool_to_prop. rewrite O in *. pose proof (reserved_bound ops F).
  unfold LOGSIZE, MAXOPBLOCKS in *. rewrite (lg_n _ _ _ (li_logged _ _ _ _ L)) in *.
  split; cbn; try done.
  - by apply log_inv_set_log.
  - lia.
  - constructor; [unfold MAXOPBLOCKS; lia|done].
  - unfold reserved, LOGSIZE, MAXOPBLOCKS in *. lia.
Qed.

Lemma tinv_room start size t hb ops1 u ops2 :
  tinv start size t hb → tops t = ops1 ++ u :: ops2 → u < MAXOPBLOCKS →
  (length hb < 30)%nat ∧ 1 ≤ outstanding (logs (ts t)).
Proof.
  intros [L O C F R B] E Hu. rewrite E in *. rewrite reserved_middle in R.
  apply Forall_app in F as [F1 F2]. apply Forall_cons in F2 as [? F2].
  pose proof (reserved_bound (ops1 ++ ops2)) as Hb.
  destruct Hb as [? _]; [by apply Forall_app|].
  rewrite length_app in O. cbn in O. unfold LOGSIZE, MAXOPBLOCKS in *. lia.
Qed.

Lemma tinv_write start size s ops1 u ops2 base hb b d x s' :
  30 < size → tinv start size (TSys s (ops1 ++ u :: ops2) base) hb →
  u < MAXOPBLOCKS → home start size b → disk s !! b = Some x → fs_write b d s = Ret (tt, s') →
  tinv start size (TSys s' (ops1 ++ (u + 1) :: ops2) base) (log_add hb b).
Proof.
  intros Hsz Ht Hu Hb Hx E.
  destruct (tinv_room _ _ _ _ ops1 u ops2 Ht eq_refl Hu) as [H30 Hout]. cbn in *.
  destruct Ht as [L O C F R B]. cbn in *.
  destruct (fs_write_spec s start size hb b d x L Hb Hx) as (s1 & E1 & L1 & D1 & _ & _ & O1 & C1);
    [done|lia|done|].
  rewrite E in E1. simplify_eq. split; cbn; try done.
  - rewrite O1, O, !length_app. done.
  - by rewrite C1.
  - apply Forall_app in F as [F1 F2]. apply Forall_cons in F2 as [? F2].
    apply Forall_app. split; [done|]. constructor; [lia|done].
  - rewrite reserved_middle in *.
    assert (length (log_add hb b) ≤ S (length hb))%nat; [|lia].
    unfold log_add. case_decide; [|rewrite length_app; cbn]; lia.
  - intros c Hc. rewrite D1. auto.
Qed.

Lemma tinv_end start size s ops1 u ops2 base hb :
  tinv start size (TSys s (ops1 ++ u :: ops2) base) hb →
  ∃ s' hb', end_op s = Ret (tt, s') ∧
    tinv start size (TSys s' (ops1 ++ ops2)
      (if decide (ops1 ++ ops2 = []) then view s else base)) hb'.
Proof.
  intros [L O C F R B]. cbn in *.
  assert (outstanding (logs s) - 1 = Z.of_nat (length (ops1 ++ ops2))) as Ho.
  { rewrite O, !length_app. cbn. lia. }
  assert (Forall (λ u, 0 ≤ u ≤ MAXOPBLOCKS) (ops1 ++ ops2)) as F'.
  { apply Forall_app in F as [F1 F2]. apply Forall_cons in F2 as [? F2]. by apply Forall_app. }
  unfold end_op. cbv zeta. rewrite C, Ho. cbn [Z.eqb negb].
  destruct (decide (ops1 ++ ops2 = [])) as [E|E].
  - rewrite E in *. cbn [length Z.of_nat Z.eqb].
    set (s1 := set_log s _).
    assert (log_inv s1 start size hb) as L1 by (by apply log_inv_set_log).
    destruct (commit_spec s1 start size hb L1) as (s2 & ws & E2 & _ & _ & _ & Hd & L2 & O2 & C2).
    rewrite E2. cbn [mbind outcome_bind]. eexists _, []. split; [done|].
    split; cbn; try done. by apply log_inv_set_log.
  - case_if as E0; [by destruct (ops1 ++ ops2)|].
    eexists _, hb. split; [done|]. rewrite reserved_middle in R.
    apply Forall_app in F as [F1 F2]. apply Forall_cons in F2 as [Hu F2].
    cbn beta in Hu. split; cbn [ts tops tbase]; try done; [by apply log_inv_set_log|lia].
Qed.

Lemma tstep_inv start size t t' hb : 30 < size →
  tinv start size t hb → tstep start size t t' → ∃ hb', tinv start size t' hb'.
Proof.
  intros Hs Ht Hst. destruct Hst as [s ops base s' E|s ops1 u ops2 base b d x s' Hu Hb Hx E|
    s ops1 u ops2 base s' E].
  - exists hb. by eapply tinv_begin.
  - exists (log_add hb b). by eapply tinv_write.
  - destruct (tinv_end _ _ _ _ _ _ _ _ Ht) as (s1 & hb' & E1 & H1).
    rewrite E in E1. simplify_eq. eauto.
Qed.


(** ** Concrete runs: a log of 32 blocks at block 2, home blocks from 34 *)
Definition zero_block : block := replicate 128 0.
Definition demo_disk (hdr : block) : gmap Z block :=
  <[2 := hdr]> (<[3 := replicate 128 7]>
    (list_to_map ((λ b, (b, zero_block)) <$> seqZ 2 60))).

Lemma demo_present hdr b : 2 ≤ b < 62 → is_Some (demo_disk hdr !! b).
Proof.
  intros Hb. unfold demo_disk. rewrite !lookup_insert_is_Some'. right. right.
  apply elem_of_dom. rewrite dom_list_to_map_L.
  apply elem_of_list_to_set, list_elem_of_fmap. exists (b, zero_block). split; [done|].
  apply list_elem_of_fmap. exists b. split; [done|]. apply elem_of_seqZ. lia.
Qed.

(** A header that lists the single block 40, and an empty one. *)
Definition hdr_one : block := 1 :: 40 :: replicate 126 0.

Lemma demo_log_ok_one : log_ok (demo_disk hdr_one) 2 32.
Proof.
  split.
  - exists 1, (40 :: replicate 126 0). split; [reflexivity|].
    unfold LOGSIZE, MAXOPBLOCKS. split_and!; (lia || reflexivity).
  - intros b Hb. apply demo_present. lia.
  - intros b Hb. assert (b = 40) as ->.
    { apply list_elem_of_singleton. exact Hb. }
    split; [apply demo_present; lia|unfold home; lia].
Qed.

Lemma demo_log_ok_zero : log_ok (demo_disk zero_block) 2 32 ∧
  hdr_blocks (demo_disk zero_block) 2 = [].
Proof.
  apply (log_ok_cleared _ 2 32 (replicate 127 0)); [lia|reflexivity| |reflexivity].
  intros b Hb. apply demo_present. lia.
Qed.

(** Recovery installs the logged block 40. *)
Lemma recovery_correct_witness :
  ∃ s, recover_from_log (reboot (demo_disk hdr_one) 2 32) = Ret (tt, s) ∧
    disk s !! 40 = Some (replicate 128 7).
Proof.
  destruct (recovery_correct (demo_disk hdr_one) (demo_disk hdr_one) 2 32)
    as (s & E & H & _); [exact demo_log_ok_one|apply rtc_refl|].
  exists s. split; [exact E|]. rewrite H; [reflexivity|unfold home; lia].
Defined.

Definition demo_state : fsst :=
  FsSt (demo_disk zero_block) {[40 := Buf (replicate 128 9) true]} []
    (Log 2 32 0 1 (LogHeader 1 (40 :: replicate 29 0))).

Lemma demo_state_inv : log_inv demo_state 2 32 [40].
Proof.
  destruct demo_log_ok_zero as [Hok He].
  split; try done; try (cbn; lia); unfold demo_state; cbn [disk bufs].
  - intros b bf. cbn. intros [<- <-]%lookup_singleton_Some.
    split; [apply demo_present; lia|done].
  - intros b ->%list_elem_of_singleton. split; [apply demo_present; lia|unfold home; lia].
  - intros b bf [<- <-]%lookup_singleton_Some _. by apply list_elem_of_singleton.
Qed.


