(* ===== verification/Queue.v ===== *)
(** * The array queue (Assignment2 [queue_array.c]) and the linked list
    (Lab2 [linkedlist.c])

    The queue is a ring buffer in memory from [malloc]; its initial contents
    are whatever the allocation held.  A failed allocation of the data array
    is an empty array, so that every access to it is [Undef]. *)

From stdpp Require Import base numbers list strings.
From S2P Require Import Prelude.

Open Scope Z_scope.

Module Queue.

(** ** State *)
Record queue := MkQueue {
  back : Z;        (* the next free position in the queue *)
  front : Z;       (* current head of the queue *)
  size : Z;        (* how many elements are enqueued *)
  capacity : Z;    (* number of items the queue can hold *)
  data : list Z
}.

(** ** Operations *)

(** [header] tells whether the first [malloc] succeeded, [mem] is what the
    second one returned. *)
Definition create_queue (header : bool) (mem : list Z) (_capacity : Z) : outcome queue :=
  if header then Ret (MkQueue 0 0 0 _capacity mem) else Panic "assert".

Definition queue_empty (q : queue) : Z := if size q =? 0 then 1 else 0.
Definition queue_full (q : queue) : Z := if size q =? capacity q then 1 else 0.

(** [x % y] of unsigned operands. *)
Definition umod (x y : Z) : outcome Z := if y =? 0 then Undef else Ret (x mod y).

Definition queue_enqueue (q : queue) (item : Z) : outcome (Z * queue) :=
  if queue_full q =? 1 then Ret (-1, q)
  else
    d ← arr_set (data q) (back q) item;
    b ← umod (u32 (back q + 1)) (capacity q);
    Ret (0, MkQueue b (front q) (u32 (size q + 1)) (capacity q) d).

Definition queue_dequeue (q : queue) : outcome (Z * queue) :=
  if queue_empty q =? 1 then Ret (-1, q)
  else
    item ← arr_get (data q) (front q);
    f ← umod (u32 (front q + 1)) (capacity q);
    Ret (item, MkQueue (back q) f (u32 (size q - 1)) (capacity q) (data q)).

(** A NULL queue makes the program exit. *)
Definition queue_size (q : option queue) : outcome Z :=
  match q with None => Panic "exit" | Some q => Ret (size q) end.

(** ** Client programs and their specification *)
Inductive op := Enqueue (item : Z) | Dequeue | Empty | Full | Size.

Definition run_op (o : op) (q : queue) : outcome (Z * queue) :=
  match o with
  | Enqueue x => queue_enqueue q x
  | Dequeue => queue_dequeue q
  | Empty => Ret (queue_empty q, q)
  | Full => Ret (queue_full q, q)
  | Size => n ← queue_size (Some q); Ret (n, q)
  end.

Fixpoint run_ops (os : list op) (q : queue) : outcome (list Z * queue) :=
  match os with
  | [] => Ret ([], q)
  | o :: os =>
      '(r, q) ← run_op o q;
      '(rs, q) ← run_ops os q;
      Ret (r :: rs, q)
  end.

(** A bounded first-in first-out queue on a list. *)
Definition spec_op (cap : Z) (o : op) (l : list Z) : Z * list Z :=
  match o with
  | Enqueue x => if Z.of_nat (length l) =? cap then (-1, l) else (0, l ++ [x])
  | Dequeue => match l with [] => (-1, []) | x :: l => (x, l) end
  | Empty => (if Z.of_nat (length l) =? 0 then 1 else 0, l)
  | Full => (if Z.of_nat (length l) =? cap then 1 else 0, l)
  | Size => (Z.of_nat (length l), l)
  end.

Fixpoint spec_ops (cap : Z) (os : list op) (l : list Z) : list Z * list Z :=
  match os with
  | [] => ([], l)
  | o :: os =>
      let '(r, l) := spec_op cap o l in
      let '(rs, l) := spec_ops cap os l in
      (r :: rs, l)
  end.

(** ** Refinement *)

(** [q] holds the elements [l], oldest first. *)
Record queue_ok (q : queue) (l : list Z) : Prop := {
  qo_data : Z.of_nat (length (data q)) = capacity q;
  qo_cap : capacity q < 2 ^ 32;
  qo_size : size q = Z.of_nat (length l);
  qo_fits : size q ≤ capacity q;
  qo_front : 0 ≤ front q ∧ (0 < capacity q → front q < capacity q);
  qo_back : 0 < capacity q → back q = (front q + size q) mod capacity q;
  qo_elems i x : l !! i = Some x →
    data q !! Z.to_nat ((front q + Z.of_nat i) mod capacity q) = Some x
}.

Lemma mod_wrap x c : 0 ≤ x < 2 * c → x mod c = if x <? c then x else x - c.
Proof.
  intros. case_if; [apply Z.mod_small; lia|].
  symmetry. apply (Z.mod_unique x c 1); lia.
Qed.

Lemma enqueue_ok q l x : queue_ok q l →
  ∃ q', queue_enqueue q x = Ret ((spec_op (capacity q) (Enqueue x) l).1, q') ∧
        queue_ok q' (spec_op (capacity q) (Enqueue x) l).2 ∧ capacity q' = capacity q.
Proof.
  intros Hq. pose proof Hq as [D C S F [Fr Fr'] B E].
  unfold queue_enqueue, queue_full, spec_op. rewrite S.
  destruct (Z.of_nat (length l) =? capacity q) eqn:Ef; bool_to_prop; cbn [fst snd Z.eqb].
  { by exists q. }
  assert (0 < capacity q) as Hc by lia. specialize (B Hc). specialize (Fr' Hc).
  assert (0 ≤ back q < capacity q) as Hb by (rewrite B; by apply Z.mod_pos_bound).
  cbn. rewrite arr_set_in by lia. cbn. unfold umod. case_if; [lia|]. cbn.
  eexists. split; [done|]. split; [|done].
  rewrite !u32_small by lia. split; cbn; try done.
  - by rewrite length_insert.
  - rewrite length_app. cbn. lia.
  - lia.
  - intros _. rewrite B, Zplus_mod_idemp_l, S. f_equal. lia.
  - intros i y Hi. apply lookup_snoc_Some in Hi as [[Hi Hy]|[-> ->]].
    + rewrite list_lookup_insert_ne; [by apply E|].
      rewrite B, S, !mod_wrap by lia. repeat case_if; lia.
    + rewrite <-S, <-B. apply list_lookup_insert_eq. lia.
Qed.

Lemma dequeue_ok q l : queue_ok q l →
  ∃ q', queue_dequeue q = Ret ((spec_op (capacity q) Dequeue l).1, q') ∧
        queue_ok q' (spec_op (capacity q) Dequeue l).2 ∧ capacity q' = capacity q.
Proof.
  intros Hq. pose proof Hq as [D C S F [Fr Fr'] B E].
  unfold queue_dequeue, queue_empty. rewrite S. destruct l as [|x l]; cbn [spec_op fst snd].
  { by exists q. }
  cbn in S. assert (0 < capacity q) as Hc by lia. specialize (B Hc). specialize (Fr' Hc).
  change (Z.of_nat (length (x :: l)) =? 0) with false. cbn [Z.eqb length].
  pose proof (E 0%nat x eq_refl) as E0. rewrite Z.add_0_r, Z.mod_small in E0 by lia.
  unfold arr_get. case_if; [lia|]. rewrite E0. cbn. unfold umod. case_if; [lia|]. cbn.
  eexists. split; [done|]. split; [|done].
  rewrite !u32_small by lia. split; cbn; try done.
  - lia.
  - lia.
  - split; [by apply Z.mod_pos_bound|]. intros _. by apply Z.mod_pos_bound.
  - intros _. rewrite B, Zplus_mod_idemp_l. f_equal. lia.
  - intros i y Hi. rewrite Zplus_mod_idemp_l. specialize (E (Datatypes.S i) y Hi).
    replace (front q + 1 + Z.of_nat i) with (front q + Z.of_nat (Datatypes.S i)) by lia. done.
Qed.

Lemma run_op_ok o q l : queue_ok q l →
  ∃ q', run_op o q = Ret ((spec_op (capacity q) o l).1, q') ∧
        queue_ok q' (spec_op (capacity q) o l).2 ∧ capacity q' = capacity q.
Proof.
  intros Hq. destruct o; cbn [run_op].
  - by apply enqueue_ok.
  - by apply dequeue_ok.
  - exists q. unfold queue_empty. by rewrite (qo_size _ _ Hq).
  - exists q. unfold queue_full. by rewrite (qo_size _ _ Hq).
  - exists q. cbn. by rewrite (qo_size _ _ Hq).
Qed.

Lemma run_ops_ok os : ∀ q l, queue_ok q l →
  ∃ q', run_ops os q = Ret ((spec_ops (capacity q) os l).1, q') ∧
        queue_ok q' (spec_ops (capacity q) os l).2.
Proof.
  induction os as [|o os IH]; intros q l Hq; cbn [run_ops spec_ops].
  { by exists q. }
  destruct (run_op_ok o q l Hq) as (q1 & -> & Hq1 & Hc). cbn [mbind outcome_bind].
  destruct (spec_op (capacity q) o l) as [r l1]. cbn [fst snd] in *.
  destruct (IH q1 l1 Hq1) as (q2 & -> & Hq2). cbn [mbind outcome_bind]. rewrite Hc in *.
  destruct (spec_ops (capacity q) os l1) as [rs l2]. cbn in *. by exists q2.
Qed.

(** C38. Any sequence of calls on a queue just created with capacity [cap]
    never goes out of its array and returns exactly what a bounded FIFO queue
    returns: elements come out in the order they went in, an enqueue fails
    (with -1) exactly when [cap] elements are held, a dequeue fails exactly
    when none is, and the size, empty and full queries are right. *)
Theorem queue_refines_fifo (mem : list Z) (cap : Z) (os : list op) :
  Z.of_nat (length mem) = cap → cap < 2 ^ 32 →
  ∃ q q', create_queue true mem cap = Ret q ∧
          run_ops os q = Ret ((spec_ops cap os []).1, q') ∧
          queue_ok q' (spec_ops cap os []).2.
Proof.
  intros Hm Hc. eexists. destruct (run_ops_ok os (MkQueue 0 0 0 cap mem) []) as (q' & E & Hq).
  - split; cbn; try done; lia.
  - exists q'. done.
Qed.

Lemma queue_refines_fifo_witness :
  ∃ q q', create_queue true [0; 0] 2 = Ret q ∧
    run_ops [Enqueue 7; Enqueue 8; Enqueue 9; Dequeue; Enqueue 5; Dequeue; Size] q =
      Ret ([0; 0; -1; 7; 0; 8; 1], q') ∧ queue_ok q' [5].
Proof.
  exact (queue_refines_fifo [0; 0] 2
    [Enqueue 7; Enqueue 8; Enqueue 9; Dequeue; Enqueue 5; Dequeue; Size] eq_refl eq_refl).
Defined.

End Queue.

Module LinkedList.

(** A node of the array [malloc] returned; [next] is an index, NULL is
    [None]. *)
Record node := Node { myData : Z; next : option Z }.

(** The population loop of [createAndPrintLL]: [rnd i] is the [i]-th value of
    [rand() % 100]; [mem] the uninitialised nodes; [current] walks the array. *)
Fixpoint populate (rnd : Z → Z) (specifiedSize : Z) (mem : list node) (current i : Z) (cnt : nat)
    : outcome (list node * Z) :=
  match cnt with
  | O => Ret (mem, current)
  | S cnt =>
      nd ← arr_get mem current;
      mem ← arr_set mem current (Node (rnd i) (next nd));
      if i <? specifiedSize - 1 then
        nd ← arr_get mem current;
        mem ← arr_set mem current (Node (myData nd) (Some (i + 1)));
        populate rnd specifiedSize mem (i + 1) (i + 1) cnt
      else populate rnd specifiedSize mem current (i + 1) cnt
  end.

Definition createLL (rnd : Z → Z) (specifiedSize : Z) (mem : list node) : outcome (list node) :=
  '(mem, current) ← populate rnd specifiedSize mem 0 0 (Z.to_nat specifiedSize);
  nd ← arr_get mem current;
  arr_set mem current (Node (myData nd) None).

(** The printing loop: the values printed, in order. *)
Fixpoint printLL (mem : list node) (iterator : option Z) (fuel : nat) : outcome (list Z) :=
  match iterator with
  | None => Ret []
  | Some p =>
      match fuel with
      | O => NoFuel
      | S fuel =>
          nd ← arr_get mem p;
          l ← printLL mem (next nd) fuel;
          Ret (myData nd :: l)
      end
  end.

Fixpoint findLength_loop (mem : list node) (iterator : option Z) (count : Z) (fuel : nat)
    : outcome Z :=
  match iterator with
  | None => Ret count
  | Some p =>
      match fuel with
      | O => NoFuel
      | S fuel => nd ← arr_get mem p; findLength_loop mem (next nd) (count + 1) fuel
      end
  end.
Definition findLength (fuel : nat) (mem : list node) (ll : option Z) : outcome Z :=
  findLength_loop mem ll 0 fuel.

(** Nodes [0 .. k-1] are linked in order and hold the first [k] values. *)
Definition linked (rnd : Z → Z) (mem : list node) (k : nat) : Prop :=
  ∀ j, (j < k)%nat → mem !! j = Some (Node (rnd (Z.of_nat j)) (Some (Z.of_nat j + 1))).

Lemma populate_spec rnd n cnt : ∀ mem i,
  (i + S cnt = n)%nat → length mem = n → linked rnd mem i →
  ∃ mem' nx, populate rnd (Z.of_nat n) mem (Z.of_nat i) (Z.of_nat i) (S cnt) =
            Ret (mem', Z.of_nat (n - 1)) ∧
          length mem' = n ∧ linked rnd mem' (n - 1) ∧
          mem' !! (n - 1)%nat = Some (Node (rnd (Z.of_nat (n - 1))) nx).
Proof.
  induction cnt as [|cnt IH]; intros mem i Hi Hlen Hl; cbn [populate];
    rewrite arr_get_nat;
    (destruct (lookup_lt_is_Some_2 mem i) as [nd Hnd]; [lia|]); rewrite Hnd; cbn [opt mbind outcome_bind];
    rewrite arr_set_in by lia; cbn [mbind outcome_bind]; rewrite Nat2Z.id.
  - case_if; [lia|]. replace (n - 1)%nat with i by lia.
    eexists _, _. split; [done|]. rewrite length_insert, list_lookup_insert_eq by lia.
    split_and!; try done. intros j Hj. rewrite list_lookup_insert_ne by lia. by apply Hl.
  - case_if; [|lia]. rewrite arr_get_nat, list_lookup_insert_eq by lia. cbn [opt mbind outcome_bind].
    rewrite arr_set_in by (rewrite length_insert; lia). cbn [mbind outcome_bind].
    rewrite Nat2Z.id. replace (Z.of_nat i + 1) with (Z.of_nat (S i)) by lia.
    apply IH; [lia|by rewrite !length_insert|].
    rewrite list_insert_insert_eq. intros j Hj. cbn [myData].
    destruct (decide (j = i)) as [->|].
    + rewrite list_lookup_insert_eq by lia. do 3 f_equal. lia.
    + rewrite list_lookup_insert_ne by lia. apply Hl. lia.
Qed.

(** The list as a chain from index [i] to the end. *)
Lemma chain_print rnd mem n : (0 < n)%nat → linked rnd mem (n - 1) →
  mem !! (n - 1)%nat = Some (Node (rnd (Z.of_nat (n - 1))) None) →
  ∀ k i fuel, (i + S k = n)%nat → (k < fuel)%nat →
    printLL mem (Some (Z.of_nat i)) fuel = Ret ((λ j, rnd (Z.of_nat j)) <$> seq i (S k)) ∧
    ∀ c, findLength_loop mem (Some (Z.of_nat i)) c fuel = Ret (c + Z.of_nat (S k)).
Proof.
  intros Hn Hl Hlast. induction k as [|k IH]; intros i [|fuel] Hi Hf; try lia;
    cbn [printLL findLength_loop]; rewrite arr_get_nat.
  - replace i with (n - 1)%nat by lia. rewrite Hlast. cbn. destruct fuel; done.
  - rewrite (Hl i) by lia. cbn [opt mbind outcome_bind next].
    replace (Z.of_nat i + 1) with (Z.of_nat (S i)) by lia.
    destruct (IH (S i) fuel) as [-> Hc]; [lia..|]. split; [done|].
    intros c. rewrite Hc. f_equal. lia.
Qed.

(** For every positive size, building the list never leaves the
    allocated array, the list then prints the random values in the order they
    were drawn, and [findLength] returns the requested size. *)
Theorem linkedlist_correct (rnd : Z → Z) (mem : list node) (n : nat) :
  (0 < n)%nat → length mem = n →
  ∃ mem', createLL rnd (Z.of_nat n) mem = Ret mem' ∧
    printLL mem' (Some 0) n = Ret ((λ j, rnd (Z.of_nat j)) <$> seq 0 n) ∧
    findLength n mem' (Some 0) = Ret (Z.of_nat n).
Proof.
  intros Hn Hlen. destruct n as [|k]; [lia|].
  destruct (populate_spec rnd (S k) k mem 0) as (m1 & nx & E & Hl1 & Hlk & Hlast);
    [lia|done|intros j Hj; lia|].
  unfold createLL. rewrite Nat2Z.id. change 0 with (Z.of_nat 0) at 1 2. rewrite E.
  cbn [mbind outcome_bind]. rewrite arr_get_nat, Hlast. cbn [opt mbind outcome_bind].
  rewrite arr_set_in, Nat2Z.id by lia. eexists. split; [done|].
  destruct (chain_print rnd (<[(S k - 1)%nat := Node (rnd (Z.of_nat (S k - 1))) None]> m1) (S k) Hn)
    with (k := k) (i := 0%nat) (fuel := S k) as [H1 H2]; [..|lia|lia|].
  - intros j Hj. rewrite list_lookup_insert_ne by lia. by apply Hlk.
  - by rewrite list_lookup_insert_eq by lia.
  - split; [exact H1|]. unfold findLength. rewrite <-(Z.add_0_l (Z.of_nat (S k))). apply H2.
Qed.

Lemma linkedlist_correct_witness :
  ∃ mem', createLL (λ i, 10 * i) 3 (replicate 3 (Node 0 None)) = Ret mem' ∧
    printLL mem' (Some 0) 3 = Ret [0; 10; 20] ∧ findLength 3 mem' (Some 0) = Ret 3.
Proof.
  exact (linkedlist_correct (λ i, 10 * i) (replicate 3 (Node 0 None)) 3 (Nat.lt_0_succ 2) eq_refl).
Defined.

End LinkedList.
