(* ===== verification/Sorts.v ===== *)
(** * Bubble sort and insertion sort (Assignment3 [bubblesort.c],
    [insertionsort.c])

    Arrays of [int] as lists; every access goes through [arr_get]/[arr_set],
    so a theorem that a sort returns also says it stays in its array. *)

From stdpp Require Import base numbers list sorting sets.
From S2P Require Import Prelude.

Open Scope Z_scope.

Module Bubble.

(** [swap(array + a, array + b)]. *)
Definition swap (arr : list Z) (a b : Z) : outcome (list Z) :=
  t ← arr_get arr a;
  y ← arr_get arr b;
  arr ← arr_set arr a y;
  arr_set arr b t.

(** [for (j = 0; j < size-i-1; j++)], with [cnt] iterations left. *)
Fixpoint inner (arr : list Z) (j : Z) (cnt : nat) : outcome (list Z) :=
  match cnt with
  | O => Ret arr
  | S cnt =>
      x ← arr_get arr j;
      y ← arr_get arr (j + 1);
      if y <? x then
        arr ← swap arr j (j + 1);
        inner arr (j + 1) cnt
      else inner arr (j + 1) cnt
  end.

Fixpoint outer (arr : list Z) (size i : Z) (cnt : nat) : outcome (list Z) :=
  match cnt with
  | O => Ret arr
  | S cnt =>
      arr ← inner arr 0 (Z.to_nat (size - i - 1));
      outer arr size (i + 1) cnt
  end.

Definition sort (arr : list Z) (size : Z) : outcome (list Z) :=
  outer arr size 0 (Z.to_nat (size - 1)).
End Bubble.

Module Insertion.

(** [while(i > -1 && array[i] > key)]: recursion on [i + 1]; returns the array
    and the final [i]. *)
Fixpoint shift (arr : list Z) (key : Z) (i1 : nat) : outcome (list Z * Z) :=
  match i1 with
  | O => Ret (arr, -1)
  | S i =>
      a ← arr_get arr (Z.of_nat i);
      if key <? a then
        a ← arr_get arr (Z.of_nat i);
        arr ← arr_set arr (Z.of_nat i + 1) a;
        shift arr key i
      else Ret (arr, Z.of_nat i)
  end.

(** The body of the outer loop. *)
Definition step (arr : list Z) (j : Z) : outcome (list Z) :=
  key ← arr_get arr j;
  '(arr, i) ← shift arr key (Z.to_nat j);
  arr_set arr (i + 1) key.

Fixpoint outer (arr : list Z) (j : Z) (cnt : nat) : outcome (list Z) :=
  match cnt with
  | O => Ret arr
  | S cnt => arr ← step arr j; outer arr (j + 1) cnt
  end.

Definition sort (arr : list Z) (size : Z) : outcome (list Z) :=
  outer arr 1 (Z.to_nat (size - 1)).
End Insertion.

(** ** Sorted lists *)
Abbreviation sorted := (StronglySorted Z.le).

Lemma sorted_app l1 l2 :
  sorted (l1 ++ l2) ↔ sorted l1 ∧ sorted l2 ∧ ∀ x y, x ∈ l1 → y ∈ l2 → x ≤ y.
Proof.
  induction l1 as [|a l1 IH]; cbn.
  - split; [|naive_solver]. intros H. split_and!; [constructor|done|].
    intros x y Hx. by apply not_elem_of_nil in Hx.
  - split.
    + intros [H1 H2]%StronglySorted_inv. apply IH in H1 as (S1 & S2 & S3).
      rewrite Forall_app, !Forall_forall in H2. destruct H2 as [F1 F2].
      split_and!; [by constructor; [|apply Forall_forall]|done|].
      intros x y [->|Hx]%elem_of_cons Hy; auto.
    + intros ([S1 F1]%StronglySorted_inv & S2 & S3). constructor.
      * apply IH. split_and!; [done..|]. intros x y Hx. apply S3. by right.
      * apply Forall_app. split; [done|]. apply Forall_forall. intros y Hy. apply S3; [left|done].
Qed.

Lemma sorted_singleton x : sorted [x].
Proof. repeat constructor. Qed.

Lemma arr_get_app {A} (l1 : list A) x l2 :
  arr_get (l1 ++ x :: l2) (Z.of_nat (length l1)) = Ret x.
Proof. by rewrite arr_get_nat, list_lookup_middle. Qed.

Lemma arr_set_app {A} (l1 : list A) x y l2 :
  arr_set (l1 ++ x :: l2) (Z.of_nat (length l1)) y = Ret (l1 ++ y :: l2).
Proof.
  rewrite arr_set_in by (rewrite length_app; cbn; lia).
  rewrite Nat2Z.id, insert_app_r_alt, Nat.sub_diag by lia. done.
Qed.

(** ** Bubble sort *)
Module BubbleProofs.
Import Bubble.

(** One pass of the inner loop over [x :: l]: the rest, and the maximum. *)
Fixpoint pass (x : Z) (l : list Z) : list Z * Z :=
  match l with
  | [] => ([], x)
  | y :: l =>
      if y <? x then let '(r, m) := pass x l in (y :: r, m)
      else let '(r, m) := pass y l in (x :: r, m)
  end.

Lemma pass_spec l : ∀ x,
  (pass x l).1 ++ [(pass x l).2] ≡ₚ x :: l ∧
  (∀ y, y ∈ x :: l → y ≤ (pass x l).2) ∧ length (pass x l).1 = length l.
Proof.
  induction l as [|y l IH]; intros x; cbn.
  { split_and!; [done| |done]. intros y Hy%list_elem_of_singleton. lia. }
  case_if; [destruct (IH x) as (P & M & L)|destruct (IH y) as (P & M & L)];
    (destruct (pass _ l) as [r m]); cbn in *.
  - rewrite P. split_and!; [by rewrite Permutation_swap| |lia].
    intros z Hz. assert (z = y ∨ z ∈ x :: l) as [->|Hz'] by set_solver; [|auto].
    assert (x ≤ m) by (apply M; left). lia.
  - rewrite P. split_and!; [done| |lia].
    intros z Hz. assert (z = x ∨ z ∈ y :: l) as [->|Hz'] by set_solver; [|auto].
    assert (y ≤ m) by (apply M; left). lia.
Qed.

Lemma inner_spec l : ∀ pre x suf,
  inner (pre ++ x :: l ++ suf) (Z.of_nat (length pre)) (length l) =
    Ret (pre ++ ((pass x l).1 ++ [(pass x l).2]) ++ suf).
Proof.
  induction l as [|y l IH]; intros pre x suf; cbn [inner length]; [done|].
  rewrite arr_get_app. cbn [mbind outcome_bind].
  assert (Z.of_nat (length pre) + 1 = Z.of_nat (length (pre ++ [x]))) as E1
    by (rewrite length_app; cbn; lia).
  assert (Z.of_nat (length pre) + 1 = Z.of_nat (length (pre ++ [y]))) as E2
    by (rewrite length_app; cbn; lia).
  assert (∀ z w, pre ++ z :: (w :: l) ++ suf = (pre ++ [z]) ++ w :: l ++ suf) as Ea
    by (intros; by rewrite <-app_assoc).
  rewrite Ea, E1, arr_get_app. cbn [mbind outcome_bind pass]. case_if.
  - unfold swap. rewrite <-Ea, arr_get_app. cbn [mbind outcome_bind].
    rewrite Ea, arr_get_app. cbn [mbind outcome_bind].
    rewrite <-Ea, arr_set_app. cbn [mbind outcome_bind]. rewrite Ea.
    rewrite <-E1, E2, arr_set_app. cbn [mbind outcome_bind]. rewrite IH.
    destruct (pass x l) as [r m]. cbn. by rewrite <-!app_assoc.
  - rewrite IH. destruct (pass y l) as [r m]. cbn. by rewrite <-!app_assoc.
Qed.

Lemma bubble_outer_spec cnt : ∀ u s i size,
  length u = S cnt → size = Z.of_nat (length (u ++ s)) → i = Z.of_nat (length s) →
  sorted s → (∀ x y, x ∈ u → y ∈ s → x ≤ y) →
  ∃ arr', outer (u ++ s) size i cnt = Ret arr' ∧ sorted arr' ∧ arr' ≡ₚ u ++ s.
Proof.
  induction cnt as [|cnt IH]; intros u s i size Hu -> -> Hs Hle.
  - destruct u as [|x [|? ?]]; try done. eexists. split; [done|]. split; [|done].
    apply sorted_app. split_and!; [apply sorted_singleton|done|done].
  - destruct u as [|x l]; [done|]. cbn in Hu. injection Hu as Hl. cbn [outer].
    replace (Z.to_nat (_ - _ - 1)) with (length l) by (rewrite length_app; cbn; lia).
    assert (inner ((x :: l) ++ s) 0 (length l) = Ret (((pass x l).1 ++ [(pass x l).2]) ++ s)) as ->
      by exact (inner_spec l [] x s).
    cbn [mbind outcome_bind].
    destruct (pass_spec l x) as (P & Mx & L).
    destruct (pass x l) as [r m]. cbn [fst snd] in *. rewrite <-app_assoc. cbn [app].
    destruct (IH r (m :: s) (Z.of_nat (length s) + 1) (Z.of_nat (length ((x :: l) ++ s))))
      as (arr' & E & Hs' & Hp).
    + lia.
    + rewrite !length_app. cbn. lia.
    + cbn. lia.
    + constructor; [done|]. apply Forall_forall. intros y Hy. apply Hle; [|done].
      rewrite <-P. set_solver.
    + intros y z Hy Hz. assert (y ∈ x :: l) as Hy' by (rewrite <-P; set_solver).
      apply elem_of_cons in Hz as [->|Hz]; auto.
    + exists arr'. split_and!; [done..|]. rewrite Hp.
      transitivity ((r ++ [m]) ++ s); [by rewrite <-app_assoc|by rewrite P].
Qed.

(** Bubble sort of a whole array returns, without leaving the array, a
    sorted permutation of it. *)
Theorem bubble_sort_correct (arr : list Z) :
  ∃ arr', sort arr (Z.of_nat (length arr)) = Ret arr' ∧ sorted arr' ∧ arr' ≡ₚ arr.
Proof.
  destruct arr as [|x l]; [by exists []; split_and!; [|constructor|]|].
  destruct (bubble_outer_spec (length l) (x :: l) [] 0 (Z.of_nat (length (x :: l))))
    as (arr' & E & Hs & Hp).
  - done.
  - by rewrite app_nil_r.
  - done.
  - constructor.
  - intros y z _ Hz. by apply not_elem_of_nil in Hz.
  - rewrite app_nil_r in *. exists arr'. split_and!; [|done..].
    unfold sort. rewrite <-E. f_equal. cbn. lia.
Qed.
End BubbleProofs.

(** ** Insertion sort *)
Module InsertionProofs.
Import Insertion.

(** Shifting and then storing the key, over a sorted prefix [p] followed by
    one free position. *)
Lemma shift_spec key p : ∀ hole r, sorted p →
  ∃ q, ('(arr, i) ← shift (p ++ hole :: r) key (length p); arr_set arr (i + 1) key) =
         Ret (q ++ r) ∧ q ≡ₚ key :: p ∧ sorted q.
Proof.
  induction p as [|a p IH] using rev_ind; intros hole r Hp.
  { exists [key]. split_and!; [done|done|apply sorted_singleton]. }
  rewrite length_app, Nat.add_1_r, <-app_assoc. cbn [shift app length].
  rewrite arr_get_app. cbn [mbind outcome_bind].
  assert (Z.of_nat (length p) + 1 = Z.of_nat (length (p ++ [a]))) as E1
    by (rewrite length_app; cbn; lia).
  apply sorted_app in Hp as (Hp & _ & Hpa). case_if.
  - cbn [mbind outcome_bind].
    change (p ++ a :: hole :: r) with (p ++ [a] ++ hole :: r). rewrite app_assoc, E1, arr_set_app.
    cbn [mbind outcome_bind]. rewrite <-app_assoc. cbn [app].
    destruct (IH a (a :: r) Hp) as (q & E & Hq & Hs).
    exists (q ++ [a]). rewrite E, <-app_assoc. split_and!; [done| |].
    + by rewrite Hq.
    + apply sorted_app. split_and!; [done|apply sorted_singleton|].
      intros x y Hx ->%list_elem_of_singleton. rewrite Hq in Hx.
      apply elem_of_cons in Hx as [->|Hx]; [lia|]. apply Hpa; [done|left].
  - cbn [mbind outcome_bind].
    change (p ++ a :: hole :: r) with (p ++ [a] ++ hole :: r). rewrite app_assoc, E1, arr_set_app.
    exists (p ++ [a; key]). rewrite <-!app_assoc. split_and!; [done| |].
    + solve_Permutation.
    + apply sorted_app. split_and!; [done| |].
      * repeat constructor. lia.
      * intros x y Hx Hy. assert (x ≤ a) by (apply Hpa; [done|left]).
        assert (y = a ∨ y = key) as [->| ->] by set_solver; lia.
Qed.

Lemma insertion_outer_spec cnt : ∀ p r,
  p ≠ [] → length r = cnt → sorted p →
  ∃ arr', outer (p ++ r) (Z.of_nat (length p)) cnt = Ret arr' ∧ sorted arr' ∧ arr' ≡ₚ p ++ r.
Proof.
  induction cnt as [|cnt IH]; intros p r Hne Hr Hp.
  - destruct r; [|done]. rewrite app_nil_r. by exists p.
  - destruct r as [|key r]; [done|]. cbn in Hr. injection Hr as Hr. cbn [outer]. unfold step.
    rewrite arr_get_app. cbn [mbind outcome_bind]. rewrite Nat2Z.id.
    destruct (shift_spec key p key r Hp) as (q & E & Hq & Hs).
    rewrite E. cbn [mbind outcome_bind].
    assert (length q = S (length p)) as Hlq by (by rewrite Hq).
    destruct (IH q r) as (arr' & E' & Hs' & Hp'); [by destruct q|done|done|].
    replace (Z.of_nat (length p) + 1) with (Z.of_nat (length q)) by lia.
    exists arr'. split_and!; [done..|]. rewrite Hp', Hq. solve_Permutation.
Qed.

(** Insertion sort of a whole array returns, without leaving the array,
    a sorted permutation of it. *)
Theorem insertion_sort_correct (arr : list Z) :
  ∃ arr', sort arr (Z.of_nat (length arr)) = Ret arr' ∧ sorted arr' ∧ arr' ≡ₚ arr.
Proof.
  destruct arr as [|x l]; [by exists []; split_and!; [|constructor|]|].
  destruct (insertion_outer_spec (length l) [x] l) as (arr' & E & Hs & Hp);
    [done|done|apply sorted_singleton|].
  exists arr'. split_and!; [|done..]. unfold sort. rewrite <-E. f_equal. cbn. lia.
Qed.
End InsertionProofs.

(** The array of the two programs' [main]. *)
Example sorts_main :
  Bubble.sort [116; 67; 69; 102; 101; 102; 111; 114; 65] 9 =
    Ret [65; 67; 69; 101; 102; 102; 111; 114; 116] ∧
  Insertion.sort [116; 67; 69; 102; 101; 102; 111; 114; 65] 9 =
    Ret [65; 67; 69; 101; 102; 102; 111; 114; 116].
Proof. split; reflexivity. Qed.
