(* ===== verification/Binary.v ===== *)
(** * Binary strings of the cache simulators ([binary.h])

    A C string is the list of its characters, without the terminating NUL;
    [char_at] reads the NUL at its end and nothing beyond it. *)

From stdpp Require Import base numbers list strings.
From S2P Require Import Prelude.

Open Scope Z_scope.

Abbreviation cstring := (list Z).

Definition char_0 : Z := 48.
Definition char_1 : Z := 49.

Definition char_at (s : cstring) (i : Z) : outcome Z :=
  if i =? Z.of_nat (length s) then Ret 0 else arr_get s i.

(** [sum + pow(2, e)] stored to an [int]: for [e = -1] the fraction is cut. *)
Definition add_pow2 (sum e : Z) : Z := if e <? 0 then sum else sum + 2 ^ e.

(** [for(int i = size-1; i > -1; --i)]: recursion on [i + 1]. *)
Fixpoint binaryStringToInt_loop (bin : cstring) (size sum : Z) (i1 : nat) : outcome Z :=
  match i1 with
  | O => Ret sum
  | S i =>
      c ← char_at bin (Z.of_nat i);
      let sum := if c =? char_1 then add_pow2 sum (size - 1 - Z.of_nat i - 1) else sum in
      binaryStringToInt_loop bin size sum i
  end.
Definition binaryStringToInt (bin : cstring) (size : Z) : outcome Z :=
  binaryStringToInt_loop bin size 0 (Z.to_nat size).

(** [for(int i = size-start-1; counter < stop-start+1; i--)]. *)
Fixpoint rangeToInt_loop (bin : cstring) (i counter sum : Z) (cnt : nat) : outcome Z :=
  match cnt with
  | O => Ret sum
  | S cnt =>
      c ← char_at bin i;
      let sum := if c =? char_1 then sum + 2 ^ counter else sum in
      rangeToInt_loop bin (i - 1) (counter + 1) sum cnt
  end.
Definition binaryStringRangeToInt (bin : cstring) (start stop : Z) : outcome Z :=
  rangeToInt_loop bin (Z.of_nat (length bin) - start - 1) 0 0 (Z.to_nat (stop - start + 1)).

(** The division loop: [binary[pos]] for ever higher bits. *)
Fixpoint intToBinary_loop (binary : cstring) (value pos : Z) (fuel : nat) : outcome cstring :=
  if 0 <? value then
    match fuel with
    | O => NoFuel
    | S fuel =>
        binary ← arr_set binary pos (if Z.rem value 2 =? 0 then char_0 else char_1);
        intToBinary_loop binary (Z.quot value 2) (pos - 1) fuel
    end
  else Ret binary.
(** An [int] value halves to zero in at most 31 rounds. *)
Definition intToBinaryString (i bits : Z) : outcome cstring :=
  intToBinary_loop (replicate (Z.to_nat bits) char_0) i (bits - 1) 31.

(** ** Specification *)

(** A string of binary digits. *)
Definition binary (s : cstring) : Prop := Forall (λ c, c = char_0 ∨ c = char_1) s.

Definition bit (c : Z) : Z := if c =? char_1 then 1 else 0.

(** Value of a list of digits, least significant first. *)
Fixpoint le_val (l : list Z) : Z :=
  match l with [] => 0 | c :: l => bit c + 2 * le_val l end.

(** Value of a string: its last character is the least significant. *)
Definition value_of (s : cstring) : Z := le_val (reverse s).

(** The [n]-digit representation of [v]. *)
Fixpoint digits (n : nat) (v : Z) : cstring :=
  match n with
  | O => []
  | S n => digits n (v / 2) ++ [if v mod 2 =? 0 then char_0 else char_1]
  end.

Lemma bit_range c : 0 ≤ bit c ≤ 1.
Proof. unfold bit. case_if; lia. Qed.

Lemma le_val_range l : 0 ≤ le_val l < 2 ^ Z.of_nat (length l).
Proof.
  induction l as [|c l IH]; [done|]. cbn [le_val length]. pose proof (bit_range c).
  rewrite Nat2Z.inj_succ, Z.pow_succ_r by lia. lia.
Qed.

Lemma le_val_drop n : ∀ l, le_val (drop n l) = le_val l / 2 ^ Z.of_nat n.
Proof.
  induction n as [|n IH]; intros l; [by rewrite drop_0, Z.div_1_r|].
  destruct l as [|c l]; [by rewrite drop_nil, Z.div_0_l by (apply Z.pow_nonzero; lia)|].
  cbn [drop le_val]. rewrite IH, Nat2Z.inj_succ, Z.pow_succ_r, <-Z.div_div by lia.
  f_equal. pose proof (bit_range c). rewrite Z.add_comm, Z.mul_comm, Z.div_add_l by lia.
  rewrite (Z.div_small (bit c)); lia.
Qed.

Lemma le_val_take n : ∀ l, le_val (take n l) = le_val l mod 2 ^ Z.of_nat n.
Proof.
  induction n as [|n IH]; intros l; [by rewrite take_0, Z.mod_1_r|].
  destruct l as [|c l]; [by rewrite take_nil, Z.mod_0_l by (apply Z.pow_nonzero; lia)|].
  cbn [take le_val]. rewrite IH, Nat2Z.inj_succ, Z.pow_succ_r by lia.
  rewrite Z.rem_mul_r by lia. pose proof (bit_range c).
  replace ((bit c + 2 * le_val l) mod 2) with (bit c).
  2:{ rewrite Z.add_comm, Z.mul_comm, Z.add_comm, Z.mod_add, Z.mod_small; lia. }
  do 2 f_equal. rewrite Z.add_comm, Z.mul_comm, Z.div_add_l, (Z.div_small (bit c)) by lia.
  f_equal. lia.
Qed.

Lemma reverse_char s k c : reverse s !! k = Some c →
  char_at s (Z.of_nat (length s) - Z.of_nat k - 1) = Ret c.
Proof.
  intros Hk. pose proof (lookup_lt_Some _ _ _ Hk) as Hlt. rewrite length_reverse in Hlt.
  rewrite reverse_lookup in Hk by done. unfold char_at. case_if; [lia|].
  apply arr_get_Ret. split; [lia|]. rewrite <-Hk. f_equal. lia.
Qed.

Lemma rangeToInt_loop_spec s cnt : ∀ k c sum,
  (k + cnt ≤ length s)%nat →
  rangeToInt_loop s (Z.of_nat (length s) - Z.of_nat k - 1) (Z.of_nat c) sum cnt =
    Ret (sum + 2 ^ Z.of_nat c * le_val (take cnt (drop k (reverse s)))).
Proof.
  induction cnt as [|cnt IH]; intros k c sum Hk; cbn [rangeToInt_loop].
  { rewrite take_0. cbn. f_equal. lia. }
  destruct (lookup_lt_is_Some_2 (reverse s) k) as [x Hx]; [rewrite length_reverse; lia|].
  rewrite (reverse_char _ _ _ Hx). cbn [mbind outcome_bind].
  replace (Z.of_nat (length s) - Z.of_nat k - 1 - 1)
    with (Z.of_nat (length s) - Z.of_nat (S k) - 1) by lia.
  replace (Z.of_nat c + 1) with (Z.of_nat (S c)) by lia.
  rewrite IH by lia. rewrite (drop_S _ x k Hx). cbn [take le_val]. f_equal.
  rewrite Nat2Z.inj_succ, Z.pow_succ_r by lia. unfold bit. case_if; lia.
Qed.

(** Field extraction in terms of the value of the string. *)
Lemma binaryStringRangeToInt_spec s start stop :
  0 ≤ start ≤ stop → stop < Z.of_nat (length s) →
  binaryStringRangeToInt s start stop =
    Ret (value_of s / 2 ^ start mod 2 ^ (stop - start + 1)).
Proof.
  intros Hs Hl. unfold binaryStringRangeToInt, value_of.
  pose proof (rangeToInt_loop_spec s (Z.to_nat (stop - start + 1)) (Z.to_nat start) 0 0) as H.
  rewrite Z2Nat.id in H by lia. change (Z.of_nat 0) with 0 in H. rewrite H by lia.
  rewrite le_val_take, le_val_drop, !Z2Nat.id by lia. f_equal. lia.
Qed.

Lemma digits_length n : ∀ v, length (digits n v) = n.
Proof. induction n as [|n IH]; intros v; [done|]. cbn. rewrite length_app, IH. cbn. lia. Qed.

Lemma digits_binary n : ∀ v, binary (digits n v).
Proof.
  induction n as [|n IH]; intros v; [constructor|]. cbn. apply Forall_app. split; [apply IH|].
  constructor; [|constructor]. case_if; auto.
Qed.

Lemma digits_0 n : digits n 0 = replicate n char_0.
Proof.
  induction n as [|n IH]; [done|]. cbn [digits]. rewrite Z.div_0_l, IH by lia.
  by rewrite <-replicate_cons_app.
Qed.

Lemma digits_value n : ∀ v, 0 ≤ v < 2 ^ Z.of_nat n → value_of (digits n v) = v.
Proof.
  unfold value_of. induction n as [|n IH]; intros v Hv; [cbn in *; lia|]. cbn [digits].
  rewrite Nat2Z.inj_succ, Z.pow_succ_r in Hv by lia.
  rewrite reverse_snoc. cbn [le_val]. rewrite IH by (Z.div_mod_to_equations; lia).
  case_if as E; [change (bit char_0) with 0|change (bit char_1) with 1];
    Z.div_mod_to_equations; lia.
Qed.

Lemma intToBinary_loop_spec n : ∀ v suf fuel,
  0 ≤ v < 2 ^ Z.of_nat n → (n ≤ fuel)%nat →
  intToBinary_loop (replicate n char_0 ++ suf) v (Z.of_nat n - 1) fuel = Ret (digits n v ++ suf).
Proof.
  induction n as [|n IH]; intros v suf fuel Hv Hf.
  { cbn in Hv. assert (v = 0) as -> by lia. by destruct fuel. }
  rewrite Nat2Z.inj_succ, Z.pow_succ_r in Hv by lia. destruct fuel as [|fuel]; [lia|].
  cbn [intToBinary_loop]. case_if.
  - rewrite replicate_S_end, <-app_assoc. cbn [app].
    replace (Z.of_nat (S n) - 1) with (Z.of_nat n) by lia.
    rewrite arr_set_in by (rewrite length_app, length_replicate; cbn; lia).
    cbn [mbind outcome_bind].
    rewrite Nat2Z.id, insert_app_r_alt by (rewrite length_replicate; lia).
    rewrite length_replicate, Nat.sub_diag, Z.rem_mod_nonneg, Z.quot_div_nonneg by lia.
    change (<[0%nat := ?x]> (char_0 :: suf)) with (x :: suf).
    rewrite IH by (lia || Z.div_mod_to_equations; lia).
    cbn [digits]. by rewrite <-app_assoc.
  - assert (v = 0) as -> by lia. by rewrite digits_0.
Qed.

Lemma intToBinaryString_spec v (w : nat) :
  (w ≤ 31)%nat → 0 ≤ v < 2 ^ Z.of_nat w →
  intToBinaryString v (Z.of_nat w) = Ret (digits w v).
Proof.
  intros Hw Hv. unfold intToBinaryString. rewrite Nat2Z.id.
  pose proof (intToBinary_loop_spec w v [] 31 Hv Hw) as E. by rewrite !app_nil_r in E.
Qed.

Lemma value_of_snoc l c : value_of (l ++ [c]) = bit c + 2 * value_of l.
Proof. unfold value_of. by rewrite reverse_snoc. Qed.

Lemma toInt_loop_spec s i : ∀ sum, (i ≤ length s)%nat →
  binaryStringToInt_loop s (Z.of_nat (length s) + 1) sum i =
    Ret (sum + 2 ^ Z.of_nat (length s - i) * value_of (take i s)).
Proof.
  induction i as [|i IH]; intros sum Hi; cbn [binaryStringToInt_loop].
  { rewrite take_0. f_equal. unfold value_of. cbn. lia. }
  destruct (lookup_lt_is_Some_2 s i) as [c Hc]; [lia|].
  assert (char_at s (Z.of_nat i) = Ret c) as ->.
  { unfold char_at. case_if; [lia|]. by rewrite arr_get_nat, Hc. }
  cbn [mbind outcome_bind]. rewrite IH by lia. rewrite (take_S_r s i c Hc), value_of_snoc.
  unfold add_pow2. f_equal. replace (length s - i)%nat with (S (length s - S i)) by lia.
  rewrite Nat2Z.inj_succ, Z.pow_succ_r by lia.
  replace (Z.of_nat (length s) + 1 - 1 - Z.of_nat i - 1) with (Z.of_nat (length s - S i)) by lia.
  unfold bit. case_if; [case_if|]; lia.
Qed.

Lemma binaryStringToInt_spec s :
  binaryStringToInt s (Z.of_nat (length s) + 1) = Ret (value_of s).
Proof.
  unfold binaryStringToInt. replace (Z.to_nat _) with (S (length s)) by lia.
  cbn [binaryStringToInt_loop]. unfold char_at. rewrite Z.eqb_refl. cbn [mbind outcome_bind].
  change (0 =? char_1) with false. cbv iota. rewrite toInt_loop_spec, firstn_all by lia.
  rewrite Nat.sub_diag. f_equal. lia.
Qed.

(** C40. Round trip: printing a value that fits in [w] bits (at most 31) and
    reading back any bit field of the string gives that field of the value;
    reading the whole string gives the value. *)
Theorem binary_roundtrip (v : Z) (w : nat) (start stop : Z) :
  (w ≤ 31)%nat → 0 ≤ v < 2 ^ Z.of_nat w → 0 ≤ start ≤ stop → stop < Z.of_nat w →
  ∃ s, intToBinaryString v (Z.of_nat w) = Ret s ∧ length s = w ∧ binary s ∧
       binaryStringRangeToInt s start stop = Ret (v / 2 ^ start mod 2 ^ (stop - start + 1)) ∧
       binaryStringToInt s (Z.of_nat w + 1) = Ret v.
Proof.
  intros Hw Hv Hs Hst. exists (digits w v).
  rewrite intToBinaryString_spec, digits_length by done. split_and!; try done.
  - apply digits_binary.
  - rewrite binaryStringRangeToInt_spec, digits_value by (done || rewrite digits_length; lia).
    done.
  - rewrite <-(digits_length w v) at 2. by rewrite binaryStringToInt_spec, digits_value.
Qed.

Lemma binary_roundtrip_witness :
  ∃ s, intToBinaryString 172 8 = Ret s ∧ length s = 8%nat ∧ binary s ∧
       binaryStringRangeToInt s 2 5 = Ret 11 ∧ binaryStringToInt s 9 = Ret 172.
Proof. apply (binary_roundtrip 172 8 2 5); cbn; lia. Defined.
