(* ===== verification/CacheSim.v ===== *)
(** * The cache simulators (Assignment5 [simulator.c], [simulator_fifo.c],
    [mySimulator.c]; Lab6 [simulator.c])

    All four programs share a score board and a main loop; they differ in the
    cache they keep and in its policy.  [Direct] and [Lab6] are direct-mapped
    caches, [Fifo] a 4-way set-associative cache with FIFO replacement, [Lru]
    the attempt at LRU replacement.  Drawing the cache is output only and is
    not modelled, except the percentage the Lab6 program computes. *)

From stdpp Require Import base numbers list gmap sets strings.
From S2P Require Import Prelude Binary.

Open Scope Z_scope.

(** ** Score keeping *)
Record perf := Perf { cacheHit : Z; cacheMisses : Z; totalLatency : Z }.

Definition costOfCacheHit : Z := 1.
Definition costOfCacheMiss : Z := 100.

Definition incrementCacheMiss (p : perf) : perf :=
  Perf (cacheHit p) (cacheMisses p + 1) (totalLatency p + costOfCacheMiss).
Definition incrementCacheHit (p : perf) : perf :=
  Perf (cacheHit p + 1) (cacheMisses p) (totalLatency p + costOfCacheHit).

Definition perf0 : perf := Perf 0 0 0.

(** ** Strings in fixed-size rows *)

(** [strcpy] into a row of [w + 1] characters. *)
Definition strcpy_row (w : Z) (src : cstring) : outcome cstring :=
  if Z.of_nat (length src) <=? w then Ret src else Undef.
Definition strcmp_eq (a b : cstring) : bool := bool_decide (a = b).

Definition get2 {A} (l : list (list A)) (i j : Z) : outcome A := row ← arr_get l i; arr_get row j.
Definition set2 {A} (l : list (list A)) (i j : Z) (x : A) : outcome (list (list A)) :=
  row ← arr_get l i; row ← arr_set row j x; arr_set l i row.

(** ** The trace and the main loop *)

(** [loadTrace]: what successive [fgets] calls return, each without its last
    character, goes to successive rows. *)
Fixpoint loadTrace (w : Z) (instructionCache : list cstring) (pos : Z) (lines : list cstring)
    : outcome (list cstring) :=
  match lines with
  | [] => Ret instructionCache
  | line :: lines =>
      str ← strcpy_row w (take (length line - 1) line);
      ic ← arr_set instructionCache pos str;
      loadTrace w ic (pos + 1) lines
  end.

Definition char_y : Z := 121.
Definition char_a : Z := 97.

Section main.
Context {S : Type} (pc : S → Z) (checkCache : S → outcome S) (stepSimulator : S → S).
Context (ADDRESSES : Z).

(** [answers] is what [scanf] stores to [run] each time it is asked; when
    the input is exhausted [run] keeps its value. *)
Fixpoint main_loop (run : Z) (answers : list Z) (s : S) (fuel : nat) : outcome S :=
  if ((run =? char_y) || (run =? char_a)) && (pc s <? ADDRESSES) then
    match fuel with
    | O => NoFuel
    | Datatypes.S fuel =>
        s ← checkCache s;
        let s := stepSimulator s in
        if negb (run =? char_a) then
          match answers with
          | [] => main_loop run [] s fuel
          | a :: answers => main_loop a answers s fuel
          end
        else main_loop run answers s fuel
    end
  else Ret s.

(** [k] instructions. *)
Fixpoint steps (k : nat) (s : S) : outcome S :=
  match k with
  | O => Ret s
  | Datatypes.S k => s ← checkCache s; steps k (stepSimulator s)
  end.
End main.

(** ** The direct-mapped cache of Assignment5 [simulator.c] *)
Module Direct.

Definition BITWIDTH : Z := 16.
Definition ADDRESSES : Z := 16384.
Definition E : Z := 4.
Definition S : Z := 4.
Definition cacheLineOffsetStart : Z := 0.
Definition cacheLineOffsetStop : Z := 1.
Definition cacheSetOffsetStart : Z := 2.
Definition cacheSetOffsetStop : Z := 3.

Record sim := Sim {
  instructionCache : list cstring;
  PC : Z;
  cacheSet : list (list cstring);
  cacheOccupied : list (list Z);
  score : perf
}.

Definition ReplacementPolicy (s : sim) : outcome sim :=
  a ← arr_get (instructionCache s) (PC s);
  cacheLineIndex ← binaryStringRangeToInt a cacheLineOffsetStart cacheLineOffsetStop;
  cacheSetIndex ← binaryStringRangeToInt a cacheSetOffsetStart cacheSetOffsetStop;
  occ ← set2 (cacheOccupied s) cacheSetIndex cacheLineIndex 1;
  str ← strcpy_row BITWIDTH a;
  cs ← set2 (cacheSet s) cacheSetIndex cacheLineIndex str;
  Ret (Sim (instructionCache s) (PC s) cs occ (incrementCacheMiss (score s))).

Definition evictionPolicy (s : sim) : outcome sim :=
  a ← arr_get (instructionCache s) (PC s);
  cacheLineIndex ← binaryStringRangeToInt a cacheLineOffsetStart cacheLineOffsetStop;
  cacheSetIndex ← binaryStringRangeToInt a cacheSetOffsetStart cacheSetOffsetStop;
  c ← get2 (cacheSet s) cacheSetIndex cacheLineIndex;
  if strcmp_eq c a then
    Ret (Sim (instructionCache s) (PC s) (cacheSet s) (cacheOccupied s)
           (incrementCacheHit (score s)))
  else
    str ← strcpy_row BITWIDTH a;
    cs ← set2 (cacheSet s) cacheSetIndex cacheLineIndex str;
    Ret (Sim (instructionCache s) (PC s) cs (cacheOccupied s) (incrementCacheMiss (score s))).

Definition checkCache (s : sim) : outcome sim :=
  a ← arr_get (instructionCache s) (PC s);
  cacheLineIndex ← binaryStringRangeToInt a cacheLineOffsetStart cacheLineOffsetStop;
  cacheSetIndex ← binaryStringRangeToInt a cacheSetOffsetStart cacheSetOffsetStop;
  occ ← get2 (cacheOccupied s) cacheSetIndex cacheLineIndex;
  if occ =? 0 then ReplacementPolicy s
  else if occ =? 1 then evictionPolicy s
  else Ret s.

Definition stepSimulator (s : sim) : sim :=
  Sim (instructionCache s) (PC s + 1) (cacheSet s) (cacheOccupied s) (score s).

(** The state the loop starts in, with [n] rows of trace. *)
Definition init (ic : list cstring) : sim :=
  Sim ic 0 (replicate (Z.to_nat S) (replicate (Z.to_nat E) []))
    (replicate (Z.to_nat S) (replicate (Z.to_nat E) 0)) perf0.

Definition main (lines : list cstring) (answers : list Z) : outcome sim :=
  ic ← loadTrace BITWIDTH (replicate (Z.to_nat ADDRESSES) []) 0 lines;
  main_loop PC checkCache stepSimulator ADDRESSES char_y answers (init ic)
    (Z.to_nat ADDRESSES).
End Direct.

(** ** The direct-mapped cache of Lab6 [simulator.c] *)
Module Lab6.

Definition BITWIDTH : Z := 8.
Definition ADDRESSES : Z := 1024.
Definition S : Z := 4.
Definition indexStart : Z := 1.
Definition indexStop : Z := 2.

Record sim := Sim {
  instructionCache : list cstring;
  PC : Z;
  cacheLines : list cstring;
  cacheOccupied : list Z;
  score : perf
}.

Definition ReplacementPolicy (s : sim) : outcome sim :=
  a ← arr_get (instructionCache s) (PC s);
  index ← binaryStringRangeToInt a indexStart indexStop;
  occ ← arr_set (cacheOccupied s) index 1;
  str ← strcpy_row BITWIDTH a;
  cl ← arr_set (cacheLines s) index str;
  Ret (Sim (instructionCache s) (PC s) cl occ (incrementCacheMiss (score s))).

Definition evictionPolicy (s : sim) : outcome sim :=
  a ← arr_get (instructionCache s) (PC s);
  index ← binaryStringRangeToInt a indexStart indexStop;
  c ← arr_get (cacheLines s) index;
  if strcmp_eq c a then
    Ret (Sim (instructionCache s) (PC s) (cacheLines s) (cacheOccupied s)
           (incrementCacheHit (score s)))
  else
    str ← strcpy_row BITWIDTH a;
    cl ← arr_set (cacheLines s) index str;
    Ret (Sim (instructionCache s) (PC s) cl (cacheOccupied s) (incrementCacheMiss (score s))).

Definition checkCache (s : sim) : outcome sim :=
  a ← arr_get (instructionCache s) (PC s);
  index ← binaryStringRangeToInt a indexStart indexStop;
  occ ← arr_get (cacheOccupied s) index;
  if occ =? 0 then ReplacementPolicy s
  else if occ =? 1 then evictionPolicy s
  else Ret s.

Definition stepSimulator (s : sim) : sim :=
  Sim (instructionCache s) (PC s + 1) (cacheLines s) (cacheOccupied s) (score s).

Definition init (ic : list cstring) : sim :=
  Sim ic 0 (replicate (Z.to_nat S) []) (replicate (Z.to_nat S) 0) perf0.

Definition main (lines : list cstring) (answers : list Z) : outcome sim :=
  ic ← loadTrace BITWIDTH (replicate (Z.to_nat ADDRESSES) []) 0 lines;
  main_loop PC checkCache stepSimulator ADDRESSES char_y answers (init ic)
    (Z.to_nat ADDRESSES).

(** The percentage of misses [drawCache] prints, in integer arithmetic. *)
Definition cachePercent (p : perf) : Z :=
  Z.quot (cacheMisses p) (cacheHit p + cacheMisses p) * 100.
End Lab6.

(** ** The FIFO cache of Assignment5 [simulator_fifo.c] *)
Module Fifo.

Definition BITWIDTH : Z := 16.
Definition ADDRESSES : Z := 16384.
Definition E : Z := 4.
Definition S : Z := 4.
Definition cacheSetOffsetStart : Z := 0.
Definition cacheSetOffsetStop : Z := 1.

(** [below] is what the bytes just below [cacheSet] read as a string:
    [shiftArray] reads [cacheSet[set][-1]]. *)
Record sim := Sim {
  instructionCache : list cstring;
  PC : Z;
  below : cstring;
  cacheSet : list (list cstring);
  cacheOccupied : list Z;
  score : perf
}.

(** [cacheSet[set][i]] by address arithmetic: row [-1] of a set is the last
    row of the set before it in memory. *)
Definition cell (s : sim) (set i : Z) : outcome cstring :=
  if i =? -1 then
    if set =? 0 then Ret (below s) else get2 (cacheSet s) (set - 1) (E - 1)
  else get2 (cacheSet s) set i.

Definition set_cell (s : sim) (set i : Z) (src : cstring) : outcome sim :=
  str ← strcpy_row BITWIDTH src;
  cs ← set2 (cacheSet s) set i str;
  Ret (Sim (instructionCache s) (PC s) (below s) cs (cacheOccupied s) (score s)).

Definition miss (s : sim) : sim :=
  Sim (instructionCache s) (PC s) (below s) (cacheSet s) (cacheOccupied s)
    (incrementCacheMiss (score s)).
Definition hit (s : sim) : sim :=
  Sim (instructionCache s) (PC s) (below s) (cacheSet s) (cacheOccupied s)
    (incrementCacheHit (score s)).

Definition incrementCacheOccupied (s : sim) (set : Z) : outcome sim :=
  n ← arr_get (cacheOccupied s) set;
  occ ← arr_set (cacheOccupied s) set (n + 1);
  Ret (Sim (instructionCache s) (PC s) (below s) (cacheSet s) occ (score s)).

Fixpoint getInstructionPos_loop (s : sim) (a : cstring) (set i : Z) (cnt : nat) : outcome Z :=
  match cnt with
  | O => Ret (-1)
  | Datatypes.S cnt =>
      c ← get2 (cacheSet s) set i;
      if strcmp_eq a c then Ret i else getInstructionPos_loop s a set (i + 1) cnt
  end.
Definition getInstructionPos (s : sim) (set : Z) : outcome Z :=
  a ← arr_get (instructionCache s) (PC s);
  getInstructionPos_loop s a set 0 (Z.to_nat E).

(** [for (int i = E-1; i >= 0; i--) strcpy(cacheSet[set][i], cacheSet[set][i-1])]:
    recursion on [i + 1]. *)
Fixpoint shiftArray_loop (s : sim) (set : Z) (i1 : nat) : outcome sim :=
  match i1 with
  | O => Ret s
  | Datatypes.S i =>
      c ← cell s set (Z.of_nat i - 1);
      s ← set_cell s set (Z.of_nat i) c;
      shiftArray_loop s set i
  end.
Definition shiftArray (s : sim) (set : Z) : outcome sim :=
  temp ← cell s set (E - 1);
  strcpy_row BITWIDTH temp ;;
  shiftArray_loop s set (Z.to_nat E).

Definition ReplacementPolicy (s : sim) (set : Z) : outcome sim :=
  a ← arr_get (instructionCache s) (PC s);
  occ ← arr_get (cacheOccupied s) set;
  if occ =? 0 then
    s ← set_cell s set (E - 1) a;
    s ← incrementCacheOccupied s set;
    Ret (miss s)
  else
    pos ← getInstructionPos s set;
    if pos =? -1 then
      occ ← arr_get (cacheOccupied s) set;
      let pos := (E - 1) - occ in
      s ← incrementCacheOccupied s set;
      set_cell (miss s) set pos a
    else Ret (hit s).

Definition evictionPolicy (s : sim) (set : Z) : outcome sim :=
  instructionPos ← getInstructionPos s set;
  if negb (instructionPos =? -1) then Ret (hit s)
  else
    s ← shiftArray s set;
    a ← arr_get (instructionCache s) (PC s);
    s ← set_cell s set 0 a;
    Ret (miss s).

Definition checkCache (s : sim) : outcome sim :=
  a ← arr_get (instructionCache s) (PC s);
  cacheSetIndex ← binaryStringRangeToInt a cacheSetOffsetStart cacheSetOffsetStop;
  occ ← arr_get (cacheOccupied s) cacheSetIndex;
  if negb (occ =? S) then ReplacementPolicy s cacheSetIndex
  else evictionPolicy s cacheSetIndex.

Definition stepSimulator (s : sim) : sim :=
  Sim (instructionCache s) (PC s + 1) (below s) (cacheSet s) (cacheOccupied s) (score s).

Definition init (below : cstring) (ic : list cstring) : sim :=
  Sim ic 0 below (replicate (Z.to_nat S) (replicate (Z.to_nat E) []))
    (replicate (Z.to_nat S) 0) perf0.

Definition main (below : cstring) (lines : list cstring) (answers : list Z) : outcome sim :=
  ic ← loadTrace BITWIDTH (replicate (Z.to_nat ADDRESSES) []) 0 lines;
  main_loop PC checkCache stepSimulator ADDRESSES char_y answers (init below ic)
    (Z.to_nat ADDRESSES).
End Fifo.

(** ** The LRU attempt of Assignment5 [mySimulator.c] *)
Module Lru.

Definition BITWIDTH : Z := 16.
Definition ADDRESSES : Z := 16384.
Definition E : Z := 4.
Definition cacheSetOffsetStart : Z := 0.
Definition cacheSetOffsetStop : Z := 1.

(** [DataK], [AgeK], [counterK] and [filledK] of one set. *)
Record cset := CSet { Data : list cstring; Age : list Z; counter : Z; filled : Z }.

Record sim := Sim {
  instructionCache : list cstring;
  PC : Z;
  set1 : cset; set2 : cset; set3 : cset; set4 : cset;
  score : perf
}.

Definition upd_set1 (s : sim) (c : cset) : sim :=
  Sim (instructionCache s) (PC s) c (set2 s) (set3 s) (set4 s) (score s).
Definition upd_set2 (s : sim) (c : cset) : sim :=
  Sim (instructionCache s) (PC s) (set1 s) c (set3 s) (set4 s) (score s).
Definition upd_set3 (s : sim) (c : cset) : sim :=
  Sim (instructionCache s) (PC s) (set1 s) (set2 s) c (set4 s) (score s).
Definition upd_set4 (s : sim) (c : cset) : sim :=
  Sim (instructionCache s) (PC s) (set1 s) (set2 s) (set3 s) c (score s).
Definition upd_score (s : sim) (p : perf) : sim :=
  Sim (instructionCache s) (PC s) (set1 s) (set2 s) (set3 s) (set4 s) p.
Definition upd_trace (s : sim) (ic : list cstring) : sim :=
  Sim ic (PC s) (set1 s) (set2 s) (set3 s) (set4 s) (score s).

Fixpoint getMin_loop (array : list Z) (min pos i : Z) (cnt : nat) : outcome Z :=
  match cnt with
  | O => Ret pos
  | S cnt =>
      x ← arr_get array i;
      if min <? x then getMin_loop array x i (i + 1) cnt
      else getMin_loop array min pos (i + 1) cnt
  end.
Definition getMin (array : list Z) : outcome Z :=
  min ← arr_get array 0;
  getMin_loop array min 0 1 (Z.to_nat (E - 1)).

(** [strcpy(DataK[pos], a); AgeK[pos] = counterK; counterK++]. *)
Definition put_at (c : cset) (pos : Z) (a : cstring) : outcome cset :=
  str ← strcpy_row BITWIDTH a;
  d ← arr_set (Data c) pos str;
  ag ← arr_set (Age c) pos (counter c);
  Ret (CSet d ag (counter c + 1) (filled c)).

(** The branch of a set that is not full, the same in the four functions. *)
Definition append (c : cset) (a : cstring) : outcome cset :=
  c ← put_at c (filled c) a;
  Ret (CSet (Data c) (Age c) (counter c) (filled c + 1)).

(** [addToSet1] copies in the other direction when the set is full. *)
Definition addToSet1 (s : sim) : outcome sim :=
  a ← arr_get (instructionCache s) (PC s);
  let c := set1 s in
  if filled c =? E then
    minPos ← getMin (Age c);
    d ← arr_get (Data c) minPos;
    str ← strcpy_row BITWIDTH d;
    ic ← arr_set (instructionCache s) (PC s) str;
    ag ← arr_set (Age c) minPos (counter c);
    Ret (upd_set1 (upd_trace s ic) (CSet (Data c) ag (counter c + 1) (filled c)))
  else
    c ← append c a;
    Ret (upd_set1 s c).

(** The body [addToSet2], [addToSet3] and [addToSet4] share. *)
Definition add (c : cset) (a : cstring) : outcome cset :=
  if filled c =? E then
    minPos ← getMin (Age c);
    put_at c minPos a
  else append c a.

Definition addToSet2 (s : sim) : outcome sim :=
  a ← arr_get (instructionCache s) (PC s); c ← add (set2 s) a; Ret (upd_set2 s c).
Definition addToSet3 (s : sim) : outcome sim :=
  a ← arr_get (instructionCache s) (PC s); c ← add (set3 s) a; Ret (upd_set3 s c).
Definition addToSet4 (s : sim) : outcome sim :=
  a ← arr_get (instructionCache s) (PC s); c ← add (set4 s) a; Ret (upd_set4 s c).

Fixpoint find_from (data : list cstring) (a : cstring) (i : Z) (cnt : nat) : outcome Z :=
  match cnt with
  | O => Ret (-1)
  | S cnt =>
      d ← arr_get data i;
      if strcmp_eq a d then Ret i else find_from data a (i + 1) cnt
  end.
Definition find (c : cset) (a : cstring) : outcome Z :=
  find_from (Data c) a 0 (Z.to_nat (filled c)).

Definition checkInstructionPos (s : sim) (set : Z) : outcome Z :=
  a ← arr_get (instructionCache s) (PC s);
  if set =? 0 then find (set1 s) a
  else if set =? 1 then find (set2 s) a
  else if set =? 2 then find (set3 s) a
  else if set =? 3 then find (set4 s) a
  else Ret (-1).

(** The last case of the switch is [4], which no set number reaches. *)
Definition replaceInstruction (s : sim) (set pos : Z) : outcome sim :=
  a ← arr_get (instructionCache s) (PC s);
  if set =? 0 then c ← put_at (set1 s) pos a; Ret (upd_set1 s c)
  else if set =? 1 then c ← put_at (set2 s) pos a; Ret (upd_set2 s c)
  else if set =? 2 then c ← put_at (set3 s) pos a; Ret (upd_set3 s c)
  else if set =? 4 then c ← put_at (set4 s) pos a; Ret (upd_set4 s c)
  else Ret s.

(** One case of [replacementPolicy]. *)
Definition policy_case (s : sim) (set : Z) (c : cset) (addToSet : sim → outcome sim) : outcome sim :=
  if filled c =? 0 then addToSet (upd_score s (incrementCacheMiss (score s)))
  else
    pos ← checkInstructionPos s set;
    if pos =? -1 then addToSet (upd_score s (incrementCacheMiss (score s)))
    else replaceInstruction (upd_score s (incrementCacheHit (score s))) set pos.

Definition replacementPolicy (s : sim) : outcome sim :=
  a ← arr_get (instructionCache s) (PC s);
  set ← binaryStringRangeToInt a cacheSetOffsetStart cacheSetOffsetStop;
  if set =? 0 then policy_case s set (set1 s) addToSet1
  else if set =? 1 then policy_case s set (set2 s) addToSet2
  else if set =? 2 then policy_case s set (set3 s) addToSet3
  else if set =? 3 then policy_case s set (set4 s) addToSet4
  else Ret s.

Definition stepSimulator (s : sim) : sim :=
  Sim (instructionCache s) (PC s + 1) (set1 s) (set2 s) (set3 s) (set4 s) (score s).

Definition cset0 : cset :=
  CSet (replicate (Z.to_nat E) []) (replicate (Z.to_nat E) (-1)) 0 0.
Definition init (ic : list cstring) : sim := Sim ic 0 cset0 cset0 cset0 cset0 perf0.

Definition main (lines : list cstring) (answers : list Z) : outcome sim :=
  ic ← loadTrace BITWIDTH (replicate (Z.to_nat ADDRESSES) []) 0 lines;
  main_loop PC replacementPolicy stepSimulator ADDRESSES char_y answers (init ic)
    (Z.to_nat ADDRESSES).
End Lru.

(** ** What a cache promises

    A policy maps an abstract cache to the addresses it holds; the simulators
    implement policies.  [holds] bounds what can hit. *)
Record policy := Policy {
  cache : Type;
  empty_cache : cache;
  in_cache : cache → cstring → bool;
  touch : cache → cstring → cache;
  held : cache → list cstring
}.

Class PolicyLaws (p : policy) := {
  held_empty : held p (empty_cache p) = [];
  hit_held m a : in_cache p m a = true → a ∈ held p m;
  held_touch m a x : x ∈ held p (touch p m a) → x = a ∨ x ∈ held p m
}.

Definition record_access (hit : bool) (pf : perf) : perf :=
  if hit then incrementCacheHit pf else incrementCacheMiss pf.

(** The reference run of a policy over a list of addresses. *)
Fixpoint run_policy (p : policy) (m : cache p) (pf : perf) (addrs : list cstring)
    : cache p * perf :=
  match addrs with
  | [] => (m, pf)
  | a :: addrs => run_policy p (touch p m a) (record_access (in_cache p m a) pf) addrs
  end.

(** A simulator implements a policy for addresses of [w] characters. *)
Class Implements (p : policy) {S : Type} (pc : S → Z) (trace : S → list cstring)
    (score : S → perf) (init : list cstring → S) (check : S → outcome S) (step : S → S) (w : nat)
    (repr : cache p → S → Prop) := {
  impl_check m s a :
    repr m s → arr_get (trace s) (pc s) = Ret a → length a = w →
    ∃ s', check s = Ret s' ∧ repr (touch p m a) s' ∧ trace s' = trace s ∧ pc s' = pc s ∧
          score s' = record_access (in_cache p m a) (score s);
  impl_step m s : repr m s →
    repr m (step s) ∧ trace (step s) = trace s ∧ pc (step s) = pc s + 1 ∧
    score (step s) = score s;
  impl_pc s s' : check s = Ret s' → pc (step s') = pc s + 1;
  impl_init ic : repr (empty_cache p) (init ic) ∧ trace (init ic) = ic ∧
    pc (init ic) = 0 ∧ score (init ic) = perf0
}.

(** How many instructions the main loop executes: all that are left unless
    the user gives an answer that is neither [y] nor [a]. *)
Fixpoint executed (run : Z) (answers : list Z) (todo : nat) : nat :=
  if (run =? char_y) || (run =? char_a) then
    match todo with
    | O => O
    | S todo =>
        S (if negb (run =? char_a) then
             match answers with
             | [] => executed run [] todo
             | a :: answers => executed a answers todo
             end
           else executed run answers todo)
    end
  else O.

Lemma executed_le n : ∀ run answers, (executed run answers n ≤ n)%nat.
Proof.
  induction n as [|n IH]; intros run answers; cbn [executed].
  - by destruct (_ || _).
  - destruct (_ || _); [|lia]. apply le_n_S. destruct (negb _); [destruct answers|]; apply IH.
Qed.

Lemma executed_all answers n : executed char_a answers n = n.
Proof.
  induction n as [|n IH]; [done|]. cbn [executed]. change (negb (char_a =? char_a)) with false.
  cbv iota. by rewrite IH.
Qed.

(** ** Loading a trace *)
Definition chomp (line : cstring) : cstring := take (length line - 1) line.

Lemma loadTrace_spec (w : Z) lines : ∀ pre suf,
  Forall (λ l, Z.of_nat (length (chomp l)) ≤ w) lines → (length lines ≤ length suf)%nat →
  loadTrace w (pre ++ suf) (Z.of_nat (length pre)) lines =
    Ret (pre ++ (chomp <$> lines) ++ drop (length lines) suf).
Proof.
  induction lines as [|l lines IH]; intros pre suf Hv Hl; cbn [loadTrace].
  { done. }
  apply Forall_cons in Hv as [Hv1 Hv]. cbn [length] in Hl.
  destruct suf as [|x suf]; [cbn in Hl; lia|]. unfold strcpy_row. fold (chomp l). case_if; [|lia].
  cbn [mbind outcome_bind]. rewrite arr_set_in by (rewrite length_app; cbn; lia).
  cbn [mbind outcome_bind]. rewrite Nat2Z.id, insert_app_r_alt, Nat.sub_diag by lia.
  change (<[0%nat := chomp l]> (x :: suf)) with ([chomp l] ++ suf). rewrite app_assoc.
  replace (Z.of_nat (length pre) + 1) with (Z.of_nat (length (pre ++ [chomp l])))
    by (rewrite length_app; cbn; lia).
  rewrite IH by (done || cbn in Hl; lia). by rewrite <-app_assoc.
Qed.

(** Every access is counted once, at its cost. *)
Lemma run_policy_tally p addrs : ∀ m pf,
  let pf' := (run_policy p m pf addrs).2 in
  cacheHit pf' + cacheMisses pf' = cacheHit pf + cacheMisses pf + Z.of_nat (length addrs) ∧
  totalLatency pf' - totalLatency pf =
    costOfCacheHit * (cacheHit pf' - cacheHit pf) + costOfCacheMiss * (cacheMisses pf' - cacheMisses pf).
Proof.
  induction addrs as [|a addrs IH]; intros m pf; [cbn; lia|]. cbn [run_policy length].
  specialize (IH (touch p m a) (record_access (in_cache p m a) pf)). cbn zeta in *.
  unfold record_access, costOfCacheHit, costOfCacheMiss in *.
  destruct (in_cache p m a); cbn [incrementCacheHit incrementCacheMiss cacheHit cacheMisses
    totalLatency] in *; unfold costOfCacheHit, costOfCacheMiss in *; lia.
Qed.

Section implements.
Context (p : policy) {S : Type} {pc : S → Z} {trace : S → list cstring}
  {score : S → perf} {init : list cstring → S} {check : S → outcome S} {step : S → S} {w : nat}
  {repr : cache p → S → Prop} {impl : Implements p pc trace score init check step w repr}.

Lemma steps_policy addrs : ∀ m s,
  repr m s → 0 ≤ pc s → Forall (λ a, length a = w) addrs →
  take (length addrs) (drop (Z.to_nat (pc s)) (trace s)) = addrs →
  ∃ s', steps check step (length addrs) s = Ret s' ∧
    repr (run_policy p m (score s) addrs).1 s' ∧
    score s' = (run_policy p m (score s) addrs).2 ∧ trace s' = trace s ∧
    pc s' = pc s + Z.of_nat (length addrs).
Proof.
  induction addrs as [|a addrs IH]; intros m s Hr Hpc Hv Ht; cbn [steps length run_policy].
  { exists s. split_and!; [done..|lia]. }
  apply Forall_cons in Hv as [Ha Hv]. cbn [length] in Ht.
  destruct (drop (Z.to_nat (pc s)) (trace s)) as [|x rest] eqn:Ed; [done|].
  cbn [take] in Ht. injection Ht as -> Ht.
  assert (trace s !! Z.to_nat (pc s) = Some a) as Hl.
  { pose proof (lookup_drop (trace s) (Z.to_nat (pc s)) 0) as E.
    rewrite Ed, Nat.add_0_r in E. by rewrite <-E. }
  destruct (impl_check m s a Hr) as (s1 & E1 & R1 & T1 & P1 & S1); [by apply arr_get_Ret|done|].
  destruct (impl_step _ s1 R1) as (R2 & T2 & P2 & S2).
  rewrite E1. cbn [mbind outcome_bind].
  destruct (IH (touch p m a) (step s1)) as (s' & E & R & Sc & T & P); [done|lia|done| |].
  { rewrite T2, T1, P2, P1, Z2Nat.inj_add, Nat.add_1_r by lia.
    by rewrite (drop_S _ _ _ Hl) in Ed; injection Ed as ->. }
  exists s'. rewrite <-S1, <-S2. split_and!; [done..|congruence|]. rewrite P, P2, P1. lia.
Qed.

(** The loop as a number of steps, for a loop that stops within its fuel. *)
Lemma main_loop_steps N n : ∀ run answers s,
  N - pc s = Z.of_nat n →
  main_loop pc check step N run answers s n = steps check step (executed run answers n) s.
Proof.
  induction n as [|n IH]; intros run answers s Hn; cbn [main_loop executed].
  - destruct (_ || _); [|done]. cbn [andb]. case_if; [lia|done].
  - destruct (_ || _); [|done]. cbn [andb]. case_if; [|lia]. cbn [steps].
    destruct (check s) as [s1| | |] eqn:E; [|done..]. cbn [mbind outcome_bind].
    apply impl_pc in E. destruct (negb _); [destruct answers|]; apply IH; (done || lia).
Qed.

(** A whole run over a trace of addresses of the right width, with enough
    lines for the instructions the user lets it execute. *)
Lemma main_policy N lines answers :
  0 ≤ N → Forall (λ l, length l = (w + 1)%nat) lines → Z.of_nat (length lines) ≤ N →
  (executed char_y answers (Z.to_nat N) ≤ length lines)%nat →
  let run := run_policy p (empty_cache p) perf0
    (take (executed char_y answers (Z.to_nat N)) (chomp <$> lines)) in
  ∃ s', (ic ← loadTrace (Z.of_nat w) (replicate (Z.to_nat N) []) 0 lines;
         main_loop pc check step N char_y answers (init ic) (Z.to_nat N)) = Ret s' ∧
        repr run.1 s' ∧ score s' = run.2 ∧
        cacheHit (score s') + cacheMisses (score s') =
          Z.of_nat (executed char_y answers (Z.to_nat N)) ∧
        totalLatency (score s') = cacheHit (score s') + 100 * cacheMisses (score s').
Proof.
  intros HN Hw Hl Hex. cbn zeta.
  assert (Forall (λ l, length (chomp l) = w) lines) as Hw'.
  { eapply Forall_impl; [exact Hw|]. intros l El. cbn beta in El. unfold chomp. rewrite length_take. lia. }
  pose proof (loadTrace_spec (Z.of_nat w) lines [] (replicate (Z.to_nat N) [])) as Hload.
  cbn [app length] in Hload. change (Z.of_nat 0) with 0 in Hload. rewrite Hload; clear Hload.
  2:{ eapply Forall_impl; [exact Hw'|]. cbn beta. lia. }
  2:{ rewrite length_replicate. lia. }
  cbn [mbind outcome_bind app].
  set (ic := (chomp <$> lines) ++ _). destruct (impl_init ic) as (R0 & T0 & P0 & S0).
  rewrite main_loop_steps by lia. set (n := executed _ _ _) in *.
  set (addrs := take n (chomp <$> lines)).
  assert (length addrs = n) as En by (unfold addrs; rewrite length_take, length_fmap; lia).
  destruct (steps_policy addrs (empty_cache p) (init ic)) as (s' & E & R & Sc & _ & _).
  - done.
  - lia.
  - apply Forall_take, Forall_fmap. exact Hw'.
  - rewrite T0, P0, En. change (Z.to_nat 0) with 0%nat. rewrite drop_0. unfold ic, addrs.
    apply take_app_le. rewrite length_fmap. lia.
  - rewrite En in E. rewrite S0 in *. exists s'. rewrite Sc.
    pose proof (run_policy_tally p addrs (empty_cache p) perf0) as [H1 H2].
    rewrite En in H1. cbn [perf0 cacheHit cacheMisses totalLatency] in H1, H2.
    unfold costOfCacheHit, costOfCacheMiss in H2. split_and!; (done || lia).
Qed.
End implements.

(** Whatever the policy, addresses that are all different never hit. *)
Lemma run_policy_distinct p `{!PolicyLaws p} addrs : ∀ m pf,
  NoDup addrs → (∀ a, a ∈ addrs → a ∉ held p m) →
  let pf' := (run_policy p m pf addrs).2 in
  cacheHit pf' = cacheHit pf ∧ cacheMisses pf' = cacheMisses pf + Z.of_nat (length addrs).
Proof.
  induction addrs as [|a addrs IH]; intros m pf Hnd Hh; [cbn; lia|]. cbn [run_policy length].
  apply NoDup_cons in Hnd as [Ha Hnd].
  destruct (in_cache p m a) eqn:E.
  { destruct (Hh a); [by left|]. by apply hit_held. }
  destruct (IH (touch p m a) (incrementCacheMiss pf) Hnd) as [H1 H2].
  { intros x Hx Hin. apply held_touch in Hin as [->|Hin]; [done|]. by apply (Hh x); [right|]. }
  cbn [record_access] in *. rewrite H1, H2. cbn [incrementCacheMiss cacheHit cacheMisses]. lia.
Qed.

(** ** Two-dimensional arrays *)
Lemma set2_spec {A} (l : list (list A)) i j x y :
  get2 l i j = Ret y →
  ∃ l', set2 l i j x = Ret l' ∧
    ∀ i' j', get2 l' i' j' = if decide ((i', j') = (i, j)) then Ret x else get2 l i' j'.
Proof.
  unfold get2, set2. destruct (arr_get l i) as [row| | |] eqn:Er; [|done..].
  cbn [mbind outcome_bind]. intros Hj. apply arr_get_Ret in Er as [Hi Er].
  apply arr_get_Ret in Hj as [Hj0 Hj].
  pose proof (lookup_lt_Some _ _ _ Er). pose proof (lookup_lt_Some _ _ _ Hj).
  rewrite arr_set_in by lia. cbn [mbind outcome_bind]. rewrite arr_set_in by lia.
  eexists. split; [done|]. intros i' j'. unfold arr_get.
  destruct (i' <? 0) eqn:Ei; bool_to_prop.
  { case_decide as Hd; [|done]. injection Hd; lia. }
  destruct (decide (i' = i)) as [->|Hne].
  - rewrite list_lookup_insert_eq, Er by lia. cbn [opt mbind outcome_bind].
    destruct (j' <? 0) eqn:Ej; bool_to_prop; case_decide as Hd; try (injection Hd; lia).
    + done.
    + injection Hd as ->. by rewrite list_lookup_insert_eq by lia.
    + rewrite list_lookup_insert_ne; [done|]. intros ?. apply Hd. f_equal. lia.
  - rewrite decide_False by congruence. rewrite list_lookup_insert_ne by lia. done.
Qed.

Lemma arr_set_spec {A} (l : list A) i x y :
  arr_get l i = Ret y →
  ∃ l', arr_set l i x = Ret l' ∧
    ∀ i', arr_get l' i' = if decide (i' = i) then Ret x else arr_get l i'.
Proof.
  intros H. apply arr_get_Ret in H as [Hi H]. pose proof (lookup_lt_Some _ _ _ H).
  rewrite arr_set_in by lia. eexists. split; [done|]. intros i'. unfold arr_get.
  destruct (i' <? 0) eqn:Ei; bool_to_prop; case_decide; subst; try lia; [done|..].
  - by rewrite list_lookup_insert_eq by lia.
  - by rewrite list_lookup_insert_ne by lia.
Qed.

Lemma arr_get_replicate {A} n (x : A) i : 0 ≤ i < Z.of_nat n → arr_get (replicate n x) i = Ret x.
Proof. intros Hi. apply arr_get_Ret. split; [lia|]. apply lookup_replicate_2. lia. Qed.

Lemma get2_replicate {A} n k (x : A) i j : 0 ≤ i < Z.of_nat n → 0 ≤ j < Z.of_nat k →
  get2 (replicate n (replicate k x)) i j = Ret x.
Proof.
  intros Hi Hj. unfold get2. rewrite arr_get_replicate by done. cbn [mbind outcome_bind].
  by apply arr_get_replicate.
Qed.

(** ** Direct-mapped caches: one address per slot, the last one that was used *)
Definition direct_policy {K} `{Countable K} (slot : cstring → K) : policy := {|
  cache := gmap K cstring;
  empty_cache := ∅;
  in_cache m a := bool_decide (m !! slot a = Some a);
  touch m a := <[slot a := a]> m;
  held m := (map_to_list m).*2
|}.

#[export] Instance direct_laws {K} `{Countable K} (slot : cstring → K) :
  PolicyLaws (direct_policy slot).
Proof.
  split; cbn.
  - by rewrite map_to_list_empty.
  - intros m a Hm. apply bool_decide_eq_true in Hm. apply list_elem_of_fmap.
    exists (slot a, a). split; [done|]. by apply elem_of_map_to_list.
  - intros m a x Hx. apply list_elem_of_fmap in Hx as ([k y] & -> & Hx).
    apply elem_of_map_to_list in Hx. cbn. apply lookup_insert_Some in Hx as [[_ ->]|[_ Hx]]; [by left|].
    right. apply list_elem_of_fmap. exists (k, y). split; [done|]. by apply elem_of_map_to_list.
Qed.

Module DirectProofs.
Import Direct.

Definition slot (a : cstring) : Z * Z := (value_of a / 4 mod 4, value_of a mod 4).
Definition pol : policy := direct_policy slot.

Definition repr (m : gmap (Z * Z) cstring) (s : sim) : Prop :=
  ∀ i j, 0 ≤ i < 4 → 0 ≤ j < 4 →
    ∃ c, get2 (cacheSet s) i j = Ret c ∧
      get2 (cacheOccupied s) i j = Ret (if m !! (i, j) then 1 else 0) ∧
      from_option (eq c) True (m !! (i, j)).

Lemma fields a : length a = 16%nat →
  binaryStringRangeToInt a cacheLineOffsetStart cacheLineOffsetStop = Ret (slot a).2 ∧
  binaryStringRangeToInt a cacheSetOffsetStart cacheSetOffsetStop = Ret (slot a).1.
Proof.
  intros Ha. unfold cacheLineOffsetStart, cacheLineOffsetStop, cacheSetOffsetStart, cacheSetOffsetStop.
  rewrite !binaryStringRangeToInt_spec by lia. split; f_equal; cbn [slot fst snd].
  - change (2 ^ 0) with 1. by rewrite Z.div_1_r.
Qed.

Lemma direct_strcpy_fits a : length a = 16%nat → strcpy_row BITWIDTH a = Ret a.
Proof. intros Ha. unfold strcpy_row, BITWIDTH. case_if; [done|lia]. Qed.

(** The array after the address went to its slot represents the updated map. *)
Lemma direct_repr_touch m s a cs occ :
  repr m s →
  (∀ i j, get2 cs i j = if decide ((i, j) = slot a) then Ret a else get2 (cacheSet s) i j) →
  (∀ i j, get2 occ i j = if decide ((i, j) = slot a) then Ret 1 else get2 (cacheOccupied s) i j) →
  ∀ ic pc pf, repr (<[slot a := a]> m) (Sim ic pc cs occ pf).
Proof.
  intros Hr Hcs Hocc ic pc pf i j Hi Hj. destruct (Hr i j Hi Hj) as (c & E1 & E2 & E3).
  cbn [cacheSet cacheOccupied]. rewrite Hcs, Hocc. case_decide as Hd.
  - exists a. rewrite Hd, lookup_insert_eq. done.
  - exists c. rewrite lookup_insert_ne by done. done.
Qed.

Lemma direct_checkCache_spec (m : gmap (Z * Z) cstring) s a :
  repr m s → arr_get (instructionCache s) (PC s) = Ret a → length a = 16%nat →
  ∃ s', checkCache s = Ret s' ∧ repr (<[slot a := a]> m) s' ∧
    instructionCache s' = instructionCache s ∧ PC s' = PC s ∧
    score s' = record_access (bool_decide (m !! slot a = Some a)) (score s).
Proof.
  intros Hr Hpc Ha. destruct (fields a Ha) as [Hline Hset]. pose proof (direct_strcpy_fits a Ha) as Hcpy.
  destruct (Hr (slot a).1 (slot a).2) as (c & Ec & Eo & Em);
    [cbn [slot fst snd]; apply Z.mod_pos_bound; lia..|].
  rewrite <-surjective_pairing in *.
  unfold checkCache. rewrite Hpc. cbn [mbind outcome_bind]. rewrite Hline, Hset.
  cbn [mbind outcome_bind]. rewrite Eo. cbn [mbind outcome_bind].
  destruct (set2_spec _ _ _ a _ Ec) as (cs & Hcs & Gcs). rewrite <-surjective_pairing in *.
  destruct (m !! slot a) as [b|] eqn:Eb; cbn in Em |- *.
  - change (1 =? 0) with false. change (1 =? 1) with true. cbv iota. subst b.
    unfold evictionPolicy. rewrite Hpc. cbn [mbind outcome_bind]. rewrite Hline, Hset.
    cbn [mbind outcome_bind]. rewrite Ec. cbn [mbind outcome_bind]. unfold strcmp_eq.
    destruct (decide (c = a)) as [->|Hne].
    + rewrite !bool_decide_true by congruence. eexists. split; [done|]. split_and!; try done.
      rewrite insert_id by done. done.
    + rewrite !bool_decide_false by congruence. rewrite Hcpy. cbn [mbind outcome_bind].
      rewrite Hcs. cbn [mbind outcome_bind]. eexists. split; [done|]. split_and!; try done.
      apply (direct_repr_touch m s); [done..|]. intros i j. case_decide as Hd; [|done].
      rewrite <-Hd in Eo. done.
  - change (0 =? 0) with true. cbv iota. unfold ReplacementPolicy. rewrite Hpc.
    cbn [mbind outcome_bind]. rewrite Hline, Hset. cbn [mbind outcome_bind].
    destruct (set2_spec _ _ _ 1 _ Eo) as (occ & Hocc & Gocc). rewrite <-surjective_pairing in *.
    rewrite Hocc. cbn [mbind outcome_bind]. rewrite Hcpy. cbn [mbind outcome_bind].
    rewrite Hcs. cbn [mbind outcome_bind]. rewrite bool_decide_false by done.
    eexists. split; [done|]. split_and!; try done. by apply (direct_repr_touch m s).
Qed.

Lemma direct_check_step_pc s s' : checkCache s = Ret s' → PC (stepSimulator s') = PC s + 1.
Proof.
  intros H. unfold checkCache, ReplacementPolicy, evictionPolicy in H.
  repeat (apply bind_Ret in H as (? & ? & H)).
  destruct (_ =? 0); [|destruct (_ =? 1); [|by injection H as <-]];
    repeat (apply bind_Ret in H as (? & ? & H)); [by injection H as <-|].
  destruct (strcmp_eq _ _); [by injection H as <-|].
  repeat (apply bind_Ret in H as (? & ? & H)). by injection H as <-.
Qed.

Lemma direct_repr_init ic : repr ∅ (init ic).
Proof.
  intros i j Hi Hj. exists []. rewrite lookup_empty. cbn [init cacheSet cacheOccupied].
  rewrite !get2_replicate by (unfold S, E; lia). done.
Qed.

#[export] Instance direct_implements :
  Implements pol PC instructionCache score init checkCache stepSimulator 16 repr.
Proof.
  split; [exact direct_checkCache_spec| |exact direct_check_step_pc|].
  - intros m s Hr. by split_and!.
  - intros ic. split_and!; [apply direct_repr_init|done..].
Qed.
End DirectProofs.

Module Lab6Proofs.
Import Lab6.

Definition slot (a : cstring) : Z := value_of a / 2 mod 4.
Definition pol : policy := direct_policy slot.

Definition repr (m : gmap Z cstring) (s : sim) : Prop :=
  ∀ i, 0 ≤ i < 4 →
    ∃ c, arr_get (cacheLines s) i = Ret c ∧
      arr_get (cacheOccupied s) i = Ret (if m !! i then 1 else 0) ∧
      from_option (eq c) True (m !! i).

Lemma lab6_field a : length a = 8%nat →
  binaryStringRangeToInt a indexStart indexStop = Ret (slot a).
Proof.
  intros Ha. unfold indexStart, indexStop. by rewrite binaryStringRangeToInt_spec by lia.
Qed.

Lemma lab6_strcpy_fits a : length a = 8%nat → strcpy_row BITWIDTH a = Ret a.
Proof. intros Ha. unfold strcpy_row, BITWIDTH. case_if; [done|lia]. Qed.

Lemma lab6_repr_touch m s a cl occ :
  repr m s →
  (∀ i, arr_get cl i = if decide (i = slot a) then Ret a else arr_get (cacheLines s) i) →
  (∀ i, arr_get occ i = if decide (i = slot a) then Ret 1 else arr_get (cacheOccupied s) i) →
  ∀ ic pc pf, repr (<[slot a := a]> m) (Sim ic pc cl occ pf).
Proof.
  intros Hr Hcl Hocc ic pc pf i Hi. destruct (Hr i Hi) as (c & E1 & E2 & E3).
  cbn [cacheLines cacheOccupied]. rewrite Hcl, Hocc. case_decide as Hd.
  - exists a. by rewrite Hd, lookup_insert_eq.
  - exists c. by rewrite lookup_insert_ne by done.
Qed.

Lemma lab6_checkCache_spec (m : gmap Z cstring) s a :
  repr m s → arr_get (instructionCache s) (PC s) = Ret a → length a = 8%nat →
  ∃ s', checkCache s = Ret s' ∧ repr (<[slot a := a]> m) s' ∧
    instructionCache s' = instructionCache s ∧ PC s' = PC s ∧
    score s' = record_access (bool_decide (m !! slot a = Some a)) (score s).
Proof.
  intros Hr Hpc Ha. pose proof (lab6_field a Ha) as Hidx. pose proof (lab6_strcpy_fits a Ha) as Hcpy.
  destruct (Hr (slot a)) as (c & Ec & Eo & Em); [apply Z.mod_pos_bound; lia|].
  destruct (arr_set_spec _ _ a _ Ec) as (cl & Hcl & Gcl).
  unfold checkCache. rewrite Hpc. cbn [mbind outcome_bind]. rewrite Hidx.
  cbn [mbind outcome_bind]. rewrite Eo. cbn [mbind outcome_bind].
  destruct (m !! slot a) as [b|] eqn:Eb; cbn in Em |- *.
  - subst b. unfold evictionPolicy. rewrite Hpc. cbn [mbind outcome_bind]. rewrite Hidx.
    cbn [mbind outcome_bind]. rewrite Ec. cbn [mbind outcome_bind]. unfold strcmp_eq.
    destruct (decide (c = a)) as [->|Hne].
    + rewrite !bool_decide_true by congruence. eexists. split; [done|].
      by rewrite insert_id by done.
    + rewrite !bool_decide_false by congruence. rewrite Hcpy. cbn [mbind outcome_bind].
      rewrite Hcl. cbn [mbind outcome_bind]. eexists. split; [done|]. split_and!; try done.
      apply (lab6_repr_touch m s); [done..|]. intros i. case_decide as Hd; [by subst|done].
  - destruct (arr_set_spec _ _ 1 _ Eo) as (occ & Hocc & Gocc).
    unfold ReplacementPolicy. rewrite Hpc. cbn [mbind outcome_bind]. rewrite Hidx.
    cbn [mbind outcome_bind]. rewrite Hocc. cbn [mbind outcome_bind]. rewrite Hcpy.
    cbn [mbind outcome_bind]. rewrite Hcl. cbn [mbind outcome_bind].
    rewrite bool_decide_false by done. eexists. split; [done|]. split_and!; try done.
    by apply (lab6_repr_touch m s).
Qed.

Lemma lab6_check_step_pc s s' : checkCache s = Ret s' → PC (stepSimulator s') = PC s + 1.
Proof.
  intros H. unfold checkCache, ReplacementPolicy, evictionPolicy in H.
  repeat (apply bind_Ret in H as (? & ? & H)).
  destruct (_ =? 0); [|destruct (_ =? 1); [|by injection H as <-]];
    repeat (apply bind_Ret in H as (? & ? & H)); [by injection H as <-|].
  destruct (strcmp_eq _ _); [by injection H as <-|].
  repeat (apply bind_Ret in H as (? & ? & H)). by injection H as <-.
Qed.

#[export] Instance lab6_implements :
  Implements pol PC instructionCache score init checkCache stepSimulator 8 repr.
Proof.
  split; [exact lab6_checkCache_spec| |exact lab6_check_step_pc|].
  - intros m s Hr. by split_and!.
  - intros ic. split_and!; [|done..]. intros i Hi. exists []. cbn [init cacheLines cacheOccupied].
    by rewrite !arr_get_replicate by (unfold S; lia).
Qed.
End Lab6Proofs.

(** ** FIFO replacement: each set keeps the last [ways] addresses that missed,
    newest first *)
Definition fifo_policy (slot : cstring → Z) (ways : nat) : policy := {|
  cache := gmap Z (list cstring);
  empty_cache := ∅;
  in_cache m a := bool_decide (a ∈ default [] (m !! slot a));
  touch m a :=
    let l := default [] (m !! slot a) in
    if bool_decide (a ∈ l) then m else <[slot a := take ways (a :: l)]> m;
  held m := mjoin (map_to_list m).*2
|}.

Lemma held_fifo (m : gmap Z (list cstring)) x :
  x ∈ mjoin (map_to_list m).*2 ↔ ∃ k l, m !! k = Some l ∧ x ∈ l.
Proof.
  rewrite list_elem_of_join. split.
  - intros (l & Hx & Hl). apply list_elem_of_fmap in Hl as ([k l'] & -> & Hl).
    apply elem_of_map_to_list in Hl. by exists k, l'.
  - intros (k & l & Hk & Hx). exists l. split; [done|]. apply list_elem_of_fmap.
    exists (k, l). split; [done|]. by apply elem_of_map_to_list.
Qed.

#[export] Instance fifo_laws slot ways : PolicyLaws (fifo_policy slot ways).
Proof.
  split; cbn [fifo_policy held in_cache touch empty_cache].
  - by rewrite map_to_list_empty.
  - intros m a Hm. change (gmap Z (list cstring)) in (type of m).
    apply bool_decide_eq_true in Hm. apply held_fifo.
    destruct (m !! slot a) as [l|] eqn:E; [|by apply not_elem_of_nil in Hm]. by exists (slot a), l.
  - intros m a x. change (gmap Z (list cstring)) in (type of m).
    case_bool_decide as Hin; [by right|]. intros Hx.
    apply held_fifo in Hx as (k & l & Hk & Hx).
    apply lookup_insert_Some in Hk as [[<- <-]|[_ Hk]].
    + apply elem_of_take in Hx as (i & Hx & _). destruct i as [|i]; [by injection Hx as ->; left|].
      right. apply held_fifo. cbn in Hx.
      destruct (m !! slot a) as [l|] eqn:E; [|done]. exists (slot a), l.
      split; [done|]. by eapply list_elem_of_lookup_2.
    + right. apply held_fifo. by exists k, l.
Qed.

Module FifoProofs.
Import Fifo.

Definition slot (a : cstring) : Z := value_of a mod 4.
Definition pol : policy := fifo_policy slot 4.

Definition set_of (m : gmap Z (list cstring)) (i : Z) : list cstring := default [] (m !! i).

(** Each row of four holds its set at its end, behind empty strings. *)
Definition repr (m : gmap Z (list cstring)) (s : sim) : Prop :=
  (length (below s) ≤ 16)%nat ∧ length (cacheSet s) = 4%nat ∧
  ∀ i, 0 ≤ i < 4 →
    (length (set_of m i) ≤ 4)%nat ∧ Forall (λ a, length a = 16%nat) (set_of m i) ∧
    arr_get (cacheSet s) i = Ret (replicate (4 - length (set_of m i)) [] ++ set_of m i) ∧
    arr_get (cacheOccupied s) i = Ret (Z.of_nat (length (set_of m i))).

Definition with_row (s : sim) (i : Z) (row : list cstring) : sim :=
  Sim (instructionCache s) (PC s) (below s) (<[Z.to_nat i := row]> (cacheSet s))
    (cacheOccupied s) (score s).

Lemma fifo_strcpy_fits a : (length a ≤ 16)%nat → strcpy_row BITWIDTH a = Ret a.
Proof. intros Ha. unfold strcpy_row, BITWIDTH. case_if; [done|lia]. Qed.

Lemma with_row_get s i row : 0 ≤ i < Z.of_nat (length (cacheSet s)) →
  arr_get (cacheSet (with_row s i row)) i = Ret row.
Proof.
  intros Hi. apply arr_get_Ret. split; [lia|]. cbn. apply list_lookup_insert_eq. lia.
Qed.

Lemma with_row_other s i j row : 0 ≤ i → i ≠ j →
  arr_get (cacheSet (with_row s i row)) j = arr_get (cacheSet s) j.
Proof.
  intros Hi Hne. unfold arr_get. cbn. destruct (j <? 0) eqn:E; [done|]. bool_to_prop.
  by rewrite list_lookup_insert_ne by lia.
Qed.

Lemma with_row_twice s i r1 r2 : with_row (with_row s i r1) i r2 = with_row s i r2.
Proof. unfold with_row. cbn. by rewrite list_insert_insert_eq. Qed.

Lemma set_cell_spec s i j row a :
  arr_get (cacheSet s) i = Ret row → 0 ≤ j < Z.of_nat (length row) → (length a ≤ 16)%nat →
  set_cell s i j a = Ret (with_row s i (<[Z.to_nat j := a]> row)).
Proof.
  intros Hi Hj Ha. unfold set_cell. rewrite fifo_strcpy_fits by done. cbn [mbind outcome_bind].
  unfold set2. rewrite Hi. cbn [mbind outcome_bind]. rewrite arr_set_in by done.
  cbn [mbind outcome_bind]. apply arr_get_Ret in Hi as [Hi0 Hi].
  apply lookup_lt_Some in Hi. by rewrite arr_set_in by lia.
Qed.

(** One round of the shift. *)
Lemma shift_step s i row k a :
  0 ≤ i < Z.of_nat (length (cacheSet s)) → arr_get (cacheSet s) i = Ret row →
  cell s i (Z.of_nat k - 1) = Ret a → (length a ≤ 16)%nat → (k < length row)%nat →
  shiftArray_loop s i (Datatypes.S k) = shiftArray_loop (with_row s i (<[k := a]> row)) i k.
Proof.
  intros Hi Hrow Ha Hl Hk. cbn [shiftArray_loop]. rewrite Ha. cbn [mbind outcome_bind].
  rewrite (set_cell_spec s i (Z.of_nat k) row) by (done || lia).
  cbn [mbind outcome_bind]. by rewrite Nat2Z.id.
Qed.

Lemma cell_row s i row k a :
  arr_get (cacheSet s) i = Ret row → row !! k = Some a → cell s i (Z.of_nat (Datatypes.S k) - 1) = Ret a.
Proof.
  intros Hrow Hk. unfold cell, get2. case_if; [lia|]. rewrite Hrow. cbn [mbind outcome_bind].
  replace (Z.of_nat (Datatypes.S k) - 1) with (Z.of_nat k) by lia. by rewrite arr_get_nat, Hk.
Qed.

(** The cell below row 0 belongs to another set, which the shift leaves. *)
Lemma cell_below s i row : 0 ≤ i → cell (with_row s i row) i (-1) = cell s i (-1).
Proof.
  intros Hi. unfold cell. change (-1 =? -1) with true. cbv iota. case_if; [done|].
  unfold get2. by rewrite with_row_other by lia.
Qed.

(** The shift moves the first three rows up; what it leaves in row 0 is
    the string below the set. *)
Lemma shiftArray_spec s i r0 r1 r2 r3 x :
  0 ≤ i < Z.of_nat (length (cacheSet s)) → arr_get (cacheSet s) i = Ret [r0; r1; r2; r3] →
  Forall (λ a, length a ≤ 16)%nat [x; r0; r1; r2; r3] → cell s i (-1) = Ret x →
  shiftArray s i = Ret (with_row s i [x; r0; r1; r2]).
Proof.
  intros Hi Hrow Hlen Hx. rewrite !Forall_cons in Hlen. destruct Hlen as (H & H0 & H1 & H2 & H3 & _).
  assert (∀ row, 0 ≤ i < Z.of_nat (length (cacheSet (with_row s i row)))) as Hi'.
  { intros row. cbn. by rewrite length_insert. }
  unfold shiftArray. change (E - 1) with (Z.of_nat 4 - 1).
  rewrite (cell_row s i _ 3 r3) by done. cbn [mbind outcome_bind].
  rewrite fifo_strcpy_fits by done. cbn [mbind outcome_bind]. change (Z.to_nat E) with 4%nat.
  rewrite (shift_step s i [r0; r1; r2; r3] 3 r2) by (done || (cbn; lia) || by eapply cell_row).
  rewrite (shift_step _ i [r0; r1; r2; r2] 2 r1)
    by (done || (cbn; lia) || by (eapply cell_row; [by apply with_row_get|]) || by apply with_row_get).
  rewrite with_row_twice.
  rewrite (shift_step _ i [r0; r1; r1; r2] 1 r0)
    by (done || (cbn; lia) || by (eapply cell_row; [by apply with_row_get|]) || by apply with_row_get).
  rewrite with_row_twice.
  rewrite (shift_step _ i [r0; r0; r1; r2] 0 x)
    by (done || (cbn; lia) || by (rewrite cell_below by lia) || by apply with_row_get).
  by rewrite with_row_twice.
Qed.

(** Looking an address up in a row. *)
Lemma getInstructionPos_spec s a i row :
  arr_get (cacheSet s) i = Ret row → length row = 4%nat →
  arr_get (instructionCache s) (PC s) = Ret a →
  ∃ pos, getInstructionPos s i = Ret pos ∧ (pos = -1 ↔ a ∉ row).
Proof.
  intros Hrow Hl Ha. unfold getInstructionPos. rewrite Ha. cbn [mbind outcome_bind].
  assert (∀ cnt k, (k + cnt = length row)%nat →
    ∃ pos, getInstructionPos_loop s a i (Z.of_nat k) cnt = Ret pos ∧
           (pos = -1 ↔ a ∉ drop k row)) as Hloop.
  { induction cnt as [|cnt IH]; intros k Hk; cbn [getInstructionPos_loop].
    - exists (-1). split; [done|]. rewrite drop_ge by lia. split; [set_solver|done].
    - destruct (lookup_lt_is_Some_2 row k) as [c Hc]; [lia|].
      unfold get2. rewrite Hrow. cbn [mbind outcome_bind]. rewrite arr_get_nat, Hc.
      cbn [opt mbind outcome_bind]. unfold strcmp_eq. rewrite (drop_S row c k Hc).
      case_bool_decide as Hac.
      + exists (Z.of_nat k). split; [done|]. split; [lia|]. set_solver.
      + destruct (IH (Datatypes.S k)) as (pos & E & Hpos); [lia|].
        exists pos. replace (Z.of_nat k + 1) with (Z.of_nat (Datatypes.S k)) by lia.
        split; [done|]. set_solver. }
  change (Z.to_nat E) with 4%nat. apply (Hloop 4%nat 0%nat). lia.
Qed.

Lemma repr_set m s i l occ :
  repr m s → 0 ≤ i < 4 → (length l ≤ 4)%nat → Forall (λ a, length a = 16%nat) l →
  (∀ j, arr_get occ j = if decide (j = i) then Ret (Z.of_nat (length l))
                        else arr_get (cacheOccupied s) j) →
  ∀ ic pc pf, repr (<[i := l]> m)
    (Sim ic pc (below s) (<[Z.to_nat i := replicate (4 - length l) [] ++ l]> (cacheSet s)) occ pf).
Proof.
  intros (Hb & Hlen & Hr) Hi Hl Hf Hocc ic pc pf.
  split_and!; [done|cbn; by rewrite length_insert|]. intros j Hj.
  cbn [cacheSet cacheOccupied]. unfold set_of. rewrite Hocc. case_decide as Hd.
  - subst j. rewrite lookup_insert_eq. cbn [default from_option]. split_and!; try done.
    apply (with_row_get s). lia.
  - rewrite lookup_insert_ne by done. destruct (Hr j Hj) as (? & ? & ? & ?).
    split_and!; try done. etrans; [apply (with_row_other s i j); lia|done].
Qed.

Lemma fifo_field a : length a = 16%nat →
  binaryStringRangeToInt a cacheSetOffsetStart cacheSetOffsetStop = Ret (slot a).
Proof.
  intros Ha. unfold cacheSetOffsetStart, cacheSetOffsetStop.
  rewrite binaryStringRangeToInt_spec by lia. change (2 ^ 0) with 1. by rewrite Z.div_1_r.
Qed.

Lemma incrementOccupied_spec occ0 i n : arr_get occ0 i = Ret n →
  ∃ occ, (∀ s, cacheOccupied s = occ0 → incrementCacheOccupied s i =
      Ret (Sim (instructionCache s) (PC s) (below s) (cacheSet s) occ (score s))) ∧
    ∀ j, arr_get occ j = if decide (j = i) then Ret (n + 1) else arr_get occ0 j.
Proof.
  intros Hn. destruct (arr_set_spec _ _ (n + 1) _ Hn) as (occ & Ho & Go). exists occ.
  split; [|done]. intros s <-. unfold incrementCacheOccupied. rewrite Hn.
  cbn [mbind outcome_bind]. by rewrite Ho.
Qed.

(** A miss in a set with room: the address goes to the last empty row. *)
Lemma fill_row (l : list cstring) (a : cstring) k : (k + length l = 3)%nat →
  <[k := a]> (replicate (4 - length l) [] ++ l) =
  replicate (4 - length (a :: l)) [] ++ a :: l.
Proof.
  intros Hl. cbn [length]. replace (4 - length l)%nat with (Datatypes.S k) by lia.
  replace (4 - Datatypes.S (length l))%nat with k by lia.
  rewrite replicate_S_end, <-app_assoc. rewrite insert_app_r_alt by (rewrite length_replicate; lia).
  rewrite length_replicate, Nat.sub_diag. done.
Qed.

(** [ReplacementPolicy] on a set that is not full. *)
Lemma replacement_spec (m : gmap Z (list cstring)) s a (l := set_of m (slot a)) :
  repr m s → 0 ≤ slot a < 4 → arr_get (instructionCache s) (PC s) = Ret a →
  length a = 16%nat → (length l < 4)%nat → a ∉ l →
  ∃ s', ReplacementPolicy s (slot a) = Ret s' ∧ repr (<[slot a := a :: l]> m) s' ∧
    instructionCache s' = instructionCache s ∧ PC s' = PC s ∧
    score s' = incrementCacheMiss (score s).
Proof.
  intros Hr Hi Ha Hla Hl Hin. pose proof Hr as (Hb & Hlen & Hr').
  destruct (Hr' _ Hi) as (_ & Hf & Hrow & Hocc). fold l in Hf, Hrow, Hocc.
  assert (length (replicate (4 - length l) [] ++ l) = 4%nat) as Hrl
    by (rewrite length_app, length_replicate; lia).
  destruct (incrementOccupied_spec _ _ _ Hocc) as (occ & Einc & Gocc).
  assert (∀ ic pc pf, repr (<[slot a := a :: l]> m) (Sim ic pc (below s)
    (<[Z.to_nat (slot a) := replicate (4 - length (a :: l)) [] ++ a :: l]> (cacheSet s)) occ pf)) as Hfin.
  { apply repr_set; [done..|by constructor|]. intros j. rewrite Gocc. case_decide; [f_equal; cbn; lia|done]. }
  unfold ReplacementPolicy. rewrite Ha. cbn [mbind outcome_bind]. rewrite Hocc.
  cbn [mbind outcome_bind]. case_if as E0.
  - rewrite (set_cell_spec s _ _ _ _ Hrow) by (rewrite ?Hrl; unfold E; lia).
    cbn [mbind outcome_bind]. change (Z.to_nat (E - 1)) with 3%nat.
    rewrite fill_row by lia.
    rewrite Einc by done. cbn [mbind outcome_bind]. eexists. split; [done|]. split_and!; try done. apply Hfin.
  - destruct (getInstructionPos_spec s a (slot a) _ Hrow Hrl Ha) as (pos & Ep & Hpos).
    rewrite Ep. cbn [mbind outcome_bind].
    assert (pos = -1) as ->.
    { apply Hpos. rewrite elem_of_app, elem_of_replicate. intros [[-> _]|?]; done. }
    change (-1 =? -1) with true. cbv iota. cbn [mbind outcome_bind]. rewrite Einc by done.
    cbn [mbind outcome_bind].
    rewrite (set_cell_spec _ _ _ (replicate (4 - length l) [] ++ l)) by
      (done || (rewrite ?Hrl; unfold E; lia)).
    eexists. split; [done|]. unfold with_row. cbn [miss instructionCache PC below cacheSet cacheOccupied score].
    rewrite fill_row by (unfold E; lia). by split_and!.
Qed.

(** [evictionPolicy] on a full set that does not hold the address. *)
Lemma eviction_spec (m : gmap Z (list cstring)) s a (l := set_of m (slot a)) :
  repr m s → 0 ≤ slot a < 4 → arr_get (instructionCache s) (PC s) = Ret a →
  length a = 16%nat → length l = 4%nat → a ∉ l →
  ∃ s', evictionPolicy s (slot a) = Ret s' ∧ repr (<[slot a := take 4 (a :: l)]> m) s' ∧
    instructionCache s' = instructionCache s ∧ PC s' = PC s ∧
    score s' = incrementCacheMiss (score s).
Proof.
  intros Hr Hi Ha Hla Hl Hin. pose proof Hr as (Hb & Hlen & Hr').
  destruct (Hr' _ Hi) as (_ & Hf & Hrow & Hocc). fold l in Hf, Hrow, Hocc. rewrite Hl in Hrow.
  cbn [replicate Nat.sub app] in Hrow.
  destruct (getInstructionPos_spec s a (slot a) _ Hrow Hl Ha) as (pos & Ep & Hpos).
  apply Hpos in Hin as ->. unfold evictionPolicy. rewrite Ep. cbn [mbind outcome_bind negb].
  change (negb (-1 =? -1)) with false. cbv iota.
  destruct l as [|r0 [|r1 [|r2 [|r3 [|]]]]] eqn:El; try done.
  assert (∃ x, cell s (slot a) (-1) = Ret x ∧ (length x ≤ 16)%nat) as (x & Ex & Hx).
  { unfold cell. change (-1 =? -1) with true. cbv iota. case_if; [by eexists|].
    destruct (Hr' (slot a - 1)) as (H1 & H2 & H3 & _); [lia|]. unfold get2. rewrite H3.
    cbn [mbind outcome_bind].
    destruct (arr_get_in (replicate (4 - length (set_of m (slot a - 1))) [] ++ set_of m (slot a - 1))
      (E - 1)) as (x & Ex & Hx); [rewrite length_app, length_replicate; unfold E; lia|].
    exists x. split; [done|]. apply list_elem_of_lookup_2, elem_of_app in Hx as [Hx|Hx].
    - apply elem_of_replicate in Hx as [-> _]. cbn. lia.
    - rewrite Forall_forall in H2. rewrite (H2 x); [lia|done]. }
  assert (∀ y, y ∈ [r0; r1; r2; r3] → (length y ≤ 16)%nat) as Hf'.
  { intros y Hy. rewrite Forall_forall in Hf. rewrite (Hf y); [lia|done]. }
  rewrite (shiftArray_spec s _ r0 r1 r2 r3 x).
  2: lia. 2: done. 2: { constructor; [done|]. by apply Forall_forall. } 2: done.
  cbn [mbind outcome_bind with_row instructionCache PC]. rewrite Ha. cbn [mbind outcome_bind].
  rewrite (set_cell_spec _ _ 0 [x; r0; r1; r2]); [|apply with_row_get; lia|cbn; lia|lia].
  cbn [mbind outcome_bind]. rewrite with_row_twice. eexists. split; [done|].
  split_and!; try done. cbn [take].
  apply (repr_set m s (slot a) [a; r0; r1; r2]); [done..| | ].
  - rewrite !Forall_cons in Hf. repeat constructor; naive_solver.
  - intros j. case_decide; [by subst|done].
Qed.

Lemma hit_spec (m : gmap Z (list cstring)) s a (l := set_of m (slot a)) :
  repr m s → 0 ≤ slot a < 4 → arr_get (instructionCache s) (PC s) = Ret a →
  length a = 16%nat → a ∈ l →
  (if negb (Z.of_nat (length l) =? S) then ReplacementPolicy s (slot a)
   else evictionPolicy s (slot a)) = Ret (hit s).
Proof.
  intros Hr Hi Ha Hla Hin. destruct Hr as (Hb & Hlen & Hr').
  destruct (Hr' _ Hi) as (Hl4 & Hf & Hrow & Hocc). fold l in Hl4, Hf, Hrow, Hocc.
  assert (length (replicate (4 - length l) [] ++ l) = 4%nat) as Hrl
    by (rewrite length_app, length_replicate; lia).
  destruct (getInstructionPos_spec s a (slot a) _ Hrow Hrl Ha) as (pos & Ep & Hpos).
  assert ((pos =? -1) = false) as Hne.
  { apply Z.eqb_neq. rewrite Hpos. intros Hn. apply Hn, elem_of_app. by right. }
  unfold ReplacementPolicy, evictionPolicy. rewrite Ha, Hocc, Ep. cbn [mbind outcome_bind].
  rewrite Hne. cbn [negb]. assert (Z.of_nat (length l) ≠ 0) as Hl0.
  { destruct l; [by apply not_elem_of_nil in Hin|cbn; lia]. }
  apply Z.eqb_neq in Hl0. rewrite Hl0. by destruct (negb _).
Qed.

Lemma fifo_checkCache_spec (m : gmap Z (list cstring)) s a :
  repr m s → arr_get (instructionCache s) (PC s) = Ret a → length a = 16%nat →
  ∃ s', checkCache s = Ret s' ∧ repr (touch pol m a) s' ∧
    instructionCache s' = instructionCache s ∧ PC s' = PC s ∧
    score s' = record_access (in_cache pol m a) (score s).
Proof.
  intros Hr Ha Hla. assert (0 ≤ slot a < 4) as Hi by (apply Z.mod_pos_bound; lia).
  pose proof Hr as (_ & _ & Hr'). destruct (Hr' _ Hi) as (Hl4 & _ & _ & Hocc).
  unfold checkCache. rewrite Ha. cbn [mbind outcome_bind]. rewrite fifo_field by done.
  cbn [mbind outcome_bind]. rewrite Hocc. cbn [mbind outcome_bind pol fifo_policy touch in_cache].
  fold (set_of m (slot a)). case_bool_decide as Hin.
  - rewrite hit_spec by done. by exists (hit s).
  - cbn [record_access]. destruct (decide (length (set_of m (slot a)) = 4%nat)) as [E4|].
    + rewrite E4. change (negb (Z.of_nat 4 =? S)) with false. cbv iota. by apply eviction_spec.
    + destruct (negb _) eqn:E; [|unfold S in E; bool_to_prop; lia].
      destruct (replacement_spec m s a) as (s' & ? & Hr2 & ?); [done..|lia|done|].
      exists s'. rewrite take_ge by (cbn; lia). done.
Qed.

Lemma fifo_check_step_pc s s' : checkCache s = Ret s' → PC (stepSimulator s') = PC s + 1.
Proof.
  intros H. cut (PC s' = PC s); [cbn; lia|].
  assert (∀ s i j a s', set_cell s i j a = Ret s' → PC s' = PC s) as Hset.
  { intros ????? Hs. unfold set_cell in Hs. inv_ret. by subst. }
  assert (∀ n s i s', shiftArray_loop s i n = Ret s' → PC s' = PC s) as Hshift.
  { induction n as [|n IH]; intros ??? Hs; cbn [shiftArray_loop] in Hs; inv_ret; [by subst|].
    etrans; [by eapply IH|by eapply Hset]. }
  unfold checkCache, ReplacementPolicy, evictionPolicy, shiftArray, incrementCacheOccupied in H.
  repeat (apply bind_Ret in H as (? & ? & H)).
  destruct (negb _); repeat (apply bind_Ret in H as (? & ? & H));
    destruct (_ =? _) in H; cbn [negb] in H; inv_ret; subst; try done.
  - cbn. by eapply Hset.
  - destruct (_ =? _) in H; inv_ret; subst; [|done]. etrans; [by eapply Hset|done].
  - cbn. etrans; [by eapply Hset|by eapply Hshift].
Qed.

Lemma fifo_repr_init below ic : (length below ≤ 16)%nat → repr ∅ (init below ic).
Proof.
  intros Hb. split_and!; [done..|]. intros i Hi. unfold set_of. rewrite lookup_empty.
  cbn [default from_option length init cacheSet cacheOccupied].
  split_and!; [lia|constructor| |]; by rewrite arr_get_replicate by (unfold S; lia).
Qed.

Lemma fifo_implements below : (length below ≤ 16)%nat →
  Implements pol PC instructionCache score (init below) checkCache stepSimulator 16 repr.
Proof.
  intros Hb. split; [exact fifo_checkCache_spec| |exact fifo_check_step_pc|].
  - intros m s Hr. by split_and!.
  - intros ic. split_and!; [by apply fifo_repr_init|done..].
Qed.
End FifoProofs.

Module LruProofs.
Import Lru.

Definition wf_set (c : cset) : Prop :=
  length (Data c) = 4%nat ∧ length (Age c) = 4%nat ∧ 0 ≤ filled c ≤ 4 ∧
  Forall (λ a, length a ≤ 16)%nat (Data c).
Definition wf (s : sim) : Prop :=
  wf_set (set1 s) ∧ wf_set (set2 s) ∧ wf_set (set3 s) ∧ wf_set (set4 s).

Lemma lru_strcpy_fits a : (length a ≤ 16)%nat → strcpy_row BITWIDTH a = Ret a.
Proof. intros Ha. unfold strcpy_row, BITWIDTH. case_if; [done|lia]. Qed.

(** The loop keeps in [min] the largest element seen. *)
Lemma getMin_loop_spec l cnt : ∀ min pos i,
  0 ≤ pos < i → l !! Z.to_nat pos = Some min → (Z.to_nat i + cnt = length l)%nat →
  (∀ j x, (j < Z.to_nat i)%nat → l !! j = Some x → x ≤ min) →
  ∃ pos' m, getMin_loop l min pos i cnt = Ret pos' ∧ 0 ≤ pos' ∧
    l !! Z.to_nat pos' = Some m ∧ ∀ j x, l !! j = Some x → x ≤ m.
Proof.
  induction cnt as [|cnt IH]; intros min pos i Hpos Hmin Hlen Hle; cbn [getMin_loop].
  { exists pos, min. split_and!; [done|lia|done|]. intros j x Hj.
    eapply Hle; [|done]. apply lookup_lt_Some in Hj. lia. }
  destruct (arr_get_in l i) as (x & -> & Hx); [lia|]. cbn [mbind outcome_bind].
  assert (∀ j y, (j < Z.to_nat (i + 1))%nat → l !! j = Some y → y ≤ min ∨ y = x) as Hle'.
  { intros j y Hj Hy. destruct (decide (j = Z.to_nat i)) as [->|]; [right; congruence|].
    left. eapply Hle; [|done]. lia. }
  case_if; apply IH; try done; try lia; intros j y Hj Hy; destruct (Hle' j y Hj Hy); lia.
Qed.

Lemma getMin_spec l : length l = 4%nat →
  ∃ pos m, getMin l = Ret pos ∧ 0 ≤ pos < 4 ∧ l !! Z.to_nat pos = Some m ∧
    ∀ j x, l !! j = Some x → x ≤ m.
Proof.
  intros Hl. unfold getMin. destruct (arr_get_in l 0) as (x & -> & Hx); [lia|].
  cbn [mbind outcome_bind]. change (Z.to_nat (E - 1)) with 3%nat.
  destruct (getMin_loop_spec l 3 x 0 1) as (pos & m & E & H0 & Hm & Hall); [lia|done|lia|..].
  - intros j y Hj Hy. assert (j = 0%nat) as -> by lia. change (Z.to_nat 0) with 0%nat in Hx.
    assert (y = x) as -> by congruence. lia.
  - exists pos, m. split_and!; try done. apply lookup_lt_Some in Hm. lia.
Qed.

Lemma put_at_spec c pos a : wf_set c → 0 ≤ pos < 4 → (length a ≤ 16)%nat →
  put_at c pos a = Ret (CSet (<[Z.to_nat pos := a]> (Data c))
    (<[Z.to_nat pos := counter c]> (Age c)) (counter c + 1) (filled c)).
Proof.
  intros (H1 & H2 & H3 & H4) Hp Ha. unfold put_at. rewrite lru_strcpy_fits by done.
  cbn [mbind outcome_bind]. rewrite arr_set_in by lia. cbn [mbind outcome_bind].
  by rewrite arr_set_in by lia.
Qed.

Lemma wf_put c pos a n f : wf_set c → (length a ≤ 16)%nat → 0 ≤ f ≤ 4 →
  wf_set (CSet (<[pos := a]> (Data c)) (<[pos := counter c]> (Age c)) n f).
Proof.
  intros (H1 & H2 & H3 & H4) Ha Hf. split_and!; cbn; rewrite ?length_insert; try done; try lia.
  by apply Forall_insert.
Qed.

Lemma add_spec c a : wf_set c → (length a ≤ 16)%nat →
  ∃ c', add c a = Ret c' ∧ wf_set c'.
Proof.
  intros Hc Ha. pose proof Hc as (H1 & H2 & H3 & H4). unfold add, append. case_if as Ef.
  - destruct (getMin_spec (Age c) H2) as (pos & m & -> & Hp & _). cbn [mbind outcome_bind].
    rewrite put_at_spec by done. eexists. split; [done|]. by apply wf_put.
  - unfold E in Ef. rewrite put_at_spec by (done || lia). cbn [mbind outcome_bind].
    eexists. split; [done|]. apply wf_put; [done..|]. cbn. lia.
Qed.

Lemma addToSet1_spec s a : wf s → arr_get (instructionCache s) (PC s) = Ret a →
  (length a ≤ 16)%nat →
  ∃ s', addToSet1 s = Ret s' ∧ wf s' ∧ PC s' = PC s ∧ score s' = score s.
Proof.
  intros (W1 & W2 & W3 & W4) Ha Hla. pose proof W1 as (H1 & H2 & H3 & H4).
  unfold addToSet1. rewrite Ha. cbn [mbind outcome_bind]. case_if as Ef.
  - destruct (getMin_spec (Age (set1 s)) H2) as (pos & m & -> & Hp & _). cbn [mbind outcome_bind].
    destruct (arr_get_in (Data (set1 s)) pos) as (d & Ed & Hd); [lia|]. rewrite Ed.
    cbn [mbind outcome_bind].
    assert (length d ≤ 16)%nat as Hld by (by eapply Forall_lookup_1 in H4).
    rewrite lru_strcpy_fits by done. cbn [mbind outcome_bind].
    apply arr_get_Ret in Ha as [Hpc Ha]. apply lookup_lt_Some in Ha.
    rewrite arr_set_in by lia. cbn [mbind outcome_bind]. rewrite arr_set_in by lia.
    cbn [mbind outcome_bind]. eexists. split; [done|]. split; [|done].
    split; [|by split_and!]. split_and!; cbn; rewrite ?length_insert; (done || lia).
  - destruct (add_spec (set1 s) a W1 Hla) as (c' & Ec & Wc). unfold add in Ec.
    apply Z.eqb_neq in Ef. rewrite Ef in Ec. rewrite Ec. cbn [mbind outcome_bind].
    eexists. split; [done|]. by split_and!.
Qed.

Lemma find_spec c a : wf_set c → ∃ pos, find c a = Ret pos ∧ (pos = -1 ∨ 0 ≤ pos < 4).
Proof.
  intros (H1 & H2 & H3 & H4). unfold find.
  assert (∀ cnt i, 0 ≤ i → i + Z.of_nat cnt ≤ 4 →
    ∃ pos, find_from (Data c) a i cnt = Ret pos ∧ (pos = -1 ∨ 0 ≤ pos < 4)) as Hloop.
  { induction cnt as [|cnt IH]; intros i Hi Hc; cbn [find_from].
    - exists (-1). auto.
    - destruct (arr_get_in (Data c) i) as (d & -> & _); [lia|]. cbn [mbind outcome_bind].
      case_if; [exists i; split; [done|lia]|]. apply IH; lia. }
  apply Hloop; lia.
Qed.

(** The branches of [replacementPolicy] that work on one of the sets. *)
Ltac solve_add :=
  intros s' Hs' Ha'; rewrite Ha'; cbn [mbind outcome_bind];
  match goal with
  | Hs : wf ?s |- context [add (?set ?s) ?a] =>
      let Hw := fresh in
      assert (wf_set (set s)) as Hw by (by destruct Hs as (? & ? & ? & ?));
      let E := fresh in
      destruct (add_spec (set s) a Hw) as (? & E & ?); [lia|]; rewrite E; cbn [mbind outcome_bind]
  end;
  eexists; split; [done|]; destruct Hs' as (? & ? & ? & ?); by split_and!.
Ltac solve_put :=
  intros pf pos Hp; cbn; rewrite_hyps; cbn [mbind outcome_bind];
  match goal with
  | Hput : ∀ c pos, _, Hw : wf_set ?c |- context [put_at ?c ?pos ?a] =>
      let E := fresh in
      destruct (Hput c pos) as (? & E & ?); [done..|]; rewrite E; cbn
  end;
  eexists; split; [done|]; by split_and!
with rewrite_hyps :=
  match goal with H : arr_get _ _ = Ret _ |- _ => rewrite H end.

(** Every access to a full-width address is safe and counted once. *)
Lemma replacementPolicy_spec s a :
  wf s → arr_get (instructionCache s) (PC s) = Ret a → length a = 16%nat →
  ∃ s' h, replacementPolicy s = Ret s' ∧ wf s' ∧ PC s' = PC s ∧
    score s' = record_access h (score s).
Proof.
  intros (W1 & W2 & W3 & W4) Ha Hla. unfold replacementPolicy. rewrite Ha.
  cbn [mbind outcome_bind]. unfold cacheSetOffsetStart, cacheSetOffsetStop.
  rewrite binaryStringRangeToInt_spec by lia. cbn [mbind outcome_bind].
  set (k := value_of a / 2 ^ 0 mod 2 ^ (1 - 0 + 1)).
  assert (∀ pf, wf (upd_score s pf)) as Hw by (intros; by split_and!).
  (* a case: the set it works on, its add function, what a hit does *)
  assert (∀ c adds, wf_set c →
    (∀ s', wf s' → arr_get (instructionCache s') (PC s') = Ret a →
      ∃ s'', adds s' = Ret s'' ∧ wf s'' ∧ PC s'' = PC s' ∧ score s'' = score s') →
    checkInstructionPos s k = find c a →
    (∀ pf pos, 0 ≤ pos < 4 → ∃ s'', replaceInstruction (upd_score s pf) k pos = Ret s'' ∧
      wf s'' ∧ PC s'' = PC s ∧ score s'' = pf) →
    ∃ s' h, policy_case s k c adds = Ret s' ∧ wf s' ∧ PC s' = PC s ∧
      score s' = record_access h (score s)) as Hcase.
  { intros c adds Hc Hadd Hfind Hrep. unfold policy_case. rewrite Hfind.
    destruct (find_spec c a Hc) as (pos & -> & Hpos). cbn [mbind outcome_bind].
    destruct (Hadd (upd_score s (incrementCacheMiss (score s)))) as (s1 & E1 & ? & ? & ?);
      [done..|].
    case_if; [by exists s1, false|]. case_if; [by exists s1, false|].
    destruct (Hrep (incrementCacheHit (score s)) pos) as (s2 & ? & ? & ? & ?); [lia|].
    by exists s2, true. }
  assert (0 ≤ k < 4) as Hk by (apply Z.mod_pos_bound; lia).
  assert (∀ c pos, wf_set c → 0 ≤ pos < 4 → ∃ c', put_at c pos a = Ret c' ∧ wf_set c') as Hput.
  { intros c pos Hc Hp. rewrite put_at_spec by (done || lia). eexists. split; [done|].
    apply wf_put; [done|lia|]. by destruct Hc as (_ & _ & ? & _). }
  unfold checkInstructionPos, replaceInstruction, addToSet2, addToSet3, addToSet4 in *.
  assert (k = 0 ∨ k = 1 ∨ k = 2 ∨ k = 3) as [Ek|[Ek|[Ek|Ek]]] by lia; rewrite Ek in *; cbn [Z.eqb Pos.eqb] in *.
  - apply Hcase; [done| |by rewrite Ha|].
    + intros s' Hs' Ha'. apply (addToSet1_spec _ a); [done..|lia].
    + solve_put.
  - apply Hcase; [done| |by rewrite Ha|]; [solve_add|solve_put].
  - apply Hcase; [done| |by rewrite Ha|]; [solve_add|solve_put].
  - apply Hcase; [done| |by rewrite Ha|]; [solve_add|].
    intros pf pos Hp. cbn. rewrite Ha. by eexists.
Qed.
End LruProofs.

(** ** The simulators are correct

    A run over a trace of full-width addresses returns, its cache represents
    the cache of the reference policy, and its score is the reference score:
    one tally per instruction executed. *)

(** Assignment5 [simulator.c] is a direct-mapped cache of 16 lines: for
    every trace of at most [ADDRESSES] lines of 16 characters and every
    sequence of answers that stops within the trace, the program ends, and
    its hits, misses and latency are those of the cache that remembers the
    last address of every line. *)
Theorem direct_simulator_correct (lines : list cstring) (answers : list Z) :
  let n := executed char_y answers (Z.to_nat Direct.ADDRESSES) in
  let run := run_policy DirectProofs.pol ∅ perf0 (take n (chomp <$> lines)) in
  Forall (λ l, length l = 17%nat) lines → Z.of_nat (length lines) ≤ Direct.ADDRESSES →
  (n ≤ length lines)%nat →
  ∃ s, Direct.main lines answers = Ret s ∧ DirectProofs.repr run.1 s ∧ Direct.score s = run.2 ∧
    cacheHit (Direct.score s) + cacheMisses (Direct.score s) = Z.of_nat n ∧
    totalLatency (Direct.score s) =
      cacheHit (Direct.score s) + 100 * cacheMisses (Direct.score s).
Proof.
  intros n run Hw Hl Hn.
  by apply (main_policy DirectProofs.pol (impl := DirectProofs.direct_implements)).
Qed.

(** The three addresses 5, 5 and 21 (same line), then the answer [n]. *)
Lemma direct_simulator_correct_witness :
  let lines := [digits 16 5 ++ [10]; digits 16 5 ++ [10]; digits 16 21 ++ [10]] in
  Forall (λ l, length l = 17%nat) lines ∧
  ∃ s, Direct.main lines [121; 121; 110] = Ret s ∧ Direct.score s = Perf 1 2 201.
Proof.
  split; [by repeat constructor|].
  destruct (direct_simulator_correct
    [digits 16 5 ++ [10]; digits 16 5 ++ [10]; digits 16 21 ++ [10]] [121; 121; 110])
    as (s & E & _ & Sc & _).
  - rewrite !Forall_cons. done.
  - by vm_compute.
  - vm_compute. lia.
  - exists s. split; [exact E|]. rewrite Sc. vm_compute. done.
Defined.



(** Lab6 [simulator.c] is a direct-mapped cache of four lines indexed by bits
    1 and 2 of the address. *)
Theorem lab6_simulator_correct (lines : list cstring) (answers : list Z) :
  let n := executed char_y answers (Z.to_nat Lab6.ADDRESSES) in
  let run := run_policy Lab6Proofs.pol ∅ perf0 (take n (chomp <$> lines)) in
  Forall (λ l, length l = 9%nat) lines → Z.of_nat (length lines) ≤ Lab6.ADDRESSES →
  (n ≤ length lines)%nat →
  ∃ s, Lab6.main lines answers = Ret s ∧ Lab6Proofs.repr run.1 s ∧ Lab6.score s = run.2 ∧
    cacheHit (Lab6.score s) + cacheMisses (Lab6.score s) = Z.of_nat n ∧
    totalLatency (Lab6.score s) = cacheHit (Lab6.score s) + 100 * cacheMisses (Lab6.score s).
Proof.
  intros n run Hw Hl Hn.
  by apply (main_policy Lab6Proofs.pol (impl := Lab6Proofs.lab6_implements)).
Qed.

(** The miss percentage of Lab6 is computed with integer division: it is 100
    without a hit and 0 as soon as there is one, whatever the misses. *)
Theorem lab6_percent (p : perf) :
  0 ≤ cacheHit p → 0 ≤ cacheMisses p → 0 < cacheHit p + cacheMisses p →
  Lab6.cachePercent p = if cacheHit p =? 0 then 100 else 0.
Proof.
  intros Hh Hm Ht. unfold Lab6.cachePercent. case_if as E.
  - rewrite E in *. rewrite Z.add_0_l, Z.quot_same by lia. done.
  - rewrite Z.quot_small by lia. done.
Qed.

(** In [mySimulator.c] [getMin] returns a position of the LARGEST age, and a
    full set then overwrites that entry: the one used last. *)
Theorem lru_replaces_largest_age (c : Lru.cset) (a : cstring) :
  LruProofs.wf_set c → Lru.filled c = Lru.E → length a = 16%nat →
  ∃ pos age c', Lru.getMin (Lru.Age c) = Ret pos ∧ Lru.Age c !! Z.to_nat pos = Some age ∧
    (∀ j x, Lru.Age c !! j = Some x → x ≤ age) ∧
    Lru.add c a = Ret c' ∧ Lru.Data c' = <[Z.to_nat pos := a]> (Lru.Data c) ∧
    LruProofs.wf_set c'.
Proof.
  intros Hc Hf Ha. pose proof Hc as (_ & Hage & _ & _).
  destruct (LruProofs.getMin_spec _ Hage) as (pos & age & E & Hp & Hl & Hmax).
  exists pos, age. unfold Lru.add. rewrite Hf, Z.eqb_refl, E. cbn [mbind outcome_bind].
  rewrite LruProofs.put_at_spec by (done || lia). eexists. split_and!; try done.
  rewrite Hf. apply LruProofs.wf_put; [done|lia|]. unfold Lru.E. lia.
Qed.
