(* ===== verification/Trace.v ===== *)
(** * The trace generators (Lab6 [trace.c]; Assignment5 [adverseTrace.c],
    [friendlyTrace.c])

    A generator writes lines of binary digits; [rand] is the sequence the
    library's [rand()] returns, consumed in order. *)

From stdpp Require Import base numbers list gmap strings.
From S2P Require Import Prelude Binary CacheSim.

Open Scope Z_scope.

Definition newline : Z := 10.

(** [intToBinaryString] printed with [%s\n]. *)
Definition line_of (w v : Z) : outcome cstring :=
  bin ← intToBinaryString v w; Ret (bin ++ [newline]).

Fixpoint count_loop (value : Z → Z) (w i : Z) (cnt : nat) : outcome (list cstring) :=
  match cnt with
  | O => Ret []
  | S cnt =>
      l ← line_of w (value i);
      ls ← count_loop value w (i + 1) cnt;
      Ret (l :: ls)
  end.

(** Lab6 [Trace], [randomTrace] and [singleTrace]. *)
Definition Trace (size range : Z) : outcome (list cstring) :=
  count_loop (λ i, Z.rem i range) 8 0 (Z.to_nat size).
Definition randomTrace (rand : nat → Z) (size range : Z) : outcome (list cstring) :=
  count_loop (λ i, Z.rem (rand (Z.to_nat i)) range) 8 0 (Z.to_nat size).
Definition singleTrace (size value : Z) : outcome (list cstring) :=
  count_loop (λ _, value) 8 0 (Z.to_nat size).

(** Assignment5 [adverseTrace]. *)
Definition adverseTrace (size range : Z) : outcome (list cstring) :=
  count_loop (λ i, Z.rem i range) 16 0 (Z.to_nat size).

(** The inner loop of [realisticTrace] and [friendlyTrace]: three lines a
    round for ten rounds, or until [size] is reached.  Gives the lines and [i]. *)
Fixpoint burst (b1 b2 b3 : cstring) (size i : Z) (rounds : nat) : list cstring * Z :=
  match rounds with
  | O => ([], i)
  | S rounds =>
      if i <? size then
        let '(ls, i') := burst b1 b2 b3 size (i + 3) rounds in (b1 :: b2 :: b3 :: ls, i')
      else ([], i)
  end.

Definition three (rand : nat → Z) (k : nat) (w range : Z) : outcome (cstring * cstring * cstring) :=
  b1 ← line_of w (Z.rem (rand k) range);
  b2 ← line_of w (Z.rem (rand (k + 1)%nat) range);
  b3 ← line_of w (Z.rem (rand (k + 2)%nat) range);
  Ret (b1, b2, b3).

Fixpoint realistic_loop (rand : nat → Z) (size range i : Z) (k fuel : nat) : outcome (list cstring) :=
  if i <? size then
    match fuel with
    | O => NoFuel
    | S fuel =>
        if Z.rem (rand k) 2 =? 0 then
          l ← line_of 8 (Z.rem (rand (k + 1)%nat) range);
          ls ← realistic_loop rand size range (i + 1) (k + 2) fuel;
          Ret (l :: ls)
        else
          '(b1, b2, b3) ← three rand (k + 1) 8 range;
          let '(ls, i) := burst b1 b2 b3 size i 10 in
          rest ← realistic_loop rand size range (i + 1) (k + 4) fuel;
          Ret (ls ++ rest)
    end
  else Ret [].
(** Every round of the outer loop advances [i]. *)
Definition realisticTrace (rand : nat → Z) (size range : Z) : outcome (list cstring) :=
  realistic_loop rand size range 0 0 (Z.to_nat size).

Fixpoint friendly_loop (rand : nat → Z) (size range i : Z) (k fuel : nat) : outcome (list cstring) :=
  if i <? size then
    match fuel with
    | O => NoFuel
    | S fuel =>
        '(b1, b2, b3) ← three rand k 16 range;
        let '(ls, i) := burst b1 b2 b3 size i 10 in
        rest ← friendly_loop rand size range i (k + 3) fuel;
        Ret (ls ++ rest)
    end
  else Ret [].
Definition friendlyTrace (rand : nat → Z) (size range : Z) : outcome (list cstring) :=
  friendly_loop rand size range 0 0 (Z.to_nat size).

(** ** What the generators write *)

Lemma line_of_spec (w : nat) v : (w ≤ 31)%nat → 0 ≤ v < 2 ^ Z.of_nat w →
  line_of (Z.of_nat w) v = Ret (digits w v ++ [newline]).
Proof. intros Hw Hv. unfold line_of. by rewrite intToBinaryString_spec. Qed.

Lemma chomp_line w v : chomp (digits w v ++ [newline]) = digits w v.
Proof.
  unfold chomp. rewrite length_app. cbn [length]. rewrite Nat.add_sub.
  by rewrite take_app_length.
Qed.

Lemma count_loop_spec (w : nat) value cnt : ∀ i,
  (w ≤ 31)%nat → (∀ j, i ≤ j < i + Z.of_nat cnt → 0 ≤ value j < 2 ^ Z.of_nat w) →
  count_loop value (Z.of_nat w) i cnt =
    Ret ((λ j, digits w (value j) ++ [newline]) <$> seqZ i (Z.of_nat cnt)).
Proof.
  induction cnt as [|cnt IH]; intros i Hw Hv; [done|]. cbn [count_loop].
  rewrite line_of_spec by (done || (apply Hv; lia)). cbn [mbind outcome_bind].
  rewrite IH by (done || (intros; apply Hv; lia)). cbn [mbind outcome_bind].
  rewrite (seqZ_cons i) by lia. cbn [fmap list_fmap]. do 3 f_equal. f_equal; lia.
Qed.

Lemma digits_inj w v v' : 0 ≤ v < 2 ^ Z.of_nat w → 0 ≤ v' < 2 ^ Z.of_nat w →
  digits w v = digits w v' → v = v'.
Proof. intros Hv Hv' E. rewrite <-(digits_value w v), <-(digits_value w v') by done. by rewrite E. Qed.

(** The lines of the adverse trace, and the addresses the simulators load. *)
Lemma adverseTrace_spec size range : 0 ≤ size ≤ range → range ≤ 2 ^ 16 →
  adverseTrace size range = Ret ((λ j, digits 16 j ++ [newline]) <$> seqZ 0 size).
Proof.
  intros Hs Hr. unfold adverseTrace.
  rewrite (count_loop_spec 16 (λ i, Z.rem i range)); [|lia|].
  2:{ intros j Hj. rewrite Z.rem_small by lia. change (2 ^ Z.of_nat 16) with (2 ^ 16). lia. }
  rewrite Z2Nat.id by lia. f_equal. apply list_fmap_ext. intros i j Hj.
  apply lookup_seqZ in Hj as [-> Hj]. by rewrite Z.rem_small by lia.
Qed.

Lemma chomp_lines (vs : list Z) w :
  chomp <$> ((λ j, digits w j ++ [newline]) <$> vs) = digits w <$> vs.
Proof. rewrite <-list_fmap_compose. apply list_fmap_ext. intros. apply chomp_line. Qed.

Lemma digits_NoDup (vs : list Z) w :
  NoDup vs → Forall (λ v, 0 ≤ v < 2 ^ Z.of_nat w) vs → NoDup (digits w <$> vs).
Proof.
  induction 1 as [|v vs Hn Hnd IH]; intros Hf; [constructor|]. apply Forall_cons in Hf as [Hv Hf].
  cbn. constructor; [|by apply IH]. rewrite list_elem_of_fmap. intros (v' & E & Hv').
  rewrite Forall_forall in Hf. apply digits_inj in E; [by subst|done|by apply Hf].
Qed.

(** A simulator that implements a lawful policy misses on every instruction
    of the adverse trace. *)
Section adverse.
Context (p : policy) `{!PolicyLaws p} {S : Type} {pc : S → Z} {trace : S → list cstring}
  {score : S → perf} {init : list cstring → S} {check : S → outcome S} {step : S → S}
  {repr : cache p → S → Prop} {impl : Implements p pc trace score init check step 16 repr}.

Lemma adverse_misses N answers : 0 ≤ N ≤ 2 ^ 16 →
  ∃ lines s, adverseTrace N N = Ret lines ∧
    (ic ← loadTrace 16 (replicate (Z.to_nat N) []) 0 lines;
     main_loop pc check step N char_y answers (init ic) (Z.to_nat N)) = Ret s ∧
    score s = (let n := Z.of_nat (executed char_y answers (Z.to_nat N)) in Perf 0 n (100 * n)).
Proof.
  intros HN. exists ((λ j, digits 16 j ++ [newline]) <$> seqZ 0 N).
  set (lines := _ <$> _). set (n := executed _ _ _).
  assert (Z.of_nat (length lines) = N) as Hlen by (unfold lines; rewrite length_fmap, length_seqZ; lia).
  assert (n ≤ length lines)%nat as Hn
    by (pose proof (executed_le (Z.to_nat N) char_y answers); unfold n; lia).
  destruct (main_policy p (impl := impl) N lines answers) as (s & E & _ & Sc & Ht & Hlat).
  - lia.
  - apply Forall_fmap, Forall_forall. intros v _.
    change (length (digits 16 v ++ [newline]) = 17%nat). by rewrite length_app, digits_length.
  - lia.
  - exact Hn.
  - exists s. split_and!; [by rewrite adverseTrace_spec by lia|exact E|].
    destruct (run_policy_distinct p (take n (chomp <$> lines)) (empty_cache p) perf0) as [Hh Hm].
    + unfold lines. rewrite chomp_lines. apply (sublist_NoDup _ (digits 16 <$> seqZ 0 N)); [|apply sublist_take].
      apply digits_NoDup; [apply NoDup_seqZ|]. apply Forall_seqZ. intros v Hv.
      change (2 ^ Z.of_nat 16) with (2 ^ 16). lia.
    + intros a _. rewrite held_empty. apply not_elem_of_nil.
    + fold n in Sc, Ht. rewrite <-Sc in Hh, Hm.
      destruct (score s) as [h m t]. cbn [cacheHit cacheMisses totalLatency perf0] in *.
      subst h. f_equal; lia.
Qed.
End adverse.

(** The adverse trace is adverse: whatever the user answers, both
    Assignment5 simulators miss on every instruction they execute. *)
Theorem adverse_trace_all_misses (below : cstring) (answers : list Z) :
  let n := Z.of_nat (executed char_y answers (Z.to_nat Direct.ADDRESSES)) in
  (length below ≤ 16)%nat →
  ∃ lines s t, adverseTrace Direct.ADDRESSES 16384 = Ret lines ∧
    Direct.main lines answers = Ret s ∧ Direct.score s = Perf 0 n (100 * n) ∧
    Fifo.main below lines answers = Ret t ∧ Fifo.score t = Perf 0 n (100 * n).
Proof.
  intros n Hb.
  destruct (adverse_misses DirectProofs.pol (impl := DirectProofs.direct_implements)
    Direct.ADDRESSES answers) as (lines & s & E & Es & Ss); [unfold Direct.ADDRESSES; lia|].
  destruct (adverse_misses FifoProofs.pol (impl := FifoProofs.fifo_implements below Hb)
    Fifo.ADDRESSES answers) as (lines' & t & E' & Et & St); [unfold Fifo.ADDRESSES; lia|].
  change Fifo.ADDRESSES with Direct.ADDRESSES in E'. rewrite E in E'. injection E' as <-.
  exists lines, s, t. split_and!; [exact E|exact Es|exact Ss|exact Et|exact St].
Qed.

Lemma adverse_trace_all_misses_witness :
  ∃ lines s t, adverseTrace Direct.ADDRESSES 16384 = Ret lines ∧
    Direct.main lines [97] = Ret s ∧ Fifo.main [] lines [97] = Ret t ∧
    cacheHit (Direct.score s) = 0 ∧ cacheMisses (Fifo.score t) = 16384.
Proof.
  destruct (adverse_trace_all_misses [] [97]) as (lines & s & t & E & Es & Ss & Et & St);
    [cbn; lia|].
  exists lines, s, t. rewrite Ss, St. split_and!; try done.
Defined.

(** ** The friendly trace is too long *)
Lemma burst_spec b1 b2 b3 size rounds : ∀ i ls i',
  burst b1 b2 b3 size i rounds = (ls, i') →
  i ≤ i' ∧ i' = i + Z.of_nat (length ls) ∧ (rounds ≠ 0%nat → i < size → i + 3 ≤ i') ∧
  (3 | i' - i) ∧ (i' < size + 3 ∨ i' = i).
Proof.
  induction rounds as [|rounds IH]; intros i ls i' E; cbn [burst] in E.
  { injection E as <- <-. cbn. split_and!; try lia. exists 0. lia. }
  destruct (i <? size) eqn:Ei; bool_to_prop.
  - destruct (burst b1 b2 b3 size (i + 3) rounds) as [ls1 i1] eqn:E1. injection E as <- <-.
    apply IH in E1 as (H1 & H2 & H3 & [q Hq] & H5). cbn [length]. split_and!; try lia.
    exists (q + 1). lia.
  - injection E as <- <-. cbn. split_and!; try lia. exists 0. lia.
Qed.

Lemma three_spec rand k range : (∀ n, 0 ≤ rand n) → 0 < range ≤ 2 ^ 16 →
  ∃ b, three rand k 16 range = Ret b.
Proof.
  intros Hr Hrange.
  assert (∀ n, ∃ b, line_of 16 (Z.rem (rand n) range) = Ret b) as Hl.
  { intros n. eexists. apply (line_of_spec 16); [lia|]. change (Z.of_nat 16) with 16.
    pose proof (Z.rem_bound_pos (rand n) range (Hr n)). lia. }
  unfold three. destruct (Hl k) as [b1 ->], (Hl (k + 1)%nat) as [b2 ->], (Hl (k + 2)%nat) as [b3 ->].
  by eexists.
Qed.

Lemma friendly_loop_spec rand size range fuel : ∀ i k,
  (∀ n, 0 ≤ rand n) → 0 < range ≤ 2 ^ 16 → i < size + 3 → (size - i ≤ Z.of_nat fuel) →
  ∃ ls, friendly_loop rand size range i k fuel = Ret ls ∧
    (3 | Z.of_nat (length ls)) ∧ size - i ≤ Z.of_nat (length ls) < Z.max 1 (size - i + 3).
Proof.
  induction fuel as [|fuel IH]; intros i k Hr Hrange Hi Hf; cbn [friendly_loop].
  { case_if; [lia|]. exists []. split_and!; [done|by exists 0|cbn; lia..]. }
  case_if; [|exists []; split_and!; [done|by exists 0|cbn; lia..]].
  destruct (three_spec rand k range Hr Hrange) as [[[b1 b2] b3] ->]. cbn [mbind outcome_bind].
  destruct (burst b1 b2 b3 size i 10) as [ls i'] eqn:Eb.
  apply burst_spec in Eb as (H1 & H2 & H3 & [q Hq] & H5).
  specialize (H3 ltac:(lia) ltac:(lia)).
  destruct (IH i' (k + 3)%nat) as (rest & E & [q' Hq'] & Hlen); [done..|lia|lia|].
  rewrite E. cbn [mbind outcome_bind]. exists (ls ++ rest). rewrite length_app.
  split_and!; [done| |lia..]. exists (q + q'). lia.
Qed.

(** Loading more lines than there are rows writes outside the array. *)
Lemma loadTrace_overflow w lines : ∀ ic pos,
  0 ≤ pos ≤ Z.of_nat (length ic) → Z.of_nat (length ic) < pos + Z.of_nat (length lines) →
  loadTrace w ic pos lines = Undef.
Proof.
  induction lines as [|l lines IH]; intros ic pos Hp Hl; [cbn in Hl; lia|]. cbn [loadTrace].
  unfold strcpy_row. destruct (_ <=? w); [|done]. cbn [mbind outcome_bind length] in *.
  destruct (decide (pos < Z.of_nat (length ic))).
  - rewrite arr_set_in by lia. cbn [mbind outcome_bind]. apply IH; rewrite length_insert; lia.
  - unfold arr_set. destruct (_ && _) eqn:E; [bool_to_prop; lia|done].
Qed.

(** [friendlyTrace] writes its lines in threes: with its constants it
    always writes 16386 lines, two more than the simulators have rows for, so
    that loading its output overruns [instructionCache]. *)
Theorem friendly_trace_overflows (rand : nat → Z) (answers : list Z) (below : cstring) :
  (∀ n, 0 ≤ rand n) →
  ∃ lines, friendlyTrace rand 16384 16384 = Ret lines ∧ length lines = Z.to_nat 16386 ∧
    Direct.main lines answers = Undef ∧ Fifo.main below lines answers = Undef.
Proof.
  intros Hr. destruct (friendly_loop_spec rand 16384 16384 (Z.to_nat 16384) 0 0)
    as (lines & E & [q Hq] & Hlen); [done|lia|lia|lia|].
  assert (Z.of_nat (length lines) = 16386) as Hl by lia.
  exists lines. split_and!; [exact E|lia|..].
  - unfold Direct.main, Direct.ADDRESSES, Direct.BITWIDTH.
    rewrite loadTrace_overflow; [done|rewrite length_replicate; lia..].
  - unfold Fifo.main, Fifo.ADDRESSES, Fifo.BITWIDTH.
    rewrite loadTrace_overflow; [done|rewrite length_replicate; lia..].
Qed.

Lemma friendly_trace_overflows_witness :
  ∃ lines, friendlyTrace (λ n, Z.of_nat n) 16384 16384 = Ret lines ∧
    length lines = Z.to_nat 16386 ∧ Direct.main lines [97] = Undef ∧ Fifo.main [] lines [97] = Undef.
Proof. apply (friendly_trace_overflows (λ n, Z.of_nat n)). lia. Defined.
