(* ===== verification/MyMalloc.v ===== *)
(** * The student allocators (Assignment5 [mymalloc.c], Assignment6 [mymalloc.c])

    Both keep blocks in singly linked lists whose headers live in the heap.
    The heap is the map from header addresses to headers; [sbrk] moves the
    program break up to a limit.  [BlockList] holds the list operations the two
    programs share, [A5] the first-fit allocator, [A6] the one with size
    classes. *)

From stdpp Require Import base numbers list gmap sets strings.
From S2P Require Import Prelude.

Open Scope Z_scope.

Definition u64 (x : Z) : Z := x mod 2 ^ 64.
Definition i64 (x : Z) : Z := (x + 2 ^ 63) mod 2 ^ 64 - 2 ^ 63.

Lemma u64_small x : 0 ≤ x < 2 ^ 64 → u64 x = x.
Proof. intros. unfold u64. by rewrite Z.mod_small. Qed.
Lemma i64_small x : - 2 ^ 63 ≤ x < 2 ^ 63 → i64 x = x.
Proof. intros. unfold i64. rewrite Z.mod_small; lia. Qed.

Record block := Block { size : Z; in_use : Z; next : Z }.
Abbreviation heap := (gmap Z block).

(** [sizeof(block)] and [header + BLOCK_SIZE]: the addition is on a [block*],
    so it advances by [BLOCK_SIZE] blocks. *)
Definition BLOCK_SIZE : Z := 24.
Definition payload (header : Z) : Z := header + BLOCK_SIZE * BLOCK_SIZE.
Definition header_of (ptr : Z) : Z := ptr - BLOCK_SIZE * BLOCK_SIZE.

(** ** List operations both programs use *)
Module BlockList.

Definition get (m : heap) (p : Z) : outcome block := opt (m !! p).
Definition set_use (m : heap) (p u : Z) : outcome heap :=
  b ← get m p; Ret (<[p := Block (size b) u (next b)]> m).
Definition set_next (m : heap) (p n : Z) : outcome heap :=
  b ← get m p; Ret (<[p := Block (size b) (in_use b) n]> m).

(** The search loop of [get_free_block]. *)
Fixpoint search (m : heap) (s curr : Z) (fuel : nat) : outcome Z :=
  if curr =? 0 then Ret 0
  else
    match fuel with
    | O => NoFuel
    | S fuel =>
        b ← get m curr;
        if (in_use b =? 0) && (s <=? size b) then Ret curr else search m s (next b) fuel
    end.

(** [while (header != curr && curr != NULL) curr = curr->next]. *)
Fixpoint walk (m : heap) (header curr : Z) (fuel : nat) : outcome Z :=
  if negb (header =? curr) && negb (curr =? 0) then
    match fuel with
    | O => NoFuel
    | S fuel => b ← get m curr; walk m header (next b) fuel
    end
  else Ret curr.

(** Linking a new block behind the tail; gives the heap, head and tail. *)
Definition append (m : heap) (head tail header : Z) : outcome (heap * Z * Z) :=
  let head := if head =? 0 then header else head in
  m ← (if negb (tail =? 0) then set_next m tail header else Ret m);
  Ret (m, head, header).

(** *** The list of blocks that starts at a pointer *)
Record cell := Cell { addr : Z; csize : Z; cuse : Z }.

Definition first (l : list cell) : Z := match l with [] => 0 | c :: _ => addr c end.
Definition final (l : list cell) : Z := from_option addr 0 (last l).

Fixpoint chain (m : heap) (l : list cell) : Prop :=
  match l with
  | [] => True
  | c :: l => addr c ≠ 0 ∧ m !! addr c = Some (Block (csize c) (cuse c) (first l)) ∧ chain m l
  end.

Record blist (m : heap) (h t : Z) (l : list cell) : Prop := {
  bl_head : h = first l;
  bl_tail : t = final l;
  bl_chain : chain m l;
  bl_nodup : NoDup (addr <$> l)
}.

Definition fits (s : Z) (c : cell) : bool := (cuse c =? 0) && (s <=? csize c).

(** The first cell the search accepts. *)
Fixpoint first_fit (s : Z) (l : list cell) : option cell :=
  match l with
  | [] => None
  | c :: l => if fits s c then Some c else first_fit s l
  end.

Lemma first_fit_Some s l c : first_fit s l = Some c → c ∈ l ∧ fits s c = true.
Proof.
  induction l as [|d l IH]; cbn; [done|]. destruct (fits s d) eqn:E.
  - intros [= ->]. split; [left|done].
  - intros H. apply IH in H as [? ?]. split; [by right|done].
Qed.

Lemma chain_lookup m l c : chain m l → c ∈ l →
  addr c ≠ 0 ∧ ∃ n, m !! addr c = Some (Block (csize c) (cuse c) n).
Proof.
  induction l as [|d l IH]; [by intros _ ?%not_elem_of_nil|]. intros (Hd & Hl & Hc).
  intros [->|?]%elem_of_cons; [eauto|by apply IH].
Qed.

Lemma search_spec m s l : ∀ fuel, chain m l → (length l ≤ fuel)%nat →
  search m s (first l) fuel = Ret (from_option addr 0 (first_fit s l)).
Proof.
  induction l as [|c l IH]; intros fuel Hc Hf.
  { by destruct fuel. }
  destruct Hc as (Hnz & Hl & Hc). destruct fuel as [|fuel]; [cbn in Hf; lia|].
  cbn [search first first_fit]. case_if; [done|]. unfold get. rewrite Hl.
  cbn [opt mbind outcome_bind in_use size next]. unfold fits.
  destruct (_ && _); [done|]. apply IH; [done|cbn in Hf; lia].
Qed.

Lemma walk_spec m h l : ∀ fuel, chain m l → (length l ≤ fuel)%nat → h ≠ 0 →
  walk m h (first l) fuel = Ret (if bool_decide (h ∈ addr <$> l) then h else 0).
Proof.
  induction l as [|c l IH]; intros fuel Hc Hf Hh.
  { destruct fuel; cbn; by rewrite andb_false_r. }
  destruct Hc as (Hnz & Hl & Hc). destruct fuel as [|fuel]; [cbn in Hf; lia|].
  cbn [walk first fmap list_fmap]. apply Z.eqb_neq in Hnz. rewrite Hnz. cbn [negb]. rewrite andb_true_r.
  destruct (h =? addr c) eqn:E; bool_to_prop; cbn [negb].
  - rewrite bool_decide_true; [by rewrite E|]. rewrite E. left.
  - unfold get. rewrite Hl. cbn [opt mbind outcome_bind next]. rewrite IH by (done || cbn in Hf; lia).
    f_equal. apply Z.eqb_neq in Hnz. erewrite bool_decide_ext; [done|].
    change (h ∈ addr <$> l ↔ h ∈ addr c :: (addr <$> l)). rewrite elem_of_cons. naive_solver.
Qed.

Lemma chain_insert_other m l a b : a ∉ addr <$> l → chain m l → chain (<[a := b]> m) l.
Proof.
  induction l as [|c l IH]; [done|]. cbn. rewrite not_elem_of_cons. intros [Ha Hn] (Hz & Hl & Hc).
  split_and!; [done|by rewrite lookup_insert_ne|by apply IH].
Qed.

Lemma chain_dom m l : chain m l → NoDup (addr <$> l) → (length l ≤ base.size m)%nat.
Proof.
  intros Hc Hnd. rewrite <-(length_fmap addr), <-(size_list_to_set (C := gset Z) (addr <$> l)) by done.
  rewrite <-(size_dom (D := gset Z) m). apply subseteq_size. intros a.
  rewrite elem_of_list_to_set, list_elem_of_fmap. intros (c & -> & Hin).
  apply elem_of_dom. destruct (chain_lookup m l c Hc Hin) as (_ & n & ->). done.
Qed.

(** Changing the use of one cell. *)
Lemma blist_set_use m h t l i c u :
  blist m h t l → l !! i = Some c →
  ∃ m', set_use m (addr c) u = Ret m' ∧
    blist m' h t (<[i := Cell (addr c) (csize c) u]> l) ∧
    (∀ a, a ≠ addr c → m' !! a = m !! a).
Proof.
  intros [Hh Ht Hc Hnd] Hi. unfold set_use, get.
  destruct (chain_lookup m l c Hc) as (Hz & n & Hl); [by eapply list_elem_of_lookup_2|].
  rewrite Hl. cbn [opt mbind outcome_bind size next]. eexists. split; [done|].
  assert (addr <$> <[i := Cell (addr c) (csize c) u]> l = addr <$> l) as Ea.
  { rewrite list_fmap_insert. cbn. rewrite list_insert_id; [done|]. by rewrite list_lookup_fmap, Hi. }
  split; [split|].
  - rewrite Hh. destruct l as [|d l]; [done|]. destruct i; [by injection Hi as ->|done].
  - rewrite Ht. unfold final. rewrite !last_lookup, length_insert.
    destruct (decide (i = pred (length l))) as [->|Hne].
    + rewrite Hi, list_lookup_insert_eq; [done|]. by apply lookup_lt_Some in Hi.
    + by rewrite list_lookup_insert_ne.
  - clear Hh Ht Ea. revert i Hi Hnd Hc. induction l as [|d l IH]; intros i Hi Hnd Hc; [done|].
    cbn in Hnd. apply NoDup_cons in Hnd as [Hn Hnd]. destruct Hc as (Hdz & Hd & Hc).
    destruct i as [|i]; cbn in Hi.
    + injection Hi as ->. rewrite Hd in Hl. injection Hl as <-.
      cbn. rewrite lookup_insert_eq. split_and!; [done..|]. by apply chain_insert_other.
    + cbn. assert (addr d ≠ addr c) as Hdc.
      { intros E. apply Hn. rewrite E. apply list_elem_of_fmap. exists c.
        split; [done|]. by eapply list_elem_of_lookup_2. }
      rewrite lookup_insert_ne by done. split_and!; [done| |by apply IH]. rewrite Hd. do 2 f_equal.
      destruct l as [|e l]; [done|]. destruct i; [by injection Hi as ->|done].
  - by rewrite Ea.
  - intros a Ha. by rewrite lookup_insert_ne.
Qed.

Lemma chain_snoc m l c a sz u n :
  NoDup (addr <$> l ++ [c]) → a ≠ 0 → a ∉ addr <$> l ++ [c] → m !! a = Some (Block sz u 0) →
  m !! addr c = Some (Block (csize c) (cuse c) n) → chain m (l ++ [c]) →
  chain (<[addr c := Block (csize c) (cuse c) a]> m) (l ++ [c; Cell a sz u]).
Proof.
  intros Hnd Ha Hn Hm Hl. induction l as [|d l IH]; intros Hc.
  - destruct Hc as (Hz & _ & _). cbn in Hn |- *. rewrite lookup_insert_eq, lookup_insert_ne; [done|].
    set_solver.
  - destruct Hc as (Hz & Hd & Hc). cbn in Hnd, Hn. apply NoDup_cons in Hnd as [Hdn Hnd].
    apply not_elem_of_cons in Hn as [_ Hn]. cbn. split_and!; [done| |by apply IH].
    rewrite lookup_insert_ne; [|set_solver]. rewrite Hd. by destruct l.
Qed.

(** Linking a new block. *)
Lemma blist_append m h t l a sz u :
  blist m h t l → a ≠ 0 → a ∉ addr <$> l → m !! a = Some (Block sz u 0) →
  ∃ m', append m h t a = Ret (m', first (l ++ [Cell a sz u]), a) ∧
    blist m' (first (l ++ [Cell a sz u])) a (l ++ [Cell a sz u]) ∧
    (∀ x, x ∉ addr <$> l → m' !! x = m !! x).
Proof.
  intros [Hh Ht Hc Hnd] Ha Hn Hm. unfold append.
  destruct l as [|c0 l0 _] using rev_ind.
  { subst h t. cbn. exists m. split_and!; try done. split; cbn; try done. by apply NoDup_singleton. }
  subst h t. unfold final. rewrite last_snoc. cbn [from_option].
  destruct (chain_lookup m (l0 ++ [c0]) c0 Hc) as (Hz & n & Hl); [set_solver|].
  destruct (addr c0 =? 0) eqn:E0; [by apply Z.eqb_eq in E0|]. cbn [negb].
  unfold set_next, get. rewrite Hl. cbn [opt mbind outcome_bind size in_use]. eexists. split.
  { repeat f_equal. destruct l0; cbn; [by rewrite E0|]. destruct Hc as (Hz' & _ & _).
    apply Z.eqb_neq in Hz'. by rewrite Hz'. }
  rewrite fmap_app in Hn, Hnd. cbn in Hn, Hnd.
  assert (addr c0 ≠ a) by set_solver.
  split; [split|].
  - done.
  - unfold final. by rewrite last_snoc.
  - rewrite <-app_assoc. eapply chain_snoc; try done; by rewrite fmap_app.
  - rewrite !fmap_app. cbn. apply NoDup_app. split_and!; [done|set_solver|apply NoDup_singleton].
  - intros x Hx. rewrite lookup_insert_ne; set_solver.
Qed.
End BlockList.

(** ** Assignment5: first fit over one list *)
Module A5.
Import BlockList.

Record st := St { mem : heap; head : Z; tail : Z; brk : Z; locked : bool }.

Section a5.
(** How far the system lets the break go. *)
Context (limit : Z).

Definition lock : M st unit := fun s =>
  if locked s then Panic "deadlock" else Ret (tt, St (mem s) (head s) (tail s) (brk s) true).
Definition unlock : M st unit := fun s =>
  Ret (tt, St (mem s) (head s) (tail s) (brk s) false).

(** The C library's [sbrk]: the old break, or minus one. *)
Definition sbrk (inc : Z) : M st Z := fun s =>
  if (0 <=? brk s + inc) && (brk s + inc <=? limit) then
    Ret (brk s, St (mem s) (head s) (tail s) (brk s + inc) (locked s))
  else Ret (-1, s).

Definition set_mem (m : heap) : M st unit := fun s =>
  Ret (tt, St m (head s) (tail s) (brk s) (locked s)).
Definition set_ends (h t : Z) : M st unit := fun s =>
  Ret (tt, St (mem s) h t (brk s) (locked s)).
(** Writing the three fields of a header the break must cover. *)
Definition write_header (p : Z) (b : block) : M st unit := fun s =>
  if p + BLOCK_SIZE <=? brk s then Ret (tt, St (<[p := b]> (mem s)) (head s) (tail s) (brk s) (locked s))
  else Undef.

Definition get_free_block (sz : Z) : M st Z := fun s =>
  p ← search (mem s) sz (head s) (base.size (mem s)); Ret (p, s).

Definition mymalloc (sz : Z) : M st Z :=
  if sz =? 0 then mret 0
  else
    lock ;;
    header ← get_free_block sz;
    if negb (header =? 0) then
      s ← get_st;
      m ← lift (set_use (mem s) header 1);
      set_mem m ;; unlock ;; mret (payload header)
    else
      let total_size := u64 (BLOCK_SIZE + sz) in
      heap_block ← sbrk (i64 total_size);
      if heap_block =? -1 then unlock ;; mret 0
      else
        write_header heap_block (Block sz 1 0) ;;
        s ← get_st;
        '(m, h, t) ← lift (append (mem s) (head s) (tail s) heap_block);
        set_mem m ;; set_ends h t ;; unlock ;; mret (payload heap_block).

(** The loop that cuts the block before the tail loose. *)
Fixpoint unlink_tail (m : heap) (tail temp : Z) (fuel : nat) : outcome (heap * Z) :=
  if temp =? 0 then Ret (m, tail)
  else
    match fuel with
    | O => NoFuel
    | S fuel =>
        b ← get m temp;
        '(m, tail) ← (if next b =? tail then m ← set_next m temp 0; Ret (m, temp) else Ret (m, tail));
        b ← get m temp;
        unlink_tail m tail (next b) fuel
    end.

Definition myfree (ptr : Z) : M st unit :=
  if ptr =? 0 then mret tt
  else
    lock ;;
    s ← get_st;
    let header := header_of ptr in
    curr ← lift (walk (mem s) header (head s) (base.size (mem s)));
    b ← lift (get (mem s) header);
    let printed := if curr =? header then Some (size b) else None in
    programbreak ← sbrk 0;
    if ptr + size b =? programbreak then
      (if head s =? tail s then set_ends 0 0
       else
         '(m, t) ← lift (unlink_tail (mem s) (tail s) (head s) (base.size (mem s)));
         set_mem m ;; set_ends (head s) t) ;;
      lift (opt printed) ;;
      sbrk (i64 (u64 (0 - BLOCK_SIZE - size b))) ;;
      unlock
    else
      m ← lift (set_use (mem s) header 0);
      set_mem m ;; unlock ;;
      lift (opt printed) ;; mret tt.
End a5.

(** *** The heap as a sequence of adjacent blocks *)
Fixpoint layout (a : Z) (l : list (Z * Z)) : list cell :=
  match l with
  | [] => []
  | (sz, u) :: l => Cell a sz u :: layout (a + BLOCK_SIZE + sz) l
  end.
Fixpoint heap_end (a : Z) (l : list (Z * Z)) : Z :=
  match l with [] => a | (sz, _) :: l => heap_end (a + BLOCK_SIZE + sz) l end.

Record repr (base : Z) (l : list (Z * Z)) (s : st) : Prop := {
  r_base : 0 < base;
  r_pos : Forall (λ b, 0 < b.1) l;
  r_list : blist (mem s) (head s) (tail s) (layout base l);
  r_dom : dom (mem s) = list_to_set (addr <$> layout base l);
  r_brk : brk s = heap_end base l;
  r_free : locked s = false
}.

(** The reference allocator: the first free block that is large enough. *)
Fixpoint first_index (s : Z) (l : list (Z * Z)) : option nat :=
  match l with
  | [] => None
  | (sz, u) :: l =>
      if (u =? 0) && (s <=? sz) then Some 0%nat else Datatypes.S <$> first_index s l
  end.

Definition addr_of (base : Z) (l : list (Z * Z)) (i : nat) : Z := heap_end base (take i l).

Lemma layout_lookup l : ∀ a i sz u, l !! i = Some (sz, u) →
  layout a l !! i = Some (Cell (addr_of a l i) sz u).
Proof.
  induction l as [|[sz0 u0] l IH]; intros a i sz u Hi; [done|]. destruct i as [|i].
  - injection Hi as -> ->. done.
  - cbn in Hi |- *. rewrite (IH _ _ _ _ Hi). done.
Qed.

Lemma layout_insert l : ∀ a i sz u u', l !! i = Some (sz, u) →
  layout a (<[i := (sz, u')]> l) = <[i := Cell (addr_of a l i) sz u']> (layout a l).
Proof.
  induction l as [|[sz0 u0] l IH]; intros a i sz u u' Hi; [done|]. destruct i as [|i].
  - injection Hi as -> ->. done.
  - cbn in Hi |- *. f_equal. by eapply IH.
Qed.

Lemma heap_end_insert l : ∀ a i sz u u', l !! i = Some (sz, u) →
  heap_end a (<[i := (sz, u')]> l) = heap_end a l.
Proof.
  induction l as [|[sz0 u0] l IH]; intros a i sz u u' Hi; [done|]. destruct i as [|i].
  - injection Hi as -> ->. done.
  - cbn in Hi |- *. by eapply IH.
Qed.

Lemma layout_app l l' : ∀ a, layout a (l ++ l') = layout a l ++ layout (heap_end a l) l'.
Proof. induction l as [|[sz u] l IH]; intros a; [done|]. cbn. by rewrite IH. Qed.
Lemma heap_end_app l l' : ∀ a, heap_end a (l ++ l') = heap_end (heap_end a l) l'.
Proof. induction l as [|[sz u] l IH]; intros a; [done|]. cbn. by rewrite IH. Qed.

Lemma heap_end_ge l : ∀ a, Forall (λ b, 0 < b.1) l → a ≤ heap_end a l.
Proof.
  induction l as [|[sz u] l IH]; intros a Hf; cbn; [lia|]. apply Forall_cons in Hf as [Hs Hf].
  cbn in Hs. specialize (IH (a + BLOCK_SIZE + sz) Hf). unfold BLOCK_SIZE in *. lia.
Qed.

(** Headers lie between the start of the heap and its end. *)
Lemma layout_bounds l : ∀ a c, Forall (λ b, 0 < b.1) l → c ∈ layout a l →
  a ≤ addr c ∧ 0 < csize c ∧ addr c + BLOCK_SIZE + csize c ≤ heap_end a l.
Proof.
  induction l as [|[sz u] l IH]; intros a c Hf Hc; [by apply not_elem_of_nil in Hc|].
  apply Forall_cons in Hf as [Hs Hf]. cbn in Hs, Hc |- *.
  apply elem_of_cons in Hc as [->|Hc]; cbn [addr csize].
  - split_and!; [lia|done|]. by apply heap_end_ge.
  - apply IH in Hc as (? & ? & ?); [|done]. unfold BLOCK_SIZE in *. lia.
Qed.

Lemma first_fit_index s l : ∀ a,
  first_fit s (layout a l) =
    match first_index s l with
    | Some i => (layout a l) !! i
    | None => None
    end.
Proof.
  induction l as [|[sz u] l IH]; intros a; [done|]. cbn [layout first_fit first_index].
  unfold fits. cbn [cuse csize]. destruct (_ && _); [done|]. rewrite IH.
  by destruct (first_index s l).
Qed.

Lemma first_index_Some s l i : first_index s l = Some i →
  ∃ sz, l !! i = Some (sz, 0) ∧ s ≤ sz.
Proof.
  revert i. induction l as [|[sz u] l IH]; intros i; [done|]. cbn.
  destruct (u =? 0) eqn:Eu; [destruct (s <=? sz) eqn:Es|]; cbn; bool_to_prop.
  - intros [= <-]. subst. by exists sz.
  - intros Hi. apply fmap_Some in Hi as (j & Hj & ->). by apply IH in Hj.
  - intros Hi. apply fmap_Some in Hi as (j & Hj & ->). by apply IH in Hj.
Qed.

Lemma addr_of_pos base l i sz u : 0 < base → Forall (λ b, 0 < b.1) l → l !! i = Some (sz, u) →
  0 < addr_of base l i.
Proof.
  intros Hb Hf Hi. apply (layout_lookup l base) in Hi. apply list_elem_of_lookup_2 in Hi.
  apply layout_bounds in Hi as [? _]; [cbn in *; lia|done].
Qed.

Section a5_proofs.
Context (limit base : Z) (Hlimit : limit < 2 ^ 63).

Lemma repr_fuel l s : repr base l s → (length (layout base l) ≤ base.size (mem s))%nat.
Proof. intros [_ _ [_ _ Hc Hnd] _ _ _]. by apply chain_dom. Qed.

Lemma get_free_block_spec l s sz : repr base l s →
  search (mem s) sz (head s) (base.size (mem s)) =
    Ret (match first_index sz l with Some i => addr_of base l i | None => 0 end).
Proof.
  intros Hr. pose proof (repr_fuel l s Hr) as Hf. destruct Hr as [_ _ [-> _ Hc _] _ _ _].
  rewrite search_spec by done. rewrite first_fit_index.
  destruct (first_index sz l) as [i|] eqn:E; [|done].
  apply first_index_Some in E as (bs & Hi & _). by rewrite (layout_lookup _ _ _ _ _ Hi).
Qed.

(** Setting the use of block [i] keeps the representation. *)
Lemma repr_set_use l s i bs u u' :
  repr base l s → l !! i = Some (bs, u) →
  ∃ m, set_use (mem s) (addr_of base l i) u' = Ret m ∧
    repr base (<[i := (bs, u')]> l) (St m (head s) (tail s) (brk s) false).
Proof.
  intros [Hb Hp Hl Hd Hk _] Hi. pose proof (layout_lookup l base _ _ _ Hi) as Hc.
  destruct (blist_set_use _ _ _ _ _ _ u' Hl Hc) as (m & E & Hl' & Ho). cbn [addr csize] in *.
  exists m. split; [done|]. split; cbn [mem head tail brk locked]; try done.
  - apply Forall_insert; [done|]. apply (Forall_lookup_1 _ _ _ _ Hp Hi).
  - rewrite (layout_insert _ _ _ _ _ _ Hi). done.
  - rewrite (layout_insert _ _ _ _ _ _ Hi), list_fmap_insert. cbn [addr].
    rewrite list_insert_id by (by rewrite list_lookup_fmap, Hc). rewrite <-Hd.
    unfold set_use, get in E. apply bind_Ret in E as (b & Eb & E). injection E as <-.
    apply opt_Ret in Eb. by rewrite dom_insert_lookup_L by (by eexists).
  - rewrite (heap_end_insert _ _ _ _ _ _ Hi). done.
Qed.

Lemma malloc_reuse l s sz i bs :
  repr base l s → sz ≠ 0 → first_index sz l = Some i → l !! i = Some (bs, 0) →
  ∃ s', mymalloc limit sz s = Ret (payload (addr_of base l i), s') ∧
    repr base (<[i := (bs, 1)]> l) s'.
Proof.
  intros Hr Hsz Hf Hi. pose proof Hr as [Hb Hp Hl Hd Hk Hu].
  unfold mymalloc. apply Z.eqb_neq in Hsz. rewrite Hsz.
  pose proof (addr_of_pos base l i bs 0 Hb Hp Hi) as Hpos.
  destruct (repr_set_use l s i bs 0 1 Hr Hi) as (m & Em & Hr').
  erewrite M_bind_run; [|unfold lock; by rewrite Hu].
  erewrite M_bind_run; [|unfold get_free_block; cbn [mem head];
    rewrite (get_free_block_spec l s sz Hr), Hf; done].
  destruct (addr_of base l i =? 0) eqn:E0; [bool_to_prop; lia|]. cbn [negb].
  erewrite M_bind_run by done. erewrite M_bind_run; [|unfold lift; cbn [mem]; by rewrite Em].
  by eexists.
Qed.

Lemma malloc_fail l s sz :
  repr base l s → 0 < sz < 2 ^ 63 - BLOCK_SIZE → first_index sz l = None →
  limit < heap_end base l + BLOCK_SIZE + sz → mymalloc limit sz s = Ret (0, s).
Proof.
  intros Hr Hsz Hf Hlim. pose proof Hr as [Hb Hp Hl Hd Hk Hu].
  unfold mymalloc. case_if; [lia|]. unfold BLOCK_SIZE in *.
  erewrite M_bind_run; [|unfold lock; by rewrite Hu].
  erewrite M_bind_run; [|unfold get_free_block; cbn [mem head];
    rewrite (get_free_block_spec l s sz Hr), Hf; done].
  cbn [Z.eqb negb]. rewrite u64_small, i64_small by lia.
  erewrite M_bind_run.
  2:{ unfold sbrk. cbn [brk]. rewrite (proj2 (Z.leb_gt _ limit)) by lia. by rewrite andb_false_r. }
  change (-1 =? -1) with true. cbv iota. unfold unlock. cbn. destruct s. cbn in *. by subst.
Qed.

Lemma malloc_fresh l s sz :
  repr base l s → 0 < sz → first_index sz l = None →
  heap_end base l + BLOCK_SIZE + sz ≤ limit →
  ∃ s', mymalloc limit sz s = Ret (payload (heap_end base l), s') ∧ repr base (l ++ [(sz, 1)]) s'.
Proof.
  intros Hr Hsz Hf Hlim. pose proof Hr as [Hb Hp Hl Hd Hk Hu].
  pose proof (heap_end_ge l base Hp) as Hge.
  unfold mymalloc. case_if; [lia|]. unfold BLOCK_SIZE in *.
  erewrite M_bind_run; [|unfold lock; by rewrite Hu].
  erewrite M_bind_run; [|unfold get_free_block; cbn [mem head];
    rewrite (get_free_block_spec l s sz Hr), Hf; done].
  cbn [Z.eqb negb]. rewrite u64_small, i64_small by lia.
  erewrite M_bind_run.
  2:{ unfold sbrk. cbn [brk mem head tail locked].
      rewrite (proj2 (Z.leb_le 0 _)), (proj2 (Z.leb_le _ limit)) by lia. done. }
  rewrite Hk. destruct (heap_end base l =? -1) eqn:E1; [bool_to_prop; lia|].
  erewrite M_bind_run.
  2:{ unfold write_header, BLOCK_SIZE. cbn [brk mem head tail locked].
      rewrite (proj2 (Z.leb_le _ _)) by lia. done. }
  erewrite M_bind_run by done. cbn [mem head tail].
  assert (heap_end base l ∉ addr <$> layout base l) as Hfresh.
  { rewrite list_elem_of_fmap. intros (c & E & Hc). apply layout_bounds in Hc as (_ & ? & ?); [|done].
    unfold BLOCK_SIZE in *. lia. }
  assert (blist (<[heap_end base l := Block sz 1 0]> (mem s)) (head s) (tail s) (layout base l)) as Hl'.
  { destruct Hl as [? ? ? ?]. split; try done. by apply chain_insert_other. }
  destruct (blist_append _ _ _ _ (heap_end base l) sz 1 Hl') as (m & Em & Hm & Hother);
    [lia|done|by rewrite lookup_insert_eq|].
  erewrite M_bind_run; [|unfold lift; by rewrite Em].
  eexists. split; [done|].
  split; cbn [mem head tail brk locked]; rewrite ?layout_app, ?heap_end_app; cbn [layout heap_end];
    try done.
  - apply Forall_app. split; [done|]. by repeat constructor.
  - apply set_eq. intros x. rewrite elem_of_dom, elem_of_list_to_set, fmap_app, elem_of_app.
    destruct (decide (x ∈ addr <$> layout base l)) as [Hin|Hin].
    + split; [by left|]. intros _. rewrite list_elem_of_fmap in Hin. destruct Hin as (c & -> & Hc).
      destruct (chain_lookup m _ c (bl_chain _ _ _ _ Hm)) as (_ & n & ->); [set_solver|done].
    + rewrite Hother by done. rewrite lookup_insert_is_Some', <-elem_of_dom, Hd, elem_of_list_to_set.
      cbn. rewrite list_elem_of_singleton. naive_solver.
  - unfold BLOCK_SIZE. lia.
Qed.

(** Freeing a block that is not 552 bytes before the end of the heap. *)
Lemma free_keep l s i bs u :
  repr base l s → l !! i = Some (bs, u) → payload (addr_of base l i) + bs ≠ heap_end base l →
  heap_end base l ≤ limit →
  ∃ s', myfree limit (payload (addr_of base l i)) s = Ret (tt, s') ∧
    repr base (<[i := (bs, 0)]> l) s'.
Proof.
  intros Hr Hi Hne Hlim. pose proof Hr as [Hb Hp Hl Hd Hk Hu].
  pose proof (addr_of_pos base l i bs u Hb Hp Hi) as Hpos. pose proof (heap_end_ge l base Hp) as Hge.
  pose proof (repr_fuel l s Hr) as Hfuel.
  pose proof (layout_lookup l base _ _ _ Hi) as Hc. pose proof (list_elem_of_lookup_2 _ _ _ Hc) as Hin.
  destruct (chain_lookup _ _ _ (bl_chain _ _ _ _ Hl) Hin) as (_ & n & Hn). cbn [addr csize cuse] in Hn.
  destruct (repr_set_use l s i bs u 0 Hr Hi) as (m & Em & Hr').
  unfold myfree. destruct (payload (addr_of base l i) =? 0) eqn:E0;
    [bool_to_prop; unfold payload, BLOCK_SIZE in *; lia|].
  erewrite M_bind_run; [|unfold lock; by rewrite Hu]. erewrite M_bind_run by done.
  replace (header_of (payload (addr_of base l i))) with (addr_of base l i)
    by (unfold header_of, payload; lia).
  cbn [mem head tail]. erewrite M_bind_run.
  2:{ unfold lift. rewrite (bl_head _ _ _ _ Hl), walk_spec; [|apply Hl|done|lia].
      rewrite bool_decide_true; [done|]. apply list_elem_of_fmap.
      by exists (Cell (addr_of base l i) bs u). }
  erewrite M_bind_run; [|unfold lift, get; by rewrite Hn]. cbn [size]. rewrite Z.eqb_refl.
  erewrite M_bind_run.
  2:{ unfold sbrk. cbn [brk mem head tail locked]. rewrite Z.add_0_r, Hk.
      rewrite (proj2 (Z.leb_le 0 _)), (proj2 (Z.leb_le _ limit)) by lia. done. }
  destruct (payload (addr_of base l i) + bs =? heap_end base l) eqn:E2; [bool_to_prop; lia|].
  erewrite M_bind_run; [|unfold lift; by rewrite Em]. rewrite Hk, (bl_head _ _ _ _ Hl) in Hr'. by eexists.
Qed.
End a5_proofs.
End A5.

(** *** The reference allocator and sequences of calls *)
Module A5Spec.
Import BlockList A5.

Definition spec_malloc (limit base sz : Z) (l : list (Z * Z)) : Z * list (Z * Z) :=
  if sz =? 0 then (0, l)
  else
    match first_index sz l with
    | Some i => (payload (addr_of base l i), alter (λ b, (b.1, 1)) i l)
    | None =>
        if limit <? heap_end base l + BLOCK_SIZE + sz then (0, l)
        else (payload (heap_end base l), l ++ [(sz, 1)])
    end.
Definition spec_free (i : nat) (l : list (Z * Z)) : list (Z * Z) := alter (λ b, (b.1, 0)) i l.

(** A call: a request, or freeing what was returned for block [i]. *)
Inductive call := Malloc (sz : Z) | Free (i : nat).

Definition spec_call (limit base : Z) (c : call) (l : list (Z * Z)) : Z * list (Z * Z) :=
  match c with Malloc sz => spec_malloc limit base sz l | Free i => (0, spec_free i l) end.

Definition run_call (limit base : Z) (l : list (Z * Z)) (c : call) : M st Z :=
  match c with
  | Malloc sz => mymalloc limit sz
  | Free i => myfree limit (payload (addr_of base l i)) ;; mret 0
  end.

(** Requests below the size at which [size_t] arithmetic turns negative;
    frees of a block that exists and is not exactly 552 bytes before the end. *)
Definition call_ok (base : Z) (l : list (Z * Z)) (c : call) : Prop :=
  match c with
  | Malloc sz => 0 ≤ sz < 2 ^ 63 - BLOCK_SIZE
  | Free i => ∃ bs u, l !! i = Some (bs, u) ∧ payload (addr_of base l i) + bs ≠ heap_end base l
  end.

Lemma alter_insert (l : list (Z * Z)) i bs u u' : l !! i = Some (bs, u) →
  alter (λ b, (b.1, u')) i l = <[i := (bs, u')]> l.
Proof.
  intros Hi. apply list_eq. intros j. destruct (decide (i = j)) as [<-|Hne].
  - rewrite list_lookup_alter_eq, Hi, list_lookup_insert_eq; [done|]. by apply lookup_lt_Some in Hi.
  - by rewrite list_lookup_alter_ne, list_lookup_insert_ne.
Qed.

Lemma call_refines limit base l s c :
  limit < 2 ^ 63 → heap_end base l ≤ limit → repr base l s → call_ok base l c →
  ∃ s', run_call limit base l c s = Ret ((spec_call limit base c l).1, s') ∧
    repr base (spec_call limit base c l).2 s' ∧ heap_end base (spec_call limit base c l).2 ≤ limit.
Proof.
  intros Hlim Hend Hr Hok. destruct c as [sz|i]; cbn [run_call spec_call call_ok] in *.
  - unfold spec_malloc. case_if as E0; [subst; by exists s|].
    destruct (first_index sz l) as [i|] eqn:Ei.
    + pose proof (first_index_Some _ _ _ Ei) as (bs & Hi & _).
      destruct (malloc_reuse limit base l s sz i bs Hr E0 Ei Hi) as (s' & E & Hr').
      exists s'. cbn [fst snd]. rewrite (alter_insert _ _ _ _ _ Hi).
      by rewrite (heap_end_insert _ _ _ _ _ _ Hi).
    + case_if as E1.
      * exists s. cbn [fst snd]. rewrite (malloc_fail limit base l s sz) by (done || lia). done.
      * destruct (malloc_fresh limit base Hlim l s sz Hr) as (s' & E & Hr'); [lia|done|lia|].
        exists s'. cbn [fst snd]. rewrite heap_end_app. cbn [heap_end]. done.
  - destruct Hok as (bs & u & Hi & Hne).
    destruct (free_keep limit base l s i bs u Hr Hi Hne Hend) as (s' & E & Hr').
    exists s'. cbn [fst snd]. unfold spec_free. rewrite (alter_insert _ _ _ _ _ Hi).
    rewrite (heap_end_insert _ _ _ _ _ _ Hi). split_and!; [|done..].
    by erewrite M_bind_run.
Qed.

(** A sequence of calls: the pointers returned and the final heap. *)
Fixpoint run_calls (limit base : Z) (l : list (Z * Z)) (cs : list call) : M st (list Z) :=
  match cs with
  | [] => mret []
  | c :: cs =>
      p ← run_call limit base l c;
      ps ← run_calls limit base (spec_call limit base c l).2 cs;
      mret (p :: ps)
  end.
Fixpoint spec_calls (limit base : Z) (l : list (Z * Z)) (cs : list call) : list Z * list (Z * Z) :=
  match cs with
  | [] => ([], l)
  | c :: cs =>
      let '(p, l) := spec_call limit base c l in
      let '(ps, l) := spec_calls limit base l cs in (p :: ps, l)
  end.
Fixpoint calls_ok (limit base : Z) (l : list (Z * Z)) (cs : list call) : Prop :=
  match cs with
  | [] => True
  | c :: cs => call_ok base l c ∧ calls_ok limit base (spec_call limit base c l).2 cs
  end.

Definition start (base : Z) : st := St ∅ 0 0 base false.

Lemma calls_refine limit base cs : ∀ l s,
  limit < 2 ^ 63 → heap_end base l ≤ limit → repr base l s → calls_ok limit base l cs →
  ∃ s', run_calls limit base l cs s = Ret ((spec_calls limit base l cs).1, s') ∧
    repr base (spec_calls limit base l cs).2 s'.
Proof.
  induction cs as [|c cs IH]; intros l s Hlim Hend Hr Hok; [by exists s|].
  destruct Hok as [Hc Hok]. cbn [run_calls spec_calls].
  destruct (call_refines limit base l s c Hlim Hend Hr Hc) as (s1 & E1 & Hr1 & Hend1).
  destruct (spec_call limit base c l) as [p l1]. cbn [fst snd] in *.
  destruct (IH l1 s1 Hlim Hend1 Hr1 Hok) as (s2 & E2 & Hr2).
  destruct (spec_calls limit base l1 cs) as [ps l2]. cbn [fst snd] in *.
  exists s2. split; [|done]. erewrite M_bind_run by done. by erewrite M_bind_run.
Qed.

Lemma start_repr base : 0 < base → repr base [] (start base).
Proof.
  intros Hb. split; cbn; try done; try constructor; try done. constructor.
Qed.
End A5Spec.



(** The pointer [mymalloc] returns for a fresh block is not the block's
    memory: because [header + BLOCK_SIZE] counts in blocks, the [sz] bytes it
    promises end 552 bytes behind the program break. *)
Theorem a5_fresh_pointer_outside_heap (limit base sz : Z) (l : list (Z * Z)) (s : A5.st) :
  limit < 2 ^ 63 → A5.repr base l s → 0 < sz → A5.first_index sz l = None →
  A5.heap_end base l + BLOCK_SIZE + sz ≤ limit →
  ∃ p s', A5.mymalloc limit sz s = Ret (p, s') ∧ p + sz = A5.brk s' + 552.
Proof.
  intros Hlim Hr Hsz Hf Hfit. destruct (A5.malloc_fresh limit base Hlim l s sz Hr Hsz Hf Hfit)
    as (s' & E & Hr').
  eexists _, s'. split; [done|]. destruct Hr' as [_ _ _ _ -> _]. rewrite A5.heap_end_app.
  cbn [A5.heap_end]. unfold payload, BLOCK_SIZE. lia.
Qed.

Lemma a5_fresh_pointer_outside_heap_witness :
  ∃ p s', A5.mymalloc 100000 8 (A5Spec.start 4096) = Ret (p, s') ∧ p + 8 = A5.brk s' + 552.
Proof.
  apply (a5_fresh_pointer_outside_heap 100000 4096 8 []); cbn; unfold BLOCK_SIZE; try lia; [|done].
  by apply A5Spec.start_repr.
Defined.

(** Freeing a block followed by exactly 552 bytes: two blocks of 100 and 528
    bytes are in use; freeing the first one cuts the second out of the list
    and moves the break back by 124 bytes, into the second block. *)
Example a5_free_drops_live_block :
  ∃ s1 s2,
    A5Spec.run_calls 100000 4096 [] [A5Spec.Malloc 100; A5Spec.Malloc 528] (A5Spec.start 4096) =
      Ret ([4672; 4796], s1) ∧
    A5.myfree 100000 4672 s1 = Ret (tt, s2) ∧
    A5.mem s2 !! 4220 = Some (Block 528 1 0) ∧ A5.tail s2 = 4096 ∧
    A5.brk s2 = 4648 ∧ A5.brk s2 < 4220 + BLOCK_SIZE + 528.
Proof.
  do 2 eexists. split; [vm_compute; reflexivity|]. split; [vm_compute; reflexivity|].
  vm_compute. done.
Qed.

(** ** Assignment6: size classes *)
Module A6.
Import BlockList.

Record blocklist := BList { lsize : Z; lhead : Z; ltail : Z }.
Record arena := Arena { block_64 : Z; block_256 : Z; block_1024 : Z; over_1024_block : Z }.

Record st := St {
  mem : heap;
  lists : gmap Z blocklist;      (* the [list] structs, by address *)
  free_lists : list arena;
  arena_initializer : Z;
  g_lock_init : Z;
  global_lock : bool;
  brk : Z
}.

Definition PROCS : Z := 32.
Definition LIST_SIZE : Z := 24.
Definition NUM_64_BLOCKS : Z := 1024.
Definition NUM_256_BLOCKS : Z := 512.
Definition NUM_1024_BLOCKS : Z := 64.

Definition set_mem (m : heap) : M st unit := fun s =>
  Ret (tt, St m (lists s) (free_lists s) (arena_initializer s) (g_lock_init s) (global_lock s) (brk s)).
Definition set_lists (ls : gmap Z blocklist) : M st unit := fun s =>
  Ret (tt, St (mem s) ls (free_lists s) (arena_initializer s) (g_lock_init s) (global_lock s) (brk s)).
Definition set_arena (i : Z) (f : arena → arena) : M st unit := fun s =>
  a ← arr_get (free_lists s) i;
  fl ← arr_set (free_lists s) i (f a);
  Ret (tt, St (mem s) (lists s) fl (arena_initializer s) (g_lock_init s) (global_lock s) (brk s)).
Definition set_initialized : M st unit := fun s =>
  Ret (tt, St (mem s) (lists s) (free_lists s) 1 (g_lock_init s) (global_lock s) (brk s)).
Definition init_lock : M st unit := fun s =>
  Ret (tt, St (mem s) (lists s) (free_lists s) (arena_initializer s) 1 false (brk s)).
Definition lock : M st unit := fun s =>
  if global_lock s then Panic "deadlock"
  else Ret (tt, St (mem s) (lists s) (free_lists s) (arena_initializer s) (g_lock_init s) true (brk s)).
Definition unlock : M st unit := fun s =>
  Ret (tt, St (mem s) (lists s) (free_lists s) (arena_initializer s) (g_lock_init s) false (brk s)).

(** Stores through the pointer [sbrk] returned, minus one when it failed. *)
Definition write_header (p : Z) (b : block) : M st unit := fun s =>
  if p =? -1 then Undef else set_mem (<[p := b]> (mem s)) s.
Definition write_list (p : Z) (l : blocklist) : M st unit := fun s =>
  if p =? -1 then Undef else set_lists (<[p := l]> (lists s)) s.
Definition read_list (p : Z) : M st blocklist := fun s => l ← opt (lists s !! p); Ret (l, s).

(** Appending to the list struct at [p]. *)
Definition link (p header : Z) : M st unit :=
  l ← read_list p;
  s ← get_st;
  '(m, h, t) ← lift (append (mem s) (lhead l) (ltail l) header);
  set_mem m ;; write_list p (BList (lsize l) h t).

Section a6.
Context (limit : Z).

Definition sbrk (inc : Z) : M st Z := fun s =>
  if brk s + inc <=? limit then
    Ret (brk s, St (mem s) (lists s) (free_lists s) (arena_initializer s) (g_lock_init s)
                  (global_lock s) (brk s + inc))
  else Ret (-1, s).

(** The loop that fills a list; [false] when the system refused and the
    function returned. *)
Fixpoint fill (p sz : Z) (cnt : nat) : M st bool :=
  match cnt with
  | O => mret true
  | S cnt =>
      heap_block ← sbrk (BLOCK_SIZE + sz);
      if heap_block =? -1 then mret false
      else
        write_header heap_block (Block sz 0 0) ;;
        link p heap_block ;;
        fill p sz cnt
  end.

(** One list of the arena: fresh memory from [sbrk] reads as zero. *)
Definition new_list (sz : Z) : M st Z :=
  p ← sbrk LIST_SIZE;
  write_list p (BList sz 0 0) ;;
  mret p.

(** Allocate a list struct, store its address in the arena, fill it. *)
Definition init_list (i sz : Z) (f : Z → arena → arena) (cnt : Z) : M st bool :=
  p ← new_list sz;
  set_arena i (f p) ;;
  fill p sz (Z.to_nat cnt).

(** The body of the loop of [initialize_arena]. *)
Definition init_one (i : Z) : M st bool :=
  ok ← init_list i 64 (λ p a, Arena p (block_256 a) (block_1024 a) (over_1024_block a)) NUM_64_BLOCKS;
  if negb ok then mret false
  else
  ok ← init_list i 256 (λ p a, Arena (block_64 a) p (block_1024 a) (over_1024_block a)) NUM_256_BLOCKS;
  if negb ok then mret false
  else
  ok ← init_list i 1024 (λ p a, Arena (block_64 a) (block_256 a) p (over_1024_block a)) NUM_1024_BLOCKS;
  if negb ok then mret false
  else
  init_list i 1025 (λ p a, Arena (block_64 a) (block_256 a) (block_1024 a) p) 0.

Fixpoint init_loop (i : Z) (cnt : nat) : M st unit :=
  match cnt with
  | O => mret tt
  | S cnt => ok ← init_one i; if ok : bool then init_loop (i + 1) cnt else mret tt
  end.
Definition initialize_arena : M st unit := init_loop 0 (Z.to_nat PROCS).

(** The list a size belongs to; [3] for the sizes that are mapped. *)
Definition class_of (fl : arena) (s : Z) : M st (Z * Z) :=
  l64 ← read_list (block_64 fl);
  if s <=? lsize l64 then mret (0, block_64 fl)
  else
    l256 ← read_list (block_256 fl);
    if s <=? lsize l256 then mret (1, block_256 fl)
    else
      l1024 ← read_list (block_1024 fl);
      if s <=? lsize l1024 then mret (2, block_1024 fl)
      else mret (3, over_1024_block fl).

Definition get_free_block (s : Z) (fl : arena) : M st Z :=
  '(_, p) ← class_of fl s;
  l ← read_list p;
  σ ← get_st;
  lift (search (mem σ) s (lhead l) (base.size (mem σ))).

Definition get_block (size : Z) : M st Z :=
  lock ;;
  heap_block ← sbrk size;
  unlock ;;
  mret heap_block.

(** The size stored in a new block of each class. *)
Definition class_size (order : Z) : Z :=
  if order =? 0 then 64 else if order =? 1 then 256 else 1024.

(** The branches for the three classes.  A [header] that was found is taken;
    otherwise a block is allocated, for which only the first class does not
    test that [sbrk] succeeded. *)
Definition take_or_grow (order p header : Z) : M st Z :=
  if negb (header =? 0) then
    s ← get_st;
    m ← lift (set_use (mem s) header 1);
    set_mem m ;;
    mret (payload header)
  else
    l ← read_list p;
    heap_block ← get_block (BLOCK_SIZE + lsize l);
    if (heap_block =? -1) && negb (order =? 0) then mret 0
    else
      write_header heap_block (Block (class_size order) 1 0) ;;
      link p heap_block ;;
      mret (payload heap_block).

(** [mmapped] is what [mmap] returns if it is called, minus one if it fails;
    [nprocs] what [get_nprocs()] returns.  The arena is copied, its lock with
    it, so locking the copy excludes nobody and is left out. *)
Definition mymalloc (nprocs mmapped sz : Z) : M st Z :=
  s ← get_st;
  (if g_lock_init s =? 0 then init_lock else mret tt) ;;
  lock ;;
  s ← get_st;
  (if arena_initializer s =? 0 then initialize_arena ;; set_initialized else mret tt) ;;
  unlock ;;
  s ← get_st;
  fl ← lift (arr_get (free_lists s) (Z.rem nprocs PROCS));
  if sz =? 0 then mret 0
  else
    header ← get_free_block sz fl;
    '(order, p) ← class_of fl sz;
    if order =? 3 then
      if mmapped =? -1 then mret 0
      else write_header mmapped (Block sz 1 0) ;; mret (payload mmapped)
    else take_or_grow order p header.

Definition munmap (p : Z) : M st unit := fun s => set_mem (delete p (mem s)) s.

Definition myfree (nprocs ptr : Z) : M st unit :=
  if ptr =? 0 then mret tt
  else
    s ← get_st;
    fl ← lift (arr_get (free_lists s) (Z.rem nprocs PROCS));
    let header := header_of ptr in
    b ← lift (get (mem s) header);
    '(order, p) ← class_of fl (size b);
    if order =? 3 then
      m ← lift (set_use (mem s) header 0);
      set_mem m ;;
      munmap header
    else
      l ← read_list p;
      curr ← lift (walk (mem s) header (lhead l) (base.size (mem s)));
      if curr =? header then
        m ← lift (set_use (mem s) curr 0);
        m ← lift (set_use m header 0);
        set_mem m
      else mret tt.
End a6.
End A6.

(** ** Assignment6: the classes of the arena in use *)
Module A6Proofs.
Import BlockList A6.

Lemma chain_frame m m' l : (∀ a, a ∈ addr <$> l → m' !! a = m !! a) → chain m l → chain m' l.
Proof.
  induction l as [|c l IH]; [done|]. intros Heq (Hz & Hl & Hc). cbn in Heq.
  split_and!; [done|rewrite Heq by left; done|]. apply IH; [|done]. intros a Ha. apply Heq. by right.
Qed.

Definition ptrs (fl : arena) : list Z := [block_64 fl; block_256 fl; block_1024 fl].
Definition sizes : list Z := [64; 256; 1024].
Definition class_idx (s : Z) : nat := if s <=? 64 then 0 else if s <=? 256 then 1 else 2.

(** List [k] of the arena: its struct and its chain of blocks. *)
Record class_ok (s : st) (p sz : Z) (L : list cell) : Prop := {
  c_struct : lists s !! p = Some (BList sz (first L) (final L));
  c_chain : chain (mem s) L;
  c_nodup : NoDup (addr <$> L);
  c_size : Forall (λ c, 0 < addr c ∧ csize c = sz) L
}.

Section a6_proofs.
Context (limit : Z).

Record arena_ok (s : st) (fl : arena) (Ls : list (list cell)) : Prop := {
  a_len : length Ls = 3%nat;
  a_class k p sz L : ptrs fl !! k = Some p → sizes !! k = Some sz → Ls !! k = Some L →
    class_ok s p sz L;
  a_disj j k L L' a : j ≠ k → Ls !! j = Some L → Ls !! k = Some L' →
    a ∈ addr <$> L → a ∉ addr <$> L';
  a_over : lists s !! over_1024_block fl = Some (BList 1025 0 0);
  a_ptrs : NoDup (over_1024_block fl :: ptrs fl);
  a_dom a : a ∈ dom (mem s) → a < brk s ∨ limit ≤ a;
  a_ldom p : p ∈ dom (lists s) → 0 < p < brk s;
  a_brk : 0 < brk s ≤ limit;
  a_unlocked : global_lock s = false
}.

Lemma bl_of s p sz L : class_ok s p sz L → blist (mem s) (first L) (final L) L.
Proof. by intros []. Qed.

Lemma class_lookup s fl Ls sz : arena_ok s fl Ls → sz ≤ 1024 →
  ∃ p L cs, ptrs fl !! class_idx sz = Some p ∧ sizes !! class_idx sz = Some cs ∧
    Ls !! class_idx sz = Some L ∧ class_ok s p cs L ∧ sz ≤ cs ∧
    cs = class_size (Z.of_nat (class_idx sz)) ∧
    class_of fl sz s = Ret ((Z.of_nat (class_idx sz), p), s).
Proof.
  intros Hok Hsz.
  destruct (lookup_lt_is_Some_2 Ls 0) as [L0 H0]; [rewrite (a_len _ _ _ Hok); lia|].
  destruct (lookup_lt_is_Some_2 Ls 1) as [L1 H1]; [rewrite (a_len _ _ _ Hok); lia|].
  destruct (lookup_lt_is_Some_2 Ls 2) as [L2 H2]; [rewrite (a_len _ _ _ Hok); lia|].
  pose proof (a_class _ _ _ Hok 0 _ _ _ eq_refl eq_refl H0) as C0.
  pose proof (a_class _ _ _ Hok 1 _ _ _ eq_refl eq_refl H1) as C1.
  pose proof (a_class _ _ _ Hok 2 _ _ _ eq_refl eq_refl H2) as C2.
  unfold class_idx, class_of.
  erewrite M_bind_run; [|unfold read_list; by rewrite (c_struct _ _ _ _ C0)]. cbn [lsize].
  destruct (sz <=? 64) eqn:E0; bool_to_prop.
  { exists (block_64 fl), L0, 64. by split_and!. }
  erewrite M_bind_run; [|unfold read_list; by rewrite (c_struct _ _ _ _ C1)]. cbn [lsize].
  destruct (sz <=? 256) eqn:E1; bool_to_prop.
  { exists (block_256 fl), L1, 256. by split_and!. }
  erewrite M_bind_run; [|unfold read_list; by rewrite (c_struct _ _ _ _ C2)]. cbn [lsize].
  destruct (sz <=? 1024) eqn:E2; bool_to_prop; [|lia].
  exists (block_1024 fl), L2, 1024. by split_and!.
Qed.

(** Replacing list [k] and what belongs to it. *)
Lemma arena_update s fl Ls k p sz L L' m ls b :
  arena_ok s fl Ls → ptrs fl !! k = Some p → sizes !! k = Some sz → Ls !! k = Some L →
  chain m L' → NoDup (addr <$> L') → Forall (λ c, 0 < addr c ∧ csize c = sz) L' →
  (∀ a, a ∉ addr <$> L' → m !! a = mem s !! a) →
  (∀ a, a ∈ addr <$> L' → a ∈ addr <$> L ∨ a ∉ dom (mem s) ∧ a < b) →
  ls = <[p := BList sz (first L') (final L')]> (lists s) → brk s ≤ b ≤ limit →
  arena_ok (St m ls (free_lists s) (arena_initializer s) (g_lock_init s) false b)
    fl (<[k := L']> Ls).
Proof.
  intros Hok Hp Hs HL Hc Hnd Hf Hfr Hnew -> Hb.
  assert (∀ j Lj, j ≠ k → Ls !! j = Some Lj → ∀ a, a ∈ addr <$> Lj → a ∉ addr <$> L') as Hdis.
  { intros j Lj Hj HLj a Ha Ha'. apply Hnew in Ha' as [Ha'|[Ha' _]].
    - by apply (a_disj _ _ _ Hok j k Lj L a).
    - apply Ha'. apply list_elem_of_fmap in Ha as (c & -> & Hin).
      assert (∃ q z, ptrs fl !! j = Some q ∧ sizes !! j = Some z) as (q & z & Hq & Hz).
      { apply lookup_lt_Some in HLj. rewrite (a_len _ _ _ Hok) in HLj.
        destruct j as [|[|[|]]]; [by eauto..|lia]. }
      destruct (a_class _ _ _ Hok j q z Lj Hq Hz HLj) as [_ Hch _ _].
      apply elem_of_dom. destruct (chain_lookup _ _ _ Hch Hin) as (_ & n & ->). done. }
  assert (p ≠ over_1024_block fl ∧ ∀ j q, j ≠ k → ptrs fl !! j = Some q → q ≠ p) as [Hpo Hpq].
  { pose proof (a_ptrs _ _ _ Hok) as Hn. apply NoDup_cons in Hn as [Hn1 Hn2]. split.
    - intros E. apply Hn1. rewrite <-E. by eapply list_elem_of_lookup_2.
    - intros j q Hj Hq ->. by apply Hj, (NoDup_lookup (ptrs fl) j k p). }
  split; cbn [mem lists brk global_lock].
  - by rewrite length_insert, (a_len _ _ _ Hok).
  - intros j q z Lj Hq Hz HLj. destruct (decide (j = k)) as [->|Hne].
    + rewrite list_lookup_insert_eq in HLj by (by apply lookup_lt_Some in HL).
      injection HLj as <-. assert (q = p) as -> by congruence. assert (z = sz) as -> by congruence.
      split; cbn [mem lists]; try done. by rewrite lookup_insert_eq.
    + rewrite list_lookup_insert_ne in HLj by done.
      destruct (a_class _ _ _ Hok j q z Lj Hq Hz HLj) as [H1 H2 H3 H4].
      split; cbn [mem lists]; try done.
      * rewrite lookup_insert_ne; [done|]. intros ->. by apply (Hpq j q Hne Hq).
      * eapply chain_frame; [|done]. intros a Ha. apply Hfr. by eapply Hdis.
  - intros i j Li Lj a Hij HLi HLj Ha Ha'.
    destruct (decide (i = k)) as [->|Hik], (decide (j = k)) as [->|Hjk]; try done.
    + rewrite list_lookup_insert_eq in HLi by (by apply lookup_lt_Some in HL).
      rewrite list_lookup_insert_ne in HLj by done. injection HLi as <-. by apply (Hdis j Lj Hjk HLj a).
    + rewrite list_lookup_insert_eq in HLj by (by apply lookup_lt_Some in HL).
      rewrite list_lookup_insert_ne in HLi by done. injection HLj as <-. by apply (Hdis i Li Hik HLi a).
    + rewrite list_lookup_insert_ne in HLi, HLj by done. by apply (a_disj _ _ _ Hok i j Li Lj a).
  - rewrite lookup_insert_ne by done. apply Hok.
  - apply Hok.
  - intros a Ha. destruct (decide (a ∈ addr <$> L')) as [Hin|Hin].
    + destruct (Hnew a Hin) as [HinL|[_ ?]]; [|lia].
      destruct (a_class _ _ _ Hok k p sz L Hp Hs HL) as [_ Hch _ _].
      apply list_elem_of_fmap in HinL as (c & -> & Hcin).
      destruct (chain_lookup _ _ _ Hch Hcin) as (_ & n & En).
      destruct (a_dom _ _ _ Hok (addr c)); [|lia|lia]. apply elem_of_dom. by rewrite En.
    + rewrite elem_of_dom, Hfr, <-elem_of_dom in Ha by done. destruct (a_dom _ _ _ Hok a Ha); lia.
  - intros q Hq. rewrite dom_insert, elem_of_union, elem_of_singleton in Hq.
    assert (q ∈ dom (lists s)) as Hq'.
    { destruct Hq as [->|Hq]; [|done]. apply elem_of_dom.
      by rewrite (c_struct _ _ _ _ (a_class _ _ _ Hok k p sz L Hp Hs HL)). }
    pose proof (a_ldom _ _ _ Hok q Hq'). lia.
  - pose proof (a_brk _ _ _ Hok). lia.
  - done.
Qed.

(** The program after its first call. *)
Record ready (nprocs : Z) (s : st) (fl : arena) (Ls : list (list cell)) : Prop := {
  rd_init : arena_initializer s = 1;
  rd_lock : g_lock_init s = 1;
  rd_arena : arr_get (free_lists s) (Z.rem nprocs PROCS) = Ret fl;
  rd_ok : arena_ok s fl Ls
}.

Lemma with_same_lock s : global_lock s = false →
  St (mem s) (lists s) (free_lists s) (arena_initializer s) (g_lock_init s) false (brk s) = s.
Proof. intros H. destruct s. cbn in *. by subst. Qed.

Lemma search_class s p sz L n : class_ok s p sz L →
  search (mem s) n (first L) (base.size (mem s)) = Ret (from_option addr 0 (first_fit n L)).
Proof. intros [_ Hc Hn _]. apply search_spec; [done|]. by apply chain_dom. Qed.

(** A request for a class reaches the branch of that class. *)
Lemma mymalloc_class nprocs mm sz s fl Ls :
  ready nprocs s fl Ls → 0 < sz ≤ 1024 →
  ∃ p L, ptrs fl !! class_idx sz = Some p ∧ Ls !! class_idx sz = Some L ∧
    mymalloc limit nprocs mm sz s =
      take_or_grow limit (Z.of_nat (class_idx sz)) p (from_option addr 0 (first_fit sz L)) s.
Proof.
  intros [Hi Hg Ha Hok] Hsz.
  destruct (class_lookup s fl Ls sz Hok) as (p & L & cs & Hp & Hs & HL & Hcl & Hle & _ & Hco); [lia|].
  exists p, L. split_and!; [done..|]. unfold mymalloc.
  erewrite M_bind_run by done. rewrite Hg. erewrite M_bind_run by done.
  erewrite M_bind_run; [|unfold lock; by rewrite (a_unlocked _ _ _ Hok)].
  erewrite M_bind_run by done. cbn [arena_initializer]. rewrite Hi. erewrite M_bind_run by done.
  erewrite M_bind_run by done. cbn [mem lists free_lists arena_initializer g_lock_init brk].
  rewrite <-Hi, with_same_lock by apply Hok.
  erewrite M_bind_run by done. erewrite M_bind_run; [|unfold lift; by rewrite Ha].
  case_if; [lia|].
  erewrite M_bind_run.
  2:{ unfold get_free_block. erewrite M_bind_run by exact Hco. cbn beta iota.
      erewrite M_bind_run; [|unfold read_list; by rewrite (c_struct _ _ _ _ Hcl)].
      erewrite M_bind_run by done. unfold lift. cbn [lhead].
      rewrite (search_class _ _ _ _ _ Hcl). done. }
  erewrite M_bind_run by exact Hco. cbn beta iota.
  destruct (Z.of_nat (class_idx sz) =? 3) eqn:E; [|done]. bool_to_prop.
  unfold class_idx in E. destruct (sz <=? 64), (sz <=? 256); lia.
Qed.

(** Taking a free block of the class. *)
Lemma malloc_take nprocs mm sz s fl Ls L i c :
  ready nprocs s fl Ls → 0 < sz ≤ 1024 → Ls !! class_idx sz = Some L →
  first_fit sz L = Some c → L !! i = Some c →
  ∃ s', mymalloc limit nprocs mm sz s = Ret (payload (addr c), s') ∧
    ready nprocs s' fl (<[class_idx sz := <[i := Cell (addr c) (csize c) 1]> L]> Ls).
Proof.
  intros Hr Hsz HL Hff Hi. pose proof Hr as [Hin Hg Ha Hok].
  destruct (mymalloc_class nprocs mm sz s fl Ls Hr Hsz) as (p & L' & Hp & HL' & ->).
  assert (L' = L) as -> by congruence.
  destruct (class_lookup s fl Ls sz Hok) as (p' & L' & cs & Hp' & Hs & HL2 & Hcl & _); [lia|].
  assert (p' = p) as -> by congruence. assert (L' = L) as -> by congruence.
  rewrite Hff. cbn [from_option]. unfold take_or_grow.
  destruct (chain_lookup _ _ c (c_chain _ _ _ _ Hcl)) as (Hz & n & Hn);
    [by eapply list_elem_of_lookup_2|].
  apply Z.eqb_neq in Hz. rewrite Hz. cbn [negb]. erewrite M_bind_run by done.
  destruct (blist_set_use _ _ _ _ _ _ 1 (bl_of _ _ _ _ Hcl) Hi) as (m & Em & [B1 B2 B3 B4] & Hother).
  erewrite M_bind_run; [|unfold lift; by rewrite Em]. eexists. split; [done|].
  split; cbn [arena_initializer g_lock_init free_lists]; try done.
  rewrite (a_unlocked _ _ _ Hok).
  assert (addr <$> <[i:=Cell (addr c) (csize c) 1]> L = addr <$> L) as Ea.
  { rewrite list_fmap_insert. cbn. rewrite list_insert_id; [done|]. by rewrite list_lookup_fmap, Hi. }
  apply (arena_update s fl Ls _ p cs L); try done.
  - apply Forall_insert; [apply Hcl|]. by apply (Forall_lookup_1 _ _ _ _ (c_size _ _ _ _ Hcl) Hi).
  - rewrite Ea. intros a Hna. apply Hother. intros ->. apply Hna, list_elem_of_fmap.
    exists c. split; [done|]. by eapply list_elem_of_lookup_2.
  - rewrite Ea. auto.
  - rewrite <-B1, <-B2. rewrite insert_id; [done|]. apply Hcl.
  - pose proof (a_brk _ _ _ Hok). lia.
Qed.

(** Writing a header to fresh memory and linking it behind a class. *)
Lemma link_fresh s s1 p sz L a u :
  class_ok s p sz L → p ≠ -1 → 0 < a → a ∉ dom (mem s) →
  lists s1 = lists s → mem s1 = <[a := Block sz u 0]> (mem s) →
  let L' := L ++ [Cell a sz u] in
  ∃ m, link p a s1 = Ret (tt, St m (<[p := BList sz (first L') (final L')]> (lists s))
         (free_lists s1) (arena_initializer s1) (g_lock_init s1) (global_lock s1) (brk s1)) ∧
    chain m L' ∧ NoDup (addr <$> L') ∧ Forall (λ c, 0 < addr c ∧ csize c = sz) L' ∧
    (∀ x, x ∉ addr <$> L' → m !! x = mem s !! x) ∧
    (∀ x, x ∈ dom m ↔ x = a ∨ x ∈ dom (mem s)).
Proof.
  intros Hcl Hp Ha Hfresh El Em1 L'.
  assert (∀ x, x ∈ addr <$> L → x ∈ dom (mem s)) as HLd.
  { intros x. rewrite list_elem_of_fmap. intros (c & -> & Hc). apply elem_of_dom.
    by destruct (chain_lookup _ _ _ (c_chain _ _ _ _ Hcl) Hc) as (_ & n & ->). }
  assert (a ∉ addr <$> L) as HfreshL by auto.
  assert (blist (<[a := Block sz u 0]> (mem s)) (first L) (final L) L) as HB.
  { destruct Hcl. split; try done. by apply chain_insert_other. }
  destruct (blist_append _ _ _ _ a sz u HB) as (m & Em & [B1 B2 B3 B4] & Hother);
    [lia|done|by rewrite lookup_insert_eq|]. fold L' in Em, B1, B2, B3, B4.
  exists m. split.
  { unfold link. erewrite M_bind_run.
    2:{ unfold read_list. by rewrite El, (c_struct _ _ _ _ Hcl). }
    erewrite M_bind_run by done. erewrite M_bind_run.
    2:{ unfold lift. cbn [lhead ltail]. by rewrite Em1, Em. }
    cbn beta iota. erewrite M_bind_run by done. unfold write_list.
    apply Z.eqb_neq in Hp. rewrite Hp. unfold set_lists. cbn. by rewrite El, B2. }
  assert (addr <$> L' = (addr <$> L) ++ [a]) as Ea by (unfold L'; by rewrite fmap_app).
  split_and!; try done.
  - apply Forall_app. split; [apply Hcl|]. by repeat constructor.
  - rewrite Ea. intros x Hx. rewrite Hother by set_solver. rewrite lookup_insert_ne; [done|]. set_solver.
  - intros x. destruct (decide (x ∈ addr <$> L)) as [Hx|Hx].
    + split; [by right; apply HLd|]. intros _. apply elem_of_dom.
      assert (x ∈ addr <$> L') as Hx' by (rewrite Ea; set_solver).
      apply list_elem_of_fmap in Hx' as (c & -> & Hc).
      by destruct (chain_lookup _ _ _ B3 Hc) as (_ & n & ->).
    + rewrite elem_of_dom, Hother by done. rewrite lookup_insert_is_Some', <-elem_of_dom. naive_solver.
Qed.

(** Without a free block the class grows by one at the break. *)
Lemma malloc_grow nprocs mm sz s fl Ls L :
  ready nprocs s fl Ls → 0 < sz ≤ 1024 → Ls !! class_idx sz = Some L → first_fit sz L = None →
  let cs := class_size (Z.of_nat (class_idx sz)) in
  brk s + BLOCK_SIZE + cs ≤ limit →
  ∃ s', mymalloc limit nprocs mm sz s = Ret (payload (brk s), s') ∧
    ready nprocs s' fl (<[class_idx sz := L ++ [Cell (brk s) cs 1]]> Ls).
Proof.
  intros Hr Hsz HL Hff cs Hroom. pose proof Hr as [Hin Hg Ha Hok].
  destruct (mymalloc_class nprocs mm sz s fl Ls Hr Hsz) as (p & L' & Hp & HL' & ->).
  assert (L' = L) as -> by congruence.
  destruct (class_lookup s fl Ls sz Hok) as (p' & L' & cs' & Hp' & Hs & HL2 & Hcl & Hle & Ecs & _); [lia|].
  assert (p' = p) as -> by congruence. assert (L' = L) as -> by congruence. fold cs in Ecs. subst cs'.
  pose proof (a_brk _ _ _ Hok) as Hb. unfold BLOCK_SIZE in *.
  rewrite Hff. cbn [from_option]. unfold take_or_grow. cbn [Z.eqb negb].
  erewrite M_bind_run; [|unfold read_list; by rewrite (c_struct _ _ _ _ Hcl)]. cbn [lsize].
  erewrite M_bind_run.
  2:{ unfold get_block. erewrite M_bind_run; [|unfold lock; by rewrite (a_unlocked _ _ _ Hok)].
      erewrite M_bind_run; [|unfold sbrk; cbn [brk]; rewrite (proj2 (Z.leb_le _ _)) by (unfold BLOCK_SIZE; lia); done].
      done. }
  cbn [mem lists free_lists arena_initializer g_lock_init brk].
  destruct (brk s =? -1) eqn:E1; [bool_to_prop; lia|]. cbn [andb].
  erewrite M_bind_run; [|unfold write_header; rewrite E1; done]. fold cs.
  cbn [mem lists free_lists arena_initializer g_lock_init brk global_lock].
  assert (brk s ∉ dom (mem s)) as Hfresh.
  { intros Hd. destruct (a_dom _ _ _ Hok _ Hd); lia. }
  assert (p ≠ -1) as Hpm.
  { intros ->. pose proof (a_ldom _ _ _ Hok (-1)) as H. rewrite elem_of_dom in H.
    rewrite (c_struct _ _ _ _ Hcl) in H. specialize (H (ex_intro _ _ eq_refl)). lia. }
  match goal with |- ∃ _, (_ ≫= _) ?s1 = _ ∧ _ =>
    destruct (link_fresh s s1 p cs L (brk s) 1) as (m & Hlink & H1 & H2 & H3 & H4 & H5)
  end; [done|done|lia|done..|].
  erewrite M_bind_run by exact Hlink. eexists. split; [done|].
  split; cbn [arena_initializer g_lock_init free_lists]; try done.
  cbn [free_lists arena_initializer g_lock_init global_lock brk].
  apply (arena_update s fl Ls _ p cs L); try done.
  - intros a. rewrite fmap_app, elem_of_app. cbn. rewrite list_elem_of_singleton.
    intros [? | ->]; [by left|]. right. split; [done|]. unfold BLOCK_SIZE. lia.
  - unfold BLOCK_SIZE. lia.
Qed.

(** The first class does not test [sbrk]: with no memory left, it writes
    through the pointer minus one; the other classes return NULL. *)
Lemma malloc_exhausted nprocs mm sz s fl Ls L :
  ready nprocs s fl Ls → 0 < sz ≤ 1024 → Ls !! class_idx sz = Some L → first_fit sz L = None →
  limit < brk s + BLOCK_SIZE + class_size (Z.of_nat (class_idx sz)) →
  mymalloc limit nprocs mm sz s = if sz <=? 64 then Undef else Ret (0, s).
Proof.
  intros Hr Hsz HL Hff Hroom. pose proof Hr as [Hin Hg Ha Hok].
  destruct (mymalloc_class nprocs mm sz s fl Ls Hr Hsz) as (p & L' & Hp & HL' & ->).
  assert (L' = L) as -> by congruence.
  destruct (class_lookup s fl Ls sz Hok) as (p' & L' & cs' & Hp' & Hs & HL2 & Hcl & Hle & Ecs & _); [lia|].
  assert (p' = p) as -> by congruence. assert (L' = L) as -> by congruence. subst cs'.
  rewrite Hff. cbn [from_option]. unfold take_or_grow. cbn [Z.eqb negb].
  erewrite M_bind_run; [|unfold read_list; by rewrite (c_struct _ _ _ _ Hcl)]. cbn [lsize].
  erewrite M_bind_run.
  2:{ unfold get_block. erewrite M_bind_run; [|unfold lock; by rewrite (a_unlocked _ _ _ Hok)].
      erewrite M_bind_run; [|unfold sbrk; cbn [brk]; rewrite (proj2 (Z.leb_gt _ _)) by lia; done].
      done. }
  change (-1 =? -1) with true. cbn [andb mem lists free_lists arena_initializer g_lock_init brk].
  rewrite with_same_lock by apply Hok. unfold class_idx.
  destruct (sz <=? 64); [done|]. by destruct (sz <=? 256).
Qed.

(** Freeing a block of a class. *)
Lemma free_class nprocs s fl Ls k L i c :
  ready nprocs s fl Ls → Ls !! k = Some L → L !! i = Some c →
  ∃ s', myfree nprocs (payload (addr c)) s = Ret (tt, s') ∧
    ready nprocs s' fl (<[k := <[i := Cell (addr c) (csize c) 0]> L]> Ls).
Proof.
  intros Hr HL Hi. pose proof Hr as [Hin Hg Ha Hok].
  assert (∃ p sz, ptrs fl !! k = Some p ∧ sizes !! k = Some sz ∧ class_idx sz = k ∧ sz ≤ 1024)
    as (p & sz & Hp & Hs & Hk & Hle).
  { pose proof (lookup_lt_Some _ _ _ HL) as Hlt. rewrite (a_len _ _ _ Hok) in Hlt.
    destruct k as [|[|[|]]]; [by eexists _, _; split_and!..|lia]. }
  pose proof (a_class _ _ _ Hok k p sz L Hp Hs HL) as Hcl.
  destruct (Forall_lookup_1 _ _ _ _ (c_size _ _ _ _ Hcl) Hi) as [Hpos Hcs].
  destruct (class_lookup s fl Ls sz Hok Hle) as (p' & L' & cs' & Hp' & _ & _ & _ & _ & _ & Hco).
  rewrite Hk in *. assert (p' = p) as -> by congruence.
  destruct (chain_lookup _ _ c (c_chain _ _ _ _ Hcl)) as (Hz & n & Hn);
    [by eapply list_elem_of_lookup_2|].
  destruct (blist_set_use _ _ _ _ _ _ 0 (bl_of _ _ _ _ Hcl) Hi) as (m & Em & [B1 B2 B3 B4] & Hother).
  assert (set_use m (addr c) 0 = Ret m) as Em2.
  { unfold set_use, get in Em |- *. rewrite Hn in Em. cbn in Em. injection Em as <-.
    rewrite lookup_insert_eq. cbn. by rewrite insert_insert_eq. }
  unfold myfree. destruct (payload (addr c) =? 0) eqn:E0;
    [bool_to_prop; unfold payload, BLOCK_SIZE in *; lia|].
  erewrite M_bind_run by done. erewrite M_bind_run; [|unfold lift; by rewrite Ha].
  replace (header_of (payload (addr c))) with (addr c) by (unfold header_of, payload; lia).
  erewrite M_bind_run; [|unfold lift, get; by rewrite Hn]. cbn [size]. rewrite Hcs.
  erewrite M_bind_run by exact Hco. cbn beta iota.
  destruct (Z.of_nat k =? 3) eqn:E3.
  { bool_to_prop. apply lookup_lt_Some in HL. rewrite (a_len _ _ _ Hok) in HL. lia. }
  erewrite M_bind_run; [|unfold read_list; by rewrite (c_struct _ _ _ _ Hcl)]. cbn [lhead].
  erewrite M_bind_run.
  2:{ unfold lift. rewrite walk_spec; [|apply Hcl| |done].
      2:{ apply chain_dom; apply Hcl. }
      rewrite bool_decide_true; [done|]. apply list_elem_of_fmap. exists c.
      split; [done|]. by eapply list_elem_of_lookup_2. }
  rewrite Z.eqb_refl. erewrite M_bind_run; [|unfold lift; by rewrite Em].
  erewrite M_bind_run; [|unfold lift; by rewrite Em2]. eexists. split; [done|].
  split; cbn [arena_initializer g_lock_init free_lists]; try done.
  rewrite (a_unlocked _ _ _ Hok).
  assert (addr <$> <[i:=Cell (addr c) (csize c) 0]> L = addr <$> L) as Ea.
  { rewrite list_fmap_insert. cbn. rewrite list_insert_id; [done|]. by rewrite list_lookup_fmap, Hi. }
  rewrite Hcs in *.
  apply (arena_update s fl Ls _ p sz L); try done.
  - apply Forall_insert; [apply Hcl|done].
  - rewrite Ea. intros a Hna. apply Hother. intros ->. apply Hna, list_elem_of_fmap.
    exists c. split; [done|]. by eapply list_elem_of_lookup_2.
  - rewrite Ea. auto.
  - rewrite <-B1, <-B2. rewrite insert_id; [done|]. apply Hcl.
  - pose proof (a_brk _ _ _ Hok). lia.
Qed.

(** *** Initialisation *)

(** All memory handed out lies below the break. *)
Definition compact (s : st) : Prop :=
  0 < brk s ∧ (∀ a, a ∈ dom (mem s) → a < brk s) ∧ (∀ p, p ∈ dom (lists s) → 0 < p < brk s).

(** [s'] extends [s]: nothing below the break [b] has changed. *)
Record extends (b : Z) (s s' : st) : Prop := {
  e_brk : brk s ≤ brk s';
  e_mem a : a < b → mem s' !! a = mem s !! a;
  e_lists p : p < b → lists s' !! p = lists s !! p;
  e_flags : arena_initializer s' = arena_initializer s ∧ g_lock_init s' = g_lock_init s ∧
            global_lock s' = global_lock s ∧ length (free_lists s') = length (free_lists s)
}.

Lemma extends_trans b b' s1 s2 s3 : b ≤ b' → extends b s1 s2 → extends b' s2 s3 → extends b s1 s3.
Proof.
  intros Hb [A1 A2 A3 A4] [B1 B2 B3 B4]. split; [lia|..].
  - intros a Ha. rewrite B2, A2 by lia. done.
  - intros p Hp. rewrite B3, A3 by lia. done.
  - naive_solver congruence.
Qed.

Lemma fill_spec cnt : ∀ s p sz L b,
  compact s → class_ok s p sz L → 0 ≤ sz → b ≤ p → (∀ c, c ∈ L → b ≤ addr c ∧ cuse c = 0) → b ≤ brk s →
  brk s + Z.of_nat cnt * (BLOCK_SIZE + sz) ≤ limit →
  ∃ s' L', fill limit p sz cnt s = Ret (true, s') ∧ compact s' ∧ class_ok s' p sz L' ∧
    length L' = (length L + cnt)%nat ∧ (∀ c, c ∈ L' → b ≤ addr c ∧ cuse c = 0) ∧
    (∀ c, c ∈ L' → addr c ∈ addr <$> L ∨ brk s ≤ addr c) ∧
    (∀ q, q ≠ p → lists s' !! q = lists s !! q) ∧
    (∀ a, a < brk s → a ∉ addr <$> L → mem s' !! a = mem s !! a) ∧
    brk s' = brk s + Z.of_nat cnt * (BLOCK_SIZE + sz) ∧
    extends b s s' ∧ free_lists s' = free_lists s.
Proof.
  induction cnt as [|cnt IH]; intros s p sz L b Hcp Hcl Hsz Hbp HL Hb Hroom; cbn [fill].
  { exists s, L. split_and!; try done; try lia.
    intros c Hc. left. apply list_elem_of_fmap. by exists c. }
  pose proof Hcp as (Hpos & Hd & Hl). unfold BLOCK_SIZE in *.
  erewrite M_bind_run; [|unfold sbrk; rewrite (proj2 (Z.leb_le _ _)) by (unfold BLOCK_SIZE; lia); done].
  destruct (brk s =? -1) eqn:E1; [bool_to_prop; lia|].
  erewrite M_bind_run; [|unfold write_header; rewrite E1; done].
  assert (brk s ∉ dom (mem s)) as Hfresh by (intros ?%Hd; lia).
  assert (0 < p < brk s) as Hp by (apply Hl, elem_of_dom; by rewrite (c_struct _ _ _ _ Hcl)).
  match goal with |- ∃ _ _, (_ ≫= _) ?s1 = _ ∧ _ =>
    destruct (link_fresh s s1 p sz L (brk s) 0) as (m & Hlink & H1 & H2 & H3 & H4 & H5)
  end; [done|lia|lia|done..|].
  set (L1 := L ++ [Cell (brk s) sz 0]) in *.
  assert (addr <$> L1 = (addr <$> L) ++ [brk s]) as Ea by (unfold L1; by rewrite fmap_app).
  assert (∀ a, a < brk s → a ∉ addr <$> L → a ∉ addr <$> L1) as Hnew.
  { intros a Ha Hn. rewrite Ea, elem_of_app, list_elem_of_singleton. intros [?|?]; [done|lia]. }
  erewrite M_bind_run by exact Hlink.
  match goal with |- ∃ _ _, fill _ _ _ _ ?s2 = _ ∧ _ => set (s2' := s2) end.
  assert (mem s2' = m) as E2 by done. assert (brk s2' = brk s + (24 + sz)) as E3 by done.
  assert (lists s2' = <[p:=BList sz (first L1) (final L1)]> (lists s)) as E4 by done.
  destruct (IH s2' p sz L1 b) as (s' & L' & EF & Cp' & Cl' & Len' & Free' & New' & Ls' & Fr' & Brk' & Ext' & FL').
  - split_and!; [lia|intros a Ha%H5; destruct Ha as [->|Ha%Hd]; lia|].
    intros q. rewrite E4, dom_insert, elem_of_union, elem_of_singleton. intros [->|Hq%Hl]; lia.
  - split; try done. by rewrite E4, lookup_insert_eq.
  - done.
  - done.
  - intros c. unfold L1. rewrite elem_of_app, list_elem_of_singleton. intros [?| ->]; [by apply HL|done].
  - lia.
  - lia.
  - exists s', L'. split_and!; try done; try lia.
    + unfold L1 in Len'. rewrite length_app in Len'. cbn in Len'. lia.
    + intros c Hc. destruct (New' c Hc) as [Hin|?]; [|right; lia].
      rewrite Ea, elem_of_app, list_elem_of_singleton in Hin. destruct Hin as [?|?]; [by left|right; lia].
    + intros q Hq. rewrite Ls', E4, lookup_insert_ne by done. done.
    + intros a Ha Hn. rewrite Fr' by (lia || by apply Hnew). rewrite E2. apply H4. by apply Hnew.
    + apply (extends_trans b b s s2' s'); [lia| |done]. split; cbn; [lia| | |done].
      * intros a Ha. apply H4. rewrite Ea, elem_of_app, list_elem_of_singleton.
        intros [Hin|?]; [|lia]. apply list_elem_of_fmap in Hin as (c & -> & Hc).
        pose proof (HL c Hc). lia.
      * intros q Hq. rewrite lookup_insert_ne; [done|]. lia.
Qed.

(** A class whose struct and blocks lie between two breaks, all blocks free. *)
Record class_in (s : st) (p sz : Z) (L : list cell) (lo hi : Z) : Prop := {
  ci_ok : class_ok s p sz L;
  ci_ptr : lo ≤ p < hi;
  ci_cells c : c ∈ L → lo ≤ addr c < hi ∧ cuse c = 0
}.

Lemma class_in_extends s s' p sz L lo hi :
  class_in s p sz L lo hi → extends hi s s' → class_in s' p sz L lo hi.
Proof.
  intros [[C1 C2 C3 C4] Hp Hc] [E1 E2 E3 _]. split; [split|..]; try done.
  - by rewrite E3 by lia.
  - eapply chain_frame; [|done]. intros a. rewrite list_elem_of_fmap. intros (c & -> & Hin).
    apply E2. pose proof (Hc c Hin). lia.
Qed.

(** Allocating, registering and filling one list. *)
Lemma init_class s i a0 sz (f : Z → arena → arena) cnt :
  compact s → 0 ≤ sz → arr_get (free_lists s) i = Ret a0 → 0 ≤ cnt →
  brk s + LIST_SIZE + cnt * (BLOCK_SIZE + sz) ≤ limit →
  ∃ s' L, init_list limit i sz f cnt s = Ret (true, s') ∧
    compact s' ∧ class_in s' (brk s) sz L (brk s) (brk s') ∧
    length L = Z.to_nat cnt ∧ extends (brk s) s s' ∧
    free_lists s' = <[Z.to_nat i := f (brk s) a0]> (free_lists s) ∧
    brk s' = brk s + LIST_SIZE + cnt * (BLOCK_SIZE + sz).
Proof.
  intros Hcp Hsz Ha Hcnt Hroom. pose proof Hcp as (Hpos & Hd & Hl). unfold LIST_SIZE in *.
  assert (0 ≤ cnt * (BLOCK_SIZE + sz)) as Hnn by (unfold BLOCK_SIZE; lia).
  unfold init_list, new_list. erewrite M_bind_run.
  2:{ erewrite M_bind_run; [|unfold sbrk, LIST_SIZE; rewrite (proj2 (Z.leb_le _ _)) by lia; done].
      unfold write_list. destruct (brk s =? -1) eqn:E1; [bool_to_prop; lia|]. done. }
  pose proof Ha as Ha'. apply arr_get_Ret in Ha' as [Hi0 Hi]. pose proof (lookup_lt_Some _ _ _ Hi) as Hlt.
  erewrite M_bind_run.
  2:{ unfold set_arena. cbn [free_lists]. rewrite Ha. cbn [mbind outcome_bind].
      rewrite arr_set_in by lia. done. }
  cbn [mem lists arena_initializer g_lock_init global_lock brk].
  match goal with |- ∃ _ _, fill _ _ _ _ ?s1 = _ ∧ _ => set (s1' := s1) end.
  destruct (fill_spec (Z.to_nat cnt) s1' (brk s) sz [] (brk s)) as
    (s' & L & EF & Cp & Cl & Len & Free & _ & _ & _ & Brk & Ext & FL).
  - split_and!; cbn; [unfold LIST_SIZE; lia|intros a Hin%Hd; unfold LIST_SIZE; lia|].
    intros q. rewrite dom_insert, elem_of_union, elem_of_singleton. unfold LIST_SIZE.
    intros [->|Hq%Hl]; lia.
  - split; cbn; [by rewrite lookup_insert_eq|done|constructor|constructor].
  - done.
  - lia.
  - intros c. by intros ?%not_elem_of_nil.
  - cbn. unfold LIST_SIZE. lia.
  - cbn. unfold LIST_SIZE. lia.
  - exists s', L. rewrite EF. rewrite Z2Nat.id in Brk by done.
    change (brk s1') with (brk s + LIST_SIZE) in Brk. unfold LIST_SIZE in *. split_and!; try done.
    + split; [done|lia|]. intros c Hc. destruct (Free c Hc). split; [|done].
      destruct Cp as (_ & Hd' & _). split; [done|]. apply Hd', elem_of_dom.
      by destruct (chain_lookup _ _ _ (c_chain _ _ _ _ Cl) Hc) as (_ & n & ->).
    + apply (extends_trans _ (brk s) s s1' s'); [lia| |done]. split; cbn; [unfold LIST_SIZE; lia|done| |].
      * intros q Hq. rewrite lookup_insert_ne; [done|lia].
      * by rewrite length_insert.
Qed.

(** The memory one arena takes. *)
Definition ARENA_BYTES : Z :=
  4 * LIST_SIZE + NUM_64_BLOCKS * (BLOCK_SIZE + 64) + NUM_256_BLOCKS * (BLOCK_SIZE + 256) +
  NUM_1024_BLOCKS * (BLOCK_SIZE + 1024).

(** An initialised arena: its three classes and the empty fourth list. *)
Record placed (s : st) (fl : arena) (L0 L1 L2 : list cell) (b0 b1 b2 b3 : Z) : Prop := {
  p_64 : class_in s (block_64 fl) 64 L0 b0 b1;
  p_256 : class_in s (block_256 fl) 256 L1 b1 b2;
  p_1024 : class_in s (block_1024 fl) 1024 L2 b2 b3;
  p_over : lists s !! over_1024_block fl = Some (BList 1025 0 0);
  p_next : b3 ≤ over_1024_block fl < brk s;
  p_len : length L0 = Z.to_nat NUM_64_BLOCKS ∧ length L1 = Z.to_nat NUM_256_BLOCKS ∧
          length L2 = Z.to_nat NUM_1024_BLOCKS;
  p_order : 0 < b0 ≤ b1 ∧ b1 ≤ b2 ≤ b3
}.

Lemma extends_weaken b b' s s' : b' ≤ b → extends b s s' → extends b' s s'.
Proof. intros Hb [H1 H2 H3 H4]. split; [done|..|done]; intros; (apply H2 || apply H3); lia. Qed.

Lemma placed_extends s s' fl L0 L1 L2 b0 b1 b2 b3 :
  placed s fl L0 L1 L2 b0 b1 b2 b3 → extends (brk s) s s' → placed s' fl L0 L1 L2 b0 b1 b2 b3.
Proof.
  intros [P0 P1 P2 P3 P4 P5 P6] HE. split; try done.
  - eapply class_in_extends; [done|]. eapply extends_weaken; [|done]. lia.
  - eapply class_in_extends; [done|]. eapply extends_weaken; [|done]. lia.
  - eapply class_in_extends; [done|]. eapply extends_weaken; [|done]. lia.
  - by rewrite (e_lists _ _ _ HE) by lia.
  - pose proof (e_brk _ _ _ HE). lia.
Qed.

Lemma init_one_spec s i a0 :
  compact s → arr_get (free_lists s) i = Ret a0 → brk s + ARENA_BYTES ≤ limit →
  ∃ s' fl L0 L1 L2 b0 b1 b2 b3, init_one limit i s = Ret (true, s') ∧ compact s' ∧
    placed s' fl L0 L1 L2 b0 b1 b2 b3 ∧ extends (brk s) s s' ∧
    free_lists s' = <[Z.to_nat i := fl]> (free_lists s) ∧ brk s' = brk s + ARENA_BYTES.
Proof.
  intros Hcp Ha Hroom. pose proof (proj1 Hcp) as Hpos. unfold ARENA_BYTES, NUM_64_BLOCKS, NUM_256_BLOCKS, NUM_1024_BLOCKS, LIST_SIZE,
    BLOCK_SIZE in *.
  assert (∀ (l : list arena) b, 0 ≤ i → (Z.to_nat i < length l)%nat →
    arr_get (<[Z.to_nat i := b]> l) i = Ret b) as Hget.
  { intros l b H0 Hlt. apply arr_get_Ret. split; [lia|]. by apply list_lookup_insert_eq. }
  pose proof Ha as Ha'. apply arr_get_Ret in Ha' as [Hi0 Hi]. pose proof (lookup_lt_Some _ _ _ Hi) as Hlt.
  unfold init_one, NUM_64_BLOCKS, NUM_256_BLOCKS, NUM_1024_BLOCKS.
  destruct (init_class s i a0 64 (λ p a, Arena p (block_256 a) (block_1024 a) (over_1024_block a)) 1024)
    as (s1 & L0 & E1 & Cp1 & C0 & Len0 & Ext1 & FL1 & Brk1);
    [done|lia|done|lia|unfold LIST_SIZE, BLOCK_SIZE; lia|].
  erewrite M_bind_run by exact E1. cbn [negb]. unfold LIST_SIZE, BLOCK_SIZE in Brk1.
  set (a1 := Arena _ _ _ _) in FL1.
  destruct (init_class s1 i a1 256 (λ p a, Arena (block_64 a) p (block_1024 a) (over_1024_block a)) 512)
    as (s2 & L1 & E2 & Cp2 & C1 & Len1 & Ext2 & FL2 & Brk2);
    [done|lia|rewrite FL1; by apply Hget|lia|unfold LIST_SIZE, BLOCK_SIZE; lia|].
  erewrite M_bind_run by exact E2. cbn [negb]. unfold LIST_SIZE, BLOCK_SIZE in Brk2.
  set (a2 := Arena _ _ _ _) in FL2. rewrite FL1, list_insert_insert_eq in FL2.
  destruct (init_class s2 i a2 1024 (λ p a, Arena (block_64 a) (block_256 a) p (over_1024_block a)) 64)
    as (s3 & L2 & E3 & Cp3 & C2 & Len2 & Ext3 & FL3 & Brk3);
    [done|lia|rewrite FL2; by apply Hget|lia|unfold LIST_SIZE, BLOCK_SIZE; lia|].
  erewrite M_bind_run by exact E3. cbn [negb]. unfold LIST_SIZE, BLOCK_SIZE in Brk3.
  set (a3 := Arena _ _ _ _) in FL3. rewrite FL2, list_insert_insert_eq in FL3.
  destruct (init_class s3 i a3 1025 (λ p a, Arena (block_64 a) (block_256 a) (block_1024 a) p) 0)
    as (s4 & L3 & E4 & Cp4 & C3 & Len3 & Ext4 & FL4 & Brk4);
    [done|lia|rewrite FL3; by apply Hget|lia|unfold LIST_SIZE, BLOCK_SIZE; lia|].
  unfold LIST_SIZE, BLOCK_SIZE in Brk4.
  set (a4 := Arena _ _ _ _) in FL4. rewrite FL3, list_insert_insert_eq in FL4.
  exists s4, a4, L0, L1, L2, (brk s), (brk s1), (brk s2), (brk s3).
  assert (extends (brk s2) s2 s4) as X2 by (eapply extends_trans; [|exact Ext3|exact Ext4]; lia).
  assert (extends (brk s1) s1 s4) as X1 by (eapply extends_trans; [|exact Ext2|exact X2]; lia).
  split_and!; try done; [| |lia].
  - destruct C3 as [[C3 _ _ _] _ _]. destruct L3; [|done]. split; try done.
    + eapply class_in_extends; [exact C0|exact X1].
    + eapply class_in_extends; [exact C1|exact X2].
    + eapply class_in_extends; [exact C2|exact Ext4].
    + cbn. lia.
    + lia.
  - eapply extends_trans; [|exact Ext1|exact X1]. lia.
Qed.

(** Arena [t] is in place. *)
Definition has_arena (s : st) (t : nat) : Prop :=
  ∃ fl L0 L1 L2 b0 b1 b2 b3, free_lists s !! t = Some fl ∧
    placed s fl L0 L1 L2 b0 b1 b2 b3.

Lemma init_loop_spec cnt : ∀ i s,
  compact s → 0 ≤ i → (Z.to_nat i + cnt = length (free_lists s))%nat →
  (∀ t, (t < Z.to_nat i)%nat → has_arena s t) →
  brk s + Z.of_nat cnt * ARENA_BYTES ≤ limit →
  ∃ s', init_loop limit i cnt s = Ret (tt, s') ∧ compact s' ∧ extends (brk s) s s' ∧
    (∀ t, (t < length (free_lists s))%nat → has_arena s' t) ∧ brk s' ≤ limit.
Proof.
  induction cnt as [|cnt IH]; intros i s Hcp Hi Hlen Hdone Hroom; cbn [init_loop].
  { exists s. split_and!; try done; [|lia]. intros t Ht. apply Hdone. lia. }
  assert (0 < ARENA_BYTES) as HA by done.
  destruct (arr_get_in (free_lists s) i) as (a0 & Ha0 & _); [lia|].
  destruct (init_one_spec s i a0) as (s1 & fl & L0 & L1 & L2 & b0 & b1 & b2 & b3 & E1 & Cp1 & Pl & Ext & FL & Brk);
    [done|done|lia|].
  erewrite M_bind_run by exact E1. cbn beta iota.
  destruct (IH (i + 1) s1) as (s' & E & Cp' & Ext' & Hall & Hlim); [done|lia| | |lia|].
  - rewrite FL, length_insert. lia.
  - intros t Ht. destruct (decide (t = Z.to_nat i)) as [->|Hne].
    + exists fl, L0, L1, L2, b0, b1, b2, b3. split; [|done].
      rewrite FL. apply list_lookup_insert_eq. lia.
    + destruct (Hdone t) as (fl' & M0 & M1 & M2 & c0 & c1 & c2 & c3 & Hl & Hp); [lia|].
      exists fl', M0, M1, M2, c0, c1, c2, c3. split; [|by eapply placed_extends].
      rewrite FL, list_lookup_insert_ne by done. done.
  - exists s'. rewrite FL, length_insert in Hall. split_and!; try done.
    eapply extends_trans; [|exact Ext|exact Ext']. lia.
Qed.

Lemma placed_arena_ok s fl L0 L1 L2 b0 b1 b2 b3 :
  placed s fl L0 L1 L2 b0 b1 b2 b3 → compact s → brk s ≤ limit → global_lock s = false →
  arena_ok s fl [L0; L1; L2].
Proof.
  intros [[C0 P0 A0] [C1 P1 A1] [C2 P2 A2] P3 P4 P5 P6] (Hpos & Hd & Hl) Hlim Hu.
  assert (∀ (L : list cell) a lo hi, (∀ c, c ∈ L → lo ≤ addr c < hi ∧ cuse c = 0) → a ∈ addr <$> L → lo ≤ a < hi) as Hin.
  { intros L a lo hi HL Ha. apply list_elem_of_fmap in Ha as (c & -> & Hc). by apply HL. }
  split; try done.
  - intros k p sz L Hp Hs HL. destruct k as [|[|[|]]]; cbn in *; by simplify_eq.
  - intros j k L L' a Hjk HL HL' Ha Ha'.
    destruct j as [|[|[|]]], k as [|[|[|]]]; cbn in HL, HL'; simplify_eq; try done;
      repeat match goal with
      | H : a ∈ addr <$> ?L, A : (∀ c, c ∈ ?L → _) |- _ => apply (Hin _ _ _ _ A) in H
      end; lia.
  - cbn. repeat apply NoDup_cons_2; [set_unfold; lia..|apply NoDup_nil_2].
  - intros a Ha. left. by apply Hd.
Qed.

Definition start (b : Z) : st :=
  St ∅ ∅ (replicate (Z.to_nat PROCS) (Arena 0 0 0 0)) 0 0 false b.

(** The first call initialises the arenas and goes on as a later call does. *)
Lemma first_call b nprocs :
  0 < b → b + PROCS * ARENA_BYTES ≤ limit → 0 ≤ nprocs →
  ∃ s fl L0 L1 L2, ready nprocs s fl [L0; L1; L2] ∧
    length L0 = Z.to_nat NUM_64_BLOCKS ∧ length L1 = Z.to_nat NUM_256_BLOCKS ∧
    length L2 = Z.to_nat NUM_1024_BLOCKS ∧ (∀ c, c ∈ L0 ++ L1 ++ L2 → cuse c = 0) ∧
    ∀ mm sz, mymalloc limit nprocs mm sz (start b) = mymalloc limit nprocs mm sz s.
Proof.
  intros Hb Hroom Hn.
  set (s0 := St ∅ ∅ (replicate (Z.to_nat PROCS) (Arena 0 0 0 0)) 0 1 true b).
  destruct (init_loop_spec (Z.to_nat PROCS) 0 s0) as (s1 & E & Cp & [X1 X2 X3 X4] & Hall & Hlim).
  - split_and!; [done|..]; cbn; intros a; by rewrite dom_empty_L.
  - done.
  - cbn [s0 free_lists]. rewrite length_replicate. done.
  - lia.
  - rewrite Z2Nat.id by done. done.
  - assert (0 ≤ Z.rem nprocs PROCS < PROCS) as Hr by (apply Z.rem_bound_pos; done).
    destruct (Hall (Z.to_nat (Z.rem nprocs PROCS))) as (fl & L0 & L1 & L2 & b0 & b1 & b2 & b3 & Hfl & Hp).
    { cbn [s0 free_lists]. rewrite length_replicate. lia. }
    cbn [s0 arena_initializer g_lock_init global_lock free_lists] in X4. destruct X4 as (X4 & X5 & X6 & _).
    set (s := St (mem s1) (lists s1) (free_lists s1) 1 1 false (brk s1)).
    assert (arena_ok s fl [L0; L1; L2]) as Hok.
    { apply (placed_arena_ok s fl L0 L1 L2 b0 b1 b2 b3); try done. destruct Hp as [[[] ? ?] [[] ? ?] [[] ? ?] ? ? ? ?].
      by split; try done; split; try done; split. }
    exists s, fl, L0, L1, L2. split.
    { split; try done. apply arr_get_Ret. split; [lia|done]. }
    destruct Hp as [[_ _ A0] [_ _ A1] [_ _ A2] _ _ (? & ? & ?) _]. split_and!; try done.
    + intros c. rewrite !elem_of_app. intros [Hc|[Hc|Hc]]; [by apply A0|by apply A1|by apply A2].
    + intros mm sz. unfold mymalloc.
      erewrite (M_bind_run get_st) by done. cbn [start g_lock_init Z.eqb].
      erewrite (M_bind_run init_lock) by done. erewrite (M_bind_run lock) by done.
      erewrite (M_bind_run get_st) by done. cbn [start arena_initializer Z.eqb].
      erewrite M_bind_run.
      2:{ erewrite M_bind_run by exact E. done. }
      erewrite (M_bind_run unlock) by done. rewrite X5.
      erewrite (M_bind_run get_st _ s) by done.
      symmetry. erewrite (M_bind_run get_st _ s) by done. erewrite M_bind_run by done.
      erewrite (M_bind_run lock _ s) by done. erewrite (M_bind_run get_st) by done.
      erewrite M_bind_run by done. erewrite (M_bind_run unlock) by done.
      erewrite (M_bind_run get_st) by done. done.
Qed.
End a6_proofs.
End A6Proofs.

(** Initialisation: the first call of Assignment6's [mymalloc], with
    memory for the 32 arenas, builds for the arena in use lists of 1024, 512
    and 64 free blocks of 64, 256 and 1024 bytes that do not overlap, and then
    behaves as a call on the initialised allocator. *)
Theorem a6_first_call (limit b nprocs : Z) :
  0 < b → b + A6.PROCS * A6Proofs.ARENA_BYTES ≤ limit → 0 ≤ nprocs →
  ∃ s fl L0 L1 L2, A6Proofs.ready limit nprocs s fl [L0; L1; L2] ∧
    length L0 = Z.to_nat 1024 ∧ length L1 = Z.to_nat 512 ∧ length L2 = Z.to_nat 64 ∧
    (∀ c, c ∈ L0 ++ L1 ++ L2 → BlockList.cuse c = 0) ∧
    ∀ mm sz, A6.mymalloc limit nprocs mm sz (A6Proofs.start b) = A6.mymalloc limit nprocs mm sz s.
Proof. apply A6Proofs.first_call. Qed.

Lemma a6_first_call_witness :
  ∃ s fl L0 L1 L2, A6Proofs.ready (2 ^ 40) 4 s fl [L0; L1; L2] ∧
    length L0 = Z.to_nat 1024 ∧ length L1 = Z.to_nat 512 ∧ length L2 = Z.to_nat 64.
Proof.
  destruct (a6_first_call (2 ^ 40) 4096 4) as (s & fl & L0 & L1 & L2 & Hr & H0 & H1 & H2 & _);
    [done|done|done|].
  exists s, fl, L0, L1, L2. auto.
Defined.

(** C32. Small requests on the initialised Assignment6 allocator: [mymalloc]
    takes the first free block of the smallest class that fits, freeing it
    restores the lists; without a free block the class grows at the break; and
    with no memory left the 256 and 1024 classes return NULL, while the 64 class
    writes through the failed [sbrk]'s result. *)
Theorem a6_class_malloc (limit nprocs mm sz : Z) (s : A6.st) (fl : A6.arena)
    (Ls : list (list BlockList.cell)) (L : list BlockList.cell) :
  A6Proofs.ready limit nprocs s fl Ls → 0 < sz ≤ 1024 →
  Ls !! A6Proofs.class_idx sz = Some L →
  let cs := A6.class_size (Z.of_nat (A6Proofs.class_idx sz)) in
  sz ≤ cs ∧
  match BlockList.first_fit sz L with
  | Some c => ∃ i s' s'', L !! i = Some c ∧ BlockList.cuse c = 0 ∧ BlockList.csize c = cs ∧
      A6.mymalloc limit nprocs mm sz s = Ret (payload (BlockList.addr c), s') ∧
      A6Proofs.ready limit nprocs s' fl
        (<[A6Proofs.class_idx sz :=
             <[i := BlockList.Cell (BlockList.addr c) cs 1]> L]> Ls) ∧
      A6.myfree nprocs (payload (BlockList.addr c)) s' = Ret (tt, s'') ∧
      A6Proofs.ready limit nprocs s'' fl Ls
  | None =>
      if A6.brk s + BLOCK_SIZE + cs <=? limit then
        ∃ s', A6.mymalloc limit nprocs mm sz s = Ret (payload (A6.brk s), s') ∧
          A6Proofs.ready limit nprocs s' fl
            (<[A6Proofs.class_idx sz := L ++ [BlockList.Cell (A6.brk s) cs 1]]> Ls)
      else A6.mymalloc limit nprocs mm sz s = if sz <=? 64 then Undef else Ret (0, s)
  end.
Proof.
  intros Hr Hsz HL cs.
  destruct (A6Proofs.class_lookup limit s fl Ls sz (A6Proofs.rd_ok _ _ _ _ _ Hr))
    as (p & L' & cs' & _ & _ & HL' & Hcl & Hle & Ecs & _); [lia|].
  assert (L' = L) as -> by congruence. fold cs in Ecs. subst cs'. split; [done|].
  destruct (BlockList.first_fit sz L) as [c|] eqn:Hff.
  - destruct (BlockList.first_fit_Some _ _ _ Hff) as [Hin Hfit].
    apply list_elem_of_lookup in Hin as [i Hi]. unfold BlockList.fits in Hfit. bool_to_prop.
    destruct (Forall_lookup_1 _ _ _ _ (A6Proofs.c_size _ _ _ _ Hcl) Hi) as [_ Hcs].
    destruct (A6Proofs.malloc_take limit nprocs mm sz s fl Ls L i c Hr Hsz HL Hff Hi) as (s' & E & Hr').
    rewrite Hcs in Hr'. pose proof (lookup_lt_Some _ _ _ HL) as Hlt1. pose proof (lookup_lt_Some _ _ _ Hi).
    destruct (A6Proofs.free_class limit nprocs s' fl _ (A6Proofs.class_idx sz) _ i _ Hr'
      (list_lookup_insert_eq _ _ _ Hlt1) (list_lookup_insert_eq _ _ _ H1)) as (s'' & E'' & Hr'').
    rewrite !list_insert_insert_eq in Hr''. cbn [BlockList.addr BlockList.csize] in *.
    exists i, s', s''. split_and!; try done.
    rewrite (list_insert_id L i) in Hr''; [by rewrite list_insert_id in Hr''|].
    rewrite Hi. destruct c; cbn in *; subst; done.
  - case_if as Hroom.
    + by apply (A6Proofs.malloc_grow limit nprocs mm sz s fl Ls L).
    + eapply A6Proofs.malloc_exhausted; [done..|]. fold cs. lia.
Qed.

(** An arena with one block per class, at the addresses 100, 188 and 468. *)
Definition a6_small : A6.st :=
  A6.St {[100 := Block 64 0 0; 188 := Block 256 0 0; 468 := Block 1024 1 0]}
    {[4 := A6.BList 64 100 100; 28 := A6.BList 256 188 188; 52 := A6.BList 1024 468 468;
      76 := A6.BList 1025 0 0]}
    [A6.Arena 4 28 52 76] 1 1 false 1516.

Lemma a6_small_ready : A6Proofs.ready 4096 0 a6_small (A6.Arena 4 28 52 76)
  [[BlockList.Cell 100 64 0]; [BlockList.Cell 188 256 0]; [BlockList.Cell 468 1024 1]].
Proof.
  split; try done. split; try done.
  - intros k p sz L Hp Hs HL. destruct k as [|[|[|]]]; cbn in *; simplify_eq;
      (split; [done|done|apply NoDup_singleton|by repeat constructor]).
  - intros j k L L' a Hjk HL HL' Ha Ha'.
    destruct j as [|[|[|]]], k as [|[|[|]]]; cbn in *; simplify_eq; try done; set_unfold; naive_solver lia.
  - cbn. repeat apply NoDup_cons_2; [set_unfold; lia..|apply NoDup_nil_2].
  - intros a. unfold a6_small. cbn [A6.mem A6.brk]. rewrite !dom_insert, dom_singleton. set_unfold. lia.
  - intros a. unfold a6_small. cbn [A6.lists A6.brk]. rewrite !dom_insert, dom_singleton. set_unfold. lia.
Qed.

Lemma a6_class_malloc_witness :
  ∃ s', A6.mymalloc 4096 0 (-1) 700 a6_small = Ret (1516 + 576, s').
Proof.
  destruct (a6_class_malloc 4096 0 (-1) 700 a6_small (A6.Arena 4 28 52 76) _
    [BlockList.Cell 468 1024 1] a6_small_ready) as (_ & s' & E & _); [lia|done|].
  by exists s'.
Defined.
