(* ===== verification/Bio.v ===== *)
(** * The buffer cache (xv6 [bio.c])

    The buffers are an array of [NBUF] entries and the list head, linked in a
    ring through [prev] and [next]; a pointer is an index, the head has index
    [NBUF].  A process runs [bget] up to the sleep lock as one segment (under
    [bcache.lock]) and goes on when it gets the sleep lock.  [iderw] is the
    disk request as its caller sees it: it returns when the transfer is done. *)

From stdpp Require Import base numbers list gmap sets strings relations.
From S2P Require Import Prelude Spinlock.

Open Scope Z_scope.

Abbreviation block := (list Z).

Definition NBUF : nat := 30.
Definition HEAD : nat := NBUF.
Definition FSSIZE : Z := 1000.
Definition B_VALID : Z := 2.
Definition B_DIRTY : Z := 4.

Record buf := Buf {
  flags : Z; dev : Z; blockno : Z; lock : sleeplock; refcnt : Z;
  prev : nat; next : nat; data : block
}.

Definition set_prev (b : buf) (p : nat) : buf :=
  Buf (flags b) (dev b) (blockno b) (lock b) (refcnt b) p (next b) (data b).
Definition set_next (b : buf) (n : nat) : buf :=
  Buf (flags b) (dev b) (blockno b) (lock b) (refcnt b) (prev b) n (data b).
Definition set_refcnt (b : buf) (r : Z) : buf :=
  Buf (flags b) (dev b) (blockno b) (lock b) r (prev b) (next b) (data b).
Definition set_lock (b : buf) (l : sleeplock) : buf :=
  Buf (flags b) (dev b) (blockno b) l (refcnt b) (prev b) (next b) (data b).
Definition set_flags (b : buf) (f : Z) : buf :=
  Buf f (dev b) (blockno b) (lock b) (refcnt b) (prev b) (next b) (data b).
Definition set_data (b : buf) (d : block) : buf :=
  Buf (flags b) (dev b) (blockno b) (lock b) (refcnt b) (prev b) (next b) d.
Definition recycled (b : buf) (d n : Z) : buf :=
  Buf 0 d n (lock b) 1 (prev b) (next b) (data b).

Record bst := BSt { bufs : list buf; disk : gmap (Z * Z) block; havedisk1 : bool }.

Definition set_bufs (s : bst) (bs : list buf) : bst := BSt bs (disk s) (havedisk1 s).

Definition getb (bs : list buf) (i : nat) : outcome buf := opt (bs !! i).
Definition updb (f : buf → buf) (i : nat) (bs : list buf) : outcome (list buf) :=
  b ← getb bs i; Ret (<[i := f b]> bs).

(** ** [bio.c] *)

(** The four pointer stores that put [b] behind the head. *)
Definition push_front (b : nat) (bs : list buf) : outcome (list buf) :=
  h ← getb bs HEAD;
  bs ← updb (λ x, set_next x (next h)) b bs;
  bs ← updb (λ x, set_prev x HEAD) b bs;
  h ← getb bs HEAD;
  bs ← updb (λ x, set_prev x b) (next h) bs;
  updb (λ x, set_next x b) HEAD bs.

Fixpoint binit_loop (b : nat) (cnt : nat) (bs : list buf) : outcome (list buf) :=
  match cnt with
  | O => Ret bs
  | S cnt =>
      bs ← updb (λ x, set_lock x initsleeplock) b bs;
      bs ← push_front b bs;
      binit_loop (S b) cnt bs
  end.
Definition binit (bs : list buf) : outcome (list buf) :=
  bs ← updb (λ x, set_prev x HEAD) HEAD bs;
  bs ← updb (λ x, set_next x HEAD) HEAD bs;
  binit_loop 0 NBUF bs.

(** The first loop of [bget]. *)
Fixpoint find_cached (bs : list buf) (d n : Z) (b : nat) (fuel : nat) : outcome (option nat) :=
  if (b =? HEAD)%nat then Ret None
  else
    match fuel with
    | O => NoFuel
    | S fuel =>
        x ← getb bs b;
        if (dev x =? d) && (blockno x =? n) then Ret (Some b) else find_cached bs d n (next x) fuel
    end.

(** The second loop: least recently used first. *)
Fixpoint find_unused (bs : list buf) (b : nat) (fuel : nat) : outcome (option nat) :=
  if (b =? HEAD)%nat then Ret None
  else
    match fuel with
    | O => NoFuel
    | S fuel =>
        x ← getb bs b;
        if (refcnt x =? 0) && (Z.land (flags x) B_DIRTY =? 0) then Ret (Some b)
        else find_unused bs (prev x) fuel
    end.

(** [bget] up to [acquiresleep]. *)
Definition bget (d n : Z) : M bst nat := fun s =>
  h ← getb (bufs s) HEAD;
  hit ← find_cached (bufs s) d n (next h) NBUF;
  match hit with
  | Some b =>
      bs ← updb (λ x, set_refcnt x (u32 (refcnt x + 1))) b (bufs s);
      Ret (b, set_bufs s bs)
  | None =>
      free ← find_unused (bufs s) (prev h) NBUF;
      match free with
      | Some b =>
          bs ← updb (λ x, recycled x d n) b (bufs s);
          Ret (b, set_bufs s bs)
      | None => Panic "bget: no buffers"
      end
  end.

(** [iderw] ([ide.c]): the panics of [iderw] and [idestart], then the transfer
    and the flags the interrupt handler leaves. *)
Definition iderw (i : nat) : M bst unit := fun s =>
  b ← getb (bufs s) i;
  if negb (holdingsleep (lock b)) then Panic "iderw: buf not locked"
  else if Z.land (flags b) (Z.lor B_VALID B_DIRTY) =? B_VALID then Panic "iderw: nothing to do"
  else if negb (dev b =? 0) && negb (havedisk1 s) then Panic "iderw: ide disk 1 not present"
  else if FSSIZE <=? blockno b then Panic "incorrect blockno"
  else
    let flags' := Z.land (Z.lor (flags b) B_VALID) (Z.lnot B_DIRTY) in
    if negb (Z.land (flags b) B_DIRTY =? 0) then
      Ret (tt, BSt (<[i := set_flags b flags']> (bufs s))
                 (<[(dev b, blockno b) := data b]> (disk s)) (havedisk1 s))
    else
      d ← opt (disk s !! (dev b, blockno b));
      Ret (tt, set_bufs s (<[i := set_data (set_flags b flags') d]> (bufs s))).

(** The rest of [bread], once the sleep lock can be taken: [None] while it is
    held by another process. *)
Definition bread_locked (i : nat) (pid : Z) : M bst (option unit) := fun s =>
  b ← getb (bufs s) i;
  match acquiresleep (lock b) pid with
  | None => Ret (None, s)
  | Some l =>
      let s := set_bufs s (<[i := set_lock b l]> (bufs s)) in
      if Z.land (flags b) B_VALID =? 0 then
        '(_, s) ← iderw i s; Ret (Some tt, s)
      else Ret (Some tt, s)
  end.

Definition bwrite (i : nat) : M bst unit := fun s =>
  b ← getb (bufs s) i;
  if negb (holdingsleep (lock b)) then Panic "bwrite"
  else iderw i (set_bufs s (<[i := set_flags b (Z.lor (flags b) B_DIRTY)]> (bufs s))).

(** The two stores that take [b] out of the ring. *)
Definition unlink (b : nat) (bs : list buf) : outcome (list buf) :=
  x ← getb bs b;
  bs ← updb (λ y, set_prev y (prev x)) (next x) bs;
  x ← getb bs b;
  updb (λ y, set_next y (next x)) (prev x) bs.

Definition brelse (i : nat) : M bst unit := fun s =>
  b ← getb (bufs s) i;
  if negb (holdingsleep (lock b)) then Panic "brelse"
  else
    bs ← updb (λ x, set_lock x (releasesleep (lock x))) i (bufs s);
    bs ← updb (λ x, set_refcnt x (u32 (refcnt x - 1))) i bs;
    b ← getb bs i;
    if refcnt b =? 0 then
      bs ← unlink i bs;
      bs ← push_front i bs;
      Ret (tt, set_bufs s bs)
    else Ret (tt, set_bufs s bs).

(** ** The ring *)

(** [path nx pv a l b]: from [a] through [l] to [b] along [nx], and back. *)
Fixpoint path (nx pv : nat → nat) (a : nat) (l : list nat) (b : nat) : Prop :=
  match l with
  | [] => nx a = b ∧ pv b = a
  | x :: l => nx a = x ∧ pv x = a ∧ path nx pv x l b
  end.

Definition nx (bs : list buf) (i : nat) : nat := from_option next 0%nat (bs !! i).
Definition pv (bs : list buf) (i : nat) : nat := from_option prev 0%nat (bs !! i).

(** The ring holds [l] in order, most recently used first. *)
Definition ring (bs : list buf) (l : list nat) : Prop := path (nx bs) (pv bs) HEAD l HEAD.

Lemma path_app nx pv l1 x l2 b : ∀ a,
  path nx pv a (l1 ++ x :: l2) b ↔ path nx pv a l1 x ∧ path nx pv x l2 b.
Proof. induction l1 as [|y l1 IH]; intros a; cbn; [|rewrite IH]; tauto. Qed.

Lemma path_ext (nx nx' pv pv' : nat → nat) l b : ∀ a,
  (∀ x, x ∈ a :: l → nx' x = nx x) → (∀ x, x ∈ b :: l → pv' x = pv x) →
  path nx pv a l b → path nx' pv' a l b.
Proof.
  induction l as [|y l IH]; intros a Hn Hp; cbn.
  - intros [H1 H2]. rewrite Hn, Hp by set_solver. done.
  - intros (H1 & H2 & H). rewrite Hn, Hp by set_solver. split_and!; [done..|].
    apply IH; [intros; apply Hn|intros; apply Hp|done]; set_solver.
Qed.

(** Taking an element out of a path. *)
Lemma path_remove (f g f' g' : nat → nat) l1 x l2 a b :
  NoDup (a :: l1 ++ x :: l2) → b ∉ l1 ++ x :: l2 → path f g a (l1 ++ x :: l2) b →
  (∀ y, f' y = if decide (y = g x) then f x else f y) →
  (∀ y, g' y = if decide (y = f x) then g x else g y) →
  path f' g' a (l1 ++ l2) b.
Proof.
  intros Hnd Hb Hp Hf Hg.
  destruct l1 as [|p l1 _] using rev_ind; destruct l2 as [|n l2]; cbn in *;
    rewrite ?app_nil_r in *.
  - destruct Hp as (F1 & G1 & F2 & G2). subst. rewrite Hf, Hg, !decide_True by done. done.
  - destruct Hp as (F1 & G1 & F2 & G2 & Hp). subst x n. rewrite Hf, Hg, !decide_True by done.
    split_and!; [done..|]. eapply path_ext; [..|exact Hp].
    + intros y Hy. rewrite Hf, decide_False; [done|]. intros ->. rewrite G1 in Hy.
      apply NoDup_cons in Hnd as [Hnd _]. set_solver.
    + intros y Hy. rewrite Hg, decide_False; [done|]. intros ->. 
      apply NoDup_cons in Hnd as [_ Hnd]. apply NoDup_cons in Hnd as [_ Hnd].
      apply NoDup_cons in Hnd as [Hnd _]. set_solver.
  - rewrite <-app_assoc in Hp. cbn in Hp. apply path_app in Hp as [H1 (F1 & G1 & F2 & G2)].
    apply path_app. split.
    + eapply path_ext; [..|exact H1].
      * intros y Hy. rewrite Hf, decide_False; [done|]. intros ->. rewrite G1 in Hy.
        apply NoDup_cons in Hnd as [Hn1 Hn2]. rewrite <-app_assoc in Hn2. apply NoDup_app in Hn2 as (_ & Hn2 & _).
        set_solver.
      * intros y Hy. rewrite Hg, decide_False; [done|]. intros ->. set_solver.
    + cbn. rewrite Hf, Hg, G1, F2, !decide_True by done. done.
  - rewrite <-app_assoc in Hp. cbn in Hp. apply path_app in Hp as [H1 (F1 & G1 & F2 & G2 & H2)].
    rewrite <-app_assoc. cbn. apply path_app. rewrite <-app_assoc in Hnd. cbn in Hnd.
    apply NoDup_cons in Hnd as [Hn1 Hn2]. apply NoDup_app in Hn2 as (_ & Hn2 & Hn3).
    apply NoDup_cons in Hn3 as [Hn3 Hn4]. apply NoDup_cons in Hn4 as [Hn4 Hn5].
    apply NoDup_cons in Hn5 as [Hn5 Hn6]. split.
    + eapply path_ext; [..|exact H1].
      * intros y Hy. rewrite Hf, decide_False; [done|]. intros ->. rewrite G1 in Hy. set_solver.
      * intros y Hy. rewrite Hg, decide_False; [done|]. intros ->. rewrite F2 in Hy. set_solver.
    + cbn. rewrite Hf, Hg, G1, F2, !decide_True by done. split_and!; [done..|].
      eapply path_ext; [..|exact H2].
      * intros y Hy. rewrite Hf, decide_False; [done|]. intros ->. rewrite G1 in Hy. set_solver.
      * intros y Hy. rewrite Hg, decide_False; [done|]. intros ->. rewrite F2 in Hy. set_solver.
Qed.

(** Inserting behind the first element. *)
Lemma path_push (f g f' g' : nat → nat) l x a :
  NoDup (a :: l) → x ≠ a → x ∉ l → path f g a l a →
  (∀ y, f' y = if decide (y = a) then x else if decide (y = x) then f a else f y) →
  (∀ y, g' y = if decide (y = f a) then x else if decide (y = x) then a else g y) →
  path f' g' a (x :: l) a.
Proof.
  intros Hnd Hxa Hxl Hp Hf Hg. apply NoDup_cons in Hnd as [Ha Hnd].
  assert (f a ≠ x) as Hfx.
  { destruct l as [|n l]; cbn in Hp; destruct Hp as [E _]; rewrite E; [done|].
    intros ->. apply Hxl. left. }
  cbn. rewrite Hf, decide_True by done. rewrite Hg, decide_False, decide_True by done.
  split_and!; [done..|].
  destruct l as [|n l]; cbn in Hp |- *.
  - destruct Hp as [F G]. rewrite Hf, decide_False, decide_True, Hg, decide_True by done. done.
  - destruct Hp as (F & G & Hp). apply NoDup_cons in Hnd as [Hn Hnd].
    rewrite Hf, decide_False, decide_True, Hg, decide_True by done.
    split_and!; [done..|]. eapply path_ext; [..|exact Hp].
    + intros y Hy. rewrite Hf, !decide_False; [done|intros ->; (by apply Hxl) || (by apply Ha)..].
    + assert (∀ y, y ∈ a :: l → y ≠ x ∧ y ≠ n) as Hy.
      { intros y. rewrite elem_of_cons. intros [->|Hy]; split.
        - done.
        - intros ->. apply Ha. left.
        - intros ->. apply Hxl. by right.
        - intros ->. done. }
      intros y [? ?]%Hy. rewrite Hg, F, !decide_False by done. done.
Qed.

(** Everything but the links. *)
Definition core (b : buf) : buf := set_next (set_prev b 0) 0.
Definition same_core (bs bs' : list buf) : Prop := core <$> bs = core <$> bs'.

Lemma core_insert bs i x x' : bs !! i = Some x → core x' = core x → same_core bs (<[i := x']> bs).
Proof.
  intros Hi Hc. unfold same_core. rewrite list_fmap_insert, Hc.
  rewrite list_insert_id; [done|]. by rewrite list_lookup_fmap, Hi.
Qed.

Lemma same_core_length bs bs' : same_core bs bs' → length bs' = length bs.
Proof. intros H. apply (f_equal length) in H. by rewrite !length_fmap in H. Qed.

Lemma same_core_lookup bs bs' i x : same_core bs bs' → bs !! i = Some x →
  ∃ x', bs' !! i = Some x' ∧ core x' = core x.
Proof.
  intros H Hi. assert ((core <$> bs') !! i = Some (core x)) as H' by (by rewrite <-H, list_lookup_fmap, Hi).
  rewrite list_lookup_fmap in H'. destruct (bs' !! i) as [x'|]; [|done]. exists x'. split; [done|]. by apply (inj Some).
Qed.

Lemma set_next_spec bs i n : (i < length bs)%nat →
  ∃ bs', updb (λ x, set_next x n) i bs = Ret bs' ∧ same_core bs bs' ∧
    (∀ j, nx bs' j = if decide (j = i) then n else nx bs j) ∧ (∀ j, pv bs' j = pv bs j).
Proof.
  intros Hi. destruct (lookup_lt_is_Some_2 bs i Hi) as [x Hx]. unfold updb, getb. rewrite Hx.
  cbn [opt mbind outcome_bind]. eexists. split; [done|]. split; [by apply (core_insert _ _ x)|].
  unfold nx, pv. split; intros j; destruct (decide (j = i)) as [->|Hne];
    rewrite ?list_lookup_insert_eq, ?list_lookup_insert_ne by done; cbn; rewrite ?Hx; done.
Qed.

Lemma set_prev_spec bs i n : (i < length bs)%nat →
  ∃ bs', updb (λ x, set_prev x n) i bs = Ret bs' ∧ same_core bs bs' ∧
    (∀ j, pv bs' j = if decide (j = i) then n else pv bs j) ∧ (∀ j, nx bs' j = nx bs j).
Proof.
  intros Hi. destruct (lookup_lt_is_Some_2 bs i Hi) as [x Hx]. unfold updb, getb. rewrite Hx.
  cbn [opt mbind outcome_bind]. eexists. split; [done|]. split; [by apply (core_insert _ _ x)|].
  unfold nx, pv. split; intros j; destruct (decide (j = i)) as [->|Hne];
    rewrite ?list_lookup_insert_eq, ?list_lookup_insert_ne by done; cbn; rewrite ?Hx; done.
Qed.

Lemma getb_links bs i : (i < length bs)%nat →
  ∃ b, getb bs i = Ret b ∧ bs !! i = Some b ∧ next b = nx bs i ∧ prev b = pv bs i.
Proof.
  intros Hi. destruct (lookup_lt_is_Some_2 bs i Hi) as [x Hx]. exists x. unfold getb, nx, pv.
  by rewrite Hx.
Qed.

(** A ring of buffers below the head. *)
Record ring_ok (bs : list buf) (l : list nat) : Prop := {
  rg_len : length bs = S HEAD;
  rg_path : ring bs l;
  rg_nodup : NoDup l;
  rg_below : Forall (λ i, (i < HEAD)%nat) l
}.

Lemma ring_next_below bs l : ring_ok bs l → (nx bs HEAD ≤ HEAD)%nat.
Proof.
  intros [_ Hp _ Hb]. unfold ring in Hp. destruct l as [|x l]; cbn in Hp; [lia|].
  destruct Hp as (-> & _). apply Forall_cons in Hb as [? _]. lia.
Qed.

Lemma push_front_spec bs l b :
  ring_ok bs l → (b < HEAD)%nat → b ∉ l →
  ∃ bs', push_front b bs = Ret bs' ∧ ring_ok bs' (b :: l) ∧ same_core bs bs'.
Proof.
  intros Hr Hb Hbl. pose proof (ring_next_below _ _ Hr) as Hn. destruct Hr as [Hlen Hp Hnd Hbel].
  unfold push_front.
  destruct (getb_links bs HEAD) as (h & -> & _ & Eh & _); [lia|]. cbn [mbind outcome_bind]. rewrite Eh.
  destruct (set_next_spec bs b (nx bs HEAD)) as (b1 & -> & C1 & N1 & P1); [lia|]. cbn [mbind outcome_bind].
  pose proof (same_core_length _ _ C1) as L1.
  destruct (set_prev_spec b1 b HEAD) as (b2 & -> & C2 & P2 & N2); [lia|]. cbn [mbind outcome_bind].
  pose proof (same_core_length _ _ C2) as L2.
  destruct (getb_links b2 HEAD) as (h2 & -> & _ & Eh2 & _); [lia|]. cbn [mbind outcome_bind].
  rewrite N2, N1, decide_False in Eh2 by lia. rewrite Eh2.
  destruct (set_prev_spec b2 (nx bs HEAD) b) as (b3 & -> & C3 & P3 & N3); [lia|]. cbn [mbind outcome_bind].
  pose proof (same_core_length _ _ C3) as L3.
  destruct (set_next_spec b3 HEAD b) as (b4 & -> & C4 & N4 & P4); [lia|].
  exists b4. split; [done|]. split.
  - split; [by rewrite (same_core_length _ _ C4), L3, L2, L1| |by constructor|by constructor].
    apply (path_push (nx bs) (pv bs)); [|lia|done|done|..].
    + constructor; [|done]. intros Hin. rewrite Forall_forall in Hbel. specialize (Hbel _ Hin). lia.
    + intros y. rewrite N4, N3, N2, N1. done.
    + intros y. rewrite P4, P3, P2, P1. done.
  - unfold same_core in *. congruence.
Qed.

Lemma unlink_spec bs l1 b l2 :
  ring_ok bs (l1 ++ b :: l2) →
  ∃ bs', unlink b bs = Ret bs' ∧ ring_ok bs' (l1 ++ l2) ∧ same_core bs bs'.
Proof.
  intros [Hlen Hp Hnd Hbel].
  assert (b < HEAD)%nat as Hb by (rewrite Forall_forall in Hbel; apply Hbel; set_solver).
  assert (nx bs b ≤ HEAD ∧ pv bs b ≤ HEAD)%nat as [Hn Hpv].
  { unfold ring in Hp. apply path_app in Hp as [H1 H2]. apply Forall_app in Hbel as [F1 F2].
    apply Forall_cons in F2 as [_ F2]. split.
    - destruct l2 as [|x l2]; cbn in H2; [lia|]. destruct H2 as (-> & _).
      apply Forall_cons in F2 as [? _]. lia.
    - destruct l1 as [|x l1 _] using rev_ind; cbn in H1; [lia|]. apply path_app in H1 as [_ [_ ->]].
      apply Forall_app in F1 as [_ F1]. apply Forall_cons in F1 as [? _]. lia. }
  unfold unlink. destruct (getb_links bs b) as (x & -> & _ & Ex & Px); [lia|]. cbn [mbind outcome_bind].
  rewrite Ex, Px. destruct (set_prev_spec bs (nx bs b) (pv bs b)) as (b1 & -> & C1 & P1 & N1); [lia|].
  cbn [mbind outcome_bind]. pose proof (same_core_length _ _ C1) as L1.
  destruct (getb_links b1 b) as (x1 & -> & _ & Ex1 & Px1); [lia|]. cbn [mbind outcome_bind].
  rewrite Ex1, Px1, N1, P1.
  assert (b ≠ nx bs b) as Hne.
  { intros E. unfold ring in Hp. apply path_app in Hp as [_ H2].
    apply NoDup_app in Hnd as (_ & _ & Hnd). apply NoDup_cons in Hnd as [Hnd _].
    destruct l2; cbn in H2; [lia|]. destruct H2 as (H2 & _). rewrite H2 in E. set_solver. }
  rewrite decide_False by done.
  destruct (set_next_spec b1 (pv bs b) (nx bs b)) as (b2 & -> & C2 & N2 & P2); [lia|].
  exists b2. split; [done|]. split; [|unfold same_core in *; congruence].
  split.
  - by rewrite (same_core_length _ _ C2), L1.
  - apply (path_remove (nx bs) (pv bs) _ _ l1 b l2); try done.
    + constructor; [|done]. intros Hin. rewrite Forall_forall in Hbel. specialize (Hbel _ Hin). lia.
    + intros Hin. rewrite Forall_forall in Hbel. specialize (Hbel _ Hin). lia.
    + intros y. rewrite N2, N1. done.
    + intros y. rewrite P2, P1. done.
  - apply NoDup_app in Hnd as (? & Hd & Hnd). apply NoDup_cons in Hnd as [_ Hnd].
    apply NoDup_app. split_and!; [done| |done]. intros y Hy Hy2. apply (Hd y Hy). by right.
  - apply Forall_app in Hbel as [F1 F2]. apply Forall_cons in F2 as [_ F2]. by apply Forall_app.
Qed.

(** ** Searching the ring *)
Fixpoint find_first (P : buf → bool) (bs : list buf) (l : list nat) : option nat :=
  match l with
  | [] => None
  | i :: l => if from_option P false (bs !! i) then Some i else find_first P bs l
  end.

Definition caches (d n : Z) (x : buf) : bool := (dev x =? d) && (blockno x =? n).
Definition unused (x : buf) : bool := (refcnt x =? 0) && (Z.land (flags x) B_DIRTY =? 0).

Lemma find_first_Some P bs l i : find_first P bs l = Some i →
  i ∈ l ∧ ∃ x, bs !! i = Some x ∧ P x = true.
Proof.
  induction l as [|j l IH]; cbn; [done|]. destruct (bs !! j) as [x|] eqn:E; cbn.
  - destruct (P x) eqn:Ep; [|intros [? ?]%IH; split; [by right|done]].
    intros [= <-]. split; [left|by exists x].
  - intros [? ?]%IH. split; [by right|done].
Qed.

Lemma find_first_None P bs l : find_first P bs l = None → ∀ i x, i ∈ l → bs !! i = Some x → P x = false.
Proof.
  induction l as [|j l IH]; cbn; [by intros _ ? ? ?%not_elem_of_nil|].
  destruct (from_option P false (bs !! j)) eqn:E; [done|]. intros HN i x [->|Hi]%elem_of_cons Hx.
  - by rewrite Hx in E.
  - by eapply IH.
Qed.

Lemma find_cached_spec bs d n l : ∀ a fuel,
  path (nx bs) (pv bs) a l HEAD → Forall (λ i, (i < HEAD)%nat) l → length bs = S HEAD →
  (length l ≤ fuel)%nat →
  find_cached bs d n (nx bs a) fuel = Ret (find_first (caches d n) bs l).
Proof.
  induction l as [|x l IH]; intros a fuel Hp Hb Hlen Hf.
  { cbn in Hp. destruct Hp as [-> _]. destruct fuel; done. }
  destruct Hp as (-> & _ & Hp). apply Forall_cons in Hb as [Hx Hb]. destruct fuel; [cbn in Hf; lia|].
  cbn [find_cached find_first]. destruct (x =? HEAD)%nat eqn:E; [apply Nat.eqb_eq in E; lia|].
  destruct (getb_links bs x) as (b & -> & Hbx & En & _); [lia|]. cbn [mbind outcome_bind].
  rewrite Hbx. cbn [from_option]. unfold caches at 1. destruct (_ && _); [done|].
  rewrite En. apply IH; try done. cbn in Hf. lia.
Qed.

Lemma find_unused_spec bs l : ∀ b fuel,
  path (nx bs) (pv bs) HEAD l b → Forall (λ i, (i < HEAD)%nat) l → length bs = S HEAD →
  (length l ≤ fuel)%nat →
  find_unused bs (pv bs b) fuel = Ret (find_first unused bs (reverse l)).
Proof.
  induction l as [|x l IH] using rev_ind; intros b fuel Hp Hb Hlen Hf.
  { cbn in Hp. destruct Hp as [_ ->]. destruct fuel; done. }
  apply path_app in Hp as [Hp [_ ->]]. apply Forall_app in Hb as [Hb Hx].
  apply Forall_cons in Hx as [Hx _]. rewrite length_app in Hf. cbn in Hf. destruct fuel; [lia|].
  rewrite reverse_snoc. cbn [find_unused find_first].
  destruct (x =? HEAD)%nat eqn:E; [apply Nat.eqb_eq in E; lia|].
  destruct (getb_links bs x) as (y & -> & Hby & _ & Ep); [lia|]. cbn [mbind outcome_bind].
  rewrite Hby. cbn [from_option]. unfold unused at 1. destruct (_ && _); [done|].
  rewrite Ep. apply IH; try done. lia.
Qed.

(** What [bget] does, in terms of the ring. *)
Lemma bget_spec s l d n : ring_ok (bufs s) l → (length l ≤ NBUF)%nat →
  bget d n s =
    match find_first (caches d n) (bufs s) l with
    | Some b => bs ← updb (λ x, set_refcnt x (u32 (refcnt x + 1))) b (bufs s); Ret (b, set_bufs s bs)
    | None =>
        match find_first unused (bufs s) (reverse l) with
        | Some b => bs ← updb (λ x, recycled x d n) b (bufs s); Ret (b, set_bufs s bs)
        | None => Panic "bget: no buffers"
        end
    end.
Proof.
  intros [Hlen Hp Hnd Hb] Hl. unfold bget.
  destruct (getb_links (bufs s) HEAD) as (h & -> & _ & En & Ep); [lia|]. cbn [mbind outcome_bind].
  rewrite En, (find_cached_spec _ d n l) by done. cbn [mbind outcome_bind].
  destruct (find_first (caches d n) (bufs s) l); [done|].
  rewrite Ep, (find_unused_spec _ l) by done. done.
Qed.

(** [binit] links all buffers. *)
Lemma binit_loop_spec cnt : ∀ b bs l,
  ring_ok bs l → (b + cnt = NBUF)%nat → Forall (λ i, (i < b)%nat) l →
  ∃ bs', binit_loop b cnt bs = Ret bs' ∧ ring_ok bs' (reverse (seq b cnt) ++ l) ∧
    (∀ i x', bs' !! i = Some x' → ∃ x, bs !! i = Some x ∧
       core x' = if decide (b ≤ i < NBUF)%nat then set_lock (core x) initsleeplock else core x).
Proof.
  induction cnt as [|cnt IH]; intros b bs l Hr Hb Hl; cbn [binit_loop].
  { exists bs. split_and!; [done..|].
    intros i x Hx. exists x. split; [done|]. rewrite decide_False; [done|lia]. }
  assert (b < length bs)%nat as Hlt by (rewrite (rg_len _ _ Hr); unfold HEAD; lia).
  destruct (lookup_lt_is_Some_2 bs b Hlt) as [x Hx].
  unfold updb, getb. rewrite Hx. cbn [opt mbind outcome_bind].
  set (bs1 := <[b:=set_lock x initsleeplock]> bs).
  assert (∀ i, nx bs1 i = nx bs i ∧ pv bs1 i = pv bs i) as Hlinks.
  { intros i. unfold nx, pv, bs1. destruct (decide (i = b)) as [->|Hne].
    - rewrite list_lookup_insert_eq, Hx by done. done.
    - by rewrite list_lookup_insert_ne. }
  assert (ring_ok bs1 l) as Hr1.
  { destruct Hr as [R1 R2 R3 R4]. split; [by unfold bs1; rewrite length_insert| |done..].
    eapply path_ext; [..|exact R2]; intros i _; apply Hlinks. }
  destruct (push_front_spec bs1 l b Hr1) as (bs2 & -> & Hr2 & C2); [unfold HEAD; lia| |].
  { intros Hin. rewrite Forall_forall in Hl. specialize (Hl _ Hin). lia. }
  cbn [mbind outcome_bind].
  destruct (IH (S b) bs2 (b :: l) Hr2) as (bs' & E & Hr' & Hcore); [lia| |].
  { constructor; [lia|]. eapply Forall_impl; [exact Hl|]. cbn. lia. }
  exists bs'. split_and!; [done| |].
  - cbn [seq]. rewrite reverse_cons, <-app_assoc. done.
  - intros i x' Hx'. destruct (Hcore i x' Hx') as (x2 & Hx2 & Ec).
    destruct (same_core_lookup bs2 bs1 i x2 (eq_sym C2) Hx2) as (x1 & Hx1 & Ec1).
    rewrite Ec. unfold bs1 in Hx1. destruct (decide (i = b)) as [->|Hne].
    + rewrite list_lookup_insert_eq in Hx1 by done. injection Hx1 as <-.
      exists x. split; [done|]. rewrite decide_False by lia. rewrite decide_True by lia.
      rewrite <-Ec1. done.
    + rewrite list_lookup_insert_ne in Hx1 by done. exists x1. split; [done|].
      rewrite <-Ec1. repeat case_decide; (done || lia).
Qed.

(** ** Processes sharing the cache

    [refs] are the references processes hold, with whether they also hold the
    sleep lock; [cur] the latest contents of every block. *)
Record bsys := BSys { bs : bst; refs : list (nat * bool); cur : gmap (Z * Z) block }.

Inductive bstep : bsys → bsys → Prop :=
  (* [bget] on a device other than the unused number 0 *)
  | B_get d n i s s' rs c :
      d ≠ 0 → Z.of_nat (length rs) < 2 ^ 32 - 1 → bget d n s = Ret (i, s') →
      bstep (BSys s rs c) (BSys s' ((i, false) :: rs) c)
  (* the rest of [bread] *)
  | B_lock i pid s s' r1 r2 c :
      bread_locked i pid s = Ret (Some tt, s') →
      bstep (BSys s (r1 ++ (i, false) :: r2) c) (BSys s' (r1 ++ (i, true) :: r2) c)
  (* the holder of the lock changes the data *)
  | B_modify i x d s rs c :
      (i, true) ∈ rs → bufs s !! i = Some x →
      bstep (BSys s rs c)
        (BSys (set_bufs s (<[i := set_data x d]> (bufs s))) rs (<[(dev x, blockno x) := d]> c))
  (* [log_write] marks it dirty *)
  | B_dirty i x s rs c :
      (i, true) ∈ rs → bufs s !! i = Some x →
      bstep (BSys s rs c)
        (BSys (set_bufs s (<[i := set_flags x (Z.lor (flags x) B_DIRTY)]> (bufs s))) rs c)
  | B_write i s s' rs c :
      (i, true) ∈ rs → bwrite i s = Ret (tt, s') → bstep (BSys s rs c) (BSys s' rs c)
  (* a buffer is released dirty or as it is on the disk *)
  | B_release i x s s' r1 r2 c :
      bufs s !! i = Some x →
      Z.land (flags x) B_DIRTY ≠ 0 ∨ disk s !! (dev x, blockno x) = Some (data x) →
      brelse i s = Ret (tt, s') →
      bstep (BSys s (r1 ++ (i, true) :: r2) c) (BSys s' (r1 ++ r2) c).

Definition nrefs (rs : list (nat * bool)) (i : nat) : nat :=
  length (filter (λ r, r.1 = i) rs).
Definition nlocks (rs : list (nat * bool)) (i : nat) : nat :=
  length (filter (λ r, r = (i, true)) rs).

(** Invariant of buffer [i]. *)
Record buf_ok (s : bst) (rs : list (nat * bool)) (c : gmap (Z * Z) block) (i : nat) (x : buf) : Prop := {
  k_flags : flags x = 0 ∨ flags x = B_VALID ∨ flags x = Z.lor B_VALID B_DIRTY;
  k_refs : refcnt x = Z.of_nat (nrefs rs i);
  k_lock : s_locked (lock x) = Z.of_nat (nlocks rs i);
  k_one : (nlocks rs i ≤ 1)%nat;
  k_valid : flags x ≠ 0 → dev x ≠ 0 ∧ c !! (dev x, blockno x) = Some (data x);
  k_held : flags x = 0 → nlocks rs i = 0%nat;
  k_clean : flags x = B_VALID → nlocks rs i = 0%nat → disk s !! (dev x, blockno x) = Some (data x);
  k_dev : dev x = 0 → nrefs rs i = 0%nat
}.

Record binv (σ : bsys) (l : list nat) : Prop := {
  v_ring : ring_ok (bufs (bs σ)) l;
  v_all i : (i < NBUF)%nat → i ∈ l;
  v_buf i x : (i < NBUF)%nat → bufs (bs σ) !! i = Some x → buf_ok (bs σ) (refs σ) (cur σ) i x;
  v_unique i j x y : (i < NBUF)%nat → (j < NBUF)%nat →
    bufs (bs σ) !! i = Some x → bufs (bs σ) !! j = Some y →
    dev x ≠ 0 → dev x = dev y → blockno x = blockno y → i = j;
  v_disk k : k.1 ≠ 0 →
    (∀ i x, (i < NBUF)%nat → bufs (bs σ) !! i = Some x → flags x ≠ 0 → (dev x, blockno x) ≠ k) →
    disk (bs σ) !! k = cur σ !! k;
  v_refs r : r ∈ refs σ → (r.1 < NBUF)%nat;
  v_few : Z.of_nat (length (refs σ)) < 2 ^ 32
}.

Lemma core_fields x y : core x = core y →
  flags x = flags y ∧ dev x = dev y ∧ blockno x = blockno y ∧ lock x = lock y ∧
  refcnt x = refcnt y ∧ data x = data y.
Proof. destruct x, y. unfold core. cbn. intros [= -> -> -> -> -> ->]. done. Qed.

Lemma buf_ok_core s rs c i x y : core x = core y → buf_ok s rs c i x → buf_ok s rs c i y.
Proof.
  intros (E1 & E2 & E3 & E4 & E5 & E6)%core_fields [H1 H2 H3 H4 H5 H6 H7 H8].
  rewrite E1, ?E2, ?E3, ?E4, ?E5, ?E6 in *. by split.
Qed.

(** A step that changes buffer [i], perhaps the links, and what belongs to it. *)
Lemma binv_update s s' rs rs' c c' l l' i x x' :
  binv (BSys s rs c) l → (i < NBUF)%nat → bufs s !! i = Some x →
  same_core (<[i := x']> (bufs s)) (bufs s') → ring_ok (bufs s') l' → (∀ j, j ∈ l ↔ j ∈ l') →
  buf_ok s' rs' c' i x' →
  (∀ j, j ≠ i → nrefs rs' j = nrefs rs j ∧ nlocks rs' j = nlocks rs j) →
  (∀ j y, j ≠ i → (j < NBUF)%nat → bufs s !! j = Some y → flags y ≠ 0 →
     c' !! (dev y, blockno y) = c !! (dev y, blockno y) ∧
     disk s' !! (dev y, blockno y) = disk s !! (dev y, blockno y)) →
  (∀ j y, j ≠ i → (j < NBUF)%nat → bufs s !! j = Some y → dev x' ≠ 0 →
     (dev y, blockno y) ≠ (dev x', blockno x')) →
  (∀ k, k.1 ≠ 0 → (flags x' ≠ 0 → (dev x', blockno x') ≠ k) →
     (∀ j y, j ≠ i → (j < NBUF)%nat → bufs s !! j = Some y → flags y ≠ 0 → (dev y, blockno y) ≠ k) →
     disk s' !! k = c' !! k) →
  (∀ r, r ∈ rs' → (r.1 < NBUF)%nat) → Z.of_nat (length rs') < 2 ^ 32 →
  binv (BSys s' rs' c') l'.
Proof.
  intros [V1 V2 V3 V4 V5 V6 V7] Hi Hx Hc Hr Hl Hxok Hcnt Hoth Huni Hdisk Hrefs Hfew.
  cbn [bs refs cur] in *.
  (* what a buffer of the new state was before *)
  assert (∀ j y, bufs s' !! j = Some y →
    (j = i ∧ core y = core x') ∨ (j ≠ i ∧ ∃ z, bufs s !! j = Some z ∧ core y = core z)) as Hold.
  { intros j y Hy. destruct (same_core_lookup _ _ j y (eq_sym Hc) Hy) as (z & Hz & Ez).
    destruct (decide (j = i)) as [->|Hne].
    - rewrite list_lookup_insert_eq in Hz by (by apply lookup_lt_Some in Hx).
      apply (inj Some) in Hz as <-. by left.
    - rewrite list_lookup_insert_ne in Hz by done. right. split; [done|]. by exists z. }
  split; cbn [bs refs cur]; try done.
  - intros j Hj. apply Hl. by apply V2.
  - intros j y Hj Hy. destruct (Hold j y Hy) as [[-> Ey]|(Hne & z & Hz & Ey)].
    + by apply (buf_ok_core _ _ _ _ x').
    + apply (buf_ok_core _ _ _ _ z); [done|]. destruct (V3 j z Hj Hz) as [H1 H2 H3 H4 H5 H6 H7 H8].
      destruct (Hcnt j Hne) as [N1 N2]. split; rewrite ?N1, ?N2; try done.
      * intros Hf. destruct (Hoth j z Hne Hj Hz Hf) as [-> _]. by apply H5.
      * intros Hf Hn. destruct (Hoth j z Hne Hj Hz) as [_ ->]; [by rewrite Hf|]. by apply H7.
  - intros j k y z Hj Hk Hy Hz Hd Ed En.
    destruct (Hold j y Hy) as [[-> Ey]|(Hne & y' & Hy' & Ey)],
      (Hold k z Hz) as [[-> Ez]|(Hne2 & z' & Hz' & Ez)]; [done|..];
      apply core_fields in Ey as (_ & Dy & By & _); apply core_fields in Ez as (_ & Dz & Bz & _).
    + destruct (Huni k z' Hne2 Hk Hz'); congruence.
    + destruct (Huni j y' Hne Hj Hy'); congruence.
    + apply (V4 j k y' z'); congruence.
  - intros k Hk Hno. apply Hdisk; [done|..].
    + intros Hf E. destruct (same_core_lookup _ _ i x' Hc) as (z & Hz & Ez).
      { apply list_lookup_insert_eq. by apply lookup_lt_Some in Hx. }
      apply core_fields in Ez as (F1 & F2 & F3 & _). apply (Hno i z Hi Hz); congruence.
    + intros j y Hne Hj Hy Hf E. destruct (same_core_lookup _ _ j y Hc) as (z & Hz & Ez).
      { by rewrite list_lookup_insert_ne. }
      apply core_fields in Ez as (F1 & F2 & F3 & _). apply (Hno j z Hj Hz); congruence.
Qed.

(** Counting references. *)
Lemma nrefs_cons rs i j b : nrefs ((j, b) :: rs) i = ((if decide (j = i) then 1 else 0) + nrefs rs i)%nat.
Proof. unfold nrefs. rewrite filter_cons. cbn. by case_decide. Qed.
Lemma nlocks_cons rs i j b :
  nlocks ((j, b) :: rs) i = ((if decide ((j, b) = (i, true)) then 1 else 0) + nlocks rs i)%nat.
Proof. unfold nlocks. rewrite filter_cons. by case_decide. Qed.
Lemma nrefs_perm rs rs' i : rs ≡ₚ rs' → nrefs rs i = nrefs rs' i.
Proof. intros H. unfold nrefs. by rewrite H. Qed.
Lemma nlocks_perm rs rs' i : rs ≡ₚ rs' → nlocks rs i = nlocks rs' i.
Proof. intros H. unfold nlocks. by rewrite H. Qed.
Lemma nrefs_0 rs i : nrefs rs i = 0%nat → nlocks rs i = 0%nat.
Proof.
  unfold nrefs, nlocks. intros H. apply length_zero_iff_nil in H. apply length_zero_iff_nil.
  destruct (filter (λ r, r = (i, true)) rs) as [|r rest] eqn:E; [done|].
  assert (r ∈ filter (λ r, r = (i, true)) rs) as Hr by (rewrite E; left).
  apply list_elem_of_filter in Hr as [-> Hr].
  assert ((i, true) ∈ filter (λ r, r.1 = i) rs) as Hr2 by (by apply list_elem_of_filter).
  rewrite H in Hr2. by apply not_elem_of_nil in Hr2.
Qed.
Lemma nrefs_le rs i : (nrefs rs i ≤ length rs)%nat.
Proof. apply length_filter. Qed.
Lemma nlocks_pos rs i : (i, true) ∈ rs → (1 ≤ nlocks rs i)%nat.
Proof.
  intros Hin. unfold nlocks. destruct (filter _ rs) eqn:E; [|cbn; lia].
  assert ((i, true) ∈ filter (λ r, r = (i, true)) rs) as H by (by apply list_elem_of_filter).
  rewrite E in H. by apply not_elem_of_nil in H.
Qed.

Lemma ring_ok_insert bs l i x x' : ring_ok bs l → bs !! i = Some x →
  prev x' = prev x → next x' = next x → ring_ok (<[i := x']> bs) l.
Proof.
  intros [R1 R2 R3 R4] Hx Hp Hn. split; [by rewrite length_insert| |done..].
  eapply path_ext; [..|exact R2]; intros j _; unfold nx, pv;
    (destruct (decide (j = i)) as [->|Hne];
     [rewrite list_lookup_insert_eq, Hx by (by apply lookup_lt_Some in Hx); done
     |by rewrite list_lookup_insert_ne]).
Qed.

Lemma ring_len σ l : binv σ l → (length l ≤ NBUF)%nat.
Proof.
  intros [[_ _ Hnd Hb] _ _ _ _ _ _].
  replace NBUF with (length (seq 0 NBUF)) by done. apply submseteq_length, NoDup_submseteq; [done|].
  intros i Hi. rewrite Forall_forall in Hb. apply elem_of_seq. specialize (Hb _ Hi). unfold HEAD in Hb. lia.
Qed.

(** Two different buffers of the cache have different block numbers. *)
Lemma keys_differ σ l i j x y : binv σ l → (i < NBUF)%nat → (j < NBUF)%nat → j ≠ i →
  bufs (bs σ) !! i = Some x → bufs (bs σ) !! j = Some y → dev x ≠ 0 →
  (dev y, blockno y) ≠ (dev x, blockno x).
Proof.
  intros HI Hi Hj Hne Hx Hy Hd [= E1 E2].
  apply Hne. by apply (v_unique _ _ HI j i y x); [..|rewrite E1| |].
Qed.

(** The disk holds what no buffer caches. *)
Lemma disk_uncached σ l i x k : binv σ l → (i < NBUF)%nat → bufs (bs σ) !! i = Some x → k.1 ≠ 0 →
  (flags x ≠ 0 → (dev x, blockno x) = k → disk (bs σ) !! k = cur σ !! k) →
  (∀ j y, j ≠ i → (j < NBUF)%nat → bufs (bs σ) !! j = Some y → flags y ≠ 0 → (dev y, blockno y) ≠ k) →
  disk (bs σ) !! k = cur σ !! k.
Proof.
  intros HI Hi Hx Hk Hself Hoth.
  destruct (decide (flags x ≠ 0 ∧ (dev x, blockno x) = k)) as [[Hf Ek]|Hn]; [by apply Hself|].
  apply (v_disk _ _ HI); [done|]. intros j y Hj Hy Hf E.
  destruct (decide (j = i)) as [->|Hne].
  - rewrite Hx in Hy. apply (inj Some) in Hy as <-. by apply Hn.
  - by apply (Hoth j y).
Qed.

Lemma inv_get s rs c l d n i s' :
  binv (BSys s rs c) l → d ≠ 0 → Z.of_nat (length rs) < 2 ^ 32 - 1 → bget d n s = Ret (i, s') →
  binv (BSys s' ((i, false) :: rs) c) l ∧ (i < NBUF)%nat ∧
  ∃ x, bufs s' !! i = Some x ∧ dev x = d ∧ blockno x = n.
Proof.
  intros HI Hd Hfew Hget. pose proof (v_ring _ _ HI) as Hr. cbn [bs] in Hr.
  rewrite (bget_spec s l d n Hr (ring_len _ _ HI)) in Hget.
  assert (∀ r b, r ∈ (b, false) :: rs → b < NBUF → r.1 < NBUF)%nat as Hrefs.
  { intros r b [->|Hin]%elem_of_cons Hb; [done|]. by apply (v_refs _ _ HI r). }
  assert (∀ b j, j ≠ b → nrefs ((b, false) :: rs) j = nrefs rs j ∧ nlocks ((b, false) :: rs) j = nlocks rs j) as Hcnt.
  { intros b j Hj. rewrite nrefs_cons, nlocks_cons, !decide_False by congruence. done. }
  destruct (find_first (caches d n) (bufs s) l) as [b|] eqn:Ef.
  - destruct (find_first_Some _ _ _ _ Ef) as (Hbl & x & Hx & Hcx).
    unfold updb, getb in Hget. rewrite Hx in Hget. cbn in Hget. injection Hget as <- <-.
    unfold caches in Hcx. bool_to_prop.
    assert (b < NBUF)%nat as Hb by (pose proof (rg_below _ _ Hr) as Hbel; rewrite Forall_forall in Hbel; by apply Hbel).
    pose proof (v_buf _ _ HI b x Hb Hx) as [K1 K2 K3 K4 K5 K6 K7 K8]. cbn [bs refs cur] in *.
    split_and!; [|done|].
    + apply (binv_update s _ rs _ c c l l b x (set_refcnt x (u32 (refcnt x + 1)))); try done.
      * apply (ring_ok_insert _ _ _ x); done.
      * pose proof (nrefs_le rs b). split; cbn [flags dev blockno lock refcnt data set_refcnt recycled disk set_bufs];
          rewrite ?nrefs_cons, ?nlocks_cons, ?decide_True, ?(decide_False (P := (b, false) = (b, true))) by done; try done.
        -- rewrite K2, u32_small by lia. lia.
        -- intros E. congruence.
      * apply Hcnt.
      * intros j y Hne Hj Hy Hdev. by apply (keys_differ (BSys s rs c) l b j x y).
      * intros k Hk Hself Hoth. apply (disk_uncached (BSys s rs c) l b x k); try done.
        intros Hf Ek. by destruct (Hself Hf).
      * intros r Hr'. by apply (Hrefs r b).
      * cbn. lia.
    + eexists. cbn. rewrite list_lookup_insert_eq by (by apply lookup_lt_Some in Hx). done.
  - destruct (find_first unused (bufs s) (reverse l)) as [b|] eqn:Eu; [|done].
    destruct (find_first_Some _ _ _ _ Eu) as (Hbl & x & Hx & Hux). rewrite elem_of_reverse in Hbl.
    unfold updb, getb in Hget. rewrite Hx in Hget. cbn in Hget. injection Hget as <- <-.
    assert (b < NBUF)%nat as Hb by (pose proof (rg_below _ _ Hr) as Hbel; rewrite Forall_forall in Hbel; by apply Hbel).
    pose proof (v_buf _ _ HI b x Hb Hx) as [K1 K2 K3 K4 K5 K6 K7 K8]. cbn [bs refs cur] in *.
    unfold unused in Hux. bool_to_prop. assert (nrefs rs b = 0%nat) as Hn0 by lia.
    pose proof (nrefs_0 _ _ Hn0) as Hl0.
    assert (flags x = 0 ∨ flags x = B_VALID) as Hfl.
    { destruct K1 as [?|[?|E]]; [by left|by right|]. exfalso. rewrite E in *. done. }
    split_and!; [|done|].
    + apply (binv_update s _ rs _ c c l l b x (recycled x d n)); try done.
      * apply (ring_ok_insert _ _ _ x); done.
      * split; cbn [flags dev blockno lock refcnt data set_refcnt recycled disk set_bufs];
          rewrite ?nrefs_cons, ?nlocks_cons, ?decide_True, ?(decide_False (P := (b, false) = (b, true))) by done; try done; try lia.
      * apply Hcnt.
      * intros j y Hne Hj Hy _ [= E1 E2]. cbn in E1, E2.
        pose proof (find_first_None _ _ _ Ef j y (v_all _ _ HI j Hj) Hy) as Hno.
        unfold caches in Hno. rewrite E1, E2, !Z.eqb_refl in Hno. done.
      * intros k Hk _ Hoth. apply (disk_uncached (BSys s rs c) l b x k); try done.
        intros Hf <-. cbn [bs cur]. destruct Hfl as [?|Hv]; [done|].
        destruct (K5 Hf) as [_ ->]. by apply K7.
      * intros r Hr'. by apply (Hrefs r b).
      * cbn. lia.
    + eexists. cbn. rewrite list_lookup_insert_eq by (by apply lookup_lt_Some in Hx). done.
Qed.

(** Changing one entry of the references. *)
Lemma refs_swap r1 r2 i b b' j : j ≠ i →
  nrefs (r1 ++ (i, b') :: r2) j = nrefs (r1 ++ (i, b) :: r2) j ∧
  nlocks (r1 ++ (i, b') :: r2) j = nlocks (r1 ++ (i, b) :: r2) j.
Proof.
  intros Hj.
  assert (∀ b, nrefs (r1 ++ (i, b) :: r2) j = nrefs ((i, b) :: r1 ++ r2) j) as En
    by (intros; apply nrefs_perm; by rewrite Permutation_middle).
  assert (∀ b, nlocks (r1 ++ (i, b) :: r2) j = nlocks ((i, b) :: r1 ++ r2) j) as El
    by (intros; apply nlocks_perm; by rewrite Permutation_middle).
  rewrite !En, !El, !nrefs_cons, !nlocks_cons, !decide_False by congruence. done.
Qed.

Lemma nrefs_mid r1 r2 i b : nrefs (r1 ++ (i, b) :: r2) i = S (nrefs (r1 ++ r2) i).
Proof.
  rewrite (nrefs_perm _ ((i, b) :: r1 ++ r2)) by (by rewrite Permutation_middle).
  by rewrite nrefs_cons, decide_True.
Qed.
Lemma nlocks_mid r1 r2 i b :
  nlocks (r1 ++ (i, b) :: r2) i = ((if b then 1 else 0) + nlocks (r1 ++ r2) i)%nat.
Proof.
  rewrite (nlocks_perm _ ((i, b) :: r1 ++ r2)) by (by rewrite Permutation_middle).
  rewrite nlocks_cons. destruct b; by case_decide.
Qed.

Lemma inv_lock s r1 r2 c l i pid s' :
  binv (BSys s (r1 ++ (i, false) :: r2) c) l → bread_locked i pid s = Ret (Some tt, s') →
  binv (BSys s' (r1 ++ (i, true) :: r2) c) l.
Proof.
  intros HI Hb. assert (i < NBUF)%nat as Hi by (apply (v_refs _ _ HI (i, false)); cbn; set_solver).
  unfold bread_locked in Hb. apply bind_Ret in Hb as (x & Hx & Hb). apply opt_Ret in Hx.
  pose proof (v_buf _ _ HI i x Hi Hx) as [K1 K2 K3 K4 K5 K6 K7 K8]. cbn [bs refs cur] in *.
  unfold acquiresleep in Hb. destruct (negb (s_locked (lock x) =? 0)) eqn:El; [done|]. bool_to_prop.
  rewrite nrefs_mid in K2, K8. rewrite nlocks_mid in K3, K4, K6, K7. cbn in K3, K4, K6, K7.
  assert (dev x ≠ 0) as Hd by (intros E; by apply K8 in E).
  assert (nlocks (r1 ++ r2) i = 0%nat) as Hl0 by lia.
  assert (∀ r, r ∈ r1 ++ (i, true) :: r2 → (r.1 < NBUF)%nat) as Hrefs.
  { intros r Hr. rewrite elem_of_app, elem_of_cons in Hr. destruct Hr as [Hr|[->|Hr]]; [|done|];
      apply (v_refs _ _ HI r); cbn; set_solver. }
  pose proof (v_few _ _ HI) as Hfew. cbn in Hfew. rewrite length_app in Hfew. cbn in Hfew.
  assert (Z.of_nat (length (r1 ++ (i, true) :: r2)) < 2 ^ 32) by (rewrite length_app; cbn; lia).
  assert (∀ j y, j ≠ i → (j < NBUF)%nat → bufs s !! j = Some y → (dev y, blockno y) ≠ (dev x, blockno x)) as Hkeys.
  { intros j y Hne Hj Hy. by apply (keys_differ _ _ i j x y HI). }
  destruct (Z.land (flags x) B_VALID =? 0) eqn:Ev; bool_to_prop.
  - assert (flags x = 0) as Hf0.
    { destruct K1 as [?|[E|E]]; [done|rewrite E in Ev; done..]. }
    assert (disk s !! (dev x, blockno x) = c !! (dev x, blockno x)) as Hdc.
    { apply (disk_uncached _ _ i x _ HI); try done. intros j y Hne Hj Hy _. by apply (Hkeys j y). }
    apply bind_Ret in Hb as ([[] s1] & Hrw & Hb). injection Hb as <-.
    unfold iderw in Hrw. apply bind_Ret in Hrw as (x1 & Hx1 & Hrw). apply opt_Ret in Hx1. cbn in Hx1.
    rewrite list_lookup_insert_eq in Hx1 by (by apply lookup_lt_Some in Hx).
    apply (inj Some) in Hx1 as <-. cbn [lock set_lock holdingsleep s_locked flags dev blockno] in Hrw.
    rewrite Hf0 in Hrw. change (negb (negb (1 =? 0))) with false in Hrw. cbn [Z.land Z.lor] in Hrw.
    change (0 =? B_VALID) with false in Hrw. cbv iota in Hrw.
    destruct (negb (dev x =? 0) && _); [done|]. destruct (FSSIZE <=? blockno x); [done|].
    change (negb (0 =? 0)) with false in Hrw. cbv iota in Hrw.
    apply bind_Ret in Hrw as (dd & Hdd & Hrw). apply opt_Ret in Hdd. cbn in Hdd. injection Hrw as <-.
    cbn [bufs set_bufs]. rewrite list_insert_insert_eq.
    pose (x' := set_data (set_flags (set_lock x (SLock 1 pid)) B_VALID) dd).
    apply (binv_update s _ (r1 ++ (i, false) :: r2) _ c c l l i x x'); try done.
    + apply (ring_ok_insert _ _ _ x); [apply HI|done..].
    + split; rewrite ?nrefs_mid, ?nlocks_mid, ?Hl0; cbn [x' set_data set_flags set_lock flags dev blockno lock refcnt data s_locked]; try done.
      * right. left. done.
      * intros _. split; [done|]. by rewrite <-Hdc, Hdd.
    + intros j Hj. by apply refs_swap.
    + intros j y Hne Hj Hy _. by apply (Hkeys j y).
    + intros k Hk Hself Hoth. apply (disk_uncached _ _ i x k HI); try done.
  - injection Hb as <-.
    assert (flags x ≠ 0) as Hf by (intros E; by rewrite E in Ev).
    apply (binv_update s _ (r1 ++ (i, false) :: r2) _ c c l l i x (set_lock x (SLock 1 pid))); try done.
    + apply (ring_ok_insert _ _ _ x); [apply HI|done..].
    + split; rewrite ?nrefs_mid, ?nlocks_mid, ?Hl0; cbn [set_lock flags dev blockno lock refcnt data s_locked]; done.
    + intros j Hj. by apply refs_swap.
    + intros j y Hne Hj Hy _. by apply (Hkeys j y).
    + intros k Hk Hself Hoth. apply (disk_uncached _ _ i x k HI); try done.
      intros _ E. by destruct (Hself Hf).
Qed.

(** What the holder of a buffer's lock knows. *)
Lemma held_facts s rs c l i x :
  binv (BSys s rs c) l → (i, true) ∈ rs → bufs s !! i = Some x →
  (i < NBUF)%nat ∧ buf_ok s rs c i x ∧ nlocks rs i = 1%nat ∧ flags x ≠ 0 ∧ dev x ≠ 0 ∧
  (∀ j y, j ≠ i → (j < NBUF)%nat → bufs s !! j = Some y → (dev y, blockno y) ≠ (dev x, blockno x)).
Proof.
  intros HI Hin Hx. assert (i < NBUF)%nat as Hi by (apply (v_refs _ _ HI (i, true)); done).
  pose proof (v_buf _ _ HI i x Hi Hx) as Hok. pose proof Hok as [K1 K2 K3 K4 K5 K6 K7 K8].
  cbn [bs refs cur] in *. pose proof (nlocks_pos rs i Hin) as Hp.
  assert (flags x ≠ 0) as Hf by (intros E; apply K6 in E; lia).
  destruct (K5 Hf) as [Hd _]. split_and!; try done; [lia|].
  intros j y Hne Hj Hy. by apply (keys_differ _ _ i j x y HI).
Qed.

Lemma inv_modify s rs c l i x d :
  binv (BSys s rs c) l → (i, true) ∈ rs → bufs s !! i = Some x →
  binv (BSys (set_bufs s (<[i := set_data x d]> (bufs s))) rs (<[(dev x, blockno x) := d]> c)) l.
Proof.
  intros HI Hin Hx. destruct (held_facts s rs c l i x HI Hin Hx) as (Hi & Hok & Hl1 & Hf & Hd & Hkeys).
  pose proof Hok as [K1 K2 K3 K4 K5 K6 K7 K8].
  apply (binv_update s _ rs rs c _ l l i x (set_data x d)); try done.
  - apply (ring_ok_insert _ _ _ x); [apply HI|done..].
  - split; cbn [set_data flags dev blockno lock refcnt data set_bufs disk]; try done.
    + intros _. by rewrite lookup_insert_eq.
    + intros _ ?. lia.
  - intros j y Hne Hj Hy _. split; [|done]. rewrite lookup_insert_ne; [done|].
    intros E. by apply (Hkeys j y Hne Hj Hy).
  - intros j y Hne Hj Hy _. by apply (Hkeys j y).
  - intros k Hk Hself Hoth. rewrite lookup_insert_ne by (by apply Hself).
    apply (disk_uncached _ _ i x k HI); try done. intros _ E. by destruct (Hself Hf).
  - apply HI.
  - apply HI.
Qed.

Lemma inv_dirty s rs c l i x :
  binv (BSys s rs c) l → (i, true) ∈ rs → bufs s !! i = Some x →
  binv (BSys (set_bufs s (<[i := set_flags x (Z.lor (flags x) B_DIRTY)]> (bufs s))) rs c) l.
Proof.
  intros HI Hin Hx. destruct (held_facts s rs c l i x HI Hin Hx) as (Hi & Hok & Hl1 & Hf & Hd & Hkeys).
  pose proof Hok as [K1 K2 K3 K4 K5 K6 K7 K8].
  assert (Z.lor (flags x) B_DIRTY = Z.lor B_VALID B_DIRTY) as Ef.
  { destruct K1 as [?|[->| ->]]; done. }
  apply (binv_update s _ rs rs c _ l l i x (set_flags x (Z.lor (flags x) B_DIRTY))); try done.
  - apply (ring_ok_insert _ _ _ x); [apply HI|done..].
  - split; cbn [set_flags flags dev blockno lock refcnt data set_bufs disk]; rewrite ?Ef; try done.
    + by right; right.
    + intros _. by apply K5.
  - intros j y Hne Hj Hy _. by apply (Hkeys j y).
  - intros k Hk Hself Hoth. apply (disk_uncached _ _ i x k HI); try done.
    intros _ E. destruct Hself; [by cbn; rewrite Ef|done].
  - apply HI.
  - apply HI.
Qed.

Lemma inv_write s rs c l i s' :
  binv (BSys s rs c) l → (i, true) ∈ rs → bwrite i s = Ret (tt, s') →
  binv (BSys s' rs c) l.
Proof.
  intros HI Hin Hw. unfold bwrite in Hw. apply bind_Ret in Hw as (x & Hx & Hw). apply opt_Ret in Hx.
  destruct (held_facts s rs c l i x HI Hin Hx) as (Hi & Hok & Hl1 & Hf & Hd & Hkeys).
  pose proof Hok as [K1 K2 K3 K4 K5 K6 K7 K8]. destruct (K5 Hf) as [_ Hcur].
  destruct (negb (holdingsleep (lock x))) eqn:Eh; [done|].
  assert (Z.lor (flags x) B_DIRTY = Z.lor B_VALID B_DIRTY) as Ef.
  { destruct K1 as [?|[->| ->]]; done. }
  unfold iderw in Hw. apply bind_Ret in Hw as (x1 & Hx1 & Hw). apply opt_Ret in Hx1. cbn in Hx1.
  rewrite list_lookup_insert_eq in Hx1 by (by apply lookup_lt_Some in Hx).
  apply (inj Some) in Hx1 as <-. cbn [set_flags lock flags dev blockno data] in Hw. rewrite Ef, Eh in Hw.
  change (Z.land (Z.lor B_VALID B_DIRTY) (Z.lor B_VALID B_DIRTY) =? B_VALID) with false in Hw.
  cbv iota in Hw. destruct (negb (dev x =? 0) && _); [done|]. destruct (FSSIZE <=? blockno x); [done|].
  change (negb (Z.land (Z.lor B_VALID B_DIRTY) B_DIRTY =? 0)) with true in Hw. cbv iota in Hw.
  injection Hw as <-. cbn [bufs set_bufs disk havedisk1]. rewrite list_insert_insert_eq.
  apply (binv_update s _ rs rs c _ l l i x (set_flags x B_VALID)); try done.
  - apply (ring_ok_insert _ _ _ x); [apply HI|done..].
  - split; cbn [set_flags flags dev blockno lock refcnt data set_bufs disk]; try done.
    + by right; left.
    + intros _ ?. lia.
  - intros j y Hne Hj Hy _. split; [done|]. cbn [disk]. rewrite lookup_insert_ne; [done|].
    intros E. by apply (Hkeys j y Hne Hj Hy).
  - intros j y Hne Hj Hy _. by apply (Hkeys j y).
  - intros k Hk Hself Hoth. cbn [disk]. rewrite lookup_insert_ne by (by apply Hself).
    apply (disk_uncached _ _ i x k HI); try done. intros _ E. by destruct (Hself ltac:(done)).
  - apply HI.
  - apply HI.
Qed.

Lemma inv_release s r1 r2 c l i x s' :
  binv (BSys s (r1 ++ (i, true) :: r2) c) l → bufs s !! i = Some x →
  Z.land (flags x) B_DIRTY ≠ 0 ∨ disk s !! (dev x, blockno x) = Some (data x) →
  brelse i s = Ret (tt, s') → ∃ l', binv (BSys s' (r1 ++ r2) c) l'.
Proof.
  intros HI Hx Hclean Hrel.
  destruct (held_facts _ _ _ _ i x HI) as (Hi & Hok & Hl1 & Hf & Hd & Hkeys); [set_solver|done|].
  pose proof Hok as [K1 K2 K3 K4 K5 K6 K7 K8]. pose proof (v_few _ _ HI) as Hfew. cbn in Hfew.
  pose proof (nrefs_le (r1 ++ (i, true) :: r2) i) as Hle.
  rewrite nrefs_mid in K2, K8, Hle. rewrite nlocks_mid in Hl1. rewrite length_app in Hfew, Hle. cbn in Hfew, Hle.
  assert (∀ r, r ∈ r1 ++ r2 → (r.1 < NBUF)%nat) as Hrefs.
  { intros r Hr. apply (v_refs _ _ HI r). cbn. set_solver. }
  assert (∀ j, j ≠ i → nrefs (r1 ++ r2) j = nrefs (r1 ++ (i, true) :: r2) j ∧
    nlocks (r1 ++ r2) j = nlocks (r1 ++ (i, true) :: r2) j) as Hcnt.
  { intros j Hj. rewrite (nrefs_perm (r1 ++ (i, true) :: r2) ((i, true) :: r1 ++ r2)),
      (nlocks_perm (r1 ++ (i, true) :: r2) ((i, true) :: r1 ++ r2)) by (by rewrite Permutation_middle).
    by rewrite nrefs_cons, nlocks_cons, !decide_False by congruence. }
  set (x' := set_refcnt (set_lock x (releasesleep (lock x))) (u32 (refcnt x - 1))).
  assert (refcnt x' = Z.of_nat (nrefs (r1 ++ r2) i)) as Er.
  { cbn. rewrite K2, u32_small; lia. }
  unfold brelse in Hrel. apply bind_Ret in Hrel as (x0 & Hx0 & Hrel). apply opt_Ret in Hx0.
  rewrite Hx in Hx0. apply (inj Some) in Hx0 as <-. destruct (negb (holdingsleep (lock x))); [done|].
  unfold updb, getb in Hrel. rewrite Hx in Hrel. cbn [opt mbind outcome_bind] in Hrel.
  rewrite list_lookup_insert_eq in Hrel by (by apply lookup_lt_Some in Hx). cbn [opt mbind outcome_bind] in Hrel.
  rewrite list_insert_insert_eq, list_lookup_insert_eq in Hrel by (by apply lookup_lt_Some in Hx).
  cbn [opt mbind outcome_bind] in Hrel. change (refcnt (set_refcnt _ _)) with (refcnt x') in Hrel.
  change (set_refcnt _ _) with x' in Hrel.
  assert (ring_ok (<[i:=x']> (bufs s)) l) as Hr1 by (apply (ring_ok_insert _ _ _ x); [apply HI|done..]).
  assert (∃ bs' l', s' = set_bufs s bs' ∧ ring_ok bs' l' ∧ same_core (<[i:=x']> (bufs s)) bs' ∧
    ∀ j, j ∈ l ↔ j ∈ l') as (bs' & l' & -> & Hr' & Hc & Hl).
  { destruct (refcnt x' =? 0).
    - pose proof (v_all _ _ HI i Hi) as Hil. apply list_elem_of_split in Hil as (l1 & l2 & ->).
      destruct (unlink_spec _ _ _ _ Hr1) as (b1 & E1 & R1 & C1). rewrite E1 in Hrel. cbn [mbind outcome_bind] in Hrel.
      destruct (push_front_spec b1 (l1 ++ l2) i R1) as (b2 & E2 & R2 & C2); [done| |].
      { pose proof (rg_nodup _ _ Hr1) as Hnd. apply NoDup_app in Hnd as (_ & N1 & N2).
        apply NoDup_cons in N2 as [N2 _]. rewrite elem_of_app. intros [?|?]; [|done].
        by apply (N1 i); [|left]. }
      rewrite E2 in Hrel. cbn [mbind outcome_bind] in Hrel. injection Hrel as <-.
      exists b2, (i :: l1 ++ l2). split_and!; [done..|unfold same_core in *; congruence|].
      intros j. set_solver.
    - injection Hrel as <-. by exists (<[i:=x']> (bufs s)), l. }
  exists l'. apply (binv_update s _ (r1 ++ (i, true) :: r2) _ c c l l' i x x'); try done.
  - split; cbn [x' set_refcnt set_lock flags dev blockno lock data disk set_bufs releasesleep s_locked]; try done; try lia.
    intros Hv _. destruct Hclean as [Hdirty|?]; [|done]. rewrite Hv in Hdirty. done.
  - intros j y Hne Hj Hy _. by apply (Hkeys j y).
  - intros k Hk Hself Hoth. apply (disk_uncached _ _ i x k HI); try done.
    intros _ E. by destruct (Hself Hf).
  - rewrite length_app. lia.
Qed.

(** ** The cache is transparent *)

(** The cache as the loader leaves it, zeroed. *)
Definition zero_buf : buf := Buf 0 0 0 (SLock 0 0) 0 0 0 [].
Definition boot (d : gmap (Z * Z) block) (have1 : bool) : bst :=
  BSt (replicate (S NBUF) zero_buf) d have1.

Lemma binit_spec bs0 : length bs0 = S HEAD →
  ∃ b l, binit bs0 = Ret b ∧ ring_ok b l ∧ (∀ i, (i < NBUF)%nat → i ∈ l) ∧
    ∀ i x', b !! i = Some x' → ∃ x, bs0 !! i = Some x ∧
      core x' = if decide (0 ≤ i < NBUF)%nat then set_lock (core x) initsleeplock else core x.
Proof.
  intros Hlen. unfold binit.
  destruct (set_prev_spec bs0 HEAD HEAD) as (b1 & -> & C1 & P1 & N1); [lia|].
  cbn [mbind outcome_bind]. pose proof (same_core_length _ _ C1) as L1.
  destruct (set_next_spec b1 HEAD HEAD) as (b2 & -> & C2 & N2 & P2); [lia|].
  cbn [mbind outcome_bind]. pose proof (same_core_length _ _ C2) as L2.
  assert (ring_ok b2 []) as Hr.
  { split; [lia| |constructor|constructor]. unfold ring. cbn [path].
    by rewrite N2, P2, P1, !decide_True. }
  destruct (binit_loop_spec NBUF 0 b2 [] Hr) as (b3 & E3 & Hr3 & Hcore); [done|constructor|].
  rewrite app_nil_r in Hr3. exists b3, (reverse (seq 0 NBUF)). split_and!; [done..| |].
  { intros i Hi. rewrite elem_of_reverse, elem_of_seq. lia. }
  intros i x Hx. destruct (Hcore i x Hx) as (y & Hy & Ec).
  destruct (same_core_lookup b2 b1 i y (eq_sym C2) Hy) as (z & Hz & Ez).
  destruct (same_core_lookup b1 bs0 i z (eq_sym C1) Hz) as (w & Hw & Ew).
  exists w. split; [done|]. by rewrite Ec, Ew, Ez.
Qed.

Lemma inv_init d have1 :
  ∃ b l, binit (bufs (boot d have1)) = Ret b ∧ binv (BSys (BSt b d have1) [] d) l.
Proof.
  destruct (binit_spec (replicate (S NBUF) zero_buf)) as (b & l & Eb & Hr & Hall & Hcore);
    [by rewrite length_replicate|].
  exists b, l. split; [exact Eb|]. clear Eb.
  assert (∀ i x, b !! i = Some x → flags x = 0 ∧ dev x = 0 ∧ refcnt x = 0 ∧
    ((i < NBUF)%nat → s_locked (lock x) = 0)) as Hzero.
  { intros i x Hx. destruct (Hcore i x Hx) as (w & Hw & Ec).
    apply lookup_replicate in Hw as [-> _].
    destruct x. case_decide; unfold core in Ec; cbn in Ec; injection Ec; intros; subst; cbn; split_and!; done. }
  split; cbn [bs refs cur bufs].
  - exact Hr.
  - exact Hall.
  - intros i x Hi Hx. destruct (Hzero i x Hx) as (F & D & R & L).
    specialize (L Hi). split.
    + by left.
    + by rewrite R.
    + by rewrite L.
    + cbn. lia.
    + by rewrite F.
    + by cbn.
    + by rewrite F.
    + by cbn.
  - intros i j x y Hi Hj Hx Hy Hd. by destruct (Hzero i x Hx) as (_ & ? & _).
  - done.
  - by intros r ?%not_elem_of_nil.
  - done.
Qed.

Lemma bstep_inv σ σ' l : binv σ l → bstep σ σ' → ∃ l', binv σ' l'.
Proof.
  intros HI Hstep. inversion Hstep; subst.
  - exists l. by eapply inv_get.
  - exists l. by eapply inv_lock.
  - exists l. by eapply inv_modify.
  - exists l. by eapply inv_dirty.
  - exists l. by eapply inv_write.
  - by eapply inv_release.
Qed.

Lemma reach_inv σ σ' : rtc bstep σ σ' → ∀ l, binv σ l → ∃ l', binv σ' l'.
Proof.
  induction 1 as [|σ1 σ2 σ3 Hs _ IH]; intros l HI; [by exists l|].
  destruct (bstep_inv _ _ _ HI Hs) as [l2 HI2]. by eapply IH.
Qed.

(** The sleep lock of a referenced buffer can be taken when it is free, and
    [bread] then delivers the buffer. *)
Lemma bread_progress s rs c l i x pid :
  binv (BSys s rs c) l → (i, false) ∈ rs → bufs s !! i = Some x → nlocks rs i = 0%nat →
  havedisk1 s = true → blockno x < FSSIZE → is_Some (disk s !! (dev x, blockno x)) →
  ∃ s', bread_locked i pid s = Ret (Some tt, s').
Proof.
  intros HI Hin Hx Hl Hh Hb [d Hd].
  assert (i < NBUF)%nat as Hi by (by apply (v_refs _ _ HI (i, false))).
  pose proof (v_buf _ _ HI i x Hi Hx) as [K1 K2 K3 K4 K5 K6 K7 K8]. cbn [bs refs cur] in *.
  unfold bread_locked, getb. rewrite Hx. cbn [opt mbind outcome_bind]. unfold acquiresleep.
  rewrite K3, Hl. change (negb (Z.of_nat 0 =? 0)) with false. cbv iota.
  destruct (Z.land (flags x) B_VALID =? 0) eqn:Ev; [|by eexists]. bool_to_prop.
  assert (flags x = 0) as Hf0 by (destruct K1 as [?|[E|E]]; [done|rewrite E in Ev; done..]).
  unfold iderw, getb. cbn [bufs set_bufs]. rewrite list_lookup_insert_eq by (by apply lookup_lt_Some in Hx).
  cbn [opt mbind outcome_bind set_lock lock holdingsleep s_locked flags dev blockno havedisk1 disk set_bufs].
  rewrite Hf0, Hh. change (negb (negb (1 =? 0))) with false. cbn [Z.land]. 
  change (0 =? B_VALID) with false. cbv iota. rewrite andb_false_r.
  destruct (FSSIZE <=? blockno x) eqn:Eb; [bool_to_prop; lia|].
  change (negb (0 =? 0)) with false. cbv iota. rewrite Hd. by eexists.
Qed.

(** C6. Coherence: in every interleaving of the processes that use the cache
    (getting, locking, changing, writing and releasing buffers, each released
    dirty or as it is on the disk), the process that holds a buffer's lock is
    the only one, the buffer holds the latest contents of its block, no block
    has two buffers, and a block without a valid buffer is up to date on the
    disk. *)
Theorem bio_coherent (d : gmap (Z * Z) block) (have1 : bool) (b : list buf) (σ : bsys) :
  binit (bufs (boot d have1)) = Ret b → rtc bstep (BSys (BSt b d have1) [] d) σ →
  (∀ i, (i, true) ∈ refs σ →
     nlocks (refs σ) i = 1%nat ∧
     ∃ x, bufs (bs σ) !! i = Some x ∧ s_locked (lock x) = 1 ∧
       cur σ !! (dev x, blockno x) = Some (data x)) ∧
  (∀ i j x y, (i < NBUF)%nat → (j < NBUF)%nat → bufs (bs σ) !! i = Some x → bufs (bs σ) !! j = Some y →
     dev x ≠ 0 → dev x = dev y → blockno x = blockno y → i = j) ∧
  (∀ k, k.1 ≠ 0 →
     (∀ i x, (i < NBUF)%nat → bufs (bs σ) !! i = Some x → flags x ≠ 0 → (dev x, blockno x) ≠ k) →
     disk (bs σ) !! k = cur σ !! k).
Proof.
  intros Hb Hreach. destruct (inv_init d have1) as (b' & l0 & Eb & HI0).
  rewrite Hb in Eb. injection Eb as <-. clear Hb.
  destruct (reach_inv _ _ Hreach _ HI0) as [l HI]. split_and!.
  - intros i Hin. destruct σ as [s rs c]. cbn [bs refs cur] in *.
    pose proof (v_refs _ _ HI (i, true) Hin) as Hi. cbn in Hi.
    destruct (lookup_lt_is_Some_2 (bufs s) i) as [x Hx].
    { pose proof (rg_len _ _ (v_ring _ _ HI)) as Hl. cbn in Hl. rewrite Hl. unfold HEAD. lia. }
    destruct (held_facts s rs c l i x HI Hin Hx) as (_ & Hok & Hl1 & Hf & _).
    split; [done|]. exists x. pose proof (k_lock _ _ _ _ _ Hok) as Hk. rewrite Hl1 in Hk.
    split_and!; [done..|]. by apply (k_valid _ _ _ _ _ Hok).
  - apply (v_unique _ _ HI).
  - apply (v_disk _ _ HI).
Qed.

(** [bget] on any reachable cache: it returns a buffer for exactly the
    block asked for and leaves the cache coherent, or it panics, and only if
    the block is not cached and every buffer is referenced or dirty. *)
Theorem bget_correct (d : gmap (Z * Z) block) (have1 : bool) (b : list buf) (σ : bsys) (dv n : Z) :
  binit (bufs (boot d have1)) = Ret b → rtc bstep (BSys (BSt b d have1) [] d) σ →
  dv ≠ 0 → Z.of_nat (length (refs σ)) < 2 ^ 32 - 1 →
  (∃ i s' x, bget dv n (bs σ) = Ret (i, s') ∧ bufs s' !! i = Some x ∧ (i < NBUF)%nat ∧
     dev x = dv ∧ blockno x = n ∧ refcnt x = Z.of_nat (nrefs (refs σ) i) + 1 ∧
     rtc bstep (BSys (BSt b d have1) [] d) (BSys s' ((i, false) :: refs σ) (cur σ))) ∨
  (bget dv n (bs σ) = Panic "bget: no buffers" ∧
   ∀ i x, (i < NBUF)%nat → bufs (bs σ) !! i = Some x →
     ¬ (dev x = dv ∧ blockno x = n) ∧ (refcnt x ≠ 0 ∨ Z.land (flags x) B_DIRTY ≠ 0)).
Proof.
  intros Hb Hreach Hd Hfew. destruct (inv_init d have1) as (b' & l0 & Eb & HI0).
  rewrite Hb in Eb. injection Eb as <-. clear Hb.
  destruct (reach_inv _ _ Hreach _ HI0) as [l HI]. destruct σ as [s rs c]. cbn [bs refs cur] in *.
  pose proof (v_ring _ _ HI) as Hr. cbn [bs] in Hr.
  destruct (bget dv n s) as [[i s']|msg| |] eqn:Eg.
  - destruct (inv_get s rs c l dv n i s' HI Hd Hfew Eg) as (HI' & Hi & x & Hx & Ed & En).
    left. exists i, s', x. split_and!; try done.
    + pose proof (k_refs _ _ _ _ _ (v_buf _ _ HI' i x Hi Hx)) as Hk. cbn [refs] in Hk.
      rewrite nrefs_cons, decide_True in Hk by done. lia.
    + eapply rtc_r; [exact Hreach|]. by eapply B_get.
  - right. rewrite (bget_spec s l dv n Hr (ring_len _ _ HI)) in Eg.
    destruct (find_first (caches dv n) (bufs s) l) as [j|] eqn:Ef.
    { destruct (find_first_Some _ _ _ _ Ef) as (_ & x & Hx & _).
      unfold updb, getb in Eg. by rewrite Hx in Eg. }
    destruct (find_first unused (bufs s) (reverse l)) as [j|] eqn:Eu.
    { destruct (find_first_Some _ _ _ _ Eu) as (_ & x & Hx & _).
      unfold updb, getb in Eg. by rewrite Hx in Eg. }
    split; [by injection Eg as <-|]. intros i x Hi Hx.
    pose proof (find_first_None _ _ _ Ef i x (v_all _ _ HI i Hi) Hx) as H1.
    pose proof (find_first_None _ _ _ Eu i x (proj2 (elem_of_reverse _ _) (v_all _ _ HI i Hi)) Hx) as H2.
    unfold caches, unused in *. split.
    + intros [E1 E2]. by rewrite E1, E2, !Z.eqb_refl in H1.
    + apply andb_false_iff in H2 as [H2|H2]; bool_to_prop; [by left|by right].
  - exfalso. rewrite (bget_spec s l dv n Hr (ring_len _ _ HI)) in Eg.
    repeat case_match; try done; unfold updb, getb in Eg;
      match goal with H : find_first _ _ _ = Some _ |- _ =>
        destruct (find_first_Some _ _ _ _ H) as (_ & y & Hy & _); by rewrite Hy in Eg end.
  - exfalso. rewrite (bget_spec s l dv n Hr (ring_len _ _ HI)) in Eg.
    repeat case_match; try done; unfold updb, getb in Eg;
      match goal with H : find_first _ _ _ = Some _ |- _ =>
        destruct (find_first_Some _ _ _ _ H) as (_ & y & Hy & _); by rewrite Hy in Eg end.
Qed.

(** The cache after boot, and the cache in which block 5 of device 1 was read
    and is locked by process 3. *)
Definition demo_disk : gmap (Z * Z) block := {[(1, 5) := [7]; (1, 6) := [9]]}.
Definition demo_boot : list buf :=
  match binit (bufs (boot demo_disk true)) with Ret b => b | _ => [] end.
Definition demo_get : nat * bst :=
  match bget 1 5 (BSt demo_boot demo_disk true) with Ret r => r | _ => (0%nat, BSt [] ∅ true) end.
Definition demo_read : bst :=
  match bread_locked demo_get.1 3 demo_get.2 with Ret (_, s) => s | _ => BSt [] ∅ true end.
Definition demo_sys : bsys := BSys demo_read [(demo_get.1, true)] demo_disk.

Lemma demo_reach : rtc bstep (BSys (BSt demo_boot demo_disk true) [] demo_disk) demo_sys.
Proof.
  eapply rtc_l.
  { apply (B_get 1 5 demo_get.1 (BSt demo_boot demo_disk true) demo_get.2); [done|done|vm_compute; done]. }
  eapply rtc_l; [|apply rtc_refl].
  apply (B_lock demo_get.1 3 demo_get.2 demo_read [] []). vm_compute. done.
Qed.

Lemma bio_coherent_witness :
  nlocks (refs demo_sys) demo_get.1 = 1%nat ∧
  ∃ x, bufs (bs demo_sys) !! demo_get.1 = Some x ∧ cur demo_sys !! (dev x, blockno x) = Some (data x).
Proof.
  destruct (bio_coherent demo_disk true demo_boot demo_sys) as (H & _); [vm_compute; done|exact demo_reach|].
  destruct (H demo_get.1) as (H1 & x & Hx & _ & Hc); [left|].
  exact (conj H1 (ex_intro _ x (conj Hx Hc))).
Defined.

Lemma bget_correct_witness :
  ∃ i s' x, bget 1 6 (bs demo_sys) = Ret (i, s') ∧ bufs s' !! i = Some x ∧ dev x = 1 ∧ blockno x = 6.
Proof.
  destruct (bget_correct demo_disk true demo_boot demo_sys 1 6) as [(i & s' & x & E & Hx & _ & Ed & En & _)|[E _]].
  - vm_compute. done.
  - exact demo_reach.
  - done.
  - done.
  - exists i, s', x. exact (conj E (conj Hx (conj Ed En))).
  - exfalso. revert E. vm_compute. done.
Defined.
