(* ===== verification/Ide.v ===== *)
(** * The disk driver (xv6 [ide.c])

    The queue of requests is the linked list of the code: [idequeue] points to
    the buffer being transferred, [qnext] of a buffer to the next one.  The disk
    controller is not code of the repository: its port operations are the
    class [Ata], and what the driver relies on of them (the task-file registers,
    the read and write commands, the status) is the class [AtaSpec].  A request
    is [iderw_enter] (up to the loop around [sleep]) of a process, then some
    [ideintr]; [request_done] is the condition the sleeping process tests.  The
    buffers are those of [Bio], and [driver_refines_iderw] shows that a request
    is the atomic [Bio.iderw] that the buffer cache is proved against. *)

From stdpp Require Import base numbers list gmap sets strings relations.
From S2P Require Import Prelude Spinlock Bio.

Open Scope Z_scope.

(** ** The controller *)
Class Ata (D : Type) := {
  outb : Z → Z → D → D;
  inb : Z → D → Z * D;
  outsl : block → D → D;
  insl : D → block * D
}.

(** A command the controller works on: its direction, drive and sector. *)
Inductive command := Reading (dr lba : Z) | Writing (dr lba : Z).

(** The documented behaviour: [task] are the task-file registers, [sector] what
    is on the drives, [busy] for how many more reads the status shows busy. *)
Class AtaSpec (D : Type) `{Ata D} := {
  busy : D → nat;
  task : D → Z → Z;
  sector : D → Z → Z → block;
  active : D → option command;
  present : D → Z → bool;
  drive_of (d : D) : Z := Z.land (Z.shiftr (task d 0x1f6) 4) 1;
  lba_of (d : D) : Z := task d 0x1f3 + 2 ^ 8 * task d 0x1f4 + 2 ^ 16 * task d 0x1f5
    + 2 ^ 24 * Z.land (task d 0x1f6) 15;
  same_media (d d' : D) : Prop := sector d' = sector d ∧ present d' = present d;
  inb_status d : let '(st, d') := inb 0x1f7 d in
    same_media d d' ∧ task d' = task d ∧ active d' = active d ∧
    if present d (drive_of d) then
      st ≠ 0 ∧ (if decide (busy d = 0%nat) then Z.land st 0xc0 = 0x40 ∧ Z.land st 0x21 = 0 ∧ busy d' = 0%nat
                else Z.land st 0xc0 ≠ 0x40 ∧ (busy d' < busy d)%nat)
    else st = 0 ∧ busy d' = busy d;
  outb_control d v : busy d = 0%nat →
    same_media d (outb 0x3f6 v d) ∧ task (outb 0x3f6 v d) = task d ∧ busy (outb 0x3f6 v d) = 0%nat;
  outb_task d p v : busy d = 0%nat → 0x1f2 ≤ p ≤ 0x1f6 →
    same_media d (outb p v d) ∧ (∀ q, task (outb p v d) q = if q =? p then v else task d q) ∧
    busy (outb p v d) = 0%nat;
  outb_read d : busy d = 0%nat → task d 0x1f2 = 1 →
    same_media d (outb 0x1f7 0x20 d) ∧ task (outb 0x1f7 0x20 d) = task d ∧
    active (outb 0x1f7 0x20 d) = Some (Reading (drive_of d) (lba_of d));
  outb_write d : busy d = 0%nat → task d 0x1f2 = 1 →
    same_media d (outb 0x1f7 0x30 d) ∧ task (outb 0x1f7 0x30 d) = task d ∧
    active (outb 0x1f7 0x30 d) = Some (Writing (drive_of d) (lba_of d));
  outsl_write d dr l x : active d = Some (Writing dr l) →
    task (outsl x d) = task d ∧ active (outsl x d) = active d ∧ present (outsl x d) = present d ∧
    ∀ dr' l', sector (outsl x d) dr' l' = if decide (dr' = dr ∧ l' = l) then x else sector d dr' l';
  insl_read d dr l : active d = Some (Reading dr l) → busy d = 0%nat →
    fst (insl d) = sector d dr l ∧ same_media d (snd (insl d)) ∧ task (snd (insl d)) = task d
}.

(** ** [ide.c] *)
Definition IDE_BSY : Z := 0x80.
Definition IDE_DRDY : Z := 0x40.
Definition IDE_DF : Z := 0x20.
Definition IDE_ERR : Z := 0x01.
Definition SECTOR_SIZE : Z := 512.
Definition BSIZE : Z := 512.
Definition IDE_CMD_READ : Z := 0x20.
Definition IDE_CMD_WRITE : Z := 0x30.
Definition IDE_CMD_RDMUL : Z := 0xc4.
Definition IDE_CMD_WRMUL : Z := 0xc5.

Section driver.
Context {D : Type} `{Ata D}.
(** How often [idewait] may find the disk busy. *)
Context (polls : nat).

(** The driver's variables, the buffers with their [qnext], and the controller. *)
Record ide := Ide {
  cache : list buf; qnext : list (option nat); idequeue : option nat; havedisk1 : bool; dvc : D
}.
Definition set_dvc (s : ide) (d : D) : ide := Ide (cache s) (qnext s) (idequeue s) (havedisk1 s) d.
Definition set_cache (s : ide) (c : list buf) : ide := Ide c (qnext s) (idequeue s) (havedisk1 s) (dvc s).
Definition set_queue (s : ide) (q : option nat) : ide := Ide (cache s) (qnext s) q (havedisk1 s) (dvc s).
Definition set_qnext (s : ide) (n : list (option nat)) : ide :=
  Ide (cache s) n (idequeue s) (havedisk1 s) (dvc s).

Fixpoint idewait_loop (fuel : nat) (d : D) : outcome (Z * D) :=
  match fuel with
  | O => NoFuel
  | S fuel =>
      let '(r, d) := inb 0x1f7 d in
      if Z.land r (Z.lor IDE_BSY IDE_DRDY) =? IDE_DRDY then Ret (r, d) else idewait_loop fuel d
  end.
Definition idewait (checkerr : bool) (d : D) : outcome (Z * D) :=
  '(r, d) ← idewait_loop polls d;
  if checkerr && negb (Z.land r (Z.lor IDE_DF IDE_ERR) =? 0) then Ret (-1, d) else Ret (0, d).

(** The probe of [ideinit] for a second disk. *)
Fixpoint probe (cnt : nat) (d : D) : bool * D :=
  match cnt with
  | O => (false, d)
  | S cnt => let '(r, d) := inb 0x1f7 d in if negb (r =? 0) then (true, d) else probe cnt d
  end.
Definition ideinit (s : ide) : outcome ide :=
  '(_, d) ← idewait false (dvc s);
  let d := outb 0x1f6 (Z.lor 0xe0 (Z.shiftl 1 4)) d in
  let '(found, d) := probe 1000 d in
  let d := outb 0x1f6 (Z.lor 0xe0 (Z.shiftl 0 4)) d in
  Ret (Ide (cache s) (qnext s) (idequeue s) (if found then true else havedisk1 s) d).

Definition idestart (b : option nat) (s : ide) : outcome ide :=
  match b with
  | None => Panic "idestart"
  | Some i =>
      x ← getb (cache s) i;
      if FSSIZE <=? blockno x then Panic "incorrect blockno"
      else
        let sector_per_block := BSIZE / SECTOR_SIZE in
        let sector := blockno x * sector_per_block in
        let read_cmd := if sector_per_block =? 1 then IDE_CMD_READ else IDE_CMD_RDMUL in
        let write_cmd := if sector_per_block =? 1 then IDE_CMD_WRITE else IDE_CMD_WRMUL in
        if 7 <? sector_per_block then Panic "idestart"
        else
          '(_, d) ← idewait false (dvc s);
          let d := outb 0x3f6 0 d in
          let d := outb 0x1f2 sector_per_block d in
          let d := outb 0x1f3 (Z.land sector 0xff) d in
          let d := outb 0x1f4 (Z.land (Z.shiftr sector 8) 0xff) d in
          let d := outb 0x1f5 (Z.land (Z.shiftr sector 16) 0xff) d in
          let d := outb 0x1f6 (Z.lor (Z.lor 0xe0 (Z.shiftl (Z.land (dev x) 1) 4))
                                 (Z.land (Z.shiftr sector 24) 0x0f)) d in
          if negb (Z.land (flags x) B_DIRTY =? 0) then
            Ret (set_dvc s (outsl (data x) (outb 0x1f7 write_cmd d)))
          else Ret (set_dvc s (outb 0x1f7 read_cmd d))
  end.

(** The part of [ideintr] that reads the data if needed. *)
Definition read_data (x : buf) (d : D) : outcome (buf * D) :=
  if Z.land (flags x) B_DIRTY =? 0 then
    '(r, d) ← idewait true d;
    if 0 <=? r then let '(bytes, d) := insl d in Ret (set_data x bytes, d) else Ret (x, d)
  else Ret (x, d).

(** The interrupt handler; the buffer it completed (whose waiter it wakes). *)
Definition ideintr (s : ide) : outcome (option nat * ide) :=
  match idequeue s with
  | None => Ret (None, s)
  | Some b =>
      nxt ← opt (qnext s !! b);
      x ← getb (cache s) b;
      let s := set_queue s nxt in
      '(x, d) ← read_data x (dvc s);
      let x := set_flags x (Z.land (Z.lor (flags x) B_VALID) (Z.lnot B_DIRTY)) in
      let s := set_dvc (set_cache s (<[b := x]> (cache s))) d in
      match idequeue s with
      | None => Ret (Some b, s)
      | Some _ => s ← idestart (idequeue s) s; Ret (Some b, s)
      end
  end.

(** The loop that finds the end of the queue; [pp] is [&idequeue] ([None]) or
    the address of a buffer's [qnext]. *)
Fixpoint find_end (s : ide) (pp : option nat) (fuel : nat) : outcome (option nat) :=
  cur ← (match pp with None => Ret (idequeue s) | Some i => opt (qnext s !! i) end);
  match cur with
  | None => Ret pp
  | Some i => match fuel with O => NoFuel | S fuel => find_end s (Some i) fuel end
  end.
Definition store_end (pp : option nat) (b : nat) (s : ide) : ide :=
  match pp with
  | None => set_queue s (Some b)
  | Some i => set_qnext s (<[i := Some b]> (qnext s))
  end.

(** [iderw] up to the loop around [sleep]. *)
Definition iderw_enter (b : nat) (s : ide) : outcome ide :=
  x ← getb (cache s) b;
  if negb (holdingsleep (lock x)) then Panic "iderw: buf not locked"
  else if Z.land (flags x) (Z.lor B_VALID B_DIRTY) =? B_VALID then Panic "iderw: nothing to do"
  else if negb (dev x =? 0) && negb (havedisk1 s) then Panic "iderw: ide disk 1 not present"
  else
    _ ← opt (qnext s !! b);
    let s := set_qnext s (<[b := None]> (qnext s)) in
    pp ← find_end s None (length (qnext s));
    let s := store_end pp b s in
    if bool_decide (idequeue s = Some b) then idestart (Some b) s else Ret s.

(** The test of the loop around [sleep]. *)
Definition request_done (b : nat) (s : ide) : outcome bool :=
  x ← getb (cache s) b; Ret (Z.land (flags x) (Z.lor B_VALID B_DIRTY) =? B_VALID).

(** ** The driver among its callers

    A process enters [iderw] with a buffer it has locked, interrupts come at any
    time, a process returns when its request is done, and buffers nobody waits
    for are changed by their holders.  The label says which steps are interrupts. *)
Record isys := ISys { drv : ide; waiting : gset nat }.

Inductive istep : bool → isys → isys → Prop :=
  | is_enter b x s w s' : cache s !! b = Some x → b ∉ w →
      0 ≤ dev x ≤ 1 → 0 ≤ blockno x < FSSIZE →
      iderw_enter b s = Ret s' → istep false (ISys s w) (ISys s' ({[b]} ∪ w))
  | is_intr s w r s' : ideintr s = Ret (r, s') → istep true (ISys s w) (ISys s' w)
  | is_return b s w : b ∈ w → request_done b s = Ret true →
      istep false (ISys s w) (ISys s (w ∖ {[b]}))
  | is_change s w c : length c = length (cache s) → (∀ b, b ∈ w → c !! b = cache s !! b) →
      istep false (ISys s w) (ISys (set_cache s c) w).

(** Runs with their number of interrupts. *)
Inductive irun : nat → isys → isys → Prop :=
  | ir_nil s : irun 0 s s
  | ir_step i n s1 s2 s3 : istep i s1 s2 → irun n s2 s3 → irun (Nat.b2n i + n) s1 s3.
End driver.
Arguments ide D : clear implicits.
Arguments isys D : clear implicits.

(** ** The contract of the driver

    A first-in first-out queue of requests, each served by [Bio.iderw] at once. *)
Record areq := AReq { aq : list nat; abst : bst }.

Inductive astep : areq → areq → Prop :=
  | as_enter b x q s : bufs s !! b = Some x → b ∉ q → holdingsleep (lock x) = true →
      astep (AReq q s) (AReq (q ++ [b]) s)
  | as_serve b q s s' : Bio.iderw b s = Ret (tt, s') → astep (AReq (b :: q) s) (AReq q s')
  | as_change q s c : length c = length (bufs s) → (∀ b, b ∈ q → c !! b = bufs s !! b) →
      astep (AReq q s) (AReq q (set_bufs s c)).

(** ** The queue as a list *)
Fixpoint chain (qn : list (option nat)) (h : option nat) (q : list nat) : Prop :=
  match q with
  | [] => h = None
  | i :: q => h = Some i ∧ ∃ n, qn !! i = Some n ∧ chain qn n q
  end.

Lemma chain_insert qn i v q : ∀ h, i ∉ q → chain qn h q → chain (<[i := v]> qn) h q.
Proof.
  induction q as [|j q IH]; intros h Hi; cbn; [done|]. intros (-> & n & Hn & Hc).
  split; [done|]. exists n. rewrite list_lookup_insert_ne by set_solver. split; [done|].
  apply IH; [set_solver|done].
Qed.

Lemma chain_below qn q : ∀ h, chain qn h q → Forall (λ i, (i < length qn)%nat) q.
Proof.
  induction q as [|j q IH]; intros h; cbn; [constructor|]. intros (_ & n & Hn & Hc).
  constructor; [by eapply lookup_lt_Some|by eapply IH].
Qed.

Lemma chain_fun qn q1 : ∀ q2 h, chain qn h q1 → chain qn h q2 → q1 = q2.
Proof.
  induction q1 as [|i q1 IH]; intros [|j q2] h; cbn; [done|by intros -> []|by intros [-> _] [=]|].
  intros (-> & n & Hn & Hc) (E & n' & Hn' & Hc'). injection E as <-. rewrite Hn in Hn'. injection Hn' as <-.
  f_equal. by eapply IH.
Qed.

(** Linking [b] behind the last element. *)
Lemma qchain_snoc qn b q : ∀ h, NoDup q → b ∉ q → qn !! b = Some None → chain qn h q →
  chain (match last q with None => qn | Some i => <[i := Some b]> qn end)
        (match last q with None => Some b | Some _ => h end) (q ++ [b]).
Proof.
  induction q as [|j q IH]; intros h Hnd Hb Hqb; cbn [chain app].
  - intros ->. cbn. eauto.
  - intros (-> & n & Hn & Hc). apply NoDup_cons in Hnd as [Hj Hnd].
    destruct q as [|j' q]; cbn [last].
    + split; [done|]. exists (Some b). cbn.
      rewrite list_lookup_insert_eq by (by eapply lookup_lt_Some). split; [done|]. split; [done|].
      exists None. rewrite list_lookup_insert_ne by set_solver. done.
    + specialize (IH n Hnd ltac:(set_solver) Hqb Hc).
      destruct (last (j' :: q)) as [z|] eqn:Hz.
      * split; [done|]. exists n. split; [|done].
        rewrite list_lookup_insert_ne; [done|]. intros ->. apply Hj. by apply last_Some_elem_of.
      * apply last_None in Hz. done.
Qed.

Lemma NoDup_below_length (l : list nat) (n : nat) :
  NoDup l → Forall (λ i, (i < n)%nat) l → (length l ≤ n)%nat.
Proof.
  intros Hnd Hb. rewrite <-(length_seq n 0). apply submseteq_length, NoDup_submseteq; [done|].
  intros x Hx. rewrite Forall_forall in Hb. apply elem_of_seq. specialize (Hb _ Hx). lia.
Qed.

(** The registers [idestart] writes name the sector. *)
Lemma lba_bytes s : 0 ≤ s < FSSIZE →
  Z.land s 0xff + 2 ^ 8 * Z.land (Z.shiftr s 8) 0xff + 2 ^ 16 * Z.land (Z.shiftr s 16) 0xff = s ∧
  Z.land (Z.shiftr s 24) 0x0f = 0.
Proof.
  unfold FSSIZE. intros Hs. change 0xff with (Z.ones 8). change 0x0f with (Z.ones 4).
  rewrite !Z.land_ones, !Z.shiftr_div_pow2 by lia.
  rewrite (Z.div_small s (2 ^ 24)), (Z.div_small s (2 ^ 16)) by lia.
  split; [|done]. Z.div_mod_to_equations. lia.
Qed.

Section proofs.
Context {D : Type} `{AtaSpec D}.
Context (polls : nat).
(** The disk gets ready within [polls] reads of its status. *)
Context (Hpolls : ∀ d : D, (busy d < polls)%nat).

Lemma same_media_trans d1 d2 d3 : same_media d1 d2 → same_media d2 d3 → same_media d1 d3.
Proof. intros [? ?] [? ?]. split; congruence. Qed.

Definition selected (d : D) : Prop := present d (drive_of d) = true.

Lemma selected_same d d' : same_media d d' → task d' = task d → selected d → selected d'.
Proof. intros [_ Hp] Ht. unfold selected, drive_of. by rewrite Hp, Ht. Qed.

Lemma idewait_loop_spec n : ∀ d, (busy d < n)%nat → selected d →
  ∃ r d', idewait_loop n d = Ret (r, d') ∧ Z.land r (Z.lor IDE_DF IDE_ERR) = 0 ∧
    same_media d d' ∧ task d' = task d ∧ active d' = active d ∧ busy d' = 0%nat.
Proof.
  induction n as [|n IH]; intros d Hn Hs; [lia|]. cbn [idewait_loop].
  pose proof (inb_status d) as Hi. destruct (inb 0x1f7 d) as [r d1]. rewrite Hs in Hi.
  change (Z.lor IDE_BSY IDE_DRDY) with 0xc0. change IDE_DRDY with 0x40. change (Z.lor IDE_DF IDE_ERR) with 0x21.
  destruct Hi as (Hm & Ht & Ha & _ & Hb). destruct (decide (busy d = 0%nat)).
  - destruct Hb as (-> & He & Hb). rewrite Z.eqb_refl. exists r, d1. split_and!; done || apply Hm.
  - destruct Hb as [Hb Hlt]. rewrite (proj2 (Z.eqb_neq _ _) Hb).
    destruct (IH d1) as (r' & d' & E & He & Hm' & Ht' & Ha' & Hb'); [lia|by eapply selected_same|].
    exists r', d'. split_and!; [done..|by eapply same_media_trans|congruence|congruence|done].
Qed.

Lemma idewait_spec c d : selected d → ∃ d', idewait polls c d = Ret (0, d') ∧
  same_media d d' ∧ task d' = task d ∧ active d' = active d ∧ busy d' = 0%nat.
Proof using Hpolls.
  intros Hs. destruct (idewait_loop_spec polls d (Hpolls d) Hs) as (r & d' & E & He & Hrest).
  exists d'. unfold idewait. rewrite E. cbn [mbind outcome_bind]. rewrite He, Z.eqb_refl.
  cbn [negb]. rewrite andb_false_r. done.
Qed.

(** A request the callers make: a block of a disk that is there. *)
Definition request_ok (d : D) (x : buf) : Prop :=
  0 ≤ dev x ≤ 1 ∧ present d (dev x) = true ∧ 0 ≤ blockno x < FSSIZE.

Definition dirty (x : buf) : bool := negb (Z.land (flags x) B_DIRTY =? 0).

Lemma idestart_spec s b x :
  cache s !! b = Some x → request_ok (dvc s) x → selected (dvc s) →
  ∃ d', idestart polls (Some b) s = Ret (set_dvc s d') ∧ selected d' ∧ present d' = present (dvc s) ∧
    (dirty x = false → active d' = Some (Reading (dev x) (blockno x))) ∧
    ∀ dr l, sector d' dr l =
      if dirty x && bool_decide (dr = dev x ∧ l = blockno x) then data x else sector (dvc s) dr l.
Proof using Hpolls.
  intros Hx (Hdev & Hpres & Hb) Hsel. unfold idestart, getb. rewrite Hx. cbn [opt mbind outcome_bind].
  rewrite (proj2 (Z.leb_gt _ _)) by lia. change (BSIZE / SECTOR_SIZE) with 1. cbn [Z.ltb Z.compare Pos.compare Pos.compare_cont Z.eqb Pos.eqb].
  destruct (idewait_spec false (dvc s) Hsel) as (d0 & E & M0 & T0 & A0 & B0). rewrite E. cbn [mbind outcome_bind].
  rewrite Z.mul_1_r. destruct (lba_bytes (blockno x) Hb) as [Hl Hh]. rewrite Hh.
  destruct (outb_control d0 0 B0) as (M1 & T1 & B1). set (d1 := outb 0x3f6 0 d0) in *.
  destruct (outb_task d1 0x1f2 1 B1 ltac:(lia)) as (M2 & T2 & B2). set (d2 := outb 0x1f2 1 d1) in *.
  destruct (outb_task d2 0x1f3 (Z.land (blockno x) 0xff) B2 ltac:(lia)) as (M3 & T3 & B3).
  set (d3 := outb 0x1f3 _ d2) in *.
  destruct (outb_task d3 0x1f4 (Z.land (Z.shiftr (blockno x) 8) 0xff) B3 ltac:(lia)) as (M4 & T4 & B4).
  set (d4 := outb 0x1f4 _ d3) in *.
  destruct (outb_task d4 0x1f5 (Z.land (Z.shiftr (blockno x) 16) 0xff) B4 ltac:(lia)) as (M5 & T5 & B5).
  set (d5 := outb 0x1f5 _ d4) in *.
  set (v := Z.lor (Z.lor 0xe0 (Z.shiftl (Z.land (dev x) 1) 4)) 0).
  destruct (outb_task d5 0x1f6 v B5 ltac:(lia)) as (M6 & T6 & B6). set (d6 := outb 0x1f6 _ d5) in *.
  assert (same_media (dvc s) d6) as M.
  { repeat (eapply same_media_trans; [eassumption|]). split; done. }
  assert (Z.land (Z.shiftr v 4) 1 = dev x ∧ Z.land v 15 = 0) as [Hv1 Hv2].
  { assert (dev x = 0 ∨ dev x = 1) as [e|e] by lia; unfold v; rewrite e; split; reflexivity. }
  clearbody v. assert (drive_of d6 = dev x) as Hdr by (unfold drive_of; rewrite T6; exact Hv1).
  assert (lba_of d6 = blockno x) as Hlba.
  { unfold lba_of. rewrite !T6, !T5, !T4, !T3. cbn. rewrite Hv2. lia. }
  assert (task d6 0x1f2 = 1) as Hcnt by (rewrite T6, T5, T4, T3, T2; done).
  destruct M as [Ms Mp]. unfold dirty. destruct (negb _) eqn:Hd; cbn [andb].
  - destruct (outb_write d6 B6 Hcnt) as ([S7 P7] & T7 & A7). rewrite Hdr, Hlba in A7.
    destruct (outsl_write _ _ _ (data x) A7) as (T8 & A8 & P8 & S8).
    eexists. split; [reflexivity|]. split; [|split; [exact (eq_trans P8 (eq_trans P7 Mp))|]].
    + unfold selected, drive_of. change IDE_CMD_WRITE with 0x30. cbn [Z.eqb Pos.eqb]. rewrite P8, P7, Mp, T8, T7. change (present (dvc s) (drive_of d6) = true).
      by rewrite Hdr.
    + split; [done|]. intros dr l. change IDE_CMD_WRITE with 0x30. cbn [Z.eqb Pos.eqb]. rewrite S8, S7, Ms. by case_decide; case_bool_decide.
  - destruct (outb_read d6 B6 Hcnt) as ([S7 P7] & T7 & A7). rewrite Hdr, Hlba in A7.
    eexists. split; [reflexivity|]. split; [|split; [exact (eq_trans P7 Mp)|]].
    + unfold selected, drive_of. change IDE_CMD_READ with 0x20. cbn [Z.eqb Pos.eqb]. rewrite P7, Mp, T7. change (present (dvc s) (drive_of d6) = true).
      by rewrite Hdr.
    + split; [intros _; exact A7|]. intros dr l. change IDE_CMD_READ with 0x20. cbn [Z.eqb Pos.eqb]. by rewrite S7, Ms.
Qed.

(** ** Simulation *)
Definition done_flags (x : buf) : Prop := Z.land (flags x) (Z.lor B_VALID B_DIRTY) = B_VALID.

(** The queue and the buffers of the driver, whatever the controller does. *)
Record base (c : isys D) (a : areq) : Prop := {
  b_chain : chain (qnext (drv c)) (idequeue (drv c)) (aq a);
  b_len : length (qnext (drv c)) = length (cache (drv c));
  b_nodup : NoDup (aq a);
  b_wait : ∀ b, b ∈ aq a → b ∈ waiting c;
  b_req : ∀ b, b ∈ aq a → ∃ x, cache (drv c) !! b = Some x ∧ request_ok (dvc (drv c)) x ∧
    holdingsleep (lock x) = true ∧ ¬ done_flags x;
  b_done : ∀ b, b ∈ waiting c → b ∉ aq a → ∃ x, cache (drv c) !! b = Some x ∧ done_flags x;
  b_selected : selected (dvc (drv c));
  b_disks : present (dvc (drv c)) 0 = true ∧ present (dvc (drv c)) 1 = havedisk1 (drv c);
  b_bufs : bufs (abst a) = cache (drv c);
  b_have : Bio.havedisk1 (abst a) = havedisk1 (drv c)
}.

(** The drives hold the blocks of the contract, but for a write under way. *)
Definition media (d : D) (k : gmap (Z * Z) block) (w : option buf) : Prop :=
  ∀ dr l, 0 ≤ dr ≤ 1 → present d dr = true → 0 ≤ l < FSSIZE →
    ∃ y, k !! (dr, l) = Some y ∧ sector d dr l =
      match w with
      | Some x => if dirty x && bool_decide (dr = dev x ∧ l = blockno x) then data x else y
      | None => y
      end.

(** The controller works on the head of the queue. *)
Record sim (c : isys D) (a : areq) : Prop := {
  sim_base : base c a;
  sim_active : ∀ b x, head (aq a) = Some b → cache (drv c) !! b = Some x → dirty x = false →
    active (dvc (drv c)) = Some (Reading (dev x) (blockno x));
  sim_media : media (dvc (drv c)) (disk (abst a)) (b ← head (aq a); cache (drv c) !! b)
}.

Lemma base_dvc (s : ide D) w a d : base (ISys s w) a → present d = present (dvc s) → selected d →
  base (ISys (set_dvc s d) w) a.
Proof.
  intros [] Hp Hs. split; cbn in *; try done; unfold request_ok; rewrite ?Hp; done.
Qed.

Lemma start_sim (s : ide D) w a b q : aq a = b :: q → base (ISys s w) a → media (dvc s) (disk (abst a)) None →
  ∃ s', idestart polls (Some b) s = Ret s' ∧ sim (ISys s' w) a.
Proof using Hpolls.
  intros Hq Hb Hm. destruct (b_req _ _ Hb b) as (x & Hx & Hr & _); [rewrite Hq; left|]. cbn in Hx, Hr.
  destruct (idestart_spec s b x Hx Hr (b_selected _ _ Hb)) as (d & E & Hs & Hp & Ha & Hd).
  exists (set_dvc s d). split; [done|]. split; [by apply base_dvc| |].
  - cbn. rewrite Hq. intros b' x' [= <-]. rewrite Hx. intros [= <-]. done.
  - cbn. rewrite Hq. cbn. rewrite Hx. intros dr l Hdr. rewrite Hp, Hd. intros Hpr Hl.
    destruct (Hm dr l Hdr Hpr Hl) as (y & Hy & ->). eauto.
Qed.

Lemma find_end_spec (s : ide D) q : ∀ pp h fuel,
  match pp with None => idequeue s = h | Some i => qnext s !! i = Some h end →
  chain (qnext s) h q → (length q ≤ fuel)%nat →
  find_end s pp fuel = Ret (match last q with None => pp | Some i => Some i end).
Proof.
  induction q as [|j q IH]; intros pp h fuel Hpp Hc Hf.
  - cbn in Hc. subst h. destruct fuel, pp; cbn; rewrite Hpp; done.
  - destruct Hc as (-> & n & Hn & Hc). destruct fuel as [|fuel]; cbn in Hf; [lia|].
    assert (find_end s pp (S fuel) = find_end s (Some j) fuel) as ->.
    { destruct pp as [i|]; cbn [find_end]; rewrite Hpp; reflexivity. }
    rewrite (IH (Some j) n fuel Hn Hc) by lia. destruct q as [|k q]; [done|].
    change (last (j :: k :: q)) with (last (k :: q)). destruct (last (k :: q)) eqn:Hl; [done|]. by apply last_None in Hl.
Qed.

(** Entering a request. *)
Lemma enter_sim s w a b x :
  sim (ISys s w) a → cache s !! b = Some x → b ∉ w → request_ok (dvc s) x →
  holdingsleep (lock x) = true → ¬ done_flags x →
  ∃ s', iderw_enter polls b s = Ret s' ∧ sim (ISys s' ({[b]} ∪ w)) (AReq (aq a ++ [b]) (abst a)).
Proof using Hpolls.
  intros [Hb Ha Hm] Hx Hw Hr Hl Hd. pose proof Hb as [Hc Hlen Hnd Hwt Hrq Hdn Hsel Hds Hbf Hhv].
  cbn [drv waiting] in *. assert (b ∉ aq a) as Hbq by (intros Hin; by apply Hw, Hwt).
  assert (is_Some (qnext s !! b)) as [qb Hqb].
  { apply lookup_lt_is_Some. rewrite Hlen. by eapply lookup_lt_Some. }
  unfold iderw_enter, getb. rewrite Hx. cbn [opt mbind outcome_bind]. rewrite Hl. cbn [negb].
  rewrite (proj2 (Z.eqb_neq _ _) Hd).
  assert (negb (dev x =? 0) && negb (havedisk1 s) = false) as ->.
  { destruct (dev x =? 0) eqn:E; [done|]. bool_to_prop. destruct Hr as (Hdv & Hp & _).
    replace (dev x) with 1 in Hp by lia. rewrite (proj2 Hds) in Hp. by rewrite Hp. }
  rewrite Hqb. cbn [opt mbind outcome_bind].
  set (s1 := set_qnext s (<[b:=None]> (qnext s))).
  assert (chain (qnext s1) (idequeue s1) (aq a)) as Hc1 by (by apply chain_insert).
  rewrite (find_end_spec s1 (aq a) None (idequeue s1) _ eq_refl Hc1).
  2: { apply NoDup_below_length; [done|]. by eapply chain_below. }
  cbn [mbind outcome_bind].
  assert (qnext s1 !! b = Some None) as Hq1 by (apply list_lookup_insert_eq; by eapply lookup_lt_Some).
  pose proof (qchain_snoc _ b (aq a) _ Hnd Hbq Hq1 Hc1) as Hsn.
  set (s2 := store_end _ b s1) in *.
  assert (base (ISys s2 ({[b]} ∪ w)) (AReq (aq a ++ [b]) (abst a))) as Hb2.
  { assert (cache s2 = cache s ∧ dvc s2 = dvc s ∧ havedisk1 s2 = havedisk1 s ∧ length (qnext s2) = length (qnext s))
      as (Ec & Ed & Eh & El).
    { subst s2. destruct (last (aq a)); cbn; rewrite ?length_insert; done. }
    split; cbn [drv waiting aq abst]; rewrite ?Ec, ?Ed, ?Eh, ?El; try done.
    - subst s2. destruct (last (aq a)); cbn; exact Hsn.
    - apply NoDup_app. split; [done|]. split; [set_solver|apply NoDup_singleton].
    - set_solver.
    - intros i [Hi| ->%list_elem_of_singleton]%elem_of_app; [by apply Hrq|]. by exists x.
    - intros i Hi1 Hi2. apply Hdn; [set_solver|set_solver]. }
  destruct (aq a) as [|h q] eqn:Hq.
  - assert (idequeue s2 = Some b) as -> by done. rewrite bool_decide_true by done.
    apply (start_sim s2 _ _ b []); [done|done|]. exact Hm.
  - assert (idequeue s2 = Some h) as ->.
    { destruct Hc as [Hh _]. subst s2. destruct (last (h :: q)) eqn:E; [done|]. by apply last_None in E. }
    rewrite bool_decide_false by (intros [= ->]; set_solver).
    exists s2. split; [done|]. split; [done| |].
    + cbn [drv aq]. intros b' x' [= <-]. assert (cache s2 = cache s ∧ dvc s2 = dvc s) as [-> ->].
      { subst s2. by destruct (last (h :: q)). }
      cbn in *. by apply Ha.
    + assert (cache s2 = cache s ∧ dvc s2 = dvc s) as [Ec Ed].
      { subst s2. by destruct (last (h :: q)). }
      cbn [drv abst aq app head]. rewrite Ec, Ed. exact Hm.
Qed.

(** Reading the data of the request under way. *)
Lemma read_data_spec x (d : D) : selected d →
  (dirty x = false → active d = Some (Reading (dev x) (blockno x))) →
  ∃ d', read_data polls x d = Ret (if dirty x then x else set_data x (sector d (dev x) (blockno x)), d') ∧
    selected d' ∧ same_media d d'.
Proof using Hpolls.
  intros Hs Ha. unfold read_data, dirty in *. destruct (Z.land (flags x) B_DIRTY =? 0) eqn:E; cbn [negb] in *.
  - destruct (idewait_spec true d Hs) as (d1 & -> & M1 & T1 & A1 & B1). cbn.
    specialize (Ha eq_refl). rewrite <-A1 in Ha. destruct (insl_read d1 _ _ Ha B1) as (Hi & M2 & T2).
    destruct (insl d1) as [bytes d2]. cbn in *. subst bytes. rewrite (proj1 M1). exists d2.
    split; [done|]. split; [|by eapply same_media_trans].
    eapply selected_same, selected_same, Hs; done.
  - exists d. split; [done|]. by split.
Qed.

Lemma done_completed x :
  done_flags (set_flags x (Z.land (Z.lor (flags x) B_VALID) (Z.lnot B_DIRTY))).
Proof.
  unfold done_flags, B_VALID, B_DIRTY. cbn [flags set_flags]. apply Z.bits_inj'. intros n Hn.
  rewrite !Z.land_spec, !Z.lor_spec, Z.lnot_spec by done.
  destruct (decide (n = 1)) as [->|]; [cbn; by rewrite orb_true_r|].
  assert (Z.testbit 2 n = false) as ->.
  { change 2 with (2 ^ 1). apply Z.pow2_bits_false. lia. }
  destruct (decide (n = 2)) as [->|]; [cbn; by rewrite andb_false_r|].
  assert (Z.testbit 4 n = false) as ->.
  { change 4 with (2 ^ 2). apply Z.pow2_bits_false. lia. }
  cbn. by rewrite andb_false_r.
Qed.

Lemma idestart_cache b (s s' : ide D) : idestart polls b s = Ret s' → cache s' = cache s.
Proof.
  destruct b as [b|]; cbn [idestart]; [|done]. intros E. apply bind_Ret in E as (x & _ & E).
  destruct (FSSIZE <=? blockno x); [done|]. destruct (7 <? BSIZE / SECTOR_SIZE); [done|].
  apply bind_Ret in E as ([r d] & _ & E). destruct (negb _) in E; by injection E as <-.
Qed.

(** The interrupt that completes the head of the queue does what [Bio.iderw] does. *)
Lemma serve_sim s w a b q :
  sim (ISys s w) a → aq a = b :: q →
  ∃ s' k, ideintr polls s = Ret (Some b, s') ∧ Bio.iderw b (abst a) = Ret (tt, k) ∧
    sim (ISys s' w) (AReq q k) ∧ request_done b s' = Ret true ∧ b ∈ w.
Proof using Hpolls.
  intros [Hb Ha Hm] Hq. pose proof Hb as [Hc Hlen Hnd Hwt Hrq Hdn Hsel Hds Hbf Hhv].
  cbn [drv waiting] in *. rewrite Hq in *. destruct (Hrq b) as (x & Hx & Hr & Hl & Hd); [left|].
  cbn [chain] in Hc. destruct Hc as (Hh & n & Hn & Hc).
  specialize (Ha b x eq_refl Hx). cbn [head mbind option_bind] in Hm. rewrite Hx in Hm.
  destruct (read_data_spec x (dvc s) Hsel Ha) as (d1 & E1 & Hs1 & M1).
  set (x1 := if dirty x then x else _) in E1.
  set (y := set_flags x1 (Z.land (Z.lor (flags x1) B_VALID) (Z.lnot B_DIRTY))).
  set (s1 := set_dvc (set_cache (set_queue s n) (<[b := y]> (cache s))) d1).
  assert (flags x1 = flags x ∧ dev x1 = dev x ∧ blockno x1 = blockno x ∧ lock x1 = lock x) as (F1 & F2 & F3 & F4).
  { subst x1. by destruct (dirty x). }
  destruct Hr as (Hdv & Hp & Hbn).
  destruct (Hm (dev x) (blockno x) Hdv Hp Hbn) as (z & Hz & Hsz).
  (* the contract's transfer *)
  assert (∃ k, Bio.iderw b (abst a) = Ret (tt, k) ∧ bufs k = <[b := y]> (cache s) ∧
    Bio.havedisk1 k = havedisk1 s ∧
    disk k = if dirty x then <[(dev x, blockno x) := data x]> (disk (abst a)) else disk (abst a)) as
    (k & Ek & Kb & Kh & Kd).
  { unfold Bio.iderw, getb. rewrite Hbf, Hx. cbn [opt mbind outcome_bind]. rewrite Hl. cbn [negb].
    rewrite (proj2 (Z.eqb_neq _ _) Hd), Hhv.
    assert (negb (dev x =? 0) && negb (havedisk1 s) = false) as ->.
    { destruct (dev x =? 0) eqn:E; [done|]. bool_to_prop. replace (dev x) with 1 in Hp by lia.
      rewrite (proj2 Hds) in Hp. by rewrite Hp. }
    rewrite (proj2 (Z.leb_gt _ _)) by lia. subst y x1. unfold dirty in *.
    destruct (negb (Z.land (flags x) B_DIRTY =? 0)) eqn:Hdt.
    - eexists. split; [reflexivity|]. by cbn.
    - rewrite Hz. cbn [opt mbind outcome_bind]. rewrite andb_false_l in Hsz. eexists. split; [reflexivity|].
      cbn. rewrite Hsz. done. }
  assert (base (ISys s1 w) (AReq q k)) as Hb1.
  { apply NoDup_cons in Hnd as [Hnb Hnd].
    split; cbn [drv waiting aq abst s1 set_dvc set_cache set_queue cache qnext idequeue havedisk1 dvc];
      try done.
    - by rewrite length_insert.
    - intros i Hi. apply Hwt. by right.
    - intros i Hi. destruct (Hrq i) as (xi & Hxi & Hri & Hrest); [by right|]. exists xi.
      rewrite list_lookup_insert_ne by (intros ->; done). split; [done|]. split; [|done].
      unfold request_ok in *. by rewrite (proj2 M1).
    - intros i Hi Hiq. destruct (decide (i = b)) as [->|Hne].
      + exists y. rewrite list_lookup_insert_eq by (by eapply lookup_lt_Some). split; [done|].
        apply done_completed.
      + destruct (Hdn i Hi) as (xi & Hxi & Hdi); [set_solver|]. exists xi.
        by rewrite list_lookup_insert_ne.
    - rewrite (proj2 M1). done. }
  assert (media d1 (disk k) None) as Hm1.
  { intros dr l Hdr. rewrite (proj2 M1), (proj1 M1), Kd. intros Hpr Hl'.
    destruct (Hm dr l Hdr Hpr Hl') as (z' & Hz' & ->). destruct (dirty x); cbn [andb]; [|eauto].
    destruct (decide (dr = dev x ∧ l = blockno x)) as [[-> ->]|Hne].
    - exists (data x). rewrite bool_decide_true by done. by rewrite lookup_insert_eq.
    - exists z'. rewrite bool_decide_false by done. rewrite lookup_insert_ne by (intros [= ? ?]; by apply Hne). done. }
  assert (request_done b s1 = Ret true) as Hdone1.
  { unfold request_done, getb. cbn. rewrite list_lookup_insert_eq by (by eapply lookup_lt_Some).
    cbn. f_equal. apply Z.eqb_eq. apply done_completed. }
  unfold ideintr. rewrite Hh, Hn. unfold getb. cbn [opt mbind outcome_bind]. rewrite Hx.
  cbn [opt mbind outcome_bind set_queue dvc]. rewrite E1. cbn [mbind outcome_bind].
  fold y. change (Ide _ _ _ _ d1) with s1 || idtac.
  destruct q as [|j q].
  - cbn [chain] in Hc. subst n. exists s1, k. split; [done|]. split; [done|]. split; [|split; [done|apply Hwt; left]].
    split; [done|done|exact Hm1].
  - destruct Hc as [-> Hc]. destruct (start_sim s1 w (AReq (j :: q) k) j q eq_refl Hb1 Hm1) as (s2 & E2 & Hs2).
    exists s2, k. split; [exact (f_equal (λ o, o ≫= λ s0, Ret (Some b, s0)) E2)|].
    split; [done|]. split; [done|]. split; [|apply Hwt; left].
    rewrite <-Hdone1. unfold request_done. by rewrite (idestart_cache _ _ _ E2).
Qed.

(** When the controller reports an error the buffer is marked valid all the same,
    with the data it had. *)
Lemma failed_read_marked_valid (s : ide D) b x d' :
  idequeue s = Some b → cache s !! b = Some x → dirty x = false → qnext s !! b = Some None →
  idewait polls true (dvc s) = Ret (-1, d') →
  ∃ s' x', ideintr polls s = Ret (Some b, s') ∧ cache s' !! b = Some x' ∧ done_flags x' ∧ data x' = data x.
Proof.
  intros Hq Hx Hd Hn He. unfold ideintr, read_data, getb. rewrite Hq, Hn. cbn [opt mbind outcome_bind].
  rewrite Hx. cbn [opt mbind outcome_bind dvc set_queue]. unfold dirty in Hd. rewrite (proj1 (negb_false_iff _) Hd), He.
  cbn. eexists _, (set_flags x _). split; [done|]. split; [|split; [apply done_completed|done]].
  cbn. rewrite list_lookup_insert_eq by (by eapply lookup_lt_Some). done.
Qed.

(** ** Steps *)
Lemma iderw_enter_Ret b (s s' : ide D) x : iderw_enter polls b s = Ret s' → cache s !! b = Some x →
  holdingsleep (lock x) = true ∧ ¬ done_flags x ∧ (dev x = 0 ∨ havedisk1 s = true).
Proof.
  unfold iderw_enter, getb, done_flags. intros E Hx. rewrite Hx in E. cbn [opt mbind outcome_bind] in E.
  destruct (holdingsleep (lock x)); [|done]. cbn [negb] in E.
  destruct (_ =? B_VALID) eqn:Hd; [done|]. apply Z.eqb_neq in Hd.
  destruct (dev x =? 0) eqn:E0; bool_to_prop; [by auto|]. cbn [negb andb] in E.
  destruct (havedisk1 s); [by auto|done].
Qed.

Lemma change_sim (s : ide D) w a l :
  sim (ISys s w) a → length l = length (cache s) → (∀ b, b ∈ w → l !! b = cache s !! b) →
  sim (ISys (set_cache s l) w) (AReq (aq a) (set_bufs (abst a) l)).
Proof.
  intros [[] Ha Hm] Hl Hw. cbn in *. split; [split|..]; cbn in *; try done; try congruence.
  - intros b Hb. rewrite Hw by auto. auto.
  - intros b Hb Hq. rewrite Hw by auto. auto.
  - intros b x Hb. rewrite Hw; [by apply Ha|]. apply b_wait0. by apply head_Some_elem_of.
  - destruct (head (aq a)) as [b|] eqn:Hh; cbn; [|done]. rewrite Hw; [done|].
    apply b_wait0. by apply head_Some_elem_of.
Qed.

Lemma return_sim (s : ide D) w a b :
  sim (ISys s w) a → request_done b s = Ret true → sim (ISys s (w ∖ {[b]})) a.
Proof.
  intros [[] Ha Hm] Hd. cbn in *. split; [split|..]; cbn in *; try done.
  - intros b' Hb'. apply elem_of_difference. split; [auto|]. intros ->%elem_of_singleton.
    destruct (b_req0 b Hb') as (x & Hx & _ & _ & Hn). unfold request_done, getb in Hd. rewrite Hx in Hd.
    injection Hd as Hd. apply Z.eqb_eq in Hd. done.
  - intros b' Hb' Hq. apply b_done0; set_solver.
Qed.

(** What a step does to the queue. *)
Definition queue_step (i : bool) (c c' : isys D) (q q' : list nat) : Prop :=
  match i, q with
  | false, _ => q `prefix_of` q'
  | true, [] => q' = []
  | true, b :: q => q' = q ∧ request_done b (drv c') = Ret true ∧ b ∈ waiting c'
  end.

Lemma step_sim i c c' a : sim c a → istep polls i c c' →
  ∃ a', rtc astep a a' ∧ sim c' a' ∧ queue_step i c c' (aq a) (aq a').
Proof using Hpolls.
  intros Hs. destruct a as [q k]. destruct 1 as [b x s w s' Hx Hw Hdev Hbn E|s w r s' E|b s w Hb Hd|s w l Hl Hw].
  - destruct (iderw_enter_Ret _ _ _ _ E Hx) as (Hl & Hd & Hh).
    assert (request_ok (dvc s) x) as Hr.
    { destruct (b_disks _ _ (sim_base _ _ Hs)) as [H0' H1']. cbn in H0', H1'. split; [done|]. split; [|done].
      assert (dev x = 0 ∨ dev x = 1) as [e|e] by lia; rewrite e; [done|]. rewrite H1'. destruct Hh as [Hh|Hh]; [lia|done]. }
    destruct (enter_sim s w _ b x Hs Hx Hw Hr Hl Hd) as (s'' & E' & Hs').
    rewrite E in E'. injection E' as <-. exists (AReq (q ++ [b]) k). split; [|split; [done|by exists [b]]].
    apply rtc_once. apply as_enter with x; [|intros Hbq; by apply Hw, (b_wait _ _ (sim_base _ _ Hs))|done].
    pose proof (b_bufs _ _ (sim_base _ _ Hs)) as Hbf. cbn in Hbf. by rewrite Hbf.
  - destruct q as [|b q].
    + pose proof (b_chain _ _ (sim_base _ _ Hs)) as Hc. cbn in Hc. unfold ideintr in E. rewrite Hc in E.
      injection E as <- <-. exists (AReq [] k). split; [done|]. by split.
    + destruct (serve_sim s w _ b q Hs eq_refl) as (s'' & k' & E' & Ek & Hs' & Hd & Hb).
      rewrite E in E'. injection E' as -> <-. exists (AReq q k'). split; [|by split_and!].
      by apply rtc_once, as_serve.
  - exists (AReq q k). split; [done|]. split; [by apply return_sim|reflexivity].
  - exists (AReq q (set_bufs k l)). split; [|split; [exact (change_sim _ _ _ _ Hs Hl Hw)|reflexivity]].
    pose proof (b_bufs _ _ (sim_base _ _ Hs)) as Hbf. cbn in Hbf.
    apply rtc_once, as_change; rewrite Hbf; [done|].
    intros b Hb. apply Hw. by apply (b_wait _ _ (sim_base _ _ Hs)).
Qed.

(** ** Initialisation *)
Record boot_ok (s : ide D) (k : gmap (Z * Z) block) : Prop := {
  bt_queue : idequeue s = None;
  bt_len : length (qnext s) = length (cache s);
  bt_disk0 : present (dvc s) 0 = true ∧ drive_of (dvc s) = 0;
  bt_disk1 : havedisk1 s = false;
  bt_media : media (dvc s) k None
}.

Lemma probe_spec n : ∀ d, (0 < n)%nat → busy d = 0%nat → ∃ d', probe n d = (present d (drive_of d), d') ∧
  same_media d d' ∧ busy d' = 0%nat.
Proof.
  induction n as [|n IH]; intros d Hn Hb; [lia|]. cbn [probe]. pose proof (inb_status d) as Hi.
  destruct (inb 0x1f7 d) as [r d1]. destruct Hi as (Hm & Ht & _ & Hi).
  destruct (present d (drive_of d)) eqn:Hp.
  - destruct Hi as [Hr Hi]. rewrite (proj2 (Z.eqb_neq _ _) Hr). rewrite decide_True in Hi by done.
    exists d1. by destruct Hi as (_ & _ & Hi).
  - destruct Hi as [-> Hi]. cbn [Z.eqb negb]. destruct n as [|n]; [exists d1; cbn; split; [done|split; [done|lia]]|].
    destruct (IH d1) as (d' & E & M & B); [lia|lia|]. exists d'. rewrite E.
    assert (present d1 (drive_of d1) = false) as ->.
    { unfold drive_of. rewrite Ht, (proj2 Hm). exact Hp. }
    split; [done|]. split; [by eapply same_media_trans|done].
Qed.

Lemma ideinit_sim s k : boot_ok s k → ∃ s', ideinit polls s = Ret s' ∧
  sim (ISys s' ∅) (AReq [] (BSt (cache s) k (havedisk1 s'))).
Proof using Hpolls.
  intros [Hq Hl [H0' Hdr] H1' Hm]. unfold ideinit.
  destruct (idewait_spec false (dvc s)) as (d1 & -> & M1 & T1 & _ & B1); [unfold selected; by rewrite Hdr|].
  cbn [mbind outcome_bind].
  destruct (outb_task d1 0x1f6 (Z.lor 224 (1 ≪ 4)) B1 ltac:(lia)) as (M2 & T2 & B2).
  set (d2 := outb _ _ d1) in *.
  destruct (probe_spec 1000 d2 ltac:(lia) B2) as (d3 & E3 & M3 & B3). rewrite E3.
  destruct (outb_task d3 0x1f6 (Z.lor 224 (0 ≪ 4)) B3 ltac:(lia)) as (M4 & T4 & B4).
  set (d4 := outb _ _ d3) in *.
  assert (drive_of d2 = 1) as -> by (unfold drive_of; rewrite T2; reflexivity).
  assert (drive_of d4 = 0) as Hd4 by (unfold drive_of; rewrite T4; reflexivity).
  assert (same_media (dvc s) d4) as [Ms Mp].
  { repeat (eapply same_media_trans; [eassumption|]). done. }
  exists (Ide (cache s) (qnext s) (idequeue s) (if present d2 1 then true else havedisk1 s) d4).
  split; [reflexivity|]. clearbody d2 d4.
  assert (present d2 1 = present (dvc s) 1) as Hp1 by (by rewrite (proj2 M2), (proj2 M1)).
  clear E3 T2 M3 T4 B4.
  split; [split|..]; cbn; try done; try (intros b Hb; set_solver).
  - constructor.
  - unfold selected. by rewrite Hd4, Mp.
  - rewrite Mp, Hp1, H1'. split; [done|]. by destruct (present (dvc s) 1).
  - intros dr l Hdr'. rewrite Mp, Ms. apply Hm. done.
Qed.

Lemma reach_sim c c' a : sim c a → rtc (λ x y, ∃ i, istep polls i x y) c c' →
  ∃ a', rtc astep a a' ∧ sim c' a'.
Proof using Hpolls.
  intros Hs Hr. revert a Hs. induction Hr as [c|c1 c2 c3 [i Hi] _ IH]; intros a Hs; [by exists a|].
  destruct (step_sim i _ _ _ Hs Hi) as (a1 & Ha & Hs1 & _). destruct (IH _ Hs1) as (a2 & Ha2 & Hs2).
  exists a2. split; [by etrans|done].
Qed.


Lemma served_sim n c c' : irun polls n c c' → ∀ a k b, sim c a → aq a !! k = Some b → (k < n)%nat →
  ∃ c1, irun polls (S k) c c1 ∧ irun polls (n - S k) c1 c' ∧ request_done b (drv c1) = Ret true ∧ b ∈ waiting c1.
Proof using Hpolls.
  induction 1 as [c|i n c c2 c' Hi Hr IH]; intros a k b Hs Hk Hn; [lia|].
  destruct (step_sim i _ _ _ Hs Hi) as (a2 & _ & Hs2 & Hq). destruct i; cbn [queue_step Nat.b2n] in *.
  - destruct (aq a) as [|b0 q] eqn:Eq; [done|]. destruct Hq as (Hq & Hd & Hw). destruct k as [|k].
    + injection Hk as ->. exists c2. split; [apply (ir_step _ true 0 c c2 c2 Hi); constructor|].
      by replace (1 + n - 1)%nat with n by lia.
    + cbn in Hk. rewrite <-Hq in Hk. destruct (IH a2 k b Hs2 Hk ltac:(lia)) as (c1 & H1 & H2 & H3).
      exists c1. split; [by apply (ir_step _ true (S k) c c2 c1 Hi)|]. by replace (1 + n - S (S k))%nat with (n - S k)%nat by lia.
  - destruct (IH a2 k b Hs2) as (c1 & H1 & H2 & H3); [by eapply prefix_lookup_Some|lia|].
    exists c1. split; [by apply (ir_step _ false (S k) c c2 c1 Hi)|]. done.
Qed.

(** C5. Every disk request is served: in any reachable state, the request that
    has [k] others before it is complete after [k + 1] interrupts, in whatever way
    further requests, returns and other activity are interleaved with them; at
    that point the process waiting for it finds the condition of its loop in
    [iderw] true. *)
Theorem disk_request_served s0 k0 s c c' n k b q :
  boot_ok s0 k0 → ideinit polls s0 = Ret s → rtc (λ x y, ∃ i, istep polls i x y) (ISys s ∅) c →
  chain (qnext (drv c)) (idequeue (drv c)) q → q !! k = Some b →
  irun polls n c c' → (k < n)%nat →
  ∃ c1, irun polls (S k) c c1 ∧ irun polls (n - S k) c1 c' ∧
    request_done b (drv c1) = Ret true ∧ b ∈ waiting c1.
Proof using Hpolls.
  intros Hb E Hr Hc Hk Hn Hlt. destruct (ideinit_sim s0 k0 Hb) as (s' & E' & Hs).
  rewrite E in E'. injection E' as <-. destruct (reach_sim _ _ _ Hs Hr) as (a & _ & Hs1).
  assert (aq a = q) as Hq.
  { pose proof (b_chain _ _ (sim_base _ _ Hs1)) as Hc'. by apply (chain_fun _ _ _ _ Hc' Hc). }
  eapply served_sim; try eassumption. by rewrite Hq.
Qed.
End proofs.

(** ** A controller that behaves as documented *)
Record sdisk := SDisk { regs : Z → Z; blocks : Z → Z → block; cmd : option command; working : bool }.

#[export] Instance sdisk_ata : Ata sdisk := {
  outb p v d :=
    if p =? 0x1f7 then
      let dr := Z.land (Z.shiftr (regs d 0x1f6) 4) 1 in
      let lba := regs d 0x1f3 + 2 ^ 8 * regs d 0x1f4 + 2 ^ 16 * regs d 0x1f5
        + 2 ^ 24 * Z.land (regs d 0x1f6) 15 in
      SDisk (regs d) (blocks d) (Some (if v =? 0x20 then Reading dr lba else Writing dr lba)) true
    else if (0x1f2 <=? p) && (p <=? 0x1f6) then
      SDisk (λ q, if q =? p then v else regs d q) (blocks d) (cmd d) (working d)
    else d;
  inb _ d := if working d then (0x80, SDisk (regs d) (blocks d) (cmd d) false) else (0x40, d);
  outsl x d :=
    match cmd d with
    | Some (Writing dr l) =>
        SDisk (regs d) (λ dr' l', if decide (dr' = dr ∧ l' = l) then x else blocks d dr' l') (cmd d) (working d)
    | _ => d
    end;
  insl d := match cmd d with Some (Reading dr l) => (blocks d dr l, d) | _ => ([], d) end
}.

#[export] Program Instance sdisk_spec : AtaSpec sdisk := {
  busy d := if working d then 1%nat else 0%nat; task := regs; sector := blocks; active := cmd;
  present _ _ := true
}.
Next Obligation. intros [r b c [|]]; cbn; repeat split; done || lia. Qed.
Next Obligation. done. Qed.
Next Obligation.
  intros d p v Hw Hp. cbn. rewrite (proj2 (Z.eqb_neq p _)) by lia.
  rewrite (proj2 (Z.leb_le _ _)), (proj2 (Z.leb_le _ _)) by lia. done.
Qed.
Next Obligation. done. Qed.
Next Obligation. done. Qed.
Next Obligation. intros [r b c w] dr l x; cbn. by intros ->. Qed.
Next Obligation. intros [r b c w] dr l; cbn. by intros ->. Qed.

Lemma sdisk_polls (d : sdisk) : (busy d < 2)%nat.
Proof. cbn. destruct (working d); lia. Qed.

(** A machine with one locked, empty buffer for block 5 of disk 1. *)
Definition demo_buf : buf := Buf 0 1 5 (SLock 1 1) 1 0 0 [].
Definition demo_boot : ide sdisk := Ide [demo_buf] [None] None false (SDisk (λ _, 0) (λ _ l, [l]) None false).
Definition demo_ready : ide sdisk :=
  match ideinit 2 demo_boot with Ret s => s | _ => demo_boot end.
Definition demo_asked : ide sdisk :=
  match iderw_enter 2 0 demo_ready with Ret s => s | _ => demo_boot end.
Definition demo_disk : gmap (Z * Z) block :=
  map_imap (λ k _, Some [snd k]) (gset_to_gmap tt (list_to_set (cprod (seqZ 0 2) (seqZ 0 FSSIZE)))).

Lemma demo_disk_lookup dr l : 0 ≤ dr ≤ 1 → 0 ≤ l < FSSIZE → demo_disk !! (dr, l) = Some [l].
Proof.
  intros Hdr Hl. unfold demo_disk. rewrite map_lookup_imap.
  set (X := list_to_set _ : gset (Z * Z)).
  assert ((dr, l) ∈ X) as HX.
  { apply elem_of_list_to_set, list_elem_of_cprod. cbn [fst snd]. split; apply elem_of_seqZ; lia. }
  clearbody X. assert (gset_to_gmap tt X !! (dr, l) = Some tt) as ->.
  { by apply lookup_gset_to_gmap_Some. }
  reflexivity.
Qed.

Lemma demo_boot_ok : boot_ok demo_boot demo_disk.
Proof.
  split; [done..|]. intros dr l Hdr _ Hl. exists [l]. split; [by apply demo_disk_lookup|done].
Qed.

Lemma demo_steps : ideinit 2 demo_boot = Ret demo_ready ∧ iderw_enter 2 0 demo_ready = Ret demo_asked.
Proof. split; reflexivity. Qed.

Lemma demo_enter : istep 2 false (ISys demo_ready ∅) (ISys demo_asked {[0%nat]}).
Proof.
  rewrite <-(right_id_L ∅ (∪) {[0%nat]}). apply (is_enter 2 0 demo_buf); [done|set_solver|cbn; lia|cbn; unfold FSSIZE; lia|].
  apply demo_steps.
Qed.


(** The interrupt that serves the request of [demo_asked]. *)
Definition demo_served : ide sdisk :=
  match ideintr 2 demo_asked with Ret (_, s) => s | _ => demo_boot end.

Lemma disk_request_served_witness : ∃ c1, irun 2 1 (ISys demo_asked {[0%nat]}) c1 ∧
  request_done 0 (drv c1) = Ret true.
Proof.
  destruct (disk_request_served 2 sdisk_polls demo_boot demo_disk demo_ready
    (ISys demo_asked {[0%nat]}) (ISys demo_served {[0%nat]}) 1 0 0 [0%nat]) as (c1 & H1 & _ & H3 & _).
  - exact demo_boot_ok.
  - apply demo_steps.
  - exact (rtc_once _ _ (ex_intro _ false demo_enter)).
  - split; [reflexivity|]. exists None. by split.
  - reflexivity.
  - apply (ir_step 2 true 0 _ (ISys demo_served {[0%nat]})); [|constructor].
    by apply is_intr with (Some 0%nat).
  - lia.
  - by exists c1.
Defined.

Lemma demo_read : (data <$> cache demo_served) = [[5]].
Proof. reflexivity. Qed.

(** ** The disk in memory ([memide.c]) *)
Module MemIde.
Record mst := MSt { mbufs : list buf; memdisk : list Z; disksize : Z }.

(** The file-system image the kernel is linked with. *)
Definition ideinit (image : list Z) (s : mst) : mst :=
  MSt (mbufs s) image (Z.of_nat (length image) / BSIZE).

Definition iderw (i : nat) : M mst unit := fun s =>
  b ← getb (mbufs s) i;
  if negb (holdingsleep (lock b)) then Panic "iderw: buf not locked"
  else if Z.land (flags b) (Z.lor B_VALID B_DIRTY) =? B_VALID then Panic "iderw: nothing to do"
  else if negb (dev b =? 1) then Panic "iderw: request not for disk 1"
  else if disksize s <=? blockno b then Panic "iderw: block out of range"
  else
    let p := Z.to_nat (blockno b * BSIZE) in
    let n := Z.to_nat BSIZE in
    if (length (memdisk s) <? p + n)%nat then Undef
    else if negb (Z.land (flags b) B_DIRTY =? 0) then
      let f := Z.lor (Z.land (flags b) (Z.lnot B_DIRTY)) B_VALID in
      Ret (tt, MSt (<[i := set_flags b f]> (mbufs s))
                 (take p (memdisk s) ++ take n (data b) ++ drop (p + n) (memdisk s)) (disksize s))
    else
      let f := Z.lor (flags b) B_VALID in
      Ret (tt, MSt (<[i := set_flags (set_data b (take n (drop p (memdisk s)))) f]> (mbufs s))
                 (memdisk s) (disksize s)).

(** The blocks of the memory disk. *)
Definition represents (s : mst) (k : gmap (Z * Z) block) : Prop :=
  ∀ b, 0 ≤ b < disksize s → k !! (1, b) = Some (take (Z.to_nat BSIZE) (drop (Z.to_nat (b * BSIZE)) (memdisk s))).

Lemma flags_commute f : Z.land f B_DIRTY = 0 →
  Z.lor f B_VALID = Z.land (Z.lor f B_VALID) (Z.lnot B_DIRTY).
Proof.
  unfold B_VALID, B_DIRTY. intros Hf. apply Z.bits_inj'. intros n Hn.
  rewrite Z.land_spec, Z.lor_spec, Z.lnot_spec by done.
  assert (Z.testbit f n && Z.testbit 4 n = false) as Hb.
  { rewrite <-Z.land_spec, Hf. apply Z.bits_0. }
  destruct (decide (n = 2)) as [->|]; [|].
  { change (Z.testbit 4 2) with true in Hb. rewrite andb_true_r in Hb. by rewrite Hb. }
  assert (Z.testbit 4 n = false) as ->; [|by rewrite andb_true_r].
  change 4 with (2 ^ 2). apply Z.pow2_bits_false. lia.
Qed.

Lemma flags_commute_dirty f : Z.lor (Z.land f (Z.lnot B_DIRTY)) B_VALID = Z.land (Z.lor f B_VALID) (Z.lnot B_DIRTY).
Proof. rewrite Z.land_lor_distr_l. f_equal. Qed.

(** A request to the memory disk is a request of the disk driver's contract. *)
Lemma memide_refines_iderw i x s s' k :
  mbufs s !! i = Some x → length (data x) = Z.to_nat BSIZE → 0 ≤ blockno x →
  disksize s ≤ FSSIZE → represents s k → iderw i s = Ret (tt, s') →
  ∃ k', Bio.iderw i (BSt (mbufs s) k true) = Ret (tt, k') ∧ bufs k' = mbufs s' ∧ represents s' (disk k').
Proof.
  intros Hx Hlen Hb Hsz Hk. unfold iderw, Bio.iderw, getb. cbn [bufs disk Bio.havedisk1]. rewrite Hx.
  cbn [opt mbind outcome_bind].
  destruct (holdingsleep _); [|done]. destruct (_ =? B_VALID); [done|]. cbn [negb].
  destruct (dev x =? 1) eqn:Hd; [|done]. apply Z.eqb_eq in Hd. rewrite Hd. cbn [negb andb Z.eqb Pos.eqb].
  destruct (disksize s <=? blockno x) eqn:Hr; [done|]. apply Z.leb_gt in Hr.
  rewrite (proj2 (Z.leb_gt FSSIZE _)) by lia.
  destruct (Nat.ltb_spec (length (memdisk s)) (Z.to_nat (blockno x * BSIZE) + Z.to_nat BSIZE)) as [|Hin]; [done|].
  destruct (Z.land (flags x) B_DIRTY =? 0) eqn:Hdt; cbn [negb]; intros [= <-].
  - rewrite (Hk (blockno x)) by lia. cbn [opt mbind outcome_bind]. eexists. split; [done|].
    cbn. rewrite <-(flags_commute _ (proj1 (Z.eqb_eq _ _) Hdt)). split; [done|exact Hk].
  - eexists. split; [done|]. cbn [bufs disk mbufs]. rewrite flags_commute_dirty. split; [done|].
    intros b Hb'. cbn [disksize memdisk] in *. rewrite (take_ge (data x)) by lia.
    destruct (decide (b = blockno x)) as [->|Hne].
    + rewrite lookup_insert_eq, drop_app_length' by (rewrite length_take; lia).
      by rewrite take_app_length'.
    + rewrite lookup_insert_ne by congruence. rewrite (Hk b) by done. f_equal.
      apply list_eq. intros j. destruct (decide (j < Z.to_nat BSIZE)%nat) as [Hj|Hj].
      * rewrite !lookup_take_lt, !lookup_drop by done. unfold BSIZE in *.
        destruct (decide (b < blockno x)) as [Hlt|Hlt].
        -- rewrite lookup_app_l by (rewrite length_take; lia). rewrite lookup_take_lt by lia. done.
        -- rewrite app_assoc, lookup_app_r by (rewrite length_app, length_take; lia).
           rewrite lookup_drop, length_app, length_take. f_equal. lia.
      * rewrite !lookup_ge_None_2; [done|rewrite length_take; lia..].
Qed.
End MemIde.
