(* ===== verification/Console.v ===== *)
(** * The console (xv6 [console.c], [uart.c])

    The screen is the array of character cells of the CGA memory and the cursor
    register; the serial port is the list of bytes written to it (its status is
    only polled for a bounded time before each byte).  [consoleintr] is given
    the characters its [getc] returned before the negative one.  A call of
    [consoleread] is a sequence of segments under [cons.lock], one up to each
    [sleep].  [Editor] is the contract of the input side: lines that are edited
    until they are finished, then read. *)

From stdpp Require Import base numbers list strings.
From S2P Require Import Prelude.

Open Scope Z_scope.

Definition BACKSPACE : Z := 0x100.
Definition INPUT_BUF : Z := 128.
(** Control-x is [x - '@']. *)
Definition C (x : Z) : Z := x - 64.
(** A character stored in a [char]. *)
Definition i8 (x : Z) : Z := (x + 128) mod 256 - 128.

(** ** State *)
Record cons := Cons {
  panicked : bool;
  crt : list Z;         (* the cells of the screen memory *)
  cursor : Z;           (* the cursor location registers 14 and 15 *)
  uart : bool;          (* is there a uart? *)
  serial : list Z;      (* bytes written to COM1 *)
  buf : list Z; r : Z; w : Z; e : Z
}.

Definition set_screen (s : cons) (m : list Z) (pos : Z) : cons :=
  Cons (panicked s) m pos (uart s) (serial s) (buf s) (r s) (w s) (e s).
Definition set_serial (s : cons) (l : list Z) : cons :=
  Cons (panicked s) (crt s) (cursor s) (uart s) l (buf s) (r s) (w s) (e s).
Definition set_input (s : cons) (b : list Z) (ri wi ei : Z) : cons :=
  Cons (panicked s) (crt s) (cursor s) (uart s) (serial s) b ri wi ei.

(** ** Output *)
Definition uartputc (c : Z) : M cons unit := fun s =>
  if uart s then Ret (tt, set_serial s (serial s ++ [u8 c])) else Ret (tt, s).

(** [memmove] and [memset] of cells. *)
Definition move_cells (m : list Z) (dst src n : Z) : outcome (list Z) :=
  if (src + n <=? Z.of_nat (length m)) && (dst + n <=? Z.of_nat (length m)) && (0 <=? dst) && (0 <=? src) then
    Ret (take (Z.to_nat dst) m ++ take (Z.to_nat n) (drop (Z.to_nat src) m)
           ++ drop (Z.to_nat (dst + n)) m)
  else Undef.
Definition clear_cells (m : list Z) (dst n : Z) : outcome (list Z) :=
  if (0 <=? dst) && (0 <=? n) && (dst + n <=? Z.of_nat (length m)) then
    Ret (take (Z.to_nat dst) m ++ replicate (Z.to_nat n) 0 ++ drop (Z.to_nat (dst + n)) m)
  else Undef.

Definition cgaputc (c : Z) : M cons unit := fun s =>
  let pos := cursor s in
  '(m, pos) ←
    (if c =? 10 then Ret (crt s, pos + (80 - pos mod 80))
     else if c =? BACKSPACE then Ret (crt s, if 0 <? pos then pos - 1 else pos)
     else m ← arr_set (crt s) pos (Z.lor (Z.land c 0xff) 0x0700); Ret (m, pos + 1));
  if (pos <? 0) || (25 * 80 <? pos) then Panic "pos under/overflow"
  else
    '(m, pos) ←
      (if 24 <=? pos / 80 then
         m ← move_cells m 0 80 (23 * 80);
         m ← clear_cells m (pos - 80) (24 * 80 - (pos - 80));
         Ret (m, pos - 80)
       else Ret (m, pos));
    m ← arr_set m pos (Z.lor 32 0x0700);
    Ret (tt, set_screen s m pos).

(** A CPU that prints after a panic stops for good. *)
Definition consputc (c : Z) : M cons unit := fun s =>
  if panicked s then Panic "frozen"
  else
    ((if c =? BACKSPACE then uartputc 8 ;; uartputc 32 ;; uartputc 8 else uartputc c) ;;
     cgaputc c) s.

Fixpoint put_all (cs : list Z) : M cons unit :=
  match cs with
  | [] => mret tt
  | c :: cs => consputc c ;; put_all cs
  end.

(** ** Numbers *)
Definition digits : list Z :=
  [48; 49; 50; 51; 52; 53; 54; 55; 56; 57; 97; 98; 99; 100; 101; 102].

(** The [do] loop of [printint]: the digits, least significant first, stored
    from index [i] of [buf], which has 16 elements. *)
Fixpoint digit_loop (x base i : Z) (fuel : nat) : outcome (list Z) :=
  match fuel with
  | O => NoFuel
  | S fuel =>
      if 16 <=? i then Undef
      else
        d ← arr_get digits (x mod base);
        if x / base =? 0 then Ret [d]
        else ds ← digit_loop (x / base) base (i + 1) fuel; Ret (d :: ds)
  end.

(** The characters [printint] passes to [consputc]. *)
Definition printint_chars (xx base : Z) (sign : bool) : outcome (list Z) :=
  let neg := sign && (xx <? 0) in
  let x := u32 (if neg then - xx else xx) in
  ds ← digit_loop x base 0 33;
  if neg then
    if 16 <=? Z.of_nat (length ds) then Undef else Ret (45 :: reverse ds)
  else Ret (reverse ds).
Definition printint (xx base : Z) (sign : bool) : M cons unit :=
  cs ← lift (printint_chars xx base sign); put_all cs.

(** The arguments of [cprintf]: words, and pointers to strings or NULL. *)
Inductive arg := AWord (x : Z) | AStr (s : option (list Z)).

(** The loop of [cprintf]; the format's characters are not negative. *)
Fixpoint cprintf_loop (fmt : list Z) (args : list arg) : M cons unit :=
  match fmt with
  | [] => mret tt
  | c :: fmt =>
      if negb (c =? 37) then consputc c ;; cprintf_loop fmt args
      else
        match fmt with
        | [] => mret tt
        | c :: fmt =>
            if c =? 100 then
              match args with
              | AWord x :: args => printint (i32 x) 10 true ;; cprintf_loop fmt args
              | _ => lift Undef
              end
            else if (c =? 120) || (c =? 112) then
              match args with
              | AWord x :: args => printint (i32 x) 16 false ;; cprintf_loop fmt args
              | _ => lift Undef
              end
            else if c =? 115 then
              match args with
              | AStr s :: args =>
                  put_all (default [40; 110; 117; 108; 108; 41] s) ;; cprintf_loop fmt args
              | _ => lift Undef
              end
            else if c =? 37 then consputc 37 ;; cprintf_loop fmt args
            else consputc 37 ;; consputc c ;; cprintf_loop fmt args
        end
  end.
Definition cprintf (fmt : option (list Z)) (args : list arg) : M cons unit :=
  match fmt with None => panic "null fmt" | Some fmt => cprintf_loop fmt args end.

Definition consolewrite (b : list Z) (n : Z) : M cons Z :=
  put_all ((λ c, Z.land c 0xff) <$> take (Z.to_nat n) b) ;; mret n.

(** ** Input *)

(** The kill-line loop of [consoleintr]. *)
Fixpoint kill_line (fuel : nat) : M cons unit := fun s =>
  if e s =? w s then Ret (tt, s)
  else
    c ← arr_get (buf s) (u32 (e s - 1) mod INPUT_BUF);
    if c =? 10 then Ret (tt, s)
    else
      match fuel with
      | O => NoFuel
      | S fuel => (consputc BACKSPACE ;; kill_line fuel) (set_input s (buf s) (r s) (w s) (u32 (e s - 1)))
      end.

(** One character; whether a reader is woken. *)
Definition intr_char (c : Z) : M cons bool := fun s =>
  if c =? C 80 then Ret (false, s)
  else if c =? C 85 then (kill_line (Z.to_nat INPUT_BUF) ;; mret false) s
  else if (c =? C 72) || (c =? 127) then
    if negb (e s =? w s) then
      (consputc BACKSPACE ;; mret false) (set_input s (buf s) (r s) (w s) (u32 (e s - 1)))
    else Ret (false, s)
  else if negb (c =? 0) && (u32 (e s - r s) <? INPUT_BUF) then
    let c := if c =? 13 then 10 else c in
    b ← arr_set (buf s) (e s mod INPUT_BUF) (i8 c);
    '(_, s) ← consputc c (set_input s b (r s) (w s) (u32 (e s + 1)));
    if (c =? 10) || (c =? C 68) || (e s =? u32 (r s + INPUT_BUF)) then
      Ret (true, set_input s (buf s) (r s) (e s) (e s))
    else Ret (false, s)
  else Ret (false, s).

(** Whether readers are woken, and whether the process table is to be printed. *)
Fixpoint consoleintr (cs : list Z) : M cons (bool * bool) :=
  match cs with
  | [] => mret (false, false)
  | c :: cs =>
      wk ← intr_char c;
      '(wk', dump) ← consoleintr cs;
      mret (wk || wk', (c =? C 80) || dump)
  end.

(** How a segment of [consoleread] ends. *)
Inductive status := Returns | Sleeps.

(** From [n] bytes to go of [target]: how the segment ends, the bytes stored,
    what is left of [n]. *)
Fixpoint consoleread_loop (target n : Z) (cnt : nat) : M cons (status * list Z * Z) := fun s =>
  match cnt with
  | O => Ret ((Returns, [], n), s)
  | S cnt =>
      if r s =? w s then Ret ((Sleeps, [], n), s)
      else
        c ← arr_get (buf s) (r s mod INPUT_BUF);
        let s' := set_input s (buf s) (u32 (r s + 1)) (w s) (e s) in
        if c =? C 68 then
          if n <? target then Ret ((Returns, [], n), set_input s' (buf s') (u32 (r s' - 1)) (w s') (e s'))
          else Ret ((Returns, [], n), s')
        else if c =? 10 then Ret ((Returns, [c], n - 1), s')
        else
          '((st, bs, n), s') ← consoleread_loop target (n - 1) cnt s';
          Ret ((st, c :: bs, n), s')
  end.
(** A segment of a call for [target] bytes with [n] to go; the call returns
    [target] less what is left, or -1 if the process was killed while it waits. *)
Definition consoleread (target n : Z) (killed : bool) : M cons (option Z * list Z * Z) := fun s =>
  '((st, bs, n'), s) ← consoleread_loop target n (Z.to_nat n) s;
  match st with
  | Returns => Ret ((Some (target - n'), bs, n'), s)
  | Sleeps => Ret ((if killed then Some (-1) else None, bs, n'), s)
  end.

(** ** The contract of the input side *)
Module Editor.
(** Finished characters nobody has read yet, and the line being edited. *)
Record t := Ed { ready : list Z; line : list Z }.

(** One character: the new state, what is echoed, whether a line is finished. *)
Definition key (c : Z) (s : t) : t * list Z * bool :=
  let n := (length (ready s) + length (line s))%nat in
  if c =? C 80 then (s, [], false)
  else if c =? C 85 then (Ed (ready s) [], replicate (length (line s)) BACKSPACE, false)
  else if (c =? C 72) || (c =? 127) then
    (Ed (ready s) (take (pred (length (line s))) (line s)),
     if (0 <? length (line s))%nat then [BACKSPACE] else [], false)
  else if negb (c =? 0) && (n <? 128)%nat then
    let c := if c =? 13 then 10 else c in
    if (c =? 10) || (c =? C 68) || (S n =? 128)%nat then
      (Ed (ready s ++ line s ++ [i8 c]) [], [c], true)
    else (Ed (ready s) (line s ++ [i8 c]), [c], false)
  else (s, [], false).

Fixpoint keys (cs : list Z) (s : t) : t * list Z * bool :=
  match cs with
  | [] => (s, [], false)
  | c :: cs =>
      let '(s, e1, w1) := key c s in
      let '(s, e2, w2) := keys cs s in (s, e1 ++ e2, w1 || w2)
  end.

(** At most [n] of the [target] bytes, up to a newline; an end of file behind
    other bytes is left for the next call.  What is delivered, what stays, the
    bytes still to go, and whether the call ends. *)
Fixpoint take_ready (target n : Z) (cnt : nat) (l : list Z) : list Z * list Z * Z * status :=
  match cnt, l with
  | O, _ => ([], l, n, Returns)
  | S _, [] => ([], [], n, Sleeps)
  | S cnt, c :: l =>
      if c =? C 68 then ([], if n <? target then c :: l else l, n, Returns)
      else if c =? 10 then ([c], l, n - 1, Returns)
      else let '(bs, l, n, st) := take_ready target (n - 1) cnt l in (c :: bs, l, n, st)
  end.
End Editor.

(** ** The screen never fails *)
Record screen_ok (s : cons) : Prop := {
  so_live : panicked s = false;
  so_crt : (2000 ≤ length (crt s))%nat;
  so_cursor : 0 ≤ cursor s < 2000
}.

(** The bytes a character is on the serial line. *)
Definition wire (s : cons) (c : Z) : list Z :=
  if uart s then (if c =? BACKSPACE then [8; 32; 8] else [u8 c]) else [].

Definition same_input (s s' : cons) : Prop :=
  buf s' = buf s ∧ r s' = r s ∧ w s' = w s ∧ e s' = e s ∧ uart s' = uart s.

Lemma move_cells_in m dst src n :
  0 ≤ dst → 0 ≤ src → src + n ≤ Z.of_nat (length m) → dst + n ≤ Z.of_nat (length m) → 0 ≤ n →
  ∃ m', move_cells m dst src n = Ret m' ∧ length m' = length m.
Proof.
  intros. unfold move_cells. rewrite !(proj2 (Z.leb_le _ _)) by lia. cbn [andb].
  eexists. split; [done|]. rewrite !length_app, !length_take, !length_drop. lia.
Qed.

Lemma clear_cells_in m dst n :
  0 ≤ dst → 0 ≤ n → dst + n ≤ Z.of_nat (length m) →
  ∃ m', clear_cells m dst n = Ret m' ∧ length m' = length m.
Proof.
  intros. unfold clear_cells. rewrite !(proj2 (Z.leb_le _ _)) by lia. cbn [andb].
  eexists. split; [done|]. rewrite !length_app, length_take, length_replicate, length_drop. lia.
Qed.

Lemma cgaputc_run c s : screen_ok s →
  ∃ m pos, cgaputc c s = Ret (tt, set_screen s m pos) ∧ length m = length (crt s) ∧ 0 ≤ pos ≤ 1920.
Proof.
  intros [_ Hl Hc]. unfold cgaputc.
  assert (∃ m pos, (if c =? 10 then Ret (crt s, cursor s + (80 - cursor s mod 80))
     else if c =? BACKSPACE then Ret (crt s, if 0 <? cursor s then cursor s - 1 else cursor s)
     else m ← arr_set (crt s) (cursor s) (Z.lor (Z.land c 0xff) 0x0700); Ret (m, cursor s + 1)) = Ret (m, pos) ∧
     length m = length (crt s) ∧ 0 ≤ pos ≤ 2000) as (m & pos & -> & Hm & Hp).
  { case_if; [|case_if; [case_if|]].
    - eexists _, _. split; [done|]. split; [done|]. Z.div_mod_to_equations; lia.
    - eexists _, _. split; [done|]. split; [done|]. lia.
    - eexists _, _. split; [done|]. split; [done|]. lia.
    - rewrite arr_set_in by lia. eexists _, _. split; [done|]. split; [apply length_insert|]. lia. }
  cbn [mbind outcome_bind]. change (25 * 80) with 2000.
  rewrite (proj2 (Z.ltb_ge pos 0)), (proj2 (Z.ltb_ge 2000 pos)) by lia. cbn [orb].
  case_if as Hs.
  - destruct (move_cells_in m 0 80 (23 * 80)) as (m1 & -> & L1); try lia. cbn [mbind outcome_bind].
    assert (1920 ≤ pos) as Hs' by (Z.div_mod_to_equations; lia).
    destruct (clear_cells_in m1 (pos - 80) (24 * 80 - (pos - 80))) as (m2 & -> & L2); try lia.
    cbn [mbind outcome_bind]. rewrite arr_set_in by lia. cbn [mbind outcome_bind].
    eexists _, _. split; [done|]. rewrite length_insert. lia.
  - cbn [mbind outcome_bind]. assert (pos < 1920) by (Z.div_mod_to_equations; lia).
    rewrite arr_set_in by lia. eexists _, _. split; [done|]. rewrite length_insert. lia.
Qed.

Lemma consputc_run c s : screen_ok s →
  ∃ s', consputc c s = Ret (tt, s') ∧ screen_ok s' ∧ same_input s s' ∧ serial s' = serial s ++ wire s c.
Proof.
  intros Hs. unfold consputc. rewrite (so_live _ Hs).
  set (s1 := set_serial s (serial s ++ wire s c)).
  assert ((if c =? BACKSPACE then uartputc 8 ;; uartputc 32 ;; uartputc 8 else uartputc c) s = Ret (tt, s1)) as E.
  { subst s1. unfold wire, uartputc. destruct s as [p m k u l b ri wi ei]. cbn.
    destruct u, (c =? BACKSPACE); cbv [mbind M_bind outcome_bind]; cbn; rewrite <-?app_assoc, ?app_nil_r; done. }
  erewrite M_bind_run by exact E.
  destruct (cgaputc_run c s1) as (m & pos & Ec & Hm & Hp); [by destruct Hs|].
  eexists. split; [exact Ec|]. destruct Hs. split; [|done].
  split; cbn in *; [done|by rewrite Hm|lia].
Qed.

Lemma put_all_run cs : ∀ s, screen_ok s →
  ∃ s', put_all cs s = Ret (tt, s') ∧ screen_ok s' ∧ same_input s s' ∧ serial s' = serial s ++ (cs ≫= wire s).
Proof.
  induction cs as [|c cs IH]; intros s Hs; cbn [put_all].
  - exists s. split; [done|]. split; [done|]. split; [done|]. cbn. by rewrite app_nil_r.
  - destruct (consputc_run c s Hs) as (s1 & E1 & H1 & I1 & L1). erewrite M_bind_run by exact E1.
    destruct (IH s1 H1) as (s2 & E2 & H2 & I2 & L2). exists s2. split; [done|]. split; [done|].
    destruct I1 as (?&?&?&?&Hu), I2 as (?&?&?&?&?). split; [repeat split; congruence|].
    rewrite L2, L1, <-app_assoc. cbn. do 2 f_equal. unfold wire. by rewrite Hu.
Qed.

(** ** The ring of input characters *)
Definition pos (i : Z) : nat := Z.to_nat (i mod INPUT_BUF).
Definition holds (b : list Z) (from : Z) (l : list Z) : Prop :=
  ∀ k x, l !! k = Some x → b !! pos (from + Z.of_nat k) = Some x.

Lemma pos_u32 i k : pos (u32 i + k) = pos (i + k).
Proof. unfold pos, u32, INPUT_BUF. f_equal. Z.div_mod_to_equations; lia. Qed.

Lemma pos_u32' i : pos (u32 i) = pos i.
Proof. rewrite <-(Z.add_0_r (u32 i)), pos_u32. by rewrite Z.add_0_r. Qed.

Lemma pos_lt i : (pos i < 128)%nat.
Proof. unfold pos, INPUT_BUF. pose proof (Z.mod_pos_bound i 128). lia. Qed.

Lemma pos_inj f (j k : nat) : (j < 128)%nat → (k < 128)%nat →
  pos (f + Z.of_nat j) = pos (f + Z.of_nat k) → j = k.
Proof. unfold pos, INPUT_BUF. intros. Z.div_mod_to_equations; lia. Qed.

Lemma holds_u32 b f l : holds b (u32 f) l ↔ holds b f l.
Proof. unfold holds. setoid_rewrite pos_u32. done. Qed.

Lemma holds_prefix b f l l' : holds b f (l ++ l') → holds b f l.
Proof. intros H k x Hk. apply H. by apply lookup_app_l_Some. Qed.

Lemma holds_tail b f x l : holds b f (x :: l) → holds b (f + 1) l.
Proof.
  intros H k y Hk. specialize (H (S k) y Hk). by replace (f + 1 + Z.of_nat k) with (f + Z.of_nat (S k)) by lia.
Qed.

Lemma holds_snoc b f l x : length b = 128%nat → (length l < 128)%nat → holds b f l →
  holds (<[pos (f + Z.of_nat (length l)) := x]> b) f (l ++ [x]).
Proof.
  intros Hb Hl H k y Hk. destruct (decide (k = length l)) as [->|Hne].
  - rewrite lookup_app_r, Nat.sub_diag in Hk by lia. injection Hk as ->.
    apply list_lookup_insert_eq. rewrite Hb. apply pos_lt.
  - assert (k < length l)%nat as Hlt.
    { apply lookup_lt_Some in Hk. rewrite length_app in Hk. cbn in Hk. lia. }
    rewrite lookup_app_l in Hk by done. rewrite list_lookup_insert_ne; [by apply H|].
    intros E. apply pos_inj in E; lia.
Qed.

(** The console's input buffer stands for the state of the editor. *)
Record refines (s : cons) (ed : Editor.t) : Prop := {
  rf_buf : length (buf s) = 128%nat;
  rf_r : u32 (r s) = r s;
  rf_w : w s = u32 (r s + Z.of_nat (length (Editor.ready ed)));
  rf_e : e s = u32 (r s + Z.of_nat (length (Editor.ready ed) + length (Editor.line ed)));
  rf_len : (length (Editor.ready ed) + length (Editor.line ed) ≤ 128)%nat;
  rf_holds : holds (buf s) (r s) (Editor.ready ed ++ Editor.line ed);
  rf_line : Forall (λ c, c ≠ 10 ∧ c ≠ C 68) (Editor.line ed)
}.

Lemma refines_ext s s' ed : same_input s s' → refines s ed → refines s' ed.
Proof. intros (Eb & Er & Ew & Ee & _) []. split; rewrite ?Eb, ?Er, ?Ew, ?Ee; done. Qed.

Lemma ring_neq x (n m : nat) : (n ≤ 128)%nat → (m ≤ 128)%nat →
  u32 (x + Z.of_nat n) = u32 (x + Z.of_nat m) → n = m.
Proof. unfold u32. intros. Z.div_mod_to_equations; lia. Qed.

Lemma e_eq_w s ed : refines s ed → (e s =? w s) = bool_decide (Editor.line ed = []).
Proof.
  intros [_ _ Hw He Hl _ _]. destruct (Editor.line ed) as [|c l]; cbn [length] in *.
  - rewrite bool_decide_true by done. apply Z.eqb_eq. rewrite He, Hw. by rewrite Nat.add_0_r.
  - rewrite bool_decide_false by done. apply Z.eqb_neq. rewrite He, Hw. intros E.
    apply ring_neq in E; lia.
Qed.

(** Erasing the last character of the line. *)
Lemma erase_refines s ready l c :
  refines s (Editor.Ed ready (l ++ [c])) →
  refines (set_input s (buf s) (r s) (w s) (u32 (e s - 1))) (Editor.Ed ready l).
Proof.
  intros [Hb Hr Hw He Hl Hh Hn]. cbn in *. rewrite length_app in He, Hl. cbn in He, Hl. split; cbn; try done.
  - rewrite He. unfold u32. rewrite Zminus_mod_idemp_l. f_equal. lia.
  - lia.
  - rewrite app_assoc in Hh. by eapply holds_prefix.
  - by apply Forall_app in Hn as [? _].
Qed.

Lemma set_input_screen s b ri wi ei : screen_ok s → screen_ok (set_input s b ri wi ei).
Proof. by intros []. Qed.

Lemma kill_line_run fuel : ∀ s ready l, screen_ok s → refines s (Editor.Ed ready l) → (length l ≤ fuel)%nat →
  ∃ s', kill_line fuel s = Ret (tt, s') ∧ screen_ok s' ∧ refines s' (Editor.Ed ready []) ∧ uart s' = uart s ∧
    serial s' = serial s ++ (replicate (length l) BACKSPACE ≫= wire s).
Proof.
  induction fuel as [|fuel IH]; intros s ready l Hs Hr Hf.
  - destruct l; [|cbn in Hf; lia]. cbn [kill_line]. rewrite (e_eq_w _ _ Hr). cbn.
    exists s. by rewrite app_nil_r.
  - cbn [kill_line]. rewrite (e_eq_w _ _ Hr). cbn [Editor.line]. destruct l as [|c l _] using rev_ind.
    { cbn. exists s. by rewrite app_nil_r. }
    rewrite bool_decide_false by (by destruct l).
    pose proof (rf_holds _ _ Hr (length ready + length l)%nat c) as Hc. cbn in Hc.
    assert (arr_get (buf s) (u32 (e s - 1) mod INPUT_BUF) = Ret c) as ->.
    { apply arr_get_Ret. split; [apply Z.mod_pos_bound; unfold INPUT_BUF; lia|].
      rewrite <-Hc.
      - change (Z.to_nat (u32 (e s - 1) mod INPUT_BUF)) with (pos (u32 (e s - 1))). rewrite pos_u32'.
        rewrite (rf_e _ _ Hr). cbn [Editor.ready Editor.line]. rewrite length_app. unfold Z.sub. rewrite pos_u32.
        cbn [length]. do 2 f_equal. lia.
      - rewrite app_assoc. apply list_lookup_middle. by rewrite length_app. }
    cbn [mbind outcome_bind].
    assert (c ≠ 10) as Hc10.
    { pose proof (rf_line _ _ Hr) as Hl. cbn in Hl. apply Forall_app in Hl as [_ Hl]. by inversion_clear Hl as [|?? [? ?]]. }
    rewrite (proj2 (Z.eqb_neq _ _) Hc10). rewrite length_app in Hf. cbn in Hf.
    set (s1 := set_input s _ _ _ _). pose proof (erase_refines s ready l c Hr) as Hr1. fold s1 in Hr1.
    destruct (consputc_run BACKSPACE s1) as (s2 & E2 & Hs2 & I2 & L2); [by apply set_input_screen|].
    erewrite M_bind_run by exact E2. destruct (IH s2 ready l Hs2) as (s3 & E3 & Hs3 & Hr3 & U3 & L3);
      [by eapply refines_ext|lia|].
    exists s3. split; [done|]. split; [done|]. split; [done|].
    assert (uart s2 = uart s) as Hu by (by destruct I2 as (_ & _ & _ & _ & ->)).
    split; [congruence|]. rewrite L3, L2, length_app, Nat.add_comm. cbn. rewrite <-app_assoc. do 3 f_equal.
    unfold wire. by rewrite Hu.
Qed.

Lemma i8_special c k : 0 ≤ c < 256 → 0 ≤ k < 128 → i8 c = k ↔ c = k.
Proof. unfold i8. intros. split; intros; Z.div_mod_to_equations; lia. Qed.

(** Finishing the line: the write index catches up. *)
Lemma commit_refines s ready l :
  refines s (Editor.Ed ready l) →
  refines (set_input s (buf s) (r s) (e s) (e s)) (Editor.Ed (ready ++ l) []).
Proof.
  intros [Hb Hr Hw He Hl Hh Hn]. cbn in *. split; cbn; rewrite ?length_app, ?app_nil_r, ?Nat.add_0_r; try done.
Qed.

(** Appending to the line. *)
Lemma append_refines s ready l x :
  refines s (Editor.Ed ready l) → (length ready + length l < 128)%nat → x ≠ 10 → x ≠ C 68 →
  refines (set_input s (<[pos (e s) := x]> (buf s)) (r s) (w s) (u32 (e s + 1))) (Editor.Ed ready (l ++ [x])).
Proof.
  intros [Hb Hr Hw He Hl Hh Hn] Hlt H1 H2. cbn in *. split; cbn; rewrite ?length_app; cbn; try done.
  - by rewrite length_insert.
  - rewrite He. unfold u32. rewrite Zplus_mod_idemp_l. f_equal. lia.
  - lia.
  - rewrite He, pos_u32', app_assoc, <-(length_app ready l). apply holds_snoc; [done|by rewrite length_app|done].
  - apply Forall_app. split; [done|]. by repeat constructor.
Qed.

(** Appending the character that finishes the line. *)
Lemma finish_refines s ready l x :
  refines s (Editor.Ed ready l) → (length ready + length l < 128)%nat →
  let e' := u32 (e s + 1) in
  refines (set_input s (<[pos (e s) := x]> (buf s)) (r s) e' e') (Editor.Ed (ready ++ l ++ [x]) []).
Proof.
  intros [Hb Hr Hw He Hl Hh Hn] Hlt e'. cbn in *.
  assert (e' = u32 (r s + Z.of_nat (length (ready ++ l ++ [x])))) as He'.
  { subst e'. rewrite He, !length_app. cbn. unfold u32. rewrite Zplus_mod_idemp_l. f_equal. lia. }
  split; cbn; rewrite ?Nat.add_0_r, ?app_nil_r; try done.
  - by rewrite length_insert.
  - rewrite !length_app. cbn. lia.
  - rewrite He, pos_u32', app_assoc, <-(length_app ready l). apply holds_snoc; [done|by rewrite length_app|done].
Qed.

Lemma used_spec s ed : refines s ed →
  u32 (e s - r s) = Z.of_nat (length (Editor.ready ed) + length (Editor.line ed)).
Proof.
  intros [_ Hr _ He Hl _ _]. rewrite He. unfold u32. rewrite Zminus_mod_idemp_l.
  rewrite Z.add_simpl_l. apply Z.mod_small. lia.
Qed.

Lemma full_spec s s' ed : refines s ed → (length (Editor.ready ed) + length (Editor.line ed) < 128)%nat →
  e s' = u32 (e s + 1) → r s' = r s →
  (e s' =? u32 (r s' + INPUT_BUF)) = (S (length (Editor.ready ed) + length (Editor.line ed)) =? 128)%nat.
Proof.
  intros [_ Hr _ He _ _ _] Hl -> ->. rewrite He. unfold INPUT_BUF.
  destruct (Nat.eqb_spec (S (length (Editor.ready ed) + length (Editor.line ed))) 128) as [E|E].
  - apply Z.eqb_eq. unfold u32. rewrite Zplus_mod_idemp_l. f_equal. lia.
  - apply Z.eqb_neq. intros E'. apply E. rewrite u32_add_l, <-Z.add_assoc in E'.
    change 128 with (Z.of_nat 128) in E'.
    replace (Z.of_nat (length (Editor.ready ed) + length (Editor.line ed)) + 1)
      with (Z.of_nat (S (length (Editor.ready ed) + length (Editor.line ed)))) in E' by lia.
    apply ring_neq in E'; lia.
Qed.

(** What a console operation leaves behind. *)
Definition goes (s s' : cons) (ed' : Editor.t) (echo : list Z) : Prop :=
  screen_ok s' ∧ refines s' ed' ∧ uart s' = uart s ∧ serial s' = serial s ++ (echo ≫= wire s).

Lemma intr_char_run c s ed : screen_ok s → refines s ed → 0 ≤ c < 256 →
  let '(ed', echo, wk) := Editor.key c ed in ∃ s', intr_char c s = Ret (wk, s') ∧ goes s s' ed' echo.
Proof.
  intros Hs Hr Hc. destruct ed as [ready l]. unfold intr_char, Editor.key. cbn [Editor.ready Editor.line].
  destruct (c =? C 80). { exists s. unfold goes. cbn. by rewrite app_nil_r. }
  destruct (c =? C 85).
  { destruct (kill_line_run (Z.to_nat INPUT_BUF) s ready l Hs Hr) as (s' & E & H1 & H2 & H3 & H4).
    { pose proof (rf_len _ _ Hr) as Hl. cbn in Hl. unfold INPUT_BUF. lia. }
    exists s'. split; [|done]. by erewrite M_bind_run by exact E. }
  destruct ((c =? C 72) || (c =? 127)).
  { rewrite (e_eq_w _ _ Hr). cbn [Editor.line]. destruct l as [|x l _] using rev_ind.
    - exists s. unfold goes. cbn. by rewrite app_nil_r.
    - rewrite bool_decide_false by (by destruct l). cbn [negb]. rewrite length_app, Nat.add_1_r. cbn [Nat.pred Nat.ltb Nat.leb].
      rewrite take_app_length.
      destruct (consputc_run BACKSPACE (set_input s (buf s) (r s) (w s) (u32 (e s - 1)))) as (s' & E & H1 & H2 & H3);
        [by apply set_input_screen|].
      erewrite M_bind_run by exact E. exists s'. split; [done|]. split; [done|]. split.
      + eapply refines_ext; [exact H2|]. by apply (erase_refines s ready l x).
      + split; [by destruct H2 as (_ & _ & _ & _ & ->)|]. rewrite H3. cbn. by rewrite app_nil_r. }
  rewrite (used_spec _ _ Hr). cbn [Editor.ready Editor.line].
  replace (Z.of_nat (length ready + length l) <? INPUT_BUF) with (length ready + length l <? 128)%nat.
  2: { unfold INPUT_BUF. destruct (Nat.ltb_spec (length ready + length l) 128), (Z.ltb_spec (Z.of_nat (length ready + length l)) 128); lia || done. }
  destruct (negb (c =? 0) && (length ready + length l <? 128)%nat) eqn:Hroom.
  2: { exists s. unfold goes. cbn. by rewrite app_nil_r. }
  apply andb_true_iff in Hroom as [_ Hroom%Nat.ltb_lt]. cbn zeta.
  set (c' := if c =? 13 then 10 else c). assert (0 ≤ c' < 256) as Hc' by (subst c'; case_if; lia).
  pose proof (rf_buf _ _ Hr) as Hb. rewrite arr_set_in.
  2: { rewrite Hb. unfold INPUT_BUF. pose proof (Z.mod_pos_bound (e s) 128). lia. }
  cbn [mbind outcome_bind]. set (s1 := set_input s _ _ _ _).
  destruct (consputc_run c' s1) as (s2 & E & H1 & H2 & H3); [by apply set_input_screen|]. rewrite E. cbn [mbind outcome_bind].
  pose proof H2 as (Eb & Er & Ew & Ee & Eu). rewrite (full_spec s s2 _ Hr); cbn [Editor.ready Editor.line]; [|done|done|done].
  assert (serial s2 = serial s ++ ([c'] ≫= wire s)) as Hser by (rewrite H3; cbn; by rewrite app_nil_r).
  destruct ((c' =? 10) || (c' =? C 68) || (S (length ready + length l) =? 128)%nat) eqn:Hfin.
  - eexists. split; [done|]. split; [by apply set_input_screen|]. split; [|by split].
    eapply refines_ext; [|exact (finish_refines s ready l (i8 c') Hr Hroom)].
    subst s1; cbn in *; repeat split; cbn; done || congruence.
  - exists s2. split; [done|]. split; [done|]. split; [|by split].
    apply orb_false_iff in Hfin as [Hfin _]. apply orb_false_iff in Hfin as [H10 H4]. bool_to_prop.
    eapply refines_ext; [exact H2|]. apply append_refines; [done|done|rewrite i8_special by (unfold C in *; lia); done..].
Qed.

Lemma goes_trans s1 s2 s3 ed2 ed3 e1 e2 : goes s1 s2 ed2 e1 → goes s2 s3 ed3 e2 → goes s1 s3 ed3 (e1 ++ e2).
Proof.
  intros (_ & _ & U1 & L1) (H2 & R2 & U2 & L2). split; [done|]. split; [done|]. split; [congruence|].
  rewrite L2, L1, bind_app, <-app_assoc. do 2 f_equal. unfold wire. by rewrite U1.
Qed.

Lemma consoleintr_run cs : ∀ s ed, screen_ok s → refines s ed → Forall (λ c, 0 ≤ c < 256) cs →
  let '(ed', echo, wk) := Editor.keys cs ed in
  ∃ s', consoleintr cs s = Ret ((wk, bool_decide (C 80 ∈ cs)), s') ∧ goes s s' ed' echo.
Proof.
  induction cs as [|c cs IH]; intros s ed Hs Hr Hcs; cbn [Editor.keys consoleintr].
  - exists s. split; [done|]. unfold goes. cbn. by rewrite app_nil_r.
  - apply Forall_cons in Hcs as [Hc Hcs]. pose proof (intr_char_run c s ed Hs Hr Hc) as H1.
    destruct (Editor.key c ed) as [[ed1 e1] w1]. destruct H1 as (s1 & E1 & G1).
    pose proof G1 as (Hs1 & Hr1 & _). specialize (IH s1 ed1 Hs1 Hr1 Hcs).
    destruct (Editor.keys cs ed1) as [[ed2 e2] w2]. destruct IH as (s2 & E2 & G2).
    exists s2. split; [|by eapply goes_trans]. erewrite M_bind_run by exact E1. erewrite M_bind_run by exact E2.
    unfold mret, M_ret. do 3 f_equal. destruct (Z.eqb_spec c (C 80)) as [->|Hne]; cbn [orb].
    + symmetry. apply bool_decide_true. left.
    + apply bool_decide_ext. rewrite elem_of_cons. naive_solver.
Qed.

(** Reading one character. *)
Lemma pop_refines s c ready l :
  refines s (Editor.Ed (c :: ready) l) →
  refines (set_input s (buf s) (u32 (r s + 1)) (w s) (e s)) (Editor.Ed ready l).
Proof.
  intros [Hb Hr Hw He Hl Hh Hn]. cbn in *. split; cbn; try done.
  - apply u32_idemp.
  - rewrite Hw, u32_add_l. f_equal. lia.
  - rewrite He, u32_add_l. f_equal. lia.
  - lia.
  - apply holds_u32. by eapply holds_tail.
Qed.

Lemma unread_same s : r s = u32 (r s) → set_input (set_input s (buf s) (u32 (r s + 1)) (w s) (e s)) (buf s)
  (u32 (u32 (r s + 1) - 1)) (w s) (e s) = s.
Proof.
  intros Hr. destruct s; cbn in *. f_equal. rewrite Hr. unfold u32. rewrite Zminus_mod_idemp_l.
  rewrite Z.add_simpl_r. by rewrite Zmod_mod.
Qed.

Lemma consoleread_loop_run target cnt : ∀ n s ready l, screen_ok s → refines s (Editor.Ed ready l) →
  let '(bs, ready', n', st) := Editor.take_ready target n cnt ready in
  ∃ s', consoleread_loop target n cnt s = Ret ((st, bs, n'), s') ∧ goes s s' (Editor.Ed ready' l) [].
Proof.
  induction cnt as [|cnt IH]; intros n s ready l Hs Hr.
  { exists s. split; [done|]. unfold goes. cbn. by rewrite app_nil_r. }
  cbn [consoleread_loop Editor.take_ready]. destruct ready as [|c ready].
  { assert (r s =? w s = true) as ->.
    { apply Z.eqb_eq. rewrite (rf_w _ _ Hr). cbn. rewrite Z.add_0_r. symmetry. apply Hr. }
    exists s. split; [done|]. unfold goes. cbn. by rewrite app_nil_r. }
  pose proof (rf_len _ _ Hr) as Hl. cbn in Hl.
  assert (r s =? w s = false) as ->.
  { apply Z.eqb_neq. rewrite (rf_w _ _ Hr), <-(rf_r _ _ Hr) at 1. cbn [Editor.ready length].
    intros E. rewrite <-(Z.add_0_r (r s)) in E at 1. change 0 with (Z.of_nat 0) in E. apply ring_neq in E; lia. }
  assert (arr_get (buf s) (r s mod INPUT_BUF) = Ret c) as ->.
  { apply arr_get_Ret. split; [apply Z.mod_pos_bound; unfold INPUT_BUF; lia|].
    pose proof (rf_holds _ _ Hr 0%nat c eq_refl) as H. by rewrite Z.add_0_r in H. }
  cbn [mbind outcome_bind]. pose proof (pop_refines _ _ _ _ Hr) as Hr1.
  set (s1 := set_input s _ _ _ _) in *. assert (screen_ok s1) as Hs1 by (by apply set_input_screen).
  destruct (c =? C 68).
  { destruct (n <? target).
    - change (set_input s1 (buf s1) (u32 (r s1 - 1)) (w s1) (e s1)) with
        (set_input s1 (buf s) (u32 (u32 (r s + 1) - 1)) (w s) (e s)). subst s1.
      rewrite unread_same by (symmetry; apply Hr). exists s. split; [done|]. unfold goes. cbn. by rewrite app_nil_r.
    - exists s1. split; [done|]. unfold goes. cbn. by rewrite app_nil_r. }
  destruct (c =? 10).
  { exists s1. split; [done|]. unfold goes. cbn. by rewrite app_nil_r. }
  specialize (IH (n - 1) s1 ready l Hs1 Hr1).
  destruct (Editor.take_ready target (n - 1) cnt ready) as [[[bs rd] n'] st]. destruct IH as (s2 & E & G).
  exists s2. rewrite E. split; [done|exact G].
Qed.

(** ** Sessions: interrupts and reads in any order *)
Inductive op := Keys (cs : list Z) | Read (target n : Z) (killed : bool).
Inductive result := Typed (woken dump : bool) | Got (ret : option Z) (bytes : list Z) (left : Z).

Definition op_ok (o : op) : Prop :=
  match o with Keys cs => Forall (λ c, 0 ≤ c < 256) cs | Read _ _ _ => True end.

Definition run (o : op) : M cons result :=
  match o with
  | Keys cs => '(wk, dump) ← consoleintr cs; mret (Typed wk dump)
  | Read target n killed => '(ret, bs, n') ← consoleread target n killed; mret (Got ret bs n')
  end.
Fixpoint run_all (os : list op) : M cons (list result) :=
  match os with
  | [] => mret []
  | o :: os => x ← run o; xs ← run_all os; mret (x :: xs)
  end.

(** The same on the editor; what is echoed comes second. *)
Definition edit (o : op) (ed : Editor.t) : Editor.t * list Z * result :=
  match o with
  | Keys cs => let '(ed, echo, wk) := Editor.keys cs ed in (ed, echo, Typed wk (bool_decide (C 80 ∈ cs)))
  | Read target n killed =>
      let '(bs, rd, n', st) := Editor.take_ready target n (Z.to_nat n) (Editor.ready ed) in
      (Editor.Ed rd (Editor.line ed), [],
       match st with
       | Returns => Got (Some (target - n')) bs n'
       | Sleeps => Got (if killed then Some (-1) else None) bs n'
       end)
  end.
Fixpoint edit_all (os : list op) (ed : Editor.t) : Editor.t * list Z * list result :=
  match os with
  | [] => (ed, [], [])
  | o :: os =>
      let '(ed, e1, x) := edit o ed in
      let '(ed, e2, xs) := edit_all os ed in (ed, e1 ++ e2, x :: xs)
  end.

Lemma run_spec o s ed : screen_ok s → refines s ed → op_ok o →
  let '(ed', echo, x) := edit o ed in ∃ s', run o s = Ret (x, s') ∧ goes s s' ed' echo.
Proof.
  intros Hs Hr Ho. destruct o as [cs|target n killed]; cbn [run edit].
  - pose proof (consoleintr_run cs s ed Hs Hr Ho) as H. destruct (Editor.keys cs ed) as [[ed' e'] wk].
    destruct H as (s' & E & G). exists s'. split; [|done]. by erewrite M_bind_run by exact E.
  - destruct ed as [rd l]. cbn [Editor.ready Editor.line].
    pose proof (consoleread_loop_run target (Z.to_nat n) n s rd l Hs Hr) as H.
    destruct (Editor.take_ready target n (Z.to_nat n) rd) as [[[bs rd'] n'] st].
    destruct H as (s' & E & G). destruct st; exists s'; (split; [|done]);
      (erewrite M_bind_run; [|unfold consoleread; rewrite E; reflexivity]); done.
Qed.

(** The state the kernel starts the input buffer in. *)
Definition input_init (s : cons) : cons := set_input s (replicate 128 0) 0 0 0.

(** C27. The console input is a line editor: from the initial buffer, in any
    sequence of keyboard or serial interrupts (with any characters) and of
    segments of reads, nothing goes wrong, the interrupts echo and the reads
    return what the editor of the contract does: characters are collected in
    a line, erased one by one or all together, handed over when the line ends
    (newline, end of file, or 128 characters waiting), dropped while 128 wait,
    and delivered once and in order, although the three indices wrap around
    and the buffer is a ring. *)
Theorem console_line_editor s os : screen_ok s → Forall op_ok os →
  let '(ed, echo, xs) := edit_all os (Editor.Ed [] []) in
  ∃ s', run_all os (input_init s) = Ret (xs, s') ∧ goes (input_init s) s' ed echo.
Proof.
  intros Hs. assert (refines (input_init s) (Editor.Ed [] [])) as Hr.
  { split; cbn; try done. lia. }
  apply (set_input_screen _ (replicate 128 0) 0 0 0) in Hs. fold (input_init s) in Hs.
  generalize dependent (input_init s). clear s. intros s Hs Hr Hos. revert s Hs Hr. generalize (Editor.Ed [] []) as ed.
  induction Hos as [|o os Ho Hos IH]; intros ed s Hs Hr; cbn [edit_all run_all].
  { exists s. split; [done|]. unfold goes. cbn. by rewrite app_nil_r. }
  pose proof (run_spec o s ed Hs Hr Ho) as H. destruct (edit o ed) as [[ed1 e1] x]. destruct H as (s1 & E1 & G1).
  specialize (IH ed1 s1 (proj1 G1) (proj1 (proj2 G1))).
  destruct (edit_all os ed1) as [[ed2 e2] xs]. destruct IH as (s2 & E2 & G2).
  exists s2. split; [|by eapply goes_trans]. erewrite M_bind_run by exact E1. by erewrite M_bind_run by exact E2.
Qed.

(** ** Numbers *)
Definition digit_value (c : Z) : Z := if c <? 58 then c - 48 else c - 87.
Definition number (base : Z) (cs : list Z) : Z := foldl (λ x c, x * base + digit_value c) 0 cs.
Definition parse (base : Z) (cs : list Z) : Z :=
  match cs with 45 :: cs => - number base cs | _ => number base cs end.

Lemma digits_ok x base : 2 ≤ base ≤ 16 → 
  ∃ d, arr_get digits (x mod base) = Ret d ∧ digit_value d = x mod base ∧ d ≠ 45.
Proof.
  intros Hb. pose proof (Z.mod_pos_bound x base ltac:(lia)) as Hx.
  assert (0 ≤ x mod base < 16) as H by lia. clear Hx. revert H. generalize (x mod base). intros y Hy.
  assert (∃ n : nat, (n < 16)%nat ∧ y = Z.of_nat n) as (n & Hn & ->) by (exists (Z.to_nat y); lia).
  rewrite arr_get_nat. do 16 (destruct n as [|n]; [eexists; split; [reflexivity|]; done|]). lia.
Qed.

Lemma number_snoc base cs c : number base (cs ++ [c]) = number base cs * base + digit_value c.
Proof. unfold number. by rewrite foldl_app. Qed.

(** [k] rounds are enough below [base ^ k]. *)
Lemma digit_loop_spec base k : 2 ≤ base ≤ 16 → ∀ x i fuel,
  0 ≤ x < base ^ Z.of_nat (S k) → 0 ≤ i → i + Z.of_nat k < 16 → (k < fuel)%nat →
  ∃ ds, digit_loop x base i fuel = Ret ds ∧ number base (reverse ds) = x ∧
    (1 ≤ length ds ≤ S k)%nat ∧ head (reverse ds) ≠ Some 45.
Proof.
  intros Hb. induction k as [|k IH]; intros x i fuel Hx Hi Hik Hf; (destruct fuel as [|fuel]; [lia|]); cbn [digit_loop];
    rewrite (proj2 (Z.leb_gt 16 i)) by lia; destruct (digits_ok x base Hb) as (d & -> & Hd & Hm); cbn [mbind outcome_bind].
  - change (Z.of_nat 1) with 1 in Hx. rewrite Z.pow_1_r in Hx. rewrite Z.div_small, Z.eqb_refl by lia.
    exists [d]. split; [done|]. rewrite Z.mod_small in Hd by lia. cbn. split; [unfold number; cbn; lia|].
    split; [lia|]. by intros [= ->].
  - pose proof (Z.div_mod x base ltac:(lia)) as Hdm. case_if as Hz.
    + exists [d]. split; [done|]. cbn. split; [unfold number; cbn; lia|]. split; [lia|]. by intros [= ->].
    + destruct (IH (x / base) (i + 1) fuel) as (ds & -> & Hn & Hl & Hh); try lia.
      { split; [apply Z.div_pos; lia|]. apply Z.div_lt_upper_bound; [lia|].
        rewrite Nat2Z.inj_succ, Z.pow_succ_r in Hx by lia. lia. }
      exists (d :: ds). split; [done|]. rewrite reverse_cons, number_snoc, Hn, Hd. split; [lia|]. cbn [length].
      split; [lia|]. destruct (reverse ds) as [|c l] eqn:E; [|done].
      apply (f_equal length) in E. rewrite length_reverse in E. cbn in E. lia.
Qed.

(** C28. The kernel prints numbers right: for every 32-bit value and the bases the
    kernel uses, [printint] stays within its 16 characters, and the characters
    it prints read back as the value, signed in base 10 (the most negative number
    included) and unsigned in base 16. *)
Theorem printint_correct xx base sign :
  10 ≤ base ≤ 16 → - 2 ^ 31 ≤ xx < 2 ^ 31 →
  ∃ cs, printint_chars xx base sign = Ret cs ∧ parse base cs = (if sign then xx else u32 xx) ∧
    (length cs ≤ 11)%nat.
Proof.
  intros Hb Hx. unfold printint_chars.
  set (neg := sign && (xx <? 0)). set (x := u32 _).
  assert (0 ≤ x < 2 ^ 32) as Hr by apply u32_range.
  destruct (digit_loop_spec base 9 ltac:(lia) x 0 33) as (ds & -> & Hn & Hl & Hh); try lia.
  cbn [mbind outcome_bind]. destruct neg eqn:En.
  - rewrite (proj2 (Z.leb_gt 16 _)) by lia. eexists. split; [done|]. cbn [parse length]. rewrite length_reverse.
    split; [|lia]. apply andb_true_iff in En as [-> En]. bool_to_prop. rewrite Hn. subst x. rewrite u32_small; lia.
  - eexists. split; [done|]. rewrite length_reverse. split; [|lia].
    assert (parse base (reverse ds) = x) as ->.
    { rewrite <-Hn. unfold parse. destruct (reverse ds) as [|c l]; [done|].
      destruct (decide (c = 45)) as [->|Hne]; [done|]. by repeat (case_match; simplify_eq). }
    subst x neg. destruct sign; [|done]. cbn [andb] in En. bool_to_prop. apply u32_small. lia.
Qed.

(** ** Examples *)
Definition demo_console : cons := Cons false (replicate (Z.to_nat 2000) 0) 0 true [] [] 0 0 0.

(** The user types [hj], erases the [j], types [i] and a newline. *)
Definition demo_session : list op := [Keys [104; 106; 8]; Read 5 5 false; Keys [105; 13]; Read 5 5 false].

Lemma demo_screen : screen_ok demo_console.
Proof. split; [done|cbn [crt demo_console]; rewrite length_replicate; lia|cbn; lia]. Qed.

Lemma console_line_editor_witness : ∃ s', run_all demo_session (input_init demo_console) =
    Ret ([Typed false false; Got None [] 5; Typed true false; Got (Some 3) [104; 105; 10] 2], s') ∧
  serial s' = [104; 106; 8; 32; 8; 105; 10].
Proof.
  assert (Forall op_ok demo_session) as Ho.
  { unfold demo_session. repeat constructor. all: unfold op_ok; repeat constructor; lia. }
  pose proof (console_line_editor demo_console demo_session demo_screen Ho) as H.
  destruct H as (s' & E & _ & _ & _ & L). exists s'. split; [exact E|exact L].
Defined.

Lemma printint_correct_witness : ∃ cs, printint_chars (- 2 ^ 31) 10 true = Ret cs ∧ parse 10 cs = - 2 ^ 31.
Proof.
  destruct (printint_correct (- 2 ^ 31) 10 true ltac:(lia) ltac:(lia)) as (cs & E & P & _). by exists cs.
Defined.
