(* ===== verification/Kbd.v ===== *)
(** * The keyboard (xv6 [kbd.c], [kbd.h])

    [kbdgetc] is a function of the modifier state and of the byte the controller
    holds, if any; [kbdintr] hands the characters it gives to [consoleintr]. *)

From stdpp Require Import base numbers list strings.
From S2P Require Import Prelude Console.

Open Scope Z_scope.

(** ** Tables ([kbd.h]) *)
Definition SHIFT : Z := 1.
Definition CTL : Z := 2.
Definition ALT : Z := 4.
Definition CAPSLOCK : Z := 8.
Definition NUMLOCK : Z := 16.
Definition SCROLLLOCK : Z := 32.
Definition E0ESC : Z := 64.

(** A 256-entry table: its first entries, then designated ones, else 0. *)
Definition table (first : list Z) (rest : list (Z * Z)) : list Z :=
  foldl (λ t '(i, c), <[Z.to_nat i := c]> t) (first ++ replicate (256 - length first) 0) rest.

Definition shiftcode : list Z :=
  table [] [(0x1D, CTL); (0x2A, SHIFT); (0x36, SHIFT); (0x38, ALT); (0x9D, CTL); (0xB8, ALT)].
Definition togglecode : list Z :=
  table [] [(0x3A, CAPSLOCK); (0x45, NUMLOCK); (0x46, SCROLLLOCK)].
Definition normalmap : list Z :=
  table [0; 27; 49; 50; 51; 52; 53; 54; 55; 56; 57; 48; 45; 61; 8; 9;
     113; 119; 101; 114; 116; 121; 117; 105; 111; 112; 91; 93; 10; 0; 97; 115;
     100; 102; 103; 104; 106; 107; 108; 59; 39; 96; 0; 92; 122; 120; 99; 118;
     98; 110; 109; 44; 46; 47; 0; 42; 0; 32; 0; 0; 0; 0; 0; 0;
     0; 0; 0; 0; 0; 0; 0; 55; 56; 57; 45; 52; 53; 54; 43; 49;
     50; 51; 48; 46; 0; 0; 0; 0]
    [(0x9c, 10); (0xb5, 47); (0xc8, 226); (0xd0, 227); (0xc9, 230); (0xd1, 231); (0xcb, 228); (0xcd, 229); (0x97, 224); (0xcf, 225); (0xd2, 232); (0xd3, 233)].
Definition shiftmap : list Z :=
  table [0; 27; 33; 64; 35; 36; 37; 94; 38; 42; 40; 41; 95; 43; 8; 9;
     81; 87; 69; 82; 84; 89; 85; 73; 79; 80; 123; 125; 10; 0; 65; 83;
     68; 70; 71; 72; 74; 75; 76; 58; 34; 126; 0; 124; 90; 88; 67; 86;
     66; 78; 77; 60; 62; 63; 0; 42; 0; 32; 0; 0; 0; 0; 0; 0;
     0; 0; 0; 0; 0; 0; 0; 55; 56; 57; 45; 52; 53; 54; 43; 49;
     50; 51; 48; 46; 0; 0; 0; 0]
    [(0x9c, 10); (0xb5, 47); (0xc8, 226); (0xd0, 227); (0xc9, 230); (0xd1, 231); (0xcb, 228); (0xcd, 229); (0x97, 224); (0xcf, 225); (0xd2, 232); (0xd3, 233)].
Definition ctlmap : list Z :=
  table [0; 0; 0; 0; 0; 0; 0; 0; 0; 0; 0; 0; 0; 0; 0; 0;
     17; 23; 5; 18; 20; 25; 21; 9; 15; 16; 0; 0; 13; 0; 1; 19;
     4; 6; 7; 8; 10; 11; 12; 0; 0; 0; 0; 28; 26; 24; 3; 22;
     2; 14; 13; 0; 0; 239; 0; 0]
    [(0x9c, 13); (0xb5, 239); (0xc8, 226); (0xd0, 227); (0xc9, 230); (0xd1, 231); (0xcb, 228); (0xcd, 229); (0x97, 224); (0xcf, 225); (0xd2, 232); (0xd3, 233)].

(** ** [kbdgetc] and [kbdintr] *)
Definition charcode : list (list Z) := [normalmap; shiftmap; ctlmap; ctlmap].

(** The result and the new modifier state. *)
Definition kbdgetc (shift : Z) (in_buffer : option Z) : outcome (Z * Z) :=
  match in_buffer with
  | None => Ret (-1, shift)
  | Some data =>
      if data =? 0xE0 then Ret (0, Z.lor shift E0ESC)
      else if negb (Z.land data 0x80 =? 0) then
        let data := if negb (Z.land shift E0ESC =? 0) then data else Z.land data 0x7F in
        sc ← arr_get shiftcode data;
        Ret (0, Z.land shift (Z.lnot (Z.lor sc E0ESC)))
      else
        let '(data, shift) :=
          if negb (Z.land shift E0ESC =? 0)
          then (Z.lor data 0x80, Z.land shift (Z.lnot E0ESC)) else (data, shift) in
        sc ← arr_get shiftcode data;
        let shift := Z.lor shift sc in
        tc ← arr_get togglecode data;
        let shift := Z.lxor shift tc in
        map ← arr_get charcode (Z.land shift (Z.lor CTL SHIFT));
        c ← arr_get map data;
        let c :=
          if negb (Z.land shift CAPSLOCK =? 0) then
            if (97 <=? c) && (c <=? 122) then u32 (c + (65 - 97))
            else if (65 <=? c) && (c <=? 90) then u32 (c + (97 - 65))
            else c
          else c in
        Ret (c, shift)
  end.

(** What [getc] returns until the controller is empty. *)
Fixpoint scan (shift : Z) (codes : list Z) : outcome (list Z * Z) :=
  match codes with
  | [] => '(_, shift) ← kbdgetc shift None; Ret ([], shift)
  | d :: codes =>
      '(c, shift) ← kbdgetc shift (Some d);
      '(cs, shift) ← scan shift codes;
      Ret (c :: cs, shift)
  end.
Definition kbdintr (shift : Z) (codes : list Z) : M cons (Z * (bool * bool)) :=
  '(cs, shift) ← lift (scan shift codes);
  x ← consoleintr cs;
  mret (shift, x).

(** ** The tables are never left *)
Definition shift_ok (s : Z) : Prop := 0 ≤ s < 128.

Definition bytes_ok (l : list Z) (n : nat) (bound : Z) : bool :=
  bool_decide (length l = n) && forallb (λ x, (0 <=? x) && (x <? bound)) l.

Lemma bytes_ok_get l n bound i : bytes_ok l n bound = true → 0 ≤ i < Z.of_nat n →
  ∃ x, arr_get l i = Ret x ∧ 0 ≤ x < bound.
Proof.
  intros H Hi. apply andb_true_iff in H as [Hl H]. apply bool_decide_eq_true in Hl.
  destruct (arr_get_in l i) as (x & E & Hx); [lia|]. exists x. split; [done|].
  rewrite forallb_forall in H. apply list_elem_of_lookup_2, list_elem_of_In, H in Hx. bool_to_prop. lia.
Qed.

Lemma shift_bits (f : Z → Z → Z) (g : bool → bool → bool) s x :
  (∀ a b n, 0 ≤ n → Z.testbit (f a b) n = g (Z.testbit a n) (Z.testbit b n)) → g false false = false →
  0 ≤ f s x → shift_ok s → 0 ≤ x < 128 → shift_ok (f s x).
Proof.
  intros Hf Hg Hp Hs Hx. split; [done|]. destruct (decide (f s x = 0)) as [->|Hne]; [lia|].
  change 128 with (2 ^ 7). apply Z.log2_lt_pow2; [lia|]. apply Z.lt_nge. intros Hge.
  assert (∀ a, 0 ≤ a < 128 → ∀ n, 7 ≤ n → Z.testbit a n = false) as Hhigh.
  { intros a Ha n Hn. destruct (decide (a = 0)) as [->|]; [apply Z.bits_0|].
    apply Z.bits_above_log2; [lia|]. apply Z.log2_lt_pow2; [lia|].
    apply Z.lt_le_trans with (2 ^ 7); [lia|]. by apply Z.pow_le_mono_r. }
  pose proof (Z.bit_log2 (f s x) ltac:(lia)) as Hb.
  rewrite Hf, (Hhigh s), (Hhigh x), Hg in Hb by (done || lia || apply Z.log2_nonneg). done.
Qed.

Lemma lor_ok s x : shift_ok s → 0 ≤ x < 128 → shift_ok (Z.lor s x).
Proof.
  intros Hs Hx. apply (shift_bits Z.lor orb); [intros; apply Z.lor_spec|done| |done|done].
  apply Z.lor_nonneg. unfold shift_ok in Hs. lia.
Qed.
Lemma lxor_ok s x : shift_ok s → 0 ≤ x < 128 → shift_ok (Z.lxor s x).
Proof.
  intros Hs Hx. apply (shift_bits Z.lxor xorb); [intros; apply Z.lxor_spec|done| |done|done].
  apply Z.lxor_nonneg. unfold shift_ok in Hs. lia.
Qed.
Lemma clear_ok s m : shift_ok s → shift_ok (Z.land s (Z.lnot m)).
Proof.
  intros Hs. rewrite <-Z.ldiff_land. assert (0 ≤ Z.ldiff s m) by (apply Z.ldiff_nonneg; unfold shift_ok in Hs; lia).
  split; [done|]. apply Z.le_lt_trans with s; [|apply Hs]. apply Z.ldiff_le; [apply Hs|].
  apply Z.bits_inj'. intros n Hn. rewrite !Z.ldiff_spec, Z.bits_0. by destruct (Z.testbit s n), (Z.testbit m n).
Qed.

Lemma land_small a m k : 0 ≤ k → m = Z.ones k → 0 ≤ Z.land a m < 2 ^ k.
Proof. intros Hk ->. rewrite Z.land_ones by done. by apply Z.mod_pos_bound, Z.pow_pos_nonneg. Qed.

Lemma kbdgetc_run shift d : shift_ok shift → 0 ≤ d < 256 →
  ∃ c shift', kbdgetc shift (Some d) = Ret (c, shift') ∧ 0 ≤ c < 256 ∧ shift_ok shift'.
Proof.
  intros Hs Hd. unfold kbdgetc. case_if as He0.
  { exists 0, (Z.lor shift E0ESC). split; [done|]. split; [lia|]. apply lor_ok; [done|unfold E0ESC; lia]. }
  case_if as Hrel.
  - set (data := if negb (Z.land shift E0ESC =? 0) then d else _). assert (0 ≤ data < 256) as Hda.
    { subst data. case_if; [lia|]. pose proof (land_small d 0x7F 7 ltac:(lia) eq_refl). lia. }
    destruct (bytes_ok_get shiftcode 256 128 data eq_refl ltac:(lia)) as (sc & -> & Hsc). cbn [mbind outcome_bind].
    eexists _, _. split; [done|]. split; [lia|]. by apply clear_ok.
  - assert (∃ d' s', (if negb (Z.land shift E0ESC =? 0)
        then (Z.lor d 0x80, Z.land shift (Z.lnot E0ESC)) else (d, shift)) = (d', s') ∧ 0 ≤ d' < 256 ∧ shift_ok s') as
        (d' & s' & -> & Hd' & Hs').
    { case_if; eexists _, _; (split; [done|]); [|done]. split; [|by apply clear_ok].
      assert (d < 128) as Hlt.
      { destruct (decide (d < 128)); [done|]. exfalso.
        assert (Z.testbit (Z.land d 128) 7 = true) as Hb.
        { rewrite Z.land_spec, andb_true_iff. split; [|done].
          change 7 with (0 + 7). rewrite <-(Z.shiftr_spec d 7 0), Z.shiftr_div_pow2 by lia.
          replace (d / 2 ^ 7) with 1 by (change (2 ^ 7) with 128; Z.div_mod_to_equations; lia). done. }
        rewrite Hrel, Z.bits_0 in Hb. done. }
      rewrite <-Z.add_nocarry_lor; [lia|]. apply Hrel. }
    destruct (bytes_ok_get shiftcode 256 128 d' eq_refl ltac:(lia)) as (sc & -> & Hsc). cbn [mbind outcome_bind].
    destruct (bytes_ok_get togglecode 256 128 d' eq_refl ltac:(lia)) as (tc & -> & Htc). cbn [mbind outcome_bind].
    set (s2 := Z.lxor (Z.lor s' sc) tc). assert (shift_ok s2) as Hs2 by (by apply lxor_ok; [apply lor_ok|]).
    pose proof (land_small s2 (Z.lor CTL SHIFT) 2 ltac:(lia) eq_refl) as Hm.
    assert (∃ t, arr_get charcode (Z.land s2 (Z.lor CTL SHIFT)) = Ret t ∧ bytes_ok t 256 256 = true) as (t & -> & Ht).
    { revert Hm. generalize (Z.land s2 (Z.lor CTL SHIFT)). intros y Hy. change (2 ^ 2) with 4 in Hy.
      assert (y = 0 ∨ y = 1 ∨ y = 2 ∨ y = 3) as [-> | [-> | [-> | ->]]] by lia;
        eexists; (split; [reflexivity|vm_compute; reflexivity]). }
    cbn [mbind outcome_bind]. destruct (bytes_ok_get t 256 256 d' Ht ltac:(lia)) as (c & -> & Hc). cbn [mbind outcome_bind].
    eexists _, _. split; [done|]. split; [|done]. repeat case_if; rewrite ?u32_small by lia; lia.
Qed.

(** Whatever bytes the keyboard sends, its driver stays inside its tables and
    gives the console only characters it handles. *)
Lemma scan_ok codes : ∀ shift, shift_ok shift → Forall (λ d, 0 ≤ d < 256) codes →
  ∃ cs shift', scan shift codes = Ret (cs, shift') ∧ shift_ok shift' ∧ op_ok (Keys cs).
Proof.
  induction codes as [|d codes IH]; intros shift Hs Hc; cbn [scan].
  - exists [], shift. split; [done|]. split; [done|constructor].
  - apply Forall_cons in Hc as [Hd Hc]. destruct (kbdgetc_run shift d Hs Hd) as (c & s1 & -> & Hc' & Hs1).
    cbn [mbind outcome_bind]. destruct (IH s1 Hs1 Hc) as (cs & s2 & -> & Hs2 & Hcs).
    exists (c :: cs), s2. split; [done|]. split; [done|]. by constructor.
Qed.

(** The keyboard interrupt edits the console's line. *)
Lemma kbdintr_run shift codes s ed :
  shift_ok shift → Forall (λ d, 0 ≤ d < 256) codes → screen_ok s → refines s ed →
  ∃ cs shift', scan shift codes = Ret (cs, shift') ∧
    let '(ed', echo, wk) := Editor.keys cs ed in
    ∃ s', kbdintr shift codes s = Ret ((shift', (wk, bool_decide (C 80 ∈ cs))), s') ∧ goes s s' ed' echo.
Proof.
  intros Hsh Hc Hs Hr. destruct (scan_ok codes shift Hsh Hc) as (cs & shift' & E & _ & Ho).
  exists cs, shift'. split; [done|]. pose proof (consoleintr_run cs s ed Hs Hr Ho) as H.
  destruct (Editor.keys cs ed) as [[ed' echo] wk]. destruct H as (s' & E' & G). exists s'. split; [|done].
  unfold kbdintr. erewrite M_bind_run by (unfold lift; rewrite E; reflexivity). cbn beta iota. by erewrite M_bind_run by exact E'.
Qed.

(** Shift, h, release, i: the characters are [H], [i] and fillers. *)
Lemma scan_demo : scan 0 [0x2A; 0x23; 0xA3; 0xAA; 0x17; 0x97] = Ret ([0; 72; 0; 0; 105; 0], 0).
Proof. reflexivity. Qed.

(** C22. The types of the keyboard driver: from a state that is a combination of
    the seven modifier bits (as at the start), whatever bytes the keyboard
    sends, [kbdgetc] never leaves its tables, the state stays such a
    combination, and every byte gives a character that fits an unsigned char,
    never the negative value that would end the loop of [consoleintr] while
    bytes wait. *)
Theorem kbd_types shift codes : shift_ok shift → Forall (λ d, 0 ≤ d < 256) codes →
  ∃ cs shift', scan shift codes = Ret (cs, shift') ∧ shift_ok shift' ∧
    Forall (λ c, 0 ≤ c < 256) cs ∧ length cs = length codes.
Proof.
  revert shift. induction codes as [|d codes IH]; intros shift Hs Hc; cbn [scan].
  - exists [], shift. by split_and!.
  - apply Forall_cons in Hc as [Hd Hc]. destruct (kbdgetc_run shift d Hs Hd) as (c & s1 & -> & Hc' & Hs1).
    cbn [mbind outcome_bind]. destruct (IH s1 Hs1 Hc) as (cs & s2 & -> & Hs2 & Hcs & Hl).
    exists (c :: cs), s2. split_and!; [done|done|by constructor|cbn; by rewrite Hl].
Qed.

Lemma kbd_types_witness : ∃ cs, scan 0 [0xE0; 0x48; 0x3A; 0x23] = Ret (cs, CAPSLOCK) ∧ Forall (λ c, 0 ≤ c < 256) cs.
Proof.
  destruct (kbd_types 0 [0xE0; 0x48; 0x3A; 0x23]) as (cs & shift' & E & _ & Hc & _).
  - split; [lia|reflexivity].
  - repeat constructor; lia.
  - exists cs. split; [|exact Hc]. vm_compute in E |- *. injection E as <- <-. reflexivity.
Defined.
