(* ===== verification/Fs.v ===== *)
(** * The file system (xv6 [fs.c], [fs.h])

    The block layer is the one [Bio] and [Log] provide: reading a block gives
    its latest contents, [log_write] makes a changed buffer the contents.  A
    block is its 512 bytes.  The state is the blocks, the super block and the
    inode cache; a pointer to an inode is its index in the cache, NULL is
    [None].  Spin locks are held only inside one operation and are left out;
    a sleep lock that is already held makes the (only) process wait for ever,
    a [Panic]. *)

From stdpp Require Import base numbers list gmap sets strings.
From S2P Require Import Prelude Spinlock.

Open Scope Z_scope.

(** ** Constants and structures ([fs.h], [param.h], [stat.h]) *)
Definition ROOTINO : Z := 1.
Definition ROOTDEV : Z := 1.
Definition BSIZE : Z := 512.
Definition NDIRECT : Z := 12.
Definition NINDIRECT : Z := 128.
Definition MAXFILE : Z := NDIRECT + NINDIRECT.
Definition IPB : Z := 8.
Definition BPB : Z := 4096.
Definition DIRSIZ : Z := 14.
Definition DIRENT : Z := 16.
Definition NINODE : nat := 50.
Definition NDEV : Z := 10.
Definition T_DIR : Z := 1.
Definition T_FILE : Z := 2.
Definition T_DEV : Z := 3.

Record superblock := SuperBlock {
  sb_size : Z; nblocks : Z; ninodes : Z; nlog : Z; logstart : Z; inodestart : Z; bmapstart : Z
}.

Record inode := Inode {
  dev : Z; inum : Z; ref : Z; ilk : sleeplock; valid : Z;
  type : Z; major : Z; minor : Z; nlink : Z; size : Z; addrs : list Z
}.

Record fs := Fs { blk : gmap Z (list Z); sb : superblock; icache : list inode }.

Definition set_blk (s : fs) (b : gmap Z (list Z)) : fs := Fs b (sb s) (icache s).
Definition set_icache (s : fs) (l : list inode) : fs := Fs (blk s) (sb s) l.

Definition IBLOCK (i : Z) (s : fs) : Z := i / IPB + inodestart (sb s).
Definition BBLOCK (b : Z) (s : fs) : Z := b / BPB + bmapstart (sb s).

(** ** The block layer *)
Definition bread (b : Z) : M fs (list Z) := fun s => d ← opt (blk s !! b); Ret (d, s).
(** [log_write(bp)] of a buffer whose data is now [d]. *)
Definition log_write (b : Z) (d : list Z) : M fs unit := fun s =>
  _ ← opt (blk s !! b); Ret (tt, set_blk s (<[b := d]> (blk s))).

(** ** Little-endian fields of a byte array *)
Definition get16 (d : list Z) (o : Z) : outcome Z :=
  b0 ← arr_get d o; b1 ← arr_get d (o + 1); Ret (b0 + 256 * b1).
Definition get32 (d : list Z) (o : Z) : outcome Z :=
  lo ← get16 d o; hi ← get16 d (o + 2); Ret (lo + 65536 * hi).
Definition put16 (d : list Z) (o v : Z) : outcome (list Z) :=
  d ← arr_set d o (u8 v); arr_set d (o + 1) (u8 (v / 256)).
Definition put32 (d : list Z) (o v : Z) : outcome (list Z) :=
  d ← put16 d o v; put16 d (o + 2) (v / 65536).
(** A 16-bit pattern read as [short]. *)
Definition i16 (v : Z) : Z := (v + 32768) mod 65536 - 32768.

Fixpoint get32s (d : list Z) (o : Z) (cnt : nat) : outcome (list Z) :=
  match cnt with
  | O => Ret []
  | S cnt => w ← get32 d o; ws ← get32s d (o + 4) cnt; Ret (w :: ws)
  end.
Fixpoint put32s (d : list Z) (o : Z) (ws : list Z) : outcome (list Z) :=
  match ws with
  | [] => Ret d
  | w :: ws => d ← put32 d o w; put32s d (o + 4) ws
  end.

(** [memmove] inside a block or to a block: bytes [o .. o+n-1]. *)
Definition get_bytes (d : list Z) (o n : Z) : outcome (list Z) :=
  if (0 <=? o) && (o + n <=? Z.of_nat (length d)) then Ret (take (Z.to_nat n) (drop (Z.to_nat o) d))
  else Undef.
Definition put_bytes (d : list Z) (o : Z) (src : list Z) : outcome (list Z) :=
  if (0 <=? o) && (o + Z.of_nat (length src) <=? Z.of_nat (length d)) then
    Ret (take (Z.to_nat o) d ++ src ++ drop (Z.to_nat o + length src) d)
  else Undef.

(** ** Super block, zeroing, the block allocator *)
Definition readsb : M fs superblock :=
  d ← bread 1;
  ws ← lift (get32s d 0 7);
  match ws with
  | [a; b; c; e; f; g; h] => mret (SuperBlock a b c e f g h)
  | _ => lift Undef
  end.
(** [readsb(dev, &sb)]. *)
Definition set_sb (x : superblock) : M fs unit := fun s => Ret (tt, Fs (blk s) x (icache s)).
Definition load_sb : M fs unit := x ← readsb; set_sb x.

Definition bzero (bno : Z) : M fs unit :=
  _ ← bread bno;
  log_write bno (replicate (Z.to_nat BSIZE) 0).

(** The inner loop of [balloc]: the first clear bit. *)
Fixpoint find_bit (d : list Z) (b bi sz : Z) (cnt : nat) : outcome (option Z) :=
  match cnt with
  | O => Ret None
  | S cnt =>
      if b + bi <? sz then
        byte ← arr_get d (bi / 8);
        if Z.land byte (Z.shiftl 1 (bi mod 8)) =? 0 then Ret (Some bi)
        else find_bit d b (bi + 1) sz cnt
      else Ret None
  end.

Fixpoint balloc_loop (b : Z) (cnt : nat) : M fs Z :=
  match cnt with
  | O => panic "balloc: out of blocks"
  | S cnt =>
      s ← get_st;
      d ← bread (BBLOCK b s);
      r ← lift (find_bit d b 0 (sb_size (sb s)) (Z.to_nat BPB));
      match r with
      | Some bi =>
          byte ← lift (arr_get d (bi / 8));
          d ← lift (arr_set d (bi / 8) (Z.lor byte (Z.shiftl 1 (bi mod 8))));
          log_write (BBLOCK b s) d ;;
          bzero (b + bi) ;;
          mret (b + bi)
      | None => balloc_loop (b + BPB) cnt
      end
  end.
(** [for(b = 0; b < sb.size; b += BPB)]. *)
Definition balloc : M fs Z :=
  s ← get_st;
  balloc_loop 0 (Z.to_nat ((sb_size (sb s) + BPB - 1) / BPB)).

Definition bfree (b : Z) : M fs unit :=
  load_sb ;;
  s ← get_st;
  d ← bread (BBLOCK b s);
  let bi := b mod BPB in
  let m := Z.shiftl 1 (bi mod 8) in
  byte ← lift (arr_get d (bi / 8));
  if Z.land byte m =? 0 then panic "freeing free block"
  else
    d ← lift (arr_set d (bi / 8) (Z.land byte (Z.lnot m)));
    log_write (BBLOCK b s) d.

(** ** Inodes *)
Definition get_inode (ip : nat) : M fs inode := fun s => x ← opt (icache s !! ip); Ret (x, s).
Definition set_inode (ip : nat) (x : inode) : M fs unit := fun s =>
  Ret (tt, set_icache s (<[ip := x]> (icache s))).

Definition set_ref (x : inode) (r : Z) : inode :=
  Inode (dev x) (inum x) r (ilk x) (valid x) (type x) (major x) (minor x) (nlink x) (size x) (addrs x).
Definition set_ilk (x : inode) (l : sleeplock) : inode :=
  Inode (dev x) (inum x) (ref x) l (valid x) (type x) (major x) (minor x) (nlink x) (size x) (addrs x).
Definition set_valid (x : inode) (v : Z) : inode :=
  Inode (dev x) (inum x) (ref x) (ilk x) v (type x) (major x) (minor x) (nlink x) (size x) (addrs x).
Definition set_type (x : inode) (t : Z) : inode :=
  Inode (dev x) (inum x) (ref x) (ilk x) (valid x) t (major x) (minor x) (nlink x) (size x) (addrs x).
Definition set_size (x : inode) (n : Z) : inode :=
  Inode (dev x) (inum x) (ref x) (ilk x) (valid x) (type x) (major x) (minor x) (nlink x) n (addrs x).
Definition set_addrs (x : inode) (a : list Z) : inode :=
  Inode (dev x) (inum x) (ref x) (ilk x) (valid x) (type x) (major x) (minor x) (nlink x) (size x) a.

Definition iinit : M fs unit :=
  (fun s => Ret (tt, set_icache s ((λ x, set_ilk x initsleeplock) <$> icache s))) ;;
  load_sb.

(** [dip = (struct dinode* )bp->data + inum%IPB]: the byte offset of the
    on-disk inode, 64 bytes each. *)
Definition dip_off (inum : Z) : Z := inum mod IPB * 64.

Definition iupdate (ip : nat) : M fs unit :=
  x ← get_inode ip;
  s ← get_st;
  d ← bread (IBLOCK (inum x) s);
  let o := dip_off (inum x) in
  d ← lift (put16 d o (type x));
  d ← lift (put16 d (o + 2) (major x));
  d ← lift (put16 d (o + 4) (minor x));
  d ← lift (put16 d (o + 6) (nlink x));
  d ← lift (put32 d (o + 8) (size x));
  d ← lift (put32s d (o + 12) (addrs x));
  log_write (IBLOCK (inum x) s) d.

(** The scan of [iget]: the entry that caches the inode, or the first free one. *)
Fixpoint iget_scan (l : list inode) (d n : Z) (i : nat) (empty : option nat) : nat + option nat :=
  match l with
  | [] => inr empty
  | x :: l =>
      if (0 <? ref x) && (dev x =? d) && (inum x =? n) then inl i
      else iget_scan l d n (S i)
             (match empty with Some _ => empty | None => if ref x =? 0 then Some i else None end)
  end.

Definition iget (d n : Z) : M fs nat :=
  s ← get_st;
  match iget_scan (icache s) d n 0 None with
  | inl ip => x ← get_inode ip; set_inode ip (set_ref x (ref x + 1)) ;; mret ip
  | inr None => panic "iget: no inodes"
  | inr (Some ip) =>
      x ← get_inode ip;
      set_inode ip (Inode d n 1 (ilk x) 0 (type x) (major x) (minor x) (nlink x) (size x) (addrs x)) ;;
      mret ip
  end.

Fixpoint ialloc_loop (d t inum : Z) (cnt : nat) : M fs nat :=
  match cnt with
  | O => panic "ialloc: no inodes"
  | S cnt =>
      s ← get_st;
      b ← bread (IBLOCK inum s);
      ty ← lift (get16 b (dip_off inum));
      if ty =? 0 then
        b ← lift (put_bytes b (dip_off inum) (replicate 64 0));
        b ← lift (put16 b (dip_off inum) t);
        log_write (IBLOCK inum s) b ;;
        iget d inum
      else ialloc_loop d t (inum + 1) cnt
  end.
(** [for(inum = 1; inum < sb.ninodes; inum++)]. *)
Definition ialloc (d t : Z) : M fs nat :=
  s ← get_st;
  ialloc_loop d t 1 (Z.to_nat (ninodes (sb s) - 1)).

Definition idup (ip : nat) : M fs nat :=
  x ← get_inode ip; set_inode ip (set_ref x (ref x + 1)) ;; mret ip.

Definition acquire_inode (ip : nat) : M fs unit :=
  x ← get_inode ip;
  match acquiresleep (ilk x) 0 with
  | Some l => set_inode ip (set_ilk x l)
  | None => panic "waits for its own lock"
  end.
Definition release_inode (ip : nat) : M fs unit :=
  x ← get_inode ip; set_inode ip (set_ilk x (releasesleep (ilk x))).

Definition ilock (ipp : option nat) : M fs unit :=
  match ipp with
  | None => panic "ilock"
  | Some ip =>
      x ← get_inode ip;
      if ref x <? 1 then panic "ilock"
      else
        acquire_inode ip ;;
        if valid x =? 0 then
          s ← get_st;
          d ← bread (IBLOCK (inum x) s);
          let o := dip_off (inum x) in
          ty ← lift (get16 d o);
          ma ← lift (get16 d (o + 2));
          mi ← lift (get16 d (o + 4));
          nl ← lift (get16 d (o + 6));
          sz ← lift (get32 d (o + 8));
          ad ← lift (get32s d (o + 12) 13);
          x ← get_inode ip;
          set_inode ip (Inode (dev x) (inum x) (ref x) (ilk x) 1 (i16 ty) (i16 ma) (i16 mi) (i16 nl) sz ad) ;;
          if i16 ty =? 0 then panic "ilock: no type" else mret tt
        else mret tt
  end.

Definition iunlock (ipp : option nat) : M fs unit :=
  match ipp with
  | None => panic "iunlock"
  | Some ip =>
      x ← get_inode ip;
      if negb (holdingsleep (ilk x)) || (ref x <? 1) then panic "iunlock" else release_inode ip
  end.

(** ** Inode contents *)
Definition bmap (ip : nat) (bn : Z) : M fs Z :=
  x ← get_inode ip;
  if bn <? NDIRECT then
    addr ← lift (arr_get (addrs x) bn);
    if addr =? 0 then
      addr ← balloc;
      x ← get_inode ip;
      a ← lift (arr_set (addrs x) bn addr);
      set_inode ip (set_addrs x a) ;;
      mret addr
    else mret addr
  else
    let bn := bn - NDIRECT in
    if bn <? NINDIRECT then
      ind ← lift (arr_get (addrs x) NDIRECT);
      ind ← (if ind =? 0 then
               ind ← balloc;
               x ← get_inode ip;
               a ← lift (arr_set (addrs x) NDIRECT ind);
               set_inode ip (set_addrs x a) ;;
               mret ind
             else mret ind);
      d ← bread ind;
      addr ← lift (get32 d (4 * bn));
      if addr =? 0 then
        addr ← balloc;
        d ← bread ind;          (* the buffer [bp], still held *)
        d ← lift (put32 d (4 * bn) addr);
        log_write ind d ;;
        mret addr
      else mret addr
    else panic "bmap: out of range".

Definition free_direct (ip : nat) (i : Z) : M fs unit :=
  x ← get_inode ip;
  a ← lift (arr_get (addrs x) i);
  if a =? 0 then mret tt
  else
    bfree a ;;
    x ← get_inode ip;
    ad ← lift (arr_set (addrs x) i 0);
    set_inode ip (set_addrs x ad).

Definition free_indirect (ind j : Z) : M fs unit :=
  d ← bread ind;
  a ← lift (get32 d (4 * j));
  if a =? 0 then mret tt else bfree a.

Definition itrunc (ip : nat) : M fs unit :=
  for_loop 0 (Z.to_nat NDIRECT) (free_direct ip) ;;
  x ← get_inode ip;
  ind ← lift (arr_get (addrs x) NDIRECT);
  (if ind =? 0 then mret tt
   else
     for_loop 0 (Z.to_nat NINDIRECT) (free_indirect ind) ;;
     bfree ind ;;
     x ← get_inode ip;
     ad ← lift (arr_set (addrs x) NDIRECT 0);
     set_inode ip (set_addrs x ad)) ;;
  x ← get_inode ip;
  set_inode ip (set_size x 0) ;;
  iupdate ip.

Definition iput (ip : nat) : M fs unit :=
  acquire_inode ip ;;
  x ← get_inode ip;
  (if negb (valid x =? 0) && (nlink x =? 0) && (ref x =? 1) then
     itrunc ip ;;
     x ← get_inode ip;
     set_inode ip (set_type x 0) ;;
     iupdate ip ;;
     x ← get_inode ip;
     set_inode ip (set_valid x 0)
   else mret tt) ;;
  release_inode ip ;;
  x ← get_inode ip;
  set_inode ip (set_ref x (ref x - 1)).

Definition iunlockput (ip : nat) : M fs unit := iunlock (Some ip) ;; iput ip.

Record stat := Stat { st_dev : Z; st_ino : Z; st_type : Z; st_nlink : Z; st_size : Z }.
Definition stati (ip : nat) : M fs stat :=
  x ← get_inode ip; mret (Stat (dev x) (inum x) (type x) (nlink x) (size x)).

Section fs.
(** The device switch table ([devsw], filled by the drivers): the read and
    write function of a major number, if it has one. *)
Context (dev_read : Z → option (nat → Z → M fs (Z * list Z))).
Context (dev_write : Z → option (nat → list Z → M fs Z)).

(** The copy loop of [readi]; every round copies at least one byte. *)
Fixpoint readi_loop (ip : nat) (off n tot : Z) (fuel : nat) : M fs (list Z) :=
  if tot <? n then
    match fuel with
    | O => lift NoFuel
    | S fuel =>
        b ← bmap ip (off / BSIZE);
        d ← bread b;
        let m := Z.min (n - tot) (BSIZE - off mod BSIZE) in
        chunk ← lift (get_bytes d (off mod BSIZE) m);
        rest ← readi_loop ip (off + m) n (tot + m) fuel;
        mret (chunk ++ rest)
    end
  else mret [].

(** The result and the bytes stored at [dst]. *)
Definition readi (ip : nat) (off n : Z) : M fs (Z * list Z) :=
  x ← get_inode ip;
  if type x =? T_DEV then
    if (major x <? 0) || (NDEV <=? major x) then mret (-1, [])
    else match dev_read (major x) with
         | None => mret (-1, [])
         | Some f => f ip n
         end
  else if (size x <? off) || (u32 (off + n) <? off) then mret (-1, [])
  else
    let n := if size x <? u32 (off + n) then u32 (size x - off) else n in
    bytes ← readi_loop ip off n 0 (Z.to_nat n);
    mret (n, bytes).

(** Gives the final [off]. *)
Fixpoint writei_loop (ip : nat) (src : list Z) (off n tot : Z) (fuel : nat) : M fs Z :=
  if tot <? n then
    match fuel with
    | O => lift NoFuel
    | S fuel =>
        b ← bmap ip (off / BSIZE);
        d ← bread b;
        let m := Z.min (n - tot) (BSIZE - off mod BSIZE) in
        chunk ← lift (get_bytes src 0 m);
        d ← lift (put_bytes d (off mod BSIZE) chunk);
        log_write b d ;;
        writei_loop ip (drop (Z.to_nat m) src) (off + m) n (tot + m) fuel
    end
  else mret off.

Definition writei (ip : nat) (src : list Z) (off n : Z) : M fs Z :=
  x ← get_inode ip;
  if type x =? T_DEV then
    if (major x <? 0) || (NDEV <=? major x) then mret (-1)
    else match dev_write (major x) with
         | None => mret (-1)
         | Some f => f ip (take (Z.to_nat n) src)
         end
  else if (size x <? off) || (u32 (off + n) <? off) then mret (-1)
  else if MAXFILE * BSIZE <? u32 (off + n) then mret (-1)
  else
    off ← writei_loop ip src off n 0 (Z.to_nat n);
    x ← get_inode ip;
    (if (0 <? n) && (size x <? off) then set_inode ip (set_size x off) ;; iupdate ip else mret tt) ;;
    mret n.

(** ** Directories *)

(** [strncmp(s, t, DIRSIZ)]; behind its last character a string reads as NUL. *)
Fixpoint namecmp_loop (p q : list Z) (n : nat) : Z :=
  match n with
  | O => 0
  | S n =>
      let a := default 0 (head p) in
      let b := default 0 (head q) in
      if negb (a =? 0) && (a =? b) then namecmp_loop (tail p) (tail q) n else u8 a - u8 b
  end.
Definition namecmp (s t : list Z) : Z := namecmp_loop s t (Z.to_nat DIRSIZ).

(** [strncpy(de.name, name, DIRSIZ)]. *)
Definition dirname (name : list Z) : list Z :=
  take (Z.to_nat DIRSIZ) (name ++ replicate (Z.to_nat DIRSIZ) 0).

(** [readi(dp, &de, off, sizeof(de))]: the inode number and the name. *)
Definition read_dirent (dp : nat) (off : Z) (what : string) : M fs (Z * list Z) :=
  '(r, bytes) ← readi dp off DIRENT;
  if negb (r =? DIRENT) then panic what
  else
    i ← lift (get16 bytes 0);
    nm ← lift (get_bytes bytes 2 DIRSIZ);
    mret (i, nm).

(** The loop of [dirlookup]: the inode number and the offset of the entry. *)
Fixpoint dirlookup_loop (dp : nat) (name : list Z) (sz off : Z) (fuel : nat) : M fs (option (Z * Z)) :=
  if off <? sz then
    match fuel with
    | O => lift NoFuel
    | S fuel =>
        '(i, nm) ← read_dirent dp off "dirlookup read";
        if i =? 0 then dirlookup_loop dp name sz (off + DIRENT) fuel
        else if namecmp name nm =? 0 then mret (Some (i, off))
        else dirlookup_loop dp name sz (off + DIRENT) fuel
    end
  else mret None.

(** Every round advances [off] by 16. *)
Definition dirlookup (dp : nat) (name : list Z) : M fs (option (nat * Z)) :=
  x ← get_inode dp;
  if negb (type x =? T_DIR) then panic "dirlookup not DIR"
  else
    r ← dirlookup_loop dp name (size x) 0 (Z.to_nat (size x / DIRENT + 1));
    match r with
    | None => mret None
    | Some (i, off) => ip ← iget (dev x) i; mret (Some (ip, off))
    end.

(** The search of [dirlink] for a free entry: its offset, or the size. *)
Fixpoint free_dirent (dp : nat) (sz off : Z) (fuel : nat) : M fs Z :=
  if off <? sz then
    match fuel with
    | O => lift NoFuel
    | S fuel =>
        '(i, _) ← read_dirent dp off "dirlink read";
        if i =? 0 then mret off else free_dirent dp sz (off + DIRENT) fuel
    end
  else mret off.

Definition dirlink (dp : nat) (name : list Z) (i : Z) : M fs Z :=
  r ← dirlookup dp name;
  match r with
  | Some (ip, _) => iput ip ;; mret (-1)
  | None =>
      x ← get_inode dp;
      off ← free_dirent dp (size x) 0 (Z.to_nat (size x / DIRENT + 1));
      w ← writei dp ([u8 i; u8 (i / 256)] ++ dirname name) off DIRENT;
      if negb (w =? DIRENT) then panic "dirlink" else mret 0
  end.

(** ** Paths *)
Definition slash : Z := 47.

Fixpoint skip_slashes (path : list Z) : list Z :=
  match path with
  | c :: path' => if c =? slash then skip_slashes path' else path
  | [] => []
  end.

(** The characters up to the next slash, and what follows them. *)
Fixpoint span_elem (path : list Z) : list Z * list Z :=
  match path with
  | c :: path' =>
      if c =? slash then ([], path) else let '(e, r) := span_elem path' in (c :: e, r)
  | [] => ([], [])
  end.

(** The rest of the path and the name, cut to [DIRSIZ] characters. *)
Definition skipelem (path : list Z) : option (list Z * list Z) :=
  match skip_slashes path with
  | [] => None
  | p =>
      let '(e, r) := span_elem p in
      Some (skip_slashes r, take (Z.to_nat DIRSIZ) e)
  end.

(** Every round consumes at least one character of the path. *)
Fixpoint namex_loop (nameiparent : bool) (ip : nat) (path name : list Z) (fuel : nat)
    : M fs (option (nat * list Z)) :=
  match skipelem path with
  | None =>
      if nameiparent then iput ip ;; mret None else mret (Some (ip, name))
  | Some (path, name) =>
      match fuel with
      | O => lift NoFuel
      | S fuel =>
          ilock (Some ip) ;;
          x ← get_inode ip;
          if negb (type x =? T_DIR) then iunlockput ip ;; mret None
          else if nameiparent && bool_decide (path = []) then
            iunlock (Some ip) ;; mret (Some (ip, name))
          else
            r ← dirlookup ip name;
            match r with
            | None => iunlockput ip ;; mret None
            | Some (nxt, _) => iunlockput ip ;; namex_loop nameiparent nxt path name fuel
            end
      end
  end.

(** [cwd] is the inode of the current directory of the process. *)
Definition namex (cwd : nat) (path : list Z) (nameiparent : bool) : M fs (option (nat * list Z)) :=
  ip ← (if bool_decide (head path = Some slash) then iget ROOTDEV ROOTINO else idup cwd);
  namex_loop nameiparent ip path [] (length path).

Definition namei (cwd : nat) (path : list Z) : M fs (option nat) :=
  r ← namex cwd path false; mret (fst <$> r).
Definition nameiparent (cwd : nat) (path : list Z) : M fs (option (nat * list Z)) :=
  namex cwd path true.
End fs.
