(* ===== verification/FsBlocks.v ===== *)
(** * The block allocator of the file system ([balloc], [bfree])

    The bitmap as a predicate on block numbers, and what the two operations do
    to it. *)

From stdpp Require Import base numbers list gmap sets strings.
From S2P Require Import Prelude Fs.

Open Scope Z_scope.

(** ** Bits *)
Lemma land_bit x k : 0 ≤ k → (Z.land x (Z.shiftl 1 k) =? 0) = negb (Z.testbit x k).
Proof.
  intros Hk. rewrite Z.shiftl_1_l. destruct (Z.testbit x k) eqn:E; cbn.
  - apply Z.eqb_neq. intros H. apply (f_equal (λ z, Z.testbit z k)) in H.
    rewrite Z.land_spec, E, Z.pow2_bits_true, Z.bits_0 in H by done. done.
  - apply Z.eqb_eq, Z.bits_inj'. intros n Hn. rewrite Z.land_spec, Z.bits_0.
    destruct (decide (n = k)) as [->|Hne]; [by rewrite E|].
    rewrite Z.pow2_bits_false, andb_false_r by done. done.
Qed.

Lemma lor_bit x k j : 0 ≤ k → 0 ≤ j →
  Z.testbit (Z.lor x (Z.shiftl 1 k)) j = (bool_decide (j = k) || Z.testbit x j).
Proof.
  intros Hk Hj. rewrite Z.shiftl_1_l, Z.lor_spec. case_bool_decide as E.
  - rewrite E, Z.pow2_bits_true by done. by rewrite orb_true_r.
  - rewrite Z.pow2_bits_false by done. by rewrite orb_false_r.
Qed.

Lemma ldiff_bit x k j : 0 ≤ k → 0 ≤ j →
  Z.testbit (Z.land x (Z.lnot (Z.shiftl 1 k))) j = (negb (bool_decide (j = k)) && Z.testbit x j).
Proof.
  intros Hk Hj. rewrite Z.shiftl_1_l, Z.land_spec, Z.lnot_spec by done. case_bool_decide as E.
  - rewrite E, Z.pow2_bits_true by done. by rewrite andb_false_r.
  - rewrite Z.pow2_bits_false by done. by rewrite andb_true_r.
Qed.

(** Bit [bi] of a bitmap block. *)
Definition bit_of (d : list Z) (bi : Z) : bool :=
  Z.testbit (default 0 (d !! Z.to_nat (bi / 8))) (bi mod 8).

(** Block [b] is marked in use. *)
Definition in_use (s : fs) (b : Z) : bool :=
  bit_of (default [] (blk s !! BBLOCK b s)) (b mod BPB).

Lemma div_mod_8 bi bi' : 0 ≤ bi → 0 ≤ bi' → bi / 8 = bi' / 8 → bi mod 8 = bi' mod 8 → bi = bi'.
Proof. intros. rewrite (Z.div_mod bi 8), (Z.div_mod bi' 8) by lia. congruence. Qed.

(** Setting or clearing a bit in a byte of the block. *)
Lemma bit_of_insert d bi byte v j :
  0 ≤ bi → 0 ≤ j → d !! Z.to_nat (bi / 8) = Some byte →
  (∀ k, 0 ≤ k → k ≠ bi mod 8 → Z.testbit v k = Z.testbit byte k) →
  bit_of (<[Z.to_nat (bi / 8) := v]> d) j =
    if decide (j = bi) then Z.testbit v (bi mod 8) else bit_of d j.
Proof.
  intros Hbi Hj Hd Hv. unfold bit_of. pose proof (lookup_lt_Some _ _ _ Hd) as Hlt.
  destruct (decide (Z.to_nat (j / 8) = Z.to_nat (bi / 8))) as [E|E].
  - rewrite E, list_lookup_insert_eq, Hd by done. cbn [default from_option id].
    assert (j / 8 = bi / 8) as E' by (Z.div_mod_to_equations; lia).
    case_decide as Hd'; [by subst|]. apply Hv; [Z.div_mod_to_equations; lia|].
    intros Em. apply Hd'. by apply div_mod_8.
  - rewrite list_lookup_insert_ne by done. case_decide; [by subst|done].
Qed.

(** ** The scan *)
Lemma find_bit_spec d b sz cnt : ∀ bi,
  0 ≤ bi → bi + Z.of_nat cnt ≤ BPB → length d = Z.to_nat BSIZE →
  match find_bit d b bi sz cnt with
  | Ret (Some k) => bi ≤ k < bi + Z.of_nat cnt ∧ b + k < sz ∧ bit_of d k = false ∧
      ∀ j, bi ≤ j < k → bit_of d j = true
  | Ret None => ∀ j, bi ≤ j < bi + Z.of_nat cnt → b + j < sz → bit_of d j = true
  | _ => False
  end.
Proof.
  induction cnt as [|cnt IH]; intros bi Hbi Hend Hlen; cbn [find_bit].
  { intros j. lia. }
  case_if as Hlt; [|intros j; lia].
  destruct (arr_get_in d (bi / 8)) as (byte & -> & Hb).
  { rewrite Hlen. unfold BSIZE, BPB in *. Z.div_mod_to_equations; lia. }
  cbn [mbind outcome_bind]. rewrite land_bit by (Z.div_mod_to_equations; lia).
  assert (bit_of d bi = Z.testbit byte (bi mod 8)) as Ebit by (unfold bit_of; by rewrite Hb).
  destruct (Z.testbit byte (bi mod 8)); cbn [negb].
  - specialize (IH (bi + 1) ltac:(lia) ltac:(lia) Hlen).
    destruct (find_bit d b (bi + 1) sz cnt) as [[k|]| | |]; try done.
    + destruct IH as (H1 & H2 & H3 & H4). split_and!; try lia; try done.
      intros j Hj. destruct (decide (j = bi)) as [->|]; [done|]. apply H4. lia.
    + intros j Hj Hs. destruct (decide (j = bi)) as [->|]; [done|]. apply IH; lia.
  - split_and!; try lia; try done.
Qed.

(** ** Well-formed bitmaps *)

(** The bitmap blocks exist and are whole; the blocks that are free are on the
    disk and are not themselves part of the bitmap. *)
Record bitmap_ok (s : fs) : Prop := {
  bm_size : 0 ≤ sb_size (sb s);
  bm_block b : 0 ≤ b < sb_size (sb s) → ∃ d, blk s !! BBLOCK b s = Some d ∧ length d = Z.to_nat BSIZE;
  bm_free b : 0 ≤ b < sb_size (sb s) → in_use s b = false →
    is_Some (blk s !! b) ∧ ∀ b', 0 ≤ b' < sb_size (sb s) → BBLOCK b' s ≠ b
}.

Lemma in_use_set s b bm byte v d' z :
  0 ≤ b → blk s !! BBLOCK b s = Some bm →
  bm !! Z.to_nat (b mod BPB / 8) = Some byte →
  (∀ k, 0 ≤ k → k ≠ b mod BPB mod 8 → Z.testbit v k = Z.testbit byte k) →
  d' = <[BBLOCK b s := <[Z.to_nat (b mod BPB / 8) := v]> bm]> (blk s) → 0 ≤ z →
  in_use (set_blk s d') z =
    if decide (z = b) then Z.testbit v (b mod BPB mod 8) else in_use s z.
Proof.
  intros Hb Hbm Hbyte Hv -> Hz. unfold in_use, BBLOCK, set_blk. cbn [blk sb].
  fold (BBLOCK b s). fold (BBLOCK z s).
  assert (0 ≤ b mod BPB ∧ 0 ≤ z mod BPB) as [? ?] by (unfold BPB; split; apply Z.mod_pos_bound; lia).
  destruct (decide (BBLOCK z s = BBLOCK b s)) as [E|E].
  - rewrite E, lookup_insert_eq, Hbm. cbn [default from_option id].
    rewrite (bit_of_insert _ _ byte) by done.
    assert (z / BPB = b / BPB) as E' by (unfold BBLOCK in E; lia).
    destruct (decide (z mod BPB = b mod BPB)) as [Em|Em].
    + assert (z = b) as -> by (rewrite (Z.div_mod z BPB), (Z.div_mod b BPB) by done; congruence).
      by rewrite decide_True.
    + rewrite decide_False by (intros ->; done). done.
  - rewrite lookup_insert_ne by done. rewrite decide_False by (intros ->; done). done.
Qed.

Definition zero_bytes : list Z := replicate (Z.to_nat BSIZE) 0.

(** What an allocation of block [k] leaves. *)
Record allocated (s s' : fs) (k : Z) : Prop := {
  al_free : in_use s k = false;
  al_bits z : 0 ≤ z < sb_size (sb s) → in_use s' z = bool_decide (z = k) || in_use s z;
  al_zero : blk s' !! k = Some zero_bytes;
  al_other x : x ≠ k → x ≠ BBLOCK k s → blk s' !! x = blk s !! x;
  al_sb : sb s' = sb s;
  al_icache : icache s' = icache s;
  al_ok : bitmap_ok s'
}.

Lemma BBLOCK_sb s s' b : sb s' = sb s → BBLOCK b s' = BBLOCK b s.
Proof. intros E. unfold BBLOCK. by rewrite E. Qed.

Lemma mark_used s bm byte k :
  bitmap_ok s → 0 ≤ k < sb_size (sb s) → in_use s k = false →
  blk s !! BBLOCK k s = Some bm → bm !! Z.to_nat (k mod BPB / 8) = Some byte →
  let bm' := <[Z.to_nat (k mod BPB / 8) := Z.lor byte (Z.shiftl 1 (k mod BPB mod 8))]> bm in
  allocated s (set_blk s (<[k := zero_bytes]> (<[BBLOCK k s := bm']> (blk s)))) k.
Proof.
  intros Hok Hk Hfree Hbm Hbyte bm'.
  assert (0 ≤ k mod BPB mod 8) as Hm by (unfold BPB; Z.div_mod_to_equations; lia).
  destruct (bm_free _ Hok k Hk Hfree) as [Hex Hnb].
  set (d' := <[BBLOCK k s := bm']> (blk s)).
  assert (∀ z, 0 ≤ z < sb_size (sb s) → in_use (set_blk s (<[k := zero_bytes]> d')) z =
    bool_decide (z = k) || in_use s z) as Hbits.
  { intros z Hz. transitivity (in_use (set_blk s d') z).
    - unfold in_use, BBLOCK, set_blk. cbn [blk sb]. fold (BBLOCK z s).
      rewrite lookup_insert_ne; [done|]. intros E. by apply (Hnb z).
    - rewrite (in_use_set s k bm byte (Z.lor byte (Z.shiftl 1 (k mod BPB mod 8))) d' z (proj1 Hk) Hbm Hbyte) by (done || lia ||
        (intros j Hj Hne; rewrite lor_bit, bool_decide_false by done; done)).
      case_decide as E; [|by rewrite bool_decide_false].
      rewrite lor_bit, !bool_decide_true by done. done. }
  split; try done; cbn [blk sb set_blk].
  - by rewrite lookup_insert_eq.
  - intros x H1 H2. unfold d'. by rewrite !lookup_insert_ne by done.
  - split; cbn [sb set_blk blk]; [apply Hok|..].
    + intros b Hb. unfold BBLOCK. cbn [sb set_blk]. fold (BBLOCK b s).
      rewrite lookup_insert_ne by (intros E; by apply (Hnb b)). unfold d'.
      destruct (bm_block _ Hok b Hb) as (d & Hd & Hl).
      destruct (decide (BBLOCK b s = BBLOCK k s)) as [->|Hne].
      * rewrite lookup_insert_eq. eexists. split; [done|]. unfold bm'. rewrite length_insert.
        destruct (bm_block _ Hok k Hk) as (d2 & Hd2 & Hl2). congruence.
      * rewrite lookup_insert_ne by done. eauto.
    + intros b Hb Hf. rewrite Hbits in Hf by done. apply orb_false_iff in Hf as [_ Hf].
      destruct (bm_free _ Hok b Hb Hf) as [? ?]. split; [|done].
      unfold d'. rewrite !lookup_insert_is_Some'. auto.
Qed.

Lemma balloc_loop_spec cnt : ∀ b s,
  bitmap_ok s → 0 ≤ b → b mod BPB = 0 → sb_size (sb s) ≤ b + Z.of_nat cnt * BPB →
  ((0 < cnt)%nat → b + (Z.of_nat cnt - 1) * BPB < sb_size (sb s)) →
  (∀ j, 0 ≤ j < b → j < sb_size (sb s) → in_use s j = true) →
  (∃ k s', balloc_loop b cnt s = Ret (k, s') ∧ 0 ≤ k < sb_size (sb s) ∧ allocated s s' k ∧
     ∀ j, 0 ≤ j < k → in_use s j = true) ∨
  (balloc_loop b cnt s = Panic "balloc: out of blocks" ∧
   ∀ j, 0 ≤ j < sb_size (sb s) → in_use s j = true).
Proof.
  induction cnt as [|cnt IH]; intros b s Hok Hb Hmod Hsz Hlast Hused; cbn [balloc_loop].
  { right. split; [done|]. intros j Hj. apply Hused; lia. }
  assert (b < sb_size (sb s)) as Hlt by (unfold BPB in *; lia).
  destruct (bm_block _ Hok b) as (d & Hd & Hl); [lia|].
  erewrite M_bind_run by done. erewrite M_bind_run; [|unfold bread; by rewrite Hd].
  pose proof (find_bit_spec d b (sb_size (sb s)) (Z.to_nat BPB) 0 ltac:(lia) ltac:(unfold BPB; lia) Hl) as Hf.
  (* the bits of this bitmap block *)
  assert (∀ j, 0 ≤ j < BPB → BBLOCK (b + j) s = BBLOCK b s ∧ (b + j) mod BPB = j ∧
    in_use s (b + j) = bit_of d j) as Hbit.
  { intros j Hj. assert ((b + j) / BPB = b / BPB ∧ (b + j) mod BPB = j) as [E1 E2]
      by (unfold BPB in *; Z.div_mod_to_equations; lia).
    assert (BBLOCK (b + j) s = BBLOCK b s) as E3 by (unfold BBLOCK; by rewrite E1).
    split_and!; [done..|]. unfold in_use. by rewrite E3, Hd, E2. }
  destruct (find_bit d b 0 (sb_size (sb s)) (Z.to_nat BPB)) as [[k|]| | |] eqn:Ef; try done;
    rewrite Z2Nat.id in Hf by done.
  - destruct Hf as (Hk & Hks & Hkb & Hkj). destruct (Hbit k) as (B1 & B2 & B3); [lia|].
    destruct (arr_get_in d (k / 8)) as (byte & Eb & Hbyte).
    { rewrite Hl. unfold BSIZE, BPB in *. Z.div_mod_to_equations; lia. }
    assert (in_use s (b + k) = false) as Hfree by congruence.
    destruct (bm_free _ Hok (b + k) ltac:(lia) Hfree) as [[z Hz] Hnb].
    left. exists (b + k). eexists. split.
    + erewrite M_bind_run by done. cbn beta iota.
      erewrite M_bind_run; [|unfold lift; by rewrite Eb].
      pose proof (lookup_lt_Some _ _ _ Hbyte).
      erewrite M_bind_run; [|unfold lift; rewrite arr_set_in by (Z.div_mod_to_equations; lia); done].
      erewrite M_bind_run; [|unfold log_write; rewrite Hd; done].
      erewrite M_bind_run; [done|]. unfold bzero.
      erewrite M_bind_run; [|unfold bread; cbn [blk set_blk];
        rewrite lookup_insert_ne by (intros E; by apply (Hnb b)); rewrite Hz; done].
      unfold log_write. cbn [blk set_blk].
      rewrite lookup_insert_ne by (intros E; by apply (Hnb b)). rewrite Hz. done.
    + rewrite <-B1 in Hd |- *. rewrite <-B2 in Hbyte |- * at 2. split_and!; [lia|lia| |].
      * pose proof (mark_used s d byte (b + k) Hok ltac:(lia) Hfree Hd Hbyte) as HA.
        rewrite B2 in HA. exact HA.
      * intros j Hj. destruct (decide (j < b)); [apply Hused; lia|].
        replace j with (b + (j - b)) by lia. destruct (Hbit (j - b)) as (_ & _ & ->); [lia|].
        apply Hkj. lia.
  - erewrite M_bind_run by done. cbn beta iota.
    apply IH; try done.
    + unfold BPB. lia.
    + unfold BPB in *. Z.div_mod_to_equations; lia.
    + lia.
    + intros Hc. rewrite Nat2Z.inj_succ in Hlast. specialize (Hlast ltac:(lia)). lia.
    + intros j Hj Hjs. destruct (decide (j < b)); [apply Hused; lia|].
      replace j with (b + (j - b)) by lia. destruct (Hbit (j - b)) as (_ & _ & ->); [lia|].
      apply Hf; lia.
Qed.

Lemma balloc_spec s : bitmap_ok s →
  (∃ k s', balloc s = Ret (k, s') ∧ 0 ≤ k < sb_size (sb s) ∧ allocated s s' k ∧
     ∀ j, 0 ≤ j < k → in_use s j = true) ∨
  (balloc s = Panic "balloc: out of blocks" ∧
   ∀ j, 0 ≤ j < sb_size (sb s) → in_use s j = true).
Proof.
  intros Hok. unfold balloc. erewrite M_bind_run by done. pose proof (bm_size _ Hok).
  apply balloc_loop_spec; try done; unfold BPB; try lia.
  - rewrite Z2Nat.id by (Z.div_mod_to_equations; lia). Z.div_mod_to_equations; lia.
  - intros Hc. rewrite Z2Nat.id by (Z.div_mod_to_equations; lia). Z.div_mod_to_equations; lia.
Qed.

(** ** Freeing *)

(** The super block in memory is the one on the disk. *)
Definition sb_ok (s : fs) : Prop := readsb s = Ret (sb s, s).

Record freed (s s' : fs) (k : Z) : Prop := {
  fr_bits z : 0 ≤ z < sb_size (sb s) → in_use s' z = negb (bool_decide (z = k)) && in_use s z;
  fr_other x : x ≠ BBLOCK k s → blk s' !! x = blk s !! x;
  fr_sb : sb s' = sb s;
  fr_icache : icache s' = icache s
}.

Lemma load_sb_ok s : sb_ok s → load_sb s = Ret (tt, s).
Proof.
  intros H. unfold load_sb. erewrite M_bind_run by exact H. unfold set_sb. by destruct s.
Qed.

Lemma bfree_spec s k :
  bitmap_ok s → sb_ok s → 0 ≤ k < sb_size (sb s) →
  if in_use s k then ∃ s', bfree k s = Ret (tt, s') ∧ freed s s' k
  else bfree k s = Panic "freeing free block".
Proof.
  intros Hok Hsb Hk. unfold bfree. erewrite M_bind_run by (by apply load_sb_ok).
  erewrite M_bind_run by done. destruct (bm_block _ Hok k Hk) as (d & Hd & Hl).
  erewrite M_bind_run; [|unfold bread; by rewrite Hd].
  assert (0 ≤ k mod BPB < BPB ∧ 0 ≤ k mod BPB mod 8) as [Hm Hm8] by (unfold BPB; Z.div_mod_to_equations; lia).
  destruct (arr_get_in d (k mod BPB / 8)) as (byte & Eb & Hbyte).
  { rewrite Hl. unfold BSIZE, BPB in *. Z.div_mod_to_equations; lia. }
  erewrite M_bind_run; [|unfold lift; by rewrite Eb]. rewrite land_bit by done.
  assert (in_use s k = Z.testbit byte (k mod BPB mod 8)) as Eu.
  { unfold in_use, bit_of. by rewrite Hd; cbn; rewrite Hbyte. }
  rewrite Eu. destruct (Z.testbit byte (k mod BPB mod 8)) eqn:Et; cbn [negb]; [|done].
  pose proof (lookup_lt_Some _ _ _ Hbyte).
  erewrite M_bind_run; [|unfold lift; rewrite arr_set_in by (Z.div_mod_to_equations; lia); done].
  unfold log_write. rewrite Hd. cbn [opt mbind outcome_bind]. eexists. split; [done|].
  split; try done.
  - intros z Hz. erewrite (in_use_set s k d byte); [|lia|done|done| |reflexivity|lia].
    2:{ intros j Hj Hne. rewrite ldiff_bit, bool_decide_false by done. done. }
    case_decide as E; [|by rewrite bool_decide_false].
    rewrite ldiff_bit, !bool_decide_true by done. done.
  - intros x Hx. cbn. by rewrite lookup_insert_ne by done.
Qed.

(** [balloc] returns the lowest block whose bit is clear, sets that bit
    and no other, zeroes the block and leaves all other blocks but the bitmap
    as they were; it panics exactly when every block is in use. *)
Theorem balloc_correct (s : fs) :
  bitmap_ok s →
  (∃ k s', balloc s = Ret (k, s') ∧ 0 ≤ k < sb_size (sb s) ∧ in_use s k = false ∧
     (∀ j, 0 ≤ j < k → in_use s j = true) ∧
     (∀ z, 0 ≤ z < sb_size (sb s) → in_use s' z = bool_decide (z = k) || in_use s z) ∧
     blk s' !! k = Some (replicate (Z.to_nat BSIZE) 0) ∧
     (∀ x, x ≠ k → x ≠ BBLOCK k s → blk s' !! x = blk s !! x) ∧ bitmap_ok s') ∨
  (balloc s = Panic "balloc: out of blocks" ∧ ∀ j, 0 ≤ j < sb_size (sb s) → in_use s j = true).
Proof.
  intros Hok. destruct (balloc_spec s Hok) as [(k & s' & E & Hk & [A1 A2 A3 A4 A5 A6 A7] & Hj)|H];
    [left|by right].
  exists k, s'. split_and!; (done || lia).
Qed.

(** [bfree] clears the bit of a block in use, and only that; freeing a
    block whose bit is clear panics.  After freeing the block [balloc] just
    returned the bitmap is what it was. *)
Theorem bfree_correct (s : fs) (k : Z) :
  bitmap_ok s → sb_ok s → 0 ≤ k < sb_size (sb s) →
  (in_use s k = true →
     ∃ s', bfree k s = Ret (tt, s') ∧
       (∀ z, 0 ≤ z < sb_size (sb s) → in_use s' z = negb (bool_decide (z = k)) && in_use s z) ∧
       (∀ x, x ≠ BBLOCK k s → blk s' !! x = blk s !! x)) ∧
  (in_use s k = false → bfree k s = Panic "freeing free block") ∧
  (∀ b s1, balloc s = Ret (b, s1) → sb_ok s1 →
     ∃ s2, bfree b s1 = Ret (tt, s2) ∧ ∀ z, 0 ≤ z < sb_size (sb s) → in_use s2 z = in_use s z).
Proof.
  intros Hok Hsb Hk. pose proof (bfree_spec s k Hok Hsb Hk) as Hf. split_and!.
  - intros Hu. rewrite Hu in Hf. destruct Hf as (s' & E & [F1 F2 F3 F4]). exists s'. by split_and!.
  - intros Hu. by rewrite Hu in Hf.
  - intros b s1 Hb Hsb1.
    destruct (balloc_spec s Hok) as [(b' & s1' & E & Hb' & [A1 A2 A3 A4 A5 A6 A7] & _)|[E _]];
      [|by rewrite E in Hb].
    rewrite E in Hb. injection Hb as <- <-.
    pose proof (bfree_spec s1' b' A7 Hsb1) as Hf2. rewrite A5 in Hf2. specialize (Hf2 Hb').
    rewrite A2, bool_decide_true in Hf2 by done. cbn in Hf2.
    destruct Hf2 as (s2 & E2 & [F1 _ _ _]). exists s2. split; [done|].
    intros z Hz. rewrite F1 by (by rewrite A5). rewrite A2 by done.
    case_bool_decide; [subst; by rewrite A1|done].
Qed.

(** A disk of 20 blocks with its super block in block 1 and its bitmap in
    block 3; blocks 0 to 5 are in use. *)
Definition demo_sb : superblock := SuperBlock 20 14 8 0 2 2 3.
Definition demo_sb_block : list Z :=
  [20; 0; 0; 0; 14; 0; 0; 0; 8; 0; 0; 0; 0; 0; 0; 0; 2; 0; 0; 0; 2; 0; 0; 0; 3; 0; 0; 0] ++ replicate 484 0.
Definition demo_fs : fs :=
  Fs (<[1 := demo_sb_block]> (<[3 := 63 :: replicate 511 0]>
        (list_to_map ((λ b, (b, replicate 512 0)) <$> seqZ 0 20)))) demo_sb [].

Lemma demo_bitmap_ok : bitmap_ok demo_fs.
Proof.
  assert (∀ b, 0 ≤ b < 20 → BBLOCK b demo_fs = 3) as HB.
  { intros b Hb. unfold BBLOCK, BPB. cbn [sb demo_fs bmapstart demo_sb]. rewrite Z.div_small by lia. done. }
  assert (∀ b, 0 ≤ b < 20 → ∃ d, blk demo_fs !! b = Some d ∧ length d = 512%nat) as Hblk.
  { intros b Hb. assert (b ∈ seqZ 0 20) as Hin by (apply elem_of_seqZ; lia).
    unfold seqZ in Hin. cbn in Hin.
    repeat (apply elem_of_cons in Hin as [->|Hin]; [eexists; split; vm_compute; reflexivity|]).
    by apply not_elem_of_nil in Hin. }
  split; cbn [sb demo_fs demo_sb sb_size].
  - done.
  - intros b Hb. rewrite HB by done. apply Hblk. lia.
  - intros b Hb Hf. split; [destruct (Hblk b Hb) as (d & -> & _); done|]. intros b' Hb'.
    rewrite HB by done. intros <-. vm_compute in Hf. done.
Qed.

Lemma balloc_correct_witness : ∃ s', balloc demo_fs = Ret (6, s') ∧ in_use s' 6 = true ∧ in_use s' 7 = false.
Proof.
  destruct (balloc_correct demo_fs demo_bitmap_ok) as [(k & s' & E & Hk & Hf & Hj & Hz & _)|[_ Hall]].
  - assert (k = 6) as ->.
    { destruct (decide (k = 6)) as [|Hne]; [done|]. exfalso.
      destruct (decide (k < 6)) as [Hlt|]; [|specialize (Hj 6 ltac:(lia)); vm_compute in Hj; done].
      assert (k = 0 ∨ k = 1 ∨ k = 2 ∨ k = 3 ∨ k = 4 ∨ k = 5) as Hcase by lia.
      destruct Hcase as [->|[->|[->|[->|[->| ->]]]]]; vm_compute in Hf; done. }
    exists s'. split_and!; [exact E|rewrite Hz by done; done|]. rewrite Hz by done. vm_compute. done.
  - specialize (Hall 6 ltac:(done)). vm_compute in Hall. done.
Defined.

Lemma bfree_correct_witness :
  (∃ s', bfree 5 demo_fs = Ret (tt, s') ∧ in_use s' 5 = false) ∧ bfree 9 demo_fs = Panic "freeing free block".
Proof.
  assert (sb_ok demo_fs) as Hsb by (vm_compute; done). split.
  - destruct (bfree_correct demo_fs 5 demo_bitmap_ok Hsb) as (H & _); [done|].
    destruct H as (s' & E & Hz & _); [vm_compute; done|]. exists s'. split; [exact E|].
    rewrite Hz by done. done.
  - destruct (bfree_correct demo_fs 9 demo_bitmap_ok Hsb) as (_ & H & _); [done|].
    apply H. vm_compute. done.
Defined.
