(* ===== verification/FsCache.v ===== *)
(** * The inode cache of the file system ([iget], [idup], [iput])

    The reference count of an entry is the number of pointers to it that the
    rest of the kernel holds, and an inode in use is cached once.  The
    theorems are about any sequence of the operations of [fs.c] that touch the
    cache. *)

From stdpp Require Import base numbers list gmap sets strings relations.
From S2P Require Import Prelude Spinlock Fs.

Open Scope Z_scope.

(** ** What an operation leaves alone *)

(** The identity, the reference count and the lock of the entries; what a
    theorem needs of them is a function of these. *)
Definition idt : Type := Z * Z * Z * sleeplock.
Definition ident (x : inode) : idt := (dev x, inum x, ref x, ilk x).
Definition view {K} (g : idt → K) (s : fs) : list K := (λ x, g (ident x)) <$> icache s.

Definition key_of (i : idt) : Z * Z * Z := i.1.
Definition key (x : inode) : Z * Z * Z := (dev x, inum x, ref x).
Notation keys := (view key_of).

(** Run in [s], the operation [m] does not change the view. *)
Definition keepsv {K A} (g : idt → K) (s : fs) (m : M fs A) : Prop :=
  ∀ a s', m s = Ret (a, s') → view g s' = view g s.
(** It changes no key. *)
Notation keeps := (keepsv key_of).

Lemma keeps_bind {K} {g : idt → K} {A B} s (m : M fs A) (k : A → M fs B) :
  keepsv g s m → (∀ a s', view g s' = view g s → keepsv g s' (k a)) → keepsv g s (m ≫= k).
Proof.
  intros Hm Hk b s' E. unfold mbind, M_bind in E. inv_ret. destruct x as [a s1].
  rewrite (Hk a s1) by (try done; by eapply Hm). by eapply Hm.
Qed.

Lemma keeps_ret {K} {g : idt → K} {A} s (a : A) : keepsv g s (mret a).
Proof. by intros ? ? [= <- <-]. Qed.
Lemma keeps_panic {K} {g : idt → K} {A} s msg : keepsv g s (panic (A:=A) msg).
Proof. by intros ? ? [=]. Qed.
Lemma keeps_lift {K} {g : idt → K} {A} s (o : outcome A) : keepsv g s (lift o).
Proof. intros ? ? E. unfold lift in E. inv_ret. by simplify_eq. Qed.
Lemma keeps_get_st {K} {g : idt → K} s : keepsv g s get_st.
Proof. by intros ? ? [= <- <-]. Qed.
Lemma keeps_bread {K} {g : idt → K} s b : keepsv g s (bread b).
Proof. intros ? ? E. unfold bread in E. inv_ret. by simplify_eq. Qed.
Lemma keeps_log_write {K} {g : idt → K} s b d : keepsv g s (log_write b d).
Proof. intros ? ? E. unfold log_write in E. inv_ret. by simplify_eq. Qed.
Lemma keeps_set_sb {K} {g : idt → K} s x : keepsv g s (set_sb x).
Proof. by intros ? ? [= <- <-]. Qed.

(** Reading an entry, and storing it back with the same key. *)
Lemma keeps_get_inode {K} {g : idt → K} {B} s ip (k : inode → M fs B) :
  (∀ x, icache s !! ip = Some x → keepsv g s (k x)) → keepsv g s (get_inode ip ≫= k).
Proof.
  intros Hk b s' E. unfold mbind, M_bind, get_inode in E.
  destruct (icache s !! ip) as [x|] eqn:Ex; [|done]. by eapply (Hk x).
Qed.
Lemma keeps_bind_lift {K} {g : idt → K} {A B} s (o : outcome A) (k : A → M fs B) :
  (∀ a, keepsv g s (k a)) → keepsv g s (lift o ≫= k).
Proof.
  intros Hk b s' E. unfold mbind, M_bind, lift in E. destruct o as [a| | |]; try done. by eapply (Hk a).
Qed.
Lemma keeps_bind_bread {K} {g : idt → K} {B} s b (k : list Z → M fs B) :
  (∀ d, keepsv g s (k d)) → keepsv g s (bread b ≫= k).
Proof.
  intros Hk a s' E. unfold mbind, M_bind, bread in E. destruct (blk s !! b) as [d|]; [|done].
  by eapply (Hk d).
Qed.
Lemma keeps_bind_get_st {K} {g : idt → K} {B} s (k : fs → M fs B) : keepsv g s (k s) → keepsv g s (get_st ≫= k).
Proof. intros Hk a s' E. by apply (Hk a s'). Qed.
Lemma keeps_set_inode {K} {g : idt → K} s ip x y : icache s !! ip = Some x → g (ident y) = g (ident x) → keepsv g s (set_inode ip y).
Proof.
  intros Hx Hk ? ? [= <- <-]. unfold view, set_icache. cbn [icache]. rewrite list_fmap_insert, Hk.
  apply list_insert_id. by rewrite list_lookup_fmap, Hx.
Qed.
Lemma keeps_for_loop {K} {g : idt → K} body : (∀ i s, keepsv g s (body i)) → ∀ n from s, keepsv g s (for_loop from n body).
Proof.
  intros Hb. induction n as [|n IH]; intros from s; cbn [for_loop]; [apply keeps_ret|].
  apply keeps_bind; [apply Hb|]. intros ? s' _. apply IH.
Qed.

Create HintDb keeps.
#[export] Hint Resolve keeps_ret keeps_panic keeps_lift keeps_get_st keeps_bread keeps_log_write
  keeps_set_sb : keeps.

(** Walk through an operation. *)
Ltac keeps :=
  repeat first
    [ progress intros
    | match goal with
      | |- keepsv _ _ (get_inode _ ≫= _) => apply keeps_get_inode
      | |- keepsv _ _ (lift _ ≫= _) => apply keeps_bind_lift
      | |- keepsv _ _ (bread _ ≫= _) => apply keeps_bind_bread
      | |- keepsv _ _ (get_st ≫= _) => apply keeps_bind_get_st
      | |- keepsv _ _ (_ ≫= _) => apply keeps_bind
      | |- keepsv _ _ (let _ := _ in _) => cbv zeta
      | |- keepsv _ _ (match ?o with _ => _ end) => destruct o eqn:?
      end
    | solve [eauto with keeps]
    | solve [eapply keeps_set_inode; [eassumption|reflexivity]] ].

Lemma keeps_load_sb {K} {g : idt → K} s : keepsv g s load_sb.
Proof. unfold load_sb, readsb. keeps. Qed.
#[export] Hint Resolve keeps_load_sb : keeps.
Lemma keeps_bzero {K} {g : idt → K} s b : keepsv g s (bzero b).
Proof. unfold bzero. keeps. Qed.
#[export] Hint Resolve keeps_bzero : keeps.
Lemma keeps_balloc_loop {K} {g : idt → K} n : ∀ b s, keepsv g s (balloc_loop b n).
Proof. induction n as [|n IH]; intros b s; cbn [balloc_loop]; keeps. Qed.
#[export] Hint Resolve keeps_balloc_loop : keeps.
Lemma keeps_balloc {K} {g : idt → K} s : keepsv g s balloc.
Proof. unfold balloc. keeps. Qed.
Lemma keeps_bfree {K} {g : idt → K} s b : keepsv g s (bfree b).
Proof. unfold bfree. keeps. Qed.
#[export] Hint Resolve keeps_balloc keeps_bfree : keeps.
Lemma keeps_iupdate {K} {g : idt → K} s ip : keepsv g s (iupdate ip).
Proof. unfold iupdate. keeps. Qed.
Lemma keeps_acquire s ip : keeps s (acquire_inode ip).
Proof. unfold acquire_inode. keeps. Qed.
Lemma keeps_release s ip : keeps s (release_inode ip).
Proof. unfold release_inode. keeps. Qed.
#[export] Hint Resolve keeps_iupdate keeps_acquire keeps_release : keeps.
Lemma keeps_ilock s ipp : keeps s (ilock ipp).
Proof. unfold ilock. keeps. Qed.
Lemma keeps_iunlock s ipp : keeps s (iunlock ipp).
Proof. unfold iunlock. keeps. Qed.
Lemma keeps_bmap {K} {g : idt → K} s ip bn : keepsv g s (bmap ip bn).
Proof. unfold bmap. keeps. Qed.
#[export] Hint Resolve keeps_ilock keeps_iunlock keeps_bmap : keeps.
Lemma keeps_itrunc {K} {g : idt → K} s ip : keepsv g s (itrunc ip).
Proof.
  unfold itrunc. assert (∀ i s, keepsv g s (free_direct ip i)) as H1 by (unfold free_direct; keeps).
  assert (∀ ind j s, keepsv g s (free_indirect ind j)) as H2 by (unfold free_indirect; keeps).
  pose proof (keeps_for_loop _ H1). pose proof (λ ind, keeps_for_loop _ (H2 ind)). keeps.
Qed.
#[export] Hint Resolve keeps_itrunc : keeps.

Section drivers.
Context (dev_read : Z → option (nat → Z → M fs (Z * list Z))).
Context (dev_write : Z → option (nat → list Z → M fs Z)).
(** Drivers may unlock and lock the inode, not count references. *)
Context {K} {g : idt → K}.
Context (Hread : ∀ m f ip n s, dev_read m = Some f → keepsv g s (f ip n)).
Context (Hwrite : ∀ m f ip src s, dev_write m = Some f → keepsv g s (f ip src)).

Lemma keeps_readi_loop ip fuel : ∀ off n tot s, keepsv g s (readi_loop ip off n tot fuel).
Proof. induction fuel as [|fuel IH]; intros off n tot s; cbn [readi_loop]; keeps. Qed.
Lemma keeps_readi s ip off n : keepsv g s (readi dev_read ip off n).
Proof.
  pose proof keeps_readi_loop. unfold readi. keeps.
Qed.
Lemma keeps_writei_loop ip fuel : ∀ src off n tot s, keepsv g s (writei_loop ip src off n tot fuel).
Proof. induction fuel as [|fuel IH]; intros src off n tot s; cbn [writei_loop]; keeps. Qed.
Lemma keeps_writei s ip src off n : keepsv g s (writei dev_write ip src off n).
Proof.
  pose proof keeps_writei_loop. unfold writei. keeps.
Qed.
End drivers.

(** ** The scan of [iget] *)
Definition cached (d n : Z) (x : inode) : Prop := 0 < ref x ∧ dev x = d ∧ inum x = n.

Lemma iget_scan_spec l d n i e :
  match iget_scan l d n i e with
  | inl j => ∃ k x, j = (i + k)%nat ∧ l !! k = Some x ∧ cached d n x
  | inr o => (∀ x, x ∈ l → ¬ cached d n x) ∧
      match o with
      | None => e = None ∧ ∀ x, x ∈ l → ref x ≠ 0
      | Some j => e = Some j ∨ e = None ∧ ∃ k x, j = (i + k)%nat ∧ l !! k = Some x ∧ ref x = 0
      end
  end.
Proof.
  revert i e. induction l as [|x l IH]; intros i e; cbn [iget_scan].
  { split; [by intros x ?%not_elem_of_nil|]. destruct e; [by left|]. split; [done|]. by intros x ?%not_elem_of_nil. }
  destruct ((0 <? ref x) && (dev x =? d) && (inum x =? n)) eqn:Ec.
  { bool_to_prop. exists 0%nat, x. rewrite Nat.add_0_r. done. }
  assert (¬ cached d n x) as Hnc.
  { intros (H1 & H2 & H3). apply Z.ltb_lt in H1. apply Z.eqb_eq in H2, H3. by rewrite H1, H2, H3 in Ec. }
  set (e' := match e with Some _ => e | None => if ref x =? 0 then Some i else None end).
  specialize (IH (S i) e'). destruct (iget_scan l d n (S i) e') as [j|o].
  - destruct IH as (k & y & -> & Hk & Hy). exists (S k), y. split; [lia|done].
  - destruct IH as [Hn Ho]. split.
    { intros y [->|Hy]%elem_of_cons; [done|by apply Hn]. }
    destruct o as [j|].
    + destruct Ho as [Ho|(Ho & k & y & -> & Hk & Hy)].
      * destruct e as [i'|]; cbn in e'; subst e'; [by left|]. right. split; [done|].
        destruct (ref x =? 0) eqn:E0; bool_to_prop; [|done]. injection Ho as <-.
        exists 0%nat, x. rewrite Nat.add_0_r. done.
      * destruct e as [i'|]; cbn in e'; subst e'; [done|]. right. split; [done|].
        exists (S k), y. split; [lia|done].
    + destruct Ho as [Ho Hall]. destruct e as [i'|]; cbn in e'; subst e'; [done|]. split; [done|].
      destruct (ref x =? 0) eqn:E0; bool_to_prop; [done|].
      intros y [->|Hy]%elem_of_cons; [done|by apply Hall].
Qed.

(** ** The system: the cache and the pointers held *)
Record isys := ISys { ifs : fs; iptrs : list nat }.

Section system.
Context (dev_read : Z → option (nat → Z → M fs (Z * list Z))).
Context (dev_write : Z → option (nat → list Z → M fs Z)).

(** [iget] and [idup] create a pointer, [iput] gives one up; the other
    operations are called with a pointer to an entry. *)
Inductive istep : isys → isys → Prop :=
  | istep_iget d n s i s' ps :
      iget d n s = Ret (i, s') → istep (ISys s ps) (ISys s' (i :: ps))
  | istep_ialloc d t s i s' ps :
      ialloc d t s = Ret (i, s') → istep (ISys s ps) (ISys s' (i :: ps))
  | istep_idup i s s' ps :
      i ∈ ps → idup i s = Ret (i, s') → istep (ISys s ps) (ISys s' (i :: ps))
  | istep_iput i s s' ps ps' :
      ps ≡ₚ i :: ps' → iput i s = Ret (tt, s') → istep (ISys s ps) (ISys s' ps')
  | istep_ilock i s s' ps : ilock (Some i) s = Ret (tt, s') → istep (ISys s ps) (ISys s' ps)
  | istep_iunlock i s s' ps : iunlock (Some i) s = Ret (tt, s') → istep (ISys s ps) (ISys s' ps)
  | istep_iupdate i s s' ps : iupdate i s = Ret (tt, s') → istep (ISys s ps) (ISys s' ps)
  | istep_itrunc i s s' ps : itrunc i s = Ret (tt, s') → istep (ISys s ps) (ISys s' ps)
  | istep_readi i off n r s s' ps :
      readi dev_read i off n s = Ret (r, s') → istep (ISys s ps) (ISys s' ps)
  | istep_writei i src off n r s s' ps :
      writei dev_write i src off n s = Ret (r, s') → istep (ISys s ps) (ISys s' ps).

(** The counts are right and an inode in use has one entry. *)
Record iinv (ks : list (Z * Z * Z)) (ps : list nat) : Prop := {
  inv_count i k : ks !! i = Some k → k.2 = Z.of_nat (length (filter (eq i) ps));
  inv_held i : i ∈ ps → (i < length ks)%nat;
  inv_unique i j k k' : ks !! i = Some k → ks !! j = Some k' → 0 < k.2 → 0 < k'.2 →
    k.1 = k'.1 → i = j
}.

Lemma count_cons (i j : nat) (ps : list nat) :
  length (filter (eq i) (j :: ps)) = ((if decide (i = j) then 1 else 0) + length (filter (eq i) ps))%nat.
Proof. rewrite filter_cons. by case_decide. Qed.

Lemma keys_set s ip y : keys (set_icache s (<[ip := y]> (icache s))) = <[ip := key y]> (keys s).
Proof. unfold view, set_icache. cbn [icache]. by rewrite list_fmap_insert. Qed.

Lemma keys_lookup s i k : keys s !! i = Some k ↔ ∃ x, icache s !! i = Some x ∧ k = key x.
Proof. unfold view. rewrite list_lookup_fmap_Some. naive_solver. Qed.

(** Changing one key together with the pointers. *)
Lemma iinv_set ks ps ps' i k k' :
  iinv ks ps → ks !! i = Some k → k'.2 = Z.of_nat (length (filter (eq i) ps')) →
  (∀ j, j ≠ i → length (filter (eq j) ps') = length (filter (eq j) ps)) →
  (∀ j, j ∈ ps' → j = i ∨ j ∈ ps) →
  (0 < k'.2 → ∀ j kj, j ≠ i → ks !! j = Some kj → 0 < kj.2 → kj.1 ≠ k'.1) →
  iinv (<[i := k']> ks) ps'.
Proof.
  intros [Hc Hh Hu] Hi Hk' Hj Hin Hne. pose proof (lookup_lt_Some _ _ _ Hi) as Hlt. split.
  - intros j kj Hl. destruct (decide (j = i)) as [->|Hji].
    + rewrite list_lookup_insert_eq in Hl by done. by injection Hl as <-.
    + rewrite list_lookup_insert_ne in Hl by done. rewrite Hj by done. by apply Hc.
  - intros j [->|Hp]%Hin; rewrite length_insert; [done|by apply Hh].
  - intros j1 j2 k1 k2 H1 H2 Hp1 Hp2 E.
    destruct (decide (j1 = i)) as [->|N1], (decide (j2 = i)) as [->|N2]; [done|..].
    + rewrite list_lookup_insert_eq in H1 by done. injection H1 as <-.
      rewrite list_lookup_insert_ne in H2 by done. by destruct (Hne Hp1 j2 k2 N2 H2 Hp2).
    + rewrite list_lookup_insert_eq in H2 by done. injection H2 as <-.
      rewrite list_lookup_insert_ne in H1 by done. by destruct (Hne Hp2 j1 k1 N1 H1 Hp1).
    + rewrite list_lookup_insert_ne in H1, H2 by done. by eapply Hu.
Qed.

Lemma count_other (i j : nat) (ps : list nat) :
  j ≠ i → length (filter (eq j) (i :: ps)) = length (filter (eq j) ps).
Proof. intros Hn. rewrite count_cons. by rewrite decide_False. Qed.
Lemma count_self (i : nat) (ps : list nat) :
  length (filter (eq i) (i :: ps)) = S (length (filter (eq i) ps)).
Proof. rewrite count_cons. by rewrite decide_True. Qed.

(** One more pointer to a referenced entry. *)
Lemma iinv_bump s ps i x :
  iinv (keys s) ps → icache s !! i = Some x → 0 < ref x →
  iinv (keys (set_icache s (<[i := set_ref x (ref x + 1)]> (icache s)))) (i :: ps).
Proof.
  intros Hi Hx Hp. assert (keys s !! i = Some (key x)) as Hk by (apply keys_lookup; eauto).
  rewrite keys_set. eapply iinv_set; [done|done| | | |].
  - rewrite count_self. pose proof (inv_count _ _ Hi _ _ Hk). cbn in *. lia.
  - intros j. apply count_other.
  - by intros j Hj%elem_of_cons.
  - intros _ j kj Hne Hj Hpj E. apply Hne. by eapply (inv_unique _ _ Hi j i kj (key x)).
Qed.

Lemma iget_inv d n s i s' ps :
  iinv (keys s) ps → iget d n s = Ret (i, s') →
  iinv (keys s') (i :: ps) ∧ ∃ x, icache s' !! i = Some x ∧ cached d n x.
Proof.
  intros Hi E. unfold iget in E. erewrite M_bind_run in E by done.
  pose proof (iget_scan_spec (icache s) d n 0 None) as Hs.
  destruct (iget_scan (icache s) d n 0 None) as [j|[j|]]; [| |done].
  - destruct Hs as (k & x & -> & Hx & Hc). cbn [Nat.add] in *.
    erewrite M_bind_run in E; [|unfold get_inode; by rewrite Hx].
    injection E as <- <-. split; [apply iinv_bump; [done|done|apply Hc]|].
    exists (set_ref x (ref x + 1)). cbn [icache set_icache].
    rewrite list_lookup_insert_eq by (by eapply lookup_lt_Some). split; [done|].
    destruct Hc as (H1 & H2 & H3). unfold cached. cbn [ref set_ref dev inum]. split_and!; [lia|done..].
  - destruct Hs as [Hn [?|(_ & k & x & -> & Hx & H0)]]; [done|]. cbn [Nat.add] in *.
    erewrite M_bind_run in E; [|unfold get_inode; by rewrite Hx]. injection E as <- <-.
    assert (keys s !! k = Some (key x)) as Hk by (apply keys_lookup; eauto). split.
    + rewrite keys_set. eapply iinv_set; [done|done| | | |].
      * rewrite count_self. pose proof (inv_count _ _ Hi _ _ Hk) as Hc. cbn in *. lia.
      * intros j. apply count_other.
      * by intros j Hj%elem_of_cons.
      * intros _ j kj _ Hj Hp Ej. apply keys_lookup in Hj as (y & Hy & ->).
        apply (Hn y); [by eapply list_elem_of_lookup_2|]. by injection Ej.
    + eexists. cbn [icache set_icache]. rewrite list_lookup_insert_eq by (by eapply lookup_lt_Some).
      split; [done|]. unfold cached. cbn. lia.
Qed.

(** Running [iget] follows its scan. *)
Lemma iget_run d n s :
  match iget_scan (icache s) d n 0 None with
  | inl i | inr (Some i) => ∃ s', iget d n s = Ret (i, s')
  | inr None => iget d n s = Panic "iget: no inodes"
  end.
Proof.
  unfold iget. erewrite M_bind_run by done. pose proof (iget_scan_spec (icache s) d n 0 None) as Hs.
  destruct (iget_scan (icache s) d n 0 None) as [j|[j|]]; [| |done].
  - destruct Hs as (k & x & -> & Hx & _). cbn [Nat.add]. eexists.
    erewrite M_bind_run; [|unfold get_inode; by rewrite Hx]. done.
  - destruct Hs as [_ [?|(_ & k & x & -> & Hx & _)]]; [done|]. cbn [Nat.add]. eexists.
    erewrite M_bind_run; [|unfold get_inode; by rewrite Hx]. done.
Qed.

Lemma ialloc_loop_inv d t cnt : ∀ n s i s' ps,
  iinv (keys s) ps → ialloc_loop d t n cnt s = Ret (i, s') → iinv (keys s') (i :: ps).
Proof.
  induction cnt as [|cnt IH]; intros n s i s' ps Hi E; cbn [ialloc_loop] in E; [done|].
  apply M_bind_Ret in E as (s0 & s1 & [= <- <-] & E).
  apply M_bind_Ret in E as (b & s1 & E1%(keeps_bread (g:=key_of)) & E).
  apply M_bind_Ret in E as (ty & s2 & E2%(keeps_lift (g:=key_of)) & E). destruct (ty =? 0).
  - apply M_bind_Ret in E as (b1 & s3 & E3%(keeps_lift (g:=key_of)) & E).
    apply M_bind_Ret in E as (b2 & s4 & E4%(keeps_lift (g:=key_of)) & E).
    apply M_bind_Ret in E as ([] & s5 & E5%(keeps_log_write (g:=key_of)) & E).
    eapply (iget_inv d n s5); [|done]. by rewrite E5, E4, E3, E2, E1.
  - eapply IH; [|done]. by rewrite E2, E1.
Qed.

(** [iput] up to the decrement keeps the keys. *)
Lemma iput_keys i s s' :
  iput i s = Ret (tt, s') →
  ∃ k, keys s !! i = Some k ∧ keys s' = <[i := (k.1, k.2 - 1)]> (keys s).
Proof.
  intros E. unfold iput in E.
  apply M_bind_Ret in E as ([] & s1 & E1%keeps_acquire & E).
  apply M_bind_Ret in E as (x & s2 & E2 & E).
  assert (keys s2 = keys s1) as K2 by (unfold get_inode in E2; by inv_ret; simplify_eq).
  apply M_bind_Ret in E as ([] & s3 & E3 & E).
  assert (keys s3 = keys s2) as K3.
  { match type of E3 with ?m _ = _ => assert (keeps s2 m) as Hm by keeps end. by apply Hm in E3. }
  apply M_bind_Ret in E as ([] & s4 & E4%keeps_release & E).
  apply M_bind_Ret in E as (y & s5 & E5 & E). unfold get_inode in E5. inv_ret. simplify_eq.
  injection E as <-. rewrite keys_set. exists (key y). rewrite <-E1, <-K2, <-K3, <-E4. split; [|done].
  apply keys_lookup. eauto.
Qed.

Lemma iput_inv i s s' ps ps' :
  iinv (keys s) ps → ps ≡ₚ i :: ps' → iput i s = Ret (tt, s') → iinv (keys s') ps'.
Proof.
  intros Hi Hp E. apply iput_keys in E as (k & Hk & ->).
  assert (∀ j, length (filter (eq j) ps) = length (filter (eq j) (i :: ps'))) as Hl.
  { intros j. apply Permutation_length. by rewrite Hp. }
  pose proof (inv_count _ _ Hi _ _ Hk) as Hc. rewrite Hl, count_self in Hc.
  eapply iinv_set; [done|done| | | |].
  - cbn. lia.
  - intros j Hne. by rewrite Hl, count_other.
  - intros j Hj. right. rewrite Hp. by right.
  - intros Hpos j kj Hne Hj Hpj Ej. apply Hne. eapply (inv_unique _ _ Hi j i kj k); cbn in *; (done || lia).
Qed.

(** ** Reachable caches *)
Context (Hread : ∀ m f ip n s, dev_read m = Some f → keeps s (f ip n)).
Context (Hwrite : ∀ m f ip src s, dev_write m = Some f → keeps s (f ip src)).

Lemma istep_inv σ σ' : istep σ σ' → iinv (keys (ifs σ)) (iptrs σ) → iinv (keys (ifs σ')) (iptrs σ').
Proof.
  pose proof (keeps_readi dev_read (g:=key_of) Hread) as Hr. pose proof (keeps_writei dev_write (g:=key_of) Hwrite) as Hw.
  destruct 1 as [d n s i s' ps E|d t s i s' ps E|i s s' ps Hin E|i s s' ps ps' Hp E|? ? ? ? E|? ? ? ? E|? ? ? ? E|
    ? ? ? ? E|? ? ? ? ? ? ? E|? ? ? ? ? ? ? ? E]; cbn [ifs iptrs]; intros Hi.
  - by eapply iget_inv.
  - unfold ialloc in E. erewrite M_bind_run in E by done. by eapply ialloc_loop_inv.
  - unfold idup in E. apply M_bind_Ret in E as (x & s1 & E1 & E). unfold get_inode in E1.
    inv_ret. simplify_eq. injection E as <-. apply iinv_bump; [done|done|].
    assert (keys s1 !! i = Some (key x)) as Hk by (apply keys_lookup; eauto).
    pose proof (inv_count _ _ Hi _ _ Hk) as Hc. cbn in Hc. rewrite Hc.
    assert (i ∈ filter (eq i) ps) as Hf by (by apply list_elem_of_filter).
    destruct (filter (eq i) ps); [by apply not_elem_of_nil in Hf|cbn; lia].
  - by eapply iput_inv.
  - by rewrite (keeps_ilock _ _ _ _ E).
  - by rewrite (keeps_iunlock _ _ _ _ E).
  - by rewrite (keeps_iupdate (g:=key_of) _ _ _ _ E).
  - by rewrite (keeps_itrunc (g:=key_of) _ _ _ _ E).
  - by rewrite (Hr _ _ _ _ _ _ E).
  - by rewrite (Hw _ _ _ _ _ _ _ E).
Qed.

Lemma reachable_inv s σ :
  Forall (λ x, ref x = 0) (icache s) → rtc istep (ISys s []) σ → iinv (keys (ifs σ)) (iptrs σ).
Proof.
  intros H0 Hr. assert (iinv (keys s) []) as Hi.
  { assert (∀ i k, keys s !! i = Some k → k.2 = 0) as Hz.
    { intros i k (x & Hx & ->)%keys_lookup. exact (Forall_lookup_1 _ _ _ _ H0 Hx). }
    split; [intros i k Hk%Hz; by rewrite Hk|by intros i ?%not_elem_of_nil|].
    intros i j k k' Hk%Hz Hk'%Hz. lia. }
  revert Hi. change (iinv (keys (ifs (ISys s []))) (iptrs (ISys s [])) → iinv (keys (ifs σ)) (iptrs σ)).
  clear H0. induction Hr as [|σ1 σ2 σ3 Hst _ IH]; [done|]. intros Hi. by eapply IH, istep_inv.
Qed.
End system.

(** C21. The inode cache: in every state reachable from an empty cache by
    [iget], [ialloc], [idup], [iput] and the operations on locked inodes, the
    reference count of an entry is the number of pointers held to it; no two
    entries in use cache the same inode; and [iget] yields an entry that
    caches the inode it was asked for, failing only when every entry is in
    use and none caches that inode. *)
Theorem icache_references dev_read dev_write (s0 : fs) (σ : isys) :
  (∀ m f ip n s, dev_read m = Some f → keeps s (f ip n)) →
  (∀ m f ip src s, dev_write m = Some f → keeps s (f ip src)) →
  Forall (λ x, ref x = 0) (icache s0) → rtc (istep dev_read dev_write) (ISys s0 []) σ →
  (∀ i x, icache (ifs σ) !! i = Some x → ref x = Z.of_nat (length (filter (eq i) (iptrs σ)))) ∧
  (∀ i j x y, icache (ifs σ) !! i = Some x → icache (ifs σ) !! j = Some y →
     0 < ref x → 0 < ref y → dev x = dev y → inum x = inum y → i = j) ∧
  (∀ d n, match iget d n (ifs σ) with
          | Ret (i, s') => ∃ x, icache s' !! i = Some x ∧ cached d n x ∧
              (∀ j y, icache (ifs σ) !! j = Some y → cached d n y → j = i)
          | Panic _ => ∀ j y, icache (ifs σ) !! j = Some y → 0 < ref y ∧ ¬ cached d n y
          | _ => False
          end).
Proof.
  intros Hr Hw H0 Hreach. pose proof (reachable_inv _ _ Hr Hw _ _ H0 Hreach) as Hi.
  assert (∀ i x, icache (ifs σ) !! i = Some x → keys (ifs σ) !! i = Some (key x)) as Hk.
  { intros i x Hx. apply keys_lookup. eauto. }
  assert (∀ i j x y, icache (ifs σ) !! i = Some x → icache (ifs σ) !! j = Some y →
     0 < ref x → 0 < ref y → dev x = dev y → inum x = inum y → i = j) as Hu.
  { intros i j x y Hx%Hk Hy%Hk Hpx Hpy Hd Hn. eapply (inv_unique _ _ Hi); try done. cbn. congruence. }
  split_and!; [|exact Hu|].
  - intros i x Hx%Hk. apply (inv_count _ _ Hi) in Hx. exact Hx.
  - intros d n. pose proof (iget_run d n (ifs σ)) as Hrun.
    pose proof (iget_scan_spec (icache (ifs σ)) d n 0 None) as Hs.
    destruct (iget_scan (icache (ifs σ)) d n 0 None) as [i|[i|]].
    + destruct Hrun as [s' E]. rewrite E. destruct (iget_inv d n _ _ _ _ Hi E) as [_ (x & Hx & Hc)].
      exists x. split_and!; [done..|]. destruct Hs as (k & z & -> & Hz & Hz1 & Hz2 & Hz3).
      intros j y Hy (Hp & Hd & Hn). eapply (Hu j k y z); congruence.
    + destruct Hrun as [s' E]. rewrite E. destruct (iget_inv d n _ _ _ _ Hi E) as [_ (x & Hx & Hc)].
      exists x. split_and!; [done..|]. destruct Hs as [Hn _].
      intros j y Hy%list_elem_of_lookup_2 Hcy. by destruct (Hn y Hy).
    + rewrite Hrun. destruct Hs as (Hn & _ & Hz). intros j y Hy.
      pose proof (inv_count _ _ Hi _ _ (Hk _ _ Hy)) as Hc. cbn in Hc. apply list_elem_of_lookup_2 in Hy.
      pose proof (Hz y Hy). split; [lia|by apply Hn].
Qed.

(** Two pointers to inode 1 of device 1 from an empty cache. *)
Definition empty_inode : inode := Inode 0 0 0 initsleeplock 0 0 0 0 0 0 (replicate 13 0).
Definition demo_cache : fs := Fs ∅ (SuperBlock 0 0 0 0 0 0 0) (replicate 50 empty_inode).
Definition run_st {A} (s : fs) (m : M fs A) : fs := match m s with Ret (_, s') => s' | _ => s end.

Lemma icache_references_witness :
  ∃ s, rtc (istep (λ _, None) (λ _, None)) (ISys demo_cache []) (ISys s [0%nat; 0%nat]) ∧
    ref <$> (icache s !! 0%nat) = Some 2.
Proof.
  set (s1 := run_st demo_cache (iget 1 1)). set (s2 := run_st s1 (idup 0)).
  assert (rtc (istep (λ _, None) (λ _, None)) (ISys demo_cache []) (ISys s2 [0%nat; 0%nat])) as Hr.
  { eapply rtc_l; [apply (istep_iget _ _ 1 1 _ 0 s1); vm_compute; reflexivity|].
    eapply rtc_once, istep_idup; [by left|vm_compute; reflexivity]. }
  exists s2. split; [exact Hr|].
  destruct (icache_references (λ _, None) (λ _, None) demo_cache (ISys s2 [0%nat; 0%nat])) as (Hc & _).
  - intros m f ip n s E. discriminate E.
  - intros m f ip src s E. discriminate E.
  - apply Forall_replicate. reflexivity.
  - exact Hr.
  - destruct (icache s2 !! 0%nat) as [x|] eqn:E; [|vm_compute in E; discriminate E].
    cbn. rewrite (Hc 0%nat x E). reflexivity.
Defined.
