(* ===== verification/FsInode.v ===== *)
(** * Inodes on disk ([iupdate], [ilock])

    Bytes in the middle of a block, little-endian integers, and the encoding of
    an inode in its 64 bytes of the inode block. *)

From stdpp Require Import base numbers list gmap sets strings.
From S2P Require Import Prelude Spinlock Fs FsBlocks.

Open Scope Z_scope.

(** ** Bytes stored in the middle of a block *)
Definition splice (d : list Z) (o : nat) (bs : list Z) : list Z :=
  take o d ++ bs ++ drop (o + length bs) d.

Lemma splice_length d o bs : (o + length bs ≤ length d)%nat → length (splice d o bs) = length d.
Proof. intros H. unfold splice. rewrite !length_app, length_take, length_drop. lia. Qed.

Lemma splice_lookup d o bs i : (o + length bs ≤ length d)%nat →
  splice d o bs !! i = if decide (o ≤ i < o + length bs)%nat then bs !! (i - o)%nat else d !! i.
Proof.
  intros H. unfold splice. assert (length (take o d) = o) as Hl by (rewrite length_take; lia).
  case_decide as Hd.
  - rewrite lookup_app_r, Hl, lookup_app_l by lia. done.
  - destruct (decide (i < o)%nat).
    + rewrite lookup_app_l by lia. rewrite lookup_take_lt by lia. done.
    + rewrite lookup_app_r, Hl, lookup_app_r by lia. rewrite lookup_drop. f_equal. lia.
Qed.

Lemma splice_splice d o a b : (o + length a + length b ≤ length d)%nat →
  splice (splice d o a) (o + length a) b = splice d o (a ++ b).
Proof.
  intros H. apply list_eq. intros i.
  rewrite !splice_lookup by (rewrite ?splice_length, ?length_app by lia; lia).
  rewrite length_app. repeat case_decide; try lia; try done.
  - rewrite lookup_app_r by lia. f_equal. lia.
  - rewrite lookup_app_l by lia. done.
Qed.

Lemma splice_next d o k a b : k = length a → (o + k + length b ≤ length d)%nat →
  splice (splice d o a) (o + k) b = splice d o (a ++ b).
Proof. intros ->. apply splice_splice. Qed.

Lemma arr_set_splice d o v : (o < length d)%nat → arr_set d (Z.of_nat o) v = Ret (splice d o [v]).
Proof.
  intros H. rewrite arr_set_in, Nat2Z.id by lia. f_equal. apply list_eq. intros i.
  rewrite splice_lookup by (cbn; lia). cbn [length]. case_decide as Hd.
  - assert (i = o) as -> by lia. rewrite list_lookup_insert_eq by done. by rewrite Nat.sub_diag.
  - rewrite list_lookup_insert_ne by lia. done.
Qed.

(** ** Little-endian integers *)
Definition le16 (v : Z) : list Z := [u8 v; u8 (v / 256)].
Definition le32 (v : Z) : list Z := le16 v ++ le16 (v / 65536).
Definition le32s (ws : list Z) : list Z := concat (le32 <$> ws).

Lemma le32s_length ws : length (le32s ws) = (4 * length ws)%nat.
Proof. induction ws as [|w ws IH]; [done|]. unfold le32s in *. cbn [fmap list_fmap concat]. rewrite length_app, IH. cbn. lia. Qed.

Lemma put16_splice d o v : (o + 2 ≤ length d)%nat → put16 d (Z.of_nat o) v = Ret (splice d o (le16 v)).
Proof.
  intros H. unfold put16. rewrite arr_set_splice by lia. cbn [mbind outcome_bind].
  replace (Z.of_nat o + 1) with (Z.of_nat (o + length [u8 v])) by (cbn; lia).
  rewrite arr_set_splice by (rewrite splice_length; cbn; lia). by rewrite splice_splice by (cbn; lia).
Qed.

Lemma put32_splice d o v : (o + 4 ≤ length d)%nat → put32 d (Z.of_nat o) v = Ret (splice d o (le32 v)).
Proof.
  intros H. unfold put32. rewrite put16_splice by lia. cbn [mbind outcome_bind].
  replace (Z.of_nat o + 2) with (Z.of_nat (o + length (le16 v))) by (cbn; lia).
  rewrite put16_splice by (rewrite splice_length; cbn; lia). by rewrite splice_splice by (cbn; lia).
Qed.

Lemma put32s_splice ws : ∀ d o, (o + 4 * length ws ≤ length d)%nat →
  put32s d (Z.of_nat o) ws = Ret (splice d o (le32s ws)).
Proof.
  induction ws as [|w ws IH]; intros d o H; cbn [put32s length] in *.
  { f_equal. unfold splice. cbn. by rewrite Nat.add_0_r, take_drop. }
  rewrite put32_splice by lia. cbn [mbind outcome_bind].
  replace (Z.of_nat o + 4) with (Z.of_nat (o + length (le32 w))) by (cbn; lia).
  assert (length (le32 w) = 4%nat) as Hl by done.
  rewrite IH by (rewrite splice_length; lia). rewrite splice_splice by (rewrite le32s_length; lia). done.
Qed.

(** Reading depends on the bytes read only. *)
Lemma get16_ext d d' o o' : (∀ k, (k < 2)%nat → d !! (o + k)%nat = d' !! (o' + k)%nat) →
  get16 d (Z.of_nat o) = get16 d' (Z.of_nat o').
Proof.
  intros H. unfold get16. replace (Z.of_nat o + 1) with (Z.of_nat (o + 1)) by lia.
  replace (Z.of_nat o' + 1) with (Z.of_nat (o' + 1)) by lia. rewrite !arr_get_nat.
  rewrite <-(H 1%nat) by lia. specialize (H 0%nat ltac:(lia)). rewrite !Nat.add_0_r in H. by rewrite H.
Qed.
Lemma get32_ext d d' o o' : (∀ k, (k < 4)%nat → d !! (o + k)%nat = d' !! (o' + k)%nat) →
  get32 d (Z.of_nat o) = get32 d' (Z.of_nat o').
Proof.
  intros H. unfold get32. rewrite (get16_ext d d' o o') by (intros; apply H; lia).
  replace (Z.of_nat o + 2) with (Z.of_nat (o + 2)) by lia.
  replace (Z.of_nat o' + 2) with (Z.of_nat (o' + 2)) by lia.
  rewrite (get16_ext d d' (o + 2) (o' + 2)); [done|]. intros k Hk. rewrite <-!Nat.add_assoc. apply H. lia.
Qed.
Lemma get32s_ext d d' cnt : ∀ o o', (∀ k, (k < 4 * cnt)%nat → d !! (o + k)%nat = d' !! (o' + k)%nat) →
  get32s d (Z.of_nat o) cnt = get32s d' (Z.of_nat o') cnt.
Proof.
  induction cnt as [|cnt IH]; intros o o' H; cbn [get32s]; [done|].
  rewrite (get32_ext d d' o o') by (intros; apply H; lia).
  replace (Z.of_nat o + 4) with (Z.of_nat (o + 4)) by lia.
  replace (Z.of_nat o' + 4) with (Z.of_nat (o' + 4)) by lia.
  rewrite (IH (o + 4)%nat (o' + 4)%nat); [done|]. intros k Hk. rewrite <-!Nat.add_assoc. apply H. lia.
Qed.

(** Reading back what was stored. *)
Lemma get16_le16 v r : get16 (le16 v ++ r) 0 = Ret (v mod 65536).
Proof.
  change (Ret (u8 v + 256 * u8 (v / 256)) = Ret (v mod 65536)). f_equal. unfold u8.
  change (2 ^ 8) with 256. Z.div_mod_to_equations. lia.
Qed.

Lemma get32_le32 v r : get32 (le32 v ++ r) 0 = Ret (v mod 2 ^ 32).
Proof.
  unfold get32, le32. rewrite <-app_assoc, get16_le16. cbn [mbind outcome_bind].
  change (0 + 2) with (Z.of_nat 2). rewrite (get16_ext _ (le16 (v / 65536) ++ r) 2 0) by done.
  change (Z.of_nat 0) with 0. rewrite get16_le16. cbn [mbind outcome_bind]. f_equal.
  change (2 ^ 32) with (65536 * 65536). Z.div_mod_to_equations. lia.
Qed.

Lemma get32s_le32s ws r : Forall (λ w, 0 ≤ w < 2 ^ 32) ws → get32s (le32s ws ++ r) 0 (length ws) = Ret ws.
Proof.
  induction 1 as [|w ws Hw Hf IH]; [done|]. cbn [length get32s]. unfold le32s. cbn [fmap list_fmap concat].
  fold (le32s ws). rewrite <-app_assoc, get32_le32. cbn [mbind outcome_bind].
  change (0 + 4) with (Z.of_nat 4).
  rewrite (get32s_ext _ (le32s ws ++ r) _ 4 0) by done. change (Z.of_nat 0) with 0. rewrite IH.
  cbn [mbind outcome_bind]. by rewrite Z.mod_small.
Qed.

Lemma i16_mod v : - 32768 ≤ v < 32768 → i16 (v mod 65536) = v.
Proof. intros H. unfold i16. Z.div_mod_to_equations. lia. Qed.

(** ** The on-disk inode *)
Definition dinode_bytes (x : inode) : list Z :=
  le16 (type x) ++ le16 (major x) ++ le16 (minor x) ++ le16 (nlink x) ++ le32 (size x) ++ le32s (addrs x).

(** The fields fit their C types. *)
Record inode_ok (x : inode) : Prop := {
  ok_type : - 32768 ≤ type x < 32768;
  ok_major : - 32768 ≤ major x < 32768;
  ok_minor : - 32768 ≤ minor x < 32768;
  ok_nlink : - 32768 ≤ nlink x < 32768;
  ok_size : 0 ≤ size x < 2 ^ 32;
  ok_addrs : Forall (λ w, 0 ≤ w < 2 ^ 32) (addrs x);
  ok_naddrs : length (addrs x) = 13%nat
}.

Lemma dinode_bytes_length x : length (addrs x) = 13%nat → length (dinode_bytes x) = 64%nat.
Proof. intros H. unfold dinode_bytes. rewrite !length_app, le32s_length, H. done. Qed.

Lemma dip_off_nat n : dip_off n = Z.of_nat (Z.to_nat (dip_off n)) ∧ (Z.to_nat (dip_off n) + 64 ≤ 512)%nat.
Proof. unfold dip_off, IPB. Z.div_mod_to_equations. lia. Qed.

(** The six stores of [iupdate] are one. *)
Lemma put_dinode d o x : (o + 64 ≤ length d)%nat → length (addrs x) = 13%nat →
  (d ← put16 d (Z.of_nat o) (type x);
   d ← put16 d (Z.of_nat o + 2) (major x);
   d ← put16 d (Z.of_nat o + 4) (minor x);
   d ← put16 d (Z.of_nat o + 6) (nlink x);
   d ← put32 d (Z.of_nat o + 8) (size x);
   put32s d (Z.of_nat o + 12) (addrs x)) = Ret (splice d o (dinode_bytes x)).
Proof.
  intros Hd Ha. assert (∀ v, length (le16 v) = 2%nat) as H16 by done.
  assert (∀ v, length (le32 v) = 4%nat) as H32 by done.
  assert (∀ k, Z.of_nat o + Z.of_nat k = Z.of_nat (o + k)) as Hk by lia.
  rewrite (Hk 2%nat : Z.of_nat o + 2 = _), (Hk 4%nat : Z.of_nat o + 4 = _), (Hk 6%nat : Z.of_nat o + 6 = _),
    (Hk 8%nat : Z.of_nat o + 8 = _), (Hk 12%nat : Z.of_nat o + 12 = _).
  rewrite put16_splice by lia. cbn [mbind outcome_bind].
  do 3 (rewrite put16_splice by (rewrite splice_length; rewrite ?length_app, ?H16; lia);
        cbn [mbind outcome_bind]; rewrite splice_next by (rewrite ?length_app, ?H16; lia)).
  rewrite put32_splice by (rewrite splice_length; rewrite ?length_app, ?H16; lia).
  cbn [mbind outcome_bind]. rewrite splice_next by (rewrite ?length_app, ?H16, ?H32; lia).
  rewrite put32s_splice by (rewrite splice_length; rewrite ?length_app, ?H16, ?H32, ?Ha; lia).
  rewrite splice_next by (rewrite ?length_app, ?H16, ?H32, ?le32s_length, ?Ha; lia).
  unfold dinode_bytes. by rewrite <-!app_assoc.
Qed.

Lemma iupdate_run s ip x d :
  icache s !! ip = Some x → length (addrs x) = 13%nat →
  blk s !! IBLOCK (inum x) s = Some d → length d = 512%nat →
  iupdate ip s = Ret (tt, set_blk s (<[IBLOCK (inum x) s :=
    splice d (Z.to_nat (dip_off (inum x))) (dinode_bytes x)]> (blk s))).
Proof.
  intros Hx Ha Hb Hd. destruct (dip_off_nat (inum x)) as [Ho Hlt]. rewrite <-Hd in Hlt.
  pose proof (put_dinode _ _ _ Hlt Ha) as Hput. rewrite <-Ho in Hput.
  unfold iupdate. erewrite M_bind_run; [|unfold get_inode; by rewrite Hx].
  erewrite M_bind_run by done. erewrite M_bind_run; [|unfold bread; by rewrite Hb].
  cbv zeta. do 5 (apply bind_Ret in Hput as (? & E & Hput);
    erewrite M_bind_run; [|unfold lift; by rewrite E]; clear E).
  erewrite M_bind_run; [|unfold lift; by rewrite Hput]. unfold log_write. by rewrite Hb.
Qed.

(** What [ilock] reads of the bytes [iupdate] stored. *)
Lemma get_dinode d o x : (o + 64 ≤ length d)%nat → inode_ok x →
  let d := splice d o (dinode_bytes x) in let o := Z.of_nat o in
  get16 d o = Ret (type x mod 65536) ∧ get16 d (o + 2) = Ret (major x mod 65536) ∧
  get16 d (o + 4) = Ret (minor x mod 65536) ∧ get16 d (o + 6) = Ret (nlink x mod 65536) ∧
  get32 d (o + 8) = Ret (size x) ∧ get32s d (o + 12) 13 = Ret (addrs x).
Proof.
  intros Hd [_ _ _ _ Hsz Hf Ha]. cbv zeta. pose proof (dinode_bytes_length x Ha) as Hlen.
  assert (∀ k j, (k + j < 64)%nat →
    splice d o (dinode_bytes x) !! (o + k + j)%nat = drop k (dinode_bytes x) !! (0 + j)%nat) as Hl.
  { intros k j Hj. rewrite splice_lookup by lia. rewrite decide_True by lia.
    rewrite lookup_drop. f_equal. lia. }
  assert (∀ k, Z.of_nat o + Z.of_nat k = Z.of_nat (o + k)) as Hk by lia.
  rewrite (Hk 2%nat : Z.of_nat o + 2 = _), (Hk 4%nat : Z.of_nat o + 4 = _), (Hk 6%nat : Z.of_nat o + 6 = _),
    (Hk 8%nat : Z.of_nat o + 8 = _), (Hk 12%nat : Z.of_nat o + 12 = _).
  replace (Z.of_nat o) with (Z.of_nat (o + 0)) by lia.
  rewrite (get16_ext _ (drop 0 (dinode_bytes x)) _ 0), (get16_ext _ (drop 2 (dinode_bytes x)) (o + 2) 0),
    (get16_ext _ (drop 4 (dinode_bytes x)) (o + 4) 0), (get16_ext _ (drop 6 (dinode_bytes x)) (o + 6) 0),
    (get32_ext _ (drop 8 (dinode_bytes x)) (o + 8) 0), (get32s_ext _ (drop 12 (dinode_bytes x)) _ (o + 12) 0)
    by (intros; apply Hl; lia).
  change (Z.of_nat 0) with 0. unfold dinode_bytes.
  change (drop 0 ?l) with l. rewrite get16_le16.
  change (drop 2 (le16 _ ++ ?l)) with l. rewrite get16_le16.
  change (drop 4 (le16 _ ++ le16 _ ++ ?l)) with l. rewrite get16_le16.
  change (drop 6 (le16 _ ++ le16 _ ++ le16 _ ++ ?l)) with l. rewrite get16_le16.
  change (drop 8 (le16 _ ++ le16 _ ++ le16 _ ++ le16 _ ++ ?l)) with l.
  rewrite get32_le32, (Z.mod_small (size x)) by done.
  change (drop 12 (le16 _ ++ le16 _ ++ le16 _ ++ le16 _ ++ le32 _ ++ ?l)) with l.
  rewrite <-(app_nil_r (le32s (addrs x))), <-Ha, get32s_le32s by done. done.
Qed.

(** The cache entry [y] filled with the disk copy of [x]. *)
Definition filled (x y : inode) : inode :=
  Inode (dev y) (inum y) (ref y) (SLock 1 0) 1 (type x) (major x) (minor x) (nlink x) (size x) (addrs x).

Lemma ilock_run s ip y x d :
  icache s !! ip = Some y → 1 ≤ ref y → s_locked (ilk y) = 0 → valid y = 0 → inode_ok x → type x ≠ 0 →
  (512 = length d)%nat → blk s !! IBLOCK (inum y) s = Some (splice d (Z.to_nat (dip_off (inum y))) (dinode_bytes x)) →
  ilock (Some ip) s = Ret (tt, set_icache s (<[ip := filled x y]> (icache s))).
Proof.
  intros Hy Hr Hlk Hv Hok Ht Hd Hb. destruct (dip_off_nat (inum y)) as [Ho Hlt]. rewrite Hd in Hlt.
  destruct (get_dinode _ _ _ Hlt Hok) as (G1 & G2 & G3 & G4 & G5 & G6). rewrite <-Ho in *.
  pose proof (lookup_lt_Some _ _ _ Hy) as Hip. destruct Hok.
  unfold ilock. erewrite M_bind_run; [|unfold get_inode; by rewrite Hy].
  destruct (ref y <? 1) eqn:E; bool_to_prop; [lia|].
  erewrite M_bind_run.
  2:{ unfold acquire_inode. erewrite M_bind_run; [|unfold get_inode; by rewrite Hy].
      unfold acquiresleep. rewrite Hlk. done. }
  rewrite Hv, Z.eqb_refl. erewrite M_bind_run by done.
  erewrite M_bind_run; [|unfold bread, IBLOCK in *; cbn [sb set_icache blk]; by rewrite Hb]. cbv zeta.
  erewrite M_bind_run; [|unfold lift; by rewrite G1]. erewrite M_bind_run; [|unfold lift; by rewrite G2].
  erewrite M_bind_run; [|unfold lift; by rewrite G3]. erewrite M_bind_run; [|unfold lift; by rewrite G4].
  erewrite M_bind_run; [|unfold lift; by rewrite G5]. erewrite M_bind_run; [|unfold lift; by rewrite G6].
  erewrite M_bind_run; [|unfold get_inode; cbn [icache set_icache]; by rewrite list_lookup_insert_eq].
  rewrite !i16_mod by done. erewrite M_bind_run by done.
  apply Z.eqb_neq in Ht. rewrite Ht. unfold mret, M_ret, set_icache. cbn [icache blk sb].
  by rewrite list_insert_insert_eq.
Qed.

(** The bytes of the on-disk inode [n]. *)
Definition dinode_of (s : fs) (n : Z) : option (list Z) :=
  take 64 ∘ drop (Z.to_nat (dip_off n)) <$> blk s !! IBLOCK n s.

Lemma splice_other d o bs o' k : (o + length bs ≤ length d)%nat → (o' + k ≤ o ∨ o + length bs ≤ o')%nat →
  take k (drop o' (splice d o bs)) = take k (drop o' d).
Proof.
  intros Hl Hd. apply list_eq. intros i. destruct (decide (i < k)%nat).
  - rewrite !lookup_take_lt, !lookup_drop, splice_lookup by lia. rewrite decide_False by lia. done.
  - rewrite !lookup_take_ge by lia. done.
Qed.

(** C20. Inodes survive the cache: [iupdate] of an inode whose fields fit
    their C types never fails on an inode block of the disk, changes no other
    block and no other on-disk inode, and any later [ilock] of a recycled
    cache entry for the same inode number reads back exactly the type, device
    numbers, link count, size and block addresses that were stored. *)
Theorem inode_disk_roundtrip (s : fs) (ip : nat) (x : inode) (d : list Z) :
  icache s !! ip = Some x → inode_ok x → type x ≠ 0 → 0 ≤ inum x →
  blk s !! IBLOCK (inum x) s = Some d → length d = 512%nat →
  ∃ s', iupdate ip s = Ret (tt, s') ∧ icache s' = icache s ∧
    (∀ b, b ≠ IBLOCK (inum x) s → blk s' !! b = blk s !! b) ∧
    (∀ n, 0 ≤ n → n ≠ inum x → dinode_of s' n = dinode_of s n) ∧
    ∀ s2 jp y, blk s2 = blk s' → sb s2 = sb s' → icache s2 !! jp = Some y → inum y = inum x →
      1 ≤ ref y → s_locked (ilk y) = 0 → valid y = 0 →
      ilock (Some jp) s2 = Ret (tt, set_icache s2 (<[jp := filled x y]> (icache s2))).
Proof.
  intros Hx Hok Ht Hn Hb Hd. pose proof (ok_naddrs _ Hok) as Ha.
  destruct (dip_off_nat (inum x)) as [Ho Hlt]. pose proof (dinode_bytes_length x Ha) as Hlen.
  eexists. split; [by eapply iupdate_run|]. split_and!; [done| | |].
  - intros b Hne. unfold set_blk. cbn [blk]. by rewrite lookup_insert_ne.
  - intros n Hn0 Hne. unfold dinode_of, IBLOCK, set_blk. cbn [blk sb]. fold (IBLOCK n s). fold (IBLOCK (inum x) s).
    destruct (decide (IBLOCK n s = IBLOCK (inum x) s)) as [E|E]; [|by rewrite lookup_insert_ne].
    rewrite E, lookup_insert_eq, Hb. cbn [fmap option_fmap option_map]. f_equal. unfold compose. apply splice_other; [lia|].
    rewrite Hlen. clear -Hn Hn0 Hne E. unfold IBLOCK, dip_off, IPB in *.
    assert (n / 8 = inum x / 8) as E' by lia. clear E. Z.div_mod_to_equations. lia.
  - intros s2 jp y Hb2 Hsb Hy En Hr Hlk Hv. eapply ilock_run; try done.
    rewrite Hb2. unfold set_blk, IBLOCK in *. cbn [blk sb] in *. rewrite Hsb, En. by rewrite lookup_insert_eq.
Qed.

Definition demo_inode : inode := Inode 1 9 1 initsleeplock 1 2 0 0 1 700 ([20; 21] ++ replicate 11 0).
Definition demo_ifs : fs :=
  Fs {[5 := replicate 512 0]} (SuperBlock 40 20 32 0 2 4 7)
    [demo_inode; Inode 1 9 1 initsleeplock 0 0 0 0 0 0 (replicate 13 0)].

Lemma inode_disk_roundtrip_witness :
  ∃ s', iupdate 0 demo_ifs = Ret (tt, s') ∧
    match ilock (Some 1%nat) s' with
    | Ret (_, s2) => (addrs <$> icache s2 !! 1%nat) = Some (addrs demo_inode) ∧ (size <$> icache s2 !! 1%nat) = Some 700
    | _ => False
    end.
Proof.
  destruct (inode_disk_roundtrip demo_ifs 0 demo_inode (replicate 512 0)) as (s' & E & Hi & _ & _ & Hl).
  - reflexivity.
  - split; cbn; try lia. repeat constructor; lia.
  - cbn. lia.
  - cbn. lia.
  - reflexivity.
  - reflexivity.
  - exists s'. split; [exact E|].
    assert (icache s' !! 1%nat = Some (Inode 1 9 1 initsleeplock 0 0 0 0 0 0 (replicate 13 0))) as Hy
      by (rewrite Hi; reflexivity).
    rewrite (Hl s' 1%nat _ eq_refl eq_refl Hy eq_refl ltac:(cbn; lia) eq_refl eq_refl), Hi.
    split; reflexivity.
Defined.
