(* ===== verification/FsFile.v ===== *)
(** * The contents of files ([bmap], [readi], [writei])

    The blocks of a file are its slots: 0 to 139 hold data, slot 140 is the
    indirect block.  The contents are a function from offsets to bytes; a slot
    without a block reads as zeros.  [bmap] extends the slots without changing
    the contents, [writei] replaces a range of the contents, [readi] returns a
    range of it. *)

From stdpp Require Import base numbers list gmap sets strings.
From S2P Require Import Prelude Spinlock Fs FsBlocks FsInode.

Open Scope Z_scope.

(** ** Slots and contents *)
Definition word (d : list Z) (j : Z) : Z := match get32 d (4 * j) with Ret w => w | _ => 0 end.
Definition block_at (s : fs) (b : Z) : list Z := default [] (blk s !! b).

Definition ind (x : inode) : Z := default 0 (addrs x !! 12%nat).
Definition INDIRECT : Z := 140.
(** The block number in slot [i], 0 when there is none. *)
Definition slot (s : fs) (x : inode) (i : Z) : Z :=
  if i <? 12 then default 0 (addrs x !! Z.to_nat i)
  else if i =? INDIRECT then ind x
  else if ind x =? 0 then 0 else word (block_at s (ind x)) (i - 12).
Definition fbyte (s : fs) (x : inode) (k : Z) : Z :=
  let p := slot s x (k / 512) in
  if p =? 0 then 0 else default 0 (block_at s p !! Z.to_nat (k mod 512)).

(** A block that may hold file contents. *)
Record data_block (s : fs) (b : Z) : Prop := {
  db_range : 0 < b < sb_size (sb s);
  db_used : in_use s b = true;
  db_bitmap b' : 0 ≤ b' < sb_size (sb s) → BBLOCK b' s ≠ b
}.

Record file_ok (s : fs) (ip : nat) (x : inode) : Prop := {
  f_inode : icache s !! ip = Some x;
  f_naddrs : length (addrs x) = 13%nat;
  f_bitmap : bitmap_ok s;
  f_size : 0 < sb_size (sb s) < 2 ^ 32;
  f_boot : in_use s 0 = true;
  f_disk b : 0 ≤ b < sb_size (sb s) → ∃ d, blk s !! b = Some d ∧ length d = 512%nat;
  f_slot i : 0 ≤ i ≤ INDIRECT → slot s x i ≠ 0 → data_block s (slot s x i);
  f_inj i j : 0 ≤ i ≤ INDIRECT → 0 ≤ j ≤ INDIRECT → slot s x i ≠ 0 → slot s x i = slot s x j → i = j
}.

(** ** Changes that keep the bitmap *)
Lemma in_use_frame s s' b :
  sb s' = sb s → (∀ b', 0 ≤ b' < sb_size (sb s) → blk s' !! BBLOCK b' s = blk s !! BBLOCK b' s) →
  0 ≤ b < sb_size (sb s) → in_use s' b = in_use s b.
Proof. intros Hs Hb Hr. unfold in_use. rewrite (BBLOCK_sb s s') by done. by rewrite Hb. Qed.

Lemma bitmap_frame s s' :
  bitmap_ok s → sb s' = sb s →
  (∀ b', 0 ≤ b' < sb_size (sb s) → blk s' !! BBLOCK b' s = blk s !! BBLOCK b' s) →
  (∀ b, is_Some (blk s !! b) → is_Some (blk s' !! b)) → bitmap_ok s'.
Proof.
  intros [H1 H2 H3] Hs Hb Hsome. split; rewrite ?Hs; [done|..].
  - intros b Hr. rewrite (BBLOCK_sb s s'), Hb by done. by apply H2.
  - intros b Hr Hf. rewrite (in_use_frame s s') in Hf by done. destruct (H3 b Hr Hf) as [? Hn].
    split; [by apply Hsome|]. intros b' Hr'. rewrite (BBLOCK_sb s s') by done. by apply Hn.
Qed.

(** Equal but for one data block [p], which stays whole. *)
Record changed_at (s s' : fs) (p : Z) : Prop := {
  ch_sb : sb s' = sb s;
  ch_other b : b ≠ p → blk s' !! b = blk s !! b;
  ch_whole : p ≠ 0 → ∃ d, blk s' !! p = Some d ∧ length d = 512%nat
}.

Section changed.
Context (s s' : fs) (p : Z) (Hch : changed_at s s' p) (Hp : p = 0 ∨ data_block s p).
Context (Hz : p = 0 → blk s' !! p = blk s !! p).

Lemma changed_bitmap b' : 0 ≤ b' < sb_size (sb s) → blk s' !! BBLOCK b' s = blk s !! BBLOCK b' s.
Proof.
  intros Hr. destruct (decide (BBLOCK b' s = p)) as [E|E]; [|by apply (ch_other _ _ _ Hch)].
  destruct Hp as [H0|Hd]; [rewrite E; by apply Hz|]. by destruct (db_bitmap _ _ Hd b' Hr).
Qed.

Lemma changed_in_use b : 0 ≤ b < sb_size (sb s) → in_use s' b = in_use s b.
Proof. apply in_use_frame; [apply (ch_sb _ _ _ Hch)|apply changed_bitmap]. Qed.

Lemma changed_some b : is_Some (blk s !! b) → is_Some (blk s' !! b).
Proof.
  intros H. destruct (decide (b = p)) as [->|E]; [|by rewrite (ch_other _ _ _ Hch)].
  destruct Hp as [H0|Hd]; [by rewrite Hz|]. destruct (ch_whole _ _ _ Hch) as (d & -> & _); [|done].
  pose proof (db_range _ _ Hd). lia.
Qed.

Lemma changed_bitmap_ok : bitmap_ok s → bitmap_ok s'.
Proof.
  intros H. eapply bitmap_frame; [done|apply (ch_sb _ _ _ Hch)|apply changed_bitmap|apply changed_some].
Qed.

Lemma changed_data_block b : data_block s b → data_block s' b.
Proof.
  intros [H1 H2 H3]. pose proof (ch_sb _ _ _ Hch) as Es. split; rewrite ?Es; [done|..].
  - rewrite changed_in_use; [done|lia].
  - intros b' Hr. rewrite (BBLOCK_sb s s') by done. by apply H3.
Qed.

Lemma changed_disk :
  (∀ b, 0 ≤ b < sb_size (sb s) → ∃ d, blk s !! b = Some d ∧ length d = 512%nat) →
  ∀ b, 0 ≤ b < sb_size (sb s) → ∃ d, blk s' !! b = Some d ∧ length d = 512%nat.
Proof.
  intros H b Hr. destruct (decide (b = p)) as [->|E]; [|rewrite (ch_other _ _ _ Hch) by done; by apply H].
  destruct (decide (p = 0)) as [E0|E0]; [rewrite Hz by done; by apply H|by apply (ch_whole _ _ _ Hch)].
Qed.
End changed.

(** ** Extending a file *)
Record grows (s : fs) (ip : nat) (x : inode) (s' : fs) (x' : inode) : Prop := {
  gr_sb : sb s' = sb s;
  gr_others j : j ≠ ip → icache s' !! j = icache s !! j;
  gr_meta : x' = set_addrs x (addrs x');
  gr_slots i : 0 ≤ i ≤ INDIRECT → slot s x i ≠ 0 → slot s' x' i = slot s x i;
  gr_new i : 0 ≤ i ≤ INDIRECT → slot s x i = 0 → slot s' x' i ≠ 0 → in_use s (slot s' x' i) = false;
  gr_used b : 0 ≤ b < sb_size (sb s) → in_use s b = true → in_use s' b = true
}.

(** Only bitmap blocks, the indirect block and the slots in [lo, hi) changed. *)
Definition touches (s s' : fs) (x' : inode) (lo hi : Z) : Prop :=
  ∀ b, blk s' !! b ≠ blk s !! b →
    (∃ b', 0 ≤ b' < sb_size (sb s) ∧ b = BBLOCK b' s) ∨
    (b ≠ 0 ∧ (b = ind x' ∨ ∃ i, lo ≤ i < hi ∧ b = slot s' x' i)).

Definition same_bytes (s : fs) (x : inode) (s' : fs) (x' : inode) : Prop :=
  ∀ k, 0 ≤ k < 140 * 512 → fbyte s' x' k = fbyte s x k.

Lemma slot_ind s x : slot s x INDIRECT = ind x.
Proof. done. Qed.

Lemma set_addrs_id x : x = set_addrs x (addrs x).
Proof. by destruct x. Qed.

Lemma grows_refl s ip x : grows s ip x s x.
Proof. split; try done. apply set_addrs_id. Qed.

Lemma grows_trans s ip x s1 x1 s2 x2 :
  (∀ i, 0 ≤ i ≤ INDIRECT → slot s2 x2 i ≠ 0 → 0 < slot s2 x2 i < sb_size (sb s2)) →
  grows s ip x s1 x1 → grows s1 ip x1 s2 x2 → grows s ip x s2 x2.
Proof.
  intros Hr [A1 A2 A3 A4 A5 A6] [B1 B2 B3 B4 B5 B6]. split.
  - congruence.
  - intros j Hj. rewrite B2, A2 by done. done.
  - rewrite B3, A3. done.
  - intros i Hi Hn. rewrite B4 by (try done; by rewrite A4). by apply A4.
  - intros i Hi H0 Hn. destruct (decide (slot s1 x1 i = 0)) as [E|E].
    + destruct (in_use s (slot s2 x2 i)) eqn:Eu; [|done].
      apply A6 in Eu; [|specialize (Hr i Hi Hn); rewrite B1, A1 in Hr; lia]. by rewrite B5 in Eu.
    + rewrite B4 in Hn |- * by done. by apply A5.
  - intros b Hb Hu. apply B6; [by rewrite A1|]. by apply A6.
Qed.

Lemma touches_trans s s1 x1 s2 ip x2 lo lo2 m hi :
  lo ≤ lo2 → m ≤ hi → 0 ≤ lo → hi ≤ 140 → sb s1 = sb s → grows s1 ip x1 s2 x2 →
  touches s s1 x1 lo m → touches s1 s2 x2 lo2 hi → touches s s2 x2 lo hi.
Proof.
  intros Hlo Hm H0 H140 Hsb [B1 B2 B3 B4 B5 B6] T1 T2 b Hb. unfold touches in *.
  rewrite Hsb in T2. unfold BBLOCK in *. rewrite Hsb in T2.
  destruct (decide (blk s1 !! b = blk s !! b)) as [E|E].
  - destruct (T2 b) as [?|(? & [?|(i & Hi & ?)])]; [congruence|by left|right; by auto|].
    right. split; [done|]. right. exists i. split; [lia|done].
  - destruct (T1 b E) as [?|(Hn & [Eb|(i & Hi & Eb)])]; [by left|right|right].
    + split; [done|]. left. rewrite <-(slot_ind s1) in Eb. rewrite <-(slot_ind s2), B4; [done|unfold INDIRECT; lia|congruence].
    + split; [done|]. right. exists i. split; [lia|]. rewrite B4; [done|unfold INDIRECT; lia|congruence].
Qed.

(** *** Allocation *)
Section alloc.
Context (s : fs) (ip : nat) (x : inode) (k : Z) (s1 : fs).
Context (Hok : file_ok s ip x) (Hk : 0 ≤ k < sb_size (sb s)) (Hal : allocated s s1 k).

Lemma alloc_nonzero : k ≠ 0.
Proof. intros ->. pose proof (al_free _ _ _ Hal) as H. by rewrite (f_boot _ _ _ Hok) in H. Qed.

Lemma alloc_keeps p : data_block s p → p ≠ k ∧ blk s1 !! p = blk s !! p.
Proof.
  intros [H1 H2 H3]. assert (p ≠ k) as Hne.
  { intros ->. pose proof (al_free _ _ _ Hal). congruence. }
  split; [done|]. apply (al_other _ _ _ Hal); [done|]. intros ->. by destruct (H3 k Hk).
Qed.

Lemma alloc_slot i : 0 ≤ i ≤ INDIRECT → slot s1 x i = slot s x i ∧ slot s x i ≠ k.
Proof.
  intros Hi. assert (slot s1 x i = slot s x i) as E.
  { unfold slot. case_if; [done|]. case_if; [done|]. case_if; [done|]. unfold block_at.
    destruct (alloc_keeps (ind x)) as [_ ->]; [|done]. rewrite <-(slot_ind s). apply (f_slot _ _ _ Hok).
    - unfold INDIRECT. lia.
    - by rewrite slot_ind. }
  split; [done|]. intros Ek. pose proof alloc_nonzero.
  destruct (alloc_keeps (slot s x i)) as [? _]; [|done]. apply (f_slot _ _ _ Hok); [done|congruence].
Qed.

Lemma alloc_data_block p : data_block s p → data_block s1 p.
Proof.
  intros Hd. destruct Hd as [H1 H2 H3]. split; rewrite ?(al_sb _ _ _ Hal).
  - done.
  - rewrite (al_bits _ _ _ Hal) by lia. rewrite H2. apply orb_true_r.
  - intros b' Hr. rewrite (BBLOCK_sb s s1) by apply (al_sb _ _ _ Hal). by apply H3.
Qed.

Lemma alloc_new : data_block s1 k.
Proof.
  pose proof alloc_nonzero. destruct (bm_free _ (f_bitmap _ _ _ Hok) k Hk (al_free _ _ _ Hal)) as [_ Hn].
  split; rewrite ?(al_sb _ _ _ Hal); [lia| |].
  - rewrite (al_bits _ _ _ Hal) by done. by rewrite bool_decide_true.
  - intros b' Hr. rewrite (BBLOCK_sb s s1) by apply (al_sb _ _ _ Hal). by apply Hn.
Qed.

Lemma alloc_ok : file_ok s1 ip x.
Proof.
  pose proof (al_sb _ _ _ Hal) as Es. pose proof Hok as [F1 F2 F3 F4 F5 F6 F7 F8]. split; rewrite ?Es; try done.
  - by rewrite (al_icache _ _ _ Hal).
  - apply (al_ok _ _ _ Hal).
  - rewrite (al_bits _ _ _ Hal), F5 by lia. apply orb_true_r.
  - intros b Hb. destruct (decide (b = k)) as [->|Hne]; [rewrite (al_zero _ _ _ Hal); eauto|].
    destruct (decide (b = BBLOCK k s)) as [->|Hnb]; [|rewrite (al_other _ _ _ Hal) by done; by apply F6].
    rewrite <-(BBLOCK_sb s s1) by done. apply (bm_block _ (al_ok _ _ _ Hal)). by rewrite Es.
  - intros i Hi. destruct (alloc_slot i Hi) as [-> _]. intros Hn. by apply alloc_data_block, F7.
  - intros i j Hi Hj. destruct (alloc_slot i Hi) as [-> _]. destruct (alloc_slot j Hj) as [-> _].
    by apply F8.
Qed.

Lemma alloc_bytes : same_bytes s x s1 x.
Proof.
  intros o Ho. unfold fbyte. assert (0 ≤ o / 512 ≤ INDIRECT) as Hi by (unfold INDIRECT; Z.div_mod_to_equations; lia).
  destruct (alloc_slot _ Hi) as [-> _]. case_if as E; [done|]. unfold block_at.
  destruct (alloc_keeps (slot s x (o / 512))) as [_ ->]; [|done]. by apply (f_slot _ _ _ Hok).
Qed.
End alloc.

(** *** Storing the new block in a slot *)
Lemma link_ok s ip x s' x' i0 k :
  file_ok s ip x → data_block s k → blk s !! k = Some zero_bytes →
  (∀ i, 0 ≤ i ≤ INDIRECT → slot s x i ≠ k) → 0 ≤ i0 ≤ INDIRECT → slot s x i0 = 0 →
  changed_at s s' (ind x) → (ind x = 0 → blk s' !! ind x = blk s !! ind x) →
  icache s' !! ip = Some x' → length (addrs x') = 13%nat →
  (∀ i, 0 ≤ i ≤ INDIRECT → slot s' x' i = if decide (i = i0) then k else slot s x i) →
  file_ok s' ip x' ∧ same_bytes s x s' x'.
Proof.
  intros Hok Hk Hzero Hnk Hi0 H0 Hch Hz Hx Hl Hs. pose proof Hok as [F1 F2 F3 F4 F5 F6 F7 F8].
  assert (ind x = 0 ∨ data_block s (ind x)) as Hind.
  { destruct (decide (ind x = 0)); [by left|right]. rewrite <-(slot_ind s). apply F7; [unfold INDIRECT; lia|done]. }
  assert (k ≠ 0) as Hk0 by (destruct Hk; lia).
  pose proof (ch_sb _ _ _ Hch) as Es. split.
  - split; rewrite ?Es; try done.
    + by eapply changed_bitmap_ok.
    + rewrite (changed_in_use s s' (ind x)) by (done || lia). done.
    + by eapply changed_disk.
    + intros i Hi. rewrite Hs by done. case_decide; intros Hn; eapply changed_data_block; try done. by apply F7.
    + intros i j Hi Hj. rewrite !Hs by done. repeat case_decide; subst; try done.
      * intros _ E. by destruct (Hnk j Hj).
      * intros _ E. by destruct (Hnk i Hi).
      * by apply F8.
  - intros o Ho. unfold fbyte. assert (0 ≤ o / 512 < 140) as Hi by (Z.div_mod_to_equations; lia).
    rewrite Hs by (unfold INDIRECT; lia). case_decide as Ei.
    + apply Z.eqb_neq in Hk0. rewrite Ei, H0, Z.eqb_refl, Hk0. unfold block_at.
      rewrite (ch_other _ _ _ Hch), Hzero.
      * cbn [default from_option id]. unfold zero_bytes.
        destruct (replicate (Z.to_nat BSIZE) 0 !! _) eqn:E; [|done]. by apply lookup_replicate in E as [-> _].
      * intros E. apply (Hnk INDIRECT); [done|]. by rewrite slot_ind.
    + case_if as E0; [done|]. unfold block_at. rewrite (ch_other _ _ _ Hch); [done|].
      rewrite <-(slot_ind s). intros E. apply F8 in E; [|unfold INDIRECT; lia..|done]. unfold INDIRECT in E. lia.
Qed.

Section link.
Context (s : fs) (ip : nat) (x : inode) (k : Z) (s1 s' : fs) (x' : inode) (i0 : Z).
Context (Hok : file_ok s ip x) (Hk : 0 ≤ k < sb_size (sb s)) (Hal : allocated s s1 k).
Context (Hi0 : 0 ≤ i0 ≤ INDIRECT) (H0 : slot s x i0 = 0).
Context (Hch : changed_at s1 s' (ind x)) (Hz : ind x = 0 → blk s' !! ind x = blk s1 !! ind x).
Context (Hx : icache s' !! ip = Some x') (Hl : length (addrs x') = 13%nat).
Context (Hj : ∀ j, j ≠ ip → icache s' !! j = icache s1 !! j) (Hm : x' = set_addrs x (addrs x')).
Context (Hs : ∀ i, 0 ≤ i ≤ INDIRECT → slot s' x' i = if decide (i = i0) then k else slot s1 x i).

Lemma alloc_link :
  file_ok s' ip x' ∧ same_bytes s x s' x' ∧ grows s ip x s' x' ∧
  (∀ bn, i0 = INDIRECT ∨ i0 = bn → touches s s' x' bn (bn + 1)).
Proof.
  pose proof (alloc_nonzero s ip x k s1 Hok Hk Hal) as Hk0.
  assert (∀ i, 0 ≤ i ≤ INDIRECT → slot s1 x i = slot s x i ∧ slot s x i ≠ k) as Hsl
    by (intros; by eapply alloc_slot).
  pose proof (alloc_ok s ip x k s1 Hok Hk Hal) as Hok1.
  destruct (link_ok s1 ip x s' x' i0 k Hok1) as [Hok' Hb']; try done.
  { exact (alloc_new s ip x k s1 Hok Hk Hal). }
  { apply (al_zero _ _ _ Hal). }
  { intros i Hi. destruct (Hsl i Hi) as [-> ?]. done. }
  { by destruct (Hsl i0 Hi0) as [-> _]. }
  pose proof (ch_sb _ _ _ Hch) as Es. rewrite (al_sb _ _ _ Hal) in Es.
  assert (∀ i, 0 ≤ i ≤ INDIRECT → slot s x i ≠ 0 → slot s' x' i = slot s x i) as Hkeep.
  { intros i Hi Hn. rewrite Hs by done. rewrite decide_False by congruence. by apply Hsl. }
  split_and!; [done| | |].
  - intros o Ho. rewrite Hb' by done. by eapply alloc_bytes.
  - split; try done.
    + intros j Hne. rewrite Hj by done. by rewrite (al_icache _ _ _ Hal).
    + intros i Hi Hi00. rewrite Hs by done. destruct (Hsl i Hi) as [E _]. case_decide; [|congruence].
      intros _. apply (al_free _ _ _ Hal).
    + intros b Hb Hu. rewrite (changed_in_use s1 s' (ind x)).
      * rewrite (al_bits _ _ _ Hal), Hu by done. apply orb_true_r.
      * done.
      * destruct (decide (ind x = 0)); [by left|right]. rewrite <-(slot_ind s1).
        apply (f_slot _ _ _ Hok1); [unfold INDIRECT; lia|done].
      * done.
      * by rewrite (al_sb _ _ _ Hal).
  - intros bn Hbn b Hb. destruct (decide (b = k)) as [->|Hbk].
    { right. split; [done|]. destruct Hbn as [E|E]; [left|right; exists i0; split; [lia|]].
      - rewrite <-(slot_ind s'), Hs by (unfold INDIRECT; lia). by rewrite decide_True.
      - rewrite Hs by done. by rewrite decide_True. }
    destruct (decide (b = BBLOCK k s)) as [Ebb|Hnbb]; [left; by exists k|].
    destruct (decide (b = ind x)) as [Eb|Hbi].
    2:{ exfalso. apply Hb. rewrite (ch_other _ _ _ Hch) by done. by apply (al_other _ _ _ Hal). }
    right. destruct (decide (b = 0)) as [->|Hb0].
    + exfalso. apply Hb. rewrite Eb, Hz by done. apply (al_other _ _ _ Hal); congruence.
    + split; [done|]. left. rewrite <-(slot_ind s'), Hkeep, slot_ind; [done|unfold INDIRECT; lia|].
      by rewrite slot_ind, <-Eb.
Qed.
End link.

(** *** The three places a block number is stored in *)
Lemma word_splice d j k j' :
  length d = 512%nat → 0 ≤ j < 128 → 0 ≤ j' < 128 → 0 ≤ k < 2 ^ 32 →
  word (splice d (Z.to_nat (4 * j)) (le32 k)) j' = if decide (j' = j) then k else word d j'.
Proof.
  intros Hd Hj Hj' Hk. assert (length (le32 k) = 4%nat) as Hl by done. unfold word.
  replace (4 * j') with (Z.of_nat (Z.to_nat (4 * j'))) by lia. case_decide as E.
  - subst j'. rewrite (get32_ext _ (le32 k ++ []) _ 0).
    + change (Z.of_nat 0) with 0. rewrite get32_le32. by rewrite Z.mod_small.
    + intros i Hi. rewrite splice_lookup, decide_True by lia. rewrite app_nil_r. f_equal. lia.
  - rewrite (get32_ext _ d _ (Z.to_nat (4 * j'))); [done|]. intros i Hi.
    rewrite splice_lookup, decide_False by lia. done.
Qed.

Lemma word_zero j : 0 ≤ j < 128 → word zero_bytes j = 0.
Proof.
  intros Hj. unfold word. replace (4 * j) with (Z.of_nat (Z.to_nat (4 * j))) by lia.
  rewrite (get32_ext _ [0; 0; 0; 0] _ 0); [done|]. intros i Hi. unfold zero_bytes, BSIZE.
  rewrite lookup_replicate_2 by lia. destruct i as [|[|[|[|i]]]]; (done || lia).
Qed.

Definition put_addr (s : fs) (ip : nat) (x : inode) (n : nat) (k : Z) : fs :=
  set_icache s (<[ip := set_addrs x (<[n := k]> (addrs x))]> (icache s)).

Lemma put_addr_changed s ip x n k p :
  (p = 0 ∨ ∃ d, blk s !! p = Some d ∧ length d = 512%nat) → changed_at s (put_addr s ip x n k) p.
Proof. intros Hp. split; try done. intros Hn. cbn [put_addr blk set_icache]. by destruct Hp. Qed.

Lemma file_whole s ip x : file_ok s ip x → ind x = 0 ∨ ∃ d, blk s !! ind x = Some d ∧ length d = 512%nat.
Proof.
  intros Hok. destruct (decide (ind x = 0)); [by left|right]. apply (f_disk _ _ _ Hok).
  assert (data_block s (ind x)) as [? _ _]; [|lia].
  rewrite <-(slot_ind s). apply (f_slot _ _ _ Hok); [unfold INDIRECT; lia|done].
Qed.

(** A direct address. *)
Lemma slot_put_direct s1 ip x bn k i :
  length (addrs x) = 13%nat → 0 ≤ bn < 12 → 0 ≤ i ≤ INDIRECT →
  slot (put_addr s1 ip x (Z.to_nat bn) k) (set_addrs x (<[Z.to_nat bn := k]> (addrs x))) i =
    if decide (i = bn) then k else slot s1 x i.
Proof.
  intros Hl Hb Hi. unfold slot, ind, block_at. cbn [addrs set_addrs put_addr set_icache blk].
  case_decide as E.
  - subst i. case_if; [|lia]. by rewrite list_lookup_insert_eq by lia.
  - rewrite !list_lookup_insert_ne by lia. done.
Qed.

(** The indirect block itself. *)
Lemma slot_put_ind s1 ip x k i :
  length (addrs x) = 13%nat → ind x = 0 → k ≠ 0 → blk s1 !! k = Some zero_bytes → 0 ≤ i ≤ INDIRECT →
  slot (put_addr s1 ip x 12 k) (set_addrs x (<[12%nat := k]> (addrs x))) i =
    if decide (i = INDIRECT) then k else slot s1 x i.
Proof.
  intros Hl H0 Hk Hz Hi. unfold slot. unfold ind in *. rewrite H0. unfold block_at.
  cbn [addrs set_addrs put_addr set_icache blk].
  rewrite list_lookup_insert_eq by lia. cbn [default from_option id]. case_decide as E.
  - subst i. done.
  - case_if as Ei; [by rewrite list_lookup_insert_ne by lia|]. apply Z.eqb_neq in E, Hk. rewrite E, Hk, Hz.
    cbn [default from_option id]. rewrite word_zero; [done|]. bool_to_prop. unfold INDIRECT in *. lia.
Qed.

(** An entry of the indirect block. *)
Lemma slot_put_entry s x d j k i :
  blk s !! ind x = Some d → length d = 512%nat → ind x ≠ 0 → 0 ≤ j < 128 → 0 ≤ k < 2 ^ 32 →
  0 ≤ i ≤ INDIRECT →
  slot (set_blk s (<[ind x := splice d (Z.to_nat (4 * j)) (le32 k)]> (blk s))) x i =
    if decide (i = 12 + j) then k else slot s x i.
Proof.
  intros Hd Hl H0 Hj Hk Hi. unfold slot, block_at. cbn [blk set_blk].
  rewrite lookup_insert_eq, Hd. cbn [default from_option id]. apply Z.eqb_neq in H0. rewrite H0.
  unfold INDIRECT in *. case_decide as E.
  - subst i. case_if; [lia|]. case_if; [lia|]. rewrite word_splice, decide_True by lia. done.
  - case_if; [done|]. case_if; [done|]. rewrite word_splice, decide_False by lia. done.
Qed.

(** ** [bmap] *)
Definition full_disk {A} : outcome A := Panic "balloc: out of blocks".

Record mapped (s : fs) (ip : nat) (x : inode) (s' : fs) (x' : inode) (lo hi : Z) : Prop := {
  mp_ok : file_ok s' ip x';
  mp_bytes : same_bytes s x s' x';
  mp_grows : grows s ip x s' x';
  mp_touches : touches s s' x' lo hi
}.

Lemma slots_in_range s ip x i : file_ok s ip x → 0 ≤ i ≤ INDIRECT → slot s x i ≠ 0 →
  0 < slot s x i < sb_size (sb s).
Proof. intros Hok Hi Hn. by destruct (f_slot _ _ _ Hok i Hi Hn). Qed.

Lemma mapped_refl s ip x lo hi : file_ok s ip x → mapped s ip x s x lo hi.
Proof. intros Hok. split; [done|done|apply grows_refl|by intros b ?]. Qed.

Lemma mapped_trans s ip x s1 x1 s2 x2 lo lo2 m hi :
  lo ≤ lo2 → m ≤ hi → 0 ≤ lo → hi ≤ 140 →
  mapped s ip x s1 x1 lo m → mapped s1 ip x1 s2 x2 lo2 hi → mapped s ip x s2 x2 lo hi.
Proof.
  intros ? ? ? ? [A1 A2 A3 A4] [B1 B2 B3 B4]. split; [done| | |].
  - intros o Ho. by rewrite B2, A2.
  - eapply grows_trans; [|done..]. intros i Hi Hn. by eapply slots_in_range.
  - eapply (touches_trans s s1 x1 s2 ip x2 lo lo2 m hi); try done. apply (gr_sb _ _ _ _ _ A3).
Qed.

Lemma get_inode_run s ip x : icache s !! ip = Some x → get_inode ip s = Ret (x, s).
Proof. intros H. unfold get_inode. by rewrite H. Qed.

(** Allocate a block and store its number in an address of the inode. *)
Lemma alloc_addr s ip x n i0 bn :
  file_ok s ip x → (n < 13)%nat → default 0 (addrs x !! n) = 0 →
  (i0 = bn ∧ bn = Z.of_nat n ∧ bn < 12 ∨ i0 = INDIRECT ∧ n = 12%nat) → 0 ≤ bn →
  let m := (k ← balloc; x ← get_inode ip; a ← lift (arr_set (addrs x) (Z.of_nat n) k);
            set_inode ip (set_addrs x a) ;; mret k) in
  m s = full_disk ∨
  ∃ k s' x', m s = Ret (k, s') ∧ slot s' x' i0 = k ∧ k ≠ 0 ∧ mapped s ip x s' x' bn (bn + 1).
Proof.
  intros Hok Hn H0 Hi0 Hbn m. pose proof (f_naddrs _ _ _ Hok) as Hl.
  destruct (balloc_spec s (f_bitmap _ _ _ Hok)) as [(k & s1 & E & Hk & Hal & _)|[E _]].
  2:{ left. unfold m, mbind at 1, M_bind at 1. by rewrite E. }
  right. pose proof (alloc_ok s ip x k s1 Hok Hk Hal) as Hok1.
  pose proof (alloc_nonzero s ip x k s1 Hok Hk Hal) as Hk0.
  pose proof (f_inode _ _ _ Hok1) as Hx1. pose proof (lookup_lt_Some _ _ _ Hx1) as Hip.
  exists k, (put_addr s1 ip x n k), (set_addrs x (<[n := k]> (addrs x))).
  assert (∀ i, 0 ≤ i ≤ INDIRECT → slot (put_addr s1 ip x n k) (set_addrs x (<[n := k]> (addrs x))) i =
    if decide (i = i0) then k else slot s1 x i) as Hs.
  { intros i Hi. destruct Hi0 as [(-> & Ebn & ?)|[-> ->]].
    - replace n with (Z.to_nat bn) by lia. apply slot_put_direct; (done || lia).
    - apply slot_put_ind; try done. apply (al_zero _ _ _ Hal). }
  assert (0 ≤ i0 ≤ INDIRECT) as Hir by (unfold INDIRECT in *; lia).
  assert (slot s x i0 = 0) as Hz0.
  { destruct Hi0 as [(-> & -> & ?)|[-> ->]]; [|done]. unfold slot. case_if; [|lia]. by rewrite Nat2Z.id. }
  destruct (alloc_link s ip x k s1 (put_addr s1 ip x n k) (set_addrs x (<[n := k]> (addrs x))) i0)
    as (R1 & R2 & R3 & R4); try done.
  - apply put_addr_changed. by eapply file_whole.
  - cbn [put_addr icache set_icache]. by rewrite list_lookup_insert_eq.
  - cbn [addrs set_addrs]. by rewrite length_insert.
  - intros j Hj. cbn [put_addr icache set_icache]. by rewrite list_lookup_insert_ne.
  - split_and!; [|by rewrite Hs, decide_True|done|].
    + unfold m. erewrite M_bind_run by done. erewrite M_bind_run by (by apply get_inode_run).
      erewrite M_bind_run; [|unfold lift; rewrite arr_set_in, Nat2Z.id by lia; done]. done.
    + split; [done..|]. apply R4. destruct Hi0 as [(? & _)|[? _]]; auto.
Qed.

(** Allocate a block and store its number in the indirect block. *)
Lemma alloc_entry s ip x j d :
  file_ok s ip x → ind x ≠ 0 → 0 ≤ j < 128 → slot s x (12 + j) = 0 → blk s !! ind x = Some d →
  let m := (k ← balloc; d ← bread (ind x); d ← lift (put32 d (4 * j) k); log_write (ind x) d ;; mret k) in
  m s = full_disk ∨
  ∃ k s', m s = Ret (k, s') ∧ slot s' x (12 + j) = k ∧ k ≠ 0 ∧ mapped s ip x s' x (12 + j) (12 + j + 1).
Proof.
  intros Hok Hind Hj Hz0 Hd m.
  destruct (balloc_spec s (f_bitmap _ _ _ Hok)) as [(k & s1 & E & Hk & Hal & _)|[E _]].
  2:{ left. unfold m, mbind at 1, M_bind at 1. by rewrite E. }
  right. pose proof (alloc_ok s ip x k s1 Hok Hk Hal) as Hok1.
  pose proof (alloc_nonzero s ip x k s1 Hok Hk Hal) as Hk0.
  destruct (file_whole _ _ _ Hok1) as [?|(d1 & Hd1 & Hl1)]; [done|].
  set (d2 := splice d1 (Z.to_nat (4 * j)) (le32 k)).
  assert (length d2 = 512%nat) as Hl2 by (unfold d2; rewrite splice_length; [done|]; change (length (le32 k)) with 4%nat; lia).
  set (s' := set_blk s1 (<[ind x := d2]> (blk s1))). exists k, s'.
  pose proof (f_size _ _ _ Hok) as Hsz. unfold INDIRECT in *.
  assert (∀ i, 0 ≤ i ≤ INDIRECT → slot s' x i = if decide (i = 12 + j) then k else slot s1 x i) as Hs.
  { intros i Hi. apply slot_put_entry; (done || lia). }
  destruct (alloc_link s ip x k s1 s' x (12 + j)) as (R1 & R2 & R3 & R4); try done; try (unfold INDIRECT; lia).
  - split; [done| |].
    + intros b Hb. cbn [s' blk set_blk]. by rewrite lookup_insert_ne.
    + intros _. cbn [s' blk set_blk]. rewrite lookup_insert_eq. eauto.
  - apply (f_inode _ _ _ Hok1).
  - apply (f_naddrs _ _ _ Hok).
  - apply set_addrs_id.
  - split_and!; [|by rewrite Hs, decide_True by (unfold INDIRECT; lia)|done|].
    + unfold m. erewrite M_bind_run by done.
      erewrite M_bind_run; [|unfold bread; by rewrite Hd1].
      erewrite M_bind_run; [|unfold lift; replace (4 * j) with (Z.of_nat (Z.to_nat (4 * j))) by lia;
        rewrite put32_splice by lia; done].
      erewrite M_bind_run; [|unfold log_write; by rewrite Hd1]. done.
    + split; [done..|]. apply R4. by right.
Qed.

(** What a call that yields the block of slot [bn] has done. *)
Definition maps (m : M fs Z) (s : fs) (ip : nat) (x : inode) (bn : Z) : Prop :=
  m s = full_disk ∨
  ∃ s' x', m s = Ret (slot s' x' bn, s') ∧ slot s' x' bn ≠ 0 ∧ mapped s ip x s' x' bn (bn + 1).

Lemma bmap_direct s ip x bn : file_ok s ip x → 0 ≤ bn < 12 → maps (bmap ip bn) s ip x bn.
Proof.
  intros Hok Hb. pose proof (f_inode _ _ _ Hok) as Hx. pose proof (f_naddrs _ _ _ Hok) as Hl.
  unfold maps, bmap. erewrite M_bind_run by (by apply get_inode_run).
  unfold NDIRECT. destruct (bn <? 12) eqn:E; bool_to_prop; [|lia].
  destruct (arr_get_in (addrs x) bn) as (a & Ea & Ha); [lia|].
  assert (slot s x bn = a) as Es by (unfold slot; apply Z.ltb_lt in E; by rewrite E, Ha).
  erewrite M_bind_run by (unfold lift; by rewrite Ea). destruct (a =? 0) eqn:E0; bool_to_prop.
  - destruct (alloc_addr s ip x (Z.to_nat bn) bn bn) as [F|(k & s' & x' & R & Ek & Hk & Hm)];
      rewrite ?Z2Nat.id in * by lia; try done; try lia.
    + by rewrite Ha.
    + left. exact F.
    + right. exists s', x'. by rewrite Ek.
  - right. exists s, x. rewrite Es. split_and!; [done..|]. by apply mapped_refl.
Qed.

(** The part of [bmap] behind the indirect block. *)
Definition bmap_entry (ind j : Z) : M fs Z :=
  d ← bread ind;
  addr ← lift (get32 d (4 * j));
  if addr =? 0 then
    addr ← balloc;
    d ← bread ind;
    d ← lift (put32 d (4 * j) addr);
    log_write ind d ;;
    mret addr
  else mret addr.

Lemma get32_some d j : length d = 512%nat → 0 ≤ j < 128 → get32 d (4 * j) = Ret (word d j).
Proof.
  intros Hd Hj. unfold word, get32, get16.
  destruct (arr_get_in d (4 * j)) as (a & -> & _); [lia|]. destruct (arr_get_in d (4 * j + 1)) as (b & -> & _); [lia|].
  destruct (arr_get_in d (4 * j + 2)) as (c & -> & _); [lia|].
  destruct (arr_get_in d (4 * j + 2 + 1)) as (e & -> & _); [lia|]. done.
Qed.

Lemma bmap_entry_spec s ip x j :
  file_ok s ip x → ind x ≠ 0 → 0 ≤ j < 128 → maps (bmap_entry (ind x) j) s ip x (12 + j).
Proof.
  intros Hok Hind Hj. destruct (file_whole _ _ _ Hok) as [?|(d & Hd & Hl)]; [done|].
  assert (slot s x (12 + j) = word d j) as Es.
  { unfold slot, block_at, INDIRECT. rewrite Hd. destruct (12 + j <? 12) eqn:?; bool_to_prop; [lia|].
    destruct (12 + j =? 140) eqn:?; bool_to_prop; [lia|]. apply Z.eqb_neq in Hind. rewrite Hind. f_equal. lia. }
  unfold maps, bmap_entry. erewrite M_bind_run by (unfold bread; by rewrite Hd).
  erewrite M_bind_run by (unfold lift; by rewrite get32_some).
  destruct (word d j =? 0) eqn:E0; bool_to_prop.
  - destruct (alloc_entry s ip x j d) as [F|(k & s' & R & Ek & Hk & Hm)]; try done; [congruence|left; exact F|].
    right. exists s', x. by rewrite Ek.
  - right. exists s, x. rewrite Es. split_and!; [done..|]. by apply mapped_refl.
Qed.

Lemma bmap_spec s ip x bn : file_ok s ip x → 0 ≤ bn < 140 → maps (bmap ip bn) s ip x bn.
Proof.
  intros Hok Hb. destruct (decide (bn < 12)); [apply bmap_direct; (done || lia)|].
  pose proof (f_inode _ _ _ Hok) as Hx. pose proof (f_naddrs _ _ _ Hok) as Hl.
  unfold maps, bmap. erewrite M_bind_run by (by apply get_inode_run).
  unfold NDIRECT, NINDIRECT. destruct (bn <? 12) eqn:E; bool_to_prop; [lia|]. cbv zeta.
  destruct (bn - 12 <? 128) eqn:E1; bool_to_prop; [|lia].
  destruct (arr_get_in (addrs x) 12) as (a & Ea & Ha); [lia|]. change (Z.to_nat 12) with 12%nat in Ha.
  erewrite M_bind_run by (unfold lift; by rewrite Ea).
  assert (ind x = a) as Ei by (unfold ind; by rewrite Ha).
  assert (∀ s1 x1, file_ok s1 ip x1 → ind x1 ≠ 0 → maps (bmap_entry (ind x1) (bn - 12)) s1 ip x1 bn) as Hentry.
  { intros s1 x1 H1 H2. replace bn with (12 + (bn - 12)) at 2 by lia. apply bmap_entry_spec; (done || lia). }
  destruct (a =? 0) eqn:E0; bool_to_prop.
  - destruct (alloc_addr s ip x 12 INDIRECT bn) as [F|(k & s1 & x1 & R & Ek & Hk & Hm)]; try done; try lia.
    + by rewrite Ha.
    + left. unfold mbind at 1, M_bind at 1. change 12 with (Z.of_nat 12). by rewrite F.
    + erewrite M_bind_run by exact R. rewrite <-Ek, slot_ind in *.
      destruct (Hentry s1 x1 (mp_ok _ _ _ _ _ _ _ Hm) Hk) as [F|(s2 & x2 & R2 & H2 & Hm2)]; [by left|right].
      exists s2, x2. split_and!; [exact R2|done|]. eapply (mapped_trans _ _ _ s1 x1); try done; lia.
  - rewrite <-Ei in *. erewrite M_bind_run by done. by apply Hentry.
Qed.

(** A slot that has its block is only looked up. *)
Lemma bmap_hit s ip x bn :
  file_ok s ip x → 0 ≤ bn < 140 → slot s x bn ≠ 0 → bmap ip bn s = Ret (slot s x bn, s).
Proof.
  intros Hok Hb Hn. pose proof (f_naddrs _ _ _ Hok) as Hl. revert Hn.
  unfold bmap. erewrite M_bind_run by (apply get_inode_run, (f_inode _ _ _ Hok)).
  unfold slot, NDIRECT, NINDIRECT, INDIRECT. destruct (bn <? 12) eqn:E; bool_to_prop; cbv zeta.
  - destruct (arr_get_in (addrs x) bn) as (a & Ea & Ha); [lia|]. rewrite Ha. cbn [default from_option id].
    intros Hn. erewrite M_bind_run by (unfold lift; by rewrite Ea). apply Z.eqb_neq in Hn. by rewrite Hn.
  - destruct (bn =? 140) eqn:E1; bool_to_prop; [lia|].
    destruct (bn - 12 <? 128) eqn:E2; bool_to_prop; [|lia].
    destruct (arr_get_in (addrs x) 12) as (a & Ea & Ha); [lia|]. change (Z.to_nat 12) with 12%nat in Ha.
    assert (ind x = a) as Ei by (unfold ind; by rewrite Ha). rewrite Ei.
    erewrite M_bind_run by (unfold lift; by rewrite Ea). destruct (a =? 0) eqn:E0; bool_to_prop; [done|].
    destruct (file_whole _ _ _ Hok) as [?|(d & Hd & Hld)]; [congruence|]. rewrite Ei in Hd. unfold block_at.
    rewrite Hd. cbn [default from_option id]. intros Hn. erewrite M_bind_run by done.
    erewrite M_bind_run by (unfold bread; by rewrite Hd).
    erewrite M_bind_run by (unfold lift; by rewrite get32_some by (done || lia)).
    apply Z.eqb_neq in Hn. by rewrite Hn.
Qed.

(** ** Storing into a block of the file *)
Lemma changed_slot s s' ip x bn i :
  file_ok s ip x → 0 ≤ bn < 140 → slot s x bn ≠ 0 → changed_at s s' (slot s x bn) →
  0 ≤ i ≤ INDIRECT → slot s' x i = slot s x i.
Proof.
  intros Hok Hb Hn Hch Hi. unfold slot. case_if; [done|]. case_if; [done|]. case_if; [done|]. unfold block_at.
  rewrite (ch_other _ _ _ Hch); [done|]. rewrite <-(slot_ind s). intros E. symmetry in E.
  apply (f_inj _ _ _ Hok) in E; [|unfold INDIRECT in *; lia..|done]. unfold INDIRECT in *. lia.
Qed.

Section store.
Context (s : fs) (ip : nat) (x : inode) (bn : Z) (d d' : list Z).
Context (Hok : file_ok s ip x) (Hb : 0 ≤ bn < 140) (Hn : slot s x bn ≠ 0).
Context (Hd' : length d' = 512%nat).
Let s' := set_blk s (<[slot s x bn := d']> (blk s)).

Lemma store_changed : changed_at s s' (slot s x bn).
Proof.
  split; [done| |].
  - intros b Hne. cbn [s' blk set_blk]. by rewrite lookup_insert_ne.
  - intros _. cbn [s' blk set_blk]. rewrite lookup_insert_eq. eauto.
Qed.

Lemma store_slot i : 0 ≤ i ≤ INDIRECT → slot s' x i = slot s x i.
Proof. apply (changed_slot s s' ip x bn i Hok Hb Hn store_changed). Qed.

Lemma store_data : data_block s (slot s x bn).
Proof. apply (f_slot _ _ _ Hok); [unfold INDIRECT; lia|done]. Qed.

Lemma store_ok : file_ok s' ip x.
Proof.
  pose proof Hok as [F1 F2 F3 F4 F5 F6 F7 F8]. pose proof store_changed as Hch.
  pose proof (or_intror store_data : slot s x bn = 0 ∨ _) as Hd.
  assert (slot s x bn = 0 → blk s' !! slot s x bn = blk s !! slot s x bn) as Hz by done. split; try done.
  - by eapply changed_bitmap_ok.
  - rewrite (changed_in_use s s' (slot s x bn)) by (done || cbn; lia). done.
  - intros b Hr. eapply (changed_disk s s' (slot s x bn)); done.
  - intros i Hi. rewrite store_slot by done. intros ?. eapply changed_data_block; [done..|]. by apply F7.
  - intros i j Hi Hj. rewrite !store_slot by done. by apply F8.
Qed.

Lemma store_grows : grows s ip x s' x.
Proof.
  split; try done.
  - apply set_addrs_id.
  - intros i Hi _. by apply store_slot.
  - intros i Hi H0. by rewrite store_slot.
  - intros b Hr Hu. rewrite (changed_in_use s s' (slot s x bn) store_changed (or_intror store_data)); done.
Qed.

Lemma store_touches : touches s s' x bn (bn + 1).
Proof.
  intros b Hne. destruct (decide (b = slot s x bn)) as [->|E].
  - right. split; [done|]. right. exists bn. split; [lia|]. symmetry. apply store_slot. unfold INDIRECT. lia.
  - by rewrite (ch_other _ _ _ store_changed) in Hne.
Qed.

Lemma store_bytes k : 0 ≤ k < 140 * 512 →
  fbyte s' x k = if decide (k / 512 = bn) then default 0 (d' !! Z.to_nat (k mod 512)) else fbyte s x k.
Proof.
  intros Hk. unfold fbyte. assert (0 ≤ k / 512 < 140) as Hi by (Z.div_mod_to_equations; lia).
  rewrite store_slot by (unfold INDIRECT; lia). case_decide as E.
  - rewrite E. apply Z.eqb_neq in Hn as Hn'. rewrite Hn'. unfold block_at. cbn [s' blk set_blk].
    by rewrite lookup_insert_eq.
  - case_if as E0; [done|]. unfold block_at. rewrite (ch_other _ _ _ store_changed); [done|].
    intros Eq. apply (f_inj _ _ _ Hok) in Eq; [done|unfold INDIRECT; lia..|done].
Qed.
End store.

(** ** The copy loops *)

(** The bytes [off .. off+n-1] of the file. *)
Definition frange (s : fs) (x : inode) (off n : Z) : list Z := (λ i, fbyte s x (off + i)) <$> seqZ 0 n.

Lemma frange_split s x off m n : 0 ≤ m ≤ n → frange s x off n = frange s x off m ++ frange s x (off + m) (n - m).
Proof.
  intros H. unfold frange. replace n with (m + (n - m)) at 1 by lia. rewrite seqZ_app, fmap_app by lia. f_equal.
  replace (0 + m) with (m + 0) by lia. rewrite <-(fmap_add_seqZ m 0), <-list_fmap_compose. apply list_fmap_ext. intros i y _. cbn. f_equal. lia.
Qed.

Lemma frange_ext s x s' x' off n : (∀ i, 0 ≤ i < n → fbyte s' x' (off + i) = fbyte s x (off + i)) →
  frange s' x' off n = frange s x off n.
Proof.
  intros H. apply list_fmap_ext. intros i y Hy. apply lookup_seqZ in Hy. apply H. lia.
Qed.

(** Bytes inside one block. *)
Lemma frange_block s x off m d :
  0 ≤ off → 0 ≤ m → off mod 512 + m ≤ 512 → slot s x (off / 512) ≠ 0 →
  blk s !! slot s x (off / 512) = Some d → length d = 512%nat →
  get_bytes d (off mod 512) m = Ret (frange s x off m).
Proof.
  intros H0 Hm Hr Hn Hd Hl. assert (0 ≤ off mod 512 < 512) as Hmod by (apply Z.mod_pos_bound; lia).
  unfold get_bytes. rewrite Hl. case_if as E.
  2:{ apply andb_false_iff in E as [?|?]; bool_to_prop; lia. }
  f_equal. apply list_eq. intros i. unfold frange. rewrite list_lookup_fmap.
  destruct (decide (i < Z.to_nat m)%nat) as [Hi|Hi].
  - rewrite lookup_take_lt, lookup_drop by done. rewrite lookup_seqZ_lt by lia. cbn [fmap option_fmap option_map].
    unfold fbyte. assert ((off + (0 + Z.of_nat i)) / 512 = off / 512 ∧
      (off + (0 + Z.of_nat i)) mod 512 = off mod 512 + Z.of_nat i) as [-> ->] by (Z.div_mod_to_equations; lia).
    apply Z.eqb_neq in Hn. rewrite Hn. unfold block_at. rewrite Hd. cbn [default from_option id].
    replace (Z.to_nat (off mod 512 + Z.of_nat i)) with (Z.to_nat (off mod 512) + i)%nat by lia.
    destruct (lookup_lt_is_Some_2 d (Z.to_nat (off mod 512) + i)) as [v ->]; [lia|]. done.
  - rewrite lookup_take_ge by lia. rewrite lookup_seqZ_ge by lia. done.
Qed.

Definition ceil512 (n : Z) : Z := (n + 511) / 512.

Lemma readi_loop_spec ip fuel : ∀ s x off n tot,
  file_ok s ip x → 0 ≤ tot ≤ n → 0 ≤ off → off + (n - tot) ≤ 140 * 512 → n - tot ≤ Z.of_nat fuel →
  readi_loop ip off n tot fuel s = full_disk ∨
  ∃ s' x', readi_loop ip off n tot fuel s = Ret (frange s x off (n - tot), s') ∧
    mapped s ip x s' x' (off / 512) (ceil512 (off + (n - tot))).
Proof.
  induction fuel as [|fuel IH]; intros s x off n tot Hok Ht Ho Hend Hf; cbn [readi_loop].
  { right. exists s, x. case_if; [lia|]. replace (n - tot) with 0 by lia. split; [done|]. by apply mapped_refl. }
  case_if as E.
  2:{ right. exists s, x. replace (n - tot) with 0 by lia. split; [done|]. by apply mapped_refl. }
  unfold BSIZE in *. set (m := Z.min (n - tot) (512 - off mod 512)).
  assert (0 ≤ off mod 512 < 512) as Hmod by (apply Z.mod_pos_bound; lia).
  assert (0 < m ≤ n - tot ∧ off mod 512 + m ≤ 512 ∧ (m = n - tot ∨ off mod 512 + m = 512)) as Hmr
    by (unfold m; lia).
  assert (0 ≤ off / 512 < 140) as Hbn by (Z.div_mod_to_equations; lia).
  destruct (bmap_spec s ip x (off / 512) Hok Hbn) as [F|(s1 & x1 & R & Hn & Hm1)].
  { left. unfold mbind at 1, M_bind at 1. by rewrite F. }
  erewrite M_bind_run by exact R. pose proof (mp_ok _ _ _ _ _ _ _ Hm1) as Hok1.
  destruct (f_disk _ _ _ Hok1 (slot s1 x1 (off / 512))) as (d & Hd & Hl).
  { pose proof (slots_in_range _ _ _ (off / 512) Hok1 ltac:(unfold INDIRECT; lia) Hn). lia. }
  erewrite M_bind_run by (unfold bread; by rewrite Hd). cbv zeta. fold m.
  erewrite M_bind_run by (unfold lift; by rewrite (frange_block s1 x1) by (done || lia)).
  destruct (IH s1 x1 (off + m) n (tot + m) Hok1) as [F|(s2 & x2 & R2 & Hm2)]; try lia.
  { left. unfold mbind at 1, M_bind at 1. by rewrite F. }
  right. exists s2, x2. erewrite M_bind_run by exact R2. split.
  - unfold mret, M_ret. do 2 f_equal. rewrite (frange_split s x off m) by lia.
    f_equal; [|replace (n - tot - m) with (n - (tot + m)) by lia]; apply frange_ext; intros i Hi;
      apply (mp_bytes _ _ _ _ _ _ _ Hm1); lia.
  - replace (off + (n - tot)) with (off + m + (n - (tot + m))) by lia.
    eapply mapped_trans; [| | | |exact Hm1|exact Hm2]; unfold ceil512; Z.div_mod_to_equations; lia.
Qed.

(** Reading where every block is there changes nothing. *)
Lemma readi_loop_hit ip fuel : ∀ s x off n tot,
  file_ok s ip x → 0 ≤ tot ≤ n → 0 ≤ off → off + (n - tot) ≤ 140 * 512 → n - tot ≤ Z.of_nat fuel →
  (∀ i, off / 512 ≤ i < ceil512 (off + (n - tot)) → slot s x i ≠ 0) →
  readi_loop ip off n tot fuel s = Ret (frange s x off (n - tot), s).
Proof.
  induction fuel as [|fuel IH]; intros s x off n tot Hok Ht Ho Hend Hf Hsl; cbn [readi_loop].
  { case_if; [lia|]. by replace (n - tot) with 0 by lia. }
  case_if as E; [|by replace (n - tot) with 0 by lia].
  unfold BSIZE in *. set (m := Z.min (n - tot) (512 - off mod 512)).
  assert (0 ≤ off mod 512 < 512) as Hmod by (apply Z.mod_pos_bound; lia).
  assert (0 < m ≤ n - tot ∧ off mod 512 + m ≤ 512 ∧ (m = n - tot ∨ off mod 512 + m = 512)) as Hmr
    by (unfold m; lia).
  assert (0 ≤ off / 512 < 140) as Hbn by (Z.div_mod_to_equations; lia).
  assert (slot s x (off / 512) ≠ 0) as Hn by (apply Hsl; unfold ceil512; Z.div_mod_to_equations; lia).
  erewrite M_bind_run by (by apply bmap_hit).
  destruct (f_disk _ _ _ Hok (slot s x (off / 512))) as (d & Hd & Hl).
  { pose proof (slots_in_range _ _ _ (off / 512) Hok ltac:(unfold INDIRECT; lia) Hn). lia. }
  erewrite M_bind_run by (unfold bread; by rewrite Hd). cbv zeta. fold m.
  erewrite M_bind_run by (unfold lift; by rewrite (frange_block s x) by (done || lia)).
  erewrite M_bind_run.
  2:{ apply IH; try done; try lia. replace (off + m + (n - (tot + m))) with (off + (n - tot)) by lia.
      intros i Hi. apply Hsl. Z.div_mod_to_equations. lia. }
  unfold mret, M_ret. rewrite (frange_split s x off m (n - tot)) by lia. by replace (n - tot - m) with (n - (tot + m)) by lia.
Qed.

(** The contents after [n] bytes of [src] were stored at [off]. *)
Definition overlay (s : fs) (x : inode) (src : list Z) (off n k : Z) : Z :=
  if decide (off ≤ k < off + n) then default 0 (src !! Z.to_nat (k - off)) else fbyte s x k.

Record written (s : fs) (ip : nat) (x : inode) (s' : fs) (x' : inode) (src : list Z) (off n : Z) : Prop := {
  wr_ok : file_ok s' ip x';
  wr_bytes k : 0 ≤ k < 140 * 512 → fbyte s' x' k = overlay s x src off n k;
  wr_grows : grows s ip x s' x';
  wr_touches : touches s s' x' (off / 512) (ceil512 (off + n));
  wr_mapped i : off / 512 ≤ i < ceil512 (off + n) → 0 < n → slot s' x' i ≠ 0
}.

Lemma written_nil s ip x src off : file_ok s ip x → written s ip x s x src off 0.
Proof.
  intros Hok. split; [done| |apply grows_refl|by intros b ?|lia].
  intros k Hk. unfold overlay. by rewrite decide_False by lia.
Qed.

(** One round: map the block, replace [m] bytes of it. *)
Lemma write_chunk s ip x src off m :
  file_ok s ip x → 0 ≤ off → 0 < m → off mod 512 + m ≤ 512 → off + m ≤ 140 * 512 →
  m ≤ Z.of_nat (length src) → ∀ A (k : M fs A),
  let c := (b ← bmap ip (off / 512); d ← bread b; chunk ← lift (get_bytes src 0 m);
            d ← lift (put_bytes d (off mod 512) chunk); log_write b d ;; k) in
  c s = full_disk ∨
  ∃ s' x', c s = k s' ∧ written s ip x s' x' src off m.
Proof.
  intros Hok H0 Hm Hmm Hend Hsrc A k c.
  assert (0 ≤ off mod 512 < 512) as Hmod by (apply Z.mod_pos_bound; lia).
  assert (0 ≤ off / 512 < 140) as Hbn by (Z.div_mod_to_equations; lia).
  destruct (bmap_spec s ip x (off / 512) Hok Hbn) as [F|(s1 & x1 & R & Hn & Hm1)].
  { left. unfold c, mbind at 1, M_bind at 1. by rewrite F. }
  pose proof (mp_ok _ _ _ _ _ _ _ Hm1) as Hok1.
  destruct (f_disk _ _ _ Hok1 (slot s1 x1 (off / 512))) as (d & Hd & Hl).
  { pose proof (slots_in_range _ _ _ (off / 512) Hok1 ltac:(unfold INDIRECT; lia) Hn). lia. }
  set (chunk := take (Z.to_nat m) src). set (d' := splice d (Z.to_nat (off mod 512)) chunk).
  assert (length chunk = Z.to_nat m) as Hc by (unfold chunk; rewrite length_take; lia).
  assert (length d' = 512%nat) as Hd' by (unfold d'; rewrite splice_length; lia).
  assert (put_bytes d (off mod 512) chunk = Ret d') as Eput.
  { unfold put_bytes. case_if as E; [done|]. rewrite Hl, Hc in E.
    apply andb_false_iff in E as [?|?]; bool_to_prop; lia. }
  right. exists (set_blk s1 (<[slot s1 x1 (off / 512) := d']> (blk s1))), x1. split.
  - unfold c. erewrite M_bind_run by exact R. erewrite M_bind_run by (unfold bread; by rewrite Hd).
    erewrite M_bind_run by (unfold lift, get_bytes; case_if as E; [done|];
      apply andb_false_iff in E as [?|?]; bool_to_prop; lia).
    change (take (Z.to_nat m) (drop (Z.to_nat 0) src)) with chunk.
    erewrite M_bind_run by (unfold lift; by rewrite Eput).
    erewrite M_bind_run by (unfold log_write; by rewrite Hd). done.
  - split.
    + by apply store_ok.
    + intros k0 Hk0. rewrite (store_bytes s1 ip) by done. unfold overlay. case_decide as Ek.
      * unfold d'. rewrite splice_lookup by lia. rewrite Hc. rewrite <-(mp_bytes _ _ _ _ _ _ _ Hm1) by done.
        repeat case_decide; try (exfalso; Z.div_mod_to_equations; lia).
        -- unfold chunk. rewrite lookup_take_lt by lia. do 2 f_equal. Z.div_mod_to_equations. lia.
        -- unfold fbyte. rewrite Ek. apply Z.eqb_neq in Hn. rewrite Hn. unfold block_at. by rewrite Hd.
      * rewrite decide_False by (Z.div_mod_to_equations; lia). by apply (mp_bytes _ _ _ _ _ _ _ Hm1).
    + eapply grows_trans; [|apply (mp_grows _ _ _ _ _ _ _ Hm1)|by apply store_grows].
      intros i Hi Hni. eapply slots_in_range; [by apply store_ok|done..].
    + eapply (touches_trans s s1 x1 _ ip x1); [| | | | |by apply store_grows|exact (mp_touches _ _ _ _ _ _ _ Hm1)|];
        [| | | |apply (gr_sb _ _ _ _ _ (mp_grows _ _ _ _ _ _ _ Hm1))|];
        [..|replace (ceil512 (off + m)) with (off / 512 + 1); [by eapply store_touches|]];
        unfold ceil512; Z.div_mod_to_equations; lia.
    + intros i Hi _. assert (i = off / 512) as -> by (unfold ceil512 in Hi; Z.div_mod_to_equations; lia).
      rewrite (store_slot s1 ip) by (done || unfold INDIRECT; lia). done.
Qed.

Lemma written_trans s ip x s1 x1 s2 x2 src off m n :
  0 < m ≤ n → 0 ≤ off → off + n ≤ 140 * 512 → (m = n ∨ off mod 512 + m = 512) →
  off mod 512 + m ≤ 512 → n ≤ Z.of_nat (length src) →
  written s ip x s1 x1 src off m → written s1 ip x1 s2 x2 (drop (Z.to_nat m) src) (off + m) (n - m) →
  written s ip x s2 x2 src off n.
Proof.
  intros Hm H0 Hend Hmm Hmod Hsrc [A1 A2 A3 A4 A5] [B1 B2 B3 B4 B5]. split; [done| | | |].
  - intros k Hk. rewrite B2 by done. unfold overlay at 1. rewrite A2 by done. unfold overlay.
    rewrite lookup_drop. repeat case_decide; try lia; try done. do 2 f_equal. lia.
  - eapply grows_trans; [|done..]. intros i Hi Hn. by eapply slots_in_range.
  - replace (off + m + (n - m)) with (off + n) in B4 by lia.
    eapply (touches_trans s s1 x1 s2 ip x2); [| | | | |exact B3|exact A4|exact B4];
      [..|apply (gr_sb _ _ _ _ _ A3)]; unfold ceil512; Z.div_mod_to_equations; lia.
  - intros i Hi _. replace (off + m + (n - m)) with (off + n) in B5 by lia.
    destruct (decide (i < ceil512 (off + m))) as [Hlt|Hge].
    + assert (slot s1 x1 i ≠ 0) as Hn by (apply A5; lia).
      rewrite (gr_slots _ _ _ _ _ B3); [done| |done]. unfold ceil512, INDIRECT in *. Z.div_mod_to_equations. lia.
    + apply B5; unfold ceil512 in *; Z.div_mod_to_equations; lia.
Qed.

Lemma writei_loop_spec ip fuel : ∀ s x src off n tot,
  file_ok s ip x → 0 ≤ tot ≤ n → 0 ≤ off → off + (n - tot) ≤ 140 * 512 → n - tot ≤ Z.of_nat fuel →
  n - tot ≤ Z.of_nat (length src) →
  writei_loop ip src off n tot fuel s = full_disk ∨
  ∃ s' x', writei_loop ip src off n tot fuel s = Ret (off + (n - tot), s') ∧
    written s ip x s' x' src off (n - tot).
Proof.
  induction fuel as [|fuel IH]; intros s x src off n tot Hok Ht Ho Hend Hf Hsrc; cbn [writei_loop].
  { right. exists s, x. case_if; [lia|]. replace (n - tot) with 0 by lia. rewrite Z.add_0_r.
    split; [done|]. by apply written_nil. }
  case_if as E.
  2:{ right. exists s, x. replace (n - tot) with 0 by lia. rewrite Z.add_0_r. split; [done|]. by apply written_nil. }
  unfold BSIZE in *. set (m := Z.min (n - tot) (512 - off mod 512)).
  assert (0 ≤ off mod 512 < 512) as Hmod by (apply Z.mod_pos_bound; lia).
  assert (0 < m ≤ n - tot ∧ off mod 512 + m ≤ 512 ∧ (m = n - tot ∨ off mod 512 + m = 512)) as Hmr
    by (unfold m; lia).
  destruct (write_chunk s ip x src off m Hok Ho ltac:(lia) ltac:(lia) ltac:(lia) ltac:(lia) _
    (writei_loop ip (drop (Z.to_nat m) src) (off + m) n (tot + m) fuel)) as [F|(s1 & x1 & R & Hw)].
  { left. exact F. }
  destruct (IH s1 x1 (drop (Z.to_nat m) src) (off + m) n (tot + m) (wr_ok _ _ _ _ _ _ _ _ Hw))
    as [F|(s2 & x2 & R2 & Hw2)]; try (rewrite ?length_drop; lia).
  { left. etransitivity; [exact R|exact F]. }
  right. exists s2, x2. split.
  - etransitivity; [exact R|]. rewrite R2. do 2 f_equal. lia.
  - eapply written_trans; [..|exact Hw|]; try lia. by replace (n - tot - m) with (n - (tot + m)) by lia.
Qed.

(** ** Blocks that hold no contents of the file *)
Lemma meta_change s s' ip x p :
  file_ok s ip x → changed_at s s' p → data_block s p → (∀ i, 0 ≤ i ≤ INDIRECT → slot s x i ≠ p) →
  icache s' = icache s →
  file_ok s' ip x ∧ (∀ i, 0 ≤ i ≤ INDIRECT → slot s' x i = slot s x i) ∧ same_bytes s x s' x.
Proof.
  intros Hok Hch Hp Hnp Hic. pose proof Hok as [F1 F2 F3 F4 F5 F6 F7 F8].
  pose proof (ch_sb _ _ _ Hch) as Es. pose proof (db_range _ _ Hp).
  assert (p = 0 → blk s' !! p = blk s !! p) as Hz by lia.
  pose proof (or_intror Hp : p = 0 ∨ data_block s p) as Hp'.
  assert (∀ i, 0 ≤ i ≤ INDIRECT → slot s' x i = slot s x i) as Hs.
  { intros i Hi. unfold slot. case_if; [done|]. case_if; [done|]. case_if; [done|]. unfold block_at.
    rewrite (ch_other _ _ _ Hch); [done|]. rewrite <-(slot_ind s). apply Hnp. done. }
  split_and!; [|done|].
  - split; rewrite ?Es, ?Hic; try done.
    + by eapply changed_bitmap_ok.
    + rewrite (changed_in_use s s' p) by (done || lia). done.
    + by eapply changed_disk.
    + intros i Hi. rewrite Hs by done. intros ?. eapply changed_data_block; [done..|]. by apply F7.
    + intros i j Hi Hj. rewrite !Hs by done. by apply F8.
  - intros k Hk. unfold fbyte. assert (0 ≤ k / 512 < 140) as Hi by (Z.div_mod_to_equations; lia).
    rewrite Hs by (unfold INDIRECT; lia). case_if; [done|]. unfold block_at.
    rewrite (ch_other _ _ _ Hch); [done|]. apply Hnp. unfold INDIRECT. lia.
Qed.

Lemma set_size_ok s ip x n :
  file_ok s ip x → file_ok (set_icache s (<[ip := set_size x n]> (icache s))) ip (set_size x n).
Proof.
  intros [F1 F2 F3 F4 F5 F6 F7 F8]. split; try done.
  - cbn [icache set_icache]. rewrite list_lookup_insert_eq by (by eapply lookup_lt_Some). done.
  - destruct F3. by split.
  - intros i Hi Hn. destruct (F7 i Hi Hn). by split.
Qed.

(** The inode block of the file: in use, and not a block of the file. *)
Record inode_block_ok (s : fs) (x : inode) : Prop := {
  ib_data : data_block s (IBLOCK (inum x) s);
  ib_slot i : 0 ≤ i ≤ INDIRECT → slot s x i ≠ IBLOCK (inum x) s
}.

Lemma grows_inode_block s ip x s' x' :
  file_ok s ip x → file_ok s' ip x' → grows s ip x s' x' → inode_block_ok s x → inode_block_ok s' x'.
Proof.
  intros Hok Hok' Hg [H1 H2].
  assert (inum x' = inum x) as En by (rewrite (gr_meta _ _ _ _ _ Hg); done).
  assert (IBLOCK (inum x') s' = IBLOCK (inum x) s) as Eb by (unfold IBLOCK; by rewrite (gr_sb _ _ _ _ _ Hg), En).
  pose proof (db_range _ _ H1). split; rewrite Eb.
  - destruct H1 as [D1 D2 D3]. split; rewrite ?(gr_sb _ _ _ _ _ Hg); [done|apply (gr_used _ _ _ _ _ Hg); [lia|done]|].
    intros b' Hb'. rewrite (BBLOCK_sb s s') by apply (gr_sb _ _ _ _ _ Hg). by apply D3.
  - intros i Hi E. destruct (decide (slot s x i = 0)) as [E0|E0].
    + pose proof (gr_new _ _ _ _ _ Hg i Hi E0) as Hf. rewrite E in Hf. rewrite (db_used _ _ H1) in Hf.
      by specialize (Hf ltac:(lia)).
    + rewrite (gr_slots _ _ _ _ _ Hg) in E by done. by apply (H2 i).
Qed.

(** The tail of [writei]: a longer file gets its size stored. *)
Lemma set_size_update s ip x n :
  file_ok s ip x → inode_block_ok s x →
  ∃ s', (set_inode ip (set_size x n) ;; iupdate ip) s = Ret (tt, s') ∧ file_ok s' ip (set_size x n) ∧
    (∀ i, 0 ≤ i ≤ INDIRECT → slot s' (set_size x n) i = slot s x i) ∧
    same_bytes s x s' (set_size x n) ∧ sb s' = sb s ∧
    (∀ b, b ≠ IBLOCK (inum x) s → blk s' !! b = blk s !! b) ∧
    (∀ j, j ≠ ip → icache s' !! j = icache s !! j).
Proof.
  intros Hok [Hib Hns]. set (s1 := set_icache s (<[ip := set_size x n]> (icache s))).
  pose proof (set_size_ok s ip x n Hok) as Hok1. fold s1 in Hok1.
  destruct (f_disk _ _ _ Hok (IBLOCK (inum x) s)) as (d & Hd & Hl); [pose proof (db_range _ _ Hib); lia|].
  pose proof (f_naddrs _ _ _ Hok) as Ha.
  assert (inum (set_size x n) = inum x) as En by done.
  set (d' := splice d (Z.to_nat (dip_off (inum x))) (dinode_bytes (set_size x n))).
  assert (length d' = 512%nat) as Hd'.
  { unfold d'. destruct (dip_off_nat (inum x)) as [_ ?]. rewrite splice_length; [done|]. rewrite dinode_bytes_length; [lia|done]. }
  set (s2 := set_blk s1 (<[IBLOCK (inum x) s := d']> (blk s1))).
  assert (changed_at s1 s2 (IBLOCK (inum x) s)) as Hch.
  { split; [done| |].
    - intros b Hb. cbn [s2 blk set_blk]. by rewrite lookup_insert_ne.
    - intros _. cbn [s2 blk set_blk]. rewrite lookup_insert_eq. eauto. }
  exists s2. split.
  { erewrite M_bind_run by done.
    apply (iupdate_run s1 ip (set_size x n) d); [apply (f_inode _ _ _ Hok1)|done..]. }
  assert (data_block s1 (IBLOCK (inum x) s)) as Hib1 by (destruct Hib; by split).
  destruct (meta_change s1 s2 ip (set_size x n) _ Hok1 Hch Hib1) as (R1 & R2 & R3); [exact Hns|done|].
  split_and!; [done|exact R2|exact R3|done| |].
  - intros b Hb. cbn [s2 blk set_blk]. by rewrite lookup_insert_ne.
  - intros j Hj. cbn [s2 s1 icache set_blk set_icache]. by rewrite list_lookup_insert_ne.
Qed.

(** ** [readi] and [writei] *)
Section rw.
Context (dev_read : Z → option (nat → Z → M fs (Z * list Z))).
Context (dev_write : Z → option (nat → list Z → M fs Z)).

Lemma u32_add_overflow off n : 0 ≤ off < 2 ^ 32 → 0 ≤ n < 2 ^ 32 →
  (u32 (off + n) <? off) = (2 ^ 32 <=? off + n) ∧ (off + n < 2 ^ 32 → u32 (off + n) = off + n).
Proof.
  intros Ho Hn. split; [|intros; apply u32_small; lia]. unfold u32.
  destruct (2 ^ 32 <=? off + n) eqn:E; bool_to_prop.
  - apply Z.ltb_lt. rewrite <-(Z.mod_unique (off + n) (2 ^ 32) 1 (off + n - 2 ^ 32)); lia.
  - apply Z.ltb_ge. rewrite Z.mod_small; lia.
Qed.

Lemma readi_spec s ip x off n :
  file_ok s ip x → type x ≠ T_DEV → 0 ≤ size x ≤ 140 * 512 → 0 ≤ off < 2 ^ 32 → 0 ≤ n < 2 ^ 32 →
  if (size x <? off) || (2 ^ 32 <=? off + n) then readi dev_read ip off n s = Ret (-1, [], s)
  else
    readi dev_read ip off n s = full_disk ∨
    let r := Z.min n (size x - off) in
    ∃ s' x', readi dev_read ip off n s = Ret (r, frange s x off r, s') ∧
      mapped s ip x s' x' (off / 512) (ceil512 (off + r)).
Proof.
  intros Hok Ht Hsz Ho Hn. destruct (u32_add_overflow off n Ho Hn) as [Eo Es].
  unfold readi. erewrite !M_bind_run by (apply get_inode_run, (f_inode _ _ _ Hok)).
  apply Z.eqb_neq in Ht. rewrite Ht, Eo. case_if as E; [done|]. bool_to_prop. rewrite Es by lia.
  set (r := Z.min n (size x - off)).
  assert ((if size x <? off + n then u32 (size x - off) else n) = r) as Er.
  { unfold r. case_if; [rewrite u32_small by lia|]; lia. }
  rewrite Er. assert (0 ≤ r ∧ off + r ≤ 140 * 512) as Hr by (unfold r; lia).
  destruct (readi_loop_spec ip (Z.to_nat r) s x off r 0 Hok) as [F|(s' & x' & R & Hm)]; try lia.
  - left. unfold mbind at 1, M_bind at 1. by rewrite F.
  - right. exists s', x'. rewrite Z.sub_0_r in *. erewrite M_bind_run by exact R. done.
Qed.

(** What a successful [writei] has done. *)
Record wrote (s : fs) (ip : nat) (x : inode) (s' : fs) (x' : inode) (src : list Z) (off n : Z) : Prop := {
  wo_ok : file_ok s' ip x';
  wo_inode_block : inode_block_ok s' x';
  wo_bytes k : 0 ≤ k < 140 * 512 → fbyte s' x' k = overlay s x src off n k;
  wo_size : size x' = if 0 <? n then Z.max (size x) (off + n) else size x;
  wo_meta : set_size (set_addrs x' (addrs x)) (size x) = x;
  wo_slots i : 0 ≤ i ≤ INDIRECT → slot s x i ≠ 0 → slot s' x' i = slot s x i;
  wo_new i : 0 ≤ i ≤ INDIRECT → slot s x i = 0 → slot s' x' i ≠ 0 → in_use s (slot s' x' i) = false;
  wo_mapped i : off / 512 ≤ i < ceil512 (off + n) → 0 < n → slot s' x' i ≠ 0;
  wo_sb : sb s' = sb s;
  wo_others j : j ≠ ip → icache s' !! j = icache s !! j;
  wo_touches b : blk s' !! b ≠ blk s !! b →
    (∃ b', 0 ≤ b' < sb_size (sb s) ∧ b = BBLOCK b' s) ∨ b = IBLOCK (inum x) s ∨
    (b ≠ 0 ∧ (b = ind x' ∨ ∃ i, off / 512 ≤ i < ceil512 (off + n) ∧ b = slot s' x' i))
}.

Lemma writei_spec s ip x src off n :
  file_ok s ip x → inode_block_ok s x → type x ≠ T_DEV → 0 ≤ size x ≤ 140 * 512 →
  0 ≤ off < 2 ^ 32 → 0 ≤ n < 2 ^ 32 → n ≤ Z.of_nat (length src) →
  if (size x <? off) || (140 * 512 <? off + n) then writei dev_write ip src off n s = Ret (-1, s)
  else
    writei dev_write ip src off n s = full_disk ∨
    ∃ s' x', writei dev_write ip src off n s = Ret (n, s') ∧ wrote s ip x s' x' src off n.
Proof.
  intros Hok Hib Ht Hsz Ho Hn Hsrc. destruct (u32_add_overflow off n Ho Hn) as [Eo Es].
  unfold writei. erewrite !M_bind_run by (apply get_inode_run, (f_inode _ _ _ Hok)).
  apply Z.eqb_neq in Ht. rewrite Ht, Eo. change (MAXFILE * BSIZE) with (140 * 512).
  destruct (size x <? off) eqn:E1; [done|]. cbn [orb]. bool_to_prop.
  destruct (2 ^ 32 <=? off + n) eqn:E2; bool_to_prop.
  { destruct (140 * 512 <? off + n) eqn:E3; [done|]. bool_to_prop. lia. }
  rewrite Es by lia. destruct (140 * 512 <? off + n) eqn:E3; [done|]. bool_to_prop.
  destruct (writei_loop_spec ip (Z.to_nat n) s x src off n 0 Hok) as [F|(s1 & x1 & R & [W1 W2 W3 W4 W5])];
    rewrite ?Z.sub_0_r in *; try lia.
  { left. unfold mbind at 1, M_bind at 1. by rewrite F. }
  right. erewrite !M_bind_run by exact R. erewrite M_bind_run by (apply get_inode_run, (f_inode _ _ _ W1)).
  pose proof (grows_inode_block _ _ _ _ _ Hok W1 W3 Hib) as Hib1.
  pose proof (gr_meta _ _ _ _ _ W3) as Em. assert (size x1 = size x) as Esz by (rewrite Em; done).
  assert (inum x1 = inum x) as En by (rewrite Em; done).
  assert (IBLOCK (inum x1) s1 = IBLOCK (inum x) s) as Eb by (unfold IBLOCK; by rewrite (gr_sb _ _ _ _ _ W3), En).
  destruct ((0 <? n) && (size x1 <? off + n)) eqn:Ec.
  - bool_to_prop. destruct (set_size_update s1 ip x1 (off + n) W1 Hib1) as (s2 & U1 & U2 & U3 & U4 & U5 & U6 & U7).
    exists s2, (set_size x1 (off + n)). split; [by erewrite M_bind_run by exact U1|]. split.
    + done.
    + destruct Hib1 as [[D1 D2 D3] D4].
      assert (IBLOCK (inum (set_size x1 (off + n))) s2 = IBLOCK (inum x1) s1) as Eb2 by (unfold IBLOCK; by rewrite U5).
      split; rewrite Eb2; [|intros i Hi; rewrite U3 by done; by apply D4].
      assert (changed_at s1 s2 (IBLOCK (inum x1) s1)) as Hch.
      { split; [done..|]. intros _. apply (f_disk _ _ _ U2). rewrite U5. lia. }
      eapply (changed_data_block s1 s2); [done|right; by split|lia|by split].
    + intros k Hk. rewrite U4 by done. by apply W2.
    + cbn [size set_size]. apply Z.ltb_lt in H. rewrite H. rewrite Esz in *. lia.
    + rewrite Em. by destruct x.
    + intros i Hi Hni. rewrite U3 by done. by apply (gr_slots _ _ _ _ _ W3).
    + intros i Hi H0i. rewrite U3 by done. by apply (gr_new _ _ _ _ _ W3).
    + intros i Hi Hpos. rewrite U3; [by apply W5|]. unfold ceil512, INDIRECT in *. Z.div_mod_to_equations. lia.
    + rewrite U5. apply (gr_sb _ _ _ _ _ W3).
    + intros j Hj. rewrite U7 by done. by apply (gr_others _ _ _ _ _ W3).
    + intros b Hb. destruct (decide (b = IBLOCK (inum x) s)) as [|Hne]; [by right; left|].
      rewrite U6 in Hb by congruence. destruct (W4 b Hb) as [?|(Hb0 & Hor)]; [by left|]. right. right.
      split; [done|]. destruct Hor as [->|(i & Hi & ->)]; [by left|right]. exists i. split; [done|].
      symmetry. apply U3. unfold ceil512, INDIRECT in *. Z.div_mod_to_equations. lia.
  - exists s1, x1. split; [done|]. split; try done.
    + rewrite Esz. apply andb_false_iff in Ec as [Ec|Ec]; [by rewrite Ec|]. bool_to_prop. case_if; lia.
    + rewrite Em. by destruct x.
    + by apply (gr_slots _ _ _ _ _ W3).
    + by apply (gr_new _ _ _ _ _ W3).
    + apply (gr_sb _ _ _ _ _ W3).
    + by apply (gr_others _ _ _ _ _ W3).
    + intros b Hb. destruct (W4 b Hb) as [?|?]; [by left|by right; right].
Qed.
End rw.

(** A block that belongs to something else: in use, and neither part of the
    bitmap, nor the inode block of the file, nor one of its slots. *)
Definition foreign (s : fs) (x : inode) (b : Z) : Prop :=
  0 ≤ b < sb_size (sb s) ∧ in_use s b = true ∧ (∀ b', 0 ≤ b' < sb_size (sb s) → BBLOCK b' s ≠ b) ∧
  b ≠ IBLOCK (inum x) s ∧ ∀ i, 0 ≤ i ≤ INDIRECT → slot s x i ≠ b.

Lemma wrote_foreign s ip x s' x' src off n b :
  0 ≤ off → off + n ≤ 140 * 512 → wrote s ip x s' x' src off n → foreign s x b → blk s' !! b = blk s !! b.
Proof.
  intros H0 Hend Hw (Hr & Hu & Hbm & Hib & Hs). destruct (decide (blk s' !! b = blk s !! b)) as [|Hne]; [done|].
  assert (∀ i, 0 ≤ i ≤ INDIRECT → b ≠ 0 → slot s' x' i ≠ b) as Hs'.
  { intros i Hi Hb0 E. destruct (decide (slot s x i = 0)) as [E0|E0].
    - pose proof (wo_new _ _ _ _ _ _ _ _ Hw i Hi E0) as Hf. rewrite E, Hu in Hf. by specialize (Hf Hb0).
    - rewrite (wo_slots _ _ _ _ _ _ _ _ Hw) in E by done. by apply (Hs i). }
  destruct (wo_touches _ _ _ _ _ _ _ _ Hw b Hne) as [(b' & Hb' & ->)|[->|(Hb0 & [->|(i & Hi & ->)])]].
  - by destruct (Hbm b' Hb').
  - done.
  - by destruct (Hs' INDIRECT).
  - destruct (Hs' i); [|done|done]. unfold ceil512, INDIRECT in *. Z.div_mod_to_equations. lia.
Qed.


(** An empty file, inode 1, on the disk of [demo_fs]. *)
Definition demo_empty : inode := Inode 1 1 1 (SLock 1 0) 1 T_FILE 0 0 1 0 (replicate 13 0).
Definition demo_file : fs := Fs (blk demo_fs) demo_sb [demo_empty].

Lemma demo_slot i : slot demo_file demo_empty i = 0.
Proof.
  unfold slot. change (ind demo_empty) with 0. case_if as E; [|by case_if]. cbn [addrs demo_empty].
  destruct (replicate 13 0 !! Z.to_nat i) eqn:El; [|done]. by apply lookup_replicate in El as [-> _].
Qed.

Lemma demo_file_ok : file_ok demo_file 0 demo_empty.
Proof.
  split; try done.
  - destruct demo_bitmap_ok. by split.
  - intros b Hb. cbn [sb demo_file demo_sb sb_size] in Hb. assert (b ∈ seqZ 0 20) as Hin by (apply elem_of_seqZ; lia).
    unfold seqZ in Hin. cbn in Hin.
    repeat (apply elem_of_cons in Hin as [->|Hin]; [eexists; split; vm_compute; reflexivity|]).
    by apply not_elem_of_nil in Hin.
  - intros i _. by rewrite demo_slot.
  - intros i j _ _. by rewrite demo_slot.
Qed.

Lemma demo_inode_block : inode_block_ok demo_file demo_empty.
Proof.
  split; [|intros i _; by rewrite demo_slot]. change (IBLOCK (inum demo_empty) demo_file) with 2.
  split; [done|by vm_compute|]. intros b Hb. cbn [sb demo_file demo_sb sb_size] in Hb.
  unfold BBLOCK, BPB. cbn [sb demo_file demo_sb bmapstart]. rewrite Z.div_small; lia.
Qed.

