(* ===== verification/FsPath.v ===== *)
(** * Path names ([skipelem]) and directory names ([namecmp])

    The reference for a path is the list of its non-empty components. *)

From stdpp Require Import base numbers list gmap sets strings.
From S2P Require Import Prelude Fs.

Open Scope Z_scope.

(** ** Components of a path *)

(** Cut at every slash. *)
Fixpoint split (path : list Z) : list (list Z) :=
  match path with
  | [] => [[]]
  | c :: path =>
      match split path with
      | e :: es => if c =? slash then [] :: e :: es else (c :: e) :: es
      | [] => []
      end
  end.
Definition elements (path : list Z) : list (list Z) := filter (λ e, e ≠ []) (split path).

Lemma split_ne path : split path ≠ [].
Proof. induction path as [|c path IH]; cbn; [done|]. destruct (split path); [done|]. by destruct (c =? slash). Qed.

Lemma split_cons_slash path : split (slash :: path) = [] :: split path.
Proof.
  cbn [split]. pose proof (split_ne path). destruct (split path); [done|]. by rewrite Z.eqb_refl.
Qed.

Lemma elements_skip path : elements (skip_slashes path) = elements path.
Proof.
  induction path as [|c path IH]; [done|]. cbn [skip_slashes]. case_if as E; [|done]. subst c.
  rewrite IH. unfold elements. rewrite split_cons_slash, filter_cons_False; [done|]. by intros [].
Qed.

Lemma skip_slashes_head path : head (skip_slashes path) ≠ Some slash.
Proof.
  induction path as [|c path IH]; [done|]. cbn [skip_slashes]. case_if; [done|]. cbn. congruence.
Qed.

Lemma skip_slashes_length path : (length (skip_slashes path) ≤ length path)%nat.
Proof. induction path as [|c path IH]; [done|]. cbn [skip_slashes length]. case_if; cbn; lia. Qed.

Lemma span_elem_spec path e r : span_elem path = (e, r) →
  path = e ++ r ∧ Forall (λ c, c ≠ slash) e ∧ (r = [] ∨ head r = Some slash).
Proof.
  revert e r. induction path as [|c path IH]; intros e r E; cbn [span_elem] in E.
  { injection E as <- <-. split_and!; [done|constructor|by left]. }
  destruct (c =? slash) eqn:Ec; bool_to_prop.
  - injection E as <- <-. subst. split_and!; [done|constructor|by right].
  - destruct (span_elem path) as [e' r']. injection E as <- <-.
    destruct (IH e' r' eq_refl) as (-> & Hf & Hr). split_and!; [done|by constructor|done].
Qed.

Lemma split_app e r : Forall (λ c, c ≠ slash) e →
  ∃ x xs, split r = x :: xs ∧ split (e ++ r) = (e ++ x) :: xs.
Proof.
  induction 1 as [|c e Hc Hf (x & xs & E & IH)].
  - pose proof (split_ne r). destruct (split r) as [|x xs] eqn:E; [done|]. by exists x, xs.
  - exists x, xs. split; [done|]. cbn [app split]. rewrite IH. apply Z.eqb_neq in Hc. by rewrite Hc.
Qed.

Lemma elements_elem e r : e ≠ [] → Forall (λ c, c ≠ slash) e → r = [] ∨ head r = Some slash →
  elements (e ++ r) = e :: elements r.
Proof.
  intros Hne Hf Hr. unfold elements. destruct (split_app e r Hf) as (x & xs & E & ->).
  assert (x = []) as ->.
  { destruct Hr as [->|Hr]; [by injection E|]. destruct r as [|c r]; [done|]. injection Hr as ->.
    rewrite split_cons_slash in E. by injection E. }
  rewrite app_nil_r, E, filter_cons_True by done. rewrite filter_cons_False; [done|]. by intros [].
Qed.

Lemma elements_nil_iff path : head path ≠ Some slash → elements path = [] ↔ path = [].
Proof.
  intros Hh. split; [|intros ->; done]. destruct path as [|c path]; [done|]. intros He.
  destruct (span_elem (c :: path)) as [e r] eqn:E. destruct (span_elem_spec _ _ _ E) as (Ep & Hf & Hr).
  assert (e ≠ []) as Hne.
  { intros ->. cbn in Ep. subst r. destruct Hr as [?|?]; [done|]. by apply Hh. }
  rewrite Ep, elements_elem in He by done. done.
Qed.

Lemma skipelem_spec path :
  match skipelem path with
  | None => elements path = []
  | Some (rest, name) => ∃ e, elements path = e :: elements rest ∧ e ≠ [] ∧
      name = take (Z.to_nat DIRSIZ) e ∧ Forall (λ c, c ≠ slash) e ∧
      head rest ≠ Some slash ∧ (rest = [] ↔ elements rest = []) ∧ (length rest < length path)%nat
  end.
Proof.
  unfold skipelem. destruct (skip_slashes path) as [|c p] eqn:Es.
  { by rewrite <-elements_skip, Es. }
  destruct (span_elem (c :: p)) as [e r] eqn:E. destruct (span_elem_spec _ _ _ E) as (Ep & Hf & Hr).
  assert (e ≠ []) as Hne.
  { intros ->. cbn in Ep. subst r. destruct Hr as [?|Hh]; [done|].
    pose proof (skip_slashes_head path) as H. by rewrite Es in H. }
  exists e. split_and!; try done.
  - rewrite <-elements_skip, Es, Ep, elements_elem, elements_skip by done. done.
  - apply skip_slashes_head.
  - symmetry. apply elements_nil_iff, skip_slashes_head.
  - pose proof (skip_slashes_length path) as H1. pose proof (skip_slashes_length r) as H2.
    rewrite Es, Ep, length_app in H1. destruct e; [done|]. cbn in *. lia.
Qed.

(** Iterating [skipelem] over the whole path. *)
Fixpoint all_elems (path : list Z) (fuel : nat) : option (list (list Z)) :=
  match skipelem path with
  | None => Some []
  | Some (rest, name) =>
      match fuel with
      | O => None
      | S fuel => cons name <$> all_elems rest fuel
      end
  end.


(** The examples of the comment above [skipelem]: ["a/bb/c"], ["///a//bb"],
    ["a"] and the paths without an element. *)
Example skipelem_doc :
  skipelem [97; 47; 98; 98; 47; 99] = Some ([98; 98; 47; 99], [97]) ∧
  skipelem [47; 47; 47; 97; 47; 47; 98; 98] = Some ([98; 98], [97]) ∧
  skipelem [97] = Some ([], [97]) ∧ skipelem [] = None ∧ skipelem [47; 47; 47; 47] = None.
Proof. by vm_compute. Qed.

(** ** Comparing names *)

(** The characters of a name that count: up to a NUL, at most [n]. *)
Fixpoint significant (s : list Z) (n : nat) : list Z :=
  match n, s with
  | S n, c :: s => if c =? 0 then [] else c :: significant s n
  | _, _ => []
  end.

Lemma significant_S n s :
  significant s (S n) =
    let c := default 0 (head s) in if c =? 0 then [] else c :: significant (tail s) n.
Proof. by destruct s. Qed.

Lemma head_byte (s : list Z) : Forall (λ c, 0 ≤ c < 256) s → 0 ≤ default 0 (head s) < 256.
Proof. destruct 1; cbn; [lia|done]. Qed.

Lemma namecmp_loop_spec n : ∀ p q,
  Forall (λ c, 0 ≤ c < 256) p → Forall (λ c, 0 ≤ c < 256) q →
  namecmp_loop p q n = 0 ↔ significant p n = significant q n.
Proof.
  induction n as [|n IH]; intros p q Hp Hq; [by destruct p, q|].
  rewrite !significant_S. cbn [namecmp_loop]. cbv zeta.
  pose proof (head_byte p Hp). pose proof (head_byte q Hq). rewrite !u8_small by lia.
  generalize dependent (default 0 (head q)). generalize dependent (default 0 (head p)). intros a Ha b Hb.
  destruct (Z.eqb_spec a 0) as [->|Ea]; cbn [negb andb].
  - destruct (Z.eqb_spec b 0); split; (done || lia).
  - destruct (Z.eqb_spec a b) as [->|Eb].
    + destruct (Z.eqb_spec b 0); [done|]. rewrite IH by (by apply Forall_tail).
      split; [by intros ->|by intros [= ->]].
    + destruct (Z.eqb_spec b 0); split; try lia; by intros [=].
Qed.

(** A name stored with [dirname] is found again, and no other name is. *)
Lemma significant_dirname name : significant (dirname name) (Z.to_nat DIRSIZ) = significant name (Z.to_nat DIRSIZ).
Proof.
  unfold dirname. generalize (Z.to_nat DIRSIZ) as n. intros n.
  assert (∀ k l, (n ≤ k)%nat → significant (take n (l ++ replicate k 0)) n = significant l n) as H; [|by apply H].
  induction n as [|n IH]; intros k l Hk; [by destruct l, k|]. destruct l as [|c l]; cbn [app].
  - by destruct k; [lia|].
  - cbn [take significant]. case_if; [done|]. f_equal. apply IH. lia.
Qed.

Lemma dirname_matches name name' :
  Forall (λ c, 0 ≤ c < 256) name → Forall (λ c, 0 ≤ c < 256) name' →
  namecmp name' (dirname name) = 0 ↔
    significant name' (Z.to_nat DIRSIZ) = significant name (Z.to_nat DIRSIZ).
Proof.
  intros H1 H2. unfold namecmp. rewrite namecmp_loop_spec; [|done|].
  - by rewrite significant_dirname.
  - unfold dirname. apply Forall_take, Forall_app. split; [done|]. apply Forall_replicate. lia.
Qed.
