(* ===== verification/FsDir.v ===== *)
(** * Directories of the file system ([dirlookup], [dirlink], and the entry
    that [sys_unlink] clears)

    A directory file is a list of 16-byte entries, an entry an inode number (0
    when it is free) and a name of 14 bytes.  The theorem says that the
    operations implement a finite map from names to inode numbers. *)

From stdpp Require Import base numbers list gmap sets strings.
From S2P Require Import Prelude Spinlock Fs FsBlocks FsInode FsFile FsCache FsPath.

Open Scope Z_scope.

(** ** The entries and the map they stand for *)
Definition dentry : Type := Z * list Z.

(** What [namecmp] and [strncpy] look at: the characters up to a NUL, 14 at most. *)
Definition name_key (nm : list Z) : list Z := significant nm (Z.to_nat DIRSIZ).

Definition entry (s : fs) (x : inode) (o : Z) : dentry :=
  (fbyte s x o + 256 * fbyte s x (o + 1), frange s x (o + 2) DIRSIZ).
Definition entries (s : fs) (x : inode) : list dentry :=
  (λ j, entry s x (DIRENT * j)) <$> seqZ 0 (size x / DIRENT).

Definition live (e : dentry) : bool := negb (e.1 =? 0).
(** The first live entry with a name counts. *)
Fixpoint dirmap (es : list dentry) : gmap (list Z) Z :=
  match es with
  | [] => ∅
  | e :: es => if live e then <[name_key e.2 := e.1]> (dirmap es) else dirmap es
  end.
Definition live_names (es : list dentry) : list (list Z) :=
  name_key ∘ snd <$> filter (λ e, live e = true) es.

Definition bytes (l : list Z) : Prop := Forall (λ c, 0 ≤ c < 256) l.

(** ** The abstract operations on lists of entries *)
Definition matches (name : list Z) (e : dentry) : bool := live e && (namecmp name e.2 =? 0).
Fixpoint find_entry (f : dentry → bool) (es : list dentry) (j : nat) : option (nat * dentry) :=
  match es with
  | [] => None
  | e :: es => if f e then Some (j, e) else find_entry f es (S j)
  end.

Lemma find_entry_Some f es : ∀ j k e, find_entry f es j = Some (k, e) →
  ∃ i, k = (j + i)%nat ∧ es !! i = Some e ∧ f e = true ∧ ∀ i' e', (i' < i)%nat → es !! i' = Some e' → f e' = false.
Proof.
  induction es as [|e0 es IH]; intros j k e E; cbn in E; [done|]. destruct (f e0) eqn:Ef.
  - injection E as <- <-. exists 0%nat. split_and!; [lia|done|done|lia].
  - destruct (IH _ _ _ E) as (i & -> & Hi & He & Hlt). exists (S i). split_and!; [lia|done|done|].
    intros [|i'] e' Hl Hi'; [by injection Hi' as <-|]. eapply (Hlt i'); [lia|done].
Qed.

Lemma find_entry_None f es : ∀ j, find_entry f es j = None ↔ ∀ e, e ∈ es → f e = false.
Proof.
  induction es as [|e0 es IH]; intros j; cbn.
  { split; [|done]. by intros _ e ?%not_elem_of_nil. }
  destruct (f e0) eqn:Ef.
  - split; [done|]. intros H. specialize (H e0). rewrite Ef in H. discriminate H. by left.
  - rewrite IH. split; intros H e; [intros [->|He]%elem_of_cons|intros He]; auto. apply H. by right.
Qed.

Definition names_bytes (es : list dentry) : Prop := Forall (λ e : dentry, bytes e.2) es.

(** The stored name of an entry has 14 bytes; a match is equality of keys. *)
Lemma matches_key name (e : dentry) :
  bytes name → bytes e.2 → matches name e = live e && bool_decide (name_key name = name_key e.2).
Proof.
  intros H1 H2. unfold matches. f_equal. pose proof (namecmp_loop_spec (Z.to_nat DIRSIZ) name e.2 H1 H2) as H.
  fold (namecmp name e.2) in H. destruct (Z.eqb_spec (namecmp name e.2) 0) as [E|E].
  - symmetry. apply bool_decide_eq_true. by apply H.
  - symmetry. apply bool_decide_eq_false. by intros E'%H.
Qed.

(** Finding an entry is looking the name up in the map. *)
Lemma find_entry_map name es j : bytes name → names_bytes es →
  (λ r : nat * dentry, r.2.1) <$> find_entry (matches name) es j = dirmap es !! name_key name.
Proof.
  intros Hn. revert j. induction es as [|e es IH]; intros j Hb; cbn [find_entry dirmap]; [done|].
  apply Forall_cons in Hb as [Hb1 Hb2]. rewrite matches_key by done.
  destruct (live e); cbn [andb]; [|by apply IH].
  case_bool_decide as E; cbn; [by rewrite E, lookup_insert_eq|].
  rewrite lookup_insert_ne by done. by apply IH.
Qed.

Lemma dirmap_dom es k : k ∈ dom (dirmap es) ↔ k ∈ live_names es.
Proof.
  unfold live_names. induction es as [|e es IH]; cbn [dirmap].
  { rewrite dom_empty_L. cbn. set_solver. }
  rewrite filter_cons. destruct (live e); cbn [decide decide_rel].
  - rewrite decide_True by done. rewrite fmap_cons, dom_insert_L, elem_of_union, elem_of_singleton, IH, elem_of_cons.
    done.
  - by rewrite decide_False.
Qed.

Lemma live_names_app es es' : live_names (es ++ es') = live_names es ++ live_names es'.
Proof. unfold live_names. by rewrite filter_app, fmap_app. Qed.

(** Replacing the free entry [j], or adding one at the end. *)
Definition put_entry (es : list dentry) (j : nat) (e : dentry) : list dentry := take j es ++ e :: drop (S j) es.

Lemma dirmap_app es es' : dirmap (es ++ es') = dirmap es ∪ dirmap es'.
Proof.
  induction es as [|e es IH]; cbn [app dirmap]; [by rewrite (left_id_L ∅ (∪))|].
  destruct (live e); [|done]. by rewrite IH, insert_union_l.
Qed.

Lemma dirmap_cons e es : dirmap (e :: es) = dirmap [e] ∪ dirmap es.
Proof. apply (dirmap_app [e]). Qed.

Lemma live_names_cons e es : live_names (e :: es) = live_names [e] ++ live_names es.
Proof. apply (live_names_app [e]). Qed.

Section put.
Context (es : list dentry) (j : nat) (old : dentry).
Context (Hold : es !! j = Some old ∨ j = length es ∧ old = (0, [])).

Lemma put_split : ∃ l r, es ++ (if decide (j = length es) then [old] else []) = l ++ old :: r ∧
  ∀ e, put_entry es j e = l ++ e :: r.
Proof using Hold.
  unfold put_entry. destruct Hold as [H|[-> ->]].
  - pose proof (lookup_lt_Some _ _ _ H). rewrite decide_False by lia. rewrite app_nil_r.
    exists (take j es), (drop (S j) es). split; [by rewrite take_drop_middle|done].
  - rewrite decide_True by done. exists es, []. split; [done|].
    intros e. by rewrite take_ge, drop_ge by lia.
Qed.

Lemma dirmap_old : dirmap (es ++ (if decide (j = length es) then [old] else [])) = dirmap es.
Proof using Hold.
  case_decide as E; [|by rewrite app_nil_r]. destruct Hold as [H|[_ ->]].
  - pose proof (lookup_lt_Some _ _ _ H). lia.
  - rewrite dirmap_app. cbn. by rewrite (right_id_L ∅ (∪)).
Qed.
Lemma live_names_old : live_names (es ++ (if decide (j = length es) then [old] else [])) = live_names es.
Proof using Hold.
  case_decide as E; [|by rewrite app_nil_r]. destruct Hold as [H|[_ ->]].
  - pose proof (lookup_lt_Some _ _ _ H). lia.
  - rewrite live_names_app. cbn. by rewrite app_nil_r.
Qed.

(** Filling a free entry with a new name. *)
Lemma put_new e : live old = false → live e = true → name_key e.2 ∉ live_names es → NoDup (live_names es) →
  dirmap (put_entry es j e) = <[name_key e.2 := e.1]> (dirmap es) ∧ NoDup (live_names (put_entry es j e)).
Proof using Hold.
  intros Ho He Hn Hd. destruct put_split as (l & r & E & Ep). rewrite Ep, <-dirmap_old.
  rewrite <-live_names_old, E in Hn, Hd. rewrite E.
  assert (∀ a b, live a = false → live_names (a :: b) = live_names b) as Hdead
    by (intros a b Ha; unfold live_names; rewrite filter_cons_False; [done|by rewrite Ha]).
  assert (∀ b, live_names (e :: b) = name_key e.2 :: live_names b) as Hlive
    by (intros b; unfold live_names; rewrite filter_cons_True; [done|by rewrite He]).
  rewrite live_names_app, Hdead in Hn, Hd by done. split.
  - rewrite !dirmap_app. cbn [dirmap]. rewrite Ho, He.
    apply not_elem_of_app in Hn as [Hn _].
    rewrite <-insert_union_r; [done|]. apply not_elem_of_dom. by rewrite dirmap_dom.
  - rewrite live_names_app, Hlive. apply NoDup_app in Hd as (D1 & D2 & D3). apply not_elem_of_app in Hn as [N1 N2].
    apply NoDup_app. split_and!; [done| |by constructor].
    intros k Hk [->|Hk']%elem_of_cons; [done|]. by apply (D2 k).
Qed.

(** Clearing a live entry. *)
Lemma put_clear z : live old = true → live z = false → NoDup (live_names es) →
  dirmap (put_entry es j z) = delete (name_key old.2) (dirmap es) ∧ NoDup (live_names (put_entry es j z)).
Proof using Hold.
  intros Ho Hz Hd. destruct put_split as (l & r & E & Ep). rewrite Ep, <-dirmap_old, E.
  rewrite <-live_names_old, E in Hd.
  assert (∀ b, live_names (z :: b) = live_names b) as Hdead
    by (intros b; unfold live_names; rewrite filter_cons_False; [done|by rewrite Hz]).
  assert (∀ b, live_names (old :: b) = name_key old.2 :: live_names b) as Hlive
    by (intros b; unfold live_names; rewrite filter_cons_True; [done|by rewrite Ho]).
  rewrite live_names_app, Hlive in Hd. apply NoDup_app in Hd as (D1 & D2 & [D3 D4]%NoDup_cons). split.
  - rewrite !dirmap_app. cbn [dirmap]. rewrite Ho, Hz. rewrite delete_union, delete_insert_eq.
    rewrite !delete_id; [done|..]; apply not_elem_of_dom; rewrite dirmap_dom; [done|].
    intros Hk. apply (D2 _ Hk). by left.
  - rewrite live_names_app, Hdead. apply NoDup_app. split_and!; [done| |done].
    intros k Hk Hk'. apply (D2 k Hk). by right.
Qed.
End put.

(** ** A directory on disk *)
Record dir_file (s : fs) (dp : nat) (x : inode) : Prop := {
  d_file : file_ok s dp x;
  d_inode_block : inode_block_ok s x;
  d_type : type x = T_DIR;
  d_size : 0 ≤ size x ≤ MAXFILE * BSIZE;
  d_whole : size x mod DIRENT = 0;
  d_mapped i : 0 ≤ i < ceil512 (size x) → slot s x i ≠ 0;
  d_bytes k : 0 ≤ k < size x → 0 ≤ fbyte s x k < 256
}.

Lemma length_frange s x o n : 0 ≤ n → length (frange s x o n) = Z.to_nat n.
Proof. intros Hn. unfold frange. by rewrite length_fmap, length_seqZ. Qed.

Lemma frange_lookup s x o n (i : nat) : (Z.of_nat i < n) → frange s x o n !! i = Some (fbyte s x (o + Z.of_nat i)).
Proof. intros Hi. unfold frange. rewrite list_lookup_fmap, lookup_seqZ_lt by lia. done. Qed.

Section dir.
Context (s : fs) (dp : nat) (x : inode) (Hd : dir_file s dp x).

Lemma d_count : size x = DIRENT * (size x / DIRENT) ∧ 0 ≤ size x / DIRENT ≤ 4480.
Proof using Hd.
  pose proof (d_size _ _ _ Hd). pose proof (d_whole _ _ _ Hd). unfold DIRENT, MAXFILE, NDIRECT, NINDIRECT, BSIZE in *.
  Z.div_mod_to_equations. lia.
Qed.

Lemma length_entries : length (entries s x) = Z.to_nat (size x / DIRENT).
Proof. unfold entries. by rewrite length_fmap, length_seqZ. Qed.

Lemma entries_lookup (j : nat) : Z.of_nat j < size x / DIRENT →
  entries s x !! j = Some (entry s x (DIRENT * Z.of_nat j)).
Proof. intros Hj. unfold entries. rewrite list_lookup_fmap, lookup_seqZ_lt by lia. done. Qed.

Lemma entries_bytes : names_bytes (entries s x).
Proof using Hd.
  apply Forall_lookup. intros j e He. pose proof (lookup_lt_Some _ _ _ He) as Hl. rewrite length_entries in Hl.
  destruct d_count as [C1 C2].
  rewrite entries_lookup in He by lia. injection He as <-. apply Forall_lookup. intros i c Hc. cbn in Hc.
  pose proof (lookup_lt_Some _ _ _ Hc) as Hi. rewrite length_frange in Hi by done. unfold DIRSIZ, DIRENT in *.
  rewrite frange_lookup in Hc by lia. injection Hc as <-. apply (d_bytes _ _ _ Hd). lia.
Qed.

Context (dev_read : Z → option (nat → Z → M fs (Z * list Z))).

(** Reading an entry. *)
Lemma readi_entry o : 0 ≤ o → o + DIRENT ≤ size x →
  readi dev_read dp o DIRENT s = Ret (DIRENT, frange s x o DIRENT, s).
Proof using Hd.
  intros H0 Ho. pose proof (d_size _ _ _ Hd) as Hsz. change (MAXFILE * BSIZE) with 71680 in Hsz.
  unfold readi. erewrite M_bind_run by apply get_inode_run, (f_inode _ _ _ (d_file _ _ _ Hd)).
  rewrite (d_type _ _ _ Hd). change (T_DIR =? T_DEV) with false. cbn beta iota.
  unfold DIRENT in *. rewrite (u32_small (o + 16)) by lia.
  destruct (size x <? o) eqn:E1; bool_to_prop; [lia|]. destruct (o + 16 <? o) eqn:E2; bool_to_prop; [lia|].
  cbn [orb]. destruct (size x <? o + 16) eqn:E3; bool_to_prop; [lia|]. cbv zeta.
  erewrite M_bind_run; [done|]. rewrite (readi_loop_hit dp _ s x); [by rewrite Z.sub_0_r|apply (d_file _ _ _ Hd)|lia|lia|lia|lia|].
  intros i Hi. apply (d_mapped _ _ _ Hd). unfold ceil512 in *. Z.div_mod_to_equations. lia.
Qed.

Lemma read_dirent_run o what : 0 ≤ o → o + DIRENT ≤ size x →
  read_dirent dev_read dp o what s = Ret (entry s x o, s).
Proof using Hd.
  intros H0 Ho. unfold read_dirent. erewrite M_bind_run by by apply readi_entry. cbn beta iota.
  change (negb (DIRENT =? DIRENT)) with false. cbn beta iota.
  assert (∀ i, 0 ≤ i < DIRENT → arr_get (frange s x o DIRENT) i = Ret (fbyte s x (o + i))) as Hget.
  { intros i Hi. apply arr_get_Ret. split; [lia|]. rewrite frange_lookup by lia. do 3 f_equal. lia. }
  erewrite M_bind_run.
  2:{ unfold lift, get16. rewrite !Hget by (unfold DIRENT; lia). reflexivity. }
  erewrite M_bind_run.
  2:{ unfold lift, get_bytes. rewrite length_frange by done. change (Z.of_nat (Z.to_nat DIRENT)) with 16.
      cbn. rewrite (frange_split s x o 2 DIRENT) by (unfold DIRENT; lia). rewrite drop_app_length'.
      2:{ by rewrite length_frange. }
      rewrite take_ge; [reflexivity|]. by rewrite length_frange. }
  unfold mret, M_ret, entry. rewrite Z.add_0_r. done.
Qed.

(** The entries from index [j] on. *)
Lemma drop_entries (j : nat) : Z.of_nat j ≤ size x / DIRENT →
  if DIRENT * Z.of_nat j <? size x then
    drop j (entries s x) = entry s x (DIRENT * Z.of_nat j) :: drop (S j) (entries s x) ∧
    DIRENT * Z.of_nat j + DIRENT ≤ size x ∧ Z.of_nat (S j) ≤ size x / DIRENT
  else drop j (entries s x) = [] ∧ Z.of_nat j = size x / DIRENT.
Proof using Hd.
  intros Hj. destruct d_count as [C1 C2]. unfold DIRENT in *. case_if.
  - split; [|lia]. apply drop_S. rewrite entries_lookup by (unfold DIRENT; lia). done.
  - split; [|lia]. apply drop_ge. rewrite length_entries. unfold DIRENT. lia.
Qed.

(** The loops of [dirlookup] and [dirlink] are searches of the list. *)
Lemma dirlookup_loop_run name fuel : ∀ (j : nat),
  Z.of_nat j ≤ size x / DIRENT → size x / DIRENT - Z.of_nat j ≤ Z.of_nat fuel →
  dirlookup_loop dev_read dp name (size x) (DIRENT * Z.of_nat j) fuel s =
    Ret ((λ r : nat * dentry, (r.2.1, DIRENT * Z.of_nat r.1)) <$> find_entry (matches name) (drop j (entries s x)) j, s).
Proof using Hd.
  induction fuel as [|fuel IH]; intros j Hj Hf; cbn [dirlookup_loop]; specialize (drop_entries j Hj) as Hs; case_if.
  - destruct Hs as (_ & _ & ?). lia.
  - destruct Hs as [-> _]. done.
  - destruct Hs as (Hs & Ho & Hj'). rewrite Hs. cbn [find_entry].
    erewrite M_bind_run by (apply read_dirent_run; unfold DIRENT in *; lia).
    replace (DIRENT * Z.of_nat j + DIRENT) with (DIRENT * Z.of_nat (S j)) by lia.
    destruct (entry s x (DIRENT * Z.of_nat j)) as [i nm] eqn:Ee. unfold matches at 1, live. cbn [fst snd].
    destruct (i =? 0); cbn [negb andb]; [apply IH; lia|].
    destruct (namecmp name nm =? 0); [done|]. apply IH; lia.
  - destruct Hs as [-> _]. done.
Qed.

Definition free_slot (es : list dentry) : nat :=
  match find_entry (λ e, negb (live e)) es 0 with Some (k, _) => k | None => length es end.

Lemma free_dirent_loop fuel : ∀ (j : nat),
  Z.of_nat j ≤ size x / DIRENT → size x / DIRENT - Z.of_nat j ≤ Z.of_nat fuel →
  free_dirent dev_read dp (size x) (DIRENT * Z.of_nat j) fuel s =
    Ret (match find_entry (λ e, negb (live e)) (drop j (entries s x)) j with
         | Some (k, _) => DIRENT * Z.of_nat k | None => size x end, s).
Proof using Hd.
  destruct d_count as [C1 C2].
  induction fuel as [|fuel IH]; intros j Hj Hf; cbn [free_dirent]; specialize (drop_entries j Hj) as Hs; case_if.
  - destruct Hs as (_ & _ & ?). lia.
  - destruct Hs as [-> Ej]. rewrite Ej, <-C1. done.
  - destruct Hs as (Hs & Ho & Hj'). rewrite Hs. cbn [find_entry].
    erewrite M_bind_run by (apply read_dirent_run; unfold DIRENT in *; lia).
    replace (DIRENT * Z.of_nat j + DIRENT) with (DIRENT * Z.of_nat (S j)) by lia.
    destruct (entry s x (DIRENT * Z.of_nat j)) as [i nm] eqn:Ee. unfold live at 1. cbn [fst].
    destruct (i =? 0); cbn [negb]; [done|]. apply IH; lia.
  - destruct Hs as [-> Ej]. rewrite Ej, <-C1. done.
Qed.

Lemma free_dirent_run :
  free_dirent dev_read dp (size x) 0 (Z.to_nat (size x / DIRENT + 1)) s =
    Ret (DIRENT * Z.of_nat (free_slot (entries s x)), s).
Proof using Hd.
  destruct d_count as [C1 C2]. pose proof (free_dirent_loop (Z.to_nat (size x / DIRENT + 1)) 0%nat) as H.
  rewrite Z.mul_0_r, drop_0 in H. rewrite H by lia. unfold free_slot.
  destruct (find_entry _ _ _) as [[k e]|]; [done|]. rewrite length_entries, Z2Nat.id by lia. by rewrite <-C1.
Qed.

(** [dirlookup]: looks the name up, and caches the inode it finds. *)
Lemma dirlookup_run name : dirlookup dev_read dp name s =
  match find_entry (matches name) (entries s x) 0 with
  | None => Ret (None, s)
  | Some (j, e) => (ip ← iget (dev x) e.1; mret (Some (ip, DIRENT * Z.of_nat j))) s
  end.
Proof using Hd.
  unfold dirlookup. erewrite M_bind_run by apply get_inode_run, (f_inode _ _ _ (d_file _ _ _ Hd)).
  rewrite (d_type _ _ _ Hd). change (negb (T_DIR =? T_DIR)) with false. cbn beta iota.
  destruct d_count as [C1 C2]. pose proof (dirlookup_loop_run name (Z.to_nat (size x / DIRENT + 1)) 0%nat) as H.
  rewrite Z.mul_0_r, drop_0 in H. erewrite M_bind_run by (apply H; lia).
  by destruct (find_entry _ _ _) as [[j e]|].
Qed.
End dir.

(** ** Writing an entry *)
Lemma free_slot_spec es : let j := free_slot es in
  (j ≤ length es)%nat ∧ ∃ old, (es !! j = Some old ∨ j = length es ∧ old = (0, [])) ∧ live old = false.
Proof.
  unfold free_slot. destruct (find_entry _ es 0) as [[k e]|] eqn:E.
  - destruct (find_entry_Some _ _ _ _ _ E) as (i & -> & Hi & He & _). cbn [plus]. split.
    + pose proof (lookup_lt_Some _ _ _ Hi). lia.
    + exists e. split; [by left|by destruct (live e)].
  - split; [done|]. exists (0, []). split; [by right|done].
Qed.

Lemma put_entry_lookup es j e i : (j ≤ length es)%nat →
  put_entry es j e !! i = if decide (i = j) then Some e else es !! i.
Proof.
  intros Hj. unfold put_entry. assert (length (take j es) = j) as Hl by (rewrite length_take; lia).
  case_decide as E.
  - subst i. rewrite lookup_app_r by lia. by rewrite Hl, Nat.sub_diag.
  - destruct (decide (i < j)%nat) as [Hlt|Hge].
    + rewrite lookup_app_l by lia. by rewrite lookup_take_lt.
    + rewrite lookup_app_r by lia. rewrite Hl. destruct (i - j)%nat as [|m] eqn:Em; [lia|].
      change (drop (S j) es !! m = es !! i).
      rewrite lookup_drop. f_equal. lia.
Qed.

Lemma entry_ext s x s' x' o : (∀ k, o ≤ k < o + DIRENT → fbyte s' x' k = fbyte s x k) →
  entry s' x' o = entry s x o.
Proof.
  intros H. unfold entry, DIRENT in *. rewrite !H by lia. f_equal. apply frange_ext.
  intros i Hi. apply H. unfold DIRSIZ in Hi. lia.
Qed.

Definition entry_bytes (i : Z) (nm : list Z) : list Z := [u8 i; u8 (i / 256)] ++ nm.

Lemma entry_bytes_lookup i nm k : length nm = Z.to_nat DIRSIZ → bytes nm → 0 ≤ k < DIRENT →
  0 ≤ default 0 (entry_bytes i nm !! Z.to_nat k) < 256.
Proof.
  intros Hnm Hb Hk. assert (bytes (entry_bytes i nm)) as H.
  { unfold entry_bytes. apply Forall_app. split; [|done].
    apply Forall_cons_2; [apply u8_range|apply Forall_cons_2; [apply u8_range|apply Forall_nil_2]]. }
  destruct (lookup_lt_is_Some_2 (entry_bytes i nm) (Z.to_nat k)) as [v Hv].
  { unfold entry_bytes. rewrite length_app, Hnm. cbn [length]. unfold DIRENT, DIRSIZ in *. lia. }
  rewrite Hv. exact (Forall_lookup_1 _ _ _ _ H Hv).
Qed.

(** What holds of the state around the directory after an entry is written. *)
Definition dir_frame (s : fs) (dp : nat) (x : inode) (s' : fs) (x' : inode) : Prop :=
  sb s' = sb s ∧ dev x' = dev x ∧ inum x' = inum x ∧ ref x' = ref x ∧ ilk x' = ilk x ∧ nlink x' = nlink x ∧
  (∀ j, j ≠ dp → icache s' !! j = icache s !! j) ∧
  (∀ b, foreign s x b → blk s' !! b = blk s !! b).

Section write.
Context (s : fs) (dp : nat) (x : inode) (Hd : dir_file s dp x).
Context (j : nat) (i : Z) (nm : list Z).
Context (Hj : Z.of_nat j ≤ size x / DIRENT) (Hfit : DIRENT * (Z.of_nat j + 1) ≤ MAXFILE * BSIZE).
Context (Hi : 0 ≤ i < 65536) (Hnm : length nm = Z.to_nat DIRSIZ) (Hb : bytes nm).

Section done.
Context (s' : fs) (x' : inode) (Hw : wrote s dp x s' x' (entry_bytes i nm) (DIRENT * Z.of_nat j) DIRENT).

Lemma written_size : size x' = Z.max (size x) (DIRENT * Z.of_nat j + DIRENT).
Proof using All. by rewrite (wo_size _ _ _ _ _ _ _ _ Hw). Qed.

Lemma written_meta : x = set_size (set_addrs x' (addrs x)) (size x).
Proof using All. symmetry. apply (wo_meta _ _ _ _ _ _ _ _ Hw). Qed.

Lemma written_count : size x' / DIRENT = Z.max (size x / DIRENT) (Z.of_nat j + 1).
Proof using All.
  destruct (d_count s dp x Hd) as [C1 C2]. rewrite written_size. unfold DIRENT in *. Z.div_mod_to_equations. lia.
Qed.

Lemma written_byte k : 0 ≤ k < MAXFILE * BSIZE → fbyte s' x' k =
  if decide (DIRENT * Z.of_nat j ≤ k < DIRENT * Z.of_nat j + DIRENT)
  then default 0 (entry_bytes i nm !! Z.to_nat (k - DIRENT * Z.of_nat j)) else fbyte s x k.
Proof using All. intros Hk. by rewrite (wo_bytes _ _ _ _ _ _ _ _ Hw). Qed.

Lemma written_entry : entry s' x' (DIRENT * Z.of_nat j) = (i, nm).
Proof using All.
  assert (∀ k, 0 ≤ k < DIRENT → fbyte s' x' (DIRENT * Z.of_nat j + k) = default 0 (entry_bytes i nm !! Z.to_nat k)) as H.
  { intros k Hk. unfold DIRENT in *. rewrite written_byte by (unfold DIRENT in *; lia).
    rewrite decide_True by (unfold DIRENT; lia). do 3 f_equal. unfold DIRENT. lia. }
  unfold entry. f_equal.
  - rewrite <-(Z.add_0_r (DIRENT * Z.of_nat j)) at 1. rewrite !H by (unfold DIRENT; lia).
    cbn. unfold u8. change (2 ^ 8) with 256. rewrite (Z.mod_small (i / 256)) by (Z.div_mod_to_equations; lia).
    change (i `mod` 256 + 256 * (i `div` 256) = i). Z.div_mod_to_equations. lia.
  - apply list_eq. intros m. destruct (decide (m < Z.to_nat DIRSIZ)%nat) as [Hm|Hm].
    + rewrite frange_lookup by (unfold DIRSIZ in *; lia). rewrite <-Z.add_assoc, H by (unfold DIRSIZ, DIRENT in *; lia).
      replace (Z.to_nat (2 + Z.of_nat m)) with (S (S m)) by lia. change (Some (default 0 (nm !! m)) = nm !! m).
      destruct (lookup_lt_is_Some_2 nm m) as [v ->]; [lia|done].
    + rewrite !lookup_ge_None_2; [done|lia|]. rewrite length_frange by done. lia.
Qed.

Lemma written_entries : entries s' x' = put_entry (entries s x) j (i, nm).
Proof using All.
  pose proof (length_entries s x) as Hl. destruct (d_count s dp x Hd) as [C1 C2]. pose proof written_count as Hc.
  apply list_eq. intros m. rewrite put_entry_lookup by lia.
  destruct (decide (Z.of_nat m < size x' / DIRENT)) as [Hm|Hm].
  - rewrite entries_lookup by done. case_decide as E; [subst m; by rewrite written_entry|].
    rewrite entries_lookup by lia. f_equal. apply entry_ext. intros k Hk.
    assert (m < 4480)%nat as Hm' by (unfold DIRENT, MAXFILE, NDIRECT, NINDIRECT, BSIZE in *; lia).
    rewrite written_byte by (unfold DIRENT, MAXFILE, NDIRECT, NINDIRECT, BSIZE in *; lia).
    rewrite decide_False; [done|]. unfold DIRENT in *. lia.
  - rewrite lookup_ge_None_2; [|rewrite length_entries; lia]. rewrite decide_False by lia.
    rewrite lookup_ge_None_2; [done|]. lia.
Qed.

Lemma written_dir : dir_file s' dp x' ∧ dir_frame s dp x s' x'.
Proof using All.
  pose proof written_meta as Em. pose proof (d_count s dp x Hd) as [C1 C2]. pose proof (d_size _ _ _ Hd) as Hsz.
  pose proof written_size as Es. pose proof written_count as Ec.
  assert (∀ b, foreign s x b → blk s' !! b = blk s !! b) as Hf.
  { intros b. eapply wrote_foreign; [| |exact Hw]; unfold DIRENT, MAXFILE, NDIRECT, NINDIRECT, BSIZE in *; lia. }
  split; [split|].
  - apply (wo_ok _ _ _ _ _ _ _ _ Hw).
  - apply (wo_inode_block _ _ _ _ _ _ _ _ Hw).
  - rewrite <-(d_type _ _ _ Hd), Em. done.
  - rewrite Es. unfold DIRENT, MAXFILE, NDIRECT, NINDIRECT, BSIZE in *. lia.
  - rewrite Es. pose proof (d_whole _ _ _ Hd). unfold DIRENT in *. Z.div_mod_to_equations. lia.
  - intros b Hbk. rewrite Es in Hbk. destruct (decide (b < ceil512 (size x))) as [Hlt|Hge].
    + rewrite (wo_slots _ _ _ _ _ _ _ _ Hw); [apply (d_mapped _ _ _ Hd); lia| |apply (d_mapped _ _ _ Hd); lia].
      unfold ceil512, INDIRECT, MAXFILE, NDIRECT, NINDIRECT, BSIZE in *. Z.div_mod_to_equations. lia.
    + apply (wo_mapped _ _ _ _ _ _ _ _ Hw); [|done]. unfold ceil512, DIRENT in *. Z.div_mod_to_equations. lia.
  - intros k Hk. rewrite Es in Hk. rewrite written_byte by (unfold DIRENT in *; lia).
    case_decide as E; [apply entry_bytes_lookup; (done || lia)|]. apply (d_bytes _ _ _ Hd). unfold DIRENT in *. lia.
  - unfold dir_frame. split_and!; [apply (wo_sb _ _ _ _ _ _ _ _ Hw)|by rewrite Em..|apply (wo_others _ _ _ _ _ _ _ _ Hw)|done].
Qed.
End done.

Context (dev_write : Z → option (nat → list Z → M fs Z)).
Lemma write_entry : writei dev_write dp (entry_bytes i nm) (DIRENT * Z.of_nat j) DIRENT s = full_disk ∨
  ∃ s' x', writei dev_write dp (entry_bytes i nm) (DIRENT * Z.of_nat j) DIRENT s = Ret (DIRENT, s') ∧
    dir_file s' dp x' ∧ entries s' x' = put_entry (entries s x) j (i, nm) ∧ dir_frame s dp x s' x'.
Proof using All.
  pose proof (d_count s dp x Hd) as [C1 C2]. pose proof (d_size _ _ _ Hd) as Hsz.
  change (MAXFILE * BSIZE) with 71680 in *.
  pose proof (writei_spec (λ _, None) dev_write s dp x (entry_bytes i nm) (DIRENT * Z.of_nat j) DIRENT
    (d_file _ _ _ Hd) (d_inode_block _ _ _ Hd)) as H.
  unfold DIRENT in *. destruct ((size x <? 16 * Z.of_nat j) || (140 * 512 <? 16 * Z.of_nat j + 16)) eqn:E.
  { apply orb_true_iff in E as [?|?]; bool_to_prop; lia. }
  destruct H as [H|(s' & x' & R & Hw)].
  - rewrite (d_type _ _ _ Hd). done.
  - lia.
  - lia.
  - lia.
  - unfold entry_bytes. rewrite length_app, Hnm. done.
  - by left.
  - right. exists s', x'. destruct (written_dir s' x' Hw) as [A B]. split_and!; [exact R|done| |done].
    by apply written_entries.
Qed.
End write.

(** ** The directory and the inode cache *)
Lemma file_ok_same s ip x s' x' :
  file_ok s ip x → blk s' = blk s → sb s' = sb s → icache s' !! ip = Some x' → addrs x' = addrs x → file_ok s' ip x'.
Proof.
  intros [F1 F2 F3 F4 F5 F6 F7 F8] Eb Es Ex Ea.
  assert (∀ b, in_use s' b = in_use s b) as Hu by (intros b; unfold in_use, BBLOCK; by rewrite Eb, Es).
  assert (∀ i, slot s' x' i = slot s x i) as Hs by (intros i; unfold slot, ind, block_at; by rewrite Eb, Ea).
  assert (∀ b, BBLOCK b s' = BBLOCK b s) as HB by (intros b; unfold BBLOCK; by rewrite Es).
  split; [done|by rewrite Ea| |by rewrite Es|by rewrite Hu| | |].
  - destruct F3 as [B1 B2 B3]. split; rewrite ?Es; [done|..].
    + intros b Hb. rewrite HB, Eb. by apply B2.
    + intros b Hb. rewrite Hu, Eb. intros Hf. destruct (B3 b Hb Hf) as [? Hn]. split; [done|].
      intros b' Hb'. rewrite HB. by apply Hn.
  - intros b. rewrite Es, Eb. apply F6.
  - intros i Hi. rewrite Hs. intros Hn. destruct (F7 i Hi Hn) as [D1 D2 D3].
    split; rewrite ?Es, ?Hu; [done|done|]. intros b'. rewrite HB. apply D3.
  - intros i j Hi Hj. rewrite !Hs. by apply F8.
Qed.

(** Another lock or reference count, or another entry of the cache. *)
Lemma dir_file_same s dp x s' x' :
  dir_file s dp x → blk s' = blk s → sb s' = sb s → icache s' !! dp = Some x' →
  addrs x' = addrs x → size x' = size x → type x' = type x → inum x' = inum x →
  dir_file s' dp x' ∧ entries s' x' = entries s x.
Proof.
  intros [D1 D2 D3 D4 D5 D6 D7] Eb Es Ex Ea Ez Et En.
  assert (∀ i, slot s' x' i = slot s x i) as Hs by (intros i; unfold slot, ind, block_at; by rewrite Eb, Ea).
  assert (∀ k, fbyte s' x' k = fbyte s x k) as Hf by (intros k; unfold fbyte, block_at; by rewrite Hs, Eb).
  split.
  - split; rewrite ?Ez, ?Et; try done.
    + by eapply file_ok_same.
    + destruct D2 as [[B1 B2 B3] Ib]. assert (IBLOCK (inum x') s' = IBLOCK (inum x) s) as EI by (unfold IBLOCK; by rewrite Es, En).
      split; rewrite EI; [split; rewrite ?Es|intros i Hi; rewrite Hs; by apply Ib]; [done| |].
      * unfold in_use, BBLOCK in *. by rewrite Eb, Es.
      * intros b'. unfold BBLOCK in *. rewrite Es. apply B3.
    + intros i Hi. rewrite Hs. by apply D6.
    + intros k Hk. rewrite Hf. by apply D7.
  - unfold entries. rewrite Ez. apply list_fmap_ext. intros j o _. apply entry_ext. intros k _. apply Hf.
Qed.

Record dir_rep (s : fs) (dp : nat) (x : inode) (m : gmap (list Z) Z) : Prop := {
  dr_file : dir_file s dp x;
  dr_nodup : NoDup (live_names (entries s x));
  dr_map : dirmap (entries s x) = m;
  dr_ref : 0 < ref x
}.

Lemma dir_rep_same s dp x s' x' m :
  dir_rep s dp x m → blk s' = blk s → sb s' = sb s → icache s' !! dp = Some x' →
  addrs x' = addrs x → size x' = size x → type x' = type x → inum x' = inum x → 0 < ref x' → dir_rep s' dp x' m.
Proof.
  intros [R1 R2 R3 R4] Eb Es Ex Ea Ez Et En Hr.
  destruct (dir_file_same s dp x s' x' R1 Eb Es Ex Ea Ez Et En) as [A B]. split; rewrite ?B; done.
Qed.

Lemma iget_spec d n s :
  iget d n s = Panic "iget: no inodes" ∨
  ∃ ip y y', icache s !! ip = Some y ∧ iget d n s = Ret (ip, set_icache s (<[ip := y']> (icache s))) ∧
    cached d n y' ∧ ilk y' = ilk y ∧
    (cached d n y ∧ y' = set_ref y (ref y + 1) ∨
     ref y = 0 ∧ ref y' = 1 ∧ valid y' = 0 ∧ ∀ z, z ∈ icache s → ¬ cached d n z).
Proof.
  unfold iget. erewrite M_bind_run by done.
  pose proof (iget_scan_spec (icache s) d n 0 None) as Hs.
  destruct (iget_scan (icache s) d n 0 None) as [j|[j|]]; [| |by left].
  - destruct Hs as (k & y & -> & Hy & Hc). right. exists k, y, (set_ref y (ref y + 1)). cbn [plus].
    erewrite M_bind_run by by apply get_inode_run. split_and!; [done|done| |done|by left].
    destruct Hc as (? & ? & ?). split_and!; [|done..]. cbn. lia.
  - destruct Hs as [Hn [?|(_ & k & y & -> & Hy & H0)]]; [done|]. right. cbn [plus].
    eexists k, y, _. erewrite M_bind_run by by apply get_inode_run.
    split_and!; [done|reflexivity|split_and!; [done..]|done|by right].
Qed.

(** The directory after some inode was cached. *)
Lemma iget_dir s dp x m ip y y' d n :
  dir_rep s dp x m → icache s !! ip = Some y →
  (cached d n y ∧ y' = set_ref y (ref y + 1) ∨ ref y = 0 ∧ ref y' = 1 ∧ valid y' = 0 ∧ ∀ z, z ∈ icache s → ¬ cached d n z) →
  let s' := set_icache s (<[ip := y']> (icache s)) in
  ∃ x', dir_rep s' dp x' m ∧ (x' = x ∨ ip = dp ∧ x' = set_ref x (ref x + 1)).
Proof.
  intros Hr Hy Hor s'. pose proof (f_inode _ _ _ (d_file _ _ _ (dr_file _ _ _ _ Hr))) as Hx.
  pose proof (dr_ref _ _ _ _ Hr) as Hp. destruct (decide (ip = dp)) as [->|Hne].
  - assert (y = x) as -> by congruence. destruct Hor as [[Hc ->]|[H0 _]]; [|lia].
    exists (set_ref x (ref x + 1)). split; [|by right]. eapply dir_rep_same; try done.
    + cbn. by rewrite list_lookup_insert_eq by (by eapply lookup_lt_Some).
    + cbn. lia.
  - exists x. split; [|by left]. eapply dir_rep_same; try done. cbn. by rewrite list_lookup_insert_ne.
Qed.

(** Giving up the pointer again frees nothing. *)
Lemma iput_kept s ip y : icache s !! ip = Some y → valid y = 0 ∨ ref y ≠ 1 →
  iput ip s = if s_locked (ilk y) =? 0
    then Ret (tt, set_icache s (<[ip := set_ref (set_ilk y (SLock 0 0)) (ref y - 1)]> (icache s)))
    else Panic "waits for its own lock".
Proof.
  intros Hy Hv. pose proof (lookup_lt_Some _ _ _ Hy) as Hl. unfold iput.
  set (s1 := set_icache s (<[ip := set_ilk y (SLock 1 0)]> (icache s))).
  assert (acquire_inode ip s = if s_locked (ilk y) =? 0 then Ret (tt, s1) else Panic "waits for its own lock") as Ea.
  { unfold acquire_inode. erewrite M_bind_run by by apply get_inode_run. unfold acquiresleep.
    by destruct (s_locked (ilk y) =? 0). }
  destruct (s_locked (ilk y) =? 0).
  2:{ unfold mbind at 1, M_bind at 1. by rewrite Ea. }
  erewrite M_bind_run by exact Ea.
  assert (icache s1 !! ip = Some (set_ilk y (SLock 1 0))) as H1 by (cbn; by rewrite list_lookup_insert_eq).
  erewrite M_bind_run by by apply get_inode_run. cbn [valid nlink ref set_ilk].
  assert (negb (valid y =? 0) && (nlink y =? 0) && (ref y =? 1) = false) as ->.
  { destruct Hv as [Hv|Hv]; [by rewrite Hv|]. apply Z.eqb_neq in Hv. rewrite Hv. by rewrite andb_false_r. }
  erewrite M_bind_run by done. unfold release_inode.
  erewrite M_bind_run by (erewrite M_bind_run by (by apply get_inode_run); reflexivity).
  set (s2 := set_icache s1 _). assert (icache s2 !! ip = Some (set_ilk y (SLock 0 0))) as H2.
  { cbn. rewrite list_lookup_insert_eq; [done|]. by rewrite length_insert. }
  erewrite M_bind_run by by apply get_inode_run. unfold set_inode, s2, s1, set_icache. cbn [icache].
  by rewrite !list_insert_insert_eq.
Qed.

Definition busy {A} : outcome A := Panic "waits for its own lock".
Definition no_inodes {A} : outcome A := Panic "iget: no inodes".

Lemma iget_iput_run s dp x m d n : dir_rep s dp x m →
  let c := (ip ← iget d n; iput ip) in
  c s = no_inodes ∨ c s = busy ∨
  ∃ s' x', c s = Ret (tt, s') ∧ blk s' = blk s ∧ sb s' = sb s ∧ dir_rep s' dp x' m.
Proof.
  intros Hr c. destruct (iget_spec d n s) as [E|(ip & y & y' & Hy & E & Hc & El & Hor)].
  { left. unfold c, mbind, M_bind. by rewrite E. }
  right. unfold c. erewrite M_bind_run by exact E. pose proof (lookup_lt_Some _ _ _ Hy) as Hl.
  rewrite (iput_kept _ ip y').
  2:{ cbn. by rewrite list_lookup_insert_eq. }
  2:{ destruct Hor as [[(? & _ & _) ->]|(_ & _ & ? & _)]; [right; cbn; lia|by left]. }
  destruct (s_locked (ilk y') =? 0); [right|by left].
  destruct (iget_dir s dp x m ip y y' d n Hr Hy Hor) as (x1 & Hr1 & Hx1).
  pose proof (f_inode _ _ _ (d_file _ _ _ (dr_file _ _ _ _ Hr1))) as Hdp. cbn in Hdp.
  destruct (decide (ip = dp)) as [->|Hne]; (eexists _, _; split; [reflexivity|]; split; [done|]; split; [done|]).
  - rewrite list_lookup_insert_eq in Hdp by done. injection Hdp as ->.
    eapply (dir_rep_same _ _ _ _ (set_ref (set_ilk x1 (SLock 0 0)) (ref x1 - 1))); [exact Hr1|done|done| |done..|].
    + cbn. rewrite list_lookup_insert_eq; [done|]. by rewrite length_insert.
    + destruct Hor as [[(? & _ & _) ->]|(H0 & _)].
      * cbn in *. lia.
      * pose proof (dr_ref _ _ _ _ Hr). assert (y = x); [|subst; lia].
        pose proof (f_inode _ _ _ (d_file _ _ _ (dr_file _ _ _ _ Hr))). congruence.
  - eapply (dir_rep_same _ _ _ _ x1); [exact Hr1|done|done| |done..|by apply (dr_ref _ _ _ _ Hr1)].
    cbn. rewrite list_lookup_insert_ne by done. exact Hdp.
Qed.

(** ** Storing into blocks that are there does not need a free one *)
Definition calm {A} (m : M fs A) : Prop := ∀ s msg, m s ≠ Panic msg.
Lemma calm_bind {A B} (m : M fs A) (k : A → M fs B) : calm m → (∀ a, calm (k a)) → calm (m ≫= k).
Proof.
  intros Hm Hk s msg E. unfold mbind, M_bind in E. destruct (m s) as [[a s1]|msg'| |] eqn:Em; try done.
  - by apply (Hk a s1 msg).
  - by apply (Hm s msg').
Qed.
Lemma calm_ret {A} (a : A) : calm (mret a).
Proof. by intros s msg [=]. Qed.
Lemma calm_arr_get {A} (l : list A) i msg : arr_get l i ≠ Panic msg.
Proof. unfold arr_get. case_if; [done|]. by destruct (l !! Z.to_nat i). Qed.
Lemma calm_arr_set {A} (l : list A) i x msg : arr_set l i x ≠ Panic msg.
Proof. unfold arr_set. by case_if. Qed.
Lemma calm_put16 d o v msg : put16 d o v ≠ Panic msg.
Proof.
  unfold put16. intros E. destruct (arr_set d o (u8 v)) eqn:Ea; try done; [by apply calm_arr_set in E|by apply calm_arr_set in Ea].
Qed.
Lemma calm_put32 d o v msg : put32 d o v ≠ Panic msg.
Proof.
  unfold put32. intros E. destruct (put16 d o v) eqn:Ea; try done; [by apply calm_put16 in E|by apply calm_put16 in Ea].
Qed.
Lemma calm_put32s ws : ∀ d o msg, put32s d o ws ≠ Panic msg.
Proof.
  induction ws as [|w ws IH]; intros d o msg; cbn [put32s]; [done|]. intros E.
  destruct (put32 d o w) eqn:Ea; try done; [by apply IH in E|by apply calm_put32 in Ea].
Qed.
Lemma calm_lift {A} (o : outcome A) : (∀ msg, o ≠ Panic msg) → calm (lift o).
Proof. intros H s msg E. unfold lift in E. destruct o; try done. by apply (H msg0). Qed.

Lemma calm_get_inode ip : calm (get_inode ip).
Proof. intros s msg. unfold get_inode. by destruct (icache s !! ip). Qed.
Lemma calm_bread b : calm (bread b).
Proof. intros s msg. unfold bread. by destruct (blk s !! b). Qed.
Lemma calm_log_write b d : calm (log_write b d).
Proof. intros s msg. unfold log_write. by destruct (blk s !! b). Qed.
Lemma calm_get_st : calm get_st.
Proof. done. Qed.
Lemma calm_set_inode ip x : calm (set_inode ip x).
Proof. done. Qed.
Create HintDb calm.
#[export] Hint Resolve calm_ret calm_get_inode calm_bread calm_log_write calm_get_st calm_set_inode calm_lift
  calm_put16 calm_put32 calm_put32s : calm.

Ltac calm := repeat first [by auto with calm|apply calm_bind; [|intros ?]|case_if].

Lemma calm_iupdate ip : calm (iupdate ip).
Proof. unfold iupdate. calm. Qed.

Lemma writei_loop_done ip src off n tot fuel : n ≤ tot → writei_loop ip src off n tot fuel = mret off.
Proof. intros H. destruct fuel; cbn [writei_loop]; case_if; (done || lia). Qed.
Lemma calm_get_bytes d o n msg : get_bytes d o n ≠ Panic msg.
Proof. unfold get_bytes. by case_if. Qed.
Lemma calm_put_bytes d o src msg : put_bytes d o src ≠ Panic msg.
Proof. unfold put_bytes. by case_if. Qed.
#[export] Hint Resolve calm_get_bytes calm_put_bytes calm_iupdate : calm.

Lemma writei_mapped dev_write s ip x src off n :
  file_ok s ip x → type x ≠ T_DEV → 0 ≤ off → 0 < n → off mod 512 + n ≤ 512 → off + n ≤ 140 * 512 →
  slot s x (off / 512) ≠ 0 → writei dev_write ip src off n s ≠ full_disk.
Proof.
  intros Hok Ht H0 Hn Hmod Hend Hsl. unfold writei.
  erewrite M_bind_run by apply get_inode_run, (f_inode _ _ _ Hok).
  apply Z.eqb_neq in Ht. rewrite Ht. case_if; [done|]. case_if; [done|].
  destruct (Z.to_nat n) as [|fuel] eqn:En; [lia|]. cbn [writei_loop].
  destruct (0 <? n) eqn:E0; bool_to_prop; [|lia].
  assert (0 ≤ off / 512 < 140) as Hb by (Z.div_mod_to_equations; lia). unfold BSIZE. cbv zeta.
  rewrite Z.sub_0_r, Z.add_0_l, Z.min_l by lia. intros E.
  match type of E with (?m ≫= ?k) s = _ => assert (∃ m' : M fs Z, m s = m' s ∧ calm m') as (m' & Em & Hm) end.
  - eexists. split; [erewrite M_bind_run by exact (bmap_hit s ip x _ Hok Hb Hsl); reflexivity|].
    rewrite writei_loop_done by lia. calm.
  - unfold mbind at 1, M_bind at 1 in E. rewrite Em in E.
    revert E. apply (calm_bind m'); [done|]. intros o.
    apply (calm_bind (get_inode ip)); [by auto with calm|intros y]. calm.
Qed.

(** ** The operations on a represented directory *)
Lemma dirname_ok name : bytes name →
  length (dirname name) = Z.to_nat DIRSIZ ∧ bytes (dirname name) ∧ name_key (dirname name) = name_key name.
Proof.
  intros Hb. split_and!.
  - unfold dirname. rewrite length_take, length_app, length_replicate. lia.
  - unfold dirname. apply Forall_take, Forall_app. split; [done|]. apply Forall_replicate. lia.
  - apply significant_dirname.
Qed.

Section rep.
Context (dev_write : Z → option (nat → list Z → M fs Z)).
Context (s : fs) (dp : nat) (x : inode) (m : gmap (list Z) Z) (Hr : dir_rep s dp x m).

Lemma rep_found name j e : bytes name → find_entry (matches name) (entries s x) 0 = Some (j, e) →
  m !! name_key name = Some e.1 ∧ entries s x !! j = Some e ∧ live e = true ∧ name_key e.2 = name_key name.
Proof using Hr.
  intros Hb E. destruct Hr as [R1 R2 R3 R4]. pose proof (find_entry_map name _ 0 Hb (entries_bytes _ _ _ R1)) as Hm.
  rewrite E, R3 in Hm. destruct (find_entry_Some _ _ _ _ _ E) as (k & -> & Hk & He & _). cbn [plus] in *.
  rewrite matches_key in He by (done || exact (Forall_lookup_1 _ _ _ _ (entries_bytes _ _ _ R1) Hk)).
  apply andb_true_iff in He as [Hl Hn]. apply bool_decide_eq_true in Hn. by rewrite <-Hm.
Qed.

Lemma rep_none name : bytes name →
  find_entry (matches name) (entries s x) 0 = None ↔ m !! name_key name = None.
Proof using Hr.
  intros Hb. destruct Hr as [R1 R2 R3 R4]. pose proof (find_entry_map name _ 0 Hb (entries_bytes _ _ _ R1)) as Hm.
  rewrite R3 in Hm. rewrite <-Hm. by destruct (find_entry _ _ _).
Qed.

(** A new name goes to a free entry, or behind the last one. *)
Lemma rep_insert name i : bytes name → 0 < i < 65536 → m !! name_key name = None →
  let o := DIRENT * Z.of_nat (free_slot (entries s x)) in
  let c := writei dev_write dp (entry_bytes i (dirname name)) o DIRENT s in
  c = full_disk ∧ o = size x ∨ c = Ret (-1, s) ∧ size x = MAXFILE * BSIZE ∧ o = size x ∨
  ∃ s' x', c = Ret (DIRENT, s') ∧ dir_rep s' dp x' (<[name_key name := i]> m) ∧ dir_frame s dp x s' x'.
Proof using Hr.
  intros Hb Hi Hm o c. destruct Hr as [R1 R2 R3 R4]. destruct (d_count _ _ _ R1) as [C1 C2].
  destruct (free_slot_spec (entries s x)) as (Hj & old & Hold & Hfree).
  set (j := free_slot (entries s x)) in *. rewrite length_entries in *.
  destruct (dirname_ok name Hb) as (L1 & L2 & L3).
  destruct (decide (DIRENT * (Z.of_nat j + 1) ≤ MAXFILE * BSIZE)) as [Hfit|Hfit].
  - destruct (write_entry s dp x R1 j i (dirname name) ltac:(lia) Hfit ltac:(lia) L1 L2 dev_write)
      as [F|(s' & x' & E & F1 & F2 & F3)].
    + left. split; [exact F|]. destruct (decide (o = size x)) as [|Hn]; [done|]. exfalso.
      assert (0 ≤ o < size x ∧ o mod 512 + 16 ≤ 512) as [Ho Hmod].
      { subst o. unfold DIRENT in *. Z.div_mod_to_equations. lia. }
      revert F. apply (writei_mapped dev_write s dp x); [apply (d_file _ _ _ R1)|by rewrite (d_type _ _ _ R1)|fold o; unfold DIRENT; try lia..].
      * subst o. unfold DIRENT, MAXFILE, NDIRECT, NINDIRECT, BSIZE in *. lia.
      * apply (d_mapped _ _ _ R1). unfold ceil512. Z.div_mod_to_equations. lia.
    + right. right. exists s', x'. split_and!; [exact E| |done].
      destruct (put_new (entries s x) j old) with (e := (i, dirname name)) as [P1 P2].
      * rewrite length_entries. exact Hold.
      * done.
      * unfold live. cbn. by rewrite (proj2 (Z.eqb_neq i 0)) by lia.
      * cbn [fst snd]. rewrite L3, <-dirmap_dom, R3. by apply not_elem_of_dom.
      * done.
      * split; rewrite ?F2; [done|done| |].
        -- rewrite P1, R3. cbn [fst snd]. by rewrite L3.
        -- destruct F3 as (_ & _ & _ & -> & _). done.
  - right. left. pose proof (d_size _ _ _ R1) as Hsz. pose proof (d_whole _ _ _ R1) as Hw.
    assert (o = size x ∧ size x = MAXFILE * BSIZE) as [Eo Es].
    { subst o. unfold DIRENT, MAXFILE, NDIRECT, NINDIRECT, BSIZE in *. Z.div_mod_to_equations. lia. }
    split; [|done]. subst c. pose proof (writei_spec (λ _, None) dev_write s dp x (entry_bytes i (dirname name)) o DIRENT
      (d_file _ _ _ R1) (d_inode_block _ _ _ R1)) as H.
    rewrite Eo in *. rewrite Es in *. unfold DIRENT in *.
    replace ((MAXFILE * BSIZE <? MAXFILE * BSIZE) || (140 * 512 <? MAXFILE * BSIZE + 16)) with true in H by done.
    apply H; [by rewrite (d_type _ _ _ R1)|done|done|done|]. unfold entry_bytes. rewrite length_app, L1. done.
Qed.

(** Clearing the entry that a name was found in. *)
Lemma rep_delete name j e : bytes name → find_entry (matches name) (entries s x) 0 = Some (j, e) →
  ∃ s' x', writei dev_write dp (replicate (Z.to_nat DIRENT) 0) (DIRENT * Z.of_nat j) DIRENT s = Ret (DIRENT, s') ∧
    dir_rep s' dp x' (delete (name_key name) m) ∧ dir_frame s dp x s' x'.
Proof using Hr.
  intros Hb Ef. destruct (rep_found _ _ _ Hb Ef) as (_ & Hj & Hl & Hk). destruct Hr as [R1 R2 R3 R4].
  destruct (d_count _ _ _ R1) as [C1 C2]. pose proof (lookup_lt_Some _ _ _ Hj) as Hlt. rewrite length_entries in Hlt.
  destruct (write_entry s dp x R1 j 0 (replicate 14 0)) with (dev_write := dev_write)
    as [F|(s' & x' & E & F1 & F2 & F3)]; try done; try (unfold DIRENT, MAXFILE, NDIRECT, NINDIRECT, BSIZE in *; lia).
  { apply Forall_replicate. lia. }
  - exfalso. revert F. apply (writei_mapped dev_write s dp x);
      [apply (d_file _ _ _ R1)|by rewrite (d_type _ _ _ R1)|unfold DIRENT in *..].
    + lia.
    + lia.
    + Z.div_mod_to_equations. lia.
    + lia.
    + apply (d_mapped _ _ _ R1). unfold ceil512. Z.div_mod_to_equations. lia.
  - exists s', x'. split_and!; [exact E| |done].
    destruct (put_clear (entries s x) j e) with (z := (0, replicate 14 0)) as [P1 P2]; [by left|done..|].
    split; rewrite ?F2; [done|done| |].
    + by rewrite P1, R3, Hk.
    + destruct F3 as (_ & _ & _ & -> & _). done.
Qed.
End rep.

(** ** The theorem *)

(** Where [dirlink] finds the directory itself under the name, it waits for
    the lock its caller holds: [link("f", ".")] never returns. *)
Lemma dirlink_dot_deadlock (dev_read : Z → option (nat → Z → M fs (Z * list Z)))
    (dev_write : Z → option (nat → list Z → M fs Z)) (s : fs) (dp : nat) (x : inode) (m : gmap (list Z) Z) (name : list Z) (i : Z) :
  dir_rep s dp x m → bytes name → m !! name_key name = Some (inum x) → s_locked (ilk x) = 1 →
  (∀ j y, icache s !! j = Some y → cached (dev x) (inum x) y → j = dp) →
  dirlink dev_read dev_write dp name i s = Panic "waits for its own lock".
Proof.
  intros Hr Hb Hm Hlk Hu. pose proof (d_file _ _ _ (dr_file _ _ _ _ Hr)) as Hf. pose proof (f_inode _ _ _ Hf) as Hx.
  assert (cached (dev x) (inum x) x) as Hc by (split_and!; [apply (dr_ref _ _ _ _ Hr)|done..]).
  unfold dirlink. pose proof (dirlookup_run s dp x (dr_file _ _ _ _ Hr) dev_read name) as El.
  destruct (find_entry (matches name) (entries s x) 0) as [[j e]|] eqn:Ef.
  2:{ apply (rep_none s dp x m Hr name Hb) in Ef. congruence. }
  destruct (rep_found s dp x m Hr name j e Hb Ef) as (Hm' & _). assert (e.1 = inum x) as Ee by congruence.
  rewrite Ee in El. destruct (iget_spec (dev x) (inum x) s) as [E|(ip & y & y' & Hy & E & Hc' & Ely & Hor)].
  { exfalso. unfold iget in E. erewrite M_bind_run in E by done.
    pose proof (iget_scan_spec (icache s) (dev x) (inum x) 0 None) as Hs.
    destruct (iget_scan _ _ _ _ _) as [k|[k|]]; [| |by destruct Hs as [Hs _]; apply (Hs x); [eapply list_elem_of_lookup_2|]].
    - destruct Hs as (k' & z & -> & Hz & _). by erewrite M_bind_run in E by by apply get_inode_run.
    - destruct Hs as [Hs _]. apply (Hs x); [by eapply list_elem_of_lookup_2|done]. }
  assert (ip = dp) as ->.
  { destruct Hor as [[Hcy _]|(_ & _ & _ & Hn)]; [by eapply Hu|]. destruct (Hn x); [by eapply list_elem_of_lookup_2|done]. }
  erewrite M_bind_run by (rewrite El; erewrite M_bind_run by exact E; reflexivity). cbn beta iota.
  assert (y = x) as -> by congruence. pose proof (lookup_lt_Some _ _ _ Hx).
  unfold mbind at 1, M_bind at 1. rewrite (iput_kept _ dp y').
  - by rewrite Ely, Hlk.
  - cbn. by rewrite list_lookup_insert_eq.
  - destruct Hor as [[(? & _) ->]|(H0 & _)]; [right; cbn; lia|]. pose proof (dr_ref _ _ _ _ Hr). lia.
Qed.


(** An empty directory, inode 1, on the disk of [demo_fs]. *)
Definition demo_dir : inode := set_type demo_empty T_DIR.
Definition demo_dir_fs : fs := Fs (blk demo_fs) demo_sb [demo_dir].

Lemma demo_dir_rep : dir_rep demo_dir_fs 0 demo_dir ∅.
Proof.
  split; [split| | |]; try done.
  - by eapply (file_ok_same _ _ _ _ _ demo_file_ok).
  - destruct demo_inode_block as [[A B C] D]. split; [by split|exact D].
  - intros i Hi. exfalso. change (ceil512 (size demo_dir)) with 0 in Hi. lia.
  - intros k Hk. exfalso. cbn in Hk. lia.
  - apply NoDup_nil_2.
Qed.

