(* ===== verification/FsRefs.v ===== *)
(** * Pointers and locks in the file system

    A small logic for the operations of [Fs] that use others: an assertion says
    which pointers to inodes the kernel holds and which inodes are locked, and a
    triple how an operation that returns changes them.  [Sysfile] uses it
    for the system calls. *)

From stdpp Require Import base numbers list gmap sets strings.
From S2P Require Import Prelude Spinlock Fs FsCache.

Open Scope Z_scope.

(** ** Assertions *)

(** What counts of an entry here: its key, and whether it is locked. *)
Definition res_of (i : idt) : Z * Z * Z * Z := (i.1, s_locked i.2).
Definition lock_of (i : idt) : Z := s_locked i.2.

Definition lks (lk : gset nat) (s : fs) : Prop :=
  ∀ i x, icache s !! i = Some x → s_locked (ilk x) = if decide (i ∈ lk) then 1 else 0.

(** The kernel holds exactly the pointers [ps] and the locks [lk]. *)
Definition owns (ps : list nat) (lk : gset nat) (s : fs) : Prop := iinv (keys s) ps ∧ lks lk s.

#[export] Instance iinv_perm ks : Proper ((≡ₚ) ==> iff) (iinv ks).
Proof.
  assert (∀ ps ps', ps ≡ₚ ps' → iinv ks ps → iinv ks ps') as H.
  { intros ps ps' Hp [H1 H2 H3]. split; [|intros i Hi; apply H2; by rewrite Hp|done].
    intros i k Hk. rewrite (H1 i k Hk). f_equal. apply Permutation_length. by rewrite Hp. }
  intros ps ps' Hp. split; apply H; [done|by symmetry].
Qed.
#[export] Instance owns_perm : Proper ((≡ₚ) ==> eq ==> eq ==> iff) owns.
Proof. intros ps ps' Hp lk lk' -> s s' ->. unfold owns. by rewrite Hp. Qed.

Lemma cache_view_lookup {K} (g : idt → K) s s' i : view g s' = view g s →
  (λ x, g (ident x)) <$> icache s' !! i = (λ x, g (ident x)) <$> icache s !! i.
Proof. intros E. rewrite <-!list_lookup_fmap. unfold view in E. by rewrite E. Qed.

Lemma lks_view lk s s' : view lock_of s' = view lock_of s → lks lk s → lks lk s'.
Proof.
  intros E H i x Hx. pose proof (cache_view_lookup _ _ _ i E) as Hi. rewrite Hx in Hi.
  destruct (icache s !! i) as [y|] eqn:Hy; [|done]. cbn in Hi. injection Hi as Hi. unfold lock_of in Hi.
  cbn in Hi. rewrite Hi. by apply H.
Qed.

Lemma view_map {K L} (f : idt → K) (h : K → L) s s' :
  view f s' = view f s → view (λ i, h (f i)) s' = view (λ i, h (f i)) s.
Proof.
  intros E. unfold view in *. 
  assert (∀ l, (λ x, h (f (ident x))) <$> l = h <$> ((λ x, f (ident x)) <$> l)) as H
    by (intros l; by rewrite <-list_fmap_compose).
  by rewrite !H, E.
Qed.

Lemma owns_view ps lk s s' : view res_of s' = view res_of s → owns ps lk s → owns ps lk s'.
Proof.
  intros E [H1 H2]. split.
  - pose proof (view_map res_of fst s s' E) as Ek. change (keys s' = keys s) in Ek. by rewrite Ek.
  - eapply lks_view; [|done]. by apply (view_map res_of snd s s').
Qed.

Lemma bind_lift_Ret {S A B} (o : outcome A) (k : A → M S B) s b s' :
  (lift o ≫= k) s = Ret (b, s') → ∃ a, o = Ret a ∧ k a s = Ret (b, s').
Proof. unfold mbind, M_bind, lift. destruct o as [a| | |]; cbn; [by exists a|done..]. Qed.

(** ** Triples, for any state *)
Definition tr {S A} (P : S → Prop) (m : M S A) (Q : A → S → Prop) : Prop :=
  ∀ s a s', P s → m s = Ret (a, s') → Q a s'.

Section triples.
Context {S : Type}.
Implicit Types P : S → Prop.

Lemma tr_bind {A B} P (m : M S A) Q (k : A → M S B) R :
  tr P m Q → (∀ a, tr (Q a) (k a) R) → tr P (m ≫= k) R.
Proof. intros Hm Hk s b s' Hs (a & s1 & E1 & E2)%M_bind_Ret. eapply Hk; [|done]. by eapply Hm. Qed.
Lemma tr_assoc {A B C} P (m : M S A) (k : A → M S B) (h : B → M S C) R :
  tr P ((m ≫= k) ≫= h) R → tr P (m ≫= λ x, k x ≫= h) R.
Proof.
  intros H s b s' Hs E. apply (H s b s' Hs). revert E. unfold mbind, M_bind. destruct (m s) as [[a s1]| | |]; done.
Qed.
Lemma tr_ret {A} (a : A) P (Q : A → S → Prop) : (∀ s, P s → Q a s) → tr P (mret a) Q.
Proof. intros H s b s' Hs [= <- <-]. by apply H. Qed.
Lemma tr_panic {A} P msg (Q : A → S → Prop) : tr P (panic msg) Q.
Proof. by intros s a s' _ [=]. Qed.
Lemma tr_lift {A} P (o : outcome A) : tr P (lift o) (λ a s, o = Ret a ∧ P s).
Proof. intros s a s' Hs E. unfold lift in E. destruct o; try done. by injection E as <- <-. Qed.
Lemma tr_weaken {A} P P' (m : M S A) (Q Q' : A → S → Prop) :
  tr P m Q → (∀ s, P' s → P s) → (∀ a s, Q a s → Q' a s) → tr P' m Q'.
Proof. intros H HP HQ s a s' Hs E. eapply HQ, H; [|done]. by apply HP. Qed.
Lemma tr_pure {A} (X : Prop) P (m : M S A) Q : (X → tr P m Q) → tr (λ s, X ∧ P s) m Q.
Proof. intros H s a s' [HX Hs]. by apply (H HX). Qed.
End triples.

Lemma tr_keeps {A} ps lk (m : M fs A) : (∀ s, keepsv res_of s m) → tr (owns ps lk) m (λ _, owns ps lk).
Proof. intros H s a s' Hs E. eapply owns_view; [|done]. by eapply H. Qed.
(** A step that only reads or stores what the assertion does not mention. *)
Lemma tr_step {A B} ps lk (m : M fs A) (k : A → M fs B) R :
  (∀ s, keepsv res_of s m) → (∀ a, tr (owns ps lk) (k a) R) → tr (owns ps lk) (m ≫= k) R.
Proof. intros Hm Hk. eapply tr_bind; [by apply tr_keeps|done]. Qed.

(** ** The primitive operations *)
Lemma unlock_lock (i : nat) (lk : gset nat) : i ∉ lk → ({[i]} ∪ lk) ∖ {[i]} = lk.
Proof. set_solver. Qed.

Lemma release_locks lk i s s' : lks lk s → release_inode i s = Ret (tt, s') → lks (lk ∖ {[i]}) s'.
Proof.
  intros H E. unfold release_inode in E. apply M_bind_Ret in E as (x & s1 & E1 & E). unfold get_inode in E1.
  inv_ret. simplify_eq. injection E as <-. intros j y Hy. cbn in Hy. destruct (decide (j = i)) as [->|Hne].
  - rewrite list_lookup_insert_eq in Hy by (by eapply lookup_lt_Some). injection Hy as <-.
    by rewrite decide_False by set_solver.
  - rewrite list_lookup_insert_ne in Hy by done. rewrite (H _ _ Hy). by repeat case_decide; set_solver.
Qed.

Section prim.
Context (ps : list nat) (lk : gset nat).

Lemma lks_set s i x y : lks lk s → icache s !! i = Some x → s_locked (ilk y) = s_locked (ilk x) →
  lks lk (set_icache s (<[i := y]> (icache s))).
Proof.
  intros H Hx Ey j z Hz. cbn in Hz. destruct (decide (j = i)) as [->|Hne].
  - rewrite list_lookup_insert_eq in Hz by (by eapply lookup_lt_Some). injection Hz as <-. rewrite Ey. by apply H.
  - rewrite list_lookup_insert_ne in Hz by done. by apply H.
Qed.

Lemma iget_locks d n s i s' : lks lk s → iget d n s = Ret (i, s') → lks lk s'.
Proof.
  intros H E. unfold iget in E. erewrite M_bind_run in E by done.
  pose proof (iget_scan_spec (icache s) d n 0 None) as Hs.
  destruct (iget_scan (icache s) d n 0 None) as [j|[j|]]; [| |done].
  - destruct Hs as (k & x & -> & Hx & _). cbn [Nat.add] in E.
    erewrite M_bind_run in E; [|unfold get_inode; by rewrite Hx]. injection E as <- <-. by eapply lks_set.
  - destruct Hs as [_ [?|(_ & k & x & -> & Hx & _)]]; [done|]. cbn [Nat.add] in E.
    erewrite M_bind_run in E; [|unfold get_inode; by rewrite Hx]. injection E as <- <-. by eapply lks_set.
Qed.

Lemma tr_iget d n : tr (owns ps lk) (iget d n) (λ i, owns (i :: ps) lk).
Proof. intros s i s' [H1 H2] E. split; [by eapply iget_inv|by eapply iget_locks]. Qed.

Lemma tr_ialloc d t : tr (owns ps lk) (ialloc d t) (λ i, owns (i :: ps) lk).
Proof.
  unfold ialloc. intros s i s' Hs E. erewrite M_bind_run in E by done. revert s i s' Hs E.
  assert (∀ cnt n, tr (owns ps lk) (ialloc_loop d t n cnt) (λ i, owns (i :: ps) lk)) as H.
  { induction cnt as [|cnt IH]; intros n; cbn [ialloc_loop]; [apply tr_panic|].
    do 3 (apply tr_step; [intros ?; by keeps|intros ?]). case_if; [|apply IH].
    do 3 (apply tr_step; [intros ?; by keeps|intros ?]). apply tr_iget. }
  intros s. apply (H _ _ s).
Qed.

Lemma tr_idup i : i ∈ ps → tr (owns ps lk) (idup i) (λ j s, j = i ∧ owns (i :: ps) lk s).
Proof.
  intros Hin s j s' [H1 H2] E. unfold idup in E. apply M_bind_Ret in E as (x & s1 & E1 & E). unfold get_inode in E1.
  inv_ret. simplify_eq. injection E as <- <-. split; [done|]. split; [|by eapply lks_set].
  apply iinv_bump; [done|done|].
  assert (keys s1 !! i = Some (key x)) as Hk by (apply keys_lookup; eauto).
  pose proof (inv_count _ _ H1 _ _ Hk) as Hc. cbn in Hc. rewrite Hc.
  assert (i ∈ filter (eq i) ps) as Hf by (by apply list_elem_of_filter).
  destruct (filter (eq i) ps); [by apply not_elem_of_nil in Hf|cbn; lia].
Qed.

(** *** Locks *)
Lemma acquire_locks i s s' : lks lk s → acquire_inode i s = Ret (tt, s') → i ∉ lk ∧ lks ({[i]} ∪ lk) s'.
Proof.
  intros H E. unfold acquire_inode in E. apply M_bind_Ret in E as (x & s1 & E1 & E). unfold get_inode in E1.
  inv_ret. simplify_eq. unfold acquiresleep in E. pose proof (H _ _ H0) as Hx.
  destruct (s_locked (ilk x) =? 0) eqn:E0; bool_to_prop; cbn [negb] in E; [|done]. injection E as <-.
  assert (i ∉ lk) as Hn by (intros Hi; rewrite decide_True in Hx by done; lia). split; [done|].
  intros j y Hy. cbn in Hy. destruct (decide (j = i)) as [->|Hne].
  - rewrite list_lookup_insert_eq in Hy by (by eapply lookup_lt_Some). injection Hy as <-.
    by rewrite decide_True by set_solver.
  - rewrite list_lookup_insert_ne in Hy by done. rewrite (H _ _ Hy). by repeat case_decide; set_solver.
Qed.

Lemma tr_iput i : tr (owns (i :: ps) lk) (iput i) (λ _, owns ps lk).
Proof.
  intros s [] s' [H1 H2] E. split; [by eapply iput_inv|]. unfold iput in E.
  apply M_bind_Ret in E as ([] & s1 & E1 & E). destruct (acquire_locks _ _ _ H2 E1) as [Hn L1].
  apply M_bind_Ret in E as (x & s2 & E2 & E). unfold get_inode in E2. inv_ret. simplify_eq.
  apply M_bind_Ret in E as ([] & s3 & E3 & E). assert (lks ({[i]} ∪ lk) s3) as L3.
  { match type of E3 with ?m _ = _ => assert (keepsv lock_of s2 m) as Hm by keeps end. by eapply lks_view; [eapply Hm|]. }
  apply M_bind_Ret in E as ([] & s4 & E4 & E).
  assert (lks lk s4) as L4.
  { pose proof (release_locks _ _ _ _ L3 E4) as L. by rewrite unlock_lock in L. }
  apply M_bind_Ret in E as (y & s5 & E5 & E). unfold get_inode in E5. inv_ret. simplify_eq.
  injection E as <-. by eapply lks_set.
Qed.

Lemma tr_ilock i : tr (owns ps lk) (ilock (Some i)) (λ _ s, i ∉ lk ∧ owns ps ({[i]} ∪ lk) s).
Proof.
  intros s [] s' [H1 H2] E. assert (i ∉ lk ∧ lks ({[i]} ∪ lk) s') as [Hn L].
  { unfold ilock in E. apply M_bind_Ret in E as (x & s1 & E1 & E). unfold get_inode in E1. inv_ret. simplify_eq.
    case_match; [done|]. apply M_bind_Ret in E as ([] & s2 & E2 & E).
    destruct (acquire_locks _ _ _ H2 E2) as [Hn L]. split; [done|].
    match type of E with ?m _ = _ => assert (keepsv lock_of s2 m) as Hm by keeps end. by eapply lks_view; [eapply Hm|]. }
  split; [done|]. split; [|done]. pose proof (keeps_ilock _ _ _ _ E) as Ek. by rewrite Ek.
Qed.

Lemma tr_iunlock i : tr (owns ps lk) (iunlock (Some i)) (λ _, owns ps (lk ∖ {[i]})).
Proof.
  intros s [] s' [H1 H2] E. split; [pose proof (keeps_iunlock _ _ _ _ E) as Ek; by rewrite Ek|].
  unfold iunlock in E. apply M_bind_Ret in E as (x & s1 & E1 & E). unfold get_inode in E1. inv_ret. simplify_eq.
  case_match; [done|]. by eapply release_locks.
Qed.
End prim.

Lemma tr_iunlock_held ps lk i : i ∉ lk → tr (owns ps ({[i]} ∪ lk)) (iunlock (Some i)) (λ _, owns ps lk).
Proof.
  intros Hn. eapply tr_weaken; [apply tr_iunlock|done|]. intros ? s H. by rewrite unlock_lock in H.
Qed.
Lemma tr_iunlockput ps lk i : i ∉ lk → tr (owns (i :: ps) ({[i]} ∪ lk)) (iunlockput i) (λ _, owns ps lk).
Proof. intros Hn. eapply tr_bind; [by apply tr_iunlock_held|]. intros ?. apply tr_iput. Qed.

(** ** Directories and paths *)
Section dir.
Context (dev_read : Z → option (nat → Z → M fs (Z * list Z))).
Context (dev_write : Z → option (nat → list Z → M fs Z)).
(** The drivers give the lock of the inode back as they found it. *)
Context (Hread : ∀ m f ip n s, dev_read m = Some f → keepsv res_of s (f ip n)).
Context (Hwrite : ∀ m f ip src s, dev_write m = Some f → keepsv res_of s (f ip src)).

Lemma keeps_read_dirent s dp off what : keepsv res_of s (read_dirent dev_read dp off what).
Proof using Hread.
  unfold read_dirent. apply keeps_bind; [by apply keeps_readi|]. intros [r bytes] s1 _. by keeps.
Qed.

Lemma keeps_dirlookup_loop dp name sz fuel : ∀ off s, keepsv res_of s (dirlookup_loop dev_read dp name sz off fuel).
Proof using Hread.
  induction fuel as [|fuel IH]; intros off s; cbn [dirlookup_loop]; case_if; try by keeps.
  apply keeps_bind; [apply keeps_read_dirent|]. intros [i nm] s1 _. case_if; [apply IH|]. case_if; [by keeps|apply IH].
Qed.

Lemma keeps_free_dirent dp sz fuel : ∀ off s, keepsv res_of s (free_dirent dev_read dp sz off fuel).
Proof using Hread.
  induction fuel as [|fuel IH]; intros off s; cbn [free_dirent]; case_if; try by keeps.
  apply keeps_bind; [apply keeps_read_dirent|]. intros [i nm] s1 _. case_if; [by keeps|apply IH].
Qed.

Lemma tr_dirlookup ps lk dp name : tr (owns ps lk) (dirlookup dev_read dp name)
  (λ r, match r with None => owns ps lk | Some (ip, _) => owns (ip :: ps) lk end).
Proof using Hread.
  unfold dirlookup. apply tr_step; [intros s; by keeps|]. intros x. case_if; [apply tr_panic|].
  apply tr_step; [intros s; apply keeps_dirlookup_loop|]. intros [[i off]|].
  - eapply tr_bind; [apply tr_iget|]. intros ip. by apply tr_ret.
  - by apply tr_ret.
Qed.

Lemma tr_dirlink ps lk dp name i : tr (owns ps lk) (dirlink dev_read dev_write dp name i) (λ _, owns ps lk).
Proof using Hread Hwrite.
  unfold dirlink. eapply tr_bind; [apply tr_dirlookup|]. intros [[ip off]|].
  - eapply tr_bind; [apply tr_iput|]. intros ?. by apply tr_ret.
  - apply tr_step; [intros s; by keeps|]. intros x. apply tr_step; [intros s; apply keeps_free_dirent|]. intros off.
    apply tr_step; [intros s; by apply keeps_writei|]. intros w. case_if; [apply tr_panic|by apply tr_ret].
Qed.

(** A path gives a pointer or none, and the one it starts from is used up. *)
Lemma tr_namex_loop ps parent fuel : ∀ ip path name lk,
  tr (owns (ip :: ps) lk) (namex_loop dev_read parent ip path name fuel)
    (λ r, match r with None => owns ps lk | Some (i, _) => owns (i :: ps) lk end).
Proof using Hread.
  induction fuel as [|fuel IH]; intros ip path name lk; cbn [namex_loop]; destruct (skipelem path) as [[rest nm]|].
  - by intros s a s' _ [=].
  - destruct parent; [|by apply tr_ret]. eapply tr_bind; [apply tr_iput|]. intros ?. by apply tr_ret.
  - eapply tr_bind; [apply tr_ilock|]. intros ?. apply tr_pure. intros Hn.
    apply tr_step; [intros s; by keeps|]. intros x. case_if.
    { eapply tr_bind; [by apply tr_iunlockput|]. intros ?. by apply tr_ret. }
    case_if. { eapply tr_bind; [by apply tr_iunlock_held|]. intros ?. by apply tr_ret. }
    eapply tr_bind; [apply tr_dirlookup|]. intros [[nxt off]|].
    + eapply tr_bind; [|intros ?; apply IH]. eapply tr_weaken; [by apply (tr_iunlockput (nxt :: ps))| |done].
      intros s Hs. by rewrite Permutation_swap.
    + eapply tr_bind; [by apply tr_iunlockput|]. intros ?. by apply tr_ret.
  - destruct parent; [|by apply tr_ret]. eapply tr_bind; [apply tr_iput|]. intros ?. by apply tr_ret.
Qed.

Lemma tr_namex ps lk cwd path parent : cwd ∈ ps → tr (owns ps lk) (namex dev_read cwd path parent)
  (λ r, match r with None => owns ps lk | Some (i, _) => owns (i :: ps) lk end).
Proof using Hread.
  intros Hc. unfold namex. eapply (tr_bind _ _ (λ i, owns (i :: ps) lk)); [|intros ip; apply tr_namex_loop].
  case_if; [apply tr_iget|]. eapply tr_weaken; [by apply tr_idup|done|]. by intros ? s [-> H].
Qed.

Lemma tr_namei ps lk cwd path : cwd ∈ ps → tr (owns ps lk) (namei dev_read cwd path)
  (λ r, match r with None => owns ps lk | Some i => owns (i :: ps) lk end).
Proof using Hread.
  intros Hc. unfold namei. eapply tr_bind; [by apply tr_namex|]. intros r. apply tr_ret. by destruct r as [[i nm]|].
Qed.
End dir.
