(* ===== verification/Syscall.v ===== *)
(** * System calls: arguments and dispatch (xv6 [syscall.c], [sysproc.c], the
    argument vector of [sys_exec])

    The memory of the calling process is the list of the bytes at the addresses
    below [sz], which is what is mapped for it: the kernel reading another
    address is [Undef].  A result of -1 is [None]. *)

From stdpp Require Import base numbers list gmap strings.
From S2P Require Import Prelude Fs.

Open Scope Z_scope.

Definition MAXARG : Z := 32.
Definition NOFILE : Z := 16.

(** The fields of [struct proc] the calls use. *)
Record uproc := UProc { sz : Z; umem : list Z; tf_esp : Z; tf_eax : Z }.

Section args.
Context (p : uproc).

Definition fetchint (addr : Z) : outcome (option Z) :=
  if (sz p <=? addr) || (sz p <? u32 (addr + 4)) then Ret None
  else w ← get32 (umem p) addr; Ret (Some (i32 w)).

(** The loop of [fetchstr]: the length, or -1. *)
Fixpoint fetchstr_loop (s : Z) (pp : Z) (fuel : nat) : outcome (option Z) :=
  if s <? sz p then
    match fuel with
    | O => NoFuel
    | S fuel =>
        c ← arr_get (umem p) s;
        if c =? 0 then Ret (Some (s - pp)) else fetchstr_loop (s + 1) pp fuel
    end
  else Ret None.
Definition fetchstr (addr : Z) : outcome (option Z) :=
  if sz p <=? addr then Ret None else fetchstr_loop addr addr (Z.to_nat (sz p - addr)).

Definition argint (n : Z) : outcome (option Z) := fetchint (u32 (u32 (tf_esp p + 4) + 4 * n)).

(** The pointer. *)
Definition argptr (n size : Z) : outcome (option Z) :=
  i ← argint n;
  match i with
  | None => Ret None
  | Some i =>
      if (size <? 0) || (sz p <=? u32 i) || (sz p <? u32 (u32 i + size)) then Ret None
      else Ret (Some (u32 i))
  end.

(** The pointer and the length. *)
Definition argstr (n : Z) : outcome (option (Z * Z)) :=
  a ← argint n;
  match a with
  | None => Ret None
  | Some a => l ← fetchstr (u32 a); Ret (option_map (pair (u32 a)) l)
  end.

(** The loop of [sys_exec]: the strings of [argv] from index [i] on. *)
Fixpoint exec_args (uargv i : Z) (cnt : nat) : outcome (option (list (Z * Z))) :=
  match cnt with
  | O => Ret None                                   (* i >= NELEM(argv) *)
  | S cnt =>
      uarg ← fetchint (u32 (uargv + 4 * i));
      match uarg with
      | None => Ret None
      | Some uarg =>
          if uarg =? 0 then Ret (Some [])
          else
            l ← fetchstr (u32 uarg);
            match l with
            | None => Ret None
            | Some l => r ← exec_args uargv (i + 1) cnt; Ret (option_map (cons (u32 uarg, l)) r)
            end
      end
  end.
(** The path and the arguments for [exec]. *)
Definition sys_exec_args : outcome (option ((Z * Z) * list (Z * Z))) :=
  path ← argstr 0;
  match path with
  | None => Ret None
  | Some path =>
      uargv ← argint 1;
      match uargv with
      | None => Ret None
      | Some uargv => r ← exec_args (u32 uargv) 0 (Z.to_nat MAXARG); Ret (option_map (pair path) r)
      end
  end.
End args.

(** ** The table of system calls *)
Inductive call :=
  | sys_fork | sys_exit | sys_wait | sys_pipe | sys_read | sys_kill | sys_exec | sys_fstat | sys_chdir
  | sys_dup | sys_getpid | sys_sbrk | sys_sleep | sys_uptime | sys_open | sys_write | sys_mknod
  | sys_unlink | sys_link | sys_mkdir | sys_close | sys_mike.

Definition syscalls : list (option call) :=
  None :: (Some <$> [sys_fork; sys_exit; sys_wait; sys_pipe; sys_read; sys_kill; sys_exec; sys_fstat; sys_chdir;
    sys_dup; sys_getpid; sys_sbrk; sys_sleep; sys_uptime; sys_open; sys_write; sys_mknod;
    sys_unlink; sys_link; sys_mkdir; sys_close; sys_mike]).

Definition set_eax (p : uproc) (v : Z) : uproc := UProc (sz p) (umem p) (tf_esp p) (u32 v).

(** [run] executes a call and gives its result; the message about an unknown
    call is left out. *)
Definition syscall (run : call → M uproc Z) : M uproc unit := fun p =>
  let num := i32 (tf_eax p) in
  let entry :=
    if (0 <? num) && (num <? Z.of_nat (length syscalls)) then default None (syscalls !! Z.to_nat num) else None in
  match entry with
  | Some c => '(v, p) ← run c p; Ret (tt, set_eax p v)
  | None => Ret (tt, set_eax p (-1))
  end.

(** ** [sysproc.c]: waiting for clock ticks *)

(** The test of the loop of [sys_sleep]; [n] is compared as an unsigned number. *)
Definition sleep_more (ticks ticks0 n : Z) : bool := u32 (ticks - ticks0) <? u32 n.

(** The ticks at which the process looks again (it sleeps in between), with
    whether it has been killed by then; the result, or [None] if it sleeps on. *)
Fixpoint sys_sleep_loop (ticks0 n : Z) (looks : list (Z * bool)) : option Z :=
  match looks with
  | [] => None
  | (ticks, killed) :: looks =>
      if sleep_more ticks ticks0 n then
        if killed : bool then Some (-1) else sys_sleep_loop ticks0 n looks
      else Some 0
  end.

Lemma u32_i32 x : u32 (i32 x) = u32 x.
Proof.
  unfold u32, i32. rewrite Zminus_mod, Zmod_mod, <-Zminus_mod. f_equal. lia.
Qed.

(** ** The checks are exact *)
Record proc_ok (p : uproc) : Prop := {
  p_sz : 0 ≤ sz p ≤ 2 ^ 31;                      (* user memory ends below KERNBASE *)
  p_mem : length (umem p) = Z.to_nat (sz p);
  p_bytes : Forall (λ c, 0 ≤ c < 256) (umem p)
}.

(** The 32-bit word at an address of the process. *)
Definition uword (p : uproc) (a : Z) : Z :=
  let b i := default 0 (umem p !! Z.to_nat (a + i)) in b 0 + 256 * b 1 + 65536 * (b 2 + 256 * b 3).

(** A string of [n] characters with its NUL inside the memory of the process. *)
Definition ustring (p : uproc) (a n : Z) : Prop :=
  0 ≤ n ∧ a + n < sz p ∧ umem p !! Z.to_nat (a + n) = Some 0 ∧
  ∀ i, 0 ≤ i < n → default 0 (umem p !! Z.to_nat (a + i)) ≠ 0.

Section checks.
Context (p : uproc) (Hp : proc_ok p).

Lemma umem_get a : 0 ≤ a < sz p → arr_get (umem p) a = Ret (default 0 (umem p !! Z.to_nat a)).
Proof using Hp.
  intros Ha. destruct (arr_get_in (umem p) a) as (c & -> & ->); [|done]. rewrite (p_mem _ Hp). lia.
Qed.

Lemma fetchint_run addr : 0 ≤ addr < 2 ^ 32 →
  fetchint p addr = Ret (if addr + 4 <=? sz p then Some (i32 (uword p addr)) else None).
Proof using Hp.
  intros Ha. pose proof (p_sz _ Hp). unfold fetchint. destruct (addr + 4 <=? sz p) eqn:E; bool_to_prop.
  - rewrite (u32_small (addr + 4)) by lia. destruct (sz p <=? addr) eqn:E1; bool_to_prop; [lia|].
    destruct (sz p <? addr + 4) eqn:E2; bool_to_prop; [lia|]. cbn [orb]. unfold get32, get16.
    rewrite !umem_get by lia. cbn [mbind outcome_bind]. unfold uword. rewrite Z.add_0_r.
    replace (addr + 2 + 1) with (addr + 3) by lia. done.
  - destruct (sz p <=? addr) eqn:E1; bool_to_prop; [done|]. rewrite u32_small by lia.
    destruct (sz p <? addr + 4) eqn:E2; bool_to_prop; [done|lia].
Qed.

Lemma fetchstr_loop_run a fuel : ∀ k, 0 ≤ a → 0 ≤ k → sz p - (a + k) ≤ Z.of_nat fuel →
  (∀ i, 0 ≤ i < k → default 0 (umem p !! Z.to_nat (a + i)) ≠ 0) →
  ∃ r, fetchstr_loop p (a + k) a fuel = Ret r ∧
    match r with Some n => ustring p a n | None => ∀ n, ¬ ustring p a n end.
Proof using Hp.
  induction fuel as [|fuel IH]; intros k Ha Hk Hf Hn; cbn [fetchstr_loop].
  - destruct (a + k <? sz p) eqn:E; bool_to_prop; [lia|]. exists None. split; [done|].
    intros n (H0 & Hlt & Hz & _). apply (Hn n); [lia|]. by rewrite Hz.
  - destruct (a + k <? sz p) eqn:E; bool_to_prop.
    2:{ exists None. split; [done|]. intros n (H0 & Hlt & Hz & _). apply (Hn n); [lia|]. by rewrite Hz. }
    rewrite umem_get by lia. cbn [mbind outcome_bind]. destruct (default 0 _ =? 0) eqn:E0; bool_to_prop.
    + exists (Some k). split; [do 2 f_equal; lia|]. split_and!; [done|done| |done].
      destruct (lookup_lt_is_Some_2 (umem p) (Z.to_nat (a + k))) as [c Hc]; [rewrite (p_mem _ Hp); lia|].
      rewrite Hc in E0 |- *. cbn in E0. by subst c.
    + replace (a + k + 1) with (a + (k + 1)) by lia. apply IH; [done|lia|lia|].
      intros i Hi. destruct (decide (i = k)) as [->|]; [done|]. apply Hn. lia.
Qed.

Lemma fetchstr_run a : 0 ≤ a →
  ∃ r, fetchstr p a = Ret r ∧ match r with Some n => ustring p a n | None => ∀ n, ¬ ustring p a n end.
Proof using Hp.
  intros Ha. unfold fetchstr. destruct (sz p <=? a) eqn:E; bool_to_prop.
  - exists None. split; [done|]. intros n (? & ? & _). lia.
  - pose proof (fetchstr_loop_run a (Z.to_nat (sz p - a)) 0 Ha) as H. rewrite Z.add_0_r in H.
    apply H; lia.
Qed.

(** The word at an address, and the argument word [n], if they lie in the
    memory of the process. *)
Definition word_at (a : Z) : option Z := if a + 4 <=? sz p then Some (uword p a) else None.
Definition arg_at (n : Z) : option Z := word_at (u32 (u32 (tf_esp p + 4) + 4 * n)).

Lemma fetchint_word a : 0 ≤ a < 2 ^ 32 → fetchint p a = Ret (i32 <$> word_at a).
Proof using Hp. intros Ha. rewrite fetchint_run by done. unfold word_at. by case_if. Qed.
Lemma argint_run n : argint p n = Ret (i32 <$> arg_at n).
Proof using Hp. apply fetchint_word, u32_range. Qed.

Lemma uword_range a : 0 ≤ uword p a < 2 ^ 32.
Proof using Hp.
  assert (∀ i, 0 ≤ default 0 (umem p !! i) < 256) as Hb.
  { intros i. destruct (umem p !! i) as [c|] eqn:E; [|done]. exact (Forall_lookup_1 _ _ _ _ (p_bytes _ Hp) E). }
  unfold uword. pose proof (Hb (Z.to_nat (a + 0))). pose proof (Hb (Z.to_nat (a + 1))).
  pose proof (Hb (Z.to_nat (a + 2))). pose proof (Hb (Z.to_nat (a + 3))). lia.
Qed.
Lemma word_at_range a w : word_at a = Some w → u32 (i32 w) = w ∧ 0 ≤ w < 2 ^ 32 ∧ (i32 w =? 0) = (w =? 0).
Proof using Hp.
  unfold word_at. case_if; [|done]. intros [= <-]. pose proof (uword_range a) as Hr.
  split_and!; [rewrite u32_i32; by apply u32_small|lia|lia|].
  assert (i32 (uword p a) = 0 ↔ uword p a = 0) as Hi.
  { unfold i32. split; [|by intros ->]. intros E. rewrite Z.add_comm in E.
    destruct (decide (uword p a < 2 ^ 31)); [rewrite Z.mod_small in E by lia; lia|].
    rewrite <-(Z.mod_unique (2 ^ 31 + uword p a) (2 ^ 32) 1 (uword p a - 2 ^ 31)) in E; lia. }
  destruct (Z.eqb_spec (uword p a) 0) as [E|E]; [apply Z.eqb_eq|apply Z.eqb_neq]; by rewrite Hi.
Qed.

Lemma ustring_unique a n n' : ustring p a n → ustring p a n' → n = n'.
Proof.
  intros (H1 & H2 & H3 & H4) (K1 & K2 & K3 & K4). destruct (Z.lt_trichotomy n n') as [Hl|[?|Hl]]; [|done|].
  - exfalso. apply (K4 n); [lia|]. by rewrite H3.
  - exfalso. apply (H4 n'); [lia|]. by rewrite K3.
Qed.

Lemma argptr_run n size : - 2 ^ 31 ≤ size < 2 ^ 31 →
  ∃ r, argptr p n size = Ret r ∧
    ∀ a, r = Some a ↔ arg_at n = Some a ∧ 0 ≤ size ∧ a < sz p ∧ a + size ≤ sz p.
Proof using Hp.
  intros Hs. pose proof (p_sz _ Hp). unfold argptr. rewrite argint_run. cbn [mbind outcome_bind].
  destruct (arg_at n) as [w|] eqn:Ew; cbn [fmap option_fmap option_map]; [|exists None; naive_solver].
  destruct (word_at_range _ _ Ew) as (Eu & Hw & _). rewrite Eu.
  destruct (size <? 0) eqn:E1; bool_to_prop; [exists None; split; [done|]; intros a; split; [done|]; lia|].
  destruct (sz p <=? w) eqn:E2; bool_to_prop; [exists None; split; [done|]; intros a; split; [done|]; intros ([= ->] & ?); lia|].
  cbn [orb]. rewrite (u32_small (w + size)) by lia. destruct (sz p <? w + size) eqn:E3; bool_to_prop.
  - exists None. split; [done|]. intros a. split; [done|]. intros ([= ->] & ?). lia.
  - exists (Some w). split; [done|]. intros a. split; [by intros [= ->]|]. by intros ([= ->] & _).
Qed.

Lemma argstr_run n : ∃ r, argstr p n = Ret r ∧
  ∀ a l, r = Some (a, l) ↔ arg_at n = Some a ∧ ustring p a l.
Proof using Hp.
  unfold argstr. rewrite argint_run. cbn [mbind outcome_bind].
  destruct (arg_at n) as [w|] eqn:Ew; cbn [fmap option_fmap option_map]; [|exists None; naive_solver].
  destruct (word_at_range _ _ Ew) as (Eu & Hw & _). rewrite Eu.
  destruct (fetchstr_run w ltac:(lia)) as (r & -> & Hr). cbn [mbind outcome_bind]. eexists. split; [done|].
  intros a l. destruct r as [n'|]; cbn [option_map].
  - split; [intros [= <- <-]; by split|]. intros ([= ->] & Hl). do 2 f_equal. by eapply ustring_unique.
  - split; [done|]. intros ([= ->] & Hl). by apply Hr in Hl.
Qed.

(** The strings that a vector of pointers at [v] holds from index [i] on. *)
Fixpoint argv (v i : Z) (args : list (Z * Z)) : Prop :=
  match args with
  | [] => word_at (u32 (v + 4 * i)) = Some 0
  | (a, l) :: args => word_at (u32 (v + 4 * i)) = Some a ∧ a ≠ 0 ∧ ustring p a l ∧ argv v (i + 1) args
  end.

Lemma exec_args_run v cnt : ∀ i, ∃ r, exec_args p v i cnt = Ret r ∧
  ∀ args, r = Some args ↔ (length args < cnt)%nat ∧ argv v i args.
Proof using Hp.
  induction cnt as [|cnt IH]; intros i; cbn [exec_args].
  { exists None. split; [done|]. intros args. split; [done|]. lia. }
  rewrite fetchint_word by apply u32_range. cbn [mbind outcome_bind].
  destruct (word_at (u32 (v + 4 * i))) as [w|] eqn:Ew; cbn [fmap option_fmap option_map].
  2:{ exists None. split; [done|]. intros args. split; [done|]. intros [_ H]. destruct args as [|[a l] args]; cbn in H; [congruence|].
      destruct H. congruence. }
  destruct (word_at_range _ _ Ew) as (Eu & Hw & ->). rewrite Eu. destruct (Z.eqb_spec w 0) as [->|Hn].
  { exists (Some []). split; [done|]. intros args. split; [intros [= <-]; split; [cbn; lia|done]|].
    intros [_ H]. destruct args as [|[a l] args]; [done|]. cbn in H. destruct H as (E & ? & _). congruence. }
  destruct (fetchstr_run w ltac:(lia)) as (r & -> & Hr). cbn [mbind outcome_bind]. destruct r as [l|].
  2:{ exists None. split; [done|]. intros args. split; [done|]. intros [_ H]. destruct args as [|[a l] args]; cbn in H; [congruence|].
      destruct H as (E & _ & Hl & _). assert (a = w) as -> by congruence. by apply Hr in Hl. }
  destruct (IH (i + 1)) as (r & -> & Hargs). cbn [mbind outcome_bind]. eexists. split; [done|]. intros args. split.
  - destruct r as [rest|]; cbn; [|done]. intros [= <-]. destruct (proj1 (Hargs rest) eq_refl) as [H1 H2].
    split; [cbn; lia|]. by split_and!.
  - intros [H1 H2]. destruct args as [|[a l'] args]; cbn in H1, H2; [congruence|]. destruct H2 as (E & _ & Hl & H2).
    assert (a = w) as -> by congruence. rewrite (ustring_unique _ _ _ Hl Hr).
    rewrite (proj2 (Hargs args)); [done|]. split; [lia|done].
Qed.

Lemma sys_exec_args_run : ∃ r, sys_exec_args p = Ret r ∧ ∀ path args, r = Some (path, args) ↔
  arg_at 0 = Some path.1 ∧ ustring p path.1 path.2 ∧ ∃ v, arg_at 1 = Some v ∧ Z.of_nat (length args) < MAXARG ∧ argv v 0 args.
Proof using Hp.
  unfold sys_exec_args. destruct (argstr_run 0) as (r & -> & Hr). cbn [mbind outcome_bind]. destruct r as [path|].
  2:{ exists None. split; [done|]. intros [a l] args. split; [done|]. intros (H1 & H2 & _).
      discriminate (proj2 (Hr a l) (conj H1 H2)). }
  destruct path as [pa pl]. destruct (proj1 (Hr pa pl) eq_refl) as [P1 P2].
  assert (∀ path : Z * Z, arg_at 0 = Some path.1 → ustring p path.1 path.2 → path = (pa, pl)) as Hpath.
  { intros [a l] E Hl. cbn in E, Hl. assert (a = pa) as -> by congruence. f_equal. by eapply ustring_unique. }
  rewrite argint_run. cbn [mbind outcome_bind]. destruct (arg_at 1) as [v|] eqn:Ev; cbn [fmap option_fmap option_map].
  2:{ exists None. split; [done|]. intros path args. split; [done|]. by intros (_ & _ & v & ? & _). }
  destruct (word_at_range _ _ Ev) as (-> & _ & _). destruct (exec_args_run v (Z.to_nat MAXARG) 0) as (r & -> & Ha).
  cbn [mbind outcome_bind]. eexists. split; [done|]. intros path args. split.
  - destruct r as [args'|]; cbn; [|done]. intros [= <- <-]. destruct (proj1 (Ha args') eq_refl) as [A1 A2].
    split_and!; [done|done|]. exists v. unfold MAXARG in *. split_and!; [done|lia|done].
  - intros (H1 & H2 & v' & [= <-] & Hl & Hv). rewrite (Hpath path H1 H2).
    rewrite (proj2 (Ha args)); [done|]. unfold MAXARG in *. split; [lia|done].
Qed.
End checks.

(** ** Dispatch and sleeping *)

(** A number of the table runs its call and stores its result in [eax]; any
    other runs nothing and gives -1. *)
Lemma syscall_dispatch run p :
  syscall run p =
    if (1 <=? i32 (tf_eax p)) && (i32 (tf_eax p) <=? 22) then
      match syscalls !! Z.to_nat (i32 (tf_eax p)) with
      | Some (Some c) => '(v, p) ← run c p; Ret (tt, set_eax p v)
      | _ => Undef
      end
    else Ret (tt, set_eax p (-1)).
Proof.
  unfold syscall. set (n := i32 (tf_eax p)). change (Z.of_nat (length syscalls)) with 23.
  destruct ((1 <=? n) && (n <=? 22)) eqn:E.
  - apply andb_true_iff in E as [E1 E2]. bool_to_prop. destruct (0 <? n) eqn:E3; bool_to_prop; [|lia].
    destruct (n <? 23) eqn:E4; bool_to_prop; [|lia]. cbn [andb].
    assert (∀ k : nat, (1 ≤ k ≤ 22)%nat → ∃ c, syscalls !! k = Some (Some c)) as H.
    { intros k Hk. do 23 (destruct k as [|k]; [first [lia|by eexists]|]). lia. }
    destruct (H (Z.to_nat n)) as (c & ->); [lia|done].
  - destruct ((0 <? n) && (n <? 23)) eqn:E2; [|done]. exfalso.
    apply andb_true_iff in E2 as [? ?]. apply andb_false_iff in E as [?|?]; bool_to_prop; lia.
Qed.

(** [sys_sleep] returns 0 at the first look at least [n] ticks later, and -1
    when the process was killed before that. *)
Lemma sys_sleep_spec ticks0 n looks r : 0 ≤ n < 2 ^ 31 → sys_sleep_loop ticks0 n looks = Some r →
  ∃ pre t k post, looks = pre ++ (t, k) :: post ∧
    Forall (λ l, u32 (l.1 - ticks0) < n ∧ l.2 = false) pre ∧
    (r = 0 ∧ n ≤ u32 (t - ticks0) ∨ r = -1 ∧ k = true ∧ u32 (t - ticks0) < n).
Proof.
  intros Hn. induction looks as [|[t k] looks IH]; cbn [sys_sleep_loop]; [done|]. unfold sleep_more at 1.
  rewrite (u32_small n) by lia. destruct (u32 (t - ticks0) <? n) eqn:E; bool_to_prop.
  - destruct k.
    + intros [= <-]. exists [], t, true, looks. split_and!; [done|constructor|by right].
    + intros (pre & t' & k' & post & -> & Hf & Hr)%IH. exists ((t, false) :: pre), t', k', post.
      split_and!; [done|by constructor|done].
  - intros [= <-]. exists [], t, k, looks. split_and!; [done|constructor|by left].
Qed.

(** A negative argument is compared as a large unsigned number. *)
Lemma sys_sleep_negative ticks ticks0 n : - 2 ^ 31 ≤ n < 0 → u32 (ticks - ticks0) < 2 ^ 31 → sleep_more ticks ticks0 n = true.
Proof.
  intros Hn Ht. unfold sleep_more. apply Z.ltb_lt. unfold u32 at 2.
  rewrite <-(Z.mod_unique n (2 ^ 32) (-1) (2 ^ 32 + n)); lia.
Qed.

(** ** The theorem *)

(** C10. Arguments of system calls: for a process whose memory ends below
    KERNBASE, whatever its stack pointer and its memory hold, fetching an
    argument never reads outside the memory of the process (although the
    bounds are computed in 32 bits), and the checks are exact.  [fetchint]
    gives the word at an address exactly when its four bytes lie inside;
    [argint] that of argument [n]; [argptr] the pointer exactly when the size
    is not negative and the whole block lies inside; [argstr] the pointer and
    length exactly when a NUL follows inside; and the loop of [sys_exec] a
    vector of strings exactly when there are fewer than MAXARG of them before
    a null pointer, each of them valid.  In every other case the result is -1. *)
Theorem argument_checks (p : uproc) :
  proc_ok p →
  (∀ addr, 0 ≤ addr < 2 ^ 32 →
     fetchint p addr = Ret (if addr + 4 <=? sz p then Some (i32 (uword p addr)) else None)) ∧
  (∀ n, argint p n = Ret (i32 <$> arg_at p n)) ∧
  (∀ n size, - 2 ^ 31 ≤ size < 2 ^ 31 → ∃ r, argptr p n size = Ret r ∧
     ∀ a, r = Some a ↔ arg_at p n = Some a ∧ 0 ≤ size ∧ a < sz p ∧ a + size ≤ sz p) ∧
  (∀ n, ∃ r, argstr p n = Ret r ∧ ∀ a l, r = Some (a, l) ↔ arg_at p n = Some a ∧ ustring p a l) ∧
  (∃ r, sys_exec_args p = Ret r ∧ ∀ path args, r = Some (path, args) ↔
     arg_at p 0 = Some path.1 ∧ ustring p path.1 path.2 ∧
     ∃ v, arg_at p 1 = Some v ∧ Z.of_nat (length args) < MAXARG ∧ argv p v 0 args).
Proof.
  intros Hp. split_and!; [by apply fetchint_run|by apply argint_run|by apply argptr_run|by apply argstr_run|
    by apply sys_exec_args_run].
Qed.

(** A process with 24 bytes of memory: a return address, the arguments 20 and
    3, and the string [ab] at address 20. *)
Definition demo_proc : uproc :=
  UProc 24 [0; 0; 0; 0; 20; 0; 0; 0; 3; 0; 0; 0; 0; 0; 0; 0; 0; 0; 0; 0; 97; 98; 0; 1] 0 5.

Lemma argument_checks_witness :
  argstr demo_proc 0 = Ret (Some (20, 2)) ∧ argptr demo_proc 0 4 = Ret (Some 20) ∧ argptr demo_proc 0 5 = Ret None.
Proof.
  destruct (argument_checks demo_proc) as (_ & _ & Hptr & Hstr & _).
  { split; [cbn; lia|reflexivity|]. repeat (apply Forall_cons_2; [lia|]). apply Forall_nil_2. }
  split_and!.
  - destruct (Hstr 0) as (r & -> & H). f_equal. destruct r as [[a l]|].
    + destruct (proj1 (H a l) eq_refl) as [E Hl].
      change (Some 20 = Some a) in E. injection E as <-.
      rewrite (ustring_unique demo_proc 20 l 2 Hl); [reflexivity|].
      split_and!; [lia|cbn; lia|reflexivity|]. intros i Hi. assert (i = 0 ∨ i = 1) as [->| ->] by lia; discriminate.
    + exfalso. discriminate (proj2 (H 20 2)). split; [reflexivity|].
      split_and!; [lia|cbn; lia|reflexivity|]. intros i Hi. assert (i = 0 ∨ i = 1) as [->| ->] by lia; discriminate.
  - destruct (Hptr 0 4) as (r & -> & H); [lia|]. f_equal. apply H. split_and!; [reflexivity|lia|cbn; lia|cbn; lia].
  - destruct (Hptr 0 5) as (r & -> & H); [lia|]. f_equal. destruct r as [a|]; [|reflexivity]. exfalso.
    destruct (proj1 (H a) eq_refl) as (E & _ & _ & Hb).
    change (Some 20 = Some a) in E. injection E as <-. cbn in Hb. lia.
Defined.
