(* ===== verification/File.v ===== *)
(** * Open files (xv6 [file.c], [pipealloc] of [pipe.c])

    The file table over the pipes of [Pipe] and the inodes of [Fs].  A pointer
    to a file, a pipe or an inode is an index; the state also counts the
    transactions begun and not ended.  What [kalloc] answers is an argument. *)

From stdpp Require Import base numbers list gmap sets strings relations.
From S2P Require Import Prelude Pipe Fs.

Open Scope Z_scope.

Definition NFILE : nat := 100.

Inductive ftype := FD_NONE | FD_PIPE | FD_INODE.
#[export] Instance ftype_eq_dec : EqDecision ftype.
Proof. solve_decision. Defined.

Record file := File {
  type_ : ftype; ref_ : Z; readable : Z; writable : Z; pipe_ : option nat; ip_ : option nat; off_ : Z
}.

Definition set_fref (f : file) (r : Z) : file :=
  File (type_ f) r (readable f) (writable f) (pipe_ f) (ip_ f) (off_ f).
Definition set_ftype (f : file) (t : ftype) : file :=
  File t (ref_ f) (readable f) (writable f) (pipe_ f) (ip_ f) (off_ f).
Definition set_off (f : file) (o : Z) : file :=
  File (type_ f) (ref_ f) (readable f) (writable f) (pipe_ f) (ip_ f) o.

(** ** The table *)

(** The first entry with [ref == 0] gets a reference. *)
Fixpoint filealloc_loop (l : list file) (i : nat) : option (nat * list file) :=
  match l with
  | [] => None
  | f :: l =>
      if ref_ f =? 0 then Some (i, set_fref f 1 :: l)
      else '(j, l) ← filealloc_loop l (S i); Some (j, f :: l)
  end.

Definition filedup_table (l : list file) (i : nat) : outcome (list file) :=
  f ← opt (l !! i);
  if ref_ f <? 1 then Panic "filedup" else Ret (<[i := set_fref f (ref_ f + 1)]> l).

(** The part of [fileclose] under the lock: the copy [ff] when this was the
    last reference. *)
Definition fileclose_table (l : list file) (i : nat) : outcome (option file * list file) :=
  f ← opt (l !! i);
  if ref_ f <? 1 then Panic "fileclose"
  else if 0 <? ref_ f - 1 then Ret (None, <[i := set_fref f (ref_ f - 1)]> l)
  else Ret (Some (set_fref f (ref_ f - 1)), <[i := set_ftype (set_fref f 0) FD_NONE]> l).

(** ** The state of the kernel as far as files go *)
Record kst := KSt { ftable : list file; pipes : gmap nat pipe; fsys : fs; ops : Z }.

Definition set_ftable (l : list file) : M kst unit := fun s => Ret (tt, KSt l (pipes s) (fsys s) (ops s)).
Definition set_pipes (p : gmap nat pipe) : M kst unit := fun s => Ret (tt, KSt (ftable s) p (fsys s) (ops s)).
Definition get_file (i : nat) : M kst file := fun s => f ← opt (ftable s !! i); Ret (f, s).
Definition set_file (i : nat) (f : file) : M kst unit := fun s =>
  Ret (tt, KSt (<[i := f]> (ftable s)) (pipes s) (fsys s) (ops s)).
Definition get_pipe (i : nat) : M kst pipe := fun s => p ← opt (pipes s !! i); Ret (p, s).
(** An operation of the file system. *)
Definition on_fs {A} (m : M fs A) : M kst A := fun s =>
  '(a, f) ← m (fsys s); Ret (a, KSt (ftable s) (pipes s) f (ops s)).
(** [begin_op] and [end_op]; when the log is full [begin_op] waits. *)
Definition begin_op : M kst unit := fun s => Ret (tt, KSt (ftable s) (pipes s) (fsys s) (ops s + 1)).
Definition end_op : M kst unit := fun s => Ret (tt, KSt (ftable s) (pipes s) (fsys s) (ops s - 1)).

(** ** Operations *)
Definition filealloc : M kst (option nat) :=
  s ← get_st;
  match filealloc_loop (ftable s) 0 with
  | None => mret None
  | Some (i, l) => set_ftable l ;; mret (Some i)
  end.

Definition filedup (i : nat) : M kst nat :=
  s ← get_st;
  l ← lift (filedup_table (ftable s) i);
  set_ftable l ;; mret i.

(** [pipeclose] of a pipe in memory; its page is freed with the last end. *)
Definition close_pipe (p : nat) (w : bool) : M kst unit :=
  s ← get_st;
  x ← get_pipe p;
  let '(x, _, freed) := pipeclose x w in
  set_pipes (if (freed : bool) then delete p (pipes s) else <[p := x]> (pipes s)).

(** What the last [fileclose] releases. *)
Definition release_object (ff : file) : M kst unit :=
  match type_ ff with
  | FD_PIPE => p ← lift (opt (pipe_ ff)); close_pipe p (negb (writable ff =? 0))
  | FD_INODE => ip ← lift (opt (ip_ ff)); begin_op ;; on_fs (iput ip) ;; end_op
  | FD_NONE => mret tt
  end.
Definition fileclose (i : nat) : M kst unit :=
  s ← get_st;
  '(ff, l) ← lift (fileclose_table (ftable s) i);
  set_ftable l ;;
  match ff with
  | None => mret tt
  | Some ff => release_object ff
  end.

(** The metadata, or [None] for -1. *)
Definition filestat (i : nat) : M kst (option stat) :=
  f ← get_file i;
  match type_ f with
  | FD_INODE =>
      on_fs (ilock (ip_ f)) ;;
      ip ← lift (opt (ip_ f));
      st ← on_fs (stati ip);
      on_fs (iunlock (ip_ f)) ;;
      mret (Some st)
  | _ => mret None
  end.

(** A read or write returns, or sleeps on a pipe and is resumed there. *)
Inductive io := Done (r : Z) (bytes : list Z) | Waits (c : chan).

Section io.
Context (dev_read : Z → option (nat → Z → M fs (Z * list Z))).
Context (dev_write : Z → option (nat → list Z → M fs Z)).

Definition fileread (i : nat) (killed : bool) (n : Z) : M kst io :=
  f ← get_file i;
  if readable f =? 0 then mret (Done (-1) [])
  else match type_ f with
  | FD_PIPE =>
      p ← lift (opt (pipe_ f));
      x ← get_pipe p;
      '(seg, bytes) ← lift (piperead x killed n);
      s ← get_st;
      set_pipes (<[p := seg_pipe seg]> (pipes s)) ;;
      mret (match seg_status seg with Returns r => Done r bytes | Sleeps c => Waits c end)
  | FD_INODE =>
      ip ← lift (opt (ip_ f));
      on_fs (ilock (ip_ f)) ;;
      '(r, bytes) ← on_fs (readi dev_read ip (off_ f) n);
      (if 0 <? r then set_file i (set_off f (u32 (off_ f + r))) else mret tt) ;;
      on_fs (iunlock (ip_ f)) ;;
      mret (Done r bytes)
  | FD_NONE => panic "fileread"
  end.

(** [((MAXOPBLOCKS-1-1-2) / 2) * 512]. *)
Definition max_write : Z := (10 - 1 - 1 - 2) / 2 * 512.

(** The loop of [filewrite] for an inode: the final [i]. *)
Fixpoint filewrite_loop (i : nat) (src : list Z) (n k : Z) (fuel : nat) : M kst Z :=
  if k <? n then
    match fuel with
    | O => lift NoFuel
    | S fuel =>
        f ← get_file i;
        let n1 := if max_write <? n - k then max_write else n - k in
        ip ← lift (opt (ip_ f));
        begin_op ;;
        on_fs (ilock (ip_ f)) ;;
        r ← on_fs (writei dev_write ip (drop (Z.to_nat k) src) (off_ f) n1);
        (if 0 <? r then set_file i (set_off f (u32 (off_ f + r))) else mret tt) ;;
        on_fs (iunlock (ip_ f)) ;;
        end_op ;;
        if r <? 0 then mret k
        else if negb (r =? n1) then panic "short filewrite"
        else filewrite_loop i src n (k + r) fuel
    end
  else mret k.

Definition filewrite (i : nat) (killed : bool) (src : list Z) (n : Z) : M kst io :=
  f ← get_file i;
  if writable f =? 0 then mret (Done (-1) [])
  else match type_ f with
  | FD_PIPE =>
      p ← lift (opt (pipe_ f));
      x ← get_pipe p;
      seg ← lift (pipewrite x killed src n);
      s ← get_st;
      set_pipes (<[p := seg_pipe seg]> (pipes s)) ;;
      mret (match seg_status seg with Returns r => Done r [] | Sleeps c => Waits c end)
  | FD_INODE =>
      k ← filewrite_loop i src n 0 (Z.to_nat n);
      mret (Done (if k =? n then n else -1) [])
  | FD_NONE => panic "filewrite"
  end.
End io.

(** The [bad] exit of [pipealloc]. *)
Definition close_opt (o : option nat) : M kst unit := match o with Some i => fileclose i | None => mret tt end.

(** [page] is what [kalloc] returned: the address of the new pipe and the
    contents of its data array. *)
Definition pipealloc (page : option (nat * list Z)) : M kst (option (nat * nat)) :=
  f0 ← filealloc;
  match f0 with
  | None => mret None
  | Some i0 =>
      f1 ← filealloc;
      match f1, page with
      | Some i1, Some (p, d) =>
          s ← get_st;
          set_pipes (<[p := pipe_init d]> (pipes s)) ;;
          x ← get_file i0;
          set_file i0 (File FD_PIPE (ref_ x) 1 0 (Some p) (ip_ x) (off_ x)) ;;
          y ← get_file i1;
          set_file i1 (File FD_PIPE (ref_ y) 0 1 (Some p) (ip_ y) (off_ y)) ;;
          mret (Some (i0, i1))
      | _, _ => fileclose i0 ;; close_opt f1 ;; mret None
      end
  end.

(** ** References to open files *)

(** What an entry keeps alive: an end of a pipe, or a reference to an inode. *)
Inductive object := PipeEnd (p : option nat) (w : bool) | InodeRef (ip : option nat).
Definition object_of (f : file) : list object :=
  match type_ f with
  | FD_NONE => []
  | FD_PIPE => [PipeEnd (pipe_ f) (negb (writable f =? 0))]
  | FD_INODE => [InodeRef (ip_ f)]
  end.

(** The table, the pointers the processes hold, and the objects handed to
    and released by the table so far. *)
Record fsys_st := FSys { ft : list file; hs : list nat; acquired : list object; released : list object }.

Inductive fstep : fsys_st → fsys_st → Prop :=
  | fs_alloc i l' l h a r :
      filealloc_loop l 0 = Some (i, l') → fstep (FSys l h a r) (FSys l' (i :: h) a r)
  | fs_setup i f f' l h a r :
      i ∈ h → l !! i = Some f → type_ f = FD_NONE → ref_ f' = ref_ f → type_ f' ≠ FD_NONE →
      fstep (FSys l h a r) (FSys (<[i := f']> l) h (object_of f' ++ a) r)
  | fs_seek i f o l h a r :
      i ∈ h → l !! i = Some f → fstep (FSys l h a r) (FSys (<[i := set_off f o]> l) h a r)
  | fs_dup i l' l h a r :
      i ∈ h → filedup_table l i = Ret l' → fstep (FSys l h a r) (FSys l' (i :: h) a r)
  | fs_close i ff l' h' l h a r :
      h ≡ₚ i :: h' → fileclose_table l i = Ret (ff, l') →
      fstep (FSys l h a r) (FSys l' h' a ((if ff is Some g then object_of g else []) ++ r)).

Record file_inv (σ : fsys_st) : Prop := {
  fi_count i f : ft σ !! i = Some f → ref_ f = Z.of_nat (length (filter (eq i) (hs σ)));
  fi_held i : i ∈ hs σ → (i < length (ft σ))%nat;
  fi_free i f : ft σ !! i = Some f → ref_ f = 0 → type_ f = FD_NONE;
  fi_objects : acquired σ ≡ₚ released σ ++ concat (object_of <$> ft σ)
}.

Lemma objects_insert (l : list file) i x y : l !! i = Some x →
  concat (object_of <$> <[i := y]> l) ++ object_of x ≡ₚ concat (object_of <$> l) ++ object_of y.
Proof.
  revert i. induction l as [|z l IH]; intros i Hi; [done|]. destruct i as [|i]; cbn in Hi.
  - injection Hi as ->. change (<[0%nat := y]> (x :: l)) with (y :: l). cbn [fmap list_fmap concat].
    rewrite (Permutation_app_comm (object_of y) (concat _)), (Permutation_app_comm (object_of x) (concat _)).
    rewrite <-!app_assoc. apply Permutation_app_head, Permutation_app_comm.
  - change (<[S i := y]> (z :: l)) with (z :: <[i := y]> l). cbn [fmap list_fmap concat].
    rewrite <-!app_assoc. by rewrite IH.
Qed.

Lemma objects_same (l : list file) i x y : l !! i = Some x → object_of y = object_of x →
  concat (object_of <$> <[i := y]> l) = concat (object_of <$> l).
Proof.
  intros Hi E. rewrite list_fmap_insert, E. f_equal. apply list_insert_id. by rewrite list_lookup_fmap, Hi.
Qed.

Lemma handles_cons (i j : nat) (h : list nat) :
  length (filter (eq i) (j :: h)) = ((if decide (i = j) then 1 else 0) + length (filter (eq i) h))%nat.
Proof. rewrite filter_cons. by case_decide. Qed.

Lemma handles_pos (i : nat) (h : list nat) : i ∈ h → (0 < length (filter (eq i) h))%nat.
Proof.
  intros Hi. assert (i ∈ filter (eq i) h) as Hf by (by apply list_elem_of_filter).
  destruct (filter (eq i) h); [by apply not_elem_of_nil in Hf|cbn; lia].
Qed.

Lemma filealloc_loop_spec l : ∀ k i l', filealloc_loop l k = Some (i, l') →
  ∃ j f, i = (k + j)%nat ∧ l !! j = Some f ∧ ref_ f = 0 ∧ l' = <[j := set_fref f 1]> l.
Proof.
  induction l as [|f l IH]; intros k i l' E; cbn in E; [done|]. destruct (ref_ f =? 0) eqn:Ef.
  - injection E as <- <-. bool_to_prop. exists 0%nat, f. by rewrite Nat.add_0_r.
  - destruct (filealloc_loop l (S k)) as [[j l2]|] eqn:E2; [|done]. injection E as <- <-.
    destruct (IH _ _ _ E2) as (j' & g & -> & Hg & Hr & ->). exists (S j'), g. split_and!; [lia|done..].
Qed.

(** An entry and the pointers to it change together. *)
Lemma file_inv_set l h a r i f f' h' a' r' :
  file_inv (FSys l h a r) → l !! i = Some f →
  ref_ f' = Z.of_nat (length (filter (eq i) h')) → (ref_ f' = 0 → type_ f' = FD_NONE) →
  (∀ j, j ≠ i → length (filter (eq j) h') = length (filter (eq j) h)) →
  (∀ j, j ∈ h' → j = i ∨ j ∈ h) →
  (a' ≡ₚ r' ++ concat (object_of <$> <[i := f']> l)) →
  file_inv (FSys (<[i := f']> l) h' a' r').
Proof.
  intros [H1 H2 H3 H4] Hf Hr Ht Hc Hh Ho. cbn [ft hs acquired released] in *.
  pose proof (lookup_lt_Some _ _ _ Hf) as Hlt. split; cbn [ft hs acquired released]; [| | |done].
  - intros j g Hg. destruct (decide (j = i)) as [->|Hne].
    + rewrite list_lookup_insert_eq in Hg by done. by injection Hg as <-.
    + rewrite list_lookup_insert_ne in Hg by done. rewrite Hc by done. by apply H1.
  - intros j Hj. rewrite length_insert. destruct (Hh j Hj) as [->|?]; [done|by apply H2].
  - intros j g Hg. destruct (decide (j = i)) as [->|Hne].
    + rewrite list_lookup_insert_eq in Hg by done. by injection Hg as <-.
    + rewrite list_lookup_insert_ne in Hg by done. by eapply H3.
Qed.

Lemma handles_perm (h h' : list nat) i : h ≡ₚ i :: h' →
  (∀ j, length (filter (eq j) h) = length (filter (eq j) (i :: h'))) ∧ i ∈ h.
Proof.
  intros Hp. split; [|by rewrite Hp; left]. intros j. apply Permutation_length. by rewrite Hp.
Qed.

Lemma fstep_inv σ σ' : fstep σ σ' → file_inv σ → file_inv σ'.
Proof.
  destruct 1 as [i l' l h a r E|i f f' l h a r Hi Hf Ht Hr Ht'|i f o l h a r Hi Hf|i l' l h a r Hi E|
    i ff l' h' l h a r Hp E]; intros Hinv; pose proof Hinv as [H1 H2 H3 H4]; cbn [ft hs acquired released] in *.
  - apply filealloc_loop_spec in E as (j & f & -> & Hf & Hr & ->). cbn [Nat.add].
    assert (object_of (set_fref f 1) = object_of f) as Eo by done.
    eapply file_inv_set; [done|done| | | | |].
    + rewrite handles_cons, decide_True by done. pose proof (H1 j f Hf). cbn. lia.
    + cbn. lia.
    + intros k Hk. by rewrite handles_cons, decide_False.
    + by intros k ?%elem_of_cons.
    + by rewrite (objects_same _ _ f).
  - eapply file_inv_set; [done|done| | |done|auto|].
    + rewrite Hr. by apply H1.
    + intros E0. pose proof (H1 i f Hf). pose proof (handles_pos i h Hi). lia.
    + pose proof (objects_insert l i f f' Hf) as Hp. unfold object_of in Hp at 2. rewrite Ht, app_nil_r in Hp.
      rewrite Hp, H4, (app_assoc r). apply Permutation_app_comm.
  - eapply file_inv_set; [done|done|exact (H1 i f Hf)|exact (H3 i f Hf)|done|auto|]. by rewrite (objects_same _ _ f).
  - unfold filedup_table in E. destruct (l !! i) as [f|] eqn:Hf; [|done]. cbn [opt mbind outcome_bind] in E.
    destruct (ref_ f <? 1); [done|]. injection E as <-. eapply file_inv_set; [done|done| | | | |].
    + rewrite handles_cons, decide_True by done. pose proof (H1 i f Hf). cbn. lia.
    + pose proof (H1 i f Hf). cbn. lia.
    + intros k Hk. by rewrite handles_cons, decide_False.
    + by intros k ?%elem_of_cons.
    + by rewrite (objects_same _ _ f).
  - destruct (handles_perm _ _ _ Hp) as [Hc Hi]. unfold fileclose_table in E.
    destruct (l !! i) as [f|] eqn:Hf; [|done]. cbn [opt mbind outcome_bind] in E.
    destruct (ref_ f <? 1); [done|]. pose proof (H1 i f Hf) as Hrf. rewrite Hc, handles_cons, decide_True in Hrf by done.
    assert (∀ j, j ≠ i → length (filter (eq j) h') = length (filter (eq j) h)) as Hother.
    { intros j Hj. by rewrite Hc, handles_cons, decide_False. }
    assert (∀ j, j ∈ h' → j = i ∨ j ∈ h) as Hin by (intros j Hj; right; rewrite Hp; by right).
    destruct (0 <? ref_ f - 1) eqn:E1; bool_to_prop; injection E as <- <-.
    + eapply file_inv_set; [done|done|cbn; lia|cbn; lia|done|done|]. cbn [app]. by rewrite (objects_same _ _ f).
    + eapply file_inv_set; [done|done|cbn; lia|done|done|done|].
      pose proof (objects_insert l i f (set_ftype (set_fref f 0) FD_NONE) Hf) as Ho.
      change (object_of (set_ftype (set_fref f 0) FD_NONE)) with (@nil object) in Ho. rewrite app_nil_r in Ho.
      change (object_of (set_fref f (ref_ f - 1))) with (object_of f). rewrite H4, <-Ho.
      rewrite (Permutation_app_comm (concat _) (object_of f)), !app_assoc.
      by rewrite (Permutation_app_comm r (object_of f)).
Qed.

Definition zero_file : file := File FD_NONE 0 0 0 None None 0.

(** C19. Open files: in every state reachable from the empty table by
    [filealloc], setting a new entry up, [filedup], [fileclose] and moving the
    offset, the reference count of an entry is the number of pointers held to
    it; closing or duplicating through a pointer that is held never panics; an
    entry without pointers is free; and the pipe ends and inode references
    handed to the table are those released so far and those of the entries in
    use, each released exactly once, by the last [fileclose]. *)
Theorem file_references (σ : fsys_st) :
  rtc fstep (FSys (replicate NFILE zero_file) [] [] []) σ →
  (∀ i f, ft σ !! i = Some f → ref_ f = Z.of_nat (length (filter (eq i) (hs σ)))) ∧
  (∀ i f, ft σ !! i = Some f → i ∉ hs σ → ref_ f = 0 ∧ type_ f = FD_NONE) ∧
  (∀ i, i ∈ hs σ → (∃ l, filedup_table (ft σ) i = Ret l) ∧
     ∃ ff l, fileclose_table (ft σ) i = Ret (ff, l) ∧
       (is_Some ff ↔ length (filter (eq i) (hs σ)) = 1%nat)) ∧
  acquired σ ≡ₚ released σ ++ concat (object_of <$> ft σ) ∧
  (hs σ = [] → acquired σ ≡ₚ released σ).
Proof.
  intros Hr. assert (file_inv σ) as [H1 H2 H3 H4].
  { assert (file_inv (FSys (replicate NFILE zero_file) [] [] [])) as H0.
    { split; cbn [ft hs acquired released].
      - by intros i f [-> _]%lookup_replicate.
      - by intros i ?%not_elem_of_nil.
      - by intros i f [-> _]%lookup_replicate.
      - by vm_compute. }
    induction Hr as [|σ1 σ2 σ3 Hs _ IH]; [done|]. by eapply IH, fstep_inv. }
  assert (∀ i f, ft σ !! i = Some f → i ∉ hs σ → ref_ f = 0 ∧ type_ f = FD_NONE) as Hfree.
  { intros i f Hf Hn. assert (ref_ f = 0) as E0.
    { rewrite (H1 i f Hf). destruct (filter (eq i) (hs σ)) as [|j l] eqn:E; [done|]. exfalso.
      assert (j ∈ filter (eq i) (hs σ)) as Hj by (rewrite E; by left). apply list_elem_of_filter in Hj as [-> ?]. done. }
    split; [done|]. by eapply H3. }
  split_and!; [exact H1|exact Hfree| |exact H4|].
  - intros i Hi. destruct (lookup_lt_is_Some_2 (ft σ) i (H2 i Hi)) as [f Hf]. pose proof (H1 i f Hf) as Hrf.
    pose proof (handles_pos i _ Hi) as Hpos. unfold filedup_table, fileclose_table. rewrite Hf. cbn [opt mbind outcome_bind].
    destruct (ref_ f <? 1) eqn:E1; bool_to_prop; [lia|]. split; [eauto|].
    destruct (0 <? ref_ f - 1) eqn:E2; bool_to_prop; do 2 eexists; (split; [done|]).
    + split; [by intros [? ?]|lia].
    + split; [lia|]. intros _. by eexists.
  - intros Hnil. rewrite H4. assert (concat (object_of <$> ft σ) = []) as ->; [|by rewrite app_nil_r].
    assert (∀ f, f ∈ ft σ → object_of f = []) as Hn.
    { intros f (i & Hf)%list_elem_of_lookup. destruct (Hfree i f Hf) as [_ Et]; [by rewrite Hnil; apply not_elem_of_nil|].
      unfold object_of. by rewrite Et. }
    clear -Hn. induction (ft σ) as [|f l IH]; [done|]. cbn. rewrite Hn by (by left). apply IH.
    intros g Hg. apply Hn. by right.
Qed.

Lemma file_references_witness :
  ∃ σ, rtc fstep (FSys (replicate NFILE zero_file) [] [] []) σ ∧ hs σ = [0%nat; 0%nat] ∧
    ref_ <$> (ft σ !! 0%nat) = Some 2.
Proof.
  set (σ := FSys (<[0%nat := set_fref zero_file 2]> (replicate NFILE zero_file)) [0%nat; 0%nat] [] []).
  assert (rtc fstep (FSys (replicate NFILE zero_file) [] [] []) σ) as Hr.
  { eapply rtc_l; [by apply (fs_alloc 0 (<[0%nat := set_fref zero_file 1]> (replicate NFILE zero_file)))|].
    apply rtc_once. apply fs_dup; [by left|reflexivity]. }
  exists σ. split; [exact Hr|]. split; [reflexivity|].
  destruct (file_references σ Hr) as [Hc _]. assert (ft σ !! 0%nat = Some (set_fref zero_file 2)) as E by reflexivity.
  rewrite E. cbn [fmap option_fmap option_map]. rewrite (Hc 0%nat _ E). reflexivity.
Defined.
