(* ===== verification/FileWrite.v ===== *)
(** * Writing an open file ([filewrite] over [writei])

    A write of any length is cut into transactions of at most three blocks;
    together they have the effect of one write. *)

From stdpp Require Import base numbers list gmap sets strings.
From S2P Require Import Prelude Spinlock Fs FsBlocks FsInode FsFile File.

Open Scope Z_scope.

(** ** Locking a cached inode *)
Definition put_inode (s : fs) (ip : nat) (x : inode) : fs := set_icache s (<[ip := x]> (icache s)).

Lemma ilock_cached s ip x :
  icache s !! ip = Some x → 1 ≤ ref x → s_locked (ilk x) = 0 → valid x ≠ 0 →
  ilock (Some ip) s = Ret (tt, put_inode s ip (set_ilk x (SLock 1 0))).
Proof.
  intros Hx Hr Hl Hv. unfold ilock. erewrite M_bind_run by (by apply get_inode_run).
  destruct (ref x <? 1) eqn:E; bool_to_prop; [lia|].
  erewrite M_bind_run.
  2:{ unfold acquire_inode. erewrite M_bind_run by (by apply get_inode_run).
      unfold acquiresleep. rewrite Hl. done. }
  apply Z.eqb_neq in Hv. by rewrite Hv.
Qed.

Lemma iunlock_locked s ip x :
  icache s !! ip = Some x → 1 ≤ ref x → s_locked (ilk x) ≠ 0 →
  iunlock (Some ip) s = Ret (tt, put_inode s ip (set_ilk x (SLock 0 0))).
Proof.
  intros Hx Hr Hl. unfold iunlock. erewrite M_bind_run by (by apply get_inode_run).
  unfold holdingsleep. apply Z.eqb_neq in Hl. rewrite Hl. cbn [negb orb].
  destruct (ref x <? 1) eqn:E; bool_to_prop; [lia|]. unfold release_inode.
  erewrite M_bind_run by (by apply get_inode_run). done.
Qed.

Lemma set_ilk_ok s ip x l : file_ok s ip x → file_ok (put_inode s ip (set_ilk x l)) ip (set_ilk x l).
Proof.
  intros [F1 F2 F3 F4 F5 F6 F7 F8]. split; try done.
  - cbn [put_inode icache set_icache]. rewrite list_lookup_insert_eq by (by eapply lookup_lt_Some). done.
  - destruct F3. by split.
  - intros i Hi Hn. destruct (F7 i Hi Hn). by split.
Qed.
Lemma set_ilk_block s ip x l : inode_block_ok s x → inode_block_ok (put_inode s ip (set_ilk x l)) (set_ilk x l).
Proof. intros [[D1 D2 D3] D4]. split; [by split|done]. Qed.

(** ** The state of a write *)
Record writing (s : kst) (i ip : nat) (f : file) (x : inode) : Prop := {
  w_file : ftable s !! i = Some f;
  w_ip : ip_ f = Some ip;
  w_ok : file_ok (fsys s) ip x;
  w_block : inode_block_ok (fsys s) x;
  w_type : type x ≠ T_DEV;
  w_size : 0 ≤ size x ≤ 140 * 512;
  w_ref : 1 ≤ ref x;
  w_lock : s_locked (ilk x) = 0;
  w_valid : valid x ≠ 0;
  w_off : 0 ≤ off_ f ≤ size x
}.

(** What one or more rounds change. *)
Record progress (s : kst) (i ip : nat) (f : file) (x : inode) (s' : kst) (x' : inode) (src : list Z) (n : Z) : Prop := {
  p_writing : writing s' i ip (set_off f (off_ f + n)) x';
  p_bytes k : 0 ≤ k < 140 * 512 → fbyte (fsys s') x' k = overlay (fsys s) x src (off_ f) n k;
  p_size : size x' = if 0 <? n then Z.max (size x) (off_ f + n) else size x;
  p_pipes : pipes s' = pipes s;
  p_ops : ops s' = ops s;
  p_files j : j ≠ i → ftable s' !! j = ftable s !! j
}.

Lemma overlay_trans s x s1 x1 src off m n k :
  (∀ k, 0 ≤ k < 140 * 512 → fbyte s1 x1 k = overlay s x src off m k) → 0 ≤ k < 140 * 512 → 0 ≤ m ≤ n →
  overlay s1 x1 (drop (Z.to_nat m) src) (off + m) (n - m) k = overlay s x src off n k.
Proof.
  intros H Hk Hm. unfold overlay at 1. rewrite H by done. unfold overlay. rewrite lookup_drop.
  repeat case_decide; try lia; try done. do 2 f_equal. lia.
Qed.

Section write.
Context (dev_read : Z → option (nat → Z → M fs (Z * list Z))).
Context (dev_write : Z → option (nat → list Z → M fs Z)).

Lemma on_fs_run {A} (m : M fs A) s a f : m (fsys s) = Ret (a, f) →
  on_fs m s = Ret (a, KSt (ftable s) (pipes s) f (ops s)).
Proof. intros E. unfold on_fs. by rewrite E. Qed.

(** One round of the loop. *)
Lemma write_round s i ip f x src n A (k : Z → M kst A) :
  writing s i ip f x → 0 < n → off_ f + n ≤ 140 * 512 → n ≤ Z.of_nat (length src) →
  let c := (begin_op ;; on_fs (ilock (Some ip)) ;;
            r ← on_fs (writei dev_write ip src (off_ f) n);
            (if 0 <? r then set_file i (set_off f (u32 (off_ f + r))) else mret tt) ;;
            on_fs (iunlock (Some ip)) ;; end_op ;; k r) in
  c s = full_disk ∨ ∃ s' x', c s = k n s' ∧ progress s i ip f x s' x' src n.
Proof.
  intros [W1 W2 W3 W4 W5 W6 W7 W8 W9 W10] Hn Hend Hsrc c.
  pose proof (f_inode _ _ _ W3) as Hx.
  pose proof (ilock_cached (fsys s) ip x Hx W7 W8 W9) as El.
  set (x0 := set_ilk x (SLock 1 0)) in *. set (s0 := put_inode (fsys s) ip x0) in *.
  pose proof (writei_spec dev_read dev_write s0 ip x0 src (off_ f) n (set_ilk_ok _ _ _ _ W3) (set_ilk_block _ _ _ _ W4)
    W5 W6 ltac:(lia) ltac:(lia) Hsrc) as Hw.
  assert ((size x0 <? off_ f) || (140 * 512 <? off_ f + n) = false) as E by (apply orb_false_iff; cbn; lia).
  rewrite E in Hw. destruct Hw as [F|(s1 & x1 & R & Hw)].
  - left. unfold c. erewrite M_bind_run by done. erewrite M_bind_run by (by apply on_fs_run).
    unfold mbind at 1, M_bind at 1, on_fs. cbn [fsys]. by rewrite F.
  - pose proof Hw as [V1 V2 V3 V4 V5 _ _ _ V6 V7 _].
    assert (x1 = set_size (set_addrs x0 (addrs x1)) (size x1)) as Ex1 by (rewrite <-V5; by destruct x1).
    assert (ref x1 = ref x ∧ valid x1 = valid x ∧ type x1 = type x ∧ ilk x1 = SLock 1 0) as (R1 & R2 & R3 & R4)
      by (rewrite Ex1; done).
    assert (0 <? n = true) as En by lia. rewrite En in V4. cbn in V4.
    right. exists (KSt (<[i := set_off f (off_ f + n)]> (ftable s)) (pipes s)
      (put_inode s1 ip (set_ilk x1 (SLock 0 0))) (ops s)), (set_ilk x1 (SLock 0 0)). split.
    + unfold c. erewrite M_bind_run by done. erewrite M_bind_run by (by apply on_fs_run).
      erewrite M_bind_run by (by apply on_fs_run). rewrite En, u32_small by lia.
      erewrite M_bind_run by done.
      erewrite M_bind_run by (apply on_fs_run, iunlock_locked; [apply (f_inode _ _ _ V1)|lia|by rewrite R4]).
      unfold end_op. cbn [ftable pipes fsys ops]. unfold mbind, M_bind. cbn. by replace (ops s + 1 - 1) with (ops s) by lia.
    + split; cbn [ftable pipes fsys ops]; try done; [|by rewrite En|].
      * split; cbn [ftable pipes fsys ops]; try done; [|by apply set_ilk_ok|by apply set_ilk_block|..];
          cbn; rewrite ?R1, ?R2, ?R3, ?V4; try done; try lia.
        rewrite list_lookup_insert_eq by (by eapply lookup_lt_Some). done.
      * intros j Hj. by rewrite list_lookup_insert_ne.
Qed.

Lemma filewrite_loop_spec i ip fuel : ∀ s f x src n k,
  writing s i ip f x → 0 ≤ k ≤ n → off_ f + (n - k) ≤ 140 * 512 → n ≤ Z.of_nat (length src) →
  n - k ≤ Z.of_nat fuel →
  filewrite_loop dev_write i src n k fuel s = full_disk ∨
  ∃ s' x', filewrite_loop dev_write i src n k fuel s = Ret (n, s') ∧
    progress s i ip f x s' x' (drop (Z.to_nat k) src) (n - k).
Proof.
  assert (∀ s f x src, writing s i ip f x → progress s i ip f x s x src 0) as Hzero.
  { intros s f x src Hw. split; try done.
    - rewrite Z.add_0_r. by destruct f.
    - intros k Hk. unfold overlay. by rewrite decide_False by lia. }
  induction fuel as [|fuel IH]; intros s f x src n k Hw Hk Hend Hsrc Hf; cbn [filewrite_loop].
  { right. exists s, x. case_if; [lia|]. assert (k = n) as -> by lia. rewrite Z.sub_diag. split; [done|]. by apply Hzero. }
  case_if as E.
  2:{ right. exists s, x. assert (k = n) as -> by lia. rewrite Z.sub_diag. split; [done|]. by apply Hzero. }
  erewrite !M_bind_run by (unfold get_file; by rewrite (w_file _ _ _ _ _ Hw)). cbv zeta.
  set (n1 := if max_write <? n - k then max_write else n - k).
  assert (0 < n1 ≤ n - k) as Hn1 by (unfold n1; change max_write with 1536; case_if; lia).
  erewrite !M_bind_run by (unfold lift; by rewrite (w_ip _ _ _ _ _ Hw)).
  rewrite (w_ip _ _ _ _ _ Hw).
  edestruct (write_round s i ip f x (drop (Z.to_nat k) src) n1) as [F|(s1 & x1 & R & Hp)];
    [done|lia|lia|rewrite length_drop; lia|left; exact F|]. rewrite R. clear R.
  destruct (n1 <? 0) eqn:E0; bool_to_prop; [lia|]. rewrite Z.eqb_refl. cbn [negb].
  destruct (IH s1 (set_off f (off_ f + n1)) x1 src n (k + n1) (p_writing _ _ _ _ _ _ _ _ _ Hp))
    as [F|(s2 & x2 & R2 & Hp2)]; cbn [off_ set_off]; try lia; [by left|right].
  exists s2, x2. split; [done|]. destruct Hp as [P1 P2 P3 P4 P5 P6], Hp2 as [Q1 Q2 Q3 Q4 Q5 Q6].
  cbn [off_ set_off] in *. split; try congruence.
  - by replace (off_ f + (n - k)) with (off_ f + n1 + (n - (k + n1))) by lia.
  - intros j Hj. rewrite Q2 by done. replace (n - (k + n1)) with (n - k - n1) by lia.
    replace (Z.to_nat (k + n1)) with (Z.to_nat k + Z.to_nat n1)%nat by lia. rewrite <-drop_drop.
    apply overlay_trans; [done|done|lia].
  - rewrite Q3, P3. repeat case_if; lia.
  - intros j Hj. by rewrite Q6, P6.
Qed.
End write.

(** C8. [filewrite] on an inode writes like one [writei] although it runs as
    several transactions: for an open, unlocked, consistent file and a length
    that stays within the maximal file size, the call stops only for lack of
    disk blocks; otherwise it returns [n], the contents have the [n] bytes at
    the old offset and are unchanged elsewhere, the size covers them, the
    offset has moved by [n], every transaction begun was ended, the inode is
    unlocked and consistent again, and no other open file or pipe changed. *)
Theorem filewrite_correct dev_write (s : kst) (i ip : nat) (f : file) (x : inode) (src : list Z) (n : Z) (killed : bool) :
  writing s i ip f x → type_ f = FD_INODE → writable f ≠ 0 → 0 ≤ n → off_ f + n ≤ MAXFILE * BSIZE →
  n ≤ Z.of_nat (length src) →
  filewrite dev_write i killed src n s = Panic "balloc: out of blocks" ∨
  ∃ s' x', filewrite dev_write i killed src n s = Ret (Done n [], s') ∧
    writing s' i ip (set_off f (off_ f + n)) x' ∧
    (∀ k, 0 ≤ k < MAXFILE * BSIZE → fbyte (fsys s') x' k =
       if decide (off_ f ≤ k < off_ f + n) then default 0 (src !! Z.to_nat (k - off_ f)) else fbyte (fsys s) x k) ∧
    size x' = (if 0 <? n then Z.max (size x) (off_ f + n) else size x) ∧
    ops s' = ops s ∧ pipes s' = pipes s ∧ (∀ j, j ≠ i → ftable s' !! j = ftable s !! j).
Proof.
  change (MAXFILE * BSIZE) with (140 * 512). intros Hw Ht Hwr Hn Hend Hsrc.
  unfold filewrite. erewrite !M_bind_run by (unfold get_file; by rewrite (w_file _ _ _ _ _ Hw)).
  apply Z.eqb_neq in Hwr. rewrite Hwr, Ht.
  destruct (filewrite_loop_spec (λ _, None) dev_write i ip (Z.to_nat n) s f x src n 0 Hw)
    as [F|(s' & x' & R & [P1 P2 P3 P4 P5 P6])]; rewrite ?Z.sub_0_r in *; try lia.
  - left. unfold mbind at 1, M_bind at 1. by rewrite F.
  - right. exists s', x'. split_and!; try done. erewrite M_bind_run by done. by rewrite Z.eqb_refl.
Qed.

Definition demo_open : kst :=
  KSt [File FD_INODE 1 1 1 None (Some 0%nat) 0] ∅
    (put_inode demo_file 0 (set_ilk demo_empty (SLock 0 0))) 0.

Lemma filewrite_correct_witness :
  ∃ s', filewrite (λ _, None) 0 false (replicate 2000 7) 2000 demo_open = Ret (Done 2000 [], s') ∧
    ops s' = 0 ∧ off_ <$> (ftable s' !! 0%nat) = Some 2000.
Proof.
  destruct (filewrite_correct (λ _, None) demo_open 0 0 (File FD_INODE 1 1 1 None (Some 0%nat) 0)
    (set_ilk demo_empty (SLock 0 0)) (replicate 2000 7) 2000 false) as [F|(s' & x' & R & Hw & _ & _ & Ho & _)].
  - split; try (cbn; lia); try done; [apply (set_ilk_ok _ _ _ _ demo_file_ok)|apply (set_ilk_block _ _ _ _ demo_inode_block)].
  - reflexivity.
  - cbn. lia.
  - lia.
  - change (0 + 2000 ≤ 71680). lia.
  - rewrite length_replicate. lia.
  - exfalso. assert (match filewrite (λ _, None) 0 false (replicate 2000 7) 2000 demo_open with Ret _ => true | _ => false end = true)
      as Hr by (vm_compute; reflexivity). rewrite F in Hr. discriminate Hr.
  - exists s'. split; [exact R|]. split; [exact Ho|]. rewrite (w_file _ _ _ _ _ Hw). reflexivity.
Defined.
