(* ===== verification/Sysfile.v ===== *)
(** * The file system calls (xv6 [sysfile.c])

    The calls as the code composes them from [Fs] and [File], on the state of
    the kernel and the descriptors and current directory of the calling process.
    A call takes the results of its argument fetching ([Syscall]): [None] where
    that gives -1, a path as its characters, a buffer as its bytes.  -1 is the
    result of a failed call. *)

From stdpp Require Import base numbers list gmap sets strings.
From S2P Require Import Prelude Spinlock Pipe Fs FsCache FsRefs File.

Open Scope Z_scope.

Definition O_RDONLY : Z := 0.
Definition O_WRONLY : Z := 1.
Definition O_RDWR : Z := 2.
Definition O_CREATE : Z := 0x200.
Definition NOFILE : Z := 16.

Record sst := SSt { ks : kst; ofile : list (option nat); cwd : nat }.

Definition on_k {A} (m : M kst A) : M sst A := fun s =>
  '(a, k) ← m (ks s); Ret (a, SSt k (ofile s) (cwd s)).
Definition on_i {A} (m : M fs A) : M sst A := on_k (on_fs m).
Definition set_ofile (fd : Z) (f : option nat) : M sst unit := fun s =>
  l ← arr_set (ofile s) fd f; Ret (tt, SSt (ks s) l (cwd s)).
Definition set_cwd (ip : nat) : M sst unit := fun s => Ret (tt, SSt (ks s) (ofile s) ip).

Definition set_nlink (x : inode) (n : Z) : inode :=
  Inode (dev x) (inum x) (ref x) (ilk x) (valid x) (type x) (major x) (minor x) n (size x) (addrs x).
Definition set_dev (x : inode) (ma mi n : Z) : inode :=
  Inode (dev x) (inum x) (ref x) (ilk x) (valid x) (type x) ma mi n (size x) (addrs x).
(** [ip->nlink += d; iupdate(ip)]; [nlink] is a [short]. *)
Definition bump_nlink (ip : nat) (d : Z) : M fs unit :=
  x ← get_inode ip;
  set_inode ip (set_nlink x (i16 (nlink x + d))) ;;
  iupdate ip.

(** ** Descriptors *)

(** The descriptor and the file. *)
Definition argfd (a : option Z) : M sst (option (Z * nat)) := fun s =>
  match a with
  | None => Ret (None, s)
  | Some fd =>
      if (fd <? 0) || (NOFILE <=? fd) then Ret (None, s)
      else f ← arr_get (ofile s) fd; Ret (option_map (pair fd) f, s)
  end.

Fixpoint fdalloc_loop (l : list (option nat)) (f : nat) (fd : Z) : option (Z * list (option nat)) :=
  match l with
  | [] => None
  | None :: l => Some (fd, Some f :: l)
  | o :: l => '(r, l) ← fdalloc_loop l f (fd + 1); Some (r, o :: l)
  end.
Definition fdalloc (f : nat) : M sst (option Z) := fun s =>
  match fdalloc_loop (ofile s) f 0 with
  | None => Ret (None, s)
  | Some (fd, l) => Ret (Some fd, SSt (ks s) l (cwd s))
  end.

Definition sys_dup (a : option Z) : M sst Z :=
  r ← argfd a;
  match r with
  | None => mret (-1)
  | Some (_, f) =>
      fd ← fdalloc f;
      match fd with
      | None => mret (-1)
      | Some fd => on_k (filedup f) ;; mret fd
      end
  end.

Definition sys_close (a : option Z) : M sst Z :=
  r ← argfd a;
  match r with
  | None => mret (-1)
  | Some (fd, f) => set_ofile fd None ;; on_k (fileclose f) ;; mret 0
  end.

(** The metadata that goes to the buffer, or -1. *)
Definition sys_fstat (a st : option Z) : M sst (option stat) :=
  r ← argfd a;
  match r, st with
  | Some (_, f), Some _ => on_k (filestat f)
  | _, _ => mret None
  end.

Section calls.
Context (dev_read : Z → option (nat → Z → M fs (Z * list Z))).
Context (dev_write : Z → option (nat → list Z → M fs Z)).

Definition sys_read (a n p : option Z) (killed : bool) : M sst io :=
  r ← argfd a;
  match r, n, p with
  | Some (_, f), Some n, Some _ => on_k (fileread dev_read f killed n)
  | _, _, _ => mret (Done (-1) [])
  end.
(** [p] is the buffer. *)
Definition sys_write (a n : option Z) (p : option (list Z)) (killed : bool) : M sst io :=
  r ← argfd a;
  match r, n, p with
  | Some (_, f), Some n, Some src => on_k (filewrite dev_write f killed src n)
  | _, _, _ => mret (Done (-1) [])
  end.

(** ** Links *)
Definition link_bad (ip : nat) : M sst Z :=
  on_i (ilock (Some ip)) ;;
  on_i (bump_nlink ip (-1)) ;;
  on_i (iunlockput ip) ;;
  on_k end_op ;;
  mret (-1).

Definition sys_link (old new : option (list Z)) : M sst Z :=
  match old, new with
  | Some old, Some new =>
      on_k begin_op ;;
      s ← get_st;
      ip ← on_i (namei dev_read (cwd s) old);
      match ip with
      | None => on_k end_op ;; mret (-1)
      | Some ip =>
          on_i (ilock (Some ip)) ;;
          x ← on_i (get_inode ip);
          if type x =? T_DIR then
            on_i (iunlockput ip) ;; on_k end_op ;; mret (-1)
          else
            on_i (bump_nlink ip 1) ;;
            on_i (iunlock (Some ip)) ;;
            dp ← on_i (nameiparent dev_read (cwd s) new);
            match dp with
            | None => link_bad ip
            | Some (dp, name) =>
                on_i (ilock (Some dp)) ;;
                d ← on_i (get_inode dp);
                x ← on_i (get_inode ip);
                failed ← (if negb (dev d =? dev x) then mret true
                          else r ← on_i (dirlink dev_read dev_write dp name (inum x)); mret (r <? 0));
                if failed : bool then on_i (iunlockput dp) ;; link_bad ip
                else
                  on_i (iunlockput dp) ;;
                  on_i (iput ip) ;;
                  on_k end_op ;;
                  mret 0
            end
      end
  | _, _ => mret (-1)
  end.

Fixpoint isdirempty_loop (dp : nat) (sz off : Z) (fuel : nat) : M fs bool :=
  if off <? sz then
    match fuel with
    | O => lift NoFuel
    | S fuel =>
        '(i, _) ← read_dirent dev_read dp off "isdirempty: readi";
        if negb (i =? 0) then mret false else isdirempty_loop dp sz (off + DIRENT) fuel
    end
  else mret true.
Definition isdirempty (dp : nat) : M fs bool :=
  x ← get_inode dp;
  isdirempty_loop dp (size x) (2 * DIRENT) (Z.to_nat (size x / DIRENT + 1)).

Definition unlink_bad (dp : nat) : M sst Z :=
  on_i (iunlockput dp) ;; on_k end_op ;; mret (-1).

Definition sys_unlink (path : option (list Z)) : M sst Z :=
  match path with
  | None => mret (-1)
  | Some path =>
      on_k begin_op ;;
      s ← get_st;
      dp ← on_i (nameiparent dev_read (cwd s) path);
      match dp with
      | None => on_k end_op ;; mret (-1)
      | Some (dp, name) =>
          on_i (ilock (Some dp)) ;;
          if (namecmp name [46] =? 0) || (namecmp name [46; 46] =? 0) then unlink_bad dp
          else
            r ← on_i (dirlookup dev_read dp name);
            match r with
            | None => unlink_bad dp
            | Some (ip, off) =>
                on_i (ilock (Some ip)) ;;
                x ← on_i (get_inode ip);
                if nlink x <? 1 then panic "unlink: nlink < 1"
                else
                  busy ← (if type x =? T_DIR then e ← on_i (isdirempty ip); mret (negb e) else mret false);
                  if busy : bool then on_i (iunlockput ip) ;; unlink_bad dp
                  else
                    w ← on_i (writei dev_write dp (replicate (Z.to_nat DIRENT) 0) off DIRENT);
                    if negb (w =? DIRENT) then panic "unlink: writei"
                    else
                      x ← on_i (get_inode ip);
                      (if type x =? T_DIR then on_i (bump_nlink dp (-1)) else mret tt) ;;
                      on_i (iunlockput dp) ;;
                      on_i (bump_nlink ip (-1)) ;;
                      on_i (iunlockput ip) ;;
                      on_k end_op ;;
                      mret 0
            end
      end
  end.

(** ** Creating files *)
Definition create (cwd : nat) (path : list Z) (ty ma mi : Z) : M fs (option nat) :=
  r ← nameiparent dev_read cwd path;
  match r with
  | None => mret None
  | Some (dp, name) =>
      ilock (Some dp) ;;
      r ← dirlookup dev_read dp name;
      match r with
      | Some (ip, _) =>
          iunlockput dp ;;
          ilock (Some ip) ;;
          x ← get_inode ip;
          if (ty =? T_FILE) && (type x =? T_FILE) then mret (Some ip)
          else iunlockput ip ;; mret None
      | None =>
          d ← get_inode dp;
          ip ← ialloc (dev d) ty;
          ilock (Some ip) ;;
          x ← get_inode ip;
          set_inode ip (set_dev x (i16 ma) (i16 mi) 1) ;;
          iupdate ip ;;
          (if ty =? T_DIR then
             bump_nlink dp 1 ;;
             x ← get_inode ip;
             r ← dirlink dev_read dev_write ip [46] (inum x);
             if r <? 0 then panic "create dots"
             else
               d ← get_inode dp;
               r ← dirlink dev_read dev_write ip [46; 46] (inum d);
               if r <? 0 then panic "create dots" else mret tt
           else mret tt) ;;
          x ← get_inode ip;
          r ← dirlink dev_read dev_write dp name (inum x);
          if r <? 0 then panic "create: dirlink"
          else
            iunlockput dp ;;
            mret (Some ip)
      end
  end.

(** The inode to open, locked, inside the transaction; [None] after it ended. *)
Definition open_inode (path : list Z) (omode : Z) : M sst (option nat) :=
  s ← get_st;
  if negb (Z.land omode O_CREATE =? 0) then
    ip ← on_i (create (cwd s) path T_FILE 0 0);
    match ip with
    | None => on_k end_op ;; mret None
    | Some ip => mret (Some ip)
    end
  else
    ip ← on_i (namei dev_read (cwd s) path);
    match ip with
    | None => on_k end_op ;; mret None
    | Some ip =>
        on_i (ilock (Some ip)) ;;
        x ← on_i (get_inode ip);
        if (type x =? T_DIR) && negb (omode =? O_RDONLY) then
          on_i (iunlockput ip) ;; on_k end_op ;; mret None
        else mret (Some ip)
    end.

Definition sys_open (path : option (list Z)) (omode : option Z) : M sst Z :=
  match path, omode with
  | Some path, Some omode =>
      on_k begin_op ;;
      ip ← open_inode path omode;
      match ip with
      | None => mret (-1)
      | Some ip =>
          f ← on_k filealloc;
          fd ← (match f with Some f => fdalloc f | None => mret None end);
          match f, fd with
          | Some f, Some fd =>
              on_i (iunlock (Some ip)) ;;
              on_k end_op ;;
              x ← on_k (get_file f);
              on_k (set_file f (File FD_INODE (ref_ x) (if Z.land omode O_WRONLY =? 0 then 1 else 0)
                (if (Z.land omode O_WRONLY =? 0) && (Z.land omode O_RDWR =? 0) then 0 else 1)
                (pipe_ x) (Some ip) 0)) ;;
              mret fd
          | _, _ =>
              (match f with Some f => on_k (fileclose f) | None => mret tt end) ;;
              on_i (iunlockput ip) ;;
              on_k end_op ;;
              mret (-1)
          end
      end
  | _, _ => mret (-1)
  end.

(** What [sys_mkdir] and [sys_mknod] do with the result of [create]. *)
Definition finish_create (ip : option nat) : M sst Z :=
  match ip with
  | None => on_k end_op ;; mret (-1)
  | Some ip => on_i (iunlockput ip) ;; on_k end_op ;; mret 0
  end.

Definition sys_mkdir (path : option (list Z)) : M sst Z :=
  on_k begin_op ;;
  s ← get_st;
  ip ← (match path with Some path => on_i (create (cwd s) path T_DIR 0 0) | None => mret None end);
  finish_create ip.

Definition sys_mknod (path : option (list Z)) (ma mi : option Z) : M sst Z :=
  on_k begin_op ;;
  s ← get_st;
  ip ← (match path, ma, mi with
        | Some path, Some ma, Some mi => on_i (create (cwd s) path T_DEV ma mi)
        | _, _, _ => mret None
        end);
  finish_create ip.

Definition sys_chdir (path : option (list Z)) : M sst Z :=
  on_k begin_op ;;
  s ← get_st;
  ip ← (match path with Some path => on_i (namei dev_read (cwd s) path) | None => mret None end);
  match ip with
  | None => on_k end_op ;; mret (-1)
  | Some ip =>
      on_i (ilock (Some ip)) ;;
      x ← on_i (get_inode ip);
      if negb (type x =? T_DIR) then
        on_i (iunlockput ip) ;; on_k end_op ;; mret (-1)
      else
        on_i (iunlock (Some ip)) ;;
        on_i (iput (cwd s)) ;;
        on_k end_op ;;
        set_cwd ip ;;
        mret 0
  end.
End calls.

(** The descriptors that go to the array [fd], or -1; [page] is what [kalloc]
    answers. *)
Definition sys_pipe (fd : option Z) (page : option (nat * list Z)) : M sst (option (Z * Z)) :=
  match fd with
  | None => mret None
  | Some _ =>
      r ← on_k (pipealloc page);
      match r with
      | None => mret None
      | Some (rf, wf) =>
          fd0 ← fdalloc rf;
          fd1 ← (match fd0 with Some _ => fdalloc wf | None => mret None end);
          match fd0, fd1 with
          | Some fd0, Some fd1 => mret (Some (fd0, fd1))
          | _, _ =>
              (match fd0 with Some fd0 => set_ofile fd0 None | None => mret tt end) ;;
              on_k (fileclose rf) ;;
              on_k (fileclose wf) ;;
              mret None
          end
      end
  end.
