(* ===== verification/SysfileInv.v ===== *)
(** * Every file system call gives back what it took

    On every path through a call of [Sysfile], error paths included: the
    transaction that was begun is ended, no inode stays locked, the reference
    count of an open file is the number of descriptors for it, and that of a
    cached inode the number of open files and current directories that use it.
    And no call runs for ever. *)

From stdpp Require Import base numbers list gmap sets strings.
From S2P Require Import Prelude Spinlock Pipe Fs FsCache FsRefs File Sysfile.

Open Scope Z_scope.

(** ** The open files and the inodes they keep *)
Definition table_ok (l : list file) (hs : list nat) : Prop := ∃ a r, file_inv (FSys l hs a r).
Definition file_inode (f : file) : option nat := match type_ f with FD_INODE => ip_ f | _ => None end.
Definition files_inodes (l : list file) : list nat := omap file_inode l.

#[export] Instance table_perm l : Proper ((≡ₚ) ==> iff) (table_ok l).
Proof.
  assert (∀ k k', k ≡ₚ k' → table_ok l k → table_ok l k') as H.
  { intros k k' Hp (a & r & [H1 H2 H3 H4]). exists a, r. split; cbn [ft hs acquired released] in *;
      [|intros i Hi; apply H2; by rewrite Hp|done..].
    intros i f Hf. rewrite (H1 i f Hf). f_equal. apply Permutation_length. by rewrite Hp. }
  intros k k' Hp. split; apply H; [done|by symmetry].
Qed.

Lemma omap_insert {A B} (g : A → option B) (l : list A) i x y : l !! i = Some x →
  omap g (<[i := y]> l) ++ option_list (g x) ≡ₚ omap g l ++ option_list (g y).
Proof.
  intros Hi. pose proof (lookup_lt_Some _ _ _ Hi). rewrite insert_take_drop by done.
  rewrite <-(take_drop_middle l i x Hi) at 3. rewrite !omap_app.
  assert (∀ z r, omap g (z :: r) = option_list (g z) ++ omap g r) as Hc by (intros z r; cbn; by destruct (g z)).
  rewrite !Hc. rewrite <-!app_assoc. apply Permutation_app_head.
  rewrite (app_assoc (option_list (g x))), (Permutation_app_comm (option_list (g x) ++ _)).
  apply Permutation_app_head, Permutation_app_comm.
Qed.

Lemma omap_same {A B} (g : A → option B) (l : list A) i x y : l !! i = Some x → g y = g x →
  omap g (<[i := y]> l) = omap g l.
Proof.
  revert i. induction l as [|z l IH]; intros i Hi E; [done|]. destruct i as [|i]; cbn in Hi.
  - injection Hi as ->. cbn. by rewrite E.
  - cbn. by rewrite IH.
Qed.

Lemma table_alloc l hs i l' : filealloc_loop l 0 = Some (i, l') → table_ok l hs →
  table_ok l' (i :: hs) ∧ files_inodes l' = files_inodes l ∧ ∃ f, l' !! i = Some f ∧ type_ f = FD_NONE.
Proof.
  intros E (a & r & H). pose proof (fstep_inv _ _ (fs_alloc _ _ _ _ a r E) H) as H'.
  split; [by exists a, r|]. apply filealloc_loop_spec in E as (j & f & -> & Hf & Hr & ->).
  split; [by eapply omap_same|]. exists (set_fref f 1). cbn [Nat.add].
  rewrite list_lookup_insert_eq by (by eapply lookup_lt_Some). split; [done|]. by apply (fi_free _ H _ _ Hf).
Qed.

Lemma table_setup l hs i f f' : l !! i = Some f → type_ f = FD_NONE → i ∈ hs → ref_ f' = ref_ f → type_ f' ≠ FD_NONE →
  table_ok l hs → table_ok (<[i := f']> l) hs ∧ files_inodes (<[i := f']> l) ≡ₚ option_list (file_inode f') ++ files_inodes l.
Proof.
  intros Hf Ht Hi Hr Ht' (a & r & H). split.
  - exists (object_of f' ++ a), r. exact (fstep_inv _ _ (fs_setup _ _ _ _ _ a r Hi Hf Ht Hr Ht') H).
  - pose proof (omap_insert file_inode l i f f' Hf) as Hp. unfold file_inode at 2 in Hp. rewrite Ht in Hp.
    cbn [option_list] in Hp. rewrite app_nil_r in Hp. unfold files_inodes. rewrite Hp. apply Permutation_app_comm.
Qed.

Lemma table_dup l hs i l' : i ∈ hs → filedup_table l i = Ret l' → table_ok l hs →
  table_ok l' (i :: hs) ∧ files_inodes l' = files_inodes l.
Proof.
  intros Hi E (a & r & H). pose proof (fstep_inv _ _ (fs_dup _ _ _ _ a r Hi E) H) as H'. split; [by exists a, r|].
  unfold filedup_table in E. destruct (l !! i) as [f|] eqn:Hf; [|done]. cbn [opt mbind outcome_bind] in E.
  destruct (ref_ f <? 1); [done|]. injection E as <-. by eapply omap_same.
Qed.

Lemma table_close l hs' hs i ff l' : hs' ≡ₚ i :: hs → fileclose_table l i = Ret (ff, l') → table_ok l hs' →
  table_ok l' hs ∧ files_inodes l ≡ₚ option_list (ff ≫= file_inode) ++ files_inodes l'.
Proof.
  intros Hp E (a & r & H). pose proof (fstep_inv _ _ (fs_close _ _ _ _ _ _ a r Hp E) H) as H'. split; [by eexists _, _|].
  unfold fileclose_table in E. destruct (l !! i) as [f|] eqn:Hf; [|done]. cbn [opt mbind outcome_bind] in E.
  destruct (ref_ f <? 1); [done|]. destruct (0 <? ref_ f - 1); injection E as <- <-; cbn.
  - unfold files_inodes. by erewrite omap_same.
  - pose proof (omap_insert file_inode l i f (set_ftype (set_fref f 0) FD_NONE) Hf) as Hp'. cbn in Hp'.
    rewrite app_nil_r in Hp'. unfold files_inodes. rewrite <-Hp'. apply Permutation_app_comm.
Qed.

Lemma table_seek l hs i f o : i ∈ hs → l !! i = Some f → table_ok l hs →
  table_ok (<[i := set_off f o]> l) hs ∧ files_inodes (<[i := set_off f o]> l) = files_inodes l.
Proof.
  intros Hi Hf (a & r & H). split; [exists a, r; exact (fstep_inv _ _ (fs_seek _ _ o _ _ a r Hi Hf) H)|by eapply omap_same].
Qed.

(** ** The descriptors *)
Lemma fdalloc_perm l f : ∀ fd r l', fdalloc_loop l f fd = Some (r, l') →
  omap id l' ≡ₚ f :: omap id l ∧ length l' = length l ∧ ∃ k, r = fd + Z.of_nat k ∧ l !! k = Some None ∧ l' = <[k := Some f]> l.
Proof.
  induction l as [|o l IH]; intros fd r l' E; cbn in E; [done|]. destruct o as [g|].
  - destruct (fdalloc_loop l f (fd + 1)) as [[r1 l1]|] eqn:E1; [|done]. injection E as <- <-.
    destruct (IH _ _ _ E1) as (H1 & H2 & k & -> & Hk & ->). cbn. split_and!; [|by rewrite H2|].
    + rewrite H1. apply perm_swap.
    + exists (S k). split_and!; [lia|done|done].
  - injection E as <- <-. cbn. split_and!; [done|done|]. exists 0%nat. split_and!; [lia|done|done].
Qed.

Lemma close_perm (l : list (option nat)) k f : l !! k = Some (Some f) → omap id l ≡ₚ f :: omap id (<[k := None]> l).
Proof.
  intros Hk. pose proof (omap_insert id l k (Some f) None Hk) as H. cbn in H. rewrite app_nil_r in H.
  rewrite <-H. apply Permutation_app_comm.
Qed.

(** ** The assertion about the kernel: a property [T] of the file table, the
    handles [hs] of open files, the pointers [qs] to inodes besides those of
    open files, the locked inodes, and the open transactions *)
Definition res (T : list file → Prop) (hl qs : list nat) (lk : gset nat) (n : Z) (s : kst) : Prop :=
  T (ftable s) ∧ table_ok (ftable s) hl ∧ owns (files_inodes (ftable s) ++ qs) lk (fsys s) ∧ ops s = n.

Lemma res_perm T hl hl' qs qs' lk n s : hl ≡ₚ hl' → qs ≡ₚ qs' → res T hl qs lk n s → res T hl' qs' lk n s.
Proof. intros Hh Hq (H1 & H2 & H3 & H4). split_and!; [done|by rewrite <-Hh|by rewrite <-Hq|done]. Qed.

Section kernel.
Context (T : list file → Prop).
Implicit Types (hl qs : list nat) (lk : gset nat) (n : Z).

Lemma res_fs {A} hl qs lk n (m : M fs A) (qs' : A → list nat) (lk' : A → gset nat) :
  (∀ pre, tr (owns (pre ++ qs) lk) m (λ a, owns (pre ++ qs' a) (lk' a))) →
  tr (res T hl qs lk n) (on_fs m) (λ a, res T hl (qs' a) (lk' a) n).
Proof.
  intros Hm s a s' (H1 & H2 & H3 & H4) E. unfold on_fs in E. inv_ret. destruct x as [b f]. simplify_eq.
  split_and!; [done|done|by eapply Hm|done].
Qed.

Lemma res_fs_pure {A} hl qs lk n (m : M fs A) (X : A → Prop) (qs' : A → list nat) (lk' : A → gset nat) :
  (∀ pre, tr (owns (pre ++ qs) lk) m (λ a s, X a ∧ owns (pre ++ qs' a) (lk' a) s)) →
  tr (res T hl qs lk n) (on_fs m) (λ a s, X a ∧ res T hl (qs' a) (lk' a) n s).
Proof.
  intros Hm s a s' (H1 & H2 & H3 & H4) E. unfold on_fs in E. inv_ret. destruct x as [b f]. simplify_eq.
  destruct (Hm _ _ _ _ H3 H) as [HX Ho]. by split_and!.
Qed.

Lemma owns_move pre i qs lk s : owns (pre ++ i :: qs) lk s ↔ owns (i :: pre ++ qs) lk s.
Proof. by rewrite Permutation_middle. Qed.

Lemma res_keeps {A} hl qs lk n (m : M fs A) : (∀ s, keepsv res_of s m) →
  tr (res T hl qs lk n) (on_fs m) (λ _, res T hl qs lk n).
Proof. intros Hm. apply (res_fs _ _ _ _ _ (λ _, qs) (λ _, lk)). intros pre. by apply tr_keeps. Qed.

Lemma res_ilock hl qs lk n i :
  tr (res T hl qs lk n) (on_fs (ilock (Some i))) (λ _ s, i ∉ lk ∧ res T hl qs ({[i]} ∪ lk) n s).
Proof. apply (res_fs_pure _ _ _ _ _ (λ _, i ∉ lk) (λ _, qs) (λ _, {[i]} ∪ lk)). intros pre. apply tr_ilock. Qed.

Lemma res_iunlock hl qs lk n i : i ∉ lk →
  tr (res T hl qs ({[i]} ∪ lk) n) (on_fs (iunlock (Some i))) (λ _, res T hl qs lk n).
Proof. intros Hn. apply (res_fs _ _ _ _ _ (λ _, qs) (λ _, lk)). intros pre. by apply tr_iunlock_held. Qed.

Lemma res_iput hl qs qs' lk n i : qs ≡ₚ i :: qs' →
  tr (res T hl qs lk n) (on_fs (iput i)) (λ _, res T hl qs' lk n).
Proof.
  intros Hq. apply (res_fs _ _ _ _ _ (λ _, qs') (λ _, lk)). intros pre.
  eapply tr_weaken; [apply (tr_iput (pre ++ qs') lk i)| |done]. intros s Hs. by rewrite <-owns_move, <-Hq.
Qed.

Lemma res_iunlockput hl qs qs' lk n i : i ∉ lk → qs ≡ₚ i :: qs' →
  tr (res T hl qs ({[i]} ∪ lk) n) (on_fs (iunlockput i)) (λ _, res T hl qs' lk n).
Proof.
  intros Hn Hq. apply (res_fs _ _ _ _ _ (λ _, qs') (λ _, lk)). intros pre.
  eapply tr_weaken; [by apply (tr_iunlockput (pre ++ qs') lk i)| |done]. intros s Hs. by rewrite <-owns_move, <-Hq.
Qed.

Lemma keeps_bump_nlink s ip d : keepsv res_of s (bump_nlink ip d).
Proof. unfold bump_nlink. by keeps. Qed.
Lemma keeps_stati s ip : keepsv res_of s (stati ip).
Proof. unfold stati. by keeps. Qed.

Lemma res_begin hl qs lk n : tr (res T hl qs lk n) begin_op (λ _, res T hl qs lk (n + 1)).
Proof. intros s a s' (H1 & H2 & H3 & <-) [= <- <-]. by split_and!. Qed.
Lemma res_end hl qs lk n : tr (res T hl qs lk (n + 1)) end_op (λ _, res T hl qs lk n).
Proof. intros s a s' (H1 & H2 & H3 & H4) [= <- <-]. split_and!; [done..|]. cbn. lia. Qed.

End kernel.

(** ** Operations on open files *)
Notation res_ := (res (λ _, True)).

Lemma res_any T hl qs lk n s : res T hl qs lk n s → res_ hl qs lk n s.
Proof. intros (_ & H). by split. Qed.

Lemma res_filedup hl qs lk n i : i ∈ hl → tr (res_ hl qs lk n) (filedup i) (λ _, res_ (i :: hl) qs lk n).
Proof.
  intros Hi s a s' (_ & H2 & H3 & H4) E. unfold filedup in E. erewrite M_bind_run in E by done.
  apply bind_lift_Ret in E as (l & El & E). erewrite M_bind_run in E by done. injection E as <- <-.
  destruct (table_dup _ _ _ _ Hi El H2) as [K1 K2]. split_and!; cbn [ftable fsys ops]; [done|done|by rewrite K2|done].
Qed.

(** The entry that was allocated, until it is set up. *)
Definition fresh (i : nat) (l : list file) : Prop := ∃ f, l !! i = Some f ∧ type_ f = FD_NONE.

Lemma res_filealloc hl qs lk n : tr (res_ hl qs lk n) filealloc
  (λ r, match r with None => res_ hl qs lk n | Some i => res (fresh i) (i :: hl) qs lk n end).
Proof.
  intros s a s' (_ & H2 & H3 & H4) E. unfold filealloc in E. erewrite M_bind_run in E by done.
  destruct (filealloc_loop (ftable s) 0) as [[i l]|] eqn:El; [|by injection E as <- <-].
  erewrite M_bind_run in E by done. injection E as <- <-. destruct (table_alloc _ _ _ _ El H2) as (K1 & K2 & K3).
  split_and!; cbn [ftable fsys ops]; [done|done|by rewrite K2|done].
Qed.

Lemma res_fileclose hl' hl qs lk n i : hl' ≡ₚ i :: hl → tr (res_ hl' qs lk n) (fileclose i) (λ _, res_ hl qs lk n).
Proof.
  intros Hp s a s' (_ & H2 & H3 & H4) E. unfold fileclose in E. erewrite M_bind_run in E by done.
  apply bind_lift_Ret in E as ([ff l] & El & E). erewrite M_bind_run in E by done.
  destruct (table_close _ _ _ _ _ _ Hp El H2) as [K1 K2]. rewrite K2 in H3. destruct ff as [f|]; cbn in H3.
  2:{ injection E as <- <-. by split_and!. }
  unfold release_object in E. unfold file_inode in H3. destruct (type_ f); cbn in H3.
  - injection E as <- <-. by split_and!.
  - apply bind_lift_Ret in E as (p & _ & E). unfold close_pipe in E. erewrite M_bind_run in E by done.
    apply M_bind_Ret in E as (x & s1 & E1 & E). unfold get_pipe in E1. inv_ret. simplify_eq.
    destruct (pipeclose x _) as [[y z] w]. injection E as <- <-. by split_and!.
  - apply bind_lift_Ret in E as (ip & Eip & E). destruct (ip_ f) as [ip'|]; [|done]. injection Eip as <-. cbn in H3.
    erewrite M_bind_run in E by done. apply M_bind_Ret in E as ([] & s1 & E1 & E).
    apply (res_iput (λ _, True) hl (ip' :: qs) qs lk (n + 1)) in E1; [|done|].
    + injection E as <- <-. destruct E1 as (_ & J2 & J3 & J4). split_and!; [done|done|done|]. cbn in *. lia.
    + split_and!; cbn [ftable fsys ops]; [done|done|by apply owns_move|by rewrite H4].
Qed.

Lemma res_close_opt hl' hl qs lk n o : hl' ≡ₚ option_list o ++ hl → tr (res_ hl' qs lk n) (close_opt o) (λ _, res_ hl qs lk n).
Proof.
  intros Hp. destruct o as [i|]; cbn in *; [by apply res_fileclose|]. apply tr_ret. intros s. by apply res_perm.
Qed.

(** Setting a fresh entry up. *)
Lemma res_setup T hl qs lk n i f' :
  i ∈ hl → type_ f' ≠ FD_NONE → ∀ s, fresh i (ftable s) → (∀ f, ftable s !! i = Some f → ref_ f' = ref_ f) →
  (∀ l, ftable s = l → T (<[i := f']> l)) →
  res_ hl (option_list (file_inode f') ++ qs) lk n s →
  res T hl qs lk n (KSt (<[i := f']> (ftable s)) (pipes s) (fsys s) (ops s)).
Proof.
  intros Hi Ht s (f & Hf & Hn) Hr HT (_ & H2 & H3 & H4). destruct (table_setup _ _ _ _ f' Hf Hn Hi (Hr f Hf) Ht H2) as [K1 K2].
  split_and!; cbn [ftable fsys ops]; [by apply HT|done| |done]. rewrite K2. rewrite <-(assoc_L (++)).
  rewrite (assoc_L (++)), (Permutation_app_comm (files_inodes _)), <-(assoc_L (++)) in H3.
  rewrite (Permutation_app_comm _ qs). rewrite (Permutation_app_comm (files_inodes _) qs) in H3.
  by rewrite (assoc_L (++)), (Permutation_app_comm _ (files_inodes _)) in H3 |- *.
Qed.

(** A second entry is another one. *)
Lemma res_filealloc2 hl qs lk n i : tr (res (fresh i) (i :: hl) qs lk n) filealloc
  (λ r, match r with
        | None => res_ (i :: hl) qs lk n
        | Some j => res (λ l, fresh i l ∧ fresh j l ∧ j ≠ i) (j :: i :: hl) qs lk n
        end).
Proof.
  intros s r s' H E. pose proof (res_filealloc _ _ _ _ _ _ _ (res_any _ _ _ _ _ _ H) E) as K.
  unfold filealloc in E. erewrite M_bind_run in E by done.
  destruct (filealloc_loop (ftable s) 0) as [[j l]|] eqn:El; [|injection E as <- <-; by eapply res_any].
  erewrite M_bind_run in E by done. injection E as <- <-. destruct K as (K1 & K2). split; [|done].
  destruct H as ((f & Hf & Hn) & (ac & rl & Hinv) & _).
  apply filealloc_loop_spec in El as (j' & g & -> & Hg & Hr & ->). cbn [Nat.add].
  assert (j' ≠ i) as Hne.
  { intros ->. pose proof (fi_count _ Hinv _ _ Hg) as Hc. cbn [File.hs] in Hc. rewrite handles_cons, decide_True in Hc by done. lia. }
  split_and!; [|done|done]. exists f. cbn [ftable]. by rewrite list_lookup_insert_ne.
Qed.

Lemma res_pipes T hl qs lk n (f : kst → gmap nat pipe) :
  tr (res T hl qs lk n) (s ← get_st; set_pipes (f s)) (λ _, res T hl qs lk n).
Proof. intros s a s' H [= <- <-]. exact H. Qed.

Lemma res_set_file T hl qs qs' lk n i k :
  i ∈ hl → (∀ r x, type_ (k r x) ≠ FD_NONE ∧ ref_ (k r x) = r ∧ qs ≡ₚ option_list (file_inode (k r x)) ++ qs') →
  (∀ l f, T l → T (<[i := f]> l)) →
  tr (res (λ l, fresh i l ∧ T l) hl qs lk n) (x ← get_file i; set_file i (k (ref_ x) x)) (λ _, res T hl qs' lk n).
Proof.
  intros Hi Hk HT s a s' ((Hf & HTs) & H) E. apply M_bind_Ret in E as (x & s1 & E1 & E). unfold get_file in E1.
  inv_ret. simplify_eq. injection E as <- <-. destruct (Hk (ref_ x) x) as (K1 & K2 & K3).
  apply res_setup; [done|done|done|by intros f Hfx; simplify_eq|by intros l <-; apply HT|].
  destruct H as (H2 & H3 & H4). split_and!; [done|done| |done]. by rewrite <-K3.
Qed.

Lemma res_pipealloc hl qs lk n page : tr (res_ hl qs lk n) (pipealloc page)
  (λ r, match r with None => res_ hl qs lk n | Some (i, j) => res_ (i :: j :: hl) qs lk n end).
Proof.
  unfold pipealloc. eapply tr_bind; [apply res_filealloc|]. intros [i|]; [|by apply tr_ret].
  eapply tr_bind; [apply res_filealloc2|].
  assert (∀ j, tr (res_ (option_list j ++ i :: hl) qs lk n) (fileclose i ;; close_opt j ;; mret None)
    (λ r : option (nat * nat), match r with None => res_ hl qs lk n | Some (i, j) => res_ (i :: j :: hl) qs lk n end)) as Hbad.
  { intros j. eapply tr_bind; [apply (res_fileclose _ (option_list j ++ hl)); by rewrite Permutation_middle|].
    intros ?. eapply tr_bind; [by apply res_close_opt|]. intros ?. by apply tr_ret. }
  intros [j|]; [destruct page as [[p d]|]|].
  - apply tr_assoc. eapply tr_bind; [apply (res_pipes _ _ _ _ _ (λ s, <[p := pipe_init d]> (pipes s)))|]. intros ?.
    apply tr_assoc. eapply tr_bind.
    { eapply tr_weaken; [apply (res_set_file (λ l, fresh j l ∧ j ≠ i) (j :: i :: hl) qs qs lk n i
        (λ r x, File FD_PIPE r 1 0 (Some p) (ip_ x) (off_ x)))|intros s ((Hi & Hj) & H); by split|done]; [set_solver|done|].
      intros l f [(g & Hg & Hn) Hne]. split; [|done]. exists g. by rewrite list_lookup_insert_ne. }
    intros ?. apply tr_assoc. eapply tr_bind.
    { eapply tr_weaken; [apply (res_set_file (λ _, True) (j :: i :: hl) qs qs lk n j
        (λ r x, File FD_PIPE r 0 1 (Some p) (ip_ x) (off_ x)))|intros s ((Hi & _) & H); by split|done]; [set_solver|done|done]. }
    intros ?. apply tr_ret. intros s. apply res_perm; [apply perm_swap|done].
  - eapply tr_weaken; [apply (Hbad (Some j))|intros s; apply res_any|done].
  - apply (Hbad None).
Qed.

Lemma res_get_file hl qs lk n i : tr (res_ hl qs lk n) (get_file i) (λ f, res (λ l, l !! i = Some f) hl qs lk n).
Proof.
  intros s f s' (_ & H) E. unfold get_file in E. inv_ret. simplify_eq. by split.
Qed.

Lemma res_seek hl qs lk n i f o : i ∈ hl →
  tr (res (λ l, l !! i = Some f) hl qs lk n) (set_file i (set_off f o)) (λ _, res_ hl qs lk n).
Proof.
  intros Hi s a s' (Hf & H2 & H3 & H4) [= <- <-]. destruct (table_seek _ _ _ _ o Hi Hf H2) as [K1 K2].
  split_and!; cbn [ftable fsys ops]; [done|done|by rewrite K2|done].
Qed.

Lemma tr_on_fs_panic {A B} P msg (k : A → M kst B) R : tr P (on_fs (panic msg) ≫= k) R.
Proof. by intros s a s' _ [=]. Qed.

Lemma tr_any {A} T hl qs lk n (m : M kst A) Q : tr (res_ hl qs lk n) m Q → tr (res T hl qs lk n) m Q.
Proof. intros H. eapply tr_weaken; [done|intros s; apply res_any|done]. Qed.

Lemma tr_bind_lift {S A B} P (o : outcome A) (k : A → M S B) R :
  (∀ a, o = Ret a → tr P (k a) R) → tr P (lift o ≫= k) R.
Proof. intros H s b s' Hs (a & Ea & E)%bind_lift_Ret. by eapply H. Qed.

Section rw.
Context (dev_read : Z → option (nat → Z → M fs (Z * list Z))).
Context (dev_write : Z → option (nat → list Z → M fs Z)).
Context (Hread : ∀ m f ip n s, dev_read m = Some f → keepsv res_of s (f ip n)).
Context (Hwrite : ∀ m f ip src s, dev_write m = Some f → keepsv res_of s (f ip src)).
Context (hl qs : list nat) (n : Z).

Lemma res_filestat i : tr (res_ hl qs ∅ n) (filestat i) (λ _, res_ hl qs ∅ n).
Proof.
  unfold filestat. eapply tr_bind; [apply res_get_file|]. intros f. destruct (type_ f); [apply tr_any; by apply tr_ret..|].
  destruct (ip_ f) as [ip|]; [|apply tr_on_fs_panic].
  eapply tr_bind; [apply res_ilock|]. intros ?. apply tr_pure. intros Hn. apply tr_bind_lift. intros ? [= <-].
  eapply tr_bind; [apply res_keeps; intros s; apply keeps_stati|]. intros st. eapply tr_bind; [by apply res_iunlock|]. intros ?.
  apply tr_any. by apply tr_ret.
Qed.

Lemma res_fileread i killed k : i ∈ hl → tr (res_ hl qs ∅ n) (fileread dev_read i killed k) (λ _, res_ hl qs ∅ n).
Proof using Hread.
  intros Hi. unfold fileread. eapply tr_bind; [apply res_get_file|]. intros f.
  destruct (readable f =? 0); [apply tr_any; by apply tr_ret|].
  destruct (type_ f); [apply tr_panic| |].
  - apply tr_any. apply tr_bind_lift. intros p _. eapply (tr_bind _ _ (λ _, res_ hl qs ∅ n)).
    { intros s x s' H E. unfold get_pipe in E. inv_ret. by simplify_eq. }
    intros x. apply tr_bind_lift. intros [seg bytes] _. apply tr_assoc.
    eapply tr_bind; [apply (res_pipes _ _ _ _ _ (λ s, <[p := seg_pipe seg]> (pipes s)))|]. intros ?. by apply tr_ret.
  - apply tr_bind_lift. intros ip Eip. destruct (ip_ f) as [ip'|]; [|done]. injection Eip as <-.
    eapply tr_bind; [apply res_ilock|]. intros ?. apply tr_pure. intros Hn.
    eapply tr_bind; [apply res_keeps; intros s; by apply keeps_readi|]. intros [r bytes].
    eapply (tr_bind _ _ (λ _, res_ hl qs ({[ip']} ∪ ∅) n)).
    { destruct (0 <? r); [by apply res_seek|]. apply tr_any. by apply tr_ret. }
    intros ?. eapply tr_bind; [by apply res_iunlock|]. intros ?. by apply tr_ret.
Qed.

Lemma res_filewrite_loop i src m fuel : i ∈ hl → ∀ k,
  tr (res_ hl qs ∅ n) (filewrite_loop dev_write i src m k fuel) (λ _, res_ hl qs ∅ n).
Proof using Hwrite.
  intros Hi. induction fuel as [|fuel IH]; intros k; cbn [filewrite_loop]; (destruct (k <? m); [|by apply tr_ret]).
  { by intros s a s' _ [=]. }
  eapply tr_bind; [apply res_get_file|]. intros f. cbv zeta. apply tr_bind_lift. intros ip Eip.
  destruct (ip_ f) as [ip'|]; [|done]. injection Eip as <-.
  eapply tr_bind; [apply res_begin|]. intros ?.
  eapply tr_bind; [apply res_ilock|]. intros ?. apply tr_pure. intros Hn.
  eapply tr_bind; [apply res_keeps; intros s; by apply keeps_writei|]. intros r.
  eapply (tr_bind _ _ (λ _, res_ hl qs ({[ip']} ∪ ∅) (n + 1))).
  { destruct (0 <? r); [by apply res_seek|]. apply tr_any. by apply tr_ret. }
  intros ?. eapply tr_bind; [by apply res_iunlock|]. intros ?. eapply tr_bind; [apply res_end|]. intros ?.
  destruct (r <? 0); [by apply tr_ret|]. case_if; [apply tr_panic|apply IH].
Qed.

Lemma res_filewrite i killed src k : i ∈ hl → tr (res_ hl qs ∅ n) (filewrite dev_write i killed src k) (λ _, res_ hl qs ∅ n).
Proof using Hwrite.
  intros Hi. unfold filewrite. eapply tr_bind; [apply res_get_file|]. intros f.
  destruct (writable f =? 0); [apply tr_any; by apply tr_ret|].
  destruct (type_ f); [apply tr_panic| |]; apply tr_any.
  - apply tr_bind_lift. intros p _. eapply (tr_bind _ _ (λ _, res_ hl qs ∅ n)).
    { intros s x s' H E. unfold get_pipe in E. inv_ret. by simplify_eq. }
    intros x. apply tr_bind_lift. intros seg _. apply tr_assoc.
    eapply tr_bind; [apply (res_pipes _ _ _ _ _ (λ s, <[p := seg_pipe seg]> (pipes s)))|]. intros ?. by apply tr_ret.
  - eapply tr_bind; [by apply res_filewrite_loop|]. intros ?. by apply tr_ret.
Qed.
End rw.

(** ** Names *)
Section names.
Context (dev_read : Z → option (nat → Z → M fs (Z * list Z))).
Context (dev_write : Z → option (nat → list Z → M fs Z)).
Context (Hread : ∀ m f ip n s, dev_read m = Some f → keepsv res_of s (f ip n)).
Context (Hwrite : ∀ m f ip src s, dev_write m = Some f → keepsv res_of s (f ip src)).

(** [create] gives a locked inode, or none. *)
Lemma tr_create ps lk c path ty ma mi : c ∈ ps → tr (owns ps lk) (create dev_read dev_write c path ty ma mi)
  (λ r s, match r with None => owns ps lk s | Some ip => ip ∉ lk ∧ owns (ip :: ps) ({[ip]} ∪ lk) s end).
Proof using Hread Hwrite.
  intros Hc. unfold create. eapply tr_bind; [by apply tr_namex|]. intros [[dp name]|]; [|by apply tr_ret].
  eapply tr_bind; [apply tr_ilock|]. intros ?. apply tr_pure. intros Hdp.
  eapply tr_bind; [by apply tr_dirlookup|]. intros [[ip off]|].
  - eapply tr_bind; [eapply tr_weaken; [by apply (tr_iunlockput (ip :: ps))|intros s Hs; by rewrite Permutation_swap|done]|].
    intros ?. eapply tr_bind; [apply tr_ilock|]. intros ?. apply tr_pure. intros Hip.
    apply tr_step; [intros s; by keeps|]. intros x. case_if; [by apply tr_ret|].
    eapply tr_bind; [by apply tr_iunlockput|]. intros ?. by apply tr_ret.
  - apply tr_step; [intros s; by keeps|]. intros d. eapply tr_bind; [apply tr_ialloc|]. intros ip.
    eapply tr_bind; [apply tr_ilock|]. intros ?. apply tr_pure. intros Hip.
    apply tr_assoc, tr_step; [intros s; by keeps|]. intros ?. apply tr_step; [intros s; by keeps|]. intros ?.
    eapply (tr_bind _ _ (λ _, owns (ip :: dp :: ps) ({[ip]} ∪ ({[dp]} ∪ lk)))).
    { case_if; [|by apply tr_ret]. apply tr_step; [intros s; apply keeps_bump_nlink|]. intros ?.
      apply tr_step; [intros s; by keeps|]. intros x. eapply tr_bind; [by apply tr_dirlink|]. intros r.
      case_if; [apply tr_panic|]. apply tr_step; [intros s; by keeps|]. intros y.
      eapply tr_bind; [by apply tr_dirlink|]. intros r'. case_if; [apply tr_panic|by apply tr_ret]. }
    intros ?. apply tr_step; [intros s; by keeps|]. intros x. eapply tr_bind; [by apply tr_dirlink|]. intros r.
    case_if; [apply tr_panic|]. assert (dp ∉ ({[ip]} ∪ lk : gset nat)) as Hd by set_solver.
    eapply tr_bind; [eapply tr_weaken; [by apply (tr_iunlockput (ip :: ps))| |done]|].
    + intros s Hs. rewrite Permutation_swap. by replace ({[dp]} ∪ ({[ip]} ∪ lk)) with ({[ip]} ∪ ({[dp]} ∪ lk)) by set_solver.
    + intros ?. apply tr_ret. intros s Hs. split; [set_solver|done].
Qed.

Context (T : list file → Prop) (hl qs : list nat) (lk : gset nat) (n : Z).
Notation rs := (λ o, res T hl (option_list o ++ qs) lk n).

Lemma res_namei c path : c ∈ qs → tr (res T hl qs lk n) (on_fs (namei dev_read c path)) rs.
Proof using Hread.
  intros Hc. apply (res_fs _ _ _ _ _ _ (λ o, option_list o ++ qs) (λ _, lk)). intros pre.
  eapply tr_weaken; [apply (tr_namei _ Hread (pre ++ qs)); apply elem_of_app; by right|done|]. intros [i|] s Hs; [by apply owns_move|done].
Qed.

Lemma res_nameiparent c path : c ∈ qs →
  tr (res T hl qs lk n) (on_fs (nameiparent dev_read c path)) (λ r, rs (fst <$> r)).
Proof using Hread.
  intros Hc. apply (res_fs _ _ _ _ _ _ (λ r : option (nat * list Z), option_list (fst <$> r) ++ qs) (λ _, lk)). intros pre.
  eapply tr_weaken; [apply (tr_namex _ Hread (pre ++ qs)); apply elem_of_app; by right|done|].
  intros [[i nm]|] s Hs; [by apply owns_move|done].
Qed.

Lemma res_dirlookup dp name : tr (res T hl qs lk n) (on_fs (dirlookup dev_read dp name)) (λ r, rs (fst <$> r)).
Proof using Hread.
  apply (res_fs _ _ _ _ _ _ (λ r : option (nat * Z), option_list (fst <$> r) ++ qs) (λ _, lk)). intros pre.
  eapply tr_weaken; [apply (tr_dirlookup _ Hread (pre ++ qs))|done|].
  intros [[i off]|] s Hs; [by apply owns_move|done].
Qed.

Lemma res_dirlink dp name i : tr (res T hl qs lk n) (on_fs (dirlink dev_read dev_write dp name i)) (λ _, res T hl qs lk n).
Proof using Hread Hwrite.
  apply (res_fs _ _ _ _ _ _ (λ _, qs) (λ _, lk)). intros pre. by apply tr_dirlink.
Qed.

Lemma res_create c path ty ma mi : c ∈ qs → lk = ∅ →
  tr (res T hl qs lk n) (on_fs (create dev_read dev_write c path ty ma mi))
    (λ r, res T hl (option_list r ++ qs) (match r with None => ∅ | Some ip => {[ip]} ∪ ∅ end) n).
Proof using Hread Hwrite.
  intros Hc ->. apply (res_fs _ _ _ _ _ _ (λ o, option_list o ++ qs) (λ r, match r with None => ∅ | Some ip => {[ip]} ∪ ∅ end)).
  intros pre. eapply tr_weaken; [apply (tr_create (pre ++ qs) ∅); apply elem_of_app; by right|done|].
  intros [ip|] s Hs; [|done]. destruct Hs as [_ Hs]. by apply owns_move.
Qed.

Lemma keeps_isdirempty s dp : keepsv res_of s (isdirempty dev_read dp).
Proof using Hread.
  unfold isdirempty. apply keeps_get_inode. intros x _. generalize (2 * DIRENT) as off.
  generalize (Z.to_nat (size x / DIRENT + 1)) as fuel. induction fuel as [|fuel IH] in s |- *; intros off; cbn [isdirempty_loop];
    (destruct (off <? size x); [|by keeps]); [by keeps|].
  apply keeps_bind; [by apply keeps_read_dirent|]. intros [i nm] s1 _. case_if; [by keeps|apply IH].
Qed.
End names.

(** ** The calls *)
Definition call_inv (oh oi : list nat) (n : Z) (s : sst) : Prop :=
  length (ofile s) = Z.to_nat NOFILE ∧ res_ (omap id (ofile s) ++ oh) (cwd s :: oi) ∅ n (ks s).

Definition at_ (P : kst → Prop) (o : list (option nat)) (c : nat) (s : sst) : Prop :=
  P (ks s) ∧ ofile s = o ∧ cwd s = c.

Lemma tr_at {A} P (m : M kst A) Q o c : tr P m Q → tr (at_ P o c) (on_k m) (λ a, at_ (Q a) o c).
Proof.
  intros Hm s a s' (H & Ho & Hc) E. unfold on_k in E. inv_ret. destruct x as [b k]. simplify_eq.
  split_and!; [by eapply Hm|done|done].
Qed.
Lemma tr_at_pure {A} (X : Prop) P (m : M sst A) Q o c : (X → tr (at_ P o c) m Q) → tr (at_ (λ s, X ∧ P s) o c) m Q.
Proof. intros H s a s' ([HX HP] & Hs) E. by eapply H. Qed.
Lemma tr_at_get {A} P (k : sst → M sst A) Q o c :
  (∀ s, cwd s = c → tr (at_ P o c) (k s) Q) → tr (at_ P o c) (get_st ≫= k) Q.
Proof. intros H s a s' Hs E. erewrite M_bind_run in E by done. eapply (H s); [by destruct Hs as (_ & _ & ?)|done|done]. Qed.
(** A step of the kernel, and a step of the file system that keeps everything. *)
Lemma tr_call {A B} P (m : M kst A) Q (k : A → M sst B) R o c :
  tr P m Q → (∀ a, tr (at_ (Q a) o c) (k a) R) → tr (at_ P o c) (on_k m ≫= k) R.
Proof. intros Hm Hk. eapply tr_bind; [by apply tr_at|done]. Qed.
Lemma tr_still {A B} T hl qs lk n (m : M fs A) (k : A → M sst B) R o c :
  (∀ s, keepsv res_of s m) → (∀ a, tr (at_ (res T hl qs lk n) o c) (k a) R) →
  tr (at_ (res T hl qs lk n) o c) (on_i m ≫= k) R.
Proof. intros Hm Hk. eapply tr_call; [by apply res_keeps|done]. Qed.

Lemma tr_argfd P a o c : tr (at_ P o c) (argfd a)
  (λ r s, match r with Some (fd, f) => ∃ k, fd = Z.of_nat k ∧ o !! k = Some (Some f) | None => True end ∧ at_ P o c s).
Proof.
  intros s r s' (H & <- & <-) E. unfold argfd in E. destruct a as [fd|]; [|by injection E as <- <-].
  destruct ((fd <? 0) || (NOFILE <=? fd)); [by injection E as <- <-|]. destruct (arr_get (ofile s) fd) as [f| | |] eqn:Ef; try done.
  injection E as <- <-. apply arr_get_Ret in Ef as [H0 Hf]. destruct f as [f|]; [|done]. split; [|done].
  exists (Z.to_nat fd). split; [lia|done].
Qed.

Lemma tr_fdalloc P f o c : tr (at_ P o c) (fdalloc f)
  (λ r s, match r with
          | None => at_ P o c s
          | Some fd => ∃ k, (fd = Z.of_nat k ∧ o !! k = Some None ∧ omap id (<[k := Some f]> o) ≡ₚ f :: omap id o) ∧
                            at_ P (<[k := Some f]> o) c s
          end).
Proof.
  intros s r s' (H & <- & <-) E. unfold fdalloc in E.
  destruct (fdalloc_loop (ofile s) f 0) as [[fd l]|] eqn:El; [|by injection E as <- <-]. injection E as <- <-.
  destruct (fdalloc_perm _ _ _ _ _ El) as (K1 & K2 & k & -> & Hk & ->). exists k. done.
Qed.

Lemma tr_at_bind {A B} P (m : M kst A) (k : A → M kst B) Q o c :
  tr P (m ≫= k) Q → tr (at_ P o c) (on_k m ≫= λ x, on_k (k x)) (λ a, at_ (Q a) o c).
Proof.
  intros H s b s' Hs E. apply (tr_at _ _ _ _ _ H s b s' Hs). revert E. unfold on_k, mbind, M_bind.
  destruct (m (ks s)) as [[a k1]| | |]; done.
Qed.
Lemma tr_ret_bind {S A B} P (a : A) (k : A → M S B) R : tr P (k a) R → tr P (mret a ≫= k) R.
Proof. intros H s b s' Hs E. by eapply H. Qed.

Lemma tr_exists {S A X} (P : X → S → Prop) (m : M S A) Q : (∀ x, tr (P x) m Q) → tr (λ s, ∃ x, P x s) m Q.
Proof. intros H s a s' [x Hs] E. by eapply H. Qed.

Lemma file_held (o : list (option nat)) k f : o !! k = Some (Some f) → f ∈ omap id o.
Proof. intros Hk. apply list_elem_of_omap. exists (Some f). split; [by eapply list_elem_of_lookup_2|done]. Qed.

Section calls.
Context (dev_read : Z → option (nat → Z → M fs (Z * list Z))).
Context (dev_write : Z → option (nat → list Z → M fs Z)).
Context (Hread : ∀ m f ip n s, dev_read m = Some f → keepsv res_of s (f ip n)).
Context (Hwrite : ∀ m f ip src s, dev_write m = Some f → keepsv res_of s (f ip src)).
Context (oh oi : list nat) (n : Z) (o : list (option nat)) (c : nat) (Ho : length o = Z.to_nat NOFILE).
Notation hl := (omap id o ++ oh).
Notation qs := (c :: oi).
Notation start := (at_ (res_ hl qs ∅ n) o c).
Notation good m := (tr start m (λ _, call_inv oh oi n)).

Lemma done_ T o' c' s : length o' = Z.to_nat NOFILE →
  at_ (res T (omap id o' ++ oh) (c' :: oi) ∅ n) o' c' s → call_inv oh oi n s.
Proof. intros Hl (H & <- & <-). split; [done|by eapply res_any]. Qed.

(** The last steps of most calls. *)
Lemma tr_fail {A} (a : A) T : tr (at_ (res T hl qs ∅ n) o c) (mret a) (λ _, call_inv oh oi n).
Proof using Ho. apply tr_ret. intros s. by apply done_. Qed.
Lemma tr_end_op {A} (a : A) T : tr (at_ (res T hl qs ∅ (n + 1)) o c) (on_k end_op ;; mret a) (λ _, call_inv oh oi n).
Proof using Ho. eapply tr_call; [apply res_end|]. intros ?. apply tr_fail. Qed.
Lemma tr_put_end {A} (a : A) T qs' i : qs' ≡ₚ i :: qs →
  tr (at_ (res T hl qs' ({[i]} ∪ ∅) (n + 1)) o c) (on_i (iunlockput i) ;; on_k end_op ;; mret a) (λ _, call_inv oh oi n).
Proof using Ho.
  intros Hq. eapply tr_call; [apply (res_iunlockput _ _ _ qs); [apply not_elem_of_empty|done]|]. intros ?. apply tr_end_op.
Qed.

Lemma good_dup a : good (sys_dup a).
Proof using Ho.
  unfold sys_dup. eapply tr_bind; [apply tr_argfd|]. intros [[fd f]|]; apply tr_pure; [|intros _; apply tr_fail].
  intros (k & _ & Hk). eapply tr_bind; [apply tr_fdalloc|]. intros [fd'|]; [|apply tr_fail].
  apply tr_exists. intros k'. apply tr_pure. intros (_ & Hk' & Hp). eapply tr_call.
  { apply res_filedup. apply elem_of_app. left. by eapply file_held. }
  intros ?. apply tr_ret. intros s (H & H1 & H2). apply (done_ (λ _, True) (<[k' := Some f]> o) c).
  { by rewrite length_insert. }
  split_and!; [|done|done]. eapply res_perm; [|done|exact H]. by rewrite Hp.
Qed.

Lemma good_close a : good (sys_close a).
Proof using Ho.
  unfold sys_close. eapply tr_bind; [apply tr_argfd|]. intros [[fd f]|]; apply tr_pure; [|intros _; apply tr_fail].
  intros (k & -> & Hk). pose proof (lookup_lt_Some _ _ _ Hk) as Hl.
  eapply (tr_bind _ _ (λ _, at_ (res_ hl qs ∅ n) (<[k := None]> o) c)).
  { intros s r s' (H & <- & <-) E. unfold set_ofile in E. rewrite arr_set_in in E by lia. cbn in E.
    injection E as <- <-. rewrite Nat2Z.id. done. }
  intros ?. eapply tr_call.
  { apply (res_fileclose _ (omap id (<[k := None]> o) ++ oh)). by rewrite (close_perm o k f Hk). }
  intros ?. apply tr_ret. intros s. apply done_. by rewrite length_insert.
Qed.

Lemma good_fstat a st : good (sys_fstat a st).
Proof using Ho.
  unfold sys_fstat. eapply tr_bind; [apply tr_argfd|]. intros [[fd f]|]; apply tr_pure; [|intros _; apply tr_fail].
  intros _. destruct st; [|apply tr_fail]. eapply tr_weaken; [apply tr_at, res_filestat|done|].
  intros ? s. by apply done_.
Qed.

Lemma good_read a m p killed : good (sys_read dev_read a m p killed).
Proof using Ho Hread.
  unfold sys_read. eapply tr_bind; [apply tr_argfd|]. intros [[fd f]|]; apply tr_pure; [|intros _; apply tr_fail].
  intros (k & _ & Hk). destruct m as [m|], p; try apply tr_fail.
  eapply tr_weaken; [apply tr_at, (res_fileread _ Hread); apply elem_of_app; left; by eapply file_held|done|].
  intros ? s. by apply done_.
Qed.

Lemma good_write a m p killed : good (sys_write dev_write a m p killed).
Proof using Ho Hwrite.
  unfold sys_write. eapply tr_bind; [apply tr_argfd|]. intros [[fd f]|]; apply tr_pure; [|intros _; apply tr_fail].
  intros (k & _ & Hk). destruct m as [m|], p; try apply tr_fail.
  eapply tr_weaken; [apply tr_at, (res_filewrite _ Hwrite); apply elem_of_app; left; by eapply file_held|done|].
  intros ? s. by apply done_.
Qed.
(** *** Links *)
Lemma good_link_bad T ip : tr (at_ (res T hl (ip :: qs) ∅ (n + 1)) o c) (link_bad ip) (λ _, call_inv oh oi n).
Proof using Ho.
  unfold link_bad. eapply tr_call; [apply res_ilock|]. intros ?. apply tr_at_pure. intros _.
  apply tr_still; [intros s; apply keeps_bump_nlink|]. intros ?. by apply tr_put_end.
Qed.

Lemma good_link old new : good (sys_link dev_read dev_write old new).
Proof using Ho Hread Hwrite.
  unfold sys_link. destruct old as [old|], new as [new|]; try apply tr_fail.
  eapply tr_call; [apply res_begin|]. intros ?. apply tr_at_get. intros s0 ->.
  eapply tr_call; [by apply (res_namei _ Hread); left|]. intros [ip|]; [|apply tr_end_op]. cbn [option_list app].
  eapply tr_call; [apply res_ilock|]. intros ?. apply tr_at_pure. intros Hip.
  apply tr_still; [intros s; by keeps|]. intros x. case_if; [by apply tr_put_end|].
  apply tr_still; [intros s; apply keeps_bump_nlink|]. intros ?.
  eapply tr_call; [by apply res_iunlock|]. intros ?.
  eapply tr_call; [by apply (res_nameiparent _ Hread); right; left|]. intros [[dp name]|]; cbn [fmap option_fmap option_map fst option_list app];
    [|apply good_link_bad].
  eapply tr_call; [apply res_ilock|]. intros ?. apply tr_at_pure. intros Hdp.
  apply tr_still; [intros s; by keeps|]. intros d. apply tr_still; [intros s; by keeps|]. intros y.
  eapply (tr_bind _ _ (λ _, at_ (res_ hl (dp :: ip :: qs) ({[dp]} ∪ ∅) (n + 1)) o c)).
  { case_if; [by apply tr_ret|]. eapply tr_call; [by apply res_dirlink|]. intros r. by apply tr_ret. }
  intros [|]; (eapply tr_call; [by apply res_iunlockput|]; intros ?).
  - apply good_link_bad.
  - eapply tr_call; [by apply res_iput|]. intros ?. apply tr_end_op.
Qed.

Lemma good_unlink_bad T dp : tr (at_ (res T hl (dp :: qs) ({[dp]} ∪ ∅) (n + 1)) o c) (unlink_bad dp) (λ _, call_inv oh oi n).
Proof using Ho. by apply tr_put_end. Qed.

Lemma good_unlink path : good (sys_unlink dev_read dev_write path).
Proof using Ho Hread Hwrite.
  unfold sys_unlink. destruct path as [path|]; [|apply tr_fail].
  eapply tr_call; [apply res_begin|]. intros ?. apply tr_at_get. intros s0 ->.
  eapply tr_call; [by apply (res_nameiparent _ Hread); left|]. intros [[dp name]|]; cbn [fmap option_fmap option_map fst option_list app];
    [|apply tr_end_op].
  eapply tr_call; [apply res_ilock|]. intros ?. apply tr_at_pure. intros Hdp. case_if; [apply good_unlink_bad|].
  eapply tr_call; [by apply (res_dirlookup _ Hread)|]. intros [[ip off]|]; cbn [fmap option_fmap option_map fst option_list app];
    [|apply good_unlink_bad].
  eapply tr_call; [apply res_ilock|]. intros ?. apply tr_at_pure. intros Hip.
  apply tr_still; [intros s; by keeps|]. intros x. case_if; [apply tr_panic|].
  set (busy_st := at_ (res_ hl (ip :: dp :: qs) ({[ip]} ∪ ({[dp]} ∪ ∅)) (n + 1)) o c).
  eapply (tr_bind _ _ (λ _, busy_st)).
  { case_if; [|by apply tr_ret]. apply tr_still; [intros s; by apply keeps_isdirempty|]. intros e. by apply tr_ret. }
  intros [|].
  { eapply tr_call; [by apply res_iunlockput|]. intros ?. apply good_unlink_bad. }
  apply tr_still; [intros s; by apply keeps_writei|]. intros w. case_if; [apply tr_panic|].
  apply tr_still; [intros s; by keeps|]. intros y. eapply (tr_bind _ _ (λ _, busy_st)).
  { case_if; [|by apply tr_ret]. apply tr_at, res_keeps. intros s. apply keeps_bump_nlink. }
  intros ?. assert (dp ≠ ip) as Hne by (intros ->; apply Hip; apply elem_of_union; left; by apply elem_of_singleton).
  eapply tr_call.
  { eapply tr_weaken; [apply (res_iunlockput (λ _, True) hl (dp :: ip :: qs) (ip :: qs) ({[ip]} ∪ ∅) (n + 1) dp)| |done].
    - intros Hi. apply elem_of_union in Hi as [->%elem_of_singleton|Hi]; [done|by apply not_elem_of_empty in Hi].
    - done.
    - intros s (H1 & H2 & H3 & H4). split_and!; [done|done| |done]. replace ({[dp]} ∪ ({[ip]} ∪ ∅)) with ({[ip]} ∪ ({[dp]} ∪ ∅) : gset nat).
      + rewrite (Permutation_swap dp ip qs) in H3. exact H3.
      + clear. set_solver. }
  intros ?. apply tr_still; [intros s; apply keeps_bump_nlink|]. intros ?. by apply tr_put_end.
Qed.

(** *** Creating and opening *)
Lemma good_finish ip : tr (at_ (res_ hl (option_list ip ++ qs) (match ip with None => ∅ | Some ip => {[ip]} ∪ ∅ end) (n + 1)) o c)
  (finish_create ip) (λ _, call_inv oh oi n).
Proof using Ho. destruct ip as [ip|]; [by apply tr_put_end|apply tr_end_op]. Qed.

Lemma good_mkdir path : good (sys_mkdir dev_read dev_write path).
Proof using Ho Hread Hwrite.
  unfold sys_mkdir. eapply tr_call; [apply res_begin|]. intros ?. apply tr_at_get. intros s0 ->.
  eapply tr_bind; [|intros ip; apply good_finish].
  destruct path as [path|]; [|by apply tr_ret]. apply tr_at. by apply (res_create _ _ Hread Hwrite); [left|].
Qed.

Lemma good_mknod path ma mi : good (sys_mknod dev_read dev_write path ma mi).
Proof using Ho Hread Hwrite.
  unfold sys_mknod. eapply tr_call; [apply res_begin|]. intros ?. apply tr_at_get. intros s0 ->.
  eapply tr_bind; [|intros ip; apply good_finish].
  destruct path as [path|], ma as [ma|], mi as [mi|]; try by apply tr_ret.
  apply tr_at. by apply (res_create _ _ Hread Hwrite); [left|].
Qed.

Lemma good_open_inode path omode :
  tr (at_ (res_ hl qs ∅ (n + 1)) o c) (open_inode dev_read dev_write path omode)
    (λ r s, match r with
            | None => at_ (res_ hl qs ∅ n) o c s
            | Some ip => at_ (res_ hl (ip :: qs) ({[ip]} ∪ ∅) (n + 1)) o c s
            end).
Proof using Hread Hwrite.
  unfold open_inode. apply tr_at_get. intros s0 ->. case_if.
  - eapply tr_call; [by apply (res_create _ _ Hread Hwrite); [left|]|]. intros [ip|]; [by apply tr_ret|].
    eapply tr_call; [apply res_end|]. intros ?. by apply tr_ret.
  - eapply tr_call; [by apply (res_namei _ Hread); left|]. intros [ip|]; cbn [option_list app].
    2:{ eapply tr_call; [apply res_end|]. intros ?. by apply tr_ret. }
    eapply tr_call; [apply res_ilock|]. intros ?. apply tr_at_pure. intros Hip.
    apply tr_still; [intros s; by keeps|]. intros x. case_if; [|by apply tr_ret].
    eapply tr_call; [by apply (res_iunlockput _ _ _ qs)|]. intros ?. eapply tr_call; [apply res_end|].
    intros ?. by apply tr_ret.
Qed.

Lemma good_open path omode : good (sys_open dev_read dev_write path omode).
Proof using Ho Hread Hwrite.
  unfold sys_open. destruct path as [path|], omode as [omode|]; try apply tr_fail.
  eapply tr_call; [apply res_begin|]. intros ?. eapply tr_bind; [apply good_open_inode|].
  intros [ip|]; [|apply tr_fail]. eapply tr_call; [apply res_filealloc|]. intros [f|].
  2:{ apply tr_ret_bind, tr_ret_bind. by apply tr_put_end. }
  eapply tr_bind; [apply tr_fdalloc|]. intros [fd|].
  2:{ eapply tr_bind; [|intros ?; by apply tr_put_end]. apply tr_at, tr_any. by apply (res_fileclose _ hl). }
  apply tr_exists. intros k. apply tr_pure. intros (_ & Hk & Hp).
  eapply tr_call; [apply res_iunlock, not_elem_of_empty|]. intros ?. eapply tr_call; [apply res_end|]. intros ?.
  set (g r (x : file) := File FD_INODE r (if Z.land omode O_WRONLY =? 0 then 1 else 0)
    (if (Z.land omode O_WRONLY =? 0) && (Z.land omode O_RDWR =? 0) then 0 else 1) (pipe_ x) (Some ip) 0).
  apply tr_assoc. eapply (tr_bind _ _ (λ _, at_ (res_ (f :: hl) qs ∅ n) (<[k := Some f]> o) c)).
  - pose proof (res_set_file (λ _, True) (f :: hl) (ip :: qs) qs ∅ n f g) as H.
    eapply tr_weaken; [refine (tr_at_bind _ _ _ _ (<[k := Some f]> o) c (H _ _ _));
      [by left|by intros r y; split_and!|done]|intros s Hs|intros ? s Hs; exact Hs].
    destruct Hs as ((H1 & H2) & H3). split; [split; [by split|exact H2]|exact H3].
  - intros ?. apply tr_ret. intros s (H & H1 & H2). apply (done_ (λ _, True) (<[k := Some f]> o) c).
    { by rewrite length_insert. }
    split_and!; [|done|done]. eapply res_perm; [|done|exact H]. by rewrite Hp.
Qed.

Lemma good_chdir path : good (sys_chdir dev_read path).
Proof using Ho Hread.
  unfold sys_chdir. eapply tr_call; [apply res_begin|]. intros ?. apply tr_at_get. intros s0 Es. 
  eapply (tr_bind _ _ (λ r, at_ (res_ hl (option_list r ++ qs) ∅ (n + 1)) o c)).
  { destruct path as [path|]; [|by apply tr_ret]. rewrite Es. apply tr_at. by apply (res_namei _ Hread); left. }
  intros [ip|]; [|apply tr_end_op]. cbn [option_list app].
  eapply tr_call; [apply res_ilock|]. intros ?. apply tr_at_pure. intros Hip.
  apply tr_still; [intros s; by keeps|]. intros x. case_if; [by apply tr_put_end|].
  eapply tr_call; [apply res_iunlock, not_elem_of_empty|]. intros ?. rewrite Es.
  eapply tr_call; [apply (res_iput _ _ _ (ip :: oi)), Permutation_swap|]. intros ?.
  eapply tr_call; [apply res_end|]. intros ?.
  eapply (tr_bind _ _ (λ _, at_ (res_ hl (ip :: oi) ∅ n) o ip)).
  { intros s r s' (H & <- & _) [= <- <-]. by split. }
  intros ?. apply tr_ret. intros s. by apply done_.
Qed.

Lemma good_pipe fd page : good (sys_pipe fd page).
Proof using Ho.
  unfold sys_pipe. destruct fd as [fd|]; [|apply tr_fail]. eapply tr_call; [apply res_pipealloc|].
  intros [[rf wf]|]; [|apply tr_fail]. eapply tr_bind; [apply tr_fdalloc|]. intros [fd0|].
  2:{ apply tr_ret_bind, tr_ret_bind. eapply tr_call; [by apply (res_fileclose _ (wf :: hl))|]. intros ?.
      eapply tr_call; [by apply (res_fileclose _ hl)|]. intros ?. apply tr_fail. }
  apply tr_exists. intros k0. apply tr_pure. intros (-> & Hk0 & Hp0). pose proof (lookup_lt_Some _ _ _ Hk0) as Hl0.
  eapply tr_bind; [apply tr_fdalloc|]. intros [fd1|].
  - apply tr_exists. intros k1. apply tr_pure. intros (-> & Hk1 & Hp1). apply tr_ret. intros s (H & H1 & H2).
    apply (done_ (λ _, True) (<[k1 := Some wf]> (<[k0 := Some rf]> o)) c); [by rewrite !length_insert|].
    split_and!; [|done|done]. eapply res_perm; [|done|exact H]. rewrite Hp1, Hp0. apply perm_swap.
  - eapply (tr_bind _ _ (λ _, at_ (res_ (rf :: wf :: hl) qs ∅ n) o c)).
    { intros s r s' (H & E1 & <-) E. unfold set_ofile in E. rewrite E1, arr_set_in in E by (rewrite length_insert; lia).
      cbn in E. injection E as <- <-. rewrite Nat2Z.id, list_insert_insert_eq. split_and!; [done| |done].
      by apply list_insert_id. }
    intros ?. eapply tr_call; [by apply (res_fileclose _ (wf :: hl))|]. intros ?.
    eapply tr_call; [by apply (res_fileclose _ hl)|]. intros ?. apply tr_fail.
Qed.
End calls.
