(* ===== verification/SysfileEnds.v ===== *)
(** * The file system calls end

    [NoFuel] is the result of a loop that used up its bound.  No operation of
    [Fs], [File] and [Sysfile] has it, in any state: every round of each of
    their loops makes progress against the bound its caller passes. *)

From stdpp Require Import base numbers list gmap sets strings.
From S2P Require Import Prelude Spinlock Pipe Fs FsPath File Sysfile.

Open Scope Z_scope.

Definition ends {A} (o : outcome A) : Prop := o ≠ NoFuel.
Definition nf {S A} (m : M S A) : Prop := ∀ s, ends (m s).

Lemma ends_bind {A B} (o : outcome A) (f : A → outcome B) : ends o → (∀ a, ends (f a)) → ends (o ≫= f).
Proof. intros Ho Hf. destruct o; by try apply Hf. Qed.
Lemma ends_Ret {A} (a : A) : ends (Ret a).
Proof. done. Qed.
Lemma ends_Undef {A} : ends (A:=A) Undef.
Proof. done. Qed.
Lemma ends_Panic {A} msg : ends (A:=A) (Panic msg).
Proof. done. Qed.
Lemma ends_opt {A} (o : option A) : ends (opt o).
Proof. by destruct o. Qed.
Lemma ends_arr_get {A} (l : list A) i : ends (arr_get l i).
Proof. unfold arr_get. case_if; [done|apply ends_opt]. Qed.
Lemma ends_arr_set {A} (l : list A) i x : ends (arr_set l i x).
Proof. unfold arr_set. by case_if. Qed.
Create HintDb nf.
#[export] Hint Resolve ends_Ret ends_Undef ends_Panic ends_opt ends_arr_get ends_arr_set : nf.

Lemma nf_bind {S A B} (m : M S A) (k : A → M S B) : nf m → (∀ a, nf (k a)) → nf (m ≫= k).
Proof. intros Hm Hk s. unfold mbind, M_bind. apply ends_bind; [apply Hm|]. intros [a s1]. apply Hk. Qed.
(** Using what a result says. *)
Lemma nf_bind_run {S A B} (m : M S A) (k : A → M S B) :
  nf m → (∀ s a s', m s = Ret (a, s') → ends (k a s')) → nf (m ≫= k).
Proof.
  intros Hm Hk s. unfold mbind, M_bind. specialize (Hm s). specialize (Hk s). destruct (m s) as [[a s1]| | |]; [|done..].
  by apply Hk.
Qed.
Lemma nf_ret {S A} (a : A) : nf (S:=S) (mret a).
Proof. done. Qed.
Lemma nf_panic {S A} msg : nf (S:=S) (A:=A) (panic msg).
Proof. done. Qed.
Lemma nf_lift {S A} (o : outcome A) : ends o → nf (S:=S) (lift o).
Proof. intros H s. unfold lift. by apply ends_bind. Qed.
Lemma nf_get_st {S} : nf (S:=S) get_st.
Proof. done. Qed.
Lemma nf_for_loop {S} (body : Z → M S unit) : (∀ i, nf (body i)) → ∀ n from, nf (for_loop from n body).
Proof. intros H. induction n as [|n IH]; intros from; cbn [for_loop]; [done|]. by apply nf_bind. Qed.
Lemma nf_get_inode ip : nf (get_inode ip).
Proof. intros s. apply ends_bind; auto with nf. Qed.
Lemma nf_set_inode ip x : nf (set_inode ip x).
Proof. done. Qed.
Lemma nf_bread b : nf (bread b).
Proof. intros s. apply ends_bind; auto with nf. Qed.
Lemma nf_log_write b d : nf (log_write b d).
Proof. intros s. apply ends_bind; auto with nf. Qed.
#[export] Hint Resolve nf_ret nf_panic nf_lift nf_get_st nf_get_inode nf_set_inode nf_bread nf_log_write : nf.

Ltac nf :=
  repeat first
    [ by auto with nf
    | match goal with
      | |- ends (_ ≫= _) => apply ends_bind; [|intros ?]
      | |- nf (_ ≫= _) => apply nf_bind; [|intros ?]
      | |- nf (lift _) => apply nf_lift
      | |- nf (let _ := _ in _) => cbv zeta
      | |- nf (match ?o with _ => _ end) => destruct o
      | |- ends (match ?o with _ => _ end) => destruct o
      end ].

(** ** [Fs] *)
Lemma ends_get16 d o : ends (get16 d o).
Proof. unfold get16. nf. Qed.
Lemma ends_put16 d o v : ends (put16 d o v).
Proof. unfold put16. nf. Qed.
#[export] Hint Resolve ends_get16 ends_put16 : nf.
Lemma ends_get32 d o : ends (get32 d o).
Proof. unfold get32. nf. Qed.
Lemma ends_put32 d o v : ends (put32 d o v).
Proof. unfold put32. nf. Qed.
#[export] Hint Resolve ends_get32 ends_put32 : nf.
Lemma ends_get32s d cnt : ∀ o, ends (get32s d o cnt).
Proof. induction cnt as [|cnt IH]; intros o; cbn [get32s]; nf. Qed.
Lemma ends_put32s ws : ∀ d o, ends (put32s d o ws).
Proof. induction ws as [|w ws IH]; intros d o; cbn [put32s]; nf. Qed.
Lemma ends_get_bytes d o n : ends (get_bytes d o n).
Proof. unfold get_bytes. nf. Qed.
Lemma ends_put_bytes d o src : ends (put_bytes d o src).
Proof. unfold put_bytes. nf. Qed.
Lemma ends_find_bit d b sz cnt : ∀ bi, ends (find_bit d b bi sz cnt).
Proof. induction cnt as [|cnt IH]; intros bi; cbn [find_bit]; nf. Qed.
#[export] Hint Resolve ends_get32s ends_put32s ends_get_bytes ends_put_bytes ends_find_bit : nf.

Lemma nf_load_sb : nf load_sb.
Proof. unfold load_sb, readsb. nf. Qed.
Lemma nf_bzero b : nf (bzero b).
Proof. unfold bzero. nf. Qed.
#[export] Hint Resolve nf_load_sb nf_bzero : nf.
Lemma nf_balloc : nf balloc.
Proof.
  unfold balloc. assert (∀ n b, nf (balloc_loop b n)) as H; [|nf].
  induction n as [|n IH]; intros b; cbn [balloc_loop]; nf.
Qed.
Lemma nf_bfree b : nf (bfree b).
Proof. unfold bfree. nf. Qed.
Lemma nf_iupdate ip : nf (iupdate ip).
Proof. unfold iupdate. nf. Qed.
#[export] Hint Resolve nf_balloc nf_bfree nf_iupdate : nf.
Lemma nf_iget d n : nf (iget d n).
Proof. unfold iget. nf. Qed.
#[export] Hint Resolve nf_iget : nf.
Lemma nf_ialloc d t : nf (ialloc d t).
Proof.
  unfold ialloc. assert (∀ cnt n, nf (ialloc_loop d t n cnt)) as H; [|nf].
  induction cnt as [|cnt IH]; intros n; cbn [ialloc_loop]; nf.
Qed.
Lemma nf_idup ip : nf (idup ip).
Proof. unfold idup. nf. Qed.
Lemma nf_acquire ip : nf (acquire_inode ip).
Proof. unfold acquire_inode. nf. Qed.
Lemma nf_release ip : nf (release_inode ip).
Proof. unfold release_inode. nf. Qed.
#[export] Hint Resolve nf_ialloc nf_idup nf_acquire nf_release : nf.
Lemma nf_ilock ip : nf (ilock ip).
Proof. unfold ilock. nf. Qed.
Lemma nf_iunlock ip : nf (iunlock ip).
Proof. unfold iunlock. nf. Qed.
Lemma nf_bmap ip bn : nf (bmap ip bn).
Proof. unfold bmap. nf. Qed.
Lemma nf_itrunc ip : nf (itrunc ip).
Proof.
  unfold itrunc. assert (∀ i, nf (free_direct ip i)) as H1 by (intros i; unfold free_direct; nf).
  assert (∀ ind j, nf (free_indirect ind j)) as H2 by (intros ind j; unfold free_indirect; nf).
  pose proof (nf_for_loop _ H1). pose proof (λ ind, nf_for_loop _ (H2 ind)). nf.
Qed.
#[export] Hint Resolve nf_ilock nf_iunlock nf_bmap nf_itrunc : nf.
Lemma nf_iput ip : nf (iput ip).
Proof. unfold iput. nf. Qed.
#[export] Hint Resolve nf_iput : nf.
Lemma nf_iunlockput ip : nf (iunlockput ip).
Proof. unfold iunlockput. nf. Qed.
Lemma nf_stati ip : nf (stati ip).
Proof. unfold stati. nf. Qed.
#[export] Hint Resolve nf_iunlockput nf_stati : nf.

Section drivers.
Context (dev_read : Z → option (nat → Z → M fs (Z * list Z))).
Context (dev_write : Z → option (nat → list Z → M fs Z)).
(** A driver gives an answer (a sleeping reader is woken at last). *)
Context (Hread : ∀ m f ip n, dev_read m = Some f → nf (f ip n)).
Context (Hwrite : ∀ m f ip src, dev_write m = Some f → nf (f ip src)).

Lemma chunk_progress n tot off : tot < n → 1 ≤ Z.min (n - tot) (BSIZE - off mod BSIZE) ≤ n - tot.
Proof. intros H. unfold BSIZE. Z.div_mod_to_equations. lia. Qed.

Lemma nf_readi_loop ip fuel : ∀ off n tot, n - tot ≤ Z.of_nat fuel → nf (readi_loop ip off n tot fuel).
Proof.
  induction fuel as [|fuel IH]; intros off n tot Hf; cbn [readi_loop]; case_if; try (by nf); [lia|].
  pose proof (chunk_progress n tot off Heqb). nf. apply IH. lia.
Qed.
Lemma nf_readi ip off n : nf (readi dev_read ip off n).
Proof using Hread.
  unfold readi. apply nf_bind; [by auto with nf|]. intros x. case_if.
  - case_if; [by nf|]. destruct (dev_read (major x)) as [f|] eqn:E; [by eapply Hread|by nf].
  - case_if; [by nf|]. cbv zeta. apply nf_bind; [apply nf_readi_loop; lia|]. intros b. by nf.
Qed.
Lemma nf_writei_loop ip fuel : ∀ src off n tot, n - tot ≤ Z.of_nat fuel → nf (writei_loop ip src off n tot fuel).
Proof.
  induction fuel as [|fuel IH]; intros src off n tot Hf; cbn [writei_loop]; case_if; try (by nf); [lia|].
  pose proof (chunk_progress n tot off Heqb). nf. apply IH. lia.
Qed.
Lemma nf_writei ip src off n : nf (writei dev_write ip src off n).
Proof using Hwrite.
  unfold writei. apply nf_bind; [by auto with nf|]. intros x. case_if.
  - case_if; [by nf|]. destruct (dev_write (major x)) as [f|] eqn:E; [by eapply Hwrite|by nf].
  - case_if; [by nf|]. case_if; [by nf|]. apply nf_bind; [apply nf_writei_loop; lia|]. intros b. nf.
Qed.
Hint Resolve nf_readi nf_writei : nf.

(** ** Directories and paths *)
Lemma nf_read_dirent dp off what : nf (read_dirent dev_read dp off what).
Proof using Hread. unfold read_dirent. nf. Qed.
Hint Resolve nf_read_dirent : nf.

Lemma rounds sz off (fuel : nat) : off < sz → sz - off ≤ DIRENT * Z.of_nat (S fuel) → sz - (off + DIRENT) ≤ DIRENT * Z.of_nat fuel.
Proof. unfold DIRENT. lia. Qed.
Lemma rounds_start sz off : 0 ≤ off → sz - off ≤ DIRENT * Z.of_nat (Z.to_nat (sz / DIRENT + 1)).
Proof. unfold DIRENT. intros H. Z.div_mod_to_equations. lia. Qed.

Lemma nf_dirlookup_loop dp name sz fuel : ∀ off, sz - off ≤ DIRENT * Z.of_nat fuel →
  nf (dirlookup_loop dev_read dp name sz off fuel).
Proof using Hread.
  induction fuel as [|fuel IH]; intros off Hf; cbn [dirlookup_loop]; case_if; try (by nf); [unfold DIRENT in *; lia|].
  pose proof (rounds _ _ _ Heqb Hf). nf; by apply IH.
Qed.
Lemma nf_free_dirent dp sz fuel : ∀ off, sz - off ≤ DIRENT * Z.of_nat fuel → nf (free_dirent dev_read dp sz off fuel).
Proof using Hread.
  induction fuel as [|fuel IH]; intros off Hf; cbn [free_dirent]; case_if; try (by nf); [unfold DIRENT in *; lia|].
  pose proof (rounds _ _ _ Heqb Hf). nf; by apply IH.
Qed.
Lemma nf_isdirempty dp : nf (isdirempty dev_read dp).
Proof using Hread.
  unfold isdirempty. apply nf_bind; [by auto with nf|]. intros x.
  assert (∀ fuel off, size x - off ≤ DIRENT * Z.of_nat fuel → nf (isdirempty_loop dev_read dp (size x) off fuel)) as H.
  { induction fuel as [|fuel IH]; intros off Hf; cbn [isdirempty_loop]; case_if; try (by nf); [unfold DIRENT in *; lia|].
    pose proof (rounds _ _ _ Heqb Hf). nf; by apply IH. }
  apply H, rounds_start. done.
Qed.
Lemma nf_dirlookup dp name : nf (dirlookup dev_read dp name).
Proof using Hread.
  unfold dirlookup. apply nf_bind; [by auto with nf|]. intros x. case_if; [by nf|].
  apply nf_bind; [by apply nf_dirlookup_loop, rounds_start|]. intros r. nf.
Qed.
Hint Resolve nf_isdirempty nf_dirlookup : nf.
Lemma nf_dirlink dp name i : nf (dirlink dev_read dev_write dp name i).
Proof using Hread Hwrite.
  unfold dirlink. apply nf_bind; [by auto with nf|]. intros [[ip off]|]; [by nf|].
  apply nf_bind; [by auto with nf|]. intros x. apply nf_bind; [by apply nf_free_dirent, rounds_start|]. intros off. nf.
Qed.

Lemma nf_namex_loop parent fuel : ∀ ip path name, (length path ≤ fuel)%nat → nf (namex_loop dev_read parent ip path name fuel).
Proof using Hread.
  induction fuel as [|fuel IH]; intros ip path name Hf; cbn [namex_loop]; pose proof (skipelem_spec path) as Hs;
    destruct (skipelem path) as [[rest nm]|]; try (by nf).
  - destruct Hs as (e & _ & _ & _ & _ & _ & _ & Hl). lia.
  - destruct Hs as (e & _ & _ & _ & _ & _ & _ & Hl). nf. apply IH. lia.
Qed.
Lemma nf_namex cwd path parent : nf (namex dev_read cwd path parent).
Proof using Hread. unfold namex. apply nf_bind; [by nf|]. intros ip. by apply nf_namex_loop. Qed.
Lemma nf_namei cwd path : nf (namei dev_read cwd path).
Proof using Hread. unfold namei. apply nf_bind; [apply nf_namex|]. intros r. by nf. Qed.
Lemma nf_nameiparent cwd path : nf (nameiparent dev_read cwd path).
Proof using Hread. apply nf_namex. Qed.
Hint Resolve nf_dirlink nf_namei nf_nameiparent : nf.

Lemma nf_bump_nlink ip d : nf (bump_nlink ip d).
Proof. unfold bump_nlink. nf. Qed.
Hint Resolve nf_bump_nlink : nf.
Lemma nf_create cwd path ty ma mi : nf (create dev_read dev_write cwd path ty ma mi).
Proof using Hread Hwrite. unfold create. nf. Qed.
Hint Resolve nf_create : nf.

(** ** [File] *)
Lemma nf_on_fs {A} (m : M fs A) : nf m → nf (on_fs m).
Proof. intros H s. unfold on_fs. apply ends_bind; [apply H|]. intros [a f]. done. Qed.
Lemma nf_begin : nf begin_op.
Proof. done. Qed.
Lemma nf_end : nf end_op.
Proof. done. Qed.
Lemma nf_get_file i : nf (get_file i).
Proof. intros s. apply ends_bind; auto with nf. Qed.
Lemma nf_set_file i f : nf (set_file i f).
Proof. done. Qed.
Lemma nf_get_pipe i : nf (get_pipe i).
Proof. intros s. apply ends_bind; auto with nf. Qed.
Lemma nf_set_pipes p : nf (set_pipes p).
Proof. done. Qed.
Lemma nf_set_ftable l : nf (set_ftable l).
Proof. done. Qed.
Hint Resolve nf_on_fs nf_begin nf_end nf_get_file nf_set_file nf_get_pipe nf_set_pipes nf_set_ftable : nf.

Lemma nf_filealloc : nf filealloc.
Proof. unfold filealloc. nf. Qed.
Lemma ends_filedup l i : ends (filedup_table l i).
Proof. unfold filedup_table. nf. Qed.
Lemma ends_fileclose l i : ends (fileclose_table l i).
Proof. unfold fileclose_table. nf. Qed.
Hint Resolve nf_filealloc ends_filedup ends_fileclose : nf.
Lemma nf_filedup i : nf (filedup i).
Proof. unfold filedup. nf. Qed.
Lemma nf_fileclose i : nf (fileclose i).
Proof. unfold fileclose, release_object, close_pipe. nf. Qed.
Hint Resolve nf_filedup nf_fileclose : nf.
Lemma nf_filestat i : nf (filestat i).
Proof. unfold filestat. nf. Qed.
Lemma nf_pipealloc page : nf (pipealloc page).
Proof. unfold pipealloc, close_opt. nf. Qed.
Lemma ends_pipewrite_loop p killed src n cnt : ∀ i, ends (pipewrite_loop p killed src n i cnt).
Proof. induction cnt as [|cnt IH] in p |- *; intros i; cbn [pipewrite_loop]; unfold put; nf. Qed.
Lemma ends_piperead_loop cnt : ∀ p, ends (piperead_loop p cnt).
Proof. induction cnt as [|cnt IH]; intros p; cbn [piperead_loop]; unfold get; nf. Qed.
Hint Resolve nf_filestat nf_pipealloc ends_pipewrite_loop ends_piperead_loop : nf.
Lemma nf_fileread i killed n : nf (fileread dev_read i killed n).
Proof using Hread. unfold fileread, piperead. nf. Qed.
Lemma nf_filewrite_loop i src n fuel : ∀ k, n - k ≤ Z.of_nat fuel → nf (filewrite_loop dev_write i src n k fuel).
Proof using Hwrite.
  induction fuel as [|fuel IH]; intros k Hf; cbn [filewrite_loop]; case_if; try (by nf); [lia|].
  apply nf_bind; [by nf|]. intros f. cbv zeta. set (n1 := if max_write <? n - k then max_write else n - k).
  assert (1 ≤ n1) as Hn1 by (unfold n1; case_if; [unfold max_write; vm_compute; discriminate|lia]).
  repeat (apply nf_bind; [by nf|intros ?]). case_if; [by nf|]. case_if; [by nf|]. apply IH. lia.
Qed.
Lemma nf_filewrite i killed src n : nf (filewrite dev_write i killed src n).
Proof using Hwrite.
  unfold filewrite. apply nf_bind; [by nf|]. intros f. case_if; [by nf|]. destruct (type_ f); [by nf| |].
  - unfold pipewrite, pipewrite_from. nf.
  - apply nf_bind; [apply nf_filewrite_loop; lia|]. intros k. by nf.
Qed.
Hint Resolve nf_fileread nf_filewrite : nf.

(** ** The calls *)
Lemma nf_on_k {A} (m : M kst A) : nf m → nf (on_k m).
Proof. intros H s. unfold on_k. apply ends_bind; [apply H|]. intros [a k]. done. Qed.
Lemma nf_on_i {A} (m : M fs A) : nf m → nf (on_i m).
Proof. intros H. by apply nf_on_k, nf_on_fs. Qed.
Lemma nf_set_ofile fd f : nf (set_ofile fd f).
Proof. intros s. apply ends_bind; auto with nf. Qed.
Lemma nf_set_cwd ip : nf (set_cwd ip).
Proof. done. Qed.
Lemma nf_argfd a : nf (argfd a).
Proof. intros s. unfold argfd. nf. Qed.
Lemma nf_fdalloc f : nf (fdalloc f).
Proof. intros s. unfold fdalloc. nf. Qed.
Hint Resolve nf_on_k nf_on_i nf_set_ofile nf_set_cwd nf_argfd nf_fdalloc : nf.

Lemma nf_dup a : nf (sys_dup a).
Proof. unfold sys_dup. nf. Qed.
Lemma nf_close a : nf (sys_close a).
Proof. unfold sys_close. nf. Qed.
Lemma nf_fstat a st : nf (sys_fstat a st).
Proof. unfold sys_fstat. nf. Qed.
Lemma nf_read a n p killed : nf (sys_read dev_read a n p killed).
Proof using Hread. unfold sys_read. nf. Qed.
Lemma nf_write a n p killed : nf (sys_write dev_write a n p killed).
Proof using Hwrite. unfold sys_write. nf. Qed.
Lemma nf_link old new : nf (sys_link dev_read dev_write old new).
Proof using Hread Hwrite. unfold sys_link, link_bad. nf. Qed.
Lemma nf_unlink path : nf (sys_unlink dev_read dev_write path).
Proof using Hread Hwrite. unfold sys_unlink, unlink_bad. nf. Qed.
Lemma nf_open path omode : nf (sys_open dev_read dev_write path omode).
Proof using Hread Hwrite. unfold sys_open, open_inode. nf. Qed.
Lemma nf_mkdir path : nf (sys_mkdir dev_read dev_write path).
Proof using Hread Hwrite. unfold sys_mkdir, finish_create. nf. Qed.
Lemma nf_mknod path ma mi : nf (sys_mknod dev_read dev_write path ma mi).
Proof using Hread Hwrite. unfold sys_mknod, finish_create. nf. Qed.
Lemma nf_chdir path : nf (sys_chdir dev_read path).
Proof using Hread. unfold sys_chdir. nf. Qed.
Lemma nf_pipe fd page : nf (sys_pipe fd page).
Proof. unfold sys_pipe. nf. match goal with |- nf (match ?a with _ => _ end _) => destruct a end; nf. Qed.
End drivers.
