(* ===== verification/SysfileSafe.v ===== *)
(** * Any sequence of file system calls

    The calls of [Sysfile] as steps of a process, and the theorem that combines
    [SysfileInv] and [SysfileEnds]. *)

From stdpp Require Import base numbers list gmap sets strings relations.
From S2P Require Import Prelude Spinlock Pipe Fs FsBlocks FsCache FsRefs File Sysfile SysfileInv SysfileEnds.

Open Scope Z_scope.

(** A call with the results of its argument fetching. *)
Inductive fcall :=
  | Cdup (a : option Z)
  | Cclose (a : option Z)
  | Cfstat (a st : option Z)
  | Cread (a n p : option Z) (killed : bool)
  | Cwrite (a n : option Z) (p : option (list Z)) (killed : bool)
  | Clink (old new : option (list Z))
  | Cunlink (path : option (list Z))
  | Copen (path : option (list Z)) (omode : option Z)
  | Cmkdir (path : option (list Z))
  | Cmknod (path : option (list Z)) (ma mi : option Z)
  | Cchdir (path : option (list Z))
  | Cpipe (fd : option Z) (page : option (nat * list Z)).

Section run.
Context (dev_read : Z → option (nat → Z → M fs (Z * list Z))).
Context (dev_write : Z → option (nat → list Z → M fs Z)).

(** The state after the call; what it returns is left to the single calls. *)
Definition ignore {A} (m : M sst A) : M sst unit := _ ← m; mret tt.
Definition fcall_run (c : fcall) : M sst unit :=
  match c with
  | Cdup a => ignore (sys_dup a)
  | Cclose a => ignore (sys_close a)
  | Cfstat a st => ignore (sys_fstat a st)
  | Cread a n p killed => ignore (sys_read dev_read a n p killed)
  | Cwrite a n p killed => ignore (sys_write dev_write a n p killed)
  | Clink old new => ignore (sys_link dev_read dev_write old new)
  | Cunlink path => ignore (sys_unlink dev_read dev_write path)
  | Copen path omode => ignore (sys_open dev_read dev_write path omode)
  | Cmkdir path => ignore (sys_mkdir dev_read dev_write path)
  | Cmknod path ma mi => ignore (sys_mknod dev_read dev_write path ma mi)
  | Cchdir path => ignore (sys_chdir dev_read path)
  | Cpipe fd page => ignore (sys_pipe fd page)
  end.
Fixpoint fcalls_run (cs : list fcall) : M sst unit :=
  match cs with [] => mret tt | c :: cs => fcall_run c ;; fcalls_run cs end.

(** What the device drivers do: they answer, and leave the inode as they found
    it (the console unlocks it while it sleeps). *)
Record drivers_ok : Prop := {
  dr_read_keeps m f ip n s : dev_read m = Some f → keepsv res_of s (f ip n);
  dr_write_keeps m f ip src s : dev_write m = Some f → keepsv res_of s (f ip src);
  dr_read_ends m f ip n : dev_read m = Some f → nf (f ip n);
  dr_write_ends m f ip src : dev_write m = Some f → nf (f ip src)
}.

Context (Hd : drivers_ok).

Lemma ignore_inv {A} oh oi n (m : M sst A) :
  (∀ o c, length o = Z.to_nat NOFILE →
    tr (at_ (res_ (omap id o ++ oh) (c :: oi) ∅ n) o c) m (λ _, call_inv oh oi n)) →
  tr (call_inv oh oi n) (ignore m) (λ _, call_inv oh oi n).
Proof.
  intros H. unfold ignore. eapply (tr_bind _ _ (λ _, call_inv oh oi n)); [|intros a; by apply tr_ret].
  intros s a s' [Hl Hs] E. by eapply (H (ofile s) (cwd s)).
Qed.

Lemma fcall_inv oh oi n c : tr (call_inv oh oi n) (fcall_run c) (λ _, call_inv oh oi n).
Proof using Hd.
  destruct Hd. destruct c; cbn [fcall_run]; apply ignore_inv; intros o c Ho.
  - by apply good_dup.
  - by apply good_close.
  - by apply good_fstat.
  - by apply good_read.
  - by apply good_write.
  - by apply good_link.
  - by apply good_unlink.
  - by apply good_open.
  - by apply good_mkdir.
  - by apply good_mknod.
  - by apply good_chdir.
  - by apply good_pipe.
Qed.

Lemma fcall_ends c : nf (fcall_run c).
Proof using Hd.
  destruct Hd. destruct c; cbn [fcall_run]; (apply nf_bind; [|intros ?; by nf]).
  - apply nf_dup.
  - apply nf_close.
  - apply nf_fstat.
  - by apply nf_read.
  - by apply nf_write.
  - by apply nf_link.
  - by apply nf_unlink.
  - by apply nf_open.
  - by apply nf_mkdir.
  - by apply nf_mknod.
  - by apply nf_chdir.
  - apply nf_pipe.
Qed.

Lemma fcalls_inv oh oi n cs : tr (call_inv oh oi n) (fcalls_run cs) (λ _, call_inv oh oi n).
Proof using Hd.
  induction cs as [|c cs IH]; cbn [fcalls_run]; [by apply tr_ret|].
  eapply tr_bind; [apply fcall_inv|]. intros ?. apply IH.
Qed.
Lemma fcalls_ends cs : nf (fcalls_run cs).
Proof using Hd. induction cs as [|c cs IH]; cbn [fcalls_run]; [by nf|]. apply nf_bind; [apply fcall_ends|]. done. Qed.
End run.

(** The references that the calling process and the others hold together. *)
Definition balanced (oh oi : list nat) (n : Z) (s : sst) : Prop :=
  let handles := omap id (ofile s) ++ oh in
  let inodes := files_inodes (ftable (ks s)) ++ cwd s :: oi in
  ops (ks s) = n ∧
  (∀ i f, ftable (ks s) !! i = Some f → ref_ f = Z.of_nat (length (filter (eq i) handles))) ∧
  (∀ i x, icache (fsys (ks s)) !! i = Some x →
     ref x = Z.of_nat (length (filter (eq i) inodes)) ∧ s_locked (ilk x) = 0).

Lemma call_inv_balanced oh oi n s : call_inv oh oi n s → balanced oh oi n s.
Proof.
  intros (Hl & _ & (a & r & Ht) & (Hi & Hk) & Hn). split_and!; [done|exact (fi_count _ Ht)|].
  intros i x Hx. split; [|by rewrite (Hk i x Hx)].
  assert (keys (fsys (ks s)) !! i = Some (key x)) as Hkey by (apply keys_lookup; eauto).
  exact (inv_count _ _ Hi _ _ Hkey).
Qed.

(** C9. File system calls give back what they take.  Let a process make any
    sequence of calls (open, create, read, write, close, dup, fstat, link,
    unlink, mkdir, mknod, chdir, pipe) with any arguments, while other
    processes hold open files [oh] and inodes [oi].  No call runs for ever;
    and if the calls return, whichever of their error paths they took, then
    every transaction they began is ended, no inode is left locked, the
    reference count of every open file is the number of descriptors for it, and
    that of every cached inode the number of open files and current directories
    that use it. *)
Theorem syscalls_balanced dev_read dev_write (oh oi : list nat) (n : Z) (s : sst) (cs : list fcall) :
  drivers_ok dev_read dev_write → call_inv oh oi n s →
  fcalls_run dev_read dev_write cs s ≠ NoFuel ∧
  ∀ s', fcalls_run dev_read dev_write cs s = Ret (tt, s') → call_inv oh oi n s' ∧ balanced oh oi n s'.
Proof.
  intros Hd Hs. split; [by apply fcalls_ends|]. intros s' E.
  assert (call_inv oh oi n s') as H by by eapply fcalls_inv. split; [done|by apply call_inv_balanced].
Qed.

(** A process in an empty directory, which creates a file, writes to it, links
    and unlinks it, and fails to open another. *)
Definition demo_root : inode := Inode 1 1 1 initsleeplock 1 T_DIR 0 0 1 0 (replicate 13 0).
Definition demo_system : sst :=
  SSt (KSt (replicate 4 zero_file) ∅
    (Fs (<[2 := replicate 64 0 ++ [1] ++ replicate 447 0]> (blk demo_fs)) demo_sb [demo_root; empty_inode; empty_inode]) 0)
    (replicate 16 None) 0.
Definition demo_calls : list fcall :=
  [Copen (Some [97]) (Some 0x202); Cwrite (Some 0) (Some 3) (Some [1; 2; 3]) false; Clink (Some [97]) (Some [98]);
   Cunlink (Some [97]); Copen (Some [97]) (Some 0); Cclose (Some 0)].

Lemma demo_drivers : drivers_ok (λ _, None) (λ _, None).
Proof. by split. Qed.

Lemma demo_call_inv : call_inv [] [] 0 demo_system.
Proof.
  split; [done|]. split_and!; [done| | |done].
  - exists [], []. split; [|intros i ?%not_elem_of_nil; done|..|done].
    + by intros i f [-> _]%lookup_replicate.
    + by intros i f [-> _]%lookup_replicate.
  - split; [split|].
    + intros i k (x & Hx & ->)%keys_lookup. destruct i as [|[|[|i]]]; cbn in Hx; [injection Hx as <-; done..|done].
    + intros i Hi. change (i ∈ [0%nat]) in Hi. apply list_elem_of_singleton in Hi as ->. cbn. lia.
    + intros i j k k' (x & Hx & ->)%keys_lookup (y & Hy & ->)%keys_lookup Hp Hp' _.
      destruct i as [|[|[|i]]]; cbn in Hx; [|injection Hx as <-; cbn in Hp; lia..|done].
      destruct j as [|[|[|j]]]; cbn in Hy; [done|injection Hy as <-; cbn in Hp'; lia..|done].
    + intros i x Hx. rewrite decide_False by apply not_elem_of_empty.
      destruct i as [|[|[|i]]]; cbn in Hx; [injection Hx as <-; done..|done].
Qed.

Lemma syscalls_balanced_witness :
  ∃ s', fcalls_run (λ _, None) (λ _, None) demo_calls demo_system = Ret (tt, s') ∧ balanced [] [] 0 s'.
Proof.
  destruct (syscalls_balanced (λ _, None) (λ _, None) [] [] 0 demo_system demo_calls demo_drivers demo_call_inv) as [_ H].
  assert (match fcalls_run (λ _, None) (λ _, None) demo_calls demo_system with Ret _ => true | _ => false end = true) as G
    by (vm_compute; reflexivity).
  destruct (fcalls_run (λ _, None) (λ _, None) demo_calls demo_system) as [[[] s']| | |]; [|discriminate G..].
  exists s'. split; [reflexivity|]. apply (H s' eq_refl).
Defined.
