(* ===== verification/UMalloc.v ===== *)
(** * The user memory allocator (xv6 [umalloc.c])

    Memory is seen in units of one [Header] (8 bytes): an address is the number
    of the unit, and the unit's contents are read as a header, a pointer and a
    size in units.  Clients own the units behind the header of a block they
    were given and may overwrite them.  [base] is below the heap, as the data
    of a program is.  [sbrk] is [sys_sbrk] with [growproc]: whether there is
    memory ([room]) and what new memory holds ([fresh]) are parameters. *)

From stdpp Require Import base numbers list gmap sorting relations.
From S2P Require Import Prelude.

Open Scope Z_scope.

Abbreviation header := (Z * Z)%type.
Definition HDR : Z := 8.
Definition KERNBASE : Z := 2 ^ 31.

(** [freep] is 0 until the first call; [brk] is the size of the process. *)
Record heap := Heap { hdr : gmap Z header; freep : Z; brk : Z }.

Definition get_ptr (a : Z) : M heap Z := fun s => h ← opt (hdr s !! a); Ret (fst h, s).
Definition get_size (a : Z) : M heap Z := fun s => h ← opt (hdr s !! a); Ret (snd h, s).
Definition set_ptr (a v : Z) : M heap unit := fun s =>
  h ← opt (hdr s !! a); Ret (tt, Heap (<[a := (v, snd h)]> (hdr s)) (freep s) (brk s)).
Definition set_hsize (a v : Z) : M heap unit := fun s =>
  h ← opt (hdr s !! a); Ret (tt, Heap (<[a := (fst h, u32 v)]> (hdr s)) (freep s) (brk s)).
Definition set_freep (a : Z) : M heap unit := fun s => Ret (tt, Heap (hdr s) a (brk s)).

Section umalloc.
Context (room : Z → bool) (fresh : Z → header) (base : Z).

(** [growproc] and [sys_sbrk]: the old size, or [None] for -1. *)
Definition sbrk (n : Z) : M heap (option Z) := fun s =>
  let sz := brk s in
  if 0 <? n then
    let newsz := u32 (sz + n) in
    if KERNBASE <=? newsz then Ret (None, s)
    else if newsz <? sz then Ret (Some sz, s)
    else if room newsz then
      let new := seqZ (sz / HDR) (newsz / HDR - sz / HDR) in
      Ret (Some sz, Heap (list_to_map ((λ u, (u, fresh u)) <$> new) ∪ hdr s) (freep s) newsz)
    else Ret (None, s)
  else if n <? 0 then
    let newsz := u32 (sz + n) in
    if sz <=? newsz then Ret (Some sz, s)
    else Ret (Some sz, Heap (filter (λ x, x.1 < newsz / HDR) (hdr s)) (freep s) newsz)
  else Ret (Some sz, s).

(** ** [umalloc.c] *)

(** The search of [free] for the neighbours of the block. *)
Fixpoint free_loop (bp p : Z) (fuel : nat) : M heap Z :=
  match fuel with
  | O => lift NoFuel
  | S fuel =>
      q ← get_ptr p;
      if (p <? bp) && (bp <? q) then mret p
      else if (q <=? p) && ((p <? bp) || (bp <? q)) then mret p
      else free_loop bp q fuel
  end.

(** Joining the block to the one above it, or linking to that. *)
Definition join_next (bp p : Z) : M heap unit :=
  bn ← get_size bp;
  q ← get_ptr p;
  if bp + bn =? q then
    qn ← get_size q;
    set_hsize bp (bn + qn) ;;
    q ← get_ptr p;
    qq ← get_ptr q;
    set_ptr bp qq
  else set_ptr bp q.

(** Joining the block to the one below it, or linking that to it. *)
Definition join_prev (bp p : Z) : M heap unit :=
  pn ← get_size p;
  if p + pn =? bp then
    bn ← get_size bp;
    set_hsize p (pn + bn) ;;
    bq ← get_ptr bp;
    set_ptr p bq
  else set_ptr p bp.

(** The free list has at most as many entries as there are units. *)
Definition ufree (ap : Z) : M heap unit :=
  let bp := ap - 1 in
  s ← get_st;
  p ← free_loop bp (freep s) (Z.to_nat (2 * (brk s / HDR) + 2));
  join_next bp p ;;
  join_prev bp p ;;
  set_freep p.

(** The new [freep], or 0. *)
Definition morecore (nu : Z) : M heap Z :=
  let nu := if nu <? 4096 then 4096 else nu in
  p ← sbrk (i32 (nu * HDR));
  match p with
  | None => mret 0
  | Some p =>
      let hp := p / HDR in
      set_hsize hp nu ;;
      ufree (hp + 1) ;;
      s ← get_st;
      mret (freep s)
  end.

Definition units (nbytes : Z) : Z := u32 (u32 (nbytes + HDR - 1) / HDR + 1).

(** Taking [nunits] units out of the entry [p] of size [n]. *)
Definition carve (nunits prevp p n : Z) : M heap Z :=
  p ← (if n =? nunits then q ← get_ptr p; set_ptr prevp q ;; mret p
       else
         set_hsize p (n - nunits) ;;
         n ← get_size p;
         set_hsize (p + n) nunits ;;
         mret (p + n));
  set_freep prevp ;;
  mret (p + 1).

(** The loop of [malloc]. *)
Fixpoint malloc_loop (nunits prevp p : Z) (fuel : nat) : M heap Z :=
  match fuel with
  | O => lift NoFuel
  | S fuel =>
      n ← get_size p;
      if nunits <=? n then carve nunits prevp p n
      else
        s ← get_st;
        p ← (if p =? freep s then morecore nunits else mret p);
        if p =? 0 then mret 0
        else q ← get_ptr p; malloc_loop nunits p q fuel
  end.

(** At most two rounds through the list. *)
Definition malloc (nbytes : Z) : M heap Z :=
  let nunits := units nbytes in
  s ← get_st;
  prevp ← (if freep s =? 0 then
             set_freep base ;; set_ptr base base ;; set_hsize base 0 ;; mret base
           else mret (freep s));
  q ← get_ptr prevp;
  s ← get_st;
  malloc_loop nunits prevp q (Z.to_nat (2 * (brk s / HDR) + nunits + 4100)).
End umalloc.

(** ** The free list *)

(** Where a list of blocks starts; [d] if it is empty. *)
Definition first (ns : list header) (d : Z) : Z := match ns with [] => d | (a, _) :: _ => a end.

(** The headers of [ns] are linked in order, the last one to [d]. *)
Fixpoint seg (h : gmap Z header) (ns : list header) (d : Z) : Prop :=
  match ns with
  | [] => True
  | (a, n) :: ns => h !! a = Some (first ns d, n) ∧ seg h ns d
  end.

(** Ascending, with a gap between any two blocks. *)
Fixpoint apart (ns : list header) : Prop :=
  match ns with
  | [] => True
  | (a, n) :: ns => 0 ≤ n ∧ Forall (λ b, a + n < b.1) ns ∧ apart ns
  end.

Lemma first_app l1 l2 d : first (l1 ++ l2) d = first l1 (first l2 d).
Proof. by destruct l1 as [|[a n] l1]. Qed.

Lemma seg_app h l1 l2 d : seg h (l1 ++ l2) d ↔ seg h l1 (first l2 d) ∧ seg h l2 d.
Proof. induction l1 as [|[a n] l1 IH]; cbn; [tauto|]. rewrite first_app, IH. tauto. Qed.

Lemma seg_insert h ns d a v : a ∉ ns.*1 → seg h ns d → seg (<[a := v]> h) ns d.
Proof.
  induction ns as [|[b n] ns IH]; cbn; [done|]. rewrite not_elem_of_cons. intros [Hne Hni] [Hb Hs].
  rewrite lookup_insert_ne by done. auto.
Qed.

Lemma seg_ext h h' ns d : (∀ a, a ∈ ns.*1 → h' !! a = h !! a) → seg h ns d → seg h' ns d.
Proof.
  induction ns as [|[b n] ns IH]; cbn; [done|]. intros Hx [Hb Hs]. rewrite Hx by left. split; [done|].
  apply IH; [|done]. intros a Ha. apply Hx. by right.
Qed.

Lemma seg_lookup h ns d a n : seg h ns d → (a, n) ∈ ns → ∃ q, h !! a = Some (q, n).
Proof.
  induction ns as [|[b m] ns IH]; cbn; intros Hs Hin; [by apply elem_of_nil in Hin|].
  destruct Hs as [Hb Hs]. apply elem_of_cons in Hin as [[= -> ->]|Hin]; eauto.
Qed.

Lemma apart_app l1 l2 :
  apart (l1 ++ l2) ↔ apart l1 ∧ apart l2 ∧ ∀ a n b, (a, n) ∈ l1 → b ∈ l2 → a + n < b.1.
Proof.
  induction l1 as [|[a n] l1 IH]; cbn.
  - split; [|tauto]. intros H. split; [done|]. split; [done|]. intros a n b Hin. by apply elem_of_nil in Hin.
  - rewrite IH, Forall_app, !Forall_forall. split.
    + intros (Hn & [H1 H2] & H3 & H4 & H5). split_and!; try done. intros a' n' b [[= -> ->]|Hin]%elem_of_cons Hb; eauto.
    + intros ((Hn & H1 & H2) & H3 & H4). split_and!; try done.
      * intros b Hb. apply (H4 a n b); [left|done].
      * intros a' n' b Hin Hb. apply (H4 a' n' b); [by right|done].
Qed.

Lemma apart_nodup ns : apart ns → NoDup ns.*1.
Proof.
  induction ns as [|[a n] ns IH]; cbn; [constructor|]. intros (Hn & Hf & Ha). apply NoDup_cons. split; [|auto].
  rewrite Forall_forall in Hf. intros ([b m] & -> & Hin)%list_elem_of_fmap. specialize (Hf _ Hin). cbn in Hf. lia.
Qed.

Lemma elem_of_cons_app {A} (x y : A) l k : x ∈ y :: l → x ∈ y :: (l ++ k).
Proof. rewrite !elem_of_cons, elem_of_app. tauto. Qed.

(** ** Tilings

    The units of a list of blocks. *)
Definition span (ns : list header) : list Z := ns ≫= λ b, seqZ b.1 b.2.

Lemma span_app l1 l2 : span (l1 ++ l2) = span l1 ++ span l2.
Proof. apply bind_app. Qed.

Lemma span_cons a n l : span ((a, n) :: l) = seqZ a n ++ span l.
Proof. done. Qed.

Lemma span_perm l1 l2 : l1 ≡ₚ l2 → span l1 ≡ₚ span l2.
Proof. intros H. unfold span. by rewrite H. Qed.

Lemma elem_of_span u ns : u ∈ span ns ↔ ∃ a n, (a, n) ∈ ns ∧ a ≤ u < a + n.
Proof.
  unfold span. rewrite list_elem_of_bind. split.
  - intros ([a n] & Hu & Hin). apply elem_of_seqZ in Hu. eauto.
  - intros (a & n & Hin & Hu). exists (a, n). split; [|done]. by apply elem_of_seqZ.
Qed.

Lemma seqZ_split a n m : 0 ≤ n → 0 ≤ m → seqZ a (n + m) = seqZ a n ++ seqZ (a + n) m.
Proof. intros. by rewrite seqZ_app. Qed.

(** Two blocks of a tiling have no unit in common. *)
Lemma tiling_disjoint (l1 l2 : list header) u (b1 b2 : header) :
  NoDup (span (l1 ++ l2)) → b1 ∈ l1 → b2 ∈ l2 → b1.1 ≤ u < b1.1 + b1.2 → b2.1 ≤ u < b2.1 + b2.2 → False.
Proof.
  rewrite span_app. intros (_ & H & _)%NoDup_app H1 H2 Hu1 Hu2.
  destruct b1 as [a1 n1], b2 as [a2 n2]. cbn in *.
  apply (H u); apply elem_of_span; eauto.
Qed.

Section proofs.
Context (base start : Z).
Context (Hbase : 0 < base < start).
(** Below the top of the address space. *)
Definition LIMIT : Z := 2 ^ 28.

Record ring (s : heap) (fl : list header) : Prop := {
  r_seg : seg (hdr s) ((base, 0) :: fl) base;
  r_apart : apart ((base, 0) :: fl);
  r_freep : freep s ∈ base :: fl.*1;
  r_pos : Forall (λ b, 1 ≤ b.2 ∧ b.1 + b.2 ≤ LIMIT) fl
}.

Lemma apart_above ns b : apart ((base, 0) :: ns) → b ∈ ns.*1 → base < b.
Proof.
  intros (_ & Hf & _) ([a n] & -> & Hin)%list_elem_of_fmap. rewrite Forall_forall in Hf. specialize (Hf _ Hin). cbn in *. lia.
Qed.

(** Where a block that meets none of the others goes. *)
Lemma split_at bp bn ns : apart ns → 1 ≤ bn → Forall (λ b, b.1 + b.2 ≤ bp ∨ bp + bn ≤ b.1) ns →
  ∃ l1 l2, ns = l1 ++ l2 ∧ Forall (λ b, b.1 + b.2 ≤ bp) l1 ∧ Forall (λ b, bp + bn ≤ b.1) l2.
Proof.
  intros Ha Hbn. induction ns as [|[a n] ns IH]; intros Hf; [by exists [], []|].
  destruct Ha as (Hn & Hf' & Ha). apply Forall_cons in Hf as [Hx Hf]. cbn in Hx. destruct Hx as [Hx|Hx].
  - destruct (IH Ha Hf) as (l1 & l2 & -> & H1 & H2). exists ((a, n) :: l1), l2. split; [done|]. split; [by constructor|done].
  - exists [], ((a, n) :: ns). split; [done|]. split; [constructor|]. constructor; [done|].
    eapply Forall_impl; [exact Hf'|]. intros [b m] Hb. cbn in *. lia.
Qed.

(** From an entry before the place, the search goes up to it. *)
Lemma free_loop_up bp p n l2 k : ∀ x fuel (s : heap),
  seg (hdr s) (k ++ (p, n) :: l2) base → apart (k ++ (p, n) :: l2) → base ≤ p → p < bp → bp ≠ base →
  Forall (λ b, bp < b.1) l2 → x = first (k ++ [(p, n)]) 0 → (length k < fuel)%nat →
  free_loop bp x fuel s = Ret (p, s).
Proof.
  induction k as [|[a m] k IH]; intros x fuel s Hs Ha Hp Hbp Hne Hl2 -> Hf; (destruct fuel as [|fuel]; [lia|]);
    cbn [app first free_loop seg] in *; destruct Hs as [Hx Hs];
    (erewrite M_bind_run by (unfold get_ptr; rewrite Hx; reflexivity)); cbn [fst].
  - rewrite (proj2 (Z.ltb_lt p bp)) by done. cbn [andb]. destruct l2 as [|[b m'] l2]; cbn [first].
    + case_if; [done|]. by rewrite (proj2 (Z.leb_le base p)).
    + apply Forall_cons in Hl2 as [Hb _]. cbn in Hb. by rewrite (proj2 (Z.ltb_lt bp b)).
  - destruct Ha as (Hm & Hfa & Ha). rewrite Forall_app, Forall_cons in Hfa. destruct Hfa as (Hk & Hap & _). cbn in Hap.
    set (q := first (k ++ (p, n) :: l2) base). assert (a < q ∧ q ≤ p) as [Hq1 Hq2].
    { subst q. destruct k as [|[b m'] k]; cbn; [lia|]. apply Forall_cons in Hk as [Hk _]. cbn in Hk.
      destruct Ha as (Hm' & Hfa & _). rewrite Forall_app, Forall_cons in Hfa. destruct Hfa as (_ & Hb & _).
      cbn in Hb. lia. }
    rewrite (proj2 (Z.ltb_ge bp q)), andb_false_r, (proj2 (Z.leb_gt q a)) by lia. cbn [andb].
    apply IH; [done..| |cbn in Hf; lia]. subst q. by destruct k as [|[b m'] k].
Qed.

(** From an entry behind the place, it goes round. *)
Lemma free_loop_round bp p n l1 l2 k : ∀ x m fuel (s : heap),
  seg (hdr s) (l1 ++ (p, n) :: l2) base → apart (l1 ++ (p, n) :: l2) → first (l1 ++ [(p, n)]) 0 = base →
  base ≤ p → p < bp → bp ≠ base → Forall (λ b, bp < b.1) l2 →
  seg (hdr s) ((x, m) :: k) base → apart ((x, m) :: k) → bp < x → Forall (λ b, bp < b.1) k →
  (S (length k) + length l1 < fuel)%nat → free_loop bp x fuel s = Ret (p, s).
Proof.
  induction k as [|[b m'] k IH]; intros x m fuel s Hs Ha Hfst Hp Hbp Hne Hl2 Hk Hak Hx Hkb Hf;
    (destruct fuel as [|fuel]; [lia|]); destruct Hk as [Hhx Hk]; cbn [free_loop];
    (erewrite M_bind_run by (unfold get_ptr; rewrite Hhx; reflexivity)); cbn [fst first];
    rewrite (proj2 (Z.ltb_ge x bp)) by lia; cbn [andb orb].
  - rewrite (proj2 (Z.ltb_ge bp base)), andb_false_r by lia.
    apply (free_loop_up bp p n l2 l1); [done..| |cbn in Hf; lia]. by rewrite Hfst.
  - destruct Hak as (Hm & Hfa & Hak). apply Forall_cons in Hfa as [Hxb _].
    apply Forall_cons in Hkb as [Hbb Hkb]. cbn in Hxb, Hbb.
    rewrite (proj2 (Z.leb_gt b x)) by lia. cbn [andb].
    apply (IH b m'); done || (cbn in *; lia).
Qed.

(** One access. *)
Lemma run_get_ptr s a q n : hdr s !! a = Some (q, n) → get_ptr a s = Ret (q, s).
Proof. intros H. unfold get_ptr. by rewrite H. Qed.
Lemma run_get_size s a q n : hdr s !! a = Some (q, n) → get_size a s = Ret (n, s).
Proof. intros H. unfold get_size. by rewrite H. Qed.
Lemma run_set_ptr s a q n v : hdr s !! a = Some (q, n) →
  set_ptr a v s = Ret (tt, Heap (<[a := (v, n)]> (hdr s)) (freep s) (brk s)).
Proof. intros H. unfold set_ptr. by rewrite H. Qed.
Lemma run_set_hsize s a q n v : hdr s !! a = Some (q, n) → 0 ≤ v ≤ LIMIT →
  set_hsize a v s = Ret (tt, Heap (<[a := (q, v)]> (hdr s)) (freep s) (brk s)).
Proof. intros H Hv. unfold set_hsize. rewrite H. cbn. unfold LIMIT in Hv. by rewrite u32_small by lia. Qed.

Lemma join_next_run s bp bn qp p pn l2 :
  hdr s !! bp = Some (qp, bn) → hdr s !! p = Some (first l2 base, pn) → seg (hdr s) l2 base → apart l2 →
  p < bp → base < bp → 1 ≤ bn → bp + bn ≤ LIMIT → Forall (λ b, 1 ≤ b.2 ∧ b.1 + b.2 ≤ LIMIT) l2 →
  Forall (λ b, bp + bn ≤ b.1) l2 →
  ∃ bn1 l2a, join_next bp p s = Ret (tt, Heap (<[bp := (first l2a base, bn1)]> (hdr s)) (freep s) (brk s)) ∧
    bn ≤ bn1 ∧ bp + bn1 ≤ LIMIT ∧ Forall (λ b, bp + bn1 < b.1) l2a ∧
    seqZ bp bn1 ++ span l2a ≡ₚ seqZ bp bn ++ span l2 ∧ (∃ l0, l2 = l0 ++ l2a).
Proof.
  intros Hb Hp Hs Ha Hpb Hbb Hbn Hlim Hpos Hab. unfold join_next.
  erewrite M_bind_run by (by eapply run_get_size). erewrite M_bind_run by (by eapply run_get_ptr).
  destruct l2 as [|[q qn] l2]; cbn [first] in *.
  - rewrite (proj2 (Z.eqb_neq _ _)) by lia. erewrite run_set_ptr by done.
    exists bn, []. split; [done|]. split; [lia|]. split; [done|]. split; [constructor|]. split; [done|]. by exists [].
  - destruct Hs as [Hq Hs]. apply Forall_cons in Hab as [Hq1 Hab]. apply Forall_cons in Hpos as [[Hq2 Hq3] Hpos].
    destruct Ha as (_ & Hfa & Ha). cbn in Hq1, Hq2, Hq3. case_if as E.
    + subst q. erewrite M_bind_run by (by eapply run_get_size).
      erewrite M_bind_run by (eapply run_set_hsize; [done|lia]).
      set (s1 := Heap _ _ _). assert (hdr s1 !! p = Some (bp + bn, pn)) as Hp1 by (cbn; by rewrite lookup_insert_ne by lia).
      erewrite M_bind_run by (by eapply run_get_ptr).
      assert (hdr s1 !! (bp + bn) = Some (first l2 base, qn)) as Hq' by (cbn; by rewrite lookup_insert_ne by lia).
      erewrite M_bind_run by (by eapply run_get_ptr).
      erewrite (run_set_ptr s1) by apply lookup_insert_eq.
      exists (bn + qn), l2. cbn. rewrite insert_insert_eq. split; [done|]. split; [lia|]. split; [lia|].
      split; [|split; [|by exists [(bp + bn, qn)]]].
      * eapply Forall_impl; [exact Hfa|]. intros [c m]. cbn. lia.
      * rewrite (seqZ_split bp bn qn) by lia. rewrite <-app_assoc. reflexivity.
    + erewrite run_set_ptr by done. exists bn, ((q, qn) :: l2). split; [done|]. split; [lia|]. split; [done|].
      split; [|split; [done|by exists []]]. constructor; [cbn; lia|].
      eapply Forall_impl; [exact Hfa|]. intros [c m]. cbn. lia.
Qed.

Lemma join_prev_run s bp bn1 nxt p q pn :
  hdr s !! bp = Some (nxt, bn1) → hdr s !! p = Some (q, pn) → p ≠ bp → 0 ≤ pn + bn1 ≤ LIMIT →
  join_prev bp p s = Ret (tt, Heap (<[p := if p + pn =? bp then (nxt, pn + bn1) else (bp, pn)]> (hdr s)) (freep s) (brk s)).
Proof.
  intros Hb Hp Hne Hl. unfold join_prev. erewrite M_bind_run by (by eapply run_get_size). case_if as E.
  - erewrite M_bind_run by (by eapply run_get_size).
    erewrite M_bind_run by (eapply run_set_hsize; [done|lia]). set (s1 := Heap _ _ _).
    assert (hdr s1 !! bp = Some (nxt, bn1)) as Hb1 by (cbn; by rewrite lookup_insert_ne).
    erewrite M_bind_run by (by eapply run_get_ptr).
    erewrite (run_set_ptr s1) by apply lookup_insert_eq. cbn. by rewrite insert_insert_eq.
  - by erewrite run_set_ptr by done.
Qed.

(** The block lands between its neighbours. *)
Lemma insert_seg h k p q pn bp bn1 l2a :
  seg h (k ++ [(p, pn)]) q → seg h l2a base → apart (k ++ [(p, pn)]) → apart l2a →
  p + pn ≤ bp → Forall (λ b, bp + bn1 < b.1) l2a → 1 ≤ bn1 → Forall (λ b, b.1 + b.2 < bp) k →
  p < bp →
  let l := if p + pn =? bp then [(p, pn + bn1)] else [(p, pn); (bp, bn1)] in
  seg (<[p := if p + pn =? bp then (first l2a base, pn + bn1) else (bp, pn)]> (<[bp := (first l2a base, bn1)]> h))
    (k ++ l ++ l2a) base ∧ apart (k ++ l ++ l2a).
Proof.
  intros Hs Hs2 Ha Ha2 Hpb Hf Hbn Hk Hlt l. apply apart_app in Ha as (Ha1 & (Hpn & _ & _) & Hkp).
  apply seg_app in Hs as [Hs1 _]. cbn [first] in Hs1.
  assert (first (l ++ l2a) base = p) as Hfl by (subst l; by case_if).
  assert (p ∉ k.*1 ∧ bp ∉ k.*1) as [Hpk Hbk].
  { rewrite Forall_forall in Hk. split; intros ([a n] & -> & Hin)%list_elem_of_fmap.
    - specialize (Hkp a n (a, pn) Hin ltac:(left)). cbn in Hkp.
      apply list_elem_of_split in Hin as (k1 & k2 & ->). apply apart_app in Ha1 as (_ & [? _] & _). lia.
    - specialize (Hk _ Hin). cbn in Hk.
      apply list_elem_of_split in Hin as (k1 & k2 & ->). apply apart_app in Ha1 as (_ & [? _] & _). lia. }
  assert (p ∉ l2a.*1 ∧ bp ∉ l2a.*1) as [Hpl Hbl].
  { rewrite Forall_forall in Hf. split; intros ([a n] & -> & Hin)%list_elem_of_fmap; specialize (Hf _ Hin); cbn in *; lia. }
  split.
  - apply seg_app. rewrite Hfl. split; [by apply seg_insert, seg_insert|].
    assert (seg (<[p:=if p + pn =? bp then (first l2a base, pn + bn1) else (bp, pn)]> (<[bp:=(first l2a base, bn1)]> h)) l2a base) as Hs3
      by (by apply seg_insert, seg_insert).
    subst l. case_if; cbn; (split; [apply lookup_insert_eq|]); [done|].
    split; [|done]. rewrite lookup_insert_ne by lia. apply lookup_insert_eq.
  - apply apart_app. split; [done|]. split.
    + subst l. case_if as E; cbn; split_and!; try lia; try done; try (eapply Forall_impl; [exact Hf|]; intros [c m]; cbn; lia).
      constructor; [cbn; lia|]. eapply Forall_impl; [exact Hf|]. intros [c m]; cbn; lia.
    + intros a n b Hin Hb. rewrite Forall_forall in Hk, Hf. specialize (Hk _ Hin). cbn in Hk.
      specialize (Hkp a n (p, pn) Hin ltac:(left)). cbn in Hkp.
      apply elem_of_app in Hb as [Hb|Hb]; [|specialize (Hf _ Hb); lia].
      subst l. destruct (p + pn =? bp); repeat (apply elem_of_cons in Hb as [->|Hb]; [cbn; lia|]); by apply elem_of_nil in Hb.
Qed.

Lemma last_split {A} (x : A) (l : list A) : ∃ k y, x :: l = k ++ [y].
Proof. destruct l as [|z l _] using rev_ind; [by exists [], x|]. by exists (x :: l), z. Qed.

(** Giving a block back. *)
Lemma ufree_spec s fl bp bn qp :
  ring s fl → hdr s !! bp = Some (qp, bn) → 1 ≤ bn → start ≤ bp → bp + bn ≤ LIMIT →
  Forall (λ b, b.1 + b.2 ≤ bp ∨ bp + bn ≤ b.1) fl → 0 ≤ brk s → (length fl ≤ Z.to_nat (brk s / HDR))%nat →
  ∃ s' fl', ufree (bp + 1) s = Ret (tt, s') ∧ ring s' fl' ∧ brk s' = brk s ∧
    span fl' ≡ₚ seqZ bp bn ++ span fl ∧ (∃ b, b ∈ fl' ∧ bn ≤ b.2) ∧
    (∀ u, u ∉ base :: bp :: fl.*1 → hdr s' !! u = hdr s !! u) ∧
    (∀ u, is_Some (hdr s !! u) → is_Some (hdr s' !! u)).
Proof using Hbase.
  intros [Hs Ha Hfr Hpos] Hb Hbn Hst Hlim Hdis Hbrk Hfuel.
  assert (0 ≤ brk s / HDR) as Hfuel' by (by apply Z.div_pos).
  assert (Hbb : base < bp) by lia.
  destruct (split_at bp bn fl) as (l1 & l2 & -> & Hl1 & Hl2); [by destruct Ha as (_ & _ & ?)|done|done|].
  destruct (last_split (base, 0) l1) as (k & [p pn] & Ek).
  assert ((base, 0) :: l1 ++ l2 = k ++ (p, pn) :: l2) as Ens.
  { rewrite app_comm_cons, Ek, <-app_assoc. done. }
  assert (Forall (λ b, b.1 + b.2 ≤ bp) (k ++ [(p, pn)])) as Hk.
  { rewrite <-Ek. constructor; [cbn; lia|done]. }
  apply Forall_app in Hk as [Hk Hp]. apply Forall_cons in Hp as [Hp _]. cbn in Hp.
  rewrite Ens in Hs, Ha. pose proof Hs as Hs'. apply seg_app in Hs' as [_ [Hhp Hs2]]. cbn [first] in Hhp.
  pose proof Ha as Ha'. apply apart_app in Ha' as (Hak & (Hpn & Hpl & Hal2) & Hkp).
  assert (base ≤ p ∧ (p = base ∧ k = [] ∧ pn = 0 ∨ 1 ≤ pn ∧ p + pn ≤ LIMIT ∧ ∃ k', k = (base, 0) :: k' ∧ l1 = k' ++ [(p, pn)])) as [Hbp Hcase].
  { destruct k as [|x k']; cbn in Ek; [injection Ek as <- <- ->; split; [lia|by left]|]. injection Ek as <- ->.
    apply Forall_app in Hpos as [Hpos _]. apply Forall_app in Hpos as [_ Hpos]. apply Forall_cons in Hpos as [Hpos _]. cbn in Hpos.
    specialize (Hkp base 0 (p, pn) ltac:(left) ltac:(left)). cbn in Hkp. split; [lia|]. right. split_and!; try lia. by exists k'. }
  assert (p < bp) as Hplt by lia.
  assert (first (k ++ [(p, pn)]) 0 = base) as Hfst by (by rewrite <-Ek).
  assert (Forall (λ b, bp < b.1) l2) as Hl2'.
  { eapply Forall_impl; [exact Hl2|]. intros [c m]. cbn. lia. }
  (* the search *)
  unfold ufree. rewrite Z.add_simpl_r. erewrite M_bind_run by reflexivity.
  assert (free_loop bp (freep s) (Z.to_nat (2 * (brk s / HDR) + 2)) s = Ret (p, s)) as Hloop.
  { assert (length k + length l2 ≤ length (l1 ++ l2))%nat as Hlen.
    { apply (f_equal length) in Ek. rewrite length_app in Ek. cbn in Ek. rewrite length_app. lia. }
    assert (freep s ∈ (k ++ (p, pn) :: l2).*1) as Hin by (rewrite <-Ens; exact Hfr).
    rewrite fmap_app in Hin. apply elem_of_app in Hin as [Hin|Hin].
    - apply list_elem_of_fmap in Hin as ([a m] & Ea & Hin). cbn in Ea.
      apply list_elem_of_split in Hin as (k1 & k2 & ->).
      apply (free_loop_up bp p pn l2 ((a, m) :: k2)); try done; try lia.
      + rewrite <-app_assoc in Hs. by apply seg_app in Hs as [_ ?].
      + rewrite <-app_assoc in Ha. by apply apart_app in Ha as (_ & ? & _).
      + rewrite length_app in Hlen. cbn in *. lia.
    - cbn in Hin. apply elem_of_cons in Hin as [Ea|Hin].
      + apply (free_loop_up bp p pn l2 []); done || (cbn; lia) || (by split_and!).
      + apply list_elem_of_fmap in Hin as ([a m] & Ea & Hin). cbn in Ea.
        apply list_elem_of_split in Hin as (l3 & l4 & ->). rewrite Ea.
        assert (apart ((a, m) :: l4)) as Ha4 by (by apply apart_app in Hal2 as (_ & ? & _)).
        assert (seg (hdr s) ((a, m) :: l4) base) as Hs4 by (by apply seg_app in Hs2 as [_ ?]).
        apply Forall_app in Hl2' as [_ Hl4]. apply Forall_cons in Hl4 as [Hbq Hl4].
        apply (free_loop_round bp p pn k (l3 ++ (a, m) :: l4) l4 a m); try done; try lia.
        * apply Forall_app; split; [|by constructor].
          eapply Forall_impl; [by apply Forall_app in Hl2 as [Hl3 _]; exact Hl3|]. intros [c m']. cbn. lia.
        * rewrite ?length_app in Hlen; rewrite ?length_app in Hfuel. cbn in *. rewrite ?length_app in Hlen. cbn in Hlen.
          revert Hlen Hfuel Hfuel'. generalize (brk s `div` HDR). clear. intros. lia. }
  erewrite M_bind_run by exact Hloop. apply Forall_app in Hpos as [Hpos1 Hpos2].
  destruct (join_next_run s bp bn qp p pn l2) as (bn1 & l2a & E1 & Hn1 & Hlim1 & Hf1 & Hsp1 & (l0 & El2)); try done; try lia.
  erewrite M_bind_run by exact E1. set (s1 := Heap _ _ _).
  assert (hdr s1 !! bp = Some (first l2a base, bn1)) as Hb1 by apply lookup_insert_eq.
  assert (hdr s1 !! p = Some (first l2 base, pn)) as Hp1 by (cbn; by rewrite lookup_insert_ne by lia).
  erewrite M_bind_run by (eapply join_prev_run; [exact Hb1|exact Hp1|lia|destruct Hcase as [(_ & _ & ->)|(? & ? & _)]; lia]).
  subst l2. apply seg_app in Hs2 as [Hs20 Hs2a]. apply apart_app in Hal2 as (_ & Hal2a & _).
  destruct (insert_seg (hdr s) k p (first (l0 ++ l2a) base) pn bp bn1 l2a) as [Hseg Hapart]; try done; try lia.
  { apply seg_app in Hs as [Hsk _]. apply seg_app. cbn [first] in *. split; [done|]. by split. }
  { apply apart_app. split; [done|]. split; [by cbn|]. intros a n b Hin ->%list_elem_of_singleton.
    apply (Hkp a n (p, pn) Hin). left. }
  { apply Forall_forall. intros [a n] Hin. specialize (Hkp a n (p, pn) Hin ltac:(left)). cbn in *. lia. }
  set (l := if p + pn =? bp then [(p, pn + bn1)] else [(p, pn); (bp, bn1)]) in Hseg, Hapart.
  unfold set_freep. cbn [freep brk hdr s1]. set (s2 := Heap _ p _).
  set (good := λ b : header, 1 ≤ b.2 ∧ b.1 + b.2 ≤ LIMIT) in *.
  apply Forall_app in Hpos2 as [_ Hgood2].
  assert (∃ fl', k ++ l ++ l2a = (base, 0) :: fl' ∧ Forall good fl' ∧ p ∈ base :: fl'.*1 ∧
    (∃ b, b ∈ fl' ∧ bn ≤ b.2)) as (fl' & Efl' & Hgood & Hpin & Hbig).
  { destruct Hcase as [(-> & -> & ->)|(Hpn1 & Hpn2 & k' & -> & ->)].
    - subst l. rewrite (proj2 (Z.eqb_neq _ _)) by lia. cbn. eexists. split; [done|].
      split; [constructor; [split; cbn; lia|done]|]. split; [left|]. exists (bp, bn1). split; [left|done].
    - exists (k' ++ l ++ l2a). split; [done|]. apply Forall_app in Hpos1 as [Hk' _].
      subst l. destruct (p + pn =? bp) eqn:E; bool_to_prop.
      + split; [apply Forall_app; split; [done|]; constructor; [split; cbn; lia|done]|].
        split; [right; rewrite fmap_app; set_solver|]. exists (p, pn + bn1). split; [set_solver|cbn; lia].
      + split; [apply Forall_app; split; [done|]; constructor; [by split|]; constructor; [split; cbn; lia|done]|].
        split; [right; rewrite fmap_app; set_solver|]. exists (bp, bn1). split; [set_solver|done]. }
  rewrite Efl' in Hseg, Hapart.
  assert (span fl' ≡ₚ seqZ bp bn ++ span (l1 ++ l0 ++ l2a)) as Hspan.
  { assert (span ((base, 0) :: fl') ≡ₚ seqZ bp bn ++ span ((base, 0) :: l1 ++ l0 ++ l2a)) as H; [|exact H].
    rewrite <-Efl', app_comm_cons, Ek, <-app_assoc.
    assert (span l ≡ₚ span [(p, pn)] ++ seqZ bp bn1) as Hl.
    { subst l. case_if as E; cbn; rewrite ?app_nil_r; [|done]. rewrite seqZ_split by lia. by rewrite E. }
    rewrite (span_app k (l ++ l2a)), (span_app l l2a), Hl, <-app_assoc, Hsp1.
    rewrite (span_app k), (span_app [(p, pn)] (l0 ++ l2a)).
    by rewrite (Permutation_app_swap_app (span [(p, pn)])), (Permutation_app_swap_app (span k)). }
  assert (p ∈ base :: (l1 ++ l0 ++ l2a).*1) as Hpold.
  { destruct Hcase as [(-> & _)|(_ & _ & k' & -> & ->)]; [left|].
    right. rewrite !fmap_app, !elem_of_app. left. right. left. }
  exists s2, fl'. split; [done|]. split; [by split|]. split; [done|]. split; [exact Hspan|]. split; [done|]. split.
  - intros u Hu. apply not_elem_of_cons in Hu as [Hu1 Hu]. apply not_elem_of_cons in Hu as [Hu2 Hu3]. cbn.
    rewrite !lookup_insert_ne; [done|done|]. intros ->. apply elem_of_cons in Hpold as [?|?]; done.
  - intros u Hu. cbn. destruct (decide (u = p)) as [->|]; [rewrite lookup_insert_eq; eauto|].
    rewrite lookup_insert_ne by done. destruct (decide (u = bp)) as [->|]; [rewrite lookup_insert_eq; eauto|].
    by rewrite lookup_insert_ne.
Qed.
End proofs.

Section alloc.
Context (base start : Z).
Context (Hbase : 0 < base < start).

(** ** Taking blocks *)

(** From entry to entry, starting behind [p]. *)
Fixpoint linked (h : gmap Z header) (p : Z) (w : list header) : Prop :=
  match w with
  | [] => True
  | (a, n) :: w => (∃ m, h !! p = Some (a, m)) ∧ (∃ q, h !! a = Some (q, n)) ∧ linked h a w
  end.

Lemma linked_seg h p n l a m w :
  seg h ((p, n) :: l) a → (∃ q, h !! a = Some (q, m)) → linked h a w → linked h p (l ++ (a, m) :: w).
Proof.
  revert p n. induction l as [|[b k] l IH]; intros p n [Hp Hs] Ha Hw; cbn [app linked].
  - split; [by exists n|done].
  - pose proof Hs as [Hb _]. split; [by exists n|]. split; [by eexists|]. by apply (IH b k).
Qed.

(** The round from [freep] back to it. *)
Lemma round_exists s fl : ring base s fl → ∃ w f, w ++ [(freep s, f)] ≡ₚ (base, 0) :: fl ∧
  linked (hdr s) (freep s) (w ++ [(freep s, f)]).
Proof.
  intros [Hs Ha Hf _]. change (base :: fl.*1) with (((base, 0) :: fl).*1) in Hf.
  apply list_elem_of_fmap in Hf as ([f n] & -> & Hin). cbn [fst].
  apply list_elem_of_split in Hin as (l1 & l2 & E). exists (l2 ++ l1), n. rewrite E in *. split.
  { rewrite <-app_assoc, (Permutation_app_comm l2), <-app_assoc. done. }
  pose proof Hs as Hs'. apply seg_app in Hs' as [Hs1 Hs2]. cbn [first] in Hs1.
  assert (hdr s !! f = Some (first l2 base, n)) as Hf by apply Hs2.
  destruct l1 as [|x l1]; simplify_eq/=.
  - rewrite app_nil_r. apply (linked_seg _ _ 0); [done|by eexists|done].
  - rewrite <-app_assoc. cbn [app]. apply (linked_seg _ _ n); [done|destruct Hs1 as [Hb _]; by eexists|].
    apply (linked_seg _ _ 0); [done|by eexists|done].
Qed.

Section scan.
Context (room : Z → bool) (fresh : Z → header).

(** The walk meets an entry that is large enough ... *)
Lemma scan_fit nunits s w : ∀ prevp fuel f,
  linked (hdr s) prevp (w ++ [f]) → f.1 = freep s → freep s ∉ w.*1 → (∀ a, a ∈ w.*1 → a ≠ 0) →
  (length w < fuel)%nat → (∃ b, b ∈ w ++ [f] ∧ nunits ≤ b.2) →
  ∃ prev a m k, malloc_loop room fresh nunits prevp (first (w ++ [f]) 0) fuel s = carve nunits prev a m s ∧
    (a, m) ∈ w ++ [f] ∧ nunits ≤ m ∧ hdr s !! prev = Some (a, k) ∧ prev ∈ prevp :: w.*1.
Proof using Hbase.
  induction w as [|[a n] w IH]; intros prevp fuel f Hl Hf Hnf Hz Hfu (b & Hb & Hbn);
    (destruct fuel as [|fuel]; [cbn in Hfu; lia|]); cbn [app malloc_loop first].
  - apply list_elem_of_singleton in Hb as ->. destruct f as [a n]. cbn in *. subst a.
    destruct Hl as ((k & Hp) & (q & Ha) & _). erewrite M_bind_run by (by eapply run_get_size).
    rewrite (proj2 (Z.leb_le _ _)) by done. exists prevp, (freep s), n, k. split; [done|]. split; [left|].
    split; [done|]. split; [done|left].
  - destruct Hl as ((k & Hp) & (q & Ha) & Hl). erewrite M_bind_run by (by eapply run_get_size). case_if as E.
    + exists prevp, a, n, k. split; [done|]. split; [left|]. split; [done|]. split; [done|left].
    + cbn in Hnf. apply not_elem_of_cons in Hnf as [Hne Hnf].
      erewrite M_bind_run by reflexivity. rewrite (proj2 (Z.eqb_neq a (freep s))) by done.
      erewrite M_bind_run by reflexivity.
      rewrite (proj2 (Z.eqb_neq a 0)) by (apply Hz; left).
      assert (q = first (w ++ [f]) 0) as ->.
      { destruct w as [|[c m] w]; [destruct f as [c m]|]; cbn in Hl; destruct Hl as ((k' & Hk') & _);
          rewrite Ha in Hk'; by injection Hk' as ->. }
      erewrite M_bind_run by (by eapply run_get_ptr).
      destruct (IH a fuel f) as (prev & a' & m & k' & Er & Hin & Hm & Hpr & Hpi); [done..| |cbn in Hfu; lia| |].
      { intros c Hc. apply Hz. by right. }
      { exists b. split; [|done]. apply elem_of_cons in Hb as [->|Hb]; [cbn in *; lia|done]. }
      exists prev, a', m, k'. split; [done|]. split; [by right|]. split; [done|]. split; [done|]. cbn. by right.
Qed.

(** ... or comes back to where it started. *)
Lemma scan_none nunits s w : ∀ prevp fuel f,
  linked (hdr s) prevp (w ++ [f]) → f.1 = freep s → freep s ∉ w.*1 → (∀ a, a ∈ w.*1 → a ≠ 0) →
  (length w < fuel)%nat → Forall (λ b, b.2 < nunits) (w ++ [f]) →
  malloc_loop room fresh nunits prevp (first (w ++ [f]) 0) fuel s =
    (p ← morecore room fresh nunits;
     if p =? 0 then mret 0
     else q ← get_ptr p; malloc_loop room fresh nunits p q (fuel - S (length w))) s.
Proof using Hbase.
  induction w as [|[a n] w IH]; intros prevp fuel f Hl Hf Hnf Hz Hfu Hb;
    (destruct fuel as [|fuel]; [cbn in Hfu; lia|]); cbn [app malloc_loop first] in *; apply Forall_cons in Hb as [Hn Hb].
  - destruct f as [a n]. cbn in *. subst a.
    destruct Hl as ((k & Hp) & (q & Ha) & _). erewrite M_bind_run by (by eapply run_get_size).
    rewrite (proj2 (Z.leb_gt _ _)) by lia. erewrite M_bind_run by reflexivity. rewrite Z.eqb_refl.
    by rewrite Nat.sub_0_r.
  - destruct Hl as ((k & Hp) & (q & Ha) & Hl). erewrite M_bind_run by (by eapply run_get_size). cbn in Hn.
    rewrite (proj2 (Z.leb_gt _ _)) by lia. cbn in Hnf. apply not_elem_of_cons in Hnf as [Hne Hnf].
    erewrite M_bind_run by reflexivity. rewrite (proj2 (Z.eqb_neq a (freep s))) by done.
    erewrite M_bind_run by reflexivity. rewrite (proj2 (Z.eqb_neq a 0)) by (apply Hz; left).
    assert (q = first (w ++ [f]) 0) as ->.
    { destruct w as [|[c m] w]; [destruct f as [c m]|]; cbn in Hl; destruct Hl as ((k' & Hk') & _);
        rewrite Ha in Hk'; by injection Hk' as ->. }
    erewrite M_bind_run by (by eapply run_get_ptr).
    rewrite (IH a fuel f); [done..| | |done]; [intros c Hc; apply Hz; by right|cbn in Hfu; lia].
Qed.
End scan.

Lemma ring_nodup s fl : ring base s fl → NoDup (base :: fl.*1).
Proof. intros [_ Ha _ _]. exact (apart_nodup _ Ha). Qed.

Lemma ring_positive s fl a : ring base s fl → a ∈ base :: fl.*1 → 0 < a.
Proof using Hbase.
  intros [_ Ha _ _] [->|Hin]%elem_of_cons; [lia|]. pose proof (apart_above _ _ a Ha Hin). lia.
Qed.

(** What stands behind an entry can be replaced. *)
Lemma behind_prev fl l1 prev pn Y : (base, 0) :: fl = l1 ++ (prev, pn) :: Y →
  ∃ pre, fl = pre ++ Y ∧ ∀ X, l1 ++ (prev, pn) :: X = (base, 0) :: (pre ++ X).
Proof using Hbase.
  destruct l1 as [|x l1]; intros E; simplify_eq/=; [by exists []|].
  exists (l1 ++ [(prev, pn)]). split; [by rewrite <-app_assoc|]. intros X. by rewrite <-app_assoc.
Qed.

Lemma in_span a (ns : list header) : Forall (λ b, 1 ≤ b.2 ∧ b.1 + b.2 ≤ LIMIT) ns → a ∈ ns.*1 → a ∈ span ns.
Proof using Hbase.
  intros Hg ([c n] & -> & Hin)%list_elem_of_fmap. apply elem_of_span. exists c, n. split; [done|].
  rewrite Forall_forall in Hg. specialize (Hg _ Hin). cbn in *. lia.
Qed.

(** The units of a block taken from the list. *)
Lemma carve_spec nunits s fl prev a m k :
  ring base s fl → (a, m) ∈ fl → hdr s !! prev = Some (a, k) → prev ∈ base :: fl.*1 →
  1 ≤ nunits ≤ m → (∀ u, a ≤ u < a + m → is_Some (hdr s !! u)) →
  ∃ s' fl' b, carve nunits prev a m s = Ret (b + 1, s') ∧ ring base s' fl' ∧ brk s' = brk s ∧
    seqZ b nunits ++ span fl' ≡ₚ span fl ∧ (∃ q, hdr s' !! b = Some (q, nunits)) ∧ 0 < b ∧
    (∀ u, u ≠ base → u ∉ span fl → hdr s' !! u = hdr s !! u) ∧
    (∀ u, is_Some (hdr s !! u) → is_Some (hdr s' !! u)).
Proof using Hbase.
  intros Hr Hin Hprev Hpi Hn Hmem. pose proof (ring_nodup _ _ Hr) as Hnd.
  pose proof (ring_positive _ _ a Hr ltac:(right; by apply (list_elem_of_fmap_2 fst) in Hin)) as Hapos.
  pose proof Hr as [Hs Ha Hf Hpos].
  (* the entry before it *)
  assert (∃ l1 pn l2, (base, 0) :: fl = l1 ++ (prev, pn) :: (a, m) :: l2) as (l1 & pn & l2 & E).
  { change (base :: fl.*1) with (((base, 0) :: fl).*1) in Hpi. apply list_elem_of_fmap in Hpi as ([p pn] & -> & Hpin).
    cbn [fst] in *. apply list_elem_of_split in Hpin as (l1 & l2 & E). rewrite E in Hs.
    apply seg_app in Hs as [_ [Hp Hs]]. rewrite Hprev in Hp. injection Hp as Ea Ek.
    destruct l2 as [|[c n] l2]; cbn in Ea.
    - subst a. exfalso. apply NoDup_cons in Hnd as [Hnb _]. apply Hnb. by apply (list_elem_of_fmap_2 fst) in Hin.
    - subst c. exists l1, pn, l2. rewrite E. do 3 f_equal. f_equal.
      assert ((a, n) ∈ (base, 0) :: fl) as Hin2 by (rewrite E; set_solver).
      apply elem_of_cons in Hin2 as [[= -> ->]|Hin2].
      { exfalso. apply NoDup_cons in Hnd as [Hnb _]. apply Hnb. by apply (list_elem_of_fmap_2 fst) in Hin. }
      assert (seg (hdr s) fl base) as Hsf by apply Hr.
      destruct (seg_lookup _ _ _ _ _ Hsf Hin) as [q1 H1], (seg_lookup _ _ _ _ _ Hsf Hin2) as [q2 H2].
      rewrite H1 in H2. by injection H2. }
  rewrite E in Hs, Ha. pose proof Hs as Hs'. apply seg_app in Hs' as [Hs1 (Hp & Hha & Hs2)]. cbn [first] in Hp, Hs1, Hha.
  pose proof Ha as Ha'. apply apart_app in Ha' as (Ha1 & (Hpn & Hpa & Hm & Ham & Ha2) & Hx1).
  assert (NoDup (l1.*1 ++ prev :: a :: l2.*1)) as Hnd2.
  { rewrite <-(fmap_cons fst (a, m)), <-(fmap_cons fst (prev, pn)), <-fmap_app, <-E. exact Hnd. }
  apply NoDup_app in Hnd2 as (Hnd1 & Hx & Hnd2). apply NoDup_cons in Hnd2 as [Hprev_n Hnd2].
  apply NoDup_cons in Hnd2 as [Ha_n Hnd2].
  assert (prev ≠ a) as Hpa_ne by set_solver.
  assert (a ∉ l1.*1) as Ha_1 by (intros H; apply (Hx a H); set_solver).
  assert (prev ∉ l1.*1) as Hp_1 by (intros H; apply (Hx prev H); set_solver).
  rewrite Hprev in Hp. injection Hp as ->.
  assert (Forall (λ b, 1 ≤ b.2 ∧ b.1 + b.2 ≤ LIMIT) fl → (a, m) ∈ fl → a + m ≤ LIMIT) as Hlim.
  { intros Hg Hi. rewrite Forall_forall in Hg. apply (Hg _ Hi). }
  specialize (Hlim Hpos Hin).
  destruct (behind_prev fl l1 prev pn ((a, m) :: l2) E) as (pre & Efl & Hpre).
  assert (prev ∈ base :: pre.*1) as Hppre.
  { change (base :: pre.*1) with (((base, 0) :: pre).*1). rewrite <-(app_nil_r pre), <-Hpre, fmap_app. set_solver. }
  assert (seg (hdr s) l1 prev ∧ apart l1) as [Hs1' Ha1'] by done.
  assert (Forall (λ b, b.1 < a) l1) as Hl1a.
  { apply Forall_forall. intros [c n] Hc. specialize (Hx1 c n (prev, pn) Hc ltac:(left)). cbn in Hx1 |- *.
    apply list_elem_of_split in Hc as (k1 & k2 & ->). apply apart_app in Ha1 as (_ & [? _] & _).
    apply Forall_cons in Hpa as [Hpa _]. cbn in Hpa. lia. }
  unfold carve. case_if as Hnm.
  - (* the whole entry *)
    erewrite M_bind_run; [|erewrite M_bind_run by (by eapply run_get_ptr);
      erewrite M_bind_run by (by eapply run_set_ptr); reflexivity].
    subst m. set (s1 := Heap _ _ _). unfold set_freep. erewrite M_bind_run by reflexivity.
    exists (Heap (hdr s1) prev (brk s)), (pre ++ l2), a. split; [done|]. split.
    { split; cbn [hdr freep]; [rewrite <-Hpre|rewrite <-Hpre| |].
      - apply seg_app. cbn [first seg]. split; [by apply seg_insert|]. cbn. split; [apply lookup_insert_eq|].
        apply seg_insert; [clear -Hprev_n; set_solver|done].
      - apply apart_app. split; [done|]. split; [split_and!; [done|by apply Forall_cons in Hpa as [_ ?]|done]|].
        intros c n b Hc Hb. apply (Hx1 c n b Hc).
        apply elem_of_cons in Hb as [->|Hb]; [left|by do 2 right].
      - rewrite fmap_app. by apply elem_of_cons_app.
      - rewrite Efl in Hpos. apply Forall_app in Hpos as [? Hpos]. apply Forall_cons in Hpos as [_ ?]. by apply Forall_app. }
    split; [done|]. split.
    { rewrite Efl, !span_app. by rewrite (Permutation_app_swap_app (seqZ a nunits)). }
    split; [exists (first l2 base); cbn; by rewrite lookup_insert_ne|]. split; [done|]. split.
    + intros u Hu1 Hu2. cbn. rewrite lookup_insert_ne; [done|]. intros ->.
      apply elem_of_cons in Hppre as [?|Hppre]; [done|]. apply Hu2. rewrite Efl, span_app. apply elem_of_app. left.
      rewrite Efl in Hpos. apply Forall_app in Hpos as [Hpos _]. by eapply in_span.
    + intros u Hu. cbn. destruct (decide (u = prev)) as [->|]; [rewrite lookup_insert_eq; eauto|by rewrite lookup_insert_ne].
  - (* its upper part *)
    set (b := a + (m - nunits)). destruct (Hmem b ltac:(subst b; lia)) as [[qb nb] Hb].
    set (h1 := <[a := (first l2 base, m - nunits)]> (hdr s)).
    assert (h1 !! b = Some (qb, nb)) as Hb1 by (subst h1; rewrite lookup_insert_ne by (subst b; lia); done).
    assert (h1 !! a = Some (first l2 base, m - nunits)) as Ha1h by apply lookup_insert_eq.
    erewrite M_bind_run; [|erewrite M_bind_run by (eapply run_set_hsize; [done|lia]);
      fold h1; erewrite M_bind_run by (eapply run_get_size; exact Ha1h); fold b;
      erewrite M_bind_run by (eapply run_set_hsize; [exact Hb1|unfold LIMIT in *; lia]); reflexivity].
    cbn [freep brk hdr]. set (h2 := <[b := _]> h1). unfold set_freep. erewrite M_bind_run by reflexivity.
    assert (b ∉ l1.*1 ∧ b ∉ l2.*1 ∧ b ≠ prev) as (Hbn1 & Hbn2 & Hbn3).
    { split_and!.
      - intros ([c n] & Ec & Hc)%list_elem_of_fmap. rewrite Forall_forall in Hl1a. specialize (Hl1a _ Hc). cbn in *. lia.
      - intros ([c n] & Ec & Hc)%list_elem_of_fmap. rewrite Forall_forall in Ham. specialize (Ham _ Hc). cbn in *. lia.
      - apply Forall_cons in Hpa as [Hpa _]. cbn in Hpa. lia. }
    exists (Heap h2 prev (brk s)), (pre ++ (a, m - nunits) :: l2), b. split; [done|]. split.
    { split; cbn [hdr freep]; [rewrite <-Hpre|rewrite <-Hpre| |].
      - apply seg_app. cbn [first seg]. subst h2 h1. split; [by apply seg_insert, seg_insert|].
        split; [by rewrite !lookup_insert_ne by done|].
        split; [rewrite lookup_insert_ne by (subst b; lia); apply lookup_insert_eq|].
        apply seg_insert; [done|]. by apply seg_insert.
      - apply apart_app. split; [done|]. split.
        + split; [done|]. apply Forall_cons in Hpa as [? ?]. split; [by constructor|]. split; [lia|]. split; [|done].
          eapply Forall_impl; [exact Ham|]. intros [c n]. cbn. lia.
        + intros c n d Hc Hd. apply elem_of_cons in Hd as [->|Hd]; [apply (Hx1 c n (prev, pn) Hc); left|].
          apply elem_of_cons in Hd as [->|Hd]; [apply (Hx1 c n (a, m) Hc); right; left|apply (Hx1 c n d Hc); by do 2 right].
      - rewrite fmap_app. by apply elem_of_cons_app.
      - rewrite Efl in Hpos. apply Forall_app in Hpos as [? Hpos]. apply Forall_cons in Hpos as [_ ?].
        apply Forall_app. split; [done|]. constructor; [cbn; lia|done]. }
    split; [done|]. split.
    { rewrite Efl, !span_app, !span_cons. replace m with (m - nunits + nunits) at 2 by lia.
      rewrite (seqZ_split a (m - nunits) nunits) by lia. fold b.
      rewrite (Permutation_app_swap_app (seqZ b nunits)), (Permutation_app_swap_app (seqZ b nunits) (seqZ a _)).
      by rewrite <-app_assoc. }
    split; [exists qb; apply lookup_insert_eq|]. split; [subst b; lia|].
    assert (∀ u, a ≤ u < a + m → u ∈ span fl) as Hau by (intros u Hu; apply elem_of_span; eauto).
    split.
    + intros u Hu1 Hu2. subst h2 h1. cbn. rewrite !lookup_insert_ne; [done|..]; intros <-; apply Hu2, Hau; subst b; lia.
    + intros u Hu. subst h2 h1. cbn. destruct (decide (u = b)) as [->|]; [rewrite lookup_insert_eq; eauto|].
      rewrite lookup_insert_ne by done.
      destruct (decide (u = a)) as [->|]; [rewrite lookup_insert_eq; eauto|by rewrite lookup_insert_ne].
Qed.
End alloc.

Section client.
Context (base start : Z).
Context (Hbase : 0 < base < start).

(** ** All memory is accounted for

    Free and allocated blocks tile the heap; every block has its header. *)
Record mem_ok (s : heap) (fl al : list header) : Prop := {
  m_tile : span (fl ++ al) ≡ₚ seqZ start (brk s / HDR - start);
  m_pos : Forall (λ b, 1 ≤ b.2) (fl ++ al);
  m_hdr : ∀ a n, (a, n) ∈ al → ∃ q, hdr s !! a = Some (q, n);
  m_base : is_Some (hdr s !! base);
  m_dom : ∀ u, start ≤ u < brk s / HDR → is_Some (hdr s !! u);
  m_brk : brk s mod HDR = 0 ∧ HDR * start ≤ brk s ≤ KERNBASE
}.

(** [freep] is 0 before the first call of [malloc]. *)
Definition uinv (s : heap) (fl al : list header) : Prop :=
  mem_ok s fl al ∧ (ring base s fl ∧ freep s ≠ 0 ∨ freep s = 0 ∧ fl = [] ∧ al = []).

Lemma top_range s fl al : mem_ok s fl al → start ≤ brk s / HDR ≤ LIMIT ∧ brk s = HDR * (brk s / HDR).
Proof using Hbase.
  intros [_ _ _ _ _ [H1 H2]]. unfold HDR, LIMIT, KERNBASE in *. Z.div_mod_to_equations. lia.
Qed.

Lemma block_inside s fl al a n : mem_ok s fl al → (a, n) ∈ fl ++ al → start ≤ a ∧ a + n ≤ brk s / HDR ∧ 1 ≤ n.
Proof using Hbase.
  intros Hm Hin. pose proof (m_pos _ _ _ Hm) as Hp. rewrite Forall_forall in Hp. specialize (Hp _ Hin). cbn in Hp.
  assert (∀ u, a ≤ u < a + n → start ≤ u < start + (brk s / HDR - start)) as H.
  { intros u Hu. apply elem_of_seqZ. rewrite <-(m_tile _ _ _ Hm). apply elem_of_span. eauto. }
  pose proof (H a ltac:(lia)). pose proof (H (a + n - 1) ltac:(lia)). lia.
Qed.

Lemma length_span ns : Forall (λ b : header, 1 ≤ b.2) ns → (length ns ≤ length (span ns))%nat.
Proof using Hbase.
  induction 1 as [|[a n] ns Hn _ IH]; [done|]. rewrite span_cons, length_app, length_seqZ. cbn in *. lia.
Qed.

Lemma blocks_fit s fl al : mem_ok s fl al → (length fl ≤ Z.to_nat (brk s / HDR))%nat.
Proof using Hbase.
  intros Hm. pose proof (length_span _ (m_pos _ _ _ Hm)) as Hl. rewrite (m_tile _ _ _ Hm), length_seqZ, length_app in Hl. lia.
Qed.

Lemma tile_nodup s fl al : mem_ok s fl al → NoDup (span (fl ++ al)).
Proof using Hbase. intros Hm. rewrite (m_tile _ _ _ Hm). apply NoDup_seqZ. Qed.

(** Memory of allocated blocks is neither [base] nor free. *)
Lemma allocated_unit s fl al u : mem_ok s fl al → u ∈ span al → u ≠ base ∧ u ∉ span fl ∧ start ≤ u < brk s / HDR.
Proof using Hbase.
  intros Hm Hu. pose proof (tile_nodup _ _ _ Hm) as Hnd. rewrite span_app in Hnd. apply NoDup_app in Hnd as (_ & Hd & _).
  assert (u ∈ seqZ start (brk s / HDR - start)) as Hr.
  { rewrite <-(m_tile _ _ _ Hm), span_app. apply elem_of_app. by right. }
  apply elem_of_seqZ in Hr. split; [lia|]. split; [|lia]. intros Hf. by apply (Hd u).
Qed.

(** *** [sbrk] *)
Context (room : Z → bool) (fresh : Z → header).

Definition refused (s : heap) (n : Z) : Prop := KERNBASE ≤ brk s + n ∨ room (brk s + n) = false.

Lemma sbrk_spec s n : 0 < n < 2 ^ 31 → n mod HDR = 0 → 0 ≤ brk s ≤ KERNBASE → brk s mod HDR = 0 →
  (sbrk room fresh n s = Ret (None, s) ∧ refused s n) ∨
  ∃ s', sbrk room fresh n s = Ret (Some (brk s), s') ∧ brk s' = brk s + n ∧ brk s' < KERNBASE ∧
    freep s' = freep s ∧ (∀ u, u < brk s / HDR → hdr s' !! u = hdr s !! u) ∧
    (∀ u, brk s / HDR ≤ u < brk s' / HDR → is_Some (hdr s' !! u)).
Proof using Hbase.
  intros Hn Hn8 Hb Hb8. unfold sbrk, refused, KERNBASE in *. rewrite (proj2 (Z.ltb_lt 0 n)) by lia.
  rewrite u32_small by lia. case_if as Hk; [left; split; [done|lia]|]. rewrite (proj2 (Z.ltb_ge _ _)) by lia.
  destruct (room (brk s + n)); [|left; by auto]. right. eexists. split; [done|]. cbn [brk hdr freep].
  split; [done|]. split; [lia|]. split; [done|]. set (new := seqZ _ _). split.
  - intros u Hu. rewrite lookup_union_r; [done|]. apply not_elem_of_list_to_map_1.
    rewrite <-list_fmap_compose. intros (v & -> & Hv)%list_elem_of_fmap. subst new. apply elem_of_seqZ in Hv. cbn in Hu. lia.
  - intros u Hu. apply lookup_union_is_Some. left. exists (fresh u). apply elem_of_list_to_map_1.
    + rewrite <-list_fmap_compose. apply (NoDup_fmap_2 id), NoDup_seqZ.
    + apply (list_elem_of_fmap_2 (λ u, (u, fresh u))). subst new. apply elem_of_seqZ. lia.
Qed.

(** *** [morecore] *)
Lemma morecore_spec s fl al nu : ring base s fl → mem_ok s fl al → 1 ≤ nu → HDR * nu < 2 ^ 31 →
  let m := HDR * Z.max nu 4096 in
  (morecore room fresh nu s = Ret (0, s) ∧ refused s m) ∨
  ∃ s' fl', morecore room fresh nu s = Ret (freep s', s') ∧ ring base s' fl' ∧ mem_ok s' fl' al ∧
    (∃ b, b ∈ fl' ∧ nu ≤ b.2) ∧ (∀ u, u ∈ span al → hdr s' !! u = hdr s !! u) ∧ brk s' = brk s + m.
Proof using Hbase.
  intros Hr Hm Hnu Hsz m. unfold morecore.
  set (nu' := if nu <? 4096 then 4096 else nu). assert (nu' = Z.max nu 4096) as Enu by (subst nu'; case_if; lia).
  clearbody nu'. assert (m = HDR * nu') as Em by (subst m; by rewrite Enu). clearbody m.
  pose proof (top_range _ _ _ Hm) as [Ht Hbt].
  pose proof (m_brk _ _ _ Hm) as [Hb8 Hb]. assert (0 < m < 2 ^ 31 ∧ m mod HDR = 0) as [Hmr Hm8].
  { rewrite Em. split; [unfold HDR in *; lia|]. by rewrite Z.mul_comm, Z_mod_mult. }
  rewrite (Z.mul_comm nu'), <-Em, i32_small by lia.
  destruct (sbrk_spec s m Hmr Hm8 ltac:(unfold HDR in *; lia) Hb8) as [[E Href]|(s1 & E & Eb & Hlt & Ef & Hlow & Hnew)].
  { left. split; [|done]. by erewrite M_bind_run by exact E. }
  right. erewrite M_bind_run by exact E. cbn iota beta zeta.
  set (top := brk s / HDR) in *. assert (brk s1 / HDR = top + nu') as Ht1.
  { rewrite Eb, Hbt, Em. rewrite <-Z.mul_add_distr_l, (Z.mul_comm HDR), Z.div_mul; [done|done]. }
  assert (top + nu' ≤ LIMIT) as Hlim.
  { rewrite <-Ht1. unfold LIMIT, KERNBASE, HDR in *. Z.div_mod_to_equations; lia. }
  destruct (Hnew top ltac:(lia)) as [[q0 n0] Hq0].
  erewrite M_bind_run by (eapply run_set_hsize; [exact Hq0|lia]). set (s2 := Heap _ _ _).
  assert (∀ u, u < top → hdr s2 !! u = hdr s !! u) as Hlow2.
  { intros u Hu. cbn. rewrite lookup_insert_ne by lia. by apply Hlow. }
  assert (∀ a n, (a, n) ∈ fl → a + n ≤ top) as Hfl.
  { intros a n Hin. apply (block_inside s fl al a n Hm). apply elem_of_app. by left. }
  assert (ring base s2 fl) as Hr2.
  { destruct Hr as [Hs Ha Hf Hp]. split; [|done|cbn; by rewrite Ef|done].
    eapply seg_ext; [|exact Hs]. intros a Ha'. apply Hlow2.
    apply list_elem_of_fmap in Ha' as ([c n] & -> & [[= -> ->]|Hin]%elem_of_cons); cbn; [lia|].
    pose proof (Hfl _ _ Hin). pose proof (m_pos _ _ _ Hm) as Hpp. rewrite Forall_forall in Hpp.
    specialize (Hpp (c, n) ltac:(apply elem_of_app; by left)). cbn in Hpp. lia. }
  destruct (ufree_spec base start Hbase s2 fl top nu' q0 Hr2) as (s3 & fl3 & E3 & Hr3 & Eb3 & Hsp & (b & Hb3 & Hbn) & Hfr & Hdm).
  { cbn. apply lookup_insert_eq. } { lia. } { lia. } { done. }
  { apply Forall_forall. intros [a n] Hin. left. by apply Hfl. }
  { change (0 ≤ brk s1). clear -Eb Hb Hmr Hbase. unfold HDR in *. lia. }
  { cbn [brk s2]. rewrite Ht1. pose proof (blocks_fit _ _ _ Hm). fold top in H. lia. }
  erewrite M_bind_run by exact E3. erewrite M_bind_run by reflexivity.
  assert (brk s3 = brk s1) as Eb31 by done.
  assert (∀ u, u ∈ span al → hdr s3 !! u = hdr s !! u) as Hkeep.
  { intros u Hu. destruct (allocated_unit s fl al u Hm Hu) as (H1 & H2 & H3). fold top in H3.
    rewrite Hfr; [apply Hlow2; lia|]. rewrite !not_elem_of_cons. split; [done|]. split; [lia|].
    intros Hin. apply H2. eapply in_span; [exact Hbase|apply Hr|done]. }
  exists s3, fl3. split; [done|]. split; [done|]. split; [|split; [exists b; split; [done|lia]|split; [done|lia]]].
  split.
  - rewrite Eb31, Ht1, span_app, Hsp, <-app_assoc, <-span_app, (m_tile _ _ _ Hm). fold top.
    replace (top + nu' - start) with ((top - start) + nu') by lia. rewrite (seqZ_split start) by lia.
    replace (start + (top - start)) with top by lia. apply Permutation_app_comm.
  - apply Forall_app. split; [|by pose proof (m_pos _ _ _ Hm) as [_ ?]%Forall_app].
    eapply Forall_impl; [exact (r_pos _ _ _ Hr3)|]. by intros x [Hx _].
  - intros a n Hin. rewrite Hkeep; [by apply (m_hdr _ _ _ Hm)|]. apply elem_of_span. exists a, n. split; [done|].
    pose proof (block_inside s fl al a n Hm ltac:(apply elem_of_app; by right)). lia.
  - apply Hdm. cbn. rewrite lookup_insert_ne by lia. rewrite Hlow by lia. apply (m_base _ _ _ Hm).
  - intros u Hu. rewrite Eb31, Ht1 in Hu. apply Hdm. destruct (decide (u < top)).
    + rewrite Hlow2 by done. apply (m_dom _ _ _ Hm). fold top. lia.
    + cbn. destruct (decide (u = top)) as [->|]; [rewrite lookup_insert_eq; eauto|].
      rewrite lookup_insert_ne by done. apply Hnew. lia.
  - rewrite Eb31, Eb. split; [|unfold KERNBASE, HDR in *; lia]. rewrite Z.add_mod, Hb8, Hm8 by done. done.
Qed.

(** *** [malloc] *)
Lemma round_split s fl : ring base s fl → ∃ w f, linked (hdr s) (freep s) (w ++ [f]) ∧ f.1 = freep s ∧
  freep s ∉ w.*1 ∧ (∀ a, a ∈ w.*1 → a ≠ 0) ∧ length w = length fl ∧ w ++ [f] ≡ₚ (base, 0) :: fl ∧
  (∃ q, hdr s !! freep s = Some (q, f.2) ∧ q = first (w ++ [f]) 0).
Proof using All.
  intros Hr. destruct (round_exists base start Hbase s fl Hr) as (w & f & Hp & Hl). exists w, (freep s, f).
  pose proof (ring_nodup _ _ _ Hr) as Hnd.
  assert ((w ++ [(freep s, f)]).*1 ≡ₚ base :: fl.*1) as Hp1 by (by rewrite Hp).
  rewrite <-Hp1, fmap_app in Hnd. apply NoDup_app in Hnd as (_ & Hd & _).
  split; [done|]. split; [done|]. split; [intros H; apply (Hd _ H); left|]. split.
  { intros a Ha. assert (a ∈ base :: fl.*1) as Hin by (rewrite <-Hp1, fmap_app; apply elem_of_app; by left).
    pose proof (ring_positive base start Hbase s fl a Hr Hin). lia. }
  split; [apply Permutation_length in Hp; rewrite length_app in Hp; cbn in Hp; lia|]. split; [done|].
  assert ((freep s, f) ∈ (base, 0) :: fl) as Hin by (rewrite <-Hp; set_solver).
  destruct (seg_lookup _ _ _ _ _ (r_seg _ _ _ Hr) Hin) as [q Hq]. exists q. split; [done|].
  destruct w as [|[c m] w]; cbn in Hl; destruct Hl as ((k & Hk) & _); rewrite Hq in Hk; by injection Hk as ->.
Qed.

(** What a call that succeeds has done: [b] is the new block. *)
Definition took (s s' : heap) (fl' al : list header) (b n : Z) : Prop :=
  ring base s' fl' ∧ mem_ok s' fl' ((b, n) :: al) ∧ 0 < b ∧ (∀ u, u ∈ span al → hdr s' !! u = hdr s !! u).

Lemma carve_took s fl al prev a m k n :
  ring base s fl → mem_ok s fl al → (a, m) ∈ (base, 0) :: fl → hdr s !! prev = Some (a, k) → prev ∈ base :: fl.*1 →
  1 ≤ n ≤ m → ∃ s' fl' b, carve n prev a m s = Ret (b + 1, s') ∧ brk s' = brk s ∧ took s s' fl' al b n.
Proof using All.
  intros Hr Hm Hin Hpr Hpi Hn. apply elem_of_cons in Hin as [[= -> ->]|Hin]; [lia|].
  destruct (carve_spec base start Hbase n s fl prev a m k Hr Hin Hpr Hpi Hn) as
    (s' & fl' & b & E & Hr' & Eb & Hsp & Hb & Hbp & Hfr & Hdm).
  { intros u Hu. apply (m_dom _ _ _ Hm). pose proof (block_inside s fl al a m Hm ltac:(apply elem_of_app; by left)). lia. }
  assert (∀ u, u ∈ span al → hdr s' !! u = hdr s !! u) as Hkeep.
  { intros u Hu. destruct (allocated_unit s fl al u Hm Hu) as (H1 & H2 & _). by apply Hfr. }
  exists s', fl', b. split; [done|]. split; [done|]. split; [done|]. split; [|done]. split.
  - rewrite Eb, <-(m_tile _ _ _ Hm), !span_app, span_cons, <-Hsp.
    rewrite <-app_assoc. apply Permutation_app_swap_app.
  - apply Forall_app. split.
    + eapply Forall_impl; [exact (r_pos _ _ _ Hr')|]. by intros x [Hx _].
    + constructor; [cbn; lia|]. by pose proof (m_pos _ _ _ Hm) as [_ ?]%Forall_app.
  - intros c n' [[= -> ->]|Hc]%elem_of_cons; [done|]. rewrite Hkeep; [by apply (m_hdr _ _ _ Hm)|].
    apply elem_of_span. exists c, n'. split; [done|].
    pose proof (block_inside s fl al c n' Hm ltac:(apply elem_of_app; by right)). lia.
  - apply Hdm, (m_base _ _ _ Hm).
  - intros u Hu. rewrite Eb in Hu. apply Hdm. by apply (m_dom _ _ _ Hm).
  - rewrite Eb. apply (m_brk _ _ _ Hm).
Qed.

Lemma fit_took s fl al n p q fuel :
  ring base s fl → mem_ok s fl al → 1 ≤ n → p = freep s → (length fl < fuel)%nat →
  (∃ m, hdr s !! p = Some (q, m)) → (∃ b, b ∈ fl ∧ n ≤ b.2) →
  ∃ s' fl' b, malloc_loop room fresh n p q fuel s = Ret (b + 1, s') ∧ brk s' = brk s ∧ took s s' fl' al b n.
Proof using All.
  intros Hr Hm Hn -> Hfu (m & Hq) (b & Hb & Hbn). destruct (round_split s fl Hr) as (w & f & Hl & Hf & Hnf & Hz & Hlen & Hp & (q' & Hq' & Eq)).
  rewrite Hq in Hq'. injection Hq' as <- ->. rewrite Eq.
  destruct (scan_fit base start Hbase room fresh n s w (freep s) fuel f Hl Hf Hnf Hz ltac:(lia)) as
    (prev & a & m' & k & E & Hin & Hm' & Hpr & Hpi).
  { exists b. split; [|done]. rewrite Hp. by right. }
  rewrite E. rewrite Hp in Hin. apply (carve_took s fl al prev a m' k n); try done.
  change (base :: fl.*1) with (((base, 0) :: fl).*1). rewrite <-Hp, fmap_app.
  apply elem_of_cons in Hpi as [->|Hpi]; [|set_solver]. rewrite <-Hf. set_solver.
Qed.

Lemma loop_correct s fl al n p q fuel :
  ring base s fl → mem_ok s fl al → 1 ≤ n → HDR * n < 2 ^ 31 → p = freep s → (∃ m, hdr s !! p = Some (q, m)) →
  (Z.to_nat (2 * (brk s / HDR) + n + 4100) ≤ fuel)%nat →
  (malloc_loop room fresh n p q fuel s = Ret (0, s) ∧ refused s (HDR * Z.max n 4096)) ∨
  ∃ s' fl' b, malloc_loop room fresh n p q fuel s = Ret (b + 1, s') ∧ took s s' fl' al b n.
Proof using All.
  intros Hr Hm Hn Hsz -> (m & Hq) Hfu. pose proof (blocks_fit _ _ _ Hm) as Hbf.
  pose proof (top_range _ _ _ Hm) as [Ht _].
  destruct (decide (Exists (λ b : header, n ≤ b.2) fl)) as [Hex|Hno].
  { right. apply Exists_exists in Hex as (b & Hb & Hbn).
    destruct (fit_took s fl al n (freep s) q fuel) as (s' & fl' & b' & E & _ & T); eauto with lia. }
  destruct (round_split s fl Hr) as (w & f & Hl & Hf & Hnf & Hz & Hlen & Hp & (q' & Hq' & Eq)).
  rewrite Hq in Hq'. injection Hq' as <- ->. rewrite Eq.
  rewrite (scan_none base start Hbase room fresh n s w (freep s) fuel f Hl Hf Hnf Hz); [|lia|].
  2: { rewrite Hp. constructor; [cbn; lia|]. apply not_Exists_Forall in Hno; [|apply _].
       eapply Forall_impl; [exact Hno|]. intros x Hx. cbn in Hx. lia. }
  destruct (morecore_spec s fl al n Hr Hm Hn Hsz) as [[E Href]|(s1 & fl1 & E & Hr1 & Hm1 & Hbig & Hk1 & Eb1)].
  { left. erewrite M_bind_run by exact E. done. }
  right. erewrite M_bind_run by exact E.
  assert (freep s1 ∈ base :: fl1.*1) as Hfin by apply Hr1.
  rewrite (proj2 (Z.eqb_neq _ 0)) by (pose proof (ring_positive base start Hbase s1 fl1 _ Hr1 Hfin); lia).
  destruct (round_split s1 fl1 Hr1) as (w1 & f1 & _ & _ & _ & _ & _ & _ & (q1 & Hq1 & _)).
  erewrite M_bind_run by (by eapply run_get_ptr).
  destruct (fit_took s1 fl1 al n (freep s1) q1 (fuel - S (length w))) as (s' & fl' & b & E' & _ & (T1 & T2 & T3 & T4)); eauto.
  - pose proof (blocks_fit _ _ _ Hm1) as Hbf1. rewrite Eb1 in Hbf1.
    replace ((brk s + HDR * Z.max n 4096) / HDR) with (brk s / HDR + Z.max n 4096) in Hbf1
      by (rewrite (Z.mul_comm HDR), Z.div_add; done).
    lia.
  - exists s', fl', b. split; [done|]. split; [done|]. split; [done|]. split; [done|].
    intros u Hu. rewrite T4, Hk1; done.
Qed.

Lemma units_small nbytes : 0 ≤ nbytes < 2 ^ 31 - 16 → units nbytes = (nbytes + 7) / 8 + 1.
Proof.
  intros Hn. unfold units, HDR. change (nbytes + 8 - 1) with (nbytes + 8 + -1). rewrite (u32_small (nbytes + _ + _)) by lia.
  rewrite u32_small; [do 2 f_equal; lia|]. Z.div_mod_to_equations; lia.
Qed.

(** A request below 2 GB on any state of the allocator. *)
Lemma malloc_correct s fl al nbytes : uinv s fl al → 0 ≤ nbytes < 2 ^ 31 - 16 →
  let n := units nbytes in
  (∃ s', malloc room fresh base nbytes s = Ret (0, s') ∧ uinv s' fl al ∧ refused s (HDR * Z.max n 4096) ∧
    ∀ u, u ∈ span al → hdr s' !! u = hdr s !! u) ∨
  (∃ s' fl' b, malloc room fresh base nbytes s = Ret (b + 1, s') ∧ 0 < b ∧ uinv s' fl' ((b, n) :: al) ∧
    nbytes ≤ HDR * (n - 1) ∧ ∀ u, u ∈ span al → hdr s' !! u = hdr s !! u).
Proof using All.
  intros [Hm Hcase] Hnb n. pose proof (units_small _ Hnb) as En. fold n in En.
  assert (1 ≤ n ∧ HDR * n < 2 ^ 31 ∧ nbytes ≤ HDR * (n - 1)) as (Hn & Hsz & Hpay).
  { rewrite En. unfold HDR. Z.div_mod_to_equations; lia. }
  unfold malloc. fold n. erewrite M_bind_run by reflexivity.
  assert (∃ s0, (if freep s =? 0 then set_freep base ;; set_ptr base base ;; set_hsize base 0 ;; mret base
             else mret (freep s)) s = Ret (freep s0, s0) ∧ ring base s0 fl ∧ mem_ok s0 fl al ∧ brk s0 = brk s ∧
             (∀ u, u ∈ span al → hdr s0 !! u = hdr s !! u) ∧ (uinv s0 fl al)) as (s0 & E0 & Hr0 & Hm0 & Eb0 & Hk0 & Hu0).
  { destruct Hcase as [[Hr Hnz]|(Hz & -> & ->)].
    - exists s. rewrite (proj2 (Z.eqb_neq _ 0)) by done. split_and!; try done. by split; [|left].
    - destruct (m_base _ _ _ Hm) as [[qb nb] Hb]. rewrite Hz, Z.eqb_refl.
      set (s0 := Heap (<[base := (base, 0)]> (hdr s)) base (brk s)). exists s0.
      assert (mem_ok s0 [] []) as Hm0.
      { destruct Hm as [Ht Hp Hh Hbs Hd Hbk]. split; try done.
        - intros a n0 Ha. by apply elem_of_nil in Ha.
        - cbn. rewrite lookup_insert_eq. eauto.
        - intros u Hu. cbn. rewrite lookup_insert_ne by (cbn in Hu; lia). by apply Hd. }
      assert (ring base s0 []) as Hr0.
      { split; cbn; [split; [apply lookup_insert_eq|done]|by split_and!|left|constructor]. }
      split; [|split_and!; try done; [|split; [done|left; split; [done|cbn; lia]]]].
      + erewrite M_bind_run by reflexivity. erewrite M_bind_run by (eapply run_set_ptr; exact Hb).
        erewrite M_bind_run by (eapply run_set_hsize; [apply lookup_insert_eq|unfold LIMIT; lia]).
        cbn [hdr freep brk]. by rewrite insert_insert_eq.
      + intros u Hu. cbn in Hu. by apply elem_of_nil in Hu. }
  erewrite M_bind_run by exact E0.
  destruct (round_split s0 fl Hr0) as (w & f & _ & _ & _ & _ & _ & _ & (q & Hq & _)).
  erewrite M_bind_run by (by eapply run_get_ptr). erewrite M_bind_run by reflexivity.
  destruct (loop_correct s0 fl al n (freep s0) q (Z.to_nat (2 * (brk s0 / HDR) + n + 4100))) as
    [[E Href]|(s' & fl' & b & E & (T1 & T2 & T3 & T4))]; try done; [by eexists|..].
  - left. exists s0. split; [done|]. split; [done|]. split; [|done]. unfold refused in *. by rewrite <-Eb0.
  - right. exists s', fl', b. split; [done|]. split; [done|]. split.
    + split; [done|]. left. split; [done|]. pose proof (r_freep _ _ _ T1) as Hf.
      pose proof (ring_positive base start Hbase s' fl' _ T1 Hf). lia.
    + split; [done|]. intros u Hu. rewrite T4, Hk0; done.
Qed.

(** *** [free] *)
Lemma free_correct s fl l1 b n l2 : uinv s fl (l1 ++ (b, n) :: l2) →
  ∃ s' fl', ufree (b + 1) s = Ret (tt, s') ∧ uinv s' fl' (l1 ++ l2) ∧
    ∀ u, u ∈ span (l1 ++ l2) → hdr s' !! u = hdr s !! u.
Proof using All.
  intros [Hm [[Hr Hnz]|(_ & _ & Hal)]]; [|by destruct l1].
  set (al := l1 ++ (b, n) :: l2) in *. assert ((b, n) ∈ al) as Hin by (apply elem_of_app; right; left).
  assert (span (fl ++ al) ≡ₚ (seqZ b n ++ span fl) ++ span (l1 ++ l2)) as Htile.
  { subst al. rewrite !span_app, span_cons, (Permutation_app_swap_app (span l1) (seqZ b n)).
    by rewrite (Permutation_app_swap_app (span fl)), <-app_assoc. }
  pose proof (tile_nodup _ _ _ Hm) as Hnd. rewrite Htile in Hnd.
  pose proof (block_inside s fl al b n Hm ltac:(apply elem_of_app; by right)) as (Hb1 & Hb2 & Hn).
  destruct (m_hdr _ _ _ Hm b n Hin) as [q Hq]. pose proof (top_range _ _ _ Hm) as [Ht Hbt].
  assert (Forall (λ c : header, c.1 + c.2 ≤ b ∨ b + n ≤ c.1) fl) as Hdis.
  { apply Forall_forall. intros [c k] Hc. cbn. pose proof (r_pos _ _ _ Hr) as Hp. rewrite Forall_forall in Hp.
    specialize (Hp _ Hc). cbn in Hp. destruct (decide (c + k ≤ b)); [by left|]. right. apply Z.le_ngt. intros Hlt.
    apply NoDup_app in Hnd as (Hnd & _). apply NoDup_app in Hnd as (_ & Hd & _).
    apply (Hd (Z.max b c)); [apply elem_of_seqZ; lia|]. apply elem_of_span. exists c, k. split; [done|lia]. }
  destruct (ufree_spec base start Hbase s fl b n q Hr Hq Hn Hb1 ltac:(lia) Hdis) as
    (s' & fl' & E & Hr' & Eb & Hsp & _ & Hfr & Hdm); [unfold HDR in *; lia|by eapply blocks_fit|].
  assert (∀ u, u ∈ span (l1 ++ l2) → hdr s' !! u = hdr s !! u) as Hkeep.
  { intros u Hu. assert (u ∈ span al) as Hua.
    { subst al. rewrite !span_app, span_cons, !elem_of_app in *. tauto. }
    destruct (allocated_unit s fl al u Hm Hua) as (H1 & H2 & _). apply Hfr. rewrite !not_elem_of_cons.
    split; [done|]. apply NoDup_app in Hnd as (_ & Hd & _). split.
    - intros ->. apply (Hd b); [apply elem_of_app; left; apply elem_of_seqZ; lia|done].
    - intros Hf. apply H2. eapply in_span; [exact Hbase|apply Hr|done]. }
  exists s', fl'. split; [done|]. split; [|done]. split.
  - split.
    + rewrite span_app, Hsp, Eb, <-Htile. apply (m_tile _ _ _ Hm).
    + apply Forall_app. split; [eapply Forall_impl; [exact (r_pos _ _ _ Hr')|]; by intros x [Hx _]|].
      pose proof (m_pos _ _ _ Hm) as Hp. subst al. apply Forall_app in Hp as [_ Hp].
      apply Forall_app in Hp as [? Hp]. apply Forall_cons in Hp as [_ ?]. by apply Forall_app.
    + intros a k Ha. assert ((a, k) ∈ al) as Ha' by (subst al; rewrite elem_of_app, elem_of_cons in *; tauto).
      rewrite Hkeep; [by apply (m_hdr _ _ _ Hm)|]. apply elem_of_span. exists a, k. split; [done|].
      pose proof (block_inside s fl al a k Hm ltac:(apply elem_of_app; by right)). lia.
    + apply Hdm, (m_base _ _ _ Hm).
    + intros u Hu. rewrite Eb in Hu. by apply Hdm, (m_dom _ _ _ Hm).
    + rewrite Eb. apply (m_brk _ _ _ Hm).
  - left. split; [done|]. pose proof (ring_positive base start Hbase s' fl' _ Hr' (r_freep _ _ _ Hr')). lia.
Qed.

(** ** Programs *)

(** A program allocates (less than 2 GB at once), frees blocks it has, and
    writes to the memory of its blocks; [al] are the blocks it has. *)
Inductive ustep : heap * list header → heap * list header → Prop :=
  | us_malloc s al nbytes r s' : 0 ≤ nbytes < 2 ^ 31 - 16 → malloc room fresh base nbytes s = Ret (r, s') →
      ustep (s, al) (s', if r =? 0 then al else (r - 1, units nbytes) :: al)
  | us_free s l1 b n l2 s' : ufree (b + 1) s = Ret (tt, s') →
      ustep (s, l1 ++ (b, n) :: l2) (s', l1 ++ l2)
  | us_write s al a n u v : (a, n) ∈ al → a < u < a + n →
      ustep (s, al) (Heap (<[u := v]> (hdr s)) (freep s) (brk s), al).

Definition start_ok (s : heap) : Prop :=
  freep s = 0 ∧ brk s = HDR * start ∧ HDR * start ≤ KERNBASE ∧ is_Some (hdr s !! base).

Lemma uheap_start_inv s : start_ok s → uinv s [] [].
Proof using All.
  intros (Hf & Hb & Hk & Hbs). split; [|by right].
  assert (brk s / HDR = start) as Et by (rewrite Hb, Z.mul_comm; by apply Z.div_mul).
  split; try done.
  - rewrite Et, Z.sub_diag. done.
  - intros a n Ha. by apply elem_of_nil in Ha.
  - rewrite Et. lia.
  - rewrite Hb at 1. rewrite Z.mul_comm, Z_mod_mult. split; [done|lia].
Qed.

Lemma ustep_inv x y fl : ustep x y → uinv x.1 fl x.2 → ∃ fl', uinv y.1 fl' y.2.
Proof using All.
  destruct 1 as [s al nbytes r s' Hn E|s l1 b n l2 s' E|s al a n u v Ha Hu]; cbn [fst snd]; intros Hi.
  - destruct (malloc_correct s fl al nbytes Hi Hn) as [(s1 & E1 & Hi1 & _)|(s1 & fl1 & b & E1 & Hb & Hi1 & _)];
      rewrite E in E1; injection E1 as -> ->.
    + by exists fl.
    + exists fl1. rewrite (proj2 (Z.eqb_neq _ _)), Z.add_simpl_r by lia. done.
  - destruct (free_correct s fl l1 b n l2 Hi) as (s1 & fl1 & E1 & Hi1 & _). rewrite E in E1. injection E1 as <-.
    by exists fl1.
  - exists fl. destruct Hi as [Hm Hc]. assert (u ∈ span al) as Hus by (apply elem_of_span; exists a, n; split; [done|lia]).
    destruct (allocated_unit s fl al u Hm Hus) as (H1 & H2 & H3). split.
    + destruct Hm as [Ht Hp Hh Hbs Hd Hbk]. split; cbn; try done.
      * intros c k Hc'. rewrite lookup_insert_ne; [by apply Hh|]. intros ->.
        assert (mem_ok s fl al) as Hm by done. pose proof (tile_nodup _ _ _ Hm) as Hnd. rewrite span_app in Hnd.
        apply NoDup_app in Hnd as (_ & _ & Hnd). pose proof (block_inside s fl al c k Hm ltac:(apply elem_of_app; by right)).
        assert ((c, k) ≠ (a, n)) as Hne by (intros [= -> ->]; lia).
        apply list_elem_of_split in Hc' as (k1 & k2 & ->).
        assert ((a, n) ∈ k1 ++ k2) as Ha' by (rewrite elem_of_app, elem_of_cons in *; naive_solver).
        assert (NoDup (span ([(c, k)] ++ (k1 ++ k2)))) as Hnd'.
        { assert ((c, k) :: (k1 ++ k2) ≡ₚ k1 ++ (c, k) :: k2) as Hpm by apply Permutation_middle.
          change (NoDup (span ((c, k) :: (k1 ++ k2)))). by rewrite (span_perm _ _ Hpm). }
        eapply (tiling_disjoint _ _ c _ _ Hnd'); [left|exact Ha'|cbn; lia|cbn; lia].
      * rewrite lookup_insert_ne by done. done.
      * intros w Hw. destruct (decide (w = u)) as [->|]; [rewrite lookup_insert_eq; eauto|].
        rewrite lookup_insert_ne by done. by apply Hd.
    + destruct Hc as [[[Hs Hap Hf Hps] Hz]|(_ & _ & ->)]; [|by apply elem_of_nil in Ha]. left. split; [|done]. split; try done.
      cbn [hdr]. apply seg_insert; [|done]. cbn. apply not_elem_of_cons. split; [done|]. intros Hin. apply H2.
      eapply in_span; [exact Hbase|done|done].
Qed.

Lemma usteps_inv s0 s al : start_ok s0 → rtc ustep (s0, []) (s, al) → ∃ fl, uinv s fl al.
Proof using All.
  intros H0 Hr. change (∃ fl, uinv (s, al).1 fl (s, al).2). assert (∃ fl, uinv (s0, @nil header).1 fl (s0, []).2) as Hi.
  { exists []. by apply uheap_start_inv. }
  induction Hr as [|x y z Hxy _ IH]; [done|]. destruct Hi as [fl Hi]. apply IH. by eapply ustep_inv.
Qed.

(** C29. The user allocator is safe and loses nothing: whatever a program does
    with [malloc], [free] and the memory it was given, the free and the
    allocated blocks tile the memory obtained from the kernel (each unit is in
    exactly one block) and no two free blocks are adjacent; the next [malloc]
    of less than 2 GB returns, with NULL only if the kernel refuses to grow the
    process, otherwise with a block of at least the bytes asked for, disjoint
    from all others; the next [free] of any block returns; neither changes the
    memory or the header of another block. *)
Theorem umalloc_safe s0 s al : start_ok s0 → rtc ustep (s0, []) (s, al) →
  (∃ fl, span (fl ++ al) ≡ₚ seqZ start (brk s / HDR - start) ∧ apart fl) ∧
  (∀ nbytes, 0 ≤ nbytes < 2 ^ 31 - 16 → let n := units nbytes in ∃ r s', malloc room fresh base nbytes s = Ret (r, s') ∧
     (∀ u, u ∈ span al → hdr s' !! u = hdr s !! u) ∧
     (r = 0 ∧ refused s (HDR * Z.max n 4096) ∨
      start ≤ r - 1 ∧ r - 1 + n ≤ brk s' / HDR ∧ nbytes ≤ HDR * (n - 1) ∧ NoDup (span ((r - 1, n) :: al)))) ∧
  (∀ l1 b n l2, al = l1 ++ (b, n) :: l2 → ∃ s', ufree (b + 1) s = Ret (tt, s') ∧
     ∀ u, u ∈ span (l1 ++ l2) → hdr s' !! u = hdr s !! u).
Proof using All.
  intros H0 Hr. destruct (usteps_inv s0 s al H0 Hr) as [fl Hi]. split; [|split].
  - exists fl. destruct Hi as [Hm Hc]. split; [apply (m_tile _ _ _ Hm)|].
    destruct Hc as [[Hrg _]|(_ & -> & _)]; [by destruct (r_apart _ _ _ Hrg) as (_ & _ & ?)|done].
  - intros nbytes Hn n. destruct (malloc_correct s fl al nbytes Hi Hn) as [(s' & E & _ & Href & Hk)|(s' & fl' & b & E & Hb & [Hm _] & Hp & Hk)].
    + exists 0, s'. split; [done|]. split; [done|by left].
    + exists (b + 1), s'. split; [done|]. split; [done|]. right. rewrite Z.add_simpl_r.
      pose proof (block_inside s' fl' _ b n Hm ltac:(apply elem_of_app; right; left)) as (? & ? & _).
      split; [done|]. split; [done|]. split; [done|]. pose proof (tile_nodup _ _ _ Hm) as Hnd. rewrite span_app in Hnd.
      by apply NoDup_app in Hnd as (_ & _ & ?).
  - intros l1 b n l2 ->. destruct (free_correct s fl l1 b n l2 Hi) as (s' & fl' & E & _ & Hk). by exists s'.
Qed.
End client.

(** ** Examples *)
Definition demo_heap : heap := Heap {[2 := (0, 0)]} 0 (HDR * 10).

Lemma demo_heap_ok : start_ok 2 10 demo_heap.
Proof. split; [done|]. split; [done|]. split; [done|]. by exists (0, 0). Qed.

Lemma umalloc_safe_witness : start_ok 2 10 demo_heap ∧
  ∃ r s', malloc (λ _, true) (λ _, (0, 0)) 2 100 demo_heap = Ret (r, s') ∧ 10 ≤ r - 1.
Proof.
  split; [exact demo_heap_ok|].
  destruct (umalloc_safe 2 10 ltac:(lia) (λ _, true) (λ _, (0, 0)) demo_heap demo_heap [] demo_heap_ok (rtc_refl _ _)) as (_ & Hm & _).
  destruct (Hm 100 ltac:(lia)) as (r & s' & E & _ & Hor). exists r, s'. split; [exact E|].
  clear E Hm. destruct Hor as [[_ [H|H]]|[Hr _]]; [exfalso|discriminate H|exact Hr].
  revert H. vm_compute. congruence.
Defined.

(** Close to 4 GB the number of units wraps around: the block returned holds
    nothing. *)
Lemma malloc_size_wraps : units (2 ^ 32 - 1) = 1.
Proof. reflexivity. Qed.
