(* ===== verification/Grep.v ===== *)
(** * The user program [grep] (xv6 [grep.c])

    Strings are lists of their characters without the final NUL, so [*p == 0]
    is emptiness of the rest.  [read] is a system call: its result, the number
    of characters it delivers of those that are left, is a parameter. *)

From stdpp Require Import base numbers list.
From S2P Require Import Prelude.

Open Scope Z_scope.

Definition caret : Z := 94.
Definition dollar : Z := 36.
Definition dot : Z := 46.
Definition star : Z := 42.
Definition newline : Z := 10.

(** ** The matcher *)

(** The loop of [matchstar(c, re, text)]; [here] is [matchhere re]. *)
Definition matchstar_loop (here : list Z → bool) (c : Z) : list Z → bool :=
  fix loop text :=
    if here text then true
    else match text with
         | [] => false
         | t :: text => if (t =? c) || (c =? dot) then loop text else false
         end.

Fixpoint matchhere (re : list Z) (text : list Z) : bool :=
  match re with
  | [] => true
  | c :: re1 =>
      let single :=
        match text with
        | t :: text => if (c =? dot) || (c =? t) then matchhere re1 text else false
        | [] => false
        end in
      match re1 with
      | [] => if c =? dollar then (match text with [] => true | _ => false end) else single
      | d :: re2 => if d =? star then matchstar_loop (matchhere re2) c text else single
      end
  end.

Definition matchstar (c : Z) (re text : list Z) : bool := matchstar_loop (matchhere re) c text.

Fixpoint match_loop (re text : list Z) : bool :=
  if matchhere re text then true
  else match text with
       | [] => false
       | _ :: text => match_loop re text
       end.
Definition match_ (re text : list Z) : bool :=
  match re with
  | c :: re1 => if c =? caret then matchhere re1 text else match_loop re text
  | [] => match_loop re text
  end.

(** ** The line loop *)

(** [strchr(p, '\n')]: the characters before the newline and behind it. *)
Fixpoint strchr_nl (p : list Z) : option (list Z * list Z) :=
  match p with
  | [] => None
  | c :: p =>
      if c =? newline then Some ([], p)
      else '(line, rest) ← strchr_nl p; Some (c :: line, rest)
  end.

(** The inner loop: the characters written, and the rest behind the last newline. *)
Fixpoint lines_loop (pattern p : list Z) (fuel : nat) : outcome (list Z * list Z) :=
  match strchr_nl p with
  | None => Ret ([], p)
  | Some (line, rest) =>
      match fuel with
      | O => NoFuel
      | S fuel =>
          '(out, p') ← lines_loop pattern rest fuel;
          Ret ((if match_ pattern line then line ++ [newline] else []) ++ out, p')
      end
  end.

Definition BUFSZ : nat := 1024.

Section grep.
(** [read max rest]: how many of the characters [rest] that are left the call
    [read(fd, _, max)] delivers. *)
Context (read : nat → list Z → nat).

(** [buf] is [buf[0..m-1]], [rest] what was not read yet. *)
Fixpoint grep_loop (pattern buf rest : list Z) (fuel : nat) : outcome (list Z) :=
  let n := read (BUFSZ - length buf - 1)%nat rest in
  match n with
  | O => Ret []
  | S _ =>
      match fuel with
      | O => NoFuel
      | S fuel =>
          let buf := buf ++ take n rest in
          '(out, p) ← lines_loop pattern buf (length buf);
          let kept := if (length p =? length buf)%nat then [] else p in
          out' ← grep_loop pattern kept (drop n rest) fuel;
          Ret (out ++ out')
      end
  end.
(** Every round consumes a character. *)
Definition grep (pattern input : list Z) : outcome (list Z) :=
  grep_loop pattern [] input (length input).

(** How the program ends, besides what it has written. *)
Inductive ending := Done | Usage | CannotOpen (name : list Z).

(** The arguments behind the pattern, with the files they open. *)
Fixpoint grep_args (pattern : list Z) (args : list (list Z * option (list Z))) : outcome (list Z * ending) :=
  match args with
  | [] => Ret ([], Done)
  | (name, None) :: _ => Ret ([], CannotOpen name)
  | (_, Some input) :: args =>
      out ← grep pattern input;
      '(out', fin) ← grep_args pattern args;
      Ret (out ++ out', fin)
  end.
Definition main (pattern : option (list Z)) (args : list (list Z * option (list Z))) (stdin : list Z) : outcome (list Z * ending) :=
  match pattern with
  | None => Ret ([], Usage)
  | Some pattern =>
      match args with
      | [] => out ← grep pattern stdin; Ret (out, Done)
      | _ => grep_args pattern args
      end
  end.
End grep.

(** ** The language of a pattern *)
Inductive token := One (c : Z) | Many (c : Z).

(** The tokens of a pattern, and whether it ends in an anchoring [$]. *)
Fixpoint tokens (re : list Z) : list token * bool :=
  match re with
  | [] => ([], false)
  | c :: re1 =>
      match re1 with
      | [] => if c =? dollar then ([], true) else ([One c], false)
      | d :: re2 =>
          if d =? star then let '(ts, e) := tokens re2 in (Many c :: ts, e)
          else let '(ts, e) := tokens re1 in (One c :: ts, e)
      end
  end.

(** A pattern character matches itself, a dot every character. *)
Definition accepts (c t : Z) : Prop := c = dot ∨ c = t.

Inductive lang : list token → list Z → Prop :=
  | lang_nil : lang [] []
  | lang_one c t ts w : accepts c t → lang ts w → lang (One c :: ts) (t :: w)
  | lang_many c us ts w : Forall (accepts c) us → lang ts w → lang (Many c :: ts) (us ++ w).

(** [text] begins with a word of the pattern. *)
Definition prefix_match (re text : list Z) : Prop :=
  ∃ w post, text = w ++ post ∧ lang (tokens re).1 w ∧ ((tokens re).2 = true → post = []).
(** Some place of [text] has a word of the pattern. *)
Definition matches (re text : list Z) : Prop :=
  match re with
  | c :: re1 => if c =? caret then prefix_match re1 text
                else ∃ pre rest, text = pre ++ rest ∧ prefix_match re rest
  | [] => True
  end.

(** ** The matcher decides the language *)
Lemma prefix_match_nil text : prefix_match [] text.
Proof. exists [], text. split_and!; [done|constructor|done]. Qed.

Lemma prefix_match_dollar text : prefix_match [dollar] text ↔ text = [].
Proof.
  split; [|by intros ->; exists [], []; split_and!; [|constructor|]].
  intros (w & post & -> & Hl & Hp). inversion Hl; subst. by rewrite Hp.
Qed.

Lemma prefix_match_one c re text :
  (tokens (c :: re) = let '(ts, e) := tokens re in (One c :: ts, e)) →
  prefix_match (c :: re) text ↔ ∃ t text', text = t :: text' ∧ accepts c t ∧ prefix_match re text'.
Proof.
  intros Et. unfold prefix_match. rewrite Et. destruct (tokens re) as [ts e]. cbn [fst snd]. split.
  - intros (w & post & -> & Hl & Hp). inversion Hl; subst. eauto 10.
  - intros (t & text' & -> & Ha & w & post & -> & Hl & Hp). exists (t :: w), post.
    split_and!; [done|by constructor|done].
Qed.

Lemma prefix_match_many c re text :
  prefix_match (c :: star :: re) text ↔
  ∃ us rest, text = us ++ rest ∧ Forall (accepts c) us ∧ prefix_match re rest.
Proof.
  unfold prefix_match. cbn [tokens]. rewrite Z.eqb_refl. destruct (tokens re) as [ts e]. cbn [fst snd]. split.
  - intros (w & post & -> & Hl & Hp). inversion Hl; subst. rewrite <-app_assoc. eauto 10.
  - intros (us & rest & -> & Hu & w & post & -> & Hl & Hp). exists (us ++ w), post.
    split_and!; [by rewrite app_assoc|by constructor|done].
Qed.

Lemma accepts_bool c t : (t =? c) || (c =? dot) = true ↔ accepts c t.
Proof. unfold accepts. rewrite orb_true_iff, !Z.eqb_eq. naive_solver. Qed.

Lemma matchstar_loop_spec (here : list Z → bool) (P : list Z → Prop) c text :
  (∀ text, here text = true ↔ P text) →
  matchstar_loop here c text = true ↔
  ∃ us rest, text = us ++ rest ∧ Forall (accepts c) us ∧ P rest.
Proof.
  intros Hh. induction text as [|t text IH]; cbn [matchstar_loop].
  - destruct (here []) eqn:E; split; try done.
    + intros _. exists [], []. by rewrite <-Hh.
    + intros (us & rest & En & _ & HP). symmetry in En. apply app_nil in En as [-> ->].
      apply Hh in HP. congruence.
  - destruct (here (t :: text)) eqn:E.
    { split; [intros _|done]. exists [], (t :: text). by rewrite <-Hh. }
    destruct ((t =? c) || (c =? dot)) eqn:Ea.
    + rewrite IH. apply accepts_bool in Ea. split.
      * intros (us & rest & -> & Hu & HP). exists (t :: us), rest. split_and!; [done|by constructor|done].
      * intros (us & rest & En & Hu & HP). destruct us as [|u us].
        { cbn in En. subst rest. apply Hh in HP. congruence. }
        injection En as -> ->. apply Forall_cons in Hu as [_ Hu]. eauto.
    + split; [done|]. intros (us & rest & En & Hu & HP). destruct us as [|u us].
      { cbn in En. subst rest. apply Hh in HP. congruence. }
      injection En as -> ->. apply Forall_cons in Hu as [Hu _]. apply accepts_bool in Hu. congruence.
Qed.

Lemma single_spec c re text :
  (∀ text, matchhere re text = true ↔ prefix_match re text) →
  (match text with
   | t :: text => if (c =? dot) || (c =? t) then matchhere re text else false
   | [] => false
   end) = true ↔ ∃ t text', text = t :: text' ∧ accepts c t ∧ prefix_match re text'.
Proof.
  intros IH. destruct text as [|t text]; [naive_solver|]. split.
  - case_if as E; [|done]. rewrite IH. intros Hp. exists t, text. split_and!; [done| |done].
    apply orb_true_iff in E. unfold accepts. by rewrite !Z.eqb_eq in E.
  - intros (t' & text' & [= <- <-] & Ha & Hp). apply IH in Hp.
    assert ((c =? dot) || (c =? t) = true) as ->; [|done].
    apply orb_true_iff. rewrite !Z.eqb_eq. exact Ha.
Qed.

Lemma matchhere_cons c re text :
  matchhere (c :: re) text =
    let single :=
      match text with
      | t :: text => if (c =? dot) || (c =? t) then matchhere re text else false
      | [] => false
      end in
    match re with
    | [] => if c =? dollar then (match text with [] => true | _ => false end) else single
    | d :: re2 => if d =? star then matchstar_loop (matchhere re2) c text else single
    end.
Proof. done. Qed.

Lemma matchhere_spec re : ∀ text, matchhere re text = true ↔ prefix_match re text.
Proof.
  induction re as [re IH] using (induction_ltof1 _ length). unfold ltof in IH. intros text.
  destruct re as [|c re1]; [split; [intros _; apply prefix_match_nil|done]|].
  rewrite matchhere_cons. destruct re1 as [|d re2]; cbv zeta iota.
  - destruct (c =? dollar) eqn:Ec; bool_to_prop.
    + subst c. rewrite prefix_match_dollar. by destruct text.
    + rewrite prefix_match_one; [|cbn [tokens]; apply Z.eqb_neq in Ec; by rewrite Ec].
      apply single_spec, IH. cbn. lia.
  - destruct (d =? star) eqn:Ed; bool_to_prop.
    + subst d. rewrite prefix_match_many. apply matchstar_loop_spec. apply IH. cbn. lia.
    + rewrite prefix_match_one; [|cbn [tokens]; apply Z.eqb_neq in Ed; by rewrite Ed].
      apply single_spec, IH. cbn. lia.
Qed.

Lemma match_loop_spec re text :
  match_loop re text = true ↔ ∃ pre rest, text = pre ++ rest ∧ prefix_match re rest.
Proof.
  induction text as [|t text IH]; cbn [match_loop];
    (destruct (matchhere re _) eqn:E;
     [apply matchhere_spec in E; split; [intros _; by eexists [], _|done]|]).
  - split; [done|]. intros (pre & rest & En & Hp). symmetry in En. apply app_nil in En as [-> ->].
    apply matchhere_spec in Hp. congruence.
  - rewrite IH. split.
    + intros (pre & rest & -> & Hp). by exists (t :: pre), rest.
    + intros (pre & rest & En & Hp). destruct pre as [|u pre].
      { cbn in En. subst rest. apply matchhere_spec in Hp. congruence. }
      injection En as -> ->. eauto.
Qed.

Lemma match_spec re text : match_ re text = true ↔ matches re text.
Proof.
  destruct re as [|c re]; cbn [match_ matches].
  - split; [done|]. intros _. by destruct text.
  - case_if; [apply matchhere_spec|apply match_loop_spec].
Qed.

(** ** The lines of the input *)

(** The complete lines, and what follows the last newline. *)
Fixpoint lines (s : list Z) : list (list Z) * list Z :=
  match s with
  | [] => ([], [])
  | c :: s =>
      let '(ls, r) := lines s in
      if c =? newline then ([] :: ls, r)
      else match ls with
           | [] => ([], c :: r)
           | l :: ls => ((c :: l) :: ls, r)
           end
  end.
(** What [grep] is to print of them. *)
Definition selected (pattern : list Z) (ls : list (list Z)) : list Z :=
  ls ≫= λ l, if match_ pattern l then l ++ [newline] else [].

Lemma strchr_nl_lines p :
  match strchr_nl p with
  | None => lines p = ([], p)
  | Some (line, rest) => p = line ++ newline :: rest ∧ lines p = (line :: (lines rest).1, (lines rest).2)
  end.
Proof.
  induction p as [|c p IH]; [done|]. cbn [strchr_nl lines].
  destruct (c =? newline) eqn:Ec; bool_to_prop.
  - subst c. split; [done|]. by destruct (lines p).
  - destruct (strchr_nl p) as [[line rest]|]; cbn [mbind option_bind].
    + destruct IH as [-> ->]. done.
    + by rewrite IH.
Qed.

Lemma lines_loop_spec pattern n : ∀ p, (length p ≤ n)%nat →
  lines_loop pattern p n = Ret (selected pattern (lines p).1, (lines p).2).
Proof.
  induction n as [|n IH]; intros p Hl; cbn [lines_loop]; pose proof (strchr_nl_lines p) as Hs;
    destruct (strchr_nl p) as [[line rest]|].
  - destruct Hs as [-> _]. rewrite length_app in Hl. cbn in Hl. lia.
  - by rewrite Hs.
  - destruct Hs as [-> ->]. rewrite length_app in Hl. cbn in Hl. rewrite IH by lia. done.
  - by rewrite Hs.
Qed.

Lemma lines_app p q :
  lines (p ++ q) =
    ((lines p).1 ++ (lines ((lines p).2 ++ q)).1, (lines ((lines p).2 ++ q)).2).
Proof.
  induction p as [|c p IH]; cbn [app lines]; [apply surjective_pairing|].
  rewrite IH. destruct (lines p) as [ls r]. cbn [fst snd]. case_if as E; [done|].
  destruct ls as [|l ls]; [|done]. cbn [app fst snd lines].
  destruct (lines (r ++ q)) as [[|l ls] r'] eqn:El; cbn; by (apply Z.eqb_neq in E; rewrite E).
Qed.

(** The rest holds no newline. *)
Lemma lines_rest s : lines (lines s).2 = ([], (lines s).2).
Proof.
  induction s as [|c s IH]; [done|]. cbn [lines]. destruct (lines s) as [ls r]. cbn [snd] in *.
  case_if as E; [done|]. destruct ls; [|done]. cbn [snd lines]. rewrite IH.
  apply Z.eqb_neq in E. by rewrite E.
Qed.

Lemma lines_rest_length s :
  (length (lines s).2 ≤ length s)%nat ∧ (length (lines s).2 = length s → (lines s).1 = []).
Proof.
  induction s as [|c s [IH1 IH2]]; [done|]. cbn [lines]. destruct (lines s) as [ls r]. cbn [fst snd] in *.
  case_if; [|destruct ls]; cbn; (split; [lia|]); intros ?; (done || lia).
Qed.

Lemma lines_none_rest s : (lines s).1 = [] → (lines s).2 = s.
Proof.
  induction s as [|c s IH]; [done|]. cbn [lines]. destruct (lines s) as [ls r]. cbn [fst snd] in *.
  case_if; [done|]. destruct ls; cbn; [|done]. intros _. by rewrite IH.
Qed.

(** A newline-free start makes the first line at least that long. *)
Lemma lines_long p q : (lines p).1 = [] →
  match (lines (p ++ q)).1 with
  | [] => (lines q).1 = []
  | l :: _ => (length p ≤ length l)%nat
  end.
Proof.
  revert q. induction p as [|c p IH]; intros q Hp; cbn [app].
  { destruct (lines q).1 eqn:E; [done|cbn; lia]. }
  cbn [lines] in *. destruct (lines p) as [ls r] eqn:Ep. cbn [fst] in *.
  destruct (c =? newline); [done|]. destruct ls; [|done]. specialize (IH q eq_refl).
  destruct (lines (p ++ q)) as [[|l ls] r']; cbn in *; [done|lia].
Qed.

(** ** The line loop *)

(** [read] of a regular file delivers all it is asked for or all that is left. *)
Definition regular (read : nat → list Z → nat) : Prop :=
  ∀ max rest, read max rest = (max `min` length rest)%nat.
(** The buffer has room for the complete lines of the input. *)
Definition short_lines (s : list Z) : Prop := Forall (λ l, (length l < BUFSZ - 1)%nat) (lines s).1.

Lemma selected_app pattern ls ls' : selected pattern (ls ++ ls') = selected pattern ls ++ selected pattern ls'.
Proof. apply bind_app. Qed.

(** What the discarded buffer loses, when lines are short: nothing. *)
Lemma discard_ok buf rest :
  (lines buf).1 = [] → rest = [] ∨ length buf = (BUFSZ - 1)%nat → short_lines (buf ++ rest) →
  (lines (buf ++ rest)).1 = (lines rest).1.
Proof.
  intros Hb [->|Hl] Hs; [by rewrite app_nil_r|].
  pose proof (lines_long buf rest Hb) as H. unfold short_lines in Hs.
  destruct (lines (buf ++ rest)).1 as [|l ls]; [done|]. apply Forall_cons in Hs as [Hs _]. lia.
Qed.

Lemma grep_loop_spec read pattern : regular read → ∀ fuel buf rest,
  (lines buf).1 = [] → (length buf < BUFSZ - 1)%nat → (length rest ≤ fuel)%nat →
  short_lines (buf ++ rest) →
  grep_loop read pattern buf rest fuel = Ret (selected pattern (lines (buf ++ rest)).1).
Proof.
  intros Hread. induction fuel as [|fuel IH]; intros buf rest Hb Hl Hf Hs; cbn [grep_loop]; rewrite Hread.
  { destruct rest; [|cbn in Hf; lia]. rewrite Nat.min_0_r, app_nil_r, Hb. done. }
  set (n := ((BUFSZ - length buf - 1) `min` length rest)%nat). destruct n as [|k] eqn:En.
  { destruct rest; [|unfold n in En; cbn [length] in En; lia]. by rewrite app_nil_r, Hb. }
  rewrite <-En in *. set (buf' := buf ++ take n rest).
  assert (buf ++ rest = buf' ++ drop n rest) as Eq by (unfold buf'; by rewrite <-app_assoc, take_drop).
  rewrite Eq in *. clear Eq. rewrite lines_loop_spec by done. cbn [mbind outcome_bind].
  assert (length buf' = length buf + n)%nat as Hb' by (unfold buf'; rewrite length_app, length_take; lia).
  assert (length (drop n rest) ≤ fuel)%nat as Hd by (rewrite length_drop; lia).
  destruct (lines_rest_length buf') as [Hle Heq].
  destruct (length (lines buf').2 =? length buf')%nat eqn:Ek.
  - apply Nat.eqb_eq, Heq in Ek. rewrite Ek. cbn [selected mbind list_bind app].
    assert (drop n rest = [] ∨ length buf' = (BUFSZ - 1)%nat) as Hor.
    { destruct (decide (n = length rest)); [left; apply drop_ge; lia|right; lia]. }
    pose proof (discard_ok _ _ Ek Hor Hs) as Hsame. rewrite IH; [cbn [app mbind outcome_bind]; by rewrite Hsame|done| |done|cbn [app]].
    + unfold BUFSZ. cbn. lia.
    + unfold short_lines in *. by rewrite <-Hsame.
  - apply Nat.eqb_neq in Ek. rewrite lines_app. cbn [fst]. rewrite selected_app.
    unfold short_lines in Hs. rewrite lines_app in Hs. cbn [fst] in Hs. apply Forall_app in Hs as [_ Hs].
    rewrite IH; [done|by rewrite lines_rest|lia|done|done].
Qed.

(** The lines that match. *)
Definition matching (pattern input : list Z) : list Z :=
  concat ((λ l, l ++ [newline]) <$> filter (λ l, match_ pattern l = true) (lines input).1).

Lemma grep_lines read pattern input : regular read → short_lines input →
  grep read pattern input = Ret (matching pattern input).
Proof.
  intros Hr Hs. unfold grep, matching.
  rewrite grep_loop_spec; [cbn [app]|done|done|unfold BUFSZ; cbn; lia|done|done].
  f_equal. generalize (lines input).1 as ls. intros ls. unfold selected.
  induction ls as [|l ls IH]; [done|]. rewrite bind_cons, IH, filter_cons.
  destruct (match_ pattern l); by case_decide.
Qed.



(** When [read] delivers a line in parts, as it may for a pipe, the parts
    without a newline are dropped ([if(p == buf) m = 0]): the matching line
    "ab" is not printed. *)
Example grep_drops_partial_lines :
  grep (λ max rest, 1 `min` max `min` length rest)%nat [97] [97; 98; 10] = Ret [].
Proof. by vm_compute. Qed.

(** The program writes the matching lines of its files one after the other. *)
Lemma grep_main_correct read pattern args inputs stdin : regular read → args ≠ [] →
  Forall2 (λ a i, a.2 = Some i ∧ short_lines i) args inputs →
  main read (Some pattern) args stdin = Ret (concat (matching pattern <$> inputs), Done).
Proof.
  intros Hr Hne H. unfold main. destruct args as [|a args]; [done|]. clear Hne.
  induction H as [|[n f] i args' inputs [E Hs] _ IH]; [done|]. cbn in E. subst f. cbn [grep_args fmap list_fmap concat].
  rewrite (grep_lines read pattern i Hr Hs). cbn [mbind outcome_bind]. by rewrite IH.
Qed.
