(* ===== verification/Proc.v ===== *)
(** * Processes (xv6 [proc.c], [proc.h])

    The process table is an array of [NPROC] entries guarded by one lock.  The
    code between an [acquire(&ptable.lock)] and its [release], or between two
    context switches, is one atomic step; what a system call does without the
    lock touches only its own process and the entry it is creating.  A pointer
    to a process is its index.  Calls into other components (files, inodes,
    pages) are recorded as a list of effects; what those components answer
    ([kalloc], [copyuvm]) is an argument. *)

From stdpp Require Import base numbers list gmap sets strings relations.
From S2P Require Import Prelude.

Open Scope Z_scope.

(** ** Data *)
Definition NPROC : nat := 64.
Definition NOFILE : nat := 16.

Inductive procstate := UNUSED | EMBRYO | SLEEPING | RUNNABLE | RUNNING | ZOMBIE.
#[export] Instance procstate_eq_dec : EqDecision procstate.
Proof. solve_decision. Defined.

(** Sleep channels are addresses: of a process, of something else, or null. *)
Inductive chan := Null | ProcAddr (p : nat) | Addr (a : Z).
#[export] Instance chan_eq_dec : EqDecision chan.
Proof. solve_decision. Defined.

(** The registers of a trap frame the code names; [others] are the rest. *)
Record trapframe := TrapFrame {
  eax : Z; eip : Z; esp : Z; cs : Z; ds : Z; es : Z; ss : Z; eflags : Z; others : list Z
}.

(** [name] is the string up to its NUL. *)
Record proc := Proc {
  sz : Z; pgdir : Z; kstack : Z; state : procstate; pid : Z; parent : option nat; tf : trapframe;
  chan_ : chan; killed : Z; ofile : list (option nat); cwd : option nat; name : list Z
}.

Record ptable := PTable { procs : list proc; initproc : option nat; nextpid : Z }.

Definition set_procs (t : ptable) (l : list proc) : ptable := PTable l (initproc t) (nextpid t).

Definition set_state (p : proc) (s : procstate) : proc :=
  Proc (sz p) (pgdir p) (kstack p) s (pid p) (parent p) (tf p) (chan_ p) (killed p) (ofile p) (cwd p) (name p).
Definition set_chan (p : proc) (c : chan) : proc :=
  Proc (sz p) (pgdir p) (kstack p) (state p) (pid p) (parent p) (tf p) c (killed p) (ofile p) (cwd p) (name p).
Definition set_kstack (p : proc) (k : Z) : proc :=
  Proc (sz p) (pgdir p) k (state p) (pid p) (parent p) (tf p) (chan_ p) (killed p) (ofile p) (cwd p) (name p).
Definition set_pid (p : proc) (n : Z) : proc :=
  Proc (sz p) (pgdir p) (kstack p) (state p) n (parent p) (tf p) (chan_ p) (killed p) (ofile p) (cwd p) (name p).
Definition set_parent (p : proc) (q : option nat) : proc :=
  Proc (sz p) (pgdir p) (kstack p) (state p) (pid p) q (tf p) (chan_ p) (killed p) (ofile p) (cwd p) (name p).
Definition set_killed (p : proc) (k : Z) : proc :=
  Proc (sz p) (pgdir p) (kstack p) (state p) (pid p) (parent p) (tf p) (chan_ p) k (ofile p) (cwd p) (name p).
Definition set_files (p : proc) (o : list (option nat)) (c : option nat) : proc :=
  Proc (sz p) (pgdir p) (kstack p) (state p) (pid p) (parent p) (tf p) (chan_ p) (killed p) o c (name p).
Definition set_sz (p : proc) (n : Z) : proc :=
  Proc n (pgdir p) (kstack p) (state p) (pid p) (parent p) (tf p) (chan_ p) (killed p) (ofile p) (cwd p) (name p).

Definition upd (t : ptable) (i : nat) (f : proc → proc) : ptable :=
  set_procs t (alter f i (procs t)).

(** Calls into the other components; [FileGet] and [IGet] are the references
    that opening a file or looking up a directory made. *)
Inductive effect :=
  | FileGet (f : nat) | FileDup (f : nat) | FileClose (f : nat)
  | IGet (ip : nat) | IDup (ip : nat) | IPut (ip : nat)
  | KFree (page : Z) | FreeVm (pg : Z).

(** ** Allocation ([allocproc], [userinit], [fork]) *)

(** The first entry that satisfies [f]. *)
Fixpoint find_proc (f : proc → bool) (l : list proc) (i : nat) : option nat :=
  match l with
  | [] => None
  | p :: l => if f p then Some i else find_proc f l (S i)
  end.

(** Up to [release]: the entry found, now an embryo with the next pid. *)
Definition allocproc_find (t : ptable) : option nat * ptable :=
  match find_proc (λ p, bool_decide (state p = UNUSED)) (procs t) 0 with
  | None => (None, t)
  | Some i =>
      (Some i, let t := upd t i (λ p, set_pid (set_state p EMBRYO) (nextpid t)) in
               PTable (procs t) (initproc t) (nextpid t + 1))
  end.
(** The kernel stack; [k] is what [kalloc] returned.  The trap frame and the
    context live on that stack; a new context starts at [forkret]. *)
Definition allocproc_stack (t : ptable) (i : nat) (k : Z) : option nat * ptable :=
  if k =? 0 then (None, upd t i (λ p, set_state (set_kstack p 0) UNUSED))
  else (Some i, upd t i (λ p, set_kstack p k)).
Definition allocproc (t : ptable) (k : Z) : option nat * ptable :=
  match allocproc_find t with
  | (None, t) => (None, t)
  | (Some i, t) => allocproc_stack t i k
  end.

Definition initcode_name : list Z := [105; 110; 105; 116; 99; 111; 100; 101].
(** [SEG_UCODE], [SEG_UDATA], [DPL_USER], [FL_IF], [PGSIZE]. *)
Definition user_trapframe (t : trapframe) : trapframe :=
  let cs := Z.lor (Z.shiftl 3 3) 3 in
  let ds := Z.lor (Z.shiftl 4 3) 3 in
  TrapFrame 0 0 4096 cs ds ds ds 512 (replicate (length (others t)) 0).

(** [kpg] is the result of [setupkvm], [root] of [namei("/")]. *)
Definition userinit (t : ptable) (k kpg : Z) (root : option nat) : outcome ptable :=
  match allocproc t k with
  | (None, _) => Undef
  | (Some i, t) =>
      let t := PTable (procs t) (Some i) (nextpid t) in
      if kpg =? 0 then Panic "userinit: out of memory?"
      else
        Ret (upd t i (λ p,
          Proc 4096 kpg (kstack p) RUNNABLE (pid p) (parent p) (user_trapframe (tf p)) (chan_ p) (killed p)
            (ofile p) root initcode_name))
  end.

(** [if(curproc->ofile[i]) np->ofile[i] = filedup(curproc->ofile[i])]. *)
Fixpoint dup_files (cur np : list (option nat)) : list (option nat) * list effect :=
  match cur, np with
  | Some f :: cur, _ :: np => let '(l, e) := dup_files cur np in (Some f :: l, FileDup f :: e)
  | None :: cur, o :: np => let '(l, e) := dup_files cur np in (o :: l, e)
  | _, _ => (np, [])
  end.

(** The part of [fork] behind [allocproc]; [pg] is what [copyuvm] returned. *)
Definition fork_copy (t : ptable) (cur np : nat) (pg : Z) : outcome (Z * ptable * list effect) :=
  c ← opt (procs t !! cur);
  n ← opt (procs t !! np);
  if pg =? 0 then
    Ret (-1, upd t np (λ p, set_state (set_kstack p 0) UNUSED), [KFree (kstack n)])
  else
    let '(files, e) := dup_files (ofile c) (ofile n) in
    ip ← opt (cwd c);
    Ret (pid n,
      upd t np (λ n,
        Proc (sz c) pg (kstack n) RUNNABLE (pid n) (Some cur)
          (TrapFrame 0 (eip (tf c)) (esp (tf c)) (cs (tf c)) (ds (tf c)) (es (tf c)) (ss (tf c)) (eflags (tf c))
             (others (tf c)))
          (chan_ n) (killed n) files (Some ip) (take 15 (name c))),
      e ++ [IDup ip]).
Definition fork (t : ptable) (cur : nat) (k pg : Z) : outcome (Z * ptable * list effect) :=
  match allocproc t k with
  | (None, t) => Ret (-1, t, [])
  | (Some np, t) => fork_copy t cur np pg
  end.

(** [newsz] is what [allocuvm] or [deallocuvm] returned. *)
Definition growproc (t : ptable) (cur : nat) (n newsz : Z) : outcome (Z * ptable) :=
  c ← opt (procs t !! cur);
  if n =? 0 then Ret (0, t)
  else if newsz =? 0 then Ret (-1, t)
  else Ret (0, upd t cur (λ p, set_sz p newsz)).

(** ** Sleeping and waking *)
Definition wakeup1 (t : ptable) (c : chan) : ptable :=
  set_procs t ((λ p, if bool_decide (state p = SLEEPING) && bool_decide (chan_ p = c)
                     then set_state p RUNNABLE else p) <$> procs t).
Definition wakeup := wakeup1.

(** [sleep] up to the context switch. *)
Definition sleep (t : ptable) (cur : option nat) (c : chan) : outcome ptable :=
  match cur with
  | None => Panic "sleep"
  | Some i => Ret (upd t i (λ p, set_state (set_chan p c) SLEEPING))
  end.
(** And behind it, still under the lock of the table. *)
Definition sleep_resume (t : ptable) (cur : nat) : ptable := upd t cur (λ p, set_chan p Null).

Definition yield (t : ptable) (cur : nat) : ptable := upd t cur (λ p, set_state p RUNNABLE).

(** The guards of [sched]. *)
Definition sched (t : ptable) (cur : nat) (holds_lock : bool) (ncli : Z) (interruptible : bool) : outcome unit :=
  p ← opt (procs t !! cur);
  if negb holds_lock then Panic "sched ptable.lock"
  else if negb (ncli =? 1) then Panic "sched locks"
  else if bool_decide (state p = RUNNING) then Panic "sched running"
  else if interruptible then Panic "sched interruptible"
  else Ret tt.

(** One round of the inner loop of [scheduler] for entry [i]: the process to
    run, if it is runnable. *)
Definition scheduler_pick (t : ptable) (i : nat) : option ptable :=
  match procs t !! i with
  | Some p => if bool_decide (state p = RUNNABLE) then Some (upd t i (λ p, set_state p RUNNING)) else None
  | None => None
  end.

Fixpoint kill_loop (l : list proc) (n : Z) : option (list proc) :=
  match l with
  | [] => None
  | p :: l =>
      if pid p =? n then
        let p := set_killed p 1 in
        Some ((if bool_decide (state p = SLEEPING) then set_state p RUNNABLE else p) :: l)
      else cons p <$> kill_loop l n
  end.
Definition kill (t : ptable) (n : Z) : Z * ptable :=
  match kill_loop (procs t) n with
  | Some l => (0, set_procs t l)
  | None => (-1, t)
  end.

(** ** Exit and wait *)
Fixpoint close_files (o : list (option nat)) : list (option nat) * list effect :=
  match o with
  | [] => ([], [])
  | Some f :: o => let '(l, e) := close_files o in (None :: l, FileClose f :: e)
  | None :: o => let '(l, e) := close_files o in (None :: l, e)
  end.

(** [exit] before it takes the lock. *)
Definition exit_close (t : ptable) (cur : nat) : outcome (ptable * list effect) :=
  c ← opt (procs t !! cur);
  if bool_decide (initproc t = Some cur) then Panic "init exiting"
  else
    let '(files, e) := close_files (ofile c) in
    ip ← opt (cwd c);
    Ret (upd t cur (λ p, set_files p files None), e ++ [IPut ip]).

Definition chan_of (p : option nat) : chan := match p with Some i => ProcAddr i | None => Null end.

(** The loop that passes children to [init]; [wakeup1(initproc)] runs inside
    the loop, when a child that is a zombie is met. *)
Fixpoint abandon (cur : nat) (i : nat) (cnt : nat) (t : ptable) : ptable :=
  match cnt with
  | O => t
  | S cnt =>
      let t :=
        match procs t !! i with
        | Some p =>
            if bool_decide (parent p = Some cur) then
              let t := upd t i (λ p, set_parent p (initproc t)) in
              if bool_decide (state p = ZOMBIE) then wakeup1 t (chan_of (initproc t)) else t
            else t
        | None => t
        end in
      abandon cur (S i) cnt t
  end.

(** [exit] from [acquire] to [sched]. *)
Definition exit_zombie (t : ptable) (cur : nat) : outcome ptable :=
  c ← opt (procs t !! cur);
  let t := wakeup1 t (chan_of (parent c)) in
  let t := abandon cur 0 (length (procs t)) t in
  Ret (upd t cur (λ p, set_state p ZOMBIE)).

(** One scan of [wait]. *)
Inductive wait_result := Reaped (n : Z) | NoChild | MustSleep.

Fixpoint wait_loop (l : list proc) (cur : nat) (i : nat) (havekids : bool) : bool * option nat :=
  match l with
  | [] => (havekids, None)
  | p :: l =>
      if negb (bool_decide (parent p = Some cur)) then wait_loop l cur (S i) havekids
      else if bool_decide (state p = ZOMBIE) then (true, Some i)
      else wait_loop l cur (S i) true
  end.

Definition reap (p : proc) : proc :=
  Proc (sz p) (pgdir p) 0 UNUSED 0 None (tf p) (chan_ p) 0 (ofile p) (cwd p) [].

Definition wait (t : ptable) (cur : nat) : outcome (wait_result * ptable * list effect) :=
  c ← opt (procs t !! cur);
  match wait_loop (procs t) cur 0 false with
  | (_, Some i) =>
      p ← opt (procs t !! i);
      Ret (Reaped (pid p), upd t i reap, [KFree (kstack p); FreeVm (pgdir p)])
  | (havekids, None) =>
      if negb havekids || negb (killed c =? 0) then Ret (NoChild, t, [])
      else
        t ← sleep t (Some cur) (ProcAddr cur);
        Ret (MustSleep, t, [])
  end.

(** ** Descriptors of the current process ([sysfile.c]) *)
Definition argfd {A} (o : list (option A)) (fd : Z) : option A :=
  if (fd <? 0) || (Z.of_nat NOFILE <=? fd) then None else mjoin (o !! Z.to_nat fd).

(** The descriptor and the table with [f] stored there. *)
Fixpoint fdalloc_loop {A} (o : list (option A)) (f : A) (fd : Z) : option (Z * list (option A)) :=
  match o with
  | [] => None
  | None :: o => Some (fd, Some f :: o)
  | Some g :: o => '(r, o) ← fdalloc_loop o f (fd + 1); Some (r, Some g :: o)
  end.
Definition fdalloc {A} (o : list (option A)) (f : A) : option (Z * list (option A)) := fdalloc_loop o f 0.

Definition set_ofile (p : proc) (o : list (option nat)) : proc := set_files p o (cwd p).

Definition sys_dup (t : ptable) (cur : nat) (fd : Z) : outcome (Z * ptable * list effect) :=
  c ← opt (procs t !! cur);
  match argfd (ofile c) fd with
  | None => Ret (-1, t, [])
  | Some f =>
      match fdalloc (ofile c) f with
      | None => Ret (-1, t, [])
      | Some (fd', o) => Ret (fd', upd t cur (λ p, set_ofile p o), [FileDup f])
      end
  end.

Definition sys_close (t : ptable) (cur : nat) (fd : Z) : outcome (Z * ptable * list effect) :=
  c ← opt (procs t !! cur);
  match argfd (ofile c) fd with
  | None => Ret (-1, t, [])
  | Some f => Ret (0, upd t cur (λ p, set_ofile p (<[Z.to_nat fd := None]> (ofile p))), [FileClose f])
  end.

(** ** The machine: CPUs that run processes *)

(** Where a process is inside a system call that takes several steps. *)
Inductive kmode := ForkStack (np : nat) | ForkCopy (np : nat) | Exiting.

Record psys := PSys { tab : ptable; cpus : list (option nat); modes : gmap nat kmode; trace : list effect }.

Inductive kstep : psys → psys → Prop :=
  | k_schedule c i t t' cs ms tr :
      cs !! c = Some None → scheduler_pick t i = Some t' →
      kstep (PSys t cs ms tr) (PSys (sleep_resume t' i) (<[c := Some i]> cs) ms tr)
  | k_yield c i t cs ms tr :
      cs !! c = Some (Some i) →
      kstep (PSys t cs ms tr) (PSys (yield t i) (<[c := None]> cs) ms tr)
  | k_sleep c i a t t' cs ms tr :
      cs !! c = Some (Some i) → sleep t (Some i) (Addr a) = Ret t' →
      kstep (PSys t cs ms tr) (PSys t' (<[c := None]> cs) ms tr)
  | k_wakeup ch t cs ms tr : kstep (PSys t cs ms tr) (PSys (wakeup t ch) cs ms tr)
  | k_kill n t cs ms tr : kstep (PSys t cs ms tr) (PSys (kill t n).2 cs ms tr)
  | k_grow c i n newsz r t t' cs ms tr :
      cs !! c = Some (Some i) → growproc t i n newsz = Ret (r, t') →
      kstep (PSys t cs ms tr) (PSys t' cs ms tr)
  | k_fork_find c i np t t' cs ms tr :
      cs !! c = Some (Some i) → ms !! i = None → allocproc_find t = (Some np, t') →
      kstep (PSys t cs ms tr) (PSys t' cs (<[i := ForkStack np]> ms) tr)
  | k_fork_stack c i np k t cs ms tr :
      cs !! c = Some (Some i) → ms !! i = Some (ForkStack np) →
      kstep (PSys t cs ms tr)
        (PSys (allocproc_stack t np k).2 cs
           (if k =? 0 then delete i ms else <[i := ForkCopy np]> ms) tr)
  | k_fork_copy c i np pg r t t' e cs ms tr :
      cs !! c = Some (Some i) → ms !! i = Some (ForkCopy np) → fork_copy t i np pg = Ret (r, t', e) →
      kstep (PSys t cs ms tr) (PSys t' cs (delete i ms) (tr ++ e))
  | k_exit_close c i t t' e cs ms tr :
      cs !! c = Some (Some i) → ms !! i = None → exit_close t i = Ret (t', e) →
      kstep (PSys t cs ms tr) (PSys t' cs (<[i := Exiting]> ms) (tr ++ e))
  | k_exit_zombie c i t t' cs ms tr :
      cs !! c = Some (Some i) → ms !! i = Some Exiting → exit_zombie t i = Ret t' →
      kstep (PSys t cs ms tr) (PSys t' (<[c := None]> cs) (delete i ms) tr)
  | k_wait c i res t t' e cs ms tr :
      cs !! c = Some (Some i) → ms !! i = None → wait t i = Ret (res, t', e) →
      kstep (PSys t cs ms tr)
        (PSys t' (match res with MustSleep => <[c := None]> cs | _ => cs end) ms (tr ++ e))
  | k_open c i f fd o p t cs ms tr :
      cs !! c = Some (Some i) → ms !! i = None → procs t !! i = Some p → fdalloc (ofile p) f = Some (fd, o) →
      kstep (PSys t cs ms tr) (PSys (upd t i (λ p, set_ofile p o)) cs ms (tr ++ [FileGet f]))
  | k_dup c i fd r t t' e cs ms tr :
      cs !! c = Some (Some i) → ms !! i = None → sys_dup t i fd = Ret (r, t', e) →
      kstep (PSys t cs ms tr) (PSys t' cs ms (tr ++ e))
  | k_close c i fd r t t' e cs ms tr :
      cs !! c = Some (Some i) → ms !! i = None → sys_close t i fd = Ret (r, t', e) →
      kstep (PSys t cs ms tr) (PSys t' cs ms (tr ++ e)).

(** The table at boot, and the machine once [userinit] has run. *)
Definition zero_proc : proc :=
  Proc 0 0 0 UNUSED 0 None (TrapFrame 0 0 0 0 0 0 0 0 []) Null 0 (replicate NOFILE None) None [].
Definition boot : ptable := PTable (replicate NPROC zero_proc) None 1.
