(* ===== verification/ProcInv.v ===== *)
(** * The invariant of the process table

    The proof looks at an entry through its class (sleeping and runnable are
    one class: waking never matters here), its pid, its parent and the
    references it holds.  The invariant has five independent parts, each with
    a lemma for the update of one entry. *)

From stdpp Require Import base numbers list gmap sets strings relations.
From S2P Require Import Prelude Proc.

Open Scope Z_scope.

(** ** The view of an entry *)
Inductive klass := Unused | Embryo | Idle | Running | Zombie.
#[export] Instance klass_eq_dec : EqDecision klass.
Proof. solve_decision. Defined.

Definition class (s : procstate) : klass :=
  match s with
  | UNUSED => Unused | EMBRYO => Embryo | SLEEPING | RUNNABLE => Idle | RUNNING => Running | ZOMBIE => Zombie
  end.
Record aproc := AP { acls : klass; apid : Z; apar : option nat; afiles : list (option nat); acwd : option nat }.
Definition view (p : proc) : aproc := AP (class (state p)) (pid p) (parent p) (ofile p) (cwd p).
Definition aview (t : ptable) : list aproc := view <$> procs t.

Definition live (v : aproc) : Prop := acls v = Idle ∨ acls v = Running.
Definition no_refs (v : aproc) : Prop := Forall (λ o, o = None) (afiles v) ∧ acwd v = None.

Lemma aview_lookup t i v : aview t !! i = Some v ↔ ∃ p, procs t !! i = Some p ∧ v = view p.
Proof. unfold aview. rewrite list_lookup_fmap_Some. naive_solver. Qed.

Lemma aview_upd t i f p : procs t !! i = Some p → aview (upd t i f) = <[i := view (f p)]> (aview t).
Proof.
  intros Hp. unfold aview, upd, set_procs. cbn [procs]. apply list_eq. intros j.
  rewrite list_lookup_fmap. destruct (decide (j = i)) as [->|Hne].
  - rewrite list_lookup_alter_eq, Hp. rewrite list_lookup_insert_eq; [done|].
    rewrite length_fmap. by eapply lookup_lt_Some.
  - rewrite list_lookup_alter_ne by done. rewrite list_lookup_insert_ne by done. by rewrite list_lookup_fmap.
Qed.

Lemma aview_wakeup t c : aview (wakeup1 t c) = aview t.
Proof.
  unfold aview, wakeup1. cbn [procs set_procs]. rewrite <-list_fmap_compose. apply list_fmap_ext.
  intros i p _. unfold compose. case_bool_decide as E; [|done]. case_bool_decide; [|done].
  unfold view. cbn. by rewrite E.
Qed.

Lemma aview_kill_loop l n l' : kill_loop l n = Some l' → view <$> l' = view <$> l.
Proof.
  revert l'. induction l as [|p l IH]; intros l' E; [done|]. cbn [kill_loop] in E. case_match.
  - injection E as <-. cbn. f_equal. case_bool_decide as Es; [|done]. cbn in Es. unfold view. cbn. by rewrite Es.
  - destruct (kill_loop l n) as [l2|]; [|done]. injection E as <-. cbn. f_equal. by apply IH.
Qed.

Lemma aview_kill t n : aview (kill t n).2 = aview t ∧ initproc (kill t n).2 = initproc t ∧
  nextpid (kill t n).2 = nextpid t.
Proof.
  unfold kill. destruct (kill_loop (procs t) n) eqn:E; [|done]. cbn. split_and!; [|done..].
  by eapply aview_kill_loop.
Qed.

(** ** CPUs *)
Record cpu_inv (vs : list aproc) (cs : list (option nat)) : Prop := {
  cp_run c i : cs !! c = Some (Some i) → ∃ v, vs !! i = Some v ∧ acls v = Running;
  cp_inj c c' i : cs !! c = Some (Some i) → cs !! c' = Some (Some i) → c = c';
  cp_cpu i v : vs !! i = Some v → acls v = Running → ∃ c, cs !! c = Some (Some i)
}.

Lemma cpu_same vs cs i v v' :
  vs !! i = Some v → (acls v = Running ↔ acls v' = Running) → cpu_inv vs cs → cpu_inv (<[i := v']> vs) cs.
Proof.
  intros Hv Hc [H1 H2 H3]. pose proof (lookup_lt_Some _ _ _ Hv) as Hlt. split; [|done|].
  - intros c j Hcj. destruct (H1 c j Hcj) as (w & Hw & Hr). destruct (decide (j = i)) as [->|Hne].
    + exists v'. rewrite list_lookup_insert_eq by done. split; [done|]. apply Hc. congruence.
    + exists w. by rewrite list_lookup_insert_ne.
  - intros j w Hw Hr. destruct (decide (j = i)) as [->|Hne].
    + rewrite list_lookup_insert_eq in Hw by done. injection Hw as <-. eapply H3; [done|]. by apply Hc.
    + rewrite list_lookup_insert_ne in Hw by done. by eapply H3.
Qed.

Lemma cpu_start vs cs i v v' c :
  vs !! i = Some v → acls v ≠ Running → acls v' = Running → cs !! c = Some None →
  cpu_inv vs cs → cpu_inv (<[i := v']> vs) (<[c := Some i]> cs).
Proof.
  intros Hv Hn Hr Hc [H1 H2 H3]. pose proof (lookup_lt_Some _ _ _ Hv) as Hlt.
  pose proof (lookup_lt_Some _ _ _ Hc) as Hltc.
  assert (∀ c', cs !! c' ≠ Some (Some i)) as Hfree.
  { intros c' Hc'. destruct (H1 c' i Hc') as (w & Hw & ?). congruence. }
  split.
  - intros c' j Hj. destruct (decide (c' = c)) as [->|Hnc].
    + rewrite list_lookup_insert_eq in Hj by done. injection Hj as <-. exists v'. by rewrite list_lookup_insert_eq.
    + rewrite list_lookup_insert_ne in Hj by done. destruct (H1 c' j Hj) as (w & Hw & ?).
      exists w. rewrite list_lookup_insert_ne; [done|]. intros ->. by destruct (Hfree c').
  - intros c1 c2 j Hc1 Hc2. destruct (decide (c1 = c)) as [->|N1], (decide (c2 = c)) as [->|N2]; [done|..].
    + rewrite list_lookup_insert_eq in Hc1 by done. injection Hc1 as <-.
      rewrite list_lookup_insert_ne in Hc2 by done. by destruct (Hfree c2).
    + rewrite list_lookup_insert_eq in Hc2 by done. injection Hc2 as <-.
      rewrite list_lookup_insert_ne in Hc1 by done. by destruct (Hfree c1).
    + rewrite list_lookup_insert_ne in Hc1, Hc2 by done. by eapply H2.
  - intros j w Hw Hrw. destruct (decide (j = i)) as [->|Hne].
    + exists c. by rewrite list_lookup_insert_eq.
    + rewrite list_lookup_insert_ne in Hw by done. destruct (H3 j w Hw Hrw) as [c' Hc'].
      exists c'. rewrite list_lookup_insert_ne; [done|]. intros ->. congruence.
Qed.

Lemma cpu_stop vs cs i v v' c :
  vs !! i = Some v → acls v' ≠ Running → cs !! c = Some (Some i) →
  cpu_inv vs cs → cpu_inv (<[i := v']> vs) (<[c := None]> cs).
Proof.
  intros Hv Hn Hc [H1 H2 H3]. pose proof (lookup_lt_Some _ _ _ Hv) as Hlt.
  pose proof (lookup_lt_Some _ _ _ Hc) as Hltc. split.
  - intros c' j Hj. destruct (decide (c' = c)) as [->|Hnc]; [by rewrite list_lookup_insert_eq in Hj|].
    rewrite list_lookup_insert_ne in Hj by done. destruct (H1 c' j Hj) as (w & Hw & ?).
    exists w. rewrite list_lookup_insert_ne; [done|]. intros ->. by apply Hnc, (H2 c' c j).
  - intros c1 c2 j Hc1 Hc2.
    destruct (decide (c1 = c)) as [->|N1]; [by rewrite list_lookup_insert_eq in Hc1|].
    destruct (decide (c2 = c)) as [->|N2]; [by rewrite list_lookup_insert_eq in Hc2|].
    rewrite list_lookup_insert_ne in Hc1, Hc2 by done. by eapply H2.
  - intros j w Hw Hr. destruct (decide (j = i)) as [->|Hne].
    { rewrite list_lookup_insert_eq in Hw by done. by injection Hw as <-. }
    rewrite list_lookup_insert_ne in Hw by done. destruct (H3 j w Hw Hr) as [c' Hc'].
    exists c'. rewrite list_lookup_insert_ne; [done|]. intros ->. congruence.
Qed.

(** ** Process ids *)
Record pid_inv (vs : list aproc) (np : Z) : Prop := {
  pi_range i v : vs !! i = Some v → acls v ≠ Unused → 0 < apid v < np;
  pi_inj i j v w : vs !! i = Some v → vs !! j = Some w → acls v ≠ Unused → acls w ≠ Unused →
    apid v = apid w → i = j;
  pi_next : 0 < np
}.

Lemma pid_same vs np i v v' :
  vs !! i = Some v → (acls v' ≠ Unused → acls v ≠ Unused ∧ apid v' = apid v) →
  pid_inv vs np → pid_inv (<[i := v']> vs) np.
Proof.
  intros Hv Hs [H1 H2 H3].
  assert (∀ j w, <[i := v']> vs !! j = Some w → acls w ≠ Unused →
    ∃ w0, vs !! j = Some w0 ∧ acls w0 ≠ Unused ∧ apid w = apid w0) as Hold.
  { intros j w Hw Hu. destruct (decide (j = i)) as [->|Hne].
    - rewrite list_lookup_insert_eq in Hw by (by eapply lookup_lt_Some). injection Hw as <-.
      destruct (Hs Hu) as [? ?]. eauto.
    - rewrite list_lookup_insert_ne in Hw by done. eauto. }
  split; [| |done].
  - intros j w Hw Hu. destruct (Hold j w Hw Hu) as (w0 & Hw0 & Hu0 & ->). by eapply H1.
  - intros j k w x Hw Hx Hu Hux E. destruct (Hold j w Hw Hu) as (w0 & Hw0 & Hu0 & E0).
    destruct (Hold k x Hx Hux) as (x0 & Hx0 & Hux0 & E1). eapply (H2 j k w0 x0); congruence.
Qed.

Lemma pid_new vs np i v v' :
  vs !! i = Some v → apid v' = np → pid_inv vs np → pid_inv (<[i := v']> vs) (np + 1).
Proof.
  intros Hv Hp [H1 H2 H3]. pose proof (lookup_lt_Some _ _ _ Hv) as Hlt. split; [| |lia].
  - intros j w Hw Hu. destruct (decide (j = i)) as [->|Hne].
    + rewrite list_lookup_insert_eq in Hw by done. injection Hw as <-. lia.
    + rewrite list_lookup_insert_ne in Hw by done. specialize (H1 j w Hw Hu). lia.
  - intros j k w x Hw Hx Hu Hux E.
    destruct (decide (j = i)) as [->|Nj], (decide (k = i)) as [->|Nk]; [done|..].
    + rewrite list_lookup_insert_eq in Hw by done. injection Hw as <-.
      rewrite list_lookup_insert_ne in Hx by done. specialize (H1 k x Hx Hux). lia.
    + rewrite list_lookup_insert_eq in Hx by done. injection Hx as <-.
      rewrite list_lookup_insert_ne in Hw by done. specialize (H1 j w Hw Hu). lia.
    + rewrite list_lookup_insert_ne in Hw, Hx by done. by eapply H2.
Qed.

(** ** Parents *)
Definition has_parent (v : aproc) : Prop := live v ∨ acls v = Zombie.

Record tree_inv (vs : list aproc) (init : nat) : Prop := {
  tr_parent i v : vs !! i = Some v → has_parent v → i ≠ init →
    ∃ q w, apar v = Some q ∧ vs !! q = Some w ∧ live w;
  tr_none i v : vs !! i = Some v → ¬ has_parent v → apar v = None;
  tr_init : ∃ v, vs !! init = Some v ∧ live v
}.

Lemma tree_update vs init i v v' :
  vs !! i = Some v → (live v → live v') →
  (has_parent v' → i ≠ init → has_parent v ∧ apar v' = apar v ∨
     ∃ q w, apar v' = Some q ∧ q ≠ i ∧ vs !! q = Some w ∧ live w) →
  (¬ has_parent v' → apar v' = None) →
  tree_inv vs init → tree_inv (<[i := v']> vs) init.
Proof.
  intros Hv Hl Hp Hn [H1 H2 H3]. pose proof (lookup_lt_Some _ _ _ Hv) as Hlt.
  assert (∀ q w, vs !! q = Some w → live w → ∃ w', <[i := v']> vs !! q = Some w' ∧ live w') as Hkeep.
  { intros q w Hw Hlw. destruct (decide (q = i)) as [->|Hne].
    - exists v'. rewrite list_lookup_insert_eq by done. split; [done|]. apply Hl. congruence.
    - exists w. by rewrite list_lookup_insert_ne. }
  split.
  - intros j w Hw Hpw Hj. destruct (decide (j = i)) as [->|Hne].
    + rewrite list_lookup_insert_eq in Hw by done. injection Hw as <-.
      destruct (Hp Hpw Hj) as [[Hpv Ep]|(q & w & Ep & Hq & Hw & Hlw)].
      * destruct (H1 i v Hv Hpv Hj) as (q & w & E & Hw & Hlw). destruct (Hkeep q w Hw Hlw) as (w' & ? & ?).
        exists q, w'. by rewrite Ep.
      * exists q, w. by rewrite list_lookup_insert_ne.
    + rewrite list_lookup_insert_ne in Hw by done. destruct (H1 j w Hw Hpw Hj) as (q & x & E & Hx & Hlx).
      destruct (Hkeep q x Hx Hlx) as (x' & ? & ?). eauto.
  - intros j w Hw Hnw. destruct (decide (j = i)) as [->|Hne].
    + rewrite list_lookup_insert_eq in Hw by done. injection Hw as <-. by apply Hn.
    + rewrite list_lookup_insert_ne in Hw by done. by eapply H2.
  - destruct H3 as (w & Hw & Hlw). by eapply Hkeep.
Qed.

(** Passing the children of [cur] to [init]. *)
Definition adopt (cur init : nat) (v : aproc) : aproc :=
  if decide (apar v = Some cur) then AP (acls v) (apid v) (Some init) (afiles v) (acwd v) else v.

Lemma adopt_cls cur init v : acls (adopt cur init v) = acls v.
Proof. unfold adopt. by case_decide. Qed.

(** And making [cur] a zombie. *)
Lemma tree_exit vs init cur v v' :
  vs !! cur = Some v → live v → cur ≠ init → acls v' = Zombie → apar v' = apar (adopt cur init v) →
  tree_inv vs init → tree_inv (<[cur := v']> (adopt cur init <$> vs)) init.
Proof.
  intros Hv Hlv Hne Hz Hap [H1 H2 H3].
  assert (cur < length (adopt cur init <$> vs))%nat as Hlt by (rewrite length_fmap; by eapply lookup_lt_Some).
  assert (∀ q w, q ≠ cur → vs !! q = Some w → live w →
    ∃ w', <[cur := v']> (adopt cur init <$> vs) !! q = Some w' ∧ live w') as Hkeep.
  { intros q w Hq Hw Hlw. exists (adopt cur init w). rewrite list_lookup_insert_ne, list_lookup_fmap, Hw by done.
    split; [done|]. unfold live. by rewrite adopt_cls. }
  assert (∀ j w, vs !! j = Some w → has_parent w → j ≠ init →
    ∃ q w', apar (adopt cur init w) = Some q ∧ <[cur := v']> (adopt cur init <$> vs) !! q = Some w' ∧ live w') as Hpar.
  { intros j w Hw Hp Hj. destruct (H1 j w Hw Hp Hj) as (q & x & E & Hx & Hlx). unfold adopt. case_decide as Ec.
    - destruct H3 as (y & Hy & Hly). destruct (Hkeep init y) as (y' & ? & ?); [done..|]. exists init, y'. done.
    - destruct (Hkeep q x) as (x' & ? & ?); [congruence|done..|]. exists q, x'. done. }
  split.
  - intros j w Hw Hp Hj. destruct (decide (j = cur)) as [->|Hjc].
    + rewrite list_lookup_insert_eq in Hw by done. injection Hw as <-. rewrite Hap. apply (Hpar cur); [done|by left|done].
    + rewrite list_lookup_insert_ne, list_lookup_fmap in Hw by done.
      destruct (vs !! j) as [w0|] eqn:E; [|done]. injection Hw as <-. apply (Hpar j); [done| |done].
      unfold has_parent, live in *. by rewrite adopt_cls in Hp.
  - intros j w Hw Hn. destruct (decide (j = cur)) as [->|Hjc].
    + rewrite list_lookup_insert_eq in Hw by done. injection Hw as <-. by destruct Hn; right.
    + rewrite list_lookup_insert_ne, list_lookup_fmap in Hw by done.
      destruct (vs !! j) as [w0|] eqn:E; [|done]. injection Hw as <-.
      assert (apar w0 = None) as E0.
      { apply (H2 j w0 E). unfold has_parent, live in *. by rewrite adopt_cls in Hn. }
      unfold adopt. by rewrite E0, decide_False.
  - destruct H3 as (w & Hw & Hlw). by eapply Hkeep.
Qed.

(** ** System calls in progress *)
Definition fork_target (m : kmode) (np : nat) : Prop := m = ForkStack np ∨ m = ForkCopy np.

Record mode_inv (vs : list aproc) (init : nat) (ms : gmap nat kmode) : Prop := {
  mo_live p m : ms !! p = Some m → ∃ v, vs !! p = Some v ∧ live v;
  mo_fork p m np : ms !! p = Some m → fork_target m np → ∃ v, vs !! np = Some v ∧ acls v = Embryo;
  mo_inj p q m m' np : ms !! p = Some m → ms !! q = Some m' → fork_target m np → fork_target m' np → p = q;
  mo_exit p : ms !! p = Some Exiting → p ≠ init ∧ ∃ v, vs !! p = Some v ∧ no_refs v
}.

Lemma mode_update vs init ms i v v' :
  vs !! i = Some v → (live v → live v') → (acls v = Embryo → acls v' = Embryo) →
  (ms !! i = Some Exiting → no_refs v → no_refs v') →
  mode_inv vs init ms → mode_inv (<[i := v']> vs) init ms.
Proof.
  intros Hv Hl He Hx [H1 H2 H3 H4]. pose proof (lookup_lt_Some _ _ _ Hv) as Hlt. split; [| |done|].
  - intros p m Hp. destruct (H1 p m Hp) as (w & Hw & Hlw). destruct (decide (p = i)) as [->|Hne].
    + exists v'. rewrite list_lookup_insert_eq by done. split; [done|]. apply Hl. congruence.
    + exists w. by rewrite list_lookup_insert_ne.
  - intros p m np Hp Ht. destruct (H2 p m np Hp Ht) as (w & Hw & Hew). destruct (decide (np = i)) as [->|Hne].
    + exists v'. rewrite list_lookup_insert_eq by done. split; [done|]. apply He. congruence.
    + exists w. by rewrite list_lookup_insert_ne.
  - intros p Hp. destruct (H4 p Hp) as (Hi & w & Hw & Hnw). split; [done|]. destruct (decide (p = i)) as [->|Hne].
    + exists v'. rewrite list_lookup_insert_eq by done. split; [done|]. apply Hx; [done|congruence].
    + exists w. by rewrite list_lookup_insert_ne.
Qed.

(** An entry that is in no call and that no fork fills may change at will. *)
Lemma mode_untouched vs init ms i v' :
  ms !! i = None → (∀ p m, ms !! p = Some m → ¬ fork_target m i) →
  mode_inv vs init ms → mode_inv (<[i := v']> vs) init ms.
Proof.
  intros Hi Hnt [H1 H2 H3 H4].
  assert (∀ p m, ms !! p = Some m → i ≠ p) as Hp by (intros p m Hm ->; congruence).
  split; [| |done|].
  - intros p m Hm. destruct (H1 p m Hm) as (w & ? & ?). exists w. rewrite list_lookup_insert_ne; [done|].
    by apply (Hp p m).
  - intros p m np Hm Ht. destruct (H2 p m np Hm Ht) as (w & ? & ?). exists w.
    rewrite list_lookup_insert_ne; [done|]. intros ->. by destruct (Hnt p m Hm).
  - intros p Hm. destruct (H4 p Hm) as (? & w & ? & ?). split; [done|]. exists w.
    rewrite list_lookup_insert_ne; [done|]. by apply (Hp p Exiting).
Qed.

Lemma mode_not_live vs init ms i v : mode_inv vs init ms → vs !! i = Some v → ¬ live v → ms !! i = None.
Proof.
  intros Hm Hv Hn. destruct (ms !! i) as [m|] eqn:E; [|done].
  destruct (mo_live _ _ _ Hm i m E) as (w & Hw & Hl). by simplify_eq.
Qed.
Lemma mode_not_target vs init ms i v p m :
  mode_inv vs init ms → vs !! i = Some v → acls v ≠ Embryo → ms !! p = Some m → ¬ fork_target m i.
Proof. intros Hm Hv Hn Hp Ht. destruct (mo_fork _ _ _ Hm p m i Hp Ht) as (w & Hw & ?). by simplify_eq. Qed.

Lemma mode_delete vs init ms i : mode_inv vs init ms → mode_inv vs init (delete i ms).
Proof.
  intros [H1 H2 H3 H4]. split.
  - intros p m [_ ?]%lookup_delete_Some. by eapply H1.
  - intros p m np [_ ?]%lookup_delete_Some. by eapply H2.
  - intros p q m m' np [_ ?]%lookup_delete_Some [_ ?]%lookup_delete_Some. by eapply H3.
  - intros p [_ ?]%lookup_delete_Some. by eapply H4.
Qed.

Lemma mode_insert vs init ms i m v :
  vs !! i = Some v → live v →
  (∀ np, fork_target m np → (∃ w, vs !! np = Some w ∧ acls w = Embryo) ∧
     ∀ p m', p ≠ i → ms !! p = Some m' → ¬ fork_target m' np) →
  (m = Exiting → i ≠ init ∧ no_refs v) →
  mode_inv vs init ms → mode_inv vs init (<[i := m]> ms).
Proof.
  intros Hv Hl Ht Hx [H1 H2 H3 H4]. split.
  - intros p m' [[<- <-]|[_ ?]]%lookup_insert_Some; [eauto|by eapply H1].
  - intros p m' np [[<- <-]|[_ ?]]%lookup_insert_Some Hf; [by apply Ht|by eapply H2].
  - intros p q m1 m2 np [[<- <-]|[N1 E1]]%lookup_insert_Some [[<- <-]|[N2 E2]]%lookup_insert_Some F1 F2; [done|..].
    + by destruct (proj2 (Ht np F1) q m2 (not_eq_sym N2) E2).
    + by destruct (proj2 (Ht np F2) p m1 (not_eq_sym N1) E1).
    + by eapply H3.
  - intros p [[<- ->]|[_ ?]]%lookup_insert_Some; [|by eapply H4]. destruct Hx as [? ?]; [done|]. eauto.
Qed.

(** ** References *)
Record refs_inv (vs : list aproc) (ms : gmap nat kmode) : Prop := {
  rf_len i v : vs !! i = Some v → length (afiles v) = NOFILE;
  rf_free i v : vs !! i = Some v → ¬ live v → no_refs v;
  rf_cwd i v : vs !! i = Some v → live v → ms !! i ≠ Some Exiting → is_Some (acwd v)
}.

Lemma refs_update vs ms ms' i v v' :
  vs !! i = Some v → length (afiles v') = NOFILE → (¬ live v' → no_refs v') →
  (live v' → ms' !! i ≠ Some Exiting → is_Some (acwd v')) →
  (∀ j, j ≠ i → ms' !! j = Some Exiting ↔ ms !! j = Some Exiting) →
  refs_inv vs ms → refs_inv (<[i := v']> vs) ms'.
Proof.
  intros Hv Hl Hf Hc Hm [H1 H2 H3].
  assert (∀ j w, <[i := v']> vs !! j = Some w → j = i ∧ w = v' ∨ j ≠ i ∧ vs !! j = Some w) as Hold.
  { intros j w Hw. destruct (decide (j = i)) as [->|Hne]; [left|right].
    - rewrite list_lookup_insert_eq in Hw by (by eapply lookup_lt_Some). by injection Hw as <-.
    - by rewrite list_lookup_insert_ne in Hw. }
  split.
  - intros j w [[-> ->]|[_ Hw]]%Hold; [done|by eapply H1].
  - intros j w [[-> ->]|[_ Hw]]%Hold; [done|by eapply H2].
  - intros j w [[-> ->]|[Hne Hw]]%Hold; [done|]. intros Hlw Hx. eapply H3; [done..|]. by rewrite <-Hm.
Qed.

Lemma refs_modes vs ms ms' :
  (∀ j, ms !! j = Some Exiting → ms' !! j = Some Exiting) → refs_inv vs ms → refs_inv vs ms'.
Proof. intros Hm [H1 H2 H3]. split; [done..|]. intros i v Hv Hl Hx. eapply H3; [done..|]. intros E. by apply Hx, Hm. Qed.

(** *** Counting *)
Definition total (g : aproc → nat) (vs : list aproc) : nat := sum_list_with g vs.

Lemma total_insert g vs i v v' :
  vs !! i = Some v → (total g (<[i := v']> vs) + g v = total g vs + g v')%nat.
Proof.
  revert i. induction vs as [|w vs IH]; intros i Hv; [done|]. destruct i as [|i]; cbn in *.
  - injection Hv as ->. lia.
  - specialize (IH i Hv). unfold total, insert in *. lia.
Qed.

Definition nfile (f : nat) (v : aproc) : nat := length (filter (eq (Some f)) (afiles v)).
Definition ncwd (ip : nat) (v : aproc) : nat := if decide (acwd v = Some ip) then 1%nat else 0%nat.

Definition file_delta (f : nat) (e : effect) : Z :=
  match e with
  | FileGet g | FileDup g => if decide (f = g) then 1 else 0
  | FileClose g => if decide (f = g) then -1 else 0
  | _ => 0
  end.
Definition inode_delta (ip : nat) (e : effect) : Z :=
  match e with
  | IGet j | IDup j => if decide (ip = j) then 1 else 0
  | IPut j => if decide (ip = j) then -1 else 0
  | _ => 0
  end.
Fixpoint balance (d : effect → Z) (tr : list effect) : Z :=
  match tr with [] => 0 | e :: tr => d e + balance d tr end.

Lemma balance_app d tr tr' : balance d (tr ++ tr') = balance d tr + balance d tr'.
Proof. induction tr as [|e tr IH]; cbn; [done|]. rewrite IH. lia. Qed.

Record count_inv (vs : list aproc) (tr : list effect) : Prop := {
  ct_file f : Z.of_nat (total (nfile f) vs) = balance (file_delta f) tr;
  ct_inode ip : Z.of_nat (total (ncwd ip) vs) = balance (inode_delta ip) tr
}.

Lemma count_update vs i v v' tr e :
  vs !! i = Some v →
  (∀ f, Z.of_nat (nfile f v') - Z.of_nat (nfile f v) = balance (file_delta f) e) →
  (∀ ip, Z.of_nat (ncwd ip v') - Z.of_nat (ncwd ip v) = balance (inode_delta ip) e) →
  count_inv vs tr → count_inv (<[i := v']> vs) (tr ++ e).
Proof.
  intros Hv Hf Hi [H1 H2]. split.
  - intros f. rewrite balance_app, <-Hf, <-H1. pose proof (total_insert (nfile f) vs i v v' Hv). lia.
  - intros ip. rewrite balance_app, <-Hi, <-H2. pose proof (total_insert (ncwd ip) vs i v v' Hv). lia.
Qed.

Lemma count_same vs i v v' tr :
  vs !! i = Some v → afiles v' = afiles v → acwd v' = acwd v → count_inv vs tr → count_inv (<[i := v']> vs) tr.
Proof.
  intros Hv Ef Ec H. rewrite <-(app_nil_r tr). eapply count_update; [done|..|done].
  - intros f. unfold nfile. rewrite Ef. cbn [balance]. lia.
  - intros ip. unfold ncwd. rewrite Ec. cbn [balance]. lia.
Qed.

(** *** Copying and closing descriptors *)
Lemma dup_files_spec cur : ∀ np, length cur = length np → Forall (λ o, o = None) np →
  (dup_files cur np).1 = cur ∧
  ∀ f, balance (file_delta f) (dup_files cur np).2 = Z.of_nat (length (filter (eq (Some f)) cur)) ∧
       ∀ ip, balance (inode_delta ip) (dup_files cur np).2 = 0.
Proof.
  induction cur as [|o cur IH]; intros [|o' np] Hl Hn; cbn in Hl; try done. injection Hl as Hl.
  apply Forall_cons in Hn as [-> Hn]. destruct (IH np Hl Hn) as [E1 E2].
  destruct o as [g|]; cbn [dup_files]; destruct (dup_files cur np) as [l e]; cbn [fst snd] in *; subst l.
  - split; [done|]. intros f. destruct (E2 f) as [Ef Ei]. split; [|intros ip; cbn; by rewrite Ei].
    cbn [balance file_delta]. rewrite Ef, filter_cons. case_decide; case_decide; simplify_eq; cbn; lia.
  - split; [done|]. intros f. destruct (E2 f) as [Ef Ei]. split; [|done]. rewrite Ef, filter_cons.
    by case_decide.
Qed.

Lemma close_files_spec o :
  length (close_files o).1 = length o ∧ Forall (λ x, x = None) (close_files o).1 ∧
  ∀ f, balance (file_delta f) (close_files o).2 = - Z.of_nat (length (filter (eq (Some f)) o)) ∧
       ∀ ip, balance (inode_delta ip) (close_files o).2 = 0.
Proof.
  induction o as [|x o (E1 & E2 & E3)]; [by split_and!; try constructor|].
  destruct x as [g|]; cbn [close_files]; destruct (close_files o) as [l e]; cbn [fst snd] in *.
  - split_and!; [cbn; lia|by constructor|]. intros f. destruct (E3 f) as [Ef Ei]. split; [|intros ip; cbn; by rewrite Ei].
    cbn [balance file_delta]. rewrite Ef, filter_cons. case_decide; case_decide; simplify_eq; cbn; lia.
  - split_and!; [cbn; lia|by constructor|]. intros f. destruct (E3 f) as [Ef Ei]. split; [|done]. rewrite Ef, filter_cons.
    by case_decide.
Qed.

Lemma no_files_count (f : nat) o : Forall (λ x, x = None) o → length (filter (eq (Some f)) o) = 0%nat.
Proof. induction 1 as [|x o -> Ho IH]; [done|]. rewrite filter_cons, decide_False by done. done. Qed.

Lemma fdalloc_loop_spec (o : list (option nat)) f : ∀ fd r o', fdalloc_loop o f fd = Some (r, o') →
  length o' = length o ∧ ∀ g, length (filter (eq (Some g)) o') =
    ((if decide (g = f) then 1 else 0) + length (filter (eq (Some g)) o))%nat.
Proof.
  induction o as [|[h|] o IH]; intros fd r o' E; cbn in E; [done|..].
  - destruct (fdalloc_loop o f (fd + 1)) as [[r2 o2]|] eqn:E2; [|done]. injection E as <- <-.
    destruct (IH _ _ _ E2) as [Hl Hc]. split; [cbn; lia|]. intros g. rewrite !filter_cons.
    case_decide; cbn; rewrite ?Hc; lia.
  - injection E as <- <-. split; [done|]. intros g. rewrite !filter_cons. repeat case_decide; simplify_eq; done.
Qed.

Lemma argfd_Some {A} (o : list (option A)) fd f : argfd o fd = Some f → o !! Z.to_nat fd = Some (Some f).
Proof. unfold argfd. case_match; [done|]. destruct (o !! Z.to_nat fd); [|done]. by intros [= ->]. Qed.

Lemma close_count (o : list (option nat)) i f g : o !! i = Some (Some f) →
  Z.of_nat (length (filter (eq (Some g)) (<[i := None]> o))) - Z.of_nat (length (filter (eq (Some g)) o)) =
    if decide (g = f) then -1 else 0.
Proof.
  revert i. induction o as [|x o IH]; intros i Hi; [done|]. destruct i as [|i]; cbn in Hi.
  - injection Hi as ->. cbn [insert list_insert]. rewrite !filter_cons. repeat case_decide; simplify_eq; cbn [length]; lia.
  - specialize (IH i Hi). change (<[S i := None]> (x :: o)) with (x :: <[i := None]> o). rewrite !filter_cons.
    destruct (decide (Some g = x)); cbn [length]; lia.
Qed.

(** ** Tables that differ in parents only *)
Definition same_core (v v' : aproc) : Prop :=
  acls v' = acls v ∧ apid v' = apid v ∧ afiles v' = afiles v ∧ acwd v' = acwd v.

Section reparent.
Context (h : aproc → aproc) (Hh : ∀ v, same_core v (h v)).

Lemma reparent_lookup (vs : list aproc) (i : nat) v' : (h <$> vs) !! i = Some v' → ∃ v, vs !! i = Some v ∧ same_core v v'.
Proof. intros (v & -> & Hv)%list_lookup_fmap_Some. eauto. Qed.
Lemma reparent_lookup_2 (vs : list aproc) (i : nat) v : vs !! i = Some v → ∃ v', (h <$> vs) !! i = Some v' ∧ same_core v v'.
Proof. intros Hv. exists (h v). by rewrite list_lookup_fmap, Hv. Qed.

Lemma reparent_cpu vs cs : cpu_inv vs cs → cpu_inv (h <$> vs) cs.
Proof.
  intros [H1 H2 H3]. split; [|done|].
  - intros c i Hc. destruct (H1 c i Hc) as (v & Hv & Hr). destruct (reparent_lookup_2 _ _ _ Hv) as (v' & ? & E & _).
    exists v'. split; [done|]. by rewrite E.
  - intros i v' Hv' Hr. destruct (reparent_lookup _ _ _ Hv') as (v & Hv & E & _). eapply H3; [done|]. by rewrite <-E.
Qed.
Lemma reparent_pid vs np : pid_inv vs np → pid_inv (h <$> vs) np.
Proof.
  intros [H1 H2 H3]. split; [| |done].
  - intros i v' Hv' Hu. destruct (reparent_lookup _ _ _ Hv') as (v & Hv & E & -> & _). eapply H1; [done|]. by rewrite <-E.
  - intros i j v' w' Hv' Hw' Hu Hu' Ep. destruct (reparent_lookup _ _ _ Hv') as (v & Hv & E & Ev & _).
    destruct (reparent_lookup _ _ _ Hw') as (w & Hw & E' & Ew & _). eapply (H2 i j v w); congruence.
Qed.
Lemma reparent_mode vs init ms : mode_inv vs init ms → mode_inv (h <$> vs) init ms.
Proof.
  intros [H1 H2 H3 H4]. split; [| |done|].
  - intros p m Hm. destruct (H1 p m Hm) as (v & Hv & Hl). destruct (reparent_lookup_2 _ _ _ Hv) as (v' & ? & E & _).
    exists v'. split; [done|]. unfold live in *. by rewrite E.
  - intros p m np Hm Ht. destruct (H2 p m np Hm Ht) as (v & Hv & Hl).
    destruct (reparent_lookup_2 _ _ _ Hv) as (v' & ? & E & _). exists v'. split; [done|]. by rewrite E.
  - intros p Hm. destruct (H4 p Hm) as (? & v & Hv & Hn). split; [done|].
    destruct (reparent_lookup_2 _ _ _ Hv) as (v' & ? & _ & _ & E1 & E2). exists v'. split; [done|].
    unfold no_refs in *. by rewrite E1, E2.
Qed.
Lemma reparent_refs vs ms : refs_inv vs ms → refs_inv (h <$> vs) ms.
Proof.
  intros [H1 H2 H3].
  split; intros i v' Hv'; destruct (reparent_lookup _ _ _ Hv') as (v & Hv & E & _ & E1 & E2);
    unfold live, no_refs; rewrite ?E, ?E1, ?E2.
  - by eapply H1.
  - by apply (H2 i v).
  - by apply (H3 i v).
Qed.
Lemma reparent_count vs tr : count_inv vs tr → count_inv (h <$> vs) tr.
Proof.
  intros [H1 H2].
  assert (∀ g, (∀ v, g (h v) = g v) → total g (h <$> vs) = total g vs) as Ht.
  { intros g Hg. unfold total. clear H1 H2. induction vs as [|v vs IH]; [done|]. cbn. by rewrite IH, Hg. }
  split.
  - intros f. rewrite Ht; [done|]. intros v. unfold nfile. destruct (Hh v) as (_ & _ & -> & _). done.
  - intros ip. rewrite Ht; [done|]. intros v. unfold ncwd. destruct (Hh v) as (_ & _ & _ & ->). done.
Qed.
End reparent.

Lemma adopt_core cur init v : same_core v (adopt cur init v).
Proof. unfold adopt. by case_decide. Qed.

Lemma initproc_upd t i f : initproc (upd t i f) = initproc t.
Proof. done. Qed.

Lemma aview_abandon cur init cnt : ∀ i t, initproc t = Some init →
  initproc (abandon cur i cnt t) = Some init ∧ nextpid (abandon cur i cnt t) = nextpid t ∧
  ∀ j, aview (abandon cur i cnt t) !! j =
    (λ v, if decide (i ≤ j < i + cnt)%nat then adopt cur init v else v) <$> aview t !! j.
Proof.
  induction cnt as [|cnt IH]; intros i t Hi; cbn [abandon].
  { split_and!; [done..|]. intros j. destruct (aview t !! j); [|done]. cbn. by rewrite decide_False by lia. }
  set (t1 := match procs t !! i with Some p => _ | None => t end).
  assert (initproc t1 = Some init ∧ nextpid t1 = nextpid t ∧
    ∀ j, aview t1 !! j = (λ v, if decide (j = i) then adopt cur init v else v) <$> aview t !! j) as (E1 & E2 & E3).
  { unfold t1. destruct (procs t !! i) as [p|] eqn:Ep.
    - assert (aview t !! i = Some (view p)) as Ev by (apply aview_lookup; eauto).
      assert (∀ j, <[i := adopt cur init (view p)]> (aview t) !! j =
        (λ v, if decide (j = i) then adopt cur init v else v) <$> aview t !! j) as Hins.
      { intros j. destruct (decide (j = i)) as [->|Hne].
        - rewrite list_lookup_insert_eq by (by eapply lookup_lt_Some). by rewrite Ev.
        - rewrite list_lookup_insert_ne by done. by destruct (aview t !! j). }
      case_bool_decide as Epar.
      + assert (view (set_parent p (initproc t)) = adopt cur init (view p)) as Eu.
        { unfold adopt. cbn. by rewrite decide_True, Hi. }
        assert (aview (upd t i (λ p, set_parent p (initproc t))) = <[i := adopt cur init (view p)]> (aview t)) as Ea.
        { rewrite (aview_upd _ _ _ p) by done. by rewrite Eu. }
        case_bool_decide; rewrite ?aview_wakeup, Ea; done.
      + assert (adopt cur init (view p) = view p) as Ead by (unfold adopt; by rewrite decide_False).
        split_and!; [done..|]. intros j. rewrite <-Hins, Ead. by rewrite list_insert_id.
    - split_and!; [done..|]. intros j. destruct (aview t !! j) as [v|] eqn:Ej; [|done]. cbn.
      rewrite decide_False; [done|]. intros ->. apply aview_lookup in Ej as (p & ? & _). congruence. }
  destruct (IH (S i) t1 E1) as (F1 & F2 & F3). split_and!; [done|congruence|].
  intros j. rewrite F3, E3. destruct (aview t !! j); [|done]. cbn. f_equal.
  repeat case_decide; (done || lia).
Qed.

(** ** The invariant *)
Record pinv (σ : psys) (init : nat) : Prop := {
  pv_init : initproc (tab σ) = Some init;
  pv_cpu : cpu_inv (aview (tab σ)) (cpus σ);
  pv_pid : pid_inv (aview (tab σ)) (nextpid (tab σ));
  pv_tree : tree_inv (aview (tab σ)) init;
  pv_mode : mode_inv (aview (tab σ)) init (modes σ);
  pv_refs : refs_inv (aview (tab σ)) (modes σ);
  pv_count : count_inv (aview (tab σ)) (trace σ)
}.

Lemma find_proc_spec f l : ∀ i k, find_proc f l i = Some k → ∃ j p, k = (i + j)%nat ∧ l !! j = Some p ∧ f p = true.
Proof.
  induction l as [|p l IH]; intros i k E; cbn in E; [done|]. destruct (f p) eqn:Ef.
  - injection E as <-. exists 0%nat, p. rewrite Nat.add_0_r. done.
  - destruct (IH _ _ E) as (j & q & -> & Hq & Hf). exists (S j), q. split; [lia|done].
Qed.

(** The running process. *)
Lemma running_entry σ init c i : pinv σ init → cpus σ !! c = Some (Some i) →
  ∃ p, procs (tab σ) !! i = Some p ∧ state p = RUNNING ∧ aview (tab σ) !! i = Some (view p).
Proof.
  intros Hp Hc. destruct (cp_run _ _ (pv_cpu _ _ Hp) c i Hc) as (v & Hv & Hr).
  apply aview_lookup in Hv as (p & Hpp & ->). exists p. split_and!; [done| |apply aview_lookup; eauto].
  cbn in Hr. destruct (state p); done.
Qed.

(** ** Every step keeps it *)
Lemma upd_lookup t i f p : procs t !! i = Some p → procs (upd t i f) !! i = Some (f p).
Proof. intros Hp. unfold upd, set_procs. cbn [procs]. by rewrite list_lookup_alter_eq, Hp. Qed.

(** A step of a live process that stays live and keeps its identity. *)
Lemma pinv_live t t' cs cs' ms tr tr' init i p v' :
  pinv (PSys t cs ms tr) init → procs t !! i = Some p → live (view p) → live v' →
  aview t' = <[i := v']> (aview t) → initproc t' = initproc t → nextpid t' = nextpid t →
  apid v' = pid p → apar v' = parent p →
  length (afiles v') = NOFILE → (ms !! i = Some Exiting → no_refs (view p) → no_refs v') →
  (ms !! i ≠ Some Exiting → is_Some (acwd v')) →
  cpu_inv (<[i := v']> (aview t)) cs' → count_inv (<[i := v']> (aview t)) tr' →
  pinv (PSys t' cs' ms tr') init.
Proof.
  intros [H1 H2 H3 H4 H5 H6 H7] Hp Hl Hl' Ev Ei En Epid Epar Hlen Hx Hc Hcpu Hcount. cbn [tab cpus modes trace] in *.
  assert (aview t !! i = Some (view p)) as Hv by (apply aview_lookup; eauto).
  assert (∀ w, live w → acls w ≠ Unused ∧ acls w ≠ Embryo) as Hlu by (intros w [->| ->]; done).
  split; cbn [tab cpus modes trace]; rewrite ?Ev, ?Ei, ?En; try done.
  - eapply pid_same; [done| |done]. intros _. split; [|done]. by apply Hlu.
  - eapply tree_update; [done|done| | |done].
    + intros _ _. left. split; [by left|done].
    + intros Hn. by destruct Hn; left.
  - eapply mode_update; [done|done| |done|done]. intros E. by apply Hlu in Hl as [_ ?].
  - eapply refs_update; [done|done| | |done|done]; [done|]. intros _. done.
Qed.

Lemma step_schedule c i t t' cs ms tr init :
  cs !! c = Some None → scheduler_pick t i = Some t' →
  pinv (PSys t cs ms tr) init → pinv (PSys (sleep_resume t' i) (<[c := Some i]> cs) ms tr) init.
Proof.
  intros Hc E Hp. unfold scheduler_pick in E. destruct (procs t !! i) as [p|] eqn:Ep; [|done].
  case_bool_decide as Es; [|done]. injection E as <-.
  assert (aview t !! i = Some (view p)) as Hv by (apply aview_lookup; eauto).
  assert (acls (view p) = Idle) as Ecl by (cbn; by rewrite Es).
  pose proof Hp as [_ H2 _ _ _ H6 H7]. cbn [tab cpus modes trace] in *.
  eapply (pinv_live t _ cs _ ms tr tr init i p (AP Running (pid p) (parent p) (ofile p) (cwd p))); try done.
  - by left.
  - by right.
  - unfold sleep_resume. rewrite (aview_upd _ _ _ (set_state p RUNNING)) by (exact (upd_lookup t i (λ p, set_state p RUNNING) p Ep)).
    rewrite (aview_upd _ _ _ p) by done. by rewrite list_insert_insert_eq.
  - by apply (rf_len _ _ H6 i (view p)).
  - intros Hx. apply (rf_cwd _ _ H6 i (view p)); [done|by left|done].
  - eapply cpu_start; [done|congruence|done..].
  - by eapply count_same.
Qed.

(** Giving up the CPU. *)
Lemma step_stop c i f t cs ms tr init :
  cs !! c = Some (Some i) →
  (∀ p, pid (f p) = pid p ∧ parent (f p) = parent p ∧ ofile (f p) = ofile p ∧ cwd (f p) = cwd p ∧
        class (state (f p)) = Idle) →
  pinv (PSys t cs ms tr) init → pinv (PSys (upd t i f) (<[c := None]> cs) ms tr) init.
Proof.
  intros Hc Hf Hp. destruct (running_entry _ _ _ _ Hp Hc) as (p & Ep & Es & Hv).
  destruct (Hf p) as (F1 & F2 & F3 & F4 & F5).
  pose proof Hp as [_ H2 _ _ _ H6 H7]. cbn [tab cpus modes trace] in *.
  assert (live (view p)) as Hl by (right; cbn; by rewrite Es).
  eapply (pinv_live t _ cs _ ms tr tr init i p (view (f p))); try done.
  - left. done.
  - by apply aview_upd.
  - cbn. rewrite F3. by apply (rf_len _ _ H6 i (view p)).
  - intros _. unfold no_refs. cbn. by rewrite F3, F4.
  - intros Hx. cbn. rewrite F4. by apply (rf_cwd _ _ H6 i (view p)).
  - eapply cpu_stop; [done| |done|done]. cbn. by rewrite F5.
  - eapply count_same; done.
Qed.

Lemma step_view t t' cs ms tr init :
  aview t' = aview t → initproc t' = initproc t → nextpid t' = nextpid t →
  pinv (PSys t cs ms tr) init → pinv (PSys t' cs ms tr) init.
Proof.
  intros Ev Ei En [H1 H2 H3 H4 H5 H6 H7]. cbn in *. split; cbn; rewrite ?Ev, ?Ei, ?En; done.
Qed.

(** The running process changes its descriptors. *)
Lemma step_files c i o e t cs ms tr init p g :
  cs !! c = Some (Some i) → ms !! i = None → procs t !! i = Some p → g p = set_ofile p o →
  length o = length (ofile p) →
  (∀ f, Z.of_nat (length (filter (eq (Some f)) o)) - Z.of_nat (length (filter (eq (Some f)) (ofile p))) =
     balance (file_delta f) e) → (∀ ip, balance (inode_delta ip) e = 0) →
  pinv (PSys t cs ms tr) init → pinv (PSys (upd t i g) cs ms (tr ++ e)) init.
Proof.
  intros Hc Hm Ep Hg Hlen He Hi Hp. destruct (running_entry _ _ _ _ Hp Hc) as (p' & Ep' & Es & Hv).
  cbn [tab] in *. assert (p' = p) as -> by congruence.
  pose proof Hp as [_ H2 _ _ _ H6 H7]. cbn [tab cpus modes trace] in *.
  assert (live (view p)) as Hl by (right; cbn; by rewrite Es).
  eapply (pinv_live t _ cs _ ms tr _ init i p (view (set_ofile p o))); try done.
  - by rewrite (aview_upd _ _ _ p), Hg.
  - cbn. rewrite Hlen. by apply (rf_len _ _ H6 i (view p)).
  - intros Hx. congruence.
  - intros Hx. by apply (rf_cwd _ _ H6 i (view p)).
  - eapply cpu_same; [done| |done]. done.
  - eapply count_update; [done|..|done].
    + intros f. unfold nfile. cbn. by rewrite <-He.
    + intros ip. rewrite Hi. unfold ncwd. cbn. lia.
Qed.

Lemma count_silent vs tr e :
  (∀ f, balance (file_delta f) e = 0) → (∀ ip, balance (inode_delta ip) e = 0) →
  count_inv vs tr → count_inv vs (tr ++ e).
Proof. intros Hf Hi [H1 H2]. split; intros; rewrite balance_app, ?Hf, ?Hi, Z.add_0_r; auto. Qed.

Lemma step_fork_find c i np t t' cs ms tr init :
  cs !! c = Some (Some i) → ms !! i = None → allocproc_find t = (Some np, t') →
  pinv (PSys t cs ms tr) init → pinv (PSys t' cs (<[i := ForkStack np]> ms) tr) init.
Proof.
  intros Hc Hm E Hp. destruct (running_entry _ _ _ _ Hp Hc) as (p & Ep & Es & Hv). cbn [tab] in *.
  unfold allocproc_find in E. destruct (find_proc _ (procs t) 0) as [k|] eqn:Ef; [|done].
  injection E as <- <-. apply find_proc_spec in Ef as (j & q & -> & Hq & Hu). cbn [Nat.add] in *.
  apply bool_decide_eq_true in Hu.
  assert (aview t !! j = Some (view q)) as Hvq by (apply aview_lookup; eauto).
  assert (j ≠ i) as Hji by congruence.
  pose proof Hp as [H1 H2 H3 H4 H5 H6 H7]. cbn [tab cpus modes trace] in *.
  set (v' := AP Embryo (nextpid t) (parent q) (ofile q) (cwd q)).
  assert (¬ live (view q)) as Hnl by (intros [E|E]; cbn in E; by rewrite Hu in E).
  match goal with |- pinv (PSys ?t1 _ _ _) _ => assert (aview t1 = <[j := v']> (aview t)) as Ev
    by exact (aview_upd t j (λ p, set_pid (set_state p EMBRYO) (nextpid t)) q Hq) end.
  assert (∀ p m, ms !! p = Some m → ¬ fork_target m j) as Hnt.
  { intros p' m Hp'. eapply mode_not_target; [done|done| |done]. cbn. by rewrite Hu. }
  assert (mode_inv (<[j := v']> (aview t)) init ms) as Hmode.
  { apply mode_untouched; [by eapply mode_not_live|done|done]. }
  split; cbn [tab cpus modes trace]; rewrite ?Ev; try done.
  - eapply cpu_same; [done| |done]. cbn. by rewrite Hu.
  - by eapply pid_new.
  - eapply tree_update; [done|done| | |done].
    + intros [[|]|]; done.
    + intros _. apply (tr_none _ _ H4 j (view q)); [done|]. intros [|Hz]; [done|]. cbn in Hz. by rewrite Hu in Hz.
  - eapply (mode_insert _ _ _ _ _ (view p)); [by rewrite list_lookup_insert_ne| | |done|done].
    + right. cbn. by rewrite Es.
    + intros n [[= <-]|?]; [|done]. split; [|intros; by eapply Hnt]. exists v'.
      rewrite list_lookup_insert_eq by (by eapply lookup_lt_Some). done.
  - eapply refs_update; [done|by apply (rf_len _ _ H6 j (view q))| | | |done].
    + intros _. by apply (rf_free _ _ H6 j (view q)).
    + intros [|]; done.
    + intros j' _. destruct (decide (j' = i)) as [->|?]; [rewrite lookup_insert_eq; naive_solver|by rewrite lookup_insert_ne].
  - by eapply count_same.
Qed.

(** A fork that gives up frees the entry. *)
Lemma step_fork_abort i np m e t cs ms tr init :
  ms !! i = Some m → fork_target m np →
  (∀ f, balance (file_delta f) e = 0) → (∀ ip, balance (inode_delta ip) e = 0) →
  pinv (PSys t cs ms tr) init →
  pinv (PSys (upd t np (λ p, set_state (set_kstack p 0) UNUSED)) cs (delete i ms) (tr ++ e)) init.
Proof.
  intros Hm Ht Hf Hi Hp. pose proof Hp as [H1 H2 H3 H4 H5 H6 H7]. cbn [tab cpus modes trace] in *.
  destruct (mo_fork _ _ _ H5 i m np Hm Ht) as (v & Hv & Hemb).
  apply aview_lookup in Hv as Hv'. destruct Hv' as (q & Hq & ->).
  assert (¬ live (view q)) as Hnl by (intros [E|E]; congruence).
  set (v' := AP Unused (pid q) (parent q) (ofile q) (cwd q)).
  assert (aview (upd t np (λ p, set_state (set_kstack p 0) UNUSED)) = <[np := v']> (aview t)) as Ev
    by (by rewrite (aview_upd _ _ _ q)).
  assert (m ≠ Exiting) as Hmx by (destruct Ht as [-> | ->]; done).
  split; cbn [tab cpus modes trace]; rewrite ?Ev; try done.
  - eapply cpu_same; [done| |done]. by rewrite Hemb.
  - by eapply pid_same.
  - eapply tree_update; [done|done| | |done].
    + intros [[|]|]; done.
    + intros _. apply (tr_none _ _ H4 np (view q)); [done|]. intros [|Hz]; [done|]. congruence.
  - apply mode_untouched; [| |by apply mode_delete].
    + rewrite lookup_delete_None. right. by eapply mode_not_live.
    + intros p' m' [Hne Hp']%lookup_delete_Some Ht'. apply Hne. by eapply (mo_inj _ _ _ H5).
  - eapply refs_update; [done|by apply (rf_len _ _ H6 np (view q))| | | |done].
    + intros _. by apply (rf_free _ _ H6 np (view q)).
    + intros [|]; done.
    + intros j _. rewrite lookup_delete_Some. naive_solver.
  - apply count_silent; [done..|]. by eapply count_same.
Qed.

Lemma step_fork_stack c i np k t cs ms tr init :
  cs !! c = Some (Some i) → ms !! i = Some (ForkStack np) → pinv (PSys t cs ms tr) init →
  pinv (PSys (allocproc_stack t np k).2 cs (if k =? 0 then delete i ms else <[i := ForkCopy np]> ms) tr) init.
Proof.
  intros Hc Hm Hp. unfold allocproc_stack. destruct (k =? 0) eqn:Ek.
  { rewrite <-(app_nil_r tr). eapply step_fork_abort; [done|by left|done..]. }
  pose proof Hp as [H1 H2 H3 H4 H5 H6 H7]. cbn [tab cpus modes trace] in *.
  destruct (mo_fork _ _ _ H5 i _ np Hm) as (v & Hv & Hemb); [by left|].
  apply aview_lookup in Hv as Hv'. destruct Hv' as (q & Hq & ->).
  assert (aview (upd t np (λ p, set_kstack p k)) = aview t) as Ev.
  { rewrite (aview_upd _ _ _ q) by done. by apply list_insert_id. }
  destruct (running_entry _ _ _ _ Hp Hc) as (p & _ & Es & Hvp). cbn [tab] in Hvp.
  split; cbn [tab cpus modes trace snd]; rewrite ?Ev; try done.
  - eapply mode_insert; [done|right; cbn; by rewrite Es| |done|done].
    intros n [?|[= <-]]; [done|]. split; [eauto|]. intros p' m' Hne Hp' Ht. apply Hne.
    eapply (mo_inj _ _ _ H5); [done|done|done|by left].
  - eapply refs_modes; [|done]. intros j Hj. rewrite lookup_insert_ne; [done|]. intros ->. congruence.
Qed.

Lemma step_fork_copy c i np pg r t t' e cs ms tr init :
  cs !! c = Some (Some i) → ms !! i = Some (ForkCopy np) → fork_copy t i np pg = Ret (r, t', e) →
  pinv (PSys t cs ms tr) init → pinv (PSys t' cs (delete i ms) (tr ++ e)) init.
Proof.
  intros Hc Hm E Hp. destruct (running_entry _ _ _ _ Hp Hc) as (p & Ep & Es & Hvp). cbn [tab] in *.
  pose proof Hp as [H1 H2 H3 H4 H5 H6 H7]. cbn [tab cpus modes trace] in *.
  destruct (mo_fork _ _ _ H5 i _ np Hm) as (v & Hv & Hemb); [by right|].
  apply aview_lookup in Hv as Hv'. destruct Hv' as (q & Hq & ->).
  unfold fork_copy in E. rewrite Ep, Hq in E. cbn [opt mbind outcome_bind] in E.
  destruct (pg =? 0).
  { injection E as <- <- <-. eapply step_fork_abort; [done|by right|done..]. }
  assert (¬ live (view q)) as Hnl by (intros [El|El]; congruence).
  destruct (rf_free _ _ H6 np (view q) Hv Hnl) as [Hnf Hnc]. cbn in Hnf, Hnc.
  assert (live (view p)) as Hlp by (right; cbn; by rewrite Es).
  pose proof (rf_len _ _ H6 i _ Hvp) as Hlen. pose proof (rf_len _ _ H6 np _ Hv) as Hlenq. cbn in Hlen, Hlenq.
  destruct (dup_files_spec (ofile p) (ofile q)) as [Ed Eb]; [congruence|done|].
  destruct (dup_files (ofile p) (ofile q)) as [files e0]. cbn [fst snd] in *. subst files.
  destruct (cwd p) as [ip|] eqn:Ecwd; [|done]. cbn [opt mbind outcome_bind] in E. injection E as <- <- <-.
  set (v' := AP Idle (pid q) (Some i) (ofile p) (Some ip)).
  match goal with |- pinv (PSys (upd t np ?f) _ _ _) _ => assert (aview (upd t np f) = <[np := v']> (aview t)) as Ev
    by exact (aview_upd t np f q Hq) end.
  split; cbn [tab cpus modes trace]; rewrite ?Ev; try done.
  - eapply cpu_same; [done| |done]. by rewrite Hemb.
  - eapply pid_same; [done| |done]. intros _. by rewrite Hemb.
  - eapply tree_update; [done|done| | |done].
    + intros _ _. right. exists i, (view p). split_and!; [done| |done|done]. intros ->. congruence.
    + intros Hn. destruct Hn. left. by left.
  - apply mode_untouched; [| |by apply mode_delete].
    + rewrite lookup_delete_None. right. by eapply mode_not_live.
    + intros p' m' [Hne Hp']%lookup_delete_Some Ht'. apply Hne. eapply (mo_inj _ _ _ H5); [done|done|by right|done].
  - eapply refs_update; [done|done| | | |done].
    + intros Hn. by destruct Hn; left.
    + intros _ _. by eexists.
    + intros j _. rewrite lookup_delete_Some. naive_solver.
  - eapply count_update; [done| | |done].
    + intros f. destruct (Eb f) as [Ef _]. rewrite balance_app, Ef. unfold nfile. cbn [afiles view v'].
      rewrite (no_files_count f (ofile q)) by done. cbn [balance file_delta]. lia.
    + intros j. destruct (Eb 0%nat) as [_ Ei]. rewrite balance_app, Ei. unfold ncwd. cbn [acwd view v']. rewrite Hnc.
      cbn [balance inode_delta]. repeat case_decide; simplify_eq; lia.
Qed.

Lemma step_exit_close c i t t' e cs ms tr init :
  cs !! c = Some (Some i) → ms !! i = None → exit_close t i = Ret (t', e) →
  pinv (PSys t cs ms tr) init → pinv (PSys t' cs (<[i := Exiting]> ms) (tr ++ e)) init.
Proof.
  intros Hc Hm E Hp. destruct (running_entry _ _ _ _ Hp Hc) as (p & Ep & Es & Hv). cbn [tab] in *.
  pose proof Hp as [H1 H2 H3 H4 H5 H6 H7]. cbn [tab cpus modes trace] in *.
  unfold exit_close in E. rewrite Ep in E. cbn [opt mbind outcome_bind] in E.
  case_bool_decide as Einit; [done|]. destruct (close_files_spec (ofile p)) as (C1 & C2 & C3).
  destruct (close_files (ofile p)) as [files e0]. cbn [fst snd] in *.
  destruct (cwd p) as [ip|] eqn:Ecwd; [|done]. cbn [opt mbind outcome_bind] in E. injection E as <- <-.
  assert (live (view p)) as Hl by (right; cbn; by rewrite Es).
  set (v' := AP Running (pid p) (parent p) files None).
  assert (no_refs v') as Hnr by done. assert (live v') as Hl' by (by right).
  match goal with |- pinv (PSys (upd t i ?f) _ _ _) _ => assert (aview (upd t i f) = <[i := v']> (aview t)) as Ev end.
  { rewrite (aview_upd _ _ _ p) by done. unfold view. cbn. by rewrite Es. }
  pose proof (rf_len _ _ H6 i _ Hv) as Hlen. cbn in Hlen.
  split; cbn [tab cpus modes trace]; rewrite ?Ev; try done.
  - eapply cpu_same; [done| |done]. cbn. by rewrite Es.
  - eapply pid_same; [done| |done]. intros _. cbn. by rewrite Es.
  - eapply tree_update; [done|done| | |done].
    + intros _ _. left. split; [by left|done].
    + intros Hn. by destruct Hn; left.
  - eapply (mode_insert _ _ _ _ _ v'); [|done| | |].
    + rewrite list_lookup_insert_eq by (by eapply lookup_lt_Some). done.
    + intros n [?|?]; done.
    + intros _. split; [|done]. intros ->. congruence.
    + eapply mode_update; [done|done| |by rewrite Hm|done]. cbn. by rewrite Es.
  - eapply refs_update; [done|cbn; congruence|done| | |done].
    + intros _. by rewrite lookup_insert_eq.
    + intros j Hj. by rewrite lookup_insert_ne.
  - eapply count_update; [done| | |done].
    + intros f. destruct (C3 f) as [Ef _]. rewrite balance_app, Ef. unfold nfile. cbn [afiles view v'].
      rewrite no_files_count by done. cbn [balance file_delta]. lia.
    + intros j. destruct (C3 0%nat) as [_ Ei]. rewrite balance_app, Ei. unfold ncwd. cbn [acwd view v']. rewrite Ecwd.
      cbn [balance inode_delta]. repeat case_decide; simplify_eq; lia.
Qed.

Lemma step_exit_zombie c i t t' cs ms tr init :
  cs !! c = Some (Some i) → ms !! i = Some Exiting → exit_zombie t i = Ret t' →
  pinv (PSys t cs ms tr) init → pinv (PSys t' (<[c := None]> cs) (delete i ms) tr) init.
Proof.
  intros Hc Hm E Hp. destruct (running_entry _ _ _ _ Hp Hc) as (p & Ep & Es & Hv). cbn [tab] in *.
  pose proof Hp as [H1 H2 H3 H4 H5 H6 H7]. cbn [tab cpus modes trace] in *.
  unfold exit_zombie in E. rewrite Ep in E. cbn [opt mbind outcome_bind] in E. injection E as <-.
  set (t0 := wakeup1 t (chan_of (parent p))).
  assert (aview t0 = aview t) as E0 by apply aview_wakeup.
  destruct (aview_abandon i init (length (procs t0)) 0 t0 H1) as (A1 & A2 & A3).
  set (t1 := abandon i 0 (length (procs t0)) t0) in *.
  change (pinv (PSys (upd t1 i (λ p, set_state p ZOMBIE)) (<[c := None]> cs) (delete i ms) tr) init).
  assert (aview t1 = adopt i init <$> aview t) as E1.
  { apply list_eq. intros j. rewrite A3, E0, list_lookup_fmap. destruct (aview t !! j) as [v|] eqn:Ej; [|done]. cbn [fmap option_fmap option_map].
    rewrite decide_True; [done|]. apply lookup_lt_Some in Ej. rewrite <-E0 in Ej. unfold aview in Ej.
    rewrite length_fmap in Ej. lia. }
  assert (aview t1 !! i = Some (adopt i init (view p))) as Hv1 by (by rewrite E1, list_lookup_fmap, Hv).
  apply aview_lookup in Hv1 as Hv1'. destruct Hv1' as (p1 & Hp1 & Ep1).
  set (v' := AP Zombie (pid p1) (parent p1) (ofile p1) (cwd p1)).
  assert (aview (upd t1 i (λ p, set_state p ZOMBIE)) = <[i := v']> (adopt i init <$> aview t)) as Ev
    by (rewrite (aview_upd _ _ _ p1) by done; by rewrite E1).
  rewrite E1 in Hv1. destruct (mo_exit _ _ _ H5 i Hm) as (Hni & w & Hw & Hnr).
  assert (w = view p) as -> by congruence.
  assert (no_refs v') as Hnr'.
  { destruct (adopt_core i init (view p)) as (_ & _ & F1 & F2). rewrite Ep1 in F1, F2. cbn in F1, F2.
    unfold no_refs in *. cbn in *. by rewrite F1, F2. }
  pose proof (adopt_core i init) as Hcore.
  split; cbn [tab cpus modes trace]; rewrite ?Ev; try done.
  - eapply cpu_stop; [done|done|done|]. by apply reparent_cpu.
  - change (nextpid (upd t1 i _)) with (nextpid t1). rewrite A2. eapply pid_same; [done| |by apply reparent_pid].
    intros _. rewrite adopt_cls. cbn. rewrite Es, Ep1. done.
  - eapply tree_exit; [done| |done|done|by rewrite Ep1|done]. right. cbn. by rewrite Es.
  - apply mode_untouched; [by rewrite lookup_delete_eq| |].
    + intros p' m' [Hne Hp']%lookup_delete_Some. eapply mode_not_target; [exact H5|done| |done]. cbn. by rewrite Es.
    + by apply mode_delete, reparent_mode.
  - eapply refs_update; [done| |done| | |by apply reparent_refs].
    + cbn. pose proof (rf_len _ _ (reparent_refs _ Hcore _ _ H6) i _ Hv1) as Hl. by rewrite Ep1 in Hl.
    + intros [|]; done.
    + intros j Hj. by rewrite lookup_delete_ne.
  - eapply count_same; [done|by rewrite Ep1|by rewrite Ep1|]. by apply reparent_count.
Qed.

Lemma wait_loop_spec l cur : ∀ i hk r j, wait_loop l cur i hk = (r, Some j) →
  ∃ k p, j = (i + k)%nat ∧ l !! k = Some p ∧ parent p = Some cur ∧ state p = ZOMBIE.
Proof.
  induction l as [|p l IH]; intros i hk r j E; cbn [wait_loop] in E; [done|].
  assert (∀ hk', wait_loop l cur (S i) hk' = (r, Some j) →
    ∃ k q, j = (i + k)%nat ∧ (p :: l) !! k = Some q ∧ parent q = Some cur ∧ state q = ZOMBIE) as Hrec.
  { intros hk' E'. destruct (IH _ _ _ _ E') as (k & q & -> & Hq & Hrest). exists (S k), q. split; [lia|done]. }
  case_bool_decide as Ep; cbn [negb] in E; [|by eapply Hrec].
  case_bool_decide as Ez; [|by eapply Hrec]. injection E as <- <-. exists 0%nat, p. by rewrite Nat.add_0_r.
Qed.

Lemma step_wait c i res t t' e cs ms tr init :
  cs !! c = Some (Some i) → wait t i = Ret (res, t', e) → pinv (PSys t cs ms tr) init →
  pinv (PSys t' (match res with MustSleep => <[c := None]> cs | _ => cs end) ms (tr ++ e)) init.
Proof.
  intros Hc E Hp. destruct (running_entry _ _ _ _ Hp Hc) as (p & Ep & Es & Hv). cbn [tab] in *.
  unfold wait in E. rewrite Ep in E. cbn [opt mbind outcome_bind] in E.
  destruct (wait_loop (procs t) i 0 false) as [hk [j|]] eqn:Ew.
  - apply wait_loop_spec in Ew as (k & q & -> & Hq & Hpar & Hz). cbn [Nat.add] in *. rewrite Hq in E.
    cbn [opt mbind outcome_bind] in E. injection E as <- <- <-.
    pose proof Hp as [H1 H2 H3 H4 H5 H6 H7]. cbn [tab cpus modes trace] in *.
    assert (aview t !! k = Some (view q)) as Hvq by (apply aview_lookup; eauto).
    assert (acls (view q) = Zombie) as Ecl by (cbn; by rewrite Hz).
    assert (¬ live (view q)) as Hnl by (intros [El|El]; congruence).
    assert (aview (upd t k reap) = <[k := view (reap q)]> (aview t)) as Ev by (by apply aview_upd).
    split; cbn [tab cpus modes trace]; rewrite ?Ev; try done.
    + eapply cpu_same; [done| |done]. by rewrite Ecl.
    + by eapply pid_same.
    + eapply tree_update; [done|done| |done|done]. intros [[|]|]; done.
    + apply mode_untouched; [by eapply mode_not_live| |done].
      intros p' m' Hp'. eapply mode_not_target; [done|done| |done]. congruence.
    + eapply refs_update; [done|by apply (rf_len _ _ H6 k (view q))| | |done|done].
      * intros _. by apply (rf_free _ _ H6 k (view q)).
      * intros [|]; done.
    + apply count_silent; [done..|]. by eapply count_same.
  - destruct (negb hk || negb (killed p =? 0)).
    + injection E as <- <- <-. by rewrite app_nil_r.
    + injection E as <- <- <-. rewrite app_nil_r. by apply step_stop.
Qed.

Lemma step_inv σ σ' init : kstep σ σ' → pinv σ init → pinv σ' init.
Proof.
  destruct 1 as [c i t t' cs ms tr Hc E|c i t cs ms tr Hc|c i a t t' cs ms tr Hc E|ch t cs ms tr|n t cs ms tr|
    c i n newsz r t t' cs ms tr Hc E|c i np t t' cs ms tr Hc Hm E|c i np k t cs ms tr Hc Hm|
    c i np pg r t t' e cs ms tr Hc Hm E|c i t t' e cs ms tr Hc Hm E|c i t t' cs ms tr Hc Hm E|
    c i res t t' e cs ms tr Hc Hm E|c i f fd o p t cs ms tr Hc Hm Ep E|c i fd r t t' e cs ms tr Hc Hm E|
    c i fd r t t' e cs ms tr Hc Hm E]; intros Hp.
  - by eapply step_schedule.
  - by apply step_stop.
  - injection E as <-. by apply step_stop.
  - eapply step_view; [apply aview_wakeup|done..].
  - destruct (aview_kill t n) as (E1 & E2 & E3). by eapply step_view.
  - destruct (running_entry _ _ _ _ Hp Hc) as (p & Ep & _ & Hv). cbn [tab] in *. unfold growproc in E.
    rewrite Ep in E. cbn [opt mbind outcome_bind] in E. repeat case_match; try (by injection E as <- <-).
    injection E as <- <-. apply (step_view t); [|done..]. rewrite (aview_upd _ _ _ p) by done.
    by apply list_insert_id.
  - by eapply step_fork_find.
  - by eapply step_fork_stack.
  - by eapply step_fork_copy.
  - by eapply step_exit_close.
  - by eapply step_exit_zombie.
  - by eapply step_wait.
  - destruct (fdalloc_loop_spec _ _ _ _ _ E) as [Hl Hcnt]. eapply (step_files c i o); try done.
    intros g. rewrite Hcnt. cbn. repeat case_decide; lia.
  - destruct (running_entry _ _ _ _ Hp Hc) as (p & Ep & _ & _). cbn [tab] in *. unfold sys_dup in E.
    rewrite Ep in E. cbn [opt mbind outcome_bind] in E.
    destruct (argfd (ofile p) fd) as [f|]; [|injection E as <- <- <-; by rewrite app_nil_r].
    destruct (fdalloc (ofile p) f) as [[fd' o]|] eqn:Ef; [|injection E as <- <- <-; by rewrite app_nil_r].
    injection E as <- <- <-. destruct (fdalloc_loop_spec _ _ _ _ _ Ef) as [Hl Hcnt].
    eapply (step_files c i o); try done. intros g. rewrite Hcnt. cbn. repeat case_decide; lia.
  - destruct (running_entry _ _ _ _ Hp Hc) as (p & Ep & _ & _). cbn [tab] in *. unfold sys_close in E.
    rewrite Ep in E. cbn [opt mbind outcome_bind] in E.
    destruct (argfd (ofile p) fd) as [f|] eqn:Ea; [|injection E as <- <- <-; by rewrite app_nil_r].
    injection E as <- <- <-. apply argfd_Some in Ea.
    eapply (step_files c i (<[Z.to_nat fd := None]> (ofile p))); try done; [apply length_insert|].
    intros g. rewrite (close_count _ _ f) by done. cbn. repeat case_decide; (done || lia).
Qed.

(** ** The machine after [userinit] *)
Definition start (t0 : ptable) (ncpu root : nat) : psys := PSys t0 (replicate ncpu None) ∅ [IGet root].

Lemma boot_view k kpg root t0 : userinit boot k kpg (Some root) = Ret t0 →
  initproc t0 = Some 0%nat ∧ nextpid t0 = 2 ∧
  aview t0 = AP Idle 1 None (replicate NOFILE None) (Some root) :: replicate 63 (view zero_proc).
Proof.
  unfold userinit, allocproc. change (allocproc_find boot) with
    (Some 0%nat, PTable (set_pid (set_state zero_proc EMBRYO) 1 :: replicate 63 zero_proc) None 2).
  cbv beta iota. unfold allocproc_stack. destruct (k =? 0); [done|]. destruct (kpg =? 0); [done|].
  intros [= <-]. done.
Qed.

Lemma boot_lookup root i v :
  (AP Idle 1 None (replicate NOFILE None) (Some root) :: replicate 63 (view zero_proc)) !! i = Some v →
  i = 0%nat ∧ v = AP Idle 1 None (replicate NOFILE None) (Some root) ∨ i ≠ 0%nat ∧ v = view zero_proc.
Proof. destruct i as [|i]; [intros [= <-]; by left|]. cbn [lookup list_lookup]. intros [-> _]%lookup_replicate. by right. Qed.

Lemma total_boot g root : g (view zero_proc) = 0%nat →
  total g (AP Idle 1 None (replicate NOFILE None) (Some root) :: replicate 63 (view zero_proc)) =
    g (AP Idle 1 None (replicate NOFILE None) (Some root)).
Proof.
  intros H0. unfold total. cbn [sum_list_with].
  assert (∀ n, sum_list_with g (replicate n (view zero_proc)) = 0%nat) as ->; [|lia].
  intros n. induction n as [|n IH]; [done|]. cbn [replicate sum_list_with]. lia.
Qed.

Lemma start_inv k kpg root t0 ncpu :
  userinit boot k kpg (Some root) = Ret t0 → pinv (start t0 ncpu root) 0.
Proof.
  intros (E1 & E2 & Ev)%boot_view. unfold start. split; cbn [tab cpus modes trace]; rewrite ?Ev, ?E2.
  - done.
  - split.
    + by intros c i [? _]%lookup_replicate.
    + by intros c c' i [? _]%lookup_replicate.
    + by intros i v [[_ ->]|[_ ->]]%boot_lookup.
  - split; [| |done].
    + intros i v [[_ ->]|[_ ->]]%boot_lookup; cbn; [lia|done].
    + intros i j v w [[-> ->]|[_ ->]]%boot_lookup [[-> ->]|[_ ->]]%boot_lookup; done.
  - split.
    + intros i v [[-> ->]|[_ ->]]%boot_lookup; [done|]. intros [[?|?]|?]; done.
    + intros i v [[-> ->]|[_ ->]]%boot_lookup; done.
    + exists (AP Idle 1 None (replicate NOFILE None) (Some root)). split; [done|by left].
  - split; intros p; rewrite lookup_empty; done.
  - split.
    + intros i v [[-> ->]|[_ ->]]%boot_lookup; done.
    + intros i v [[-> ->]|[_ ->]]%boot_lookup Hn; [destruct Hn; by left|]. split; [|done]. by apply Forall_replicate.
    + intros i v [[-> ->]|[_ ->]]%boot_lookup; [by eexists|]. intros [?|?]; done.
  - split.
    + intros f. rewrite total_boot; [done|]. done.
    + intros ip. rewrite total_boot by done. unfold ncwd. cbn. repeat case_decide; simplify_eq; done.
Qed.

Lemma reachable_pinv k kpg root t0 ncpu σ :
  userinit boot k kpg (Some root) = Ret t0 → rtc kstep (start t0 ncpu root) σ → pinv σ 0.
Proof.
  intros E Hr. pose proof (start_inv k kpg root t0 ncpu E) as H0. clear E.
  induction Hr as [|σ1 σ2 σ3 Hs _ IH]; [done|]. by eapply IH, step_inv.
Qed.

Definition live_state (s : procstate) : Prop := s = SLEEPING ∨ s = RUNNABLE ∨ s = RUNNING.
Lemma live_view p : live (view p) ↔ live_state (state p).
Proof. unfold live, live_state, view. destruct (state p); cbn; naive_solver. Qed.

(** Descriptors for file [f], and current directories [ip], in the table. *)
Definition descriptors (t : ptable) (f : nat) : nat := total (nfile f) (aview t).
Definition cwds (t : ptable) (ip : nat) : nat := total (ncwd ip) (aview t).


(** Init is scheduled on the second of two CPUs. *)
Definition demo_t0 : ptable :=
  match userinit boot 4096 8192 (Some 7%nat) with Ret t => t | _ => boot end.
Definition demo_sched : psys :=
  match scheduler_pick demo_t0 0 with
  | Some t => PSys (sleep_resume t 0) [None; Some 0%nat] ∅ [IGet 7]
  | None => PSys boot [] ∅ []
  end.


(** [kill] compares pids without looking at the state: [kill(0)] finds the
    first free entry, whose pid is 0, returns success and leaves it marked as
    killed; the next [fork] gives that entry, still marked, to the child. *)
Example kill_zero_marks_next_child :
  (kill demo_t0 0).1 = 0 ∧
  ∃ t' e, fork (kill demo_t0 0).2 0 12288 16384 = Ret (2, t', e) ∧
    (killed <$> procs t' !! 1%nat) = Some 1 ∧ (state <$> procs t' !! 1%nat) = Some RUNNABLE.
Proof. split; [reflexivity|]. do 2 eexists. split; [vm_compute; reflexivity|]. split; reflexivity. Qed.
