(* ===== verification/Sh.v ===== *)
(** * The user shell (xv6 [sh.c])

    The command line is a buffer of characters that ends with a NUL; a
    [char*] into it is an index.  The parser threads the position [*ps]; its
    commands point into the buffer, and [nulterminate] writes to it.  A cast to
    a particular command is a match on the constructor.  [malloc] succeeds. *)

From stdpp Require Import base numbers list gmap strings.
From S2P Require Import Prelude Proc.

Open Scope Z_scope.

Definition MAXARGS : nat := 10.
Definition O_RDONLY : Z := 0.
Definition O_WRONLY : Z := 1.
Definition O_RDWR : Z := 2.
Definition O_CREATE : Z := 512.

(** ** Commands *)

(** [argv] and [eargv] are the arrays; [None] is the null pointer. *)
Inductive cmd :=
  | EXEC (argv eargv : list (option nat))
  | REDIR (c : cmd) (file efile : nat) (mode fd : Z)
  | PIPE (left right : cmd)
  | LIST (left right : cmd)
  | BACK (c : cmd).

Definition execcmd : cmd := EXEC (replicate MAXARGS None) (replicate MAXARGS None).

(** A store to [cmd->argv] and [cmd->eargv] through the pointer that
    [parseexec] keeps to the command below the redirections. *)
Fixpoint set_arg (c : cmd) (argc : Z) (q eq : option nat) : outcome cmd :=
  match c with
  | EXEC argv eargv =>
      argv ← arr_set argv argc q;
      eargv ← arr_set eargv argc eq;
      Ret (EXEC argv eargv)
  | REDIR c file efile mode fd => c ← set_arg c argc q eq; Ret (REDIR c file efile mode fd)
  | _ => Undef
  end.

(** ** Characters *)
Definition whitespace : list Z := [32; 9; 13; 10; 11].
Definition symbols : list Z := [60; 124; 62; 38; 59; 40; 41].
Definition c_bar : Z := 124.
Definition c_open : Z := 40.
Definition c_close : Z := 41.
Definition c_semi : Z := 59.
Definition c_amp : Z := 38.
Definition c_lt : Z := 60.
Definition c_gt : Z := 62.
Definition c_plus : Z := 43.
Definition c_word : Z := 97.

(** [strchr(s, c) != 0] for a string [s]: the loop stops at the NUL of [s]. *)
Fixpoint strchr (s : list Z) (c : Z) : bool :=
  match s with
  | [] => false
  | x :: s => if x =? c then true else strchr s c
  end.

(** ** The parser *)
Section parser.
Context (buf : list Z) (es : nat).

(** [while(s < es && p( *s )) s++;] *)
Fixpoint scan (p : Z → bool) (s : nat) (fuel : nat) : outcome nat :=
  if (s <? es)%nat then
    c ← opt (buf !! s);
    if p c then
      match fuel with
      | O => NoFuel
      | S fuel => scan p (S s) fuel
      end
    else Ret s
  else Ret s.

Definition skip_white (s : nat) : outcome nat := scan (strchr whitespace) s es.
Definition in_word (c : Z) : bool := negb (strchr whitespace c) && negb (strchr symbols c).

(** The token's code, its first character and the one behind its last. *)
Definition gettoken : M nat (Z * nat * nat) := fun s =>
  s ← skip_white s;
  let q := s in
  c ← opt (buf !! s);
  '(ret, s) ←
    (if c =? 0 then Ret (c, s)
     else if strchr [c_bar; c_open; c_close; c_semi; c_amp; c_lt] c then Ret (c, S s)
     else if c =? c_gt then
       c' ← opt (buf !! S s);
       if c' =? c_gt then Ret (c_plus, S (S s)) else Ret (c, S s)
     else s ← scan in_word s es; Ret (c_word, s));
  let eq := s in
  s ← skip_white s;
  Ret ((ret, q, eq), s).

Definition peek (toks : list Z) : M nat bool := fun s =>
  s ← skip_white s;
  c ← opt (buf !! s);
  Ret (negb (c =? 0) && strchr toks c, s).

Definition redircmd (tok : Z) (c : cmd) (q eq : nat) : cmd :=
  if tok =? c_lt then REDIR c q eq O_RDONLY 0
  else if tok =? c_gt then REDIR c q eq (Z.lor O_WRONLY O_CREATE) 1
  else if tok =? c_plus then REDIR c q eq (Z.lor O_WRONLY O_CREATE) 1
  else c.

Fixpoint parseredirs_loop (c : cmd) (fuel : nat) : M nat cmd :=
  b ← peek [c_lt; c_gt];
  if (b : bool) then
    match fuel with
    | O => lift NoFuel
    | S fuel =>
        '(tok, _, _) ← gettoken;
        '(t, q, eq) ← gettoken;
        if negb (t =? c_word) then panic "missing file for redirection"
        else parseredirs_loop (redircmd tok c q eq) fuel
    end
  else mret c.
Definition parseredirs (c : cmd) : M nat cmd := parseredirs_loop c es.

(** The loop of [parseexec] and the stores behind it. *)
Fixpoint parseexec_loop (ret : cmd) (argc : Z) (fuel : nat) : M nat cmd :=
  b ← peek [c_bar; c_close; c_amp; c_semi];
  if (b : bool) then lift (set_arg ret argc None None)
  else
    '(tok, q, eq) ← gettoken;
    if tok =? 0 then lift (set_arg ret argc None None)
    else if negb (tok =? c_word) then panic "syntax"
    else
      match fuel with
      | O => lift NoFuel
      | S fuel =>
          ret ← lift (set_arg ret argc (Some q) (Some eq));
          let argc := argc + 1 in
          if Z.of_nat MAXARGS <=? argc then panic "too many args"
          else
            ret ← parseredirs ret;
            parseexec_loop ret argc fuel
      end.

(** [while(peek(ps, es, "&")) ...] of [parseline]. *)
Fixpoint back_loop (c : cmd) (fuel : nat) : M nat cmd :=
  b ← peek [c_amp];
  if (b : bool) then
    match fuel with
    | O => lift NoFuel
    | S fuel => gettoken ;; back_loop (BACK c) fuel
    end
  else mret c.

Fixpoint parseline (fuel : nat) : M nat cmd :=
  match fuel with
  | O => lift NoFuel
  | S fuel =>
      c ← parsepipe fuel;
      c ← back_loop c es;
      b ← peek [c_semi];
      if (b : bool) then
        gettoken ;;
        r ← parseline fuel;
        mret (LIST c r)
      else mret c
  end
with parsepipe (fuel : nat) : M nat cmd :=
  match fuel with
  | O => lift NoFuel
  | S fuel =>
      c ← parseexec fuel;
      b ← peek [c_bar];
      if (b : bool) then
        gettoken ;;
        r ← parsepipe fuel;
        mret (PIPE c r)
      else mret c
  end
with parseexec (fuel : nat) : M nat cmd :=
  match fuel with
  | O => lift NoFuel
  | S fuel =>
      b ← peek [c_open];
      if (b : bool) then parseblock fuel
      else
        ret ← parseredirs execcmd;
        parseexec_loop ret 0 es
  end
with parseblock (fuel : nat) : M nat cmd :=
  match fuel with
  | O => lift NoFuel
  | S fuel =>
      b ← peek [c_open];
      if negb b then panic "parseblock"
      else
        gettoken ;;
        c ← parseline fuel;
        b ← peek [c_close];
        if negb b then panic "syntax - missing )"
        else gettoken ;; parseredirs c
  end.

End parser.

Definition put_nul (e : nat) : M (list Z) unit := fun buf =>
  buf ← arr_set buf (Z.of_nat e) 0; Ret (tt, buf).

(** [for(i = 0; argv[i]; i++) *eargv[i] = 0;] on the arrays from [i] on. *)
Fixpoint nul_args (argv eargv : list (option nat)) : M (list Z) unit :=
  match argv, eargv with
  | Some _ :: argv, Some e :: eargv =>
      put_nul e ;; nul_args argv eargv
  | None :: _, _ => mret tt
  | _, _ => lift Undef
  end.

Fixpoint nulterminate (c : cmd) : M (list Z) unit :=
  match c with
  | EXEC argv eargv => nul_args argv eargv
  | REDIR c _ efile _ _ => nulterminate c ;; put_nul efile
  | PIPE l r => nulterminate l ;; nulterminate r
  | LIST l r => nulterminate l ;; nulterminate r
  | BACK c => nulterminate c
  end.

(** [strlen] of the string at the start of a buffer. *)
Fixpoint strlen (buf : list Z) : outcome nat :=
  match buf with
  | [] => Undef
  | c :: buf => if c =? 0 then Ret 0%nat else n ← strlen buf; Ret (S n)
  end.

(** The command and the buffer it points into. *)
Definition parsecmd (buf : list Z) : outcome (cmd * list Z) :=
  es ← strlen buf;
  '(c, s) ← parseline buf es (4 * S es) 0%nat;
  '(_, s) ← peek buf es [] s;
  if negb (s =? es)%nat then Panic "syntax"
  else
    '(_, buf) ← nulterminate c buf;
    Ret (c, buf).
