(* ===== verification/ShParse.v ===== *)
(** * The shell's parser recognises its grammar (xv6 [sh.c])

    The reference is a lexer from character strings to tokens and a grammar of
    command lines.  A parser over tokens stands between the two: the code,
    which works on positions of the buffer, is simulated by it step by step,
    and it is proved sound, complete and total for the grammar. *)

From stdpp Require Import base numbers list gmap strings.
From S2P Require Import Prelude Sh.

Open Scope Z_scope.

(** ** Tokens *)
Inductive token := Sym (c : Z) | App | Word (w : list Z).

Fixpoint lex (l : list Z) : list token :=
  match l with
  | [] => []
  | c :: l' =>
      if strchr whitespace c then lex l'
      else if c =? c_gt then
        match l' with
        | c' :: l'' => if c' =? c_gt then App :: lex l'' else Sym c :: lex l'
        | [] => [Sym c]
        end
      else if strchr symbols c then Sym c :: lex l'
      else
        match l' with
        | c' :: _ =>
            if in_word c' then
              match lex l' with
              | Word w :: ts => Word (c :: w) :: ts
              | ts => Word [c] :: ts
              end
            else Word [c] :: lex l'
        | [] => [Word [c]]
        end
  end.

(** ** The grammar

    A line is a pipeline, ampersands, and possibly another line; a command is
    a block with redirections or a list of words and redirections. *)
Inductive rop := RIn | ROut | RApp.
Record redir := Redir { r_op : rop; r_file : list Z }.
Inductive item := Arg (w : list Z) | Red (r : redir).

Inductive line := LEnd (p : pipeline) (bg : nat) | LSeq (p : pipeline) (bg : nat) (l : line)
with pipeline := PEnd (e : command) | PBar (e : command) (p : pipeline)
with command := Block (l : line) (rs : list redir) | Simple (its : list item).

Scheme line_mind := Induction for line Sort Prop
  with pipeline_mind := Induction for pipeline Sort Prop
  with command_mind := Induction for command Sort Prop.
Combined Scheme syntax_ind from line_mind, pipeline_mind, command_mind.

Definition flat_redir (r : redir) : list token :=
  [match r_op r with RIn => Sym c_lt | ROut => Sym c_gt | RApp => App end; Word (r_file r)].
Definition flat_item (i : item) : list token :=
  match i with Arg w => [Word w] | Red r => flat_redir r end.

Fixpoint flat_line (l : line) : list token :=
  match l with
  | LEnd p bg => flat_pipe p ++ replicate bg (Sym c_amp)
  | LSeq p bg l => flat_pipe p ++ replicate bg (Sym c_amp) ++ Sym c_semi :: flat_line l
  end
with flat_pipe (p : pipeline) : list token :=
  match p with
  | PEnd e => flat_cmd e
  | PBar e p => flat_cmd e ++ Sym c_bar :: flat_pipe p
  end
with flat_cmd (e : command) : list token :=
  match e with
  | Block l rs => Sym c_open :: flat_line l ++ Sym c_close :: concat (flat_redir <$> rs)
  | Simple its => concat (flat_item <$> its)
  end.

(** ** What a command line means *)
Inductive ast :=
  | AExec (args : list (list Z))
  | ARedir (c : ast) (file : list Z) (mode fd : Z)
  | APipe (l r : ast)
  | AList (l r : ast)
  | ABack (c : ast).

Definition aredir (op : rop) (c : ast) (w : list Z) : ast :=
  match op with
  | RIn => ARedir c w O_RDONLY 0
  | ROut | RApp => ARedir c w (Z.lor O_WRONLY O_CREATE) 1
  end.
Definition wrap (c : ast) (rs : list redir) : ast := foldl (λ c r, aredir (r_op r) c (r_file r)) c rs.

Definition args (its : list item) : list (list Z) :=
  omap (λ i, match i with Arg w => Some w | Red _ => None end) its.
Definition redirs (its : list item) : list redir :=
  omap (λ i, match i with Arg _ => None | Red r => Some r end) its.

Fixpoint den_line (l : line) : ast :=
  match l with
  | LEnd p bg => Nat.iter bg ABack (den_pipe p)
  | LSeq p bg l => AList (Nat.iter bg ABack (den_pipe p)) (den_line l)
  end
with den_pipe (p : pipeline) : ast :=
  match p with
  | PEnd e => den_cmd e
  | PBar e p => APipe (den_cmd e) (den_pipe p)
  end
with den_cmd (e : command) : ast :=
  match e with
  | Block l rs => wrap (den_line l) rs
  | Simple its => wrap (AExec (args its)) (redirs its)
  end.

(** Every command has fewer than [MAXARGS] words. *)
Fixpoint ok_line (l : line) : Prop :=
  match l with
  | LEnd p _ => ok_pipe p
  | LSeq p _ l => ok_pipe p ∧ ok_line l
  end
with ok_pipe (p : pipeline) : Prop :=
  match p with
  | PEnd e => ok_cmd e
  | PBar e p => ok_cmd e ∧ ok_pipe p
  end
with ok_cmd (e : command) : Prop :=
  match e with
  | Block l _ => ok_line l
  | Simple its => (length (args its) < MAXARGS)%nat
  end.

(** ** The parser over tokens *)
Definition tpeek (toks : list Z) : M (list token) bool := fun ts =>
  Ret (match ts with
       | Sym c :: _ => strchr toks c
       | App :: _ => strchr toks c_gt
       | _ => false
       end, ts).
Definition ttoken : M (list token) (Z * list Z) := fun ts =>
  Ret (match ts with
       | [] => (0, [], [])
       | Sym c :: ts => (c, [], ts)
       | App :: ts => (c_plus, [], ts)
       | Word w :: ts => (c_word, w, ts)
       end).

Definition tredir (tok : Z) (c : ast) (w : list Z) : ast :=
  if tok =? c_lt then aredir RIn c w
  else if tok =? c_gt then aredir ROut c w
  else if tok =? c_plus then aredir RApp c w
  else c.

Fixpoint add_arg (c : ast) (w : list Z) : ast :=
  match c with
  | AExec ws => AExec (ws ++ [w])
  | ARedir c f m fd => ARedir (add_arg c w) f m fd
  | c => c
  end.

Section tparser.
Context (n : nat).

Fixpoint tredirs_loop (c : ast) (fuel : nat) : M (list token) ast :=
  b ← tpeek [c_lt; c_gt];
  if (b : bool) then
    match fuel with
    | O => lift NoFuel
    | S fuel =>
        '(tok, _) ← ttoken;
        '(t, w) ← ttoken;
        if negb (t =? c_word) then panic "missing file for redirection"
        else tredirs_loop (tredir tok c w) fuel
    end
  else mret c.
Definition tredirs (c : ast) : M (list token) ast := tredirs_loop c n.

Fixpoint texec_loop (ret : ast) (argc : Z) (fuel : nat) : M (list token) ast :=
  b ← tpeek [c_bar; c_close; c_amp; c_semi];
  if (b : bool) then mret ret
  else
    '(tok, w) ← ttoken;
    if tok =? 0 then mret ret
    else if negb (tok =? c_word) then panic "syntax"
    else
      match fuel with
      | O => lift NoFuel
      | S fuel =>
          let ret := add_arg ret w in
          let argc := argc + 1 in
          if Z.of_nat MAXARGS <=? argc then panic "too many args"
          else
            ret ← tredirs ret;
            texec_loop ret argc fuel
      end.

Fixpoint tback_loop (c : ast) (fuel : nat) : M (list token) ast :=
  b ← tpeek [c_amp];
  if (b : bool) then
    match fuel with
    | O => lift NoFuel
    | S fuel => ttoken ;; tback_loop (ABack c) fuel
    end
  else mret c.

Fixpoint tline (fuel : nat) : M (list token) ast :=
  match fuel with
  | O => lift NoFuel
  | S fuel =>
      c ← tpipe fuel;
      c ← tback_loop c n;
      b ← tpeek [c_semi];
      if (b : bool) then ttoken ;; r ← tline fuel; mret (AList c r) else mret c
  end
with tpipe (fuel : nat) : M (list token) ast :=
  match fuel with
  | O => lift NoFuel
  | S fuel =>
      c ← texec fuel;
      b ← tpeek [c_bar];
      if (b : bool) then ttoken ;; r ← tpipe fuel; mret (APipe c r) else mret c
  end
with texec (fuel : nat) : M (list token) ast :=
  match fuel with
  | O => lift NoFuel
  | S fuel =>
      b ← tpeek [c_open];
      if (b : bool) then tblock fuel
      else ret ← tredirs (AExec []); texec_loop ret 0 n
  end
with tblock (fuel : nat) : M (list token) ast :=
  match fuel with
  | O => lift NoFuel
  | S fuel =>
      b ← tpeek [c_open];
      if negb b then panic "parseblock"
      else
        ttoken ;;
        c ← tline fuel;
        b ← tpeek [c_close];
        if negb b then panic "syntax - missing )" else ttoken ;; tredirs c
  end.

End tparser.

(** ** Simulation *)

(** Outcomes that agree: related results or the same panic, never [Undef]. *)
Definition osim {A B} (R : A → B → Prop) (x : outcome A) (y : outcome B) : Prop :=
  match x, y with
  | Ret a, Ret b => R a b
  | Panic m, Panic m' => m = m'
  | NoFuel, NoFuel => True
  | _, _ => False
  end.

Lemma strchr_spec l c : strchr l c = true ↔ c ∈ l.
Proof.
  induction l as [|x l IH]; cbn; [by rewrite elem_of_nil|].
  rewrite elem_of_cons. case_if; [by subst; tauto|]. rewrite IH. naive_solver.
Qed.

Lemma strchr_false l c : strchr l c = false ↔ c ∉ l.
Proof. rewrite <- strchr_spec. by destruct (strchr l c). Qed.

Section simulation.
Context (str tl : list Z) (Hnul : 0 ∉ str).
Let buf : list Z := str ++ 0 :: tl.
Let es : nat := length str.

(** [w] is the word between [q] and [e], and ends there. *)
Definition wordat (q e : nat) (w : list Z) : Prop :=
  e = (q + length w)%nat ∧ Forall (λ c, in_word c = true) w ∧ take (length w) (drop q str) = w ∧
  (e ≤ es)%nat ∧ (∀ c, str !! e = Some c → in_word c = false).

Definition pad (l : list nat) : list (option nat) := (Some <$> l) ++ replicate (MAXARGS - length l) None.

(** The parsed command stands for the tree. *)
Inductive means : cmd → ast → Prop :=
  | means_exec qs es ws :
      (length ws < MAXARGS)%nat → Forall3 wordat qs es ws → means (EXEC (pad qs) (pad es)) (AExec ws)
  | means_redir c a q e w m fd : means c a → wordat q e w → means (REDIR c q e m fd) (ARedir a w m fd)
  | means_pipe l r a b : means l a → means r b → means (PIPE l r) (APipe a b)
  | means_list l r a b : means l a → means r b → means (LIST l r) (AList a b)
  | means_back c a : means c a → means (BACK c) (ABack a).

(** The tokens ahead of a position. *)
Definition ahead (s : nat) (ts : list token) : Prop := (s ≤ es)%nat ∧ lex (drop s str) = ts.

Definition msim {A B} (R : A → B → Prop) (m : M nat A) (m' : M (list token) B) : Prop :=
  ∀ s ts, ahead s ts → osim (λ x y, R x.1 y.1 ∧ ahead x.2 y.2) (m s) (m' ts).

Lemma msim_bind {A B A' B'} (R : A → B → Prop) (R' : A' → B' → Prop) m m' f f' :
  msim R m m' → (∀ a b, R a b → msim R' (f a) (f' b)) → msim R' (m ≫= f) (m' ≫= f').
Proof.
  intros Hm Hf s ts Hs. specialize (Hm s ts Hs). unfold mbind, M_bind.
  destruct (m s) as [[a s1]|?| |], (m' ts) as [[b ts1]|?| |]; cbn in *; try done.
  destruct Hm as [HR Ha]. by apply Hf.
Qed.

Lemma msim_ret {A B} (R : A → B → Prop) a b : R a b → msim R (mret a) (mret b).
Proof. by intros HR s ts Hs. Qed.

Lemma msim_panic {A B} (R : A → B → Prop) m : msim R (panic m) (panic m).
Proof. by intros s ts Hs. Qed.

Lemma msim_nofuel {A B} (R : A → B → Prop) : msim R (lift NoFuel) (lift NoFuel).
Proof. by intros s ts Hs. Qed.

Lemma msim_lift {A A' B} (R : A' → B → Prop) (a : A) f m' :
  msim R (f a) m' → msim R (lift (Ret a) ≫= f) m'.
Proof. by intros H s ts Hs; apply H. Qed.

Lemma buf_lookup s : (s < es)%nat → buf !! s = str !! s.
Proof. intros. unfold buf. by rewrite lookup_app_l. Qed.

Lemma buf_es : buf !! es = Some 0.
Proof. unfold buf, es. rewrite lookup_app_r by lia. by rewrite Nat.sub_diag. Qed.

Lemma drop_cons s c : str !! s = Some c → drop s str = c :: drop (S s) str.
Proof. apply drop_S. Qed.

(** A scan stops at the first character that fails the test. *)
Lemma scan_spec p fuel : ∀ s, (s ≤ es)%nat → (es - s ≤ fuel)%nat →
  ∃ u, scan buf es p s fuel = Ret (s + length u)%nat ∧ Forall (λ c, p c = true) u ∧
    drop s str = u ++ drop (s + length u) str ∧ (s + length u ≤ es)%nat ∧
    (∀ c, str !! (s + length u)%nat = Some c → p c = false).
Proof.
  induction fuel as [|fuel IH]; intros s Hs Hf; cbn [scan].
  all: destruct (Nat.ltb_spec s es) as [Hlt|Hge];
    [|exists []; rewrite Nat.add_0_r; split_and!; try done;
      intros c Hc; apply lookup_lt_Some in Hc; unfold es in *; lia].
  - unfold es in *; lia.
  - destruct (lookup_lt_is_Some_2 str s Hlt) as [c Hc]. rewrite buf_lookup, Hc by done. cbn.
    destruct (p c) eqn:Hp.
    + destruct (IH (S s)) as (u & E & Hu & Hd & Hle & Hst); [lia..|].
      exists (c :: u). cbn [length]. rewrite <- Nat.add_succ_comm. split_and!; try done.
      * by constructor.
      * rewrite (drop_cons _ _ Hc) at 1. cbn. by f_equal.
    + exists []. rewrite Nat.add_0_r. split_and!; try done. naive_solver.
Qed.

Lemma lex_white u l : Forall (λ c, strchr whitespace c = true) u → lex (u ++ l) = lex l.
Proof. induction 1 as [|c u Hc Hu IH]; [done|]. cbn [lex app]. by rewrite Hc. Qed.

Lemma skip_white_spec s ts : ahead s ts →
  ∃ s', skip_white buf es s = Ret s' ∧ ahead s' ts ∧ (s ≤ s')%nat ∧
    (∀ c, str !! s' = Some c → strchr whitespace c = false).
Proof.
  intros [Hs Hl]. destruct (scan_spec (strchr whitespace) es s) as (u & E & Hu & Hd & Hle & Hst); [lia..|].
  exists (s + length u)%nat. split_and!; try done; [|lia]. split; [done|].
  by rewrite <- Hl, Hd, lex_white.
Qed.

Lemma in_word_inv c : in_word c = true →
  strchr whitespace c = false ∧ (c =? c_gt) = false ∧ strchr symbols c = false.
Proof.
  unfold in_word. intros [H1 H2]%andb_true_iff. apply negb_true_iff in H1, H2. split_and!; try done.
  apply Z.eqb_neq. intros ->. discriminate H2.
Qed.

Lemma lex_word w l : w ≠ [] → Forall (λ c, in_word c = true) w →
  (∀ c, head l = Some c → in_word c = false) → lex (w ++ l) = Word w :: lex l.
Proof.
  intros Hne Hw Hl. induction Hw as [|c w Hc Hw IH]; [done|].
  destruct (in_word_inv c Hc) as (H1 & H2 & H3). cbn [lex app]. rewrite H1, H2, H3.
  destruct w as [|c' w]; cbn [app].
  - destruct l as [|x l]; [done|]. by rewrite (Hl x).
  - apply Forall_cons in Hw as [Hc' Hw]. rewrite Hc'.
    specialize (IH ltac:(done)). cbn [app] in IH. by rewrite IH.
Qed.

(** A character that is no white space starts a token. *)
Lemma lex_stop c l : strchr whitespace c = false → lex (c :: l) ≠ [].
Proof. intros H. cbn [lex]. rewrite H. repeat case_match; done. Qed.

Lemma peek_sim toks : (∀ c, c ∈ toks → c ∈ symbols) → msim eq (peek buf es toks) (tpeek toks).
Proof.
  intros Htoks s ts Hs. unfold peek, tpeek.
  destruct (skip_white_spec s ts Hs) as (s' & -> & [Hle Hl] & _ & Hst). cbn.
  destruct (decide (s' = es)) as [->|Hne].
  - rewrite buf_es. cbn. unfold es in *. rewrite drop_all in Hl. subst ts. by split; [|split; [|rewrite drop_all]].
  - destruct (lookup_lt_is_Some_2 str s') as [c Hc]; [unfold es in *; lia|].
    rewrite buf_lookup, Hc by lia. cbn.
    assert (c ≠ 0) as Hz. { intros ->. by apply list_elem_of_lookup_2 in Hc. }
    apply Z.eqb_neq in Hz. rewrite Hz. cbn.
    split; [|done]. rewrite (drop_cons _ _ Hc) in Hl. subst ts. cbn [lex].
    rewrite (Hst _ Hc). destruct (c =? c_gt) eqn:Hg.
    { apply Z.eqb_eq in Hg as ->. destruct (drop (S s') str) as [|x l]; [done|]. by destruct (x =? c_gt). }
    destruct (strchr symbols c) eqn:Hsy; [done|].
    replace (strchr toks c) with false.
    + by repeat case_match.
    + symmetry. apply strchr_false. intros Hin%Htoks. apply strchr_false in Hsy. done.
Qed.

Definition tok_rel (x : Z * nat * nat) (y : Z * list Z) : Prop :=
  x.1.1 = y.1 ∧ (y.1 = c_word → wordat x.1.2 x.2 y.2).

Lemma after_token (x : Z * nat * nat) y s ts : ahead s ts → tok_rel x y →
  osim (λ x y, tok_rel x.1 y.1 ∧ ahead x.2 y.2) (s ← skip_white buf es s; Ret (x, s)) (Ret (y, ts)).
Proof. intros Hs Hx. destruct (skip_white_spec s ts Hs) as (s' & -> & Ha & _). done. Qed.

Lemma ahead_S s c : str !! s = Some c → ahead (S s) (lex (drop (S s) str)).
Proof. intros Hc%lookup_lt_Some. split; [unfold es; lia|done]. Qed.

Lemma gettoken_word s c : str !! s = Some c → in_word c = true →
  ∃ e w, scan buf es in_word s es = Ret e ∧ lex (drop s str) = Word w :: lex (drop e str) ∧
    wordat s e w ∧ (e ≤ es)%nat.
Proof.
  intros Hc Hw. pose proof (lookup_lt_Some _ _ _ Hc).
  destruct (scan_spec in_word es s) as (u & E & Hu & Hd & Hle & Hst); [unfold es; lia..|].
  exists (s + length u)%nat, u. split_and!; try done.
  - rewrite Hd at 1. apply lex_word; [|done|].
    + intros ->. cbn in Hst. rewrite Nat.add_0_r in Hst. rewrite (Hst c Hc) in Hw. done.
    + intros x Hx. apply Hst. destruct (str !! (s + length u)%nat) as [y|] eqn:Hy.
      * rewrite (drop_cons _ _ Hy) in Hx. cbn in Hx. congruence.
      * apply lookup_ge_None in Hy. rewrite drop_ge in Hx by done. done.
  - split_and!; try done. rewrite Hd. by rewrite take_app_length.
Qed.

Lemma gettoken_sim : msim tok_rel (gettoken buf es) ttoken.
Proof.
  intros s ts Hs. unfold gettoken, ttoken.
  destruct (skip_white_spec s ts Hs) as (s' & -> & [Hle Hl] & _ & Hst). cbn [mbind outcome_bind].
  destruct (decide (s' = es)) as [->|Hne].
  { rewrite buf_es. cbn. unfold es in *. rewrite drop_all in Hl. subst ts.
    apply (after_token (0, length str, length str) (0, [])); [|by split].
    split; [done|]. by rewrite drop_all. }
  destruct (lookup_lt_is_Some_2 str s') as [c Hc]; [unfold es in *; lia|].
  rewrite (buf_lookup s'), Hc by lia. cbn [opt mbind outcome_bind].
  assert (c ≠ 0) as Hz. { intros ->. by apply list_elem_of_lookup_2 in Hc. }
  apply Z.eqb_neq in Hz. rewrite Hz. pose proof (ahead_S _ _ Hc) as HS.
  rewrite (drop_cons _ _ Hc) in Hl. subst ts. specialize (Hst _ Hc).
  destruct (strchr [c_bar; c_open; c_close; c_semi; c_amp; c_lt] c) eqn:Hsym.
  { assert (c ∈ symbols ∧ c ≠ c_gt ∧ c ≠ c_word) as (H1 & H2%Z.eqb_neq & H3).
    { apply strchr_spec in Hsym. repeat (apply elem_of_cons in Hsym as [->|Hsym]; [by repeat constructor|]).
      by apply elem_of_nil in Hsym. }
    cbn [lex]. rewrite Hst, H2. apply strchr_spec in H1. rewrite H1. by apply after_token. }
  destruct (c =? c_gt) eqn:Hg.
  { cbn [lex]. rewrite Hst, Hg. destruct (str !! S s') as [c'|] eqn:Hc'.
    - pose proof (lookup_lt_Some _ _ _ Hc'). rewrite (buf_lookup (S s')), Hc' by done. cbn [opt mbind outcome_bind].
      rewrite (drop_cons _ _ Hc'). destruct (c' =? c_gt) eqn:Hg'.
      + apply after_token; [by eapply ahead_S|by split].
      + rewrite <- (drop_cons _ _ Hc'). apply after_token; [done|].
        split; [done|]. cbn. by apply Z.eqb_eq in Hg as ->.
    - apply lookup_ge_None in Hc'. pose proof (lookup_lt_Some _ _ _ Hc).
      assert (S s' = es) as He by (unfold es; lia). rewrite He, buf_es. cbn [opt mbind outcome_bind].
      rewrite (drop_ge str) by done. apply after_token.
      + split; [done|]. by rewrite drop_ge.
      + split; [done|]. cbn. by apply Z.eqb_eq in Hg as ->. }
  assert (in_word c = true) as Hw.
  { unfold in_word. rewrite Hst. cbn [negb andb]. apply negb_true_iff, strchr_false. intros Hin.
    apply strchr_false in Hsym. apply Z.eqb_neq in Hg. apply Hsym.
    unfold symbols in Hin. set_solver. }
  destruct (gettoken_word _ _ Hc Hw) as (e & w & -> & Hlex & Hwa & Hee).
  rewrite <- (drop_cons _ _ Hc), Hlex. cbn [mbind outcome_bind]. by apply after_token.
Qed.

(** The number of words of the command below the redirections. *)
Fixpoint nargs (a : ast) : option nat :=
  match a with
  | AExec ws => Some (length ws)
  | ARedir c _ _ _ => nargs c
  | _ => None
  end.
Definition stands (k : option nat) (c : cmd) (a : ast) : Prop := means c a ∧ nargs a = k.

Lemma pad_length l : (length l ≤ MAXARGS)%nat → length (pad l) = MAXARGS.
Proof. intros. unfold pad. rewrite length_app, length_fmap, length_replicate. lia. Qed.

Lemma pad_insert l q : (length l < MAXARGS)%nat → <[length l := Some q]> (pad l) = pad (l ++ [q]).
Proof.
  intros Hl. unfold pad. rewrite fmap_app, length_app, <- app_assoc. cbn [length].
  replace (MAXARGS - length l)%nat with (S (MAXARGS - (length l + 1))) by lia.
  rewrite insert_app_r_alt by (rewrite length_fmap; lia). by rewrite length_fmap, Nat.sub_diag.
Qed.

Lemma pad_none l : (length l < MAXARGS)%nat → <[length l := None]> (pad l) = pad l.
Proof.
  intros Hl. apply list_insert_id. unfold pad. rewrite lookup_app_r by (rewrite length_fmap; lia).
  rewrite length_fmap, Nat.sub_diag. apply lookup_replicate. split; [done|lia].
Qed.

Lemma arr_set_pad l k v : length l = k → (k < MAXARGS)%nat →
  arr_set (pad l) (Z.of_nat k) v = Ret (<[k := v]> (pad l)).
Proof. intros <- Hk. rewrite arr_set_in by (rewrite pad_length; lia). by rewrite Nat2Z.id. Qed.

Lemma set_arg_none c a k : means c a → nargs a = Some k → set_arg c (Z.of_nat k) None None = Ret c.
Proof.
  intros Hm. induction Hm as [qs ls ws Hlt Hf|c a q e w m fd Hm IH Hw| | |]; intros [= Hk].
  - pose proof (Forall3_length_lm _ _ _ _ Hf). pose proof (Forall3_length_lr _ _ _ _ Hf). cbn [set_arg].
    rewrite (arr_set_pad qs), (arr_set_pad ls) by lia. cbn.
    replace k with (length qs) at 1 by lia. replace k with (length ls) by lia. by rewrite !pad_none by lia.
  - cbn. by rewrite IH.
Qed.

Lemma set_arg_word c a k q e : means c a → nargs a = Some k →
  ∃ c', set_arg c (Z.of_nat k) (Some q) (Some e) = Ret c' ∧
    ∀ w, (S k < MAXARGS)%nat → wordat q e w → stands (Some (S k)) c' (add_arg a w).
Proof.
  intros Hm. induction Hm as [qs ls ws Hlt Hf|c a f l w m fd Hm IH Hw| | |]; intros [= Hk].
  - pose proof (Forall3_length_lm _ _ _ _ Hf). pose proof (Forall3_length_lr _ _ _ _ Hf). cbn [set_arg].
    rewrite (arr_set_pad qs), (arr_set_pad ls) by lia. cbn. eexists. split; [done|]. intros w Hlt' Hw.
    split; [|cbn; rewrite length_app; cbn; f_equal; lia].
    replace k with (length qs) at 1 by lia. replace k with (length ls) by lia. rewrite !pad_insert by lia.
    constructor; [rewrite length_app; cbn; lia|]. apply Forall3_app; [done|]. by constructor; [|constructor].
  - destruct (IH Hk) as (c' & E & Hc'). cbn [set_arg]. rewrite E. eexists. split; [done|].
    intros w' Hlt Hw'. destruct (Hc' w' Hlt Hw'). split; [by constructor|done].
Qed.

Lemma execcmd_stands : stands (Some 0%nat) execcmd (AExec []).
Proof. split; [|done]. apply (means_exec [] []); [cbv; lia|constructor]. Qed.

Lemma redir_stands k tok c a q e w : stands k c a → wordat q e w → stands k (redircmd tok c q e) (tredir tok a w).
Proof.
  intros [Hm Hk] Hw. unfold redircmd, tredir, aredir. repeat case_match; (split; [|done]); try done; by constructor.
Qed.

Ltac sim_peek := apply (msim_bind eq); [by apply peek_sim; cbv; set_solver|]; intros b ? <-; destruct b.
Ltac sim_token := apply (msim_bind tok_rel); [apply gettoken_sim|]; intros [[? ?] ?] [? ?] [? ?]; cbn in *; subst.

Lemma parseredirs_sim k fuel : ∀ c a, stands k c a →
  msim (stands k) (parseredirs_loop buf es c fuel) (tredirs_loop a fuel).
Proof.
  induction fuel as [|fuel IH]; intros c a Hca; cbn [parseredirs_loop tredirs_loop]; sim_peek.
  - apply msim_nofuel.
  - by apply msim_ret.
  - sim_token. sim_token. case_if; [apply msim_panic|]. subst. apply IH, redir_stands; auto.
  - by apply msim_ret.
Qed.

Lemma parseexec_loop_sim fuel : ∀ c a k, stands (Some k) c a →
  msim means (parseexec_loop buf es c (Z.of_nat k) fuel) (texec_loop es a (Z.of_nat k) fuel).
Proof.
  assert (∀ c a k, stands (Some k) c a → msim means (lift (set_arg c (Z.of_nat k) None None)) (mret a)) as Hend.
  { intros c a k [Hm Hk]. rewrite (set_arg_none _ _ _ Hm Hk). by apply msim_ret. }
  induction fuel as [|fuel IH]; intros c a k Hca; cbn [parseexec_loop texec_loop]; sim_peek; auto;
    sim_token; (case_if; [by auto|]); (case_if; [apply msim_panic|]); [apply msim_nofuel|].
  subst. destruct Hca as [Hm Hk].
  destruct (set_arg_word c a k n n0 Hm Hk) as (c' & -> & Hc'). apply msim_lift.
  case_if; [apply msim_panic|]. apply (msim_bind (stands (Some (S k)))).
  - apply parseredirs_sim, Hc'; [lia|auto].
  - intros c2 a2 H2. replace (Z.of_nat k + 1) with (Z.of_nat (S k)) by lia. by apply IH.
Qed.

Lemma back_loop_sim fuel : ∀ c a, means c a → msim means (back_loop buf es c fuel) (tback_loop a fuel).
Proof.
  induction fuel as [|fuel IH]; intros c a Hca; cbn [back_loop tback_loop]; sim_peek.
  - apply msim_nofuel.
  - by apply msim_ret.
  - sim_token. apply IH. by constructor.
  - by apply msim_ret.
Qed.

Lemma parse_sim fuel :
  msim means (parseline buf es fuel) (tline es fuel) ∧ msim means (parsepipe buf es fuel) (tpipe es fuel) ∧
  msim means (parseexec buf es fuel) (texec es fuel) ∧ msim means (parseblock buf es fuel) (tblock es fuel).
Proof.
  induction fuel as [|fuel (IHl & IHp & IHe & IHb)]; [by split_and!; apply msim_nofuel|].
  cbn [parseline tline parsepipe tpipe parseexec texec parseblock tblock]. split_and!.
  - apply (msim_bind means); [done|]. intros c a Hca.
    apply (msim_bind means); [by apply back_loop_sim|]. intros c2 a2 Hca2. sim_peek; [|by apply msim_ret].
    sim_token. apply (msim_bind means); [done|]. intros. apply msim_ret. by constructor.
  - apply (msim_bind means); [done|]. intros c a Hca. sim_peek; [|by apply msim_ret].
    sim_token. apply (msim_bind means); [done|]. intros. apply msim_ret. by constructor.
  - sim_peek; [done|]. apply (msim_bind (stands (Some 0%nat))).
    + apply parseredirs_sim, execcmd_stands.
    + intros c a Hca. by apply (parseexec_loop_sim es c a 0).
  - sim_peek; [|apply msim_panic]. cbn [negb]. sim_token. apply (msim_bind means); [done|]. intros c a Hca.
    sim_peek; [|apply msim_panic]. cbn [negb]. sim_token.
    intros s ts Hs. pose proof (parseredirs_sim (nargs a) es c a (conj Hca eq_refl) s ts Hs) as Hr.
    unfold parseredirs, tredirs.
    destruct (parseredirs_loop _ _ _ _ _) as [[? ?]|?| |], (tredirs_loop _ _ _) as [[? ?]|?| |]; cbn in *; try done.
    unfold stands in Hr. naive_solver.
Qed.
End simulation.

(** ** The parser over tokens and the grammar *)

(** The panics of the parser; that of [parseblock] is not among them. *)
Definition syntax_errors : list string :=
  ["missing file for redirection"%string; "syntax"%string; "too many args"%string; "syntax - missing )"%string].

Definition toks_ok (ts : list token) : Prop :=
  Forall (λ t, match t with Sym c => c ∈ symbols | _ => True end) ts.

Lemma lex_ok_length l : toks_ok (lex l) ∧ (length (lex l) ≤ length l)%nat.
Proof.
  induction l as [l IH] using (induction_ltof1 _ length). unfold ltof in IH.
  destruct l as [|c l]; [by split; [constructor|]|].
  destruct (IH l) as [H1 H2]; [cbn; lia|]. cbn [lex]. destruct (strchr whitespace c); [split; [done|cbn; lia]|].
  destruct (Z.eqb_spec c c_gt) as [->|Hg].
  { destruct l as [|c' l]; [split; [repeat constructor|done]|]. destruct (c' =? c_gt).
    - destruct (IH l) as [H3 H4]; [cbn; lia|]. split; [by constructor|cbn in *; lia].
    - split; [|cbn in *; lia]. by constructor; [repeat constructor|]. }
  destruct (strchr symbols c) eqn:Hs.
  { apply strchr_spec in Hs. split; [by constructor|cbn; lia]. }
  destruct l as [|c' l]; [split; [repeat constructor|cbn; lia]|].
  destruct (in_word c'); [|split; [by constructor|cbn in *; lia]].
  destruct (lex (c' :: l)) as [|[x| |w] ts]; (split; [|cbn in *; lia]); try by constructor.
  apply Forall_cons in H1 as [_ H1]. by constructor.
Qed.

(** What a parser does on [ts]: a result that satisfies [P], or a syntax error. *)
Definition yields (P : ast → list token → Prop) (o : outcome (ast * list token)) : Prop :=
  match o with
  | Ret (a, ts') => P a ts'
  | Panic m => m ∈ syntax_errors
  | _ => False
  end.

Lemma yields_bind (P Q : ast → list token → Prop) (m : M (list token) ast) f ts :
  yields P (m ts) → (∀ a ts', P a ts' → yields Q (f a ts')) → yields Q ((m ≫= f) ts).
Proof. intros Hm Hf. unfold mbind, M_bind. destruct (m ts) as [[a ts']|?| |]; cbn in *; auto. Qed.

Lemma yields_impl (P Q : ast → list token → Prop) o :
  yields P o → (∀ a ts', P a ts' → Q a ts') → yields Q o.
Proof. destruct o as [[a ts']|?| |]; cbn; auto. Qed.

Lemma syntax_error m : m ∈ syntax_errors → ∀ P, yields P (Panic m).
Proof. done. Qed.

Lemma wrap_app c rs rs' : wrap c (rs ++ rs') = wrap (wrap c rs) rs'.
Proof. apply foldl_app. Qed.

Lemma add_arg_wrap rs w : ∀ c, add_arg (wrap c rs) w = wrap (add_arg c w) rs.
Proof.
  induction rs as [|r rs IH] using rev_ind; intros c; [done|]. rewrite !wrap_app. cbn.
  by destruct (r_op r); cbn; rewrite IH.
Qed.

Lemma toks_ok_tail t ts : toks_ok (t :: ts) → toks_ok ts.
Proof. by intros [_ ?]%Forall_cons. Qed.

Lemma toks_ok_app ts ts' : toks_ok (ts ++ ts') → toks_ok ts'.
Proof. by intros [_ ?]%Forall_app. Qed.

(** The sides of a redirection operator. *)
Definition op_token (t : token) : option rop :=
  match t with
  | Sym c => if c =? c_lt then Some RIn else if c =? c_gt then Some ROut else None
  | App => Some RApp
  | Word _ => None
  end.

Lemma op_token_flat t op w : op_token t = Some op → [t; Word w] = flat_redir (Redir op w).
Proof.
  destruct t as [c| |]; cbn; [|by intros [= <-]|done].
  case_if; [subst; by intros [= <-]|]. case_if; [subst; by intros [= <-]|done].
Qed.

(** One round of the loop of [parseredirs]. *)
Lemma tredirs_step c fuel ts : toks_ok ts →
  (tredirs_loop c fuel ts = Ret (c, ts) ∧ ∀ t ts', ts = t :: ts' → op_token t = None) ∨
  ∃ t ts' op, ts = t :: ts' ∧ op_token t = Some op ∧
    tredirs_loop c fuel ts =
      match fuel with
      | O => NoFuel
      | S fuel => match ts' with
                  | Word w :: ts' => tredirs_loop (aredir op c w) fuel ts'
                  | _ => Panic "missing file for redirection"
                  end
      end.
Proof.
  intros Hok. destruct ts as [|t ts]; [left; by destruct fuel|].
  destruct (op_token t) as [op|] eqn:Hop.
  - right. exists t, ts, op. split_and!; [done..|].
    assert (tpeek [c_lt; c_gt] (t :: ts) = Ret (true, t :: ts)) as Hp.
    { destruct t as [x| |]; [|done..]. cbn in Hop. unfold tpeek. cbn [strchr].
      rewrite (Z.eqb_sym c_lt), (Z.eqb_sym c_gt). by repeat (case_if; [done|]). }
    destruct fuel as [|fuel]; cbn [tredirs_loop]; erewrite M_bind_run by apply Hp; [done|].
    apply toks_ok_tail in Hok. destruct ts as [|[x| |w] ts], t as [y| |]; try done.
    + apply Forall_cons in Hok as [Hx _]. unfold mbind, M_bind, ttoken. cbn.
      destruct (Z.eqb_spec x c_word) as [->|]; [|done]. cbv in Hx. set_solver.
    + apply Forall_cons in Hok as [Hx _]. unfold mbind, M_bind, ttoken. cbn.
      destruct (Z.eqb_spec x c_word) as [->|]; [|done]. cbv in Hx. set_solver.
    + unfold mbind, M_bind, ttoken. cbn. cbn in Hop. unfold tredir.
      destruct (y =? c_lt); [by injection Hop as <-|]. destruct (y =? c_gt); by inversion Hop.
    + by injection Hop as <-.
  - left. split; [|naive_solver].
    assert (tpeek [c_lt; c_gt] (t :: ts) = Ret (false, t :: ts)) as Hp.
    { destruct t as [x| |]; [|done..]. cbn in Hop. unfold tpeek. cbn [strchr].
      rewrite (Z.eqb_sym c_lt), (Z.eqb_sym c_gt). by repeat (case_if; [done|]). }
    destruct fuel as [|fuel]; cbn [tredirs_loop]; by erewrite M_bind_run by apply Hp.
Qed.

Lemma tredirs_sound fuel : ∀ c ts, toks_ok ts → (length ts ≤ fuel)%nat →
  yields (λ a ts', ∃ rs, ts = concat (flat_redir <$> rs) ++ ts' ∧ a = wrap c rs) (tredirs_loop c fuel ts).
Proof.
  induction fuel as [|fuel IH]; intros c ts Hok Hlen;
    match goal with |- yields _ (tredirs_loop _ ?f _) =>
      destruct (tredirs_step c f ts Hok) as [[E _]|(t & ts' & op & -> & Hop & ->)] end;
    try (rewrite E; by exists []); [cbn in Hlen; lia|].
  destruct ts' as [|[x| |w] ts']; [apply syntax_error; set_solver..|].
  assert (toks_ok ts') as Hok' by by eapply toks_ok_tail, toks_ok_tail.
  eapply yields_impl; [apply IH; [done|cbn in Hlen; lia]|].
  intros a ts2 (rs & -> & ->). exists (Redir op w :: rs). split; [|done].
  cbn [fmap list_fmap concat]. rewrite <- (op_token_flat t op w Hop). by rewrite <- app_assoc.
Qed.

(** [parseexec] is at a word, at the end of the command, or at an error. *)
Lemma texec_step n a argc fuel ts : toks_ok ts →
  texec_loop n a argc fuel ts =
    match ts with
    | [] => Ret (a, [])
    | Word w :: ts' =>
        match fuel with
        | O => NoFuel
        | S fuel =>
            if Z.of_nat MAXARGS <=? argc + 1 then Panic "too many args"
            else (a ← tredirs n (add_arg a w); texec_loop n a (argc + 1) fuel) ts'
        end
    | Sym c :: ts' => if strchr [c_bar; c_close; c_amp; c_semi] c then Ret (a, ts) else Panic "syntax"
    | App :: _ => Panic "syntax"
    end.
Proof.
  intros Hok. destruct ts as [|[c| |w] ts]; try by destruct fuel.
  - apply Forall_cons in Hok as [Hc _].
    assert (c ≠ 0 ∧ c ≠ c_word) as [H0%Z.eqb_neq Hw%Z.eqb_neq] by (split; intros ->; cbv in Hc; set_solver).
    destruct fuel; cbn [texec_loop]; unfold mbind, M_bind, tpeek, ttoken; cbn [mbind outcome_bind];
      (destruct (strchr [c_bar; c_close; c_amp; c_semi] c); [done|]); by rewrite H0, Hw.
  - destruct fuel; cbn [texec_loop]; unfold mbind at 1, M_bind at 1, tpeek; cbn [mbind outcome_bind];
      unfold mbind at 1, M_bind at 1, ttoken; cbn; [done|]. by case_if.
Qed.

Lemma items_reds rs its :
  args ((Red <$> rs) ++ its) = args its ∧ redirs ((Red <$> rs) ++ its) = rs ++ redirs its ∧
  concat (flat_item <$> ((Red <$> rs) ++ its)) = concat (flat_redir <$> rs) ++ concat (flat_item <$> its).
Proof. induction rs as [|r rs (H1 & H2 & H3)]; [done|]. split_and!; cbn; [done|by f_equal|by rewrite H3]. Qed.

Lemma items_group w rs its :
  let its' := Arg w :: (Red <$> rs) ++ its in
  args its' = w :: args its ∧ redirs its' = rs ++ redirs its ∧
  concat (flat_item <$> its') = Word w :: concat (flat_redir <$> rs) ++ concat (flat_item <$> its).
Proof. destruct (items_reds rs its) as (H1 & H2 & H3). cbn. rewrite H3. by split_and!; [f_equal| |]. Qed.

Lemma texec_sound n fuel : ∀ ws rs ts, toks_ok ts → (length ts ≤ fuel)%nat → (length ts ≤ n)%nat →
  (length ws < MAXARGS)%nat →
  yields (λ a ts', ∃ its, ts = concat (flat_item <$> its) ++ ts' ∧
      (length (ws ++ args its) < MAXARGS)%nat ∧ a = wrap (AExec (ws ++ args its)) (rs ++ redirs its))
    (texec_loop n (wrap (AExec ws) rs) (Z.of_nat (length ws)) fuel ts).
Proof.
  assert (∀ ws rs ts, (length ws < MAXARGS)%nat → yields (λ a ts', ∃ its, ts = concat (flat_item <$> its) ++ ts' ∧
      (length (ws ++ args its) < MAXARGS)%nat ∧ a = wrap (AExec (ws ++ args its)) (rs ++ redirs its))
      (Ret (wrap (AExec ws) rs, ts))) as Hstop.
  { intros ws rs ts Hws. exists []. cbn. by rewrite !app_nil_r. }
  induction fuel as [|fuel IH]; intros ws rs ts Hok Hlen Hn Hws; rewrite texec_step by done;
    (destruct ts as [|[c| |w] ts]; [by apply Hstop| | |]);
    try (case_if; [by apply Hstop|]); try (apply syntax_error; set_solver); [cbn in Hlen; lia|].
  case_if; [apply syntax_error; set_solver|]. rewrite add_arg_wrap. apply toks_ok_tail in Hok. cbn [add_arg].
  eapply yields_bind; [by apply tredirs_sound; [|cbn in *; lia]|].
  intros a ts' (rs' & -> & ->). cbn [length] in *. rewrite length_app in Hlen, Hn.
  rewrite <- wrap_app. replace (Z.of_nat (length ws) + 1) with (Z.of_nat (length (ws ++ [w])))
    by (rewrite length_app; cbn; lia).
  eapply yields_impl; [apply IH; [by eapply toks_ok_app|lia..|rewrite length_app; cbn; lia]|].
  intros a ts2 (its & -> & Hlt & ->). exists (Arg w :: (Red <$> rs') ++ its).
  destruct (items_group w rs' its) as (-> & -> & ->). rewrite <- app_assoc in Hlt. rewrite <- !app_assoc.
  split_and!; [cbn; by rewrite <- app_assoc|done|done].
Qed.

Lemma tpeek_one c ts : c ≠ c_gt →
  (∃ ts', ts = Sym c :: ts' ∧ tpeek [c] ts = Ret (true, ts) ∧ ttoken ts = Ret ((c, []), ts')) ∨
  (tpeek [c] ts = Ret (false, ts) ∧ ∀ ts', ts ≠ Sym c :: ts').
Proof.
  intros Hg. unfold tpeek. destruct ts as [|[x| |w] ts]; try by right.
  - cbn. case_if as E; [subst; left; by exists ts|right]. split; [done|]. by intros ? [= ->].
  - right. cbn. split; [|done]. by case_if.
Qed.

(** A branch on [peek], in both cases. *)
Tactic Notation "peek_one" constr(c) constr(ts) "as" ident(ts') :=
  let E := fresh "Epeek" in let Et := fresh "Etok" in let Hne := fresh "Hne" in
  destruct (tpeek_one c ts ltac:(done)) as [(ts' & -> & E & Et)|[E Hne]];
  erewrite M_bind_run by exact E; cbv beta; cbn match.

Lemma iter_back n c : Nat.iter n ABack (ABack c) = ABack (Nat.iter n ABack c).
Proof. by rewrite <- Nat.iter_succ_r. Qed.

Lemma tback_sound fuel : ∀ c ts, (length ts ≤ fuel)%nat →
  yields (λ a ts', ∃ n, ts = replicate n (Sym c_amp) ++ ts' ∧ a = Nat.iter n ABack c) (tback_loop c fuel ts).
Proof.
  induction fuel as [|fuel IH]; intros c ts Hlen; cbn [tback_loop]; peek_one c_amp ts as ts1; try by exists 0%nat.
  - cbn in Hlen. lia.
  - erewrite M_bind_run by exact Etok. eapply yields_impl; [apply IH; cbn in Hlen; lia|].
    intros a ts' (n & -> & ->). exists (S n). split; [done|]. apply iter_back.
Qed.

Definition line_result (ts : list token) (a : ast) (ts' : list token) : Prop :=
  ∃ l, ok_line l ∧ ts = flat_line l ++ ts' ∧ a = den_line l.
Definition pipe_result (ts : list token) (a : ast) (ts' : list token) : Prop :=
  ∃ p, ok_pipe p ∧ ts = flat_pipe p ++ ts' ∧ a = den_pipe p.
Definition cmd_result (ts : list token) (a : ast) (ts' : list token) : Prop :=
  ∃ e, ok_cmd e ∧ ts = flat_cmd e ++ ts' ∧ a = den_cmd e.

Lemma tparse_sound n fuel : ∀ ts, toks_ok ts → (length ts ≤ n)%nat →
  ((4 * length ts + 4 ≤ fuel)%nat → yields (line_result ts) (tline n fuel ts)) ∧
  ((4 * length ts + 3 ≤ fuel)%nat → yields (pipe_result ts) (tpipe n fuel ts)) ∧
  ((4 * length ts + 2 ≤ fuel)%nat → yields (cmd_result ts) (texec n fuel ts)) ∧
  ((4 * length ts + 1 ≤ fuel)%nat → (∃ ts', ts = Sym c_open :: ts') → yields (cmd_result ts) (tblock n fuel ts)).
Proof.
  induction fuel as [|fuel IH]; intros ts Hok Hn; [split_and!; lia|].
  destruct (IH ts Hok Hn) as (IHl & IHp & IHe & IHb). cbn [tline tpipe texec tblock]. split_and!; intros Hf.
  - eapply yields_bind; [apply IHp; lia|]. intros a ts1 (p & Hp & -> & ->).
    eapply yields_bind; [apply tback_sound; rewrite length_app in Hn; lia|]. intros a ts2 (m & -> & ->).
    peek_one c_semi ts2 as ts3.
    + erewrite M_bind_run by exact Etok. rewrite !length_app in *. cbn [length] in *.
      destruct (IH ts3) as (IHl1 & _); [by eapply toks_ok_tail, toks_ok_app, toks_ok_app|lia|].
      eapply yields_bind; [apply IHl1; lia|]. intros a ts4 (l & Hl & -> & ->).
      exists (LSeq p m l). split; [done|]. split; [|done]. cbn. rewrite <- !app_assoc. by cbn.
    + exists (LEnd p m). split; [done|]. split; [|done]. cbn. by rewrite <- app_assoc.
  - eapply yields_bind; [apply IHe; lia|]. intros a ts1 (e & He & -> & ->). peek_one c_bar ts1 as ts2.
    + erewrite M_bind_run by exact Etok. rewrite !length_app in *. cbn [length] in *.
      destruct (IH ts2) as (_ & IHp1 & _); [by eapply toks_ok_tail, toks_ok_app|lia|].
      eapply yields_bind; [apply IHp1; lia|]. intros a ts3 (p & Hp & -> & ->).
      exists (PBar e p). split; [done|]. split; [|done]. cbn. by rewrite <- app_assoc.
    + by exists (PEnd e).
  - peek_one c_open ts as ts1; [apply IHb; [cbn [length] in *; lia|eauto]|].
    eapply yields_bind; [by apply tredirs_sound|]. intros a ts1 (rs & -> & ->).
    rewrite length_app in Hn.
    eapply yields_impl; [apply (texec_sound n n [] rs ts1); [by eapply toks_ok_app|lia..|cbv; lia]|].
    intros a ts2 (its & -> & Hlt & ->). exists (Simple ((Red <$> rs) ++ its)).
    destruct (items_reds rs its) as (H1 & H2 & H3). cbn [ok_cmd flat_cmd den_cmd]. rewrite H1, H2, H3.
    split_and!; [done|by rewrite <- app_assoc|done].
  - intros [ts' ->]. destruct (tpeek_one c_open (Sym c_open :: ts')) as [(? & [= <-] & Ep & Et)|[_ Hne]];
      [done| |by destruct (Hne ts')].
    erewrite M_bind_run by exact Ep. cbv beta. cbn match. cbn [negb]. erewrite M_bind_run by exact Et.
    cbn [length] in *. destruct (IH ts') as (IHl1 & _); [by eapply toks_ok_tail|lia|].
    eapply yields_bind; [apply IHl1; lia|]. intros a ts1 (l & Hl & -> & ->).
    peek_one c_close ts1 as ts2; cbn [negb]; [|apply syntax_error; set_solver].
    erewrite M_bind_run by exact Etok. rewrite length_app in *. cbn [length] in *.
    eapply yields_impl; [apply tredirs_sound; [by eapply toks_ok_tail, toks_ok_app, toks_ok_tail|lia]|].
    intros a ts3 (rs & -> & ->). exists (Block l rs). split_and!; [done| |done].
    cbn. by rewrite <- app_assoc.
Qed.

(** ** Completeness *)

(** The tokens that can stand behind a command, a pipeline and a line. *)
Definition follows (cs : list Z) (ts : list token) : Prop :=
  match ts with [] => True | Sym c :: _ => c ∈ cs | _ => False end.

Definition apply_items (c : ast) (its : list item) : ast :=
  foldl (λ c i, match i with Arg w => add_arg c w | Red r => aredir (r_op r) c (r_file r) end) c its.

Lemma apply_items_wrap its : ∀ ws rs,
  apply_items (wrap (AExec ws) rs) its = wrap (AExec (ws ++ args its)) (rs ++ redirs its).
Proof.
  induction its as [|[w|r] its IH]; intros ws rs; cbn [apply_items foldl].
  - cbn. by rewrite !app_nil_r.
  - rewrite add_arg_wrap. cbn [add_arg]. fold (apply_items (wrap (AExec (ws ++ [w])) rs) its).
    rewrite IH. by rewrite <- app_assoc.
  - change (aredir (r_op r) (wrap (AExec ws) rs) (r_file r)) with (wrap (wrap (AExec ws) rs) [r]).
    rewrite <- wrap_app. fold (apply_items (wrap (AExec ws) (rs ++ [r])) its). rewrite IH.
    by rewrite <- (app_assoc rs).
Qed.

Lemma tredirs_flat c fuel r ts : tredirs_loop c (S fuel) (flat_redir r ++ ts) =
  tredirs_loop (aredir (r_op r) c (r_file r)) fuel ts.
Proof. by destruct r as [[] w]. Qed.

Lemma tredirs_stop c fuel ts : (match ts with t :: _ => op_token t = None | [] => True end) →
  tredirs_loop c fuel ts = Ret (c, ts).
Proof.
  intros H. assert (tpeek [c_lt; c_gt] ts = Ret (false, ts)) as Hp.
  { destruct ts as [|[x| |w] ts]; [done| |done..]. cbn in H. unfold tpeek. cbn [strchr].
    rewrite (Z.eqb_sym c_lt), (Z.eqb_sym c_gt). by repeat (case_if; [done|]). }
  destruct fuel as [|fuel]; cbn [tredirs_loop]; by erewrite M_bind_run by apply Hp.
Qed.

Lemma follows_stop cs ts : c_lt ∉ cs → c_gt ∉ cs → follows cs ts →
  match ts with t :: _ => op_token t = None | [] => True end.
Proof.
  intros H1 H2. destruct ts as [|[x| |w] ts]; [done| |done..]. cbn. intros Hx.
  repeat (case_if; [by subst|]). done.
Qed.

Lemma tredirs_complete fuel rs c ts : (length rs ≤ fuel)%nat →
  (match ts with t :: _ => op_token t = None | [] => True end) →
  tredirs_loop c fuel (concat (flat_redir <$> rs) ++ ts) = Ret (wrap c rs, ts).
Proof.
  intros Hf Hts. revert fuel c Hf. induction rs as [|r rs IH]; intros fuel c Hf; [by apply tredirs_stop|].
  cbn in Hf. destruct fuel as [|fuel]; [lia|]. cbn [fmap list_fmap concat]. rewrite <- app_assoc, tredirs_flat.
  rewrite IH by lia. done.
Qed.

(** Redirections and words in any order. *)
Lemma items_complete n its : ∀ c argc f1 f2 ts,
  (length its ≤ f1)%nat → (length its ≤ f2)%nat → (length its ≤ n)%nat →
  follows [c_bar; c_close; c_amp; c_semi] ts → toks_ok (concat (flat_item <$> its) ++ ts) →
  argc + Z.of_nat (length (args its)) < Z.of_nat MAXARGS →
  (a ← tredirs_loop c f1; texec_loop n a argc f2) (concat (flat_item <$> its) ++ ts) =
    Ret (apply_items c its, ts).
Proof.
  induction its as [|[w|r] its IH]; intros c argc f1 f2 ts H1 H2 Hn Hts Hok Hargc;
    cbn [fmap list_fmap concat flat_item app] in *.
  - erewrite M_bind_run by (apply tredirs_stop; eapply follows_stop; [| |done]; set_solver).
    rewrite texec_step by done. destruct ts as [|[x| |w] ts]; [done| |done..]. cbn in Hts.
    apply strchr_spec in Hts. by rewrite Hts.
  - erewrite M_bind_run by by apply tredirs_stop. rewrite texec_step by done.
    cbn [length] in *. destruct f2 as [|f2]; [lia|]. cbn [args omap list_omap length] in Hargc.
    change (omap _ its) with (args its) in Hargc. case_if; [lia|].
    apply (IH (add_arg c w)); [lia..|done|by eapply toks_ok_tail|]. unfold args in *. lia.
  - cbn [length] in *. destruct f1 as [|f1]; [lia|]. rewrite <- app_assoc in *.
    unfold mbind, M_bind. rewrite tredirs_flat.
    apply (IH (aredir (r_op r) c (r_file r)) argc f1 f2 ts); [lia..|done|by eapply toks_ok_app|done].
Qed.

Lemma tback_complete n fuel : ∀ c ts, (n ≤ fuel)%nat → (∀ ts', ts ≠ Sym c_amp :: ts') →
  tback_loop c fuel (replicate n (Sym c_amp) ++ ts) = Ret (Nat.iter n ABack c, ts).
Proof.
  revert fuel. induction n as [|n IH]; intros fuel c ts Hf Hts; cbn [replicate app].
  - destruct (tpeek_one c_amp ts) as [(ts' & -> & _)|[E _]]; [done|by destruct (Hts ts')|].
    destruct fuel; cbn [tback_loop]; by erewrite M_bind_run by exact E.
  - destruct fuel as [|fuel]; [lia|].
    change (tback_loop c (S fuel) (Sym c_amp :: replicate n (Sym c_amp) ++ ts))
      with (tback_loop (ABack c) fuel (replicate n (Sym c_amp) ++ ts)).
    rewrite IH by (done || lia). by rewrite iter_back.
Qed.

Lemma follows_not cs c ts : c ∉ cs → follows cs ts → ∀ ts', ts ≠ Sym c :: ts'.
Proof. by intros Hc Hf ts' ->. Qed.

Lemma tpeek_not c cs ts : c ≠ c_gt → c ∉ cs → follows cs ts → tpeek [c] ts = Ret (false, ts).
Proof.
  intros Hg Hc Hf. destruct (tpeek_one c ts Hg) as [(ts' & -> & _)|[E _]]; [done|done].
Qed.

Lemma tpeek_yes c ts : tpeek [c] (Sym c :: ts) = Ret (true, Sym c :: ts).
Proof. unfold tpeek. cbn. by rewrite Z.eqb_refl. Qed.

Lemma flat_item_length its : (length its ≤ length (concat (flat_item <$> its)))%nat.
Proof. induction its as [|[w|r] its IH]; cbn; [done|lia|rewrite ?length_app; cbn; lia]. Qed.

Lemma flat_redir_length rs : (length rs ≤ length (concat (flat_redir <$> rs)))%nat.
Proof. induction rs as [|r rs IH]; cbn; lia. Qed.

(** A simple command does not start with a parenthesis. *)
Lemma flat_items_head its ts : follows [c_bar; c_close; c_amp; c_semi] ts →
  tpeek [c_open] (concat (flat_item <$> its) ++ ts) = Ret (false, concat (flat_item <$> its) ++ ts).
Proof.
  destruct its as [|[w|[[] w]] its]; [|done..]. intros Hts.
  cbn [fmap list_fmap concat app]. eapply tpeek_not; [done| |done]. set_solver.
Qed.

Definition line_complete (n : nat) (l : line) : Prop := ∀ fuel ts,
  ok_line l → toks_ok (flat_line l ++ ts) → (length (flat_line l) ≤ n)%nat →
  (4 * length (flat_line l) + 4 ≤ fuel)%nat → follows [c_close] ts →
  tline n fuel (flat_line l ++ ts) = Ret (den_line l, ts).
Definition pipe_complete (n : nat) (p : pipeline) : Prop := ∀ fuel ts,
  ok_pipe p → toks_ok (flat_pipe p ++ ts) → (length (flat_pipe p) ≤ n)%nat →
  (4 * length (flat_pipe p) + 3 ≤ fuel)%nat → follows [c_close; c_amp; c_semi] ts →
  tpipe n fuel (flat_pipe p ++ ts) = Ret (den_pipe p, ts).
Definition cmd_complete (n : nat) (e : command) : Prop := ∀ fuel ts,
  ok_cmd e → toks_ok (flat_cmd e ++ ts) → (length (flat_cmd e) ≤ n)%nat →
  (4 * length (flat_cmd e) + 2 ≤ fuel)%nat → follows [c_bar; c_close; c_amp; c_semi] ts →
  texec n fuel (flat_cmd e ++ ts) = Ret (den_cmd e, ts).

Lemma simple_complete n its : cmd_complete n (Simple its).
Proof.
  intros fuel ts Hok Htok Hn Hf Hts. destruct fuel as [|fuel]; [lia|]. cbn [flat_cmd den_cmd ok_cmd] in *.
  pose proof (flat_item_length its). cbn [texec].
  erewrite M_bind_run by by apply flat_items_head. cbv beta. cbn match.
  unfold tredirs. rewrite items_complete; [|lia..|done|done|cbn; lia].
  f_equal. f_equal. apply (apply_items_wrap its [] []).
Qed.

Lemma block_complete n l rs : line_complete n l → cmd_complete n (Block l rs).
Proof.
  intros Hl fuel ts Hok Htok Hn Hf Hts. cbn [flat_cmd den_cmd ok_cmd] in *. cbn [app] in *.
  rewrite <- app_assoc in *. cbn [app length] in *. rewrite length_app in *. cbn [length] in *.
  pose proof (flat_redir_length rs). apply toks_ok_tail in Htok as Htok1.
  do 2 (destruct fuel as [|fuel]; [lia|]). cbn [texec].
  erewrite M_bind_run by apply tpeek_yes. cbv beta. cbn match. cbn [tblock].
  erewrite M_bind_run by apply tpeek_yes. cbv beta. cbn [negb]. cbn match.
  erewrite M_bind_run by done. cbv beta.
  erewrite M_bind_run by (apply Hl; [done|done|lia|lia|cbn; set_solver]). cbv beta.
  erewrite M_bind_run by apply tpeek_yes. cbv beta. cbn [negb]. cbn match.
  erewrite M_bind_run by done. cbv beta. unfold tredirs.
  apply tredirs_complete; [lia|]. eapply follows_stop; [| |done]; set_solver.
Qed.

Lemma tparse_complete n : (∀ l, line_complete n l) ∧ (∀ p, pipe_complete n p) ∧ (∀ e, cmd_complete n e).
Proof.
  apply syntax_ind.
  - intros p IHp bg fuel ts Hok Htok Hn Hf Hts. cbn [flat_line den_line ok_line] in *.
    rewrite <- app_assoc in *. rewrite length_app, length_replicate in *.
    destruct fuel as [|fuel]; [lia|]. cbn [tline].
    erewrite M_bind_run by (apply IHp; [done|done|lia|lia|destruct bg; [by destruct ts as [|[]]; cbn in *; set_solver|cbn; set_solver]]).
    cbv beta. erewrite M_bind_run by (apply tback_complete; [lia|]; eapply follows_not; [|done]; set_solver).
    cbv beta. erewrite M_bind_run by (eapply tpeek_not; [done| |done]; set_solver). done.
  - intros p IHp bg l IHl fuel ts [Hok1 Hok2] Htok Hn Hf Hts. cbn [flat_line den_line] in *.
    rewrite <- !app_assoc in *. rewrite !length_app, length_replicate in *. cbn [length app] in *.
    destruct fuel as [|fuel]; [lia|]. cbn [tline].
    erewrite M_bind_run by (apply IHp; [done|done|lia|lia|destruct bg; cbn; set_solver]).
    cbv beta. erewrite M_bind_run by (apply tback_complete; [lia|done]).
    cbv beta. erewrite M_bind_run by apply tpeek_yes. cbv beta. cbn match. erewrite M_bind_run by done. cbv beta.
    erewrite M_bind_run by (apply IHl; [done|by eapply toks_ok_tail, toks_ok_app, toks_ok_app|lia|lia|done]). done.
  - intros e IHe fuel ts Hok Htok Hn Hf Hts. cbn [flat_pipe den_pipe ok_pipe] in *.
    destruct fuel as [|fuel]; [lia|]. cbn [tpipe].
    erewrite M_bind_run by (apply IHe; [done|done|lia|lia|by destruct ts as [|[]]; cbn in *; set_solver]).
    cbv beta. erewrite M_bind_run by (eapply tpeek_not; [done| |done]; set_solver). done.
  - intros e IHe p IHp fuel ts [Hok1 Hok2] Htok Hn Hf Hts. cbn [flat_pipe den_pipe] in *.
    rewrite <- app_assoc in *. rewrite length_app in *. cbn [length app] in *.
    destruct fuel as [|fuel]; [lia|]. cbn [tpipe].
    erewrite M_bind_run by (apply IHe; [done|done|lia|lia|cbn; set_solver]).
    cbv beta. erewrite M_bind_run by apply tpeek_yes. cbv beta. cbn match. erewrite M_bind_run by done. cbv beta.
    erewrite M_bind_run by (apply IHp; [done|by eapply toks_ok_tail, toks_ok_app|lia|lia|done]). done.
  - intros l Hl rs. by apply block_complete.
  - apply simple_complete.
Qed.

(** ** Reading a command back from the buffer *)

(** The string at the start of [l], up to its NUL. *)
Fixpoint until_nul (l : list Z) : option (list Z) :=
  match l with
  | [] => None
  | c :: l => if c =? 0 then Some [] else w ← until_nul l; Some (c :: w)
  end.
Definition cstr (b : list Z) (q : nat) : option (list Z) := until_nul (drop q b).

Fixpoint read_args (b : list Z) (argv : list (option nat)) : option (list (list Z)) :=
  match argv with
  | [] => None
  | None :: _ => Some []
  | Some q :: argv => w ← cstr b q; ws ← read_args b argv; Some (w :: ws)
  end.

Fixpoint read_cmd (b : list Z) (c : cmd) : option ast :=
  match c with
  | EXEC argv _ => ws ← read_args b argv; Some (AExec ws)
  | REDIR c file _ m fd => a ← read_cmd b c; w ← cstr b file; Some (ARedir a w m fd)
  | PIPE l r => x ← read_cmd b l; y ← read_cmd b r; Some (APipe x y)
  | LIST l r => x ← read_cmd b l; y ← read_cmd b r; Some (AList x y)
  | BACK c => x ← read_cmd b c; Some (ABack x)
  end.

(** [b'] is [b] with NULs in place of some characters that are in no word. *)
Definition nulled (b b' : list Z) : Prop :=
  length b' = length b ∧
  ∀ i x, b !! i = Some x → b' !! i = Some x ∨ ((in_word x = false ∨ x = 0) ∧ b' !! i = Some 0).

#[export] Instance nulled_preorder : PreOrder nulled.
Proof.
  split; [by intros b; split; auto|].
  intros b1 b2 b3 [L1 H1] [L2 H2]. split; [congruence|]. intros i x Hx.
  destruct (H1 i x Hx) as [H|[Hn H]]; destruct (H2 _ _ H) as [H'|[Hn' H']]; auto.
Qed.

Lemma nulled_zero b b' e : nulled b b' → b !! e = Some 0 → b' !! e = Some 0.
Proof. intros [_ H] He. destruct (H _ _ He) as [?|[_ ?]]; done. Qed.

Lemma until_nul_app w l : 0 ∉ w → until_nul (w ++ 0 :: l) = Some w.
Proof.
  induction w as [|c w IH]; intros Hw; [done|]. apply not_elem_of_cons in Hw as [Hc Hw].
  cbn. case_if; [by subst|]. by rewrite IH.
Qed.

Section readback.
Context (str tl : list Z) (Hnul : 0 ∉ str).
Let buf : list Z := str ++ 0 :: tl.

Lemma wordat_read b q e w : wordat str q e w → nulled buf b → b !! e = Some 0 → cstr b q = Some w.
Proof.
  intros (-> & Hw & Ht & He & Hst) [Hlen Hb] Hz. unfold cstr.
  assert (take (length w) (drop q b) = w) as Htake.
  { rewrite <- Ht at 2. apply list_eq. intros i. destruct (decide (i < length w)%nat) as [Hi|Hi].
    - rewrite !lookup_take_lt, !lookup_drop by done. destruct (lookup_lt_is_Some_2 w i Hi) as [x Hx].
      assert (str !! (q + i)%nat = Some x) as Hx'.
      { rewrite <- lookup_drop, <- (lookup_take_lt _ (length w)) by done. by rewrite Ht. }
      rewrite Hx'. destruct (Hb (q + i)%nat x) as [?|[[Hn|Hn] _]]; [|done|..].
      + unfold buf. by rewrite lookup_app_l by (apply lookup_lt_Some in Hx'; lia).
      + rewrite (proj1 (Forall_lookup _ _) Hw _ _ Hx) in Hn. done.
      + subst x. by apply list_elem_of_lookup_2 in Hx'.
    - by rewrite !lookup_take_ge by lia. }
  rewrite <- (take_drop (length w) (drop q b)), Htake, drop_drop.
  rewrite (drop_S _ 0) by done. apply until_nul_app. intros Hin.
  rewrite <- Ht in Hin. apply list_elem_of_lookup_1 in Hin as [i Hi].
  apply lookup_take_Some in Hi as [Hi _]. rewrite lookup_drop in Hi. by apply list_elem_of_lookup_2 in Hi.
Qed.

Lemma put_nul_spec b q e w : wordat str q e w → nulled buf b →
  ∃ b', put_nul e b = Ret (tt, b') ∧ nulled b b' ∧ b' !! e = Some 0.
Proof.
  intros (_ & _ & _ & He & Hst) [Hlen Hb]. unfold put_nul. unfold buf in Hlen. rewrite length_app in Hlen. cbn in Hlen.
  rewrite arr_set_in by lia. cbn. rewrite Nat2Z.id. eexists. split; [done|].
  split; [|by apply list_lookup_insert_eq; lia]. split; [by rewrite length_insert|].
  intros i x Hx. destruct (decide (i = e)) as [->|Hne]; [|left; by rewrite list_lookup_insert_ne].
  right. split; [|by apply list_lookup_insert_eq; lia].
  destruct (lookup_lt_is_Some_2 buf e) as [y Hy]; [unfold buf; rewrite length_app; cbn; lia|].
  destruct (Hb _ _ Hy) as [H|[_ H]]; rewrite Hx in H; injection H as ->; [|by right].
  unfold buf in Hy. apply lookup_app_Some in Hy as [Hy|[_ Hy]]; [left; by apply Hst|right].
  replace (e - length str)%nat with 0%nat in Hy by lia. by injection Hy.
Qed.

Lemma nul_args_spec qs ls ws r r' : Forall3 (wordat str) qs ls ws → ∀ b, nulled buf b →
  ∃ b', nul_args ((Some <$> qs) ++ None :: r) ((Some <$> ls) ++ None :: r') b = Ret (tt, b') ∧ nulled b b' ∧
    ∀ b2, nulled b' b2 → read_args b2 ((Some <$> qs) ++ None :: r) = Some ws.
Proof.
  induction 1 as [|q e w qs ls ws Hw Hf IH]; intros b Hb; cbn [fmap list_fmap app].
  { exists b. split; [done|]. split; [done|]. done. }
  destruct (put_nul_spec b q e w Hw Hb) as (b1 & E1 & Hn1 & Hz). cbn [nul_args]. erewrite M_bind_run by exact E1.
  destruct (IH b1) as (b' & E & Hn & Hr); [by etrans|]. exists b'. split; [done|]. split; [by etrans|].
  intros b2 Hb2. cbn [read_args].
  rewrite (wordat_read b2 q e w Hw); [by cbn; rewrite (Hr b2 Hb2)|by repeat (etrans; [done|])|].
  eapply nulled_zero; [|done]. by etrans.
Qed.

Lemma pad_split l : (length l < MAXARGS)%nat → ∃ r, pad l = (Some <$> l) ++ None :: r.
Proof.
  intros. unfold pad. replace (MAXARGS - length l)%nat with (S (MAXARGS - S (length l))) by lia.
  cbn [replicate]. eauto.
Qed.

Lemma nulterminate_spec c a : means str c a → ∀ b, nulled buf b →
  ∃ b', nulterminate c b = Ret (tt, b') ∧ nulled b b' ∧ ∀ b2, nulled b' b2 → read_cmd b2 c = Some a.
Proof.
  assert (∀ l x r y, (∀ b, nulled buf b → ∃ b', nulterminate l b = Ret (tt, b') ∧ nulled b b' ∧
      ∀ b2, nulled b' b2 → read_cmd b2 l = Some x) →
    (∀ b, nulled buf b → ∃ b', nulterminate r b = Ret (tt, b') ∧ nulled b b' ∧
      ∀ b2, nulled b' b2 → read_cmd b2 r = Some y) → ∀ b, nulled buf b →
    ∃ b', (nulterminate l ;; nulterminate r) b = Ret (tt, b') ∧ nulled b b' ∧
      ∀ b2, nulled b' b2 → read_cmd b2 l = Some x ∧ read_cmd b2 r = Some y) as Hseq.
  { intros l x r y Hl Hr b Hb. destruct (Hl b Hb) as (b1 & E1 & Hn1 & R1).
    destruct (Hr b1) as (b2 & E2 & Hn2 & R2); [by etrans|]. exists b2. erewrite M_bind_run by exact E1.
    split; [done|]. split; [by etrans|]. intros b3 Hb3. split; [apply R1; by etrans|by apply R2]. }
  induction 1 as [qs ls ws Hlt Hf|c a q e w m fd Hm IH Hw|l r x y Hl IHl Hr IHr|l r x y Hl IHl Hr IHr|c a Hm IH];
    intros b Hb; cbn [nulterminate].
  - pose proof (Forall3_length_lm _ _ _ _ Hf). pose proof (Forall3_length_lr _ _ _ _ Hf).
    destruct (pad_split qs) as [r Er]; [lia|]. destruct (pad_split ls) as [r' Er']; [lia|]. rewrite Er, Er'.
    destruct (nul_args_spec qs ls ws r r' Hf b Hb) as (b' & E & Hn & Hread). exists b'. split; [done|]. split; [done|].
    intros b2 Hb2. cbn [read_cmd]. by rewrite (Hread b2 Hb2).
  - destruct (IH b Hb) as (b1 & E1 & Hn1 & R1). destruct (put_nul_spec b1 q e w Hw) as (b2 & E2 & Hn2 & Hz); [by etrans|].
    exists b2. erewrite M_bind_run by exact E1. split; [done|]. split; [by etrans|]. intros b3 Hb3. cbn [read_cmd].
    rewrite R1 by by etrans. cbn. rewrite (wordat_read b3 q e w Hw); [done|by repeat (etrans; [done|])|].
    by eapply nulled_zero.
  - destruct (Hseq _ _ _ _ IHl IHr b Hb) as (b' & E & Hn & R). exists b'. split; [done|]. split; [done|].
    intros b2 Hb2. destruct (R b2 Hb2) as [R1 R2]. cbn. by rewrite R1, R2.
  - destruct (Hseq _ _ _ _ IHl IHr b Hb) as (b' & E & Hn & R). exists b'. split; [done|]. split; [done|].
    intros b2 Hb2. destruct (R b2 Hb2) as [R1 R2]. cbn. by rewrite R1, R2.
  - destruct (IH b Hb) as (b' & E & Hn & R). exists b'. split; [done|]. split; [done|].
    intros b2 Hb2. cbn. by rewrite R.
Qed.
End readback.

(** ** The whole parser *)
Lemma strlen_spec str tl : 0 ∉ str → strlen (str ++ 0 :: tl) = Ret (length str).
Proof.
  induction str as [|c str IH]; intros H; [done|]. apply not_elem_of_cons in H as [Hc H].
  cbn. case_if; [by subst|]. by rewrite IH.
Qed.

Lemma leftovers str tl s ts : 0 ∉ str → ahead str s ts →
  ∃ b s', peek (str ++ 0 :: tl) (length str) [] s = Ret (b, s') ∧ (s' =? length str)%nat = bool_decide (ts = []).
Proof.
  intros Hnul Hs. destruct (skip_white_spec str tl s ts Hs) as (s' & E & [Hle Hl] & _ & Hst).
  unfold peek. rewrite E. cbn [mbind outcome_bind].
  destruct (lookup_lt_is_Some_2 (str ++ 0 :: tl) s') as [c Hc]; [rewrite length_app; cbn; lia|].
  rewrite Hc. cbn. eexists _, _. split; [done|].
  destruct (Nat.eqb_spec s' (length str)) as [->|Hne].
  - rewrite drop_all in Hl. subst ts. done.
  - rewrite bool_decide_eq_false_2; [done|]. rewrite lookup_app_l in Hc by lia.
    subst ts. rewrite (drop_S _ _ _ Hc). apply lex_stop. by apply Hst.
Qed.

(** What the code does, by what the parser over tokens does. *)
Lemma parsecmd_run str tl : 0 ∉ str →
  match tline (length str) (4 * S (length str)) (lex str) with
  | Ret (a, []) => ∃ c b, parsecmd (str ++ 0 :: tl) = Ret (c, b) ∧ read_cmd b c = Some a
  | Ret (_, _) => parsecmd (str ++ 0 :: tl) = Panic "syntax"
  | Panic m => parsecmd (str ++ 0 :: tl) = Panic m
  | _ => False
  end.
Proof.
  intros Hnul. destruct (lex_ok_length str) as [Hok Hlen].
  destruct (parse_sim str tl Hnul (4 * S (length str))) as [Hsim _].
  specialize (Hsim 0%nat (lex str)). unfold parsecmd. rewrite strlen_spec by done. cbn [mbind outcome_bind].
  destruct (tparse_sound (length str) (4 * S (length str)) (lex str) Hok Hlen) as [Hs _].
  specialize (Hs ltac:(lia)). specialize (Hsim ltac:(by split; [lia|])).
  destruct (tline _ _ _) as [[a ts]|m| |], (parseline _ _ _ _) as [[c s]|m'| |]; cbn in Hsim, Hs; try done; [|by subst].
  destruct Hsim as [Hm Ha]. destruct (leftovers str tl s ts Hnul Ha) as (b & s' & E & Ee). cbn [mbind outcome_bind].
  rewrite E. cbn [mbind outcome_bind]. rewrite Ee. destruct ts as [|t ts]; [|done].
  destruct (nulterminate_spec str tl Hnul c a Hm (str ++ 0 :: tl)) as (b' & En & _ & Hr); [done|].
  rewrite bool_decide_eq_true_2 by done. cbn [negb]. rewrite En. cbn. exists c, b'. split; [done|]. by apply Hr.
Qed.

(** C36. [parsecmd] recognises its grammar: the string in the buffer is
    accepted exactly when its tokens are those of a line of the grammar whose
    commands have fewer than [MAXARGS] words, and the command returned, read
    back from the buffer after [nulterminate], is the meaning of that line;
    every other line ends in one of the four syntax errors, so the parser
    always terminates, stays inside the buffer and never reaches the panic
    of [parseblock]. *)
Theorem parsecmd_correct (str tl : list Z) (Hnul : 0 ∉ str) :
  (∀ c b, parsecmd (str ++ 0 :: tl) = Ret (c, b) →
     ∃ l, ok_line l ∧ lex str = flat_line l ∧ read_cmd b c = Some (den_line l)) ∧
  (∀ l, ok_line l → lex str = flat_line l →
     ∃ c b, parsecmd (str ++ 0 :: tl) = Ret (c, b) ∧ read_cmd b c = Some (den_line l)) ∧
  ((∃ c b, parsecmd (str ++ 0 :: tl) = Ret (c, b)) ∨
   (∃ m, parsecmd (str ++ 0 :: tl) = Panic m ∧ m ∈ syntax_errors)).
Proof.
  pose proof (parsecmd_run str tl Hnul) as Hrun. destruct (lex_ok_length str) as [Hok Hlen].
  destruct (tparse_sound (length str) (4 * S (length str)) (lex str) Hok Hlen) as [Hs _].
  specialize (Hs ltac:(lia)). split_and!.
  - intros c b E. destruct (tline _ _ _) as [[a [|t ts]]|m| |]; try done; [|congruence..].
    destruct Hrun as (c' & b' & E' & Hr). rewrite E in E'. injection E' as <- <-.
    destruct Hs as (l & Hl & Hf & ->). rewrite app_nil_r in Hf. eauto.
  - intros l Hl Hf. destruct (tparse_complete (length str)) as [Hc _].
    specialize (Hc l (4 * S (length str))%nat []). rewrite app_nil_r in Hc.
    rewrite Hf in Hlen, Hok, Hrun. rewrite Hc in Hrun; [done|done|done|lia|lia|done].
  - destruct (tline _ _ _) as [[a [|t ts]]|m| |]; try done; [left; naive_solver|right..]; eexists; split; try done.
    set_solver.
Qed.

(** The line [ls -l>out | (cat <x; wc)& ; echo hi]. *)
Definition demo_line : list Z :=
  [108; 115; 32; 45; 108; 62; 111; 117; 116; 32; 124; 32; 40; 99; 97; 116; 32; 60; 120; 59; 32; 119; 99; 41;
   38; 32; 59; 32; 101; 99; 104; 111; 32; 104; 105].
Definition demo_syntax : line :=
  LSeq (PBar (Simple [Arg [108; 115]; Arg [45; 108]; Red (Redir ROut [111; 117; 116])])
         (PEnd (Block (LSeq (PEnd (Simple [Arg [99; 97; 116]; Red (Redir RIn [120])])) 0
                         (LEnd (PEnd (Simple [Arg [119; 99]])) 0)) []))) 1
    (LEnd (PEnd (Simple [Arg [101; 99; 104; 111]; Arg [104; 105]])) 0).

Lemma parsecmd_correct_witness : ∃ c b,
  parsecmd (demo_line ++ [0; 0]) = Ret (c, b) ∧ read_cmd b c = Some (den_line demo_syntax).
Proof.
  assert (0 ∉ demo_line) as H by (apply (bool_decide_unpack (0 ∉ demo_line)); vm_compute; exact I).
  destruct (parsecmd_correct demo_line [0] H) as (_ & Hc & _).
  apply Hc; [vm_compute; lia|vm_compute; reflexivity].
Defined.
