(* ===== verification/ShRun.v ===== *)
(** * The shell runs what it parsed (xv6 [sh.c], [gets] of [ulib.c])

    A process is its table of descriptors, with the objects they refer to.
    [runcmd] never returns; its result is the list of the calls of [exec] and
    [wait] that it and the processes it forks make, each with the descriptors
    of the calling process at that point.  Processes run concurrently: the
    order of the list between two processes means nothing.  Whether [open],
    [pipe] and [fork] succeed is an argument, by the place of the command. *)

From stdpp Require Import base numbers list gmap strings.
From S2P Require Import Prelude Proc Sh ShParse.

Open Scope Z_scope.

(** ** Descriptors and system calls *)

(** An object the shell was given, an opened file, an end of the pipe made
    for the command at [id]. *)
Inductive fobj := Given (n : nat) | Opened (path : list Z) (mode : Z) | PipeEnd (id : list nat) (w : bool).
Notation fdtable := (list (option fobj)).

Definition close (fds : fdtable) (fd : Z) : fdtable :=
  match argfd fds fd with
  | None => fds
  | Some _ => <[Z.to_nat fd := None]> fds
  end.
Definition dup (fds : fdtable) (fd : Z) : fdtable :=
  match argfd fds fd with
  | None => fds
  | Some f => match fdalloc fds f with None => fds | Some (_, fds) => fds end
  end.
(** [None] is the result -1. *)
Definition pipe (id : list nat) (fds : fdtable) : option (Z * Z * fdtable) :=
  match fdalloc fds (PipeEnd id false) with
  | None => None
  | Some (fd0, fds) =>
      match fdalloc fds (PipeEnd id true) with
      | None => None
      | Some (fd1, fds) => Some (fd0, fd1, fds)
      end
  end.
Definition open (path : list Z) (mode : Z) (fds : fdtable) : option (Z * fdtable) :=
  fdalloc fds (Opened path mode).

(** Which calls succeed; [shell_fork] is the one in [main]. *)
Record env := Env { shell_fork : bool; open_ok : list nat → bool; pipe_ok : list nat → bool; fork_ok : list nat → nat → bool }.

(** ** [runcmd] *)
Inductive event := Exec (argv : list (list Z)) (fds : fdtable) | Wait (fds : fdtable).

Section runcmd.
Context (e : env) (b : list Z).

Fixpoint runcmd (id : list nat) (c : cmd) (fds : fdtable) : outcome (list event) :=
  match c with
  | EXEC argv _ =>
      argv ← opt (read_args b argv);
      match argv with
      | [] => Ret []
      | _ => Ret [Exec argv fds]
      end
  | REDIR c file _ mode fd =>
      let fds := close fds fd in
      path ← opt (cstr b file);
      if open_ok e id then
        match open path mode fds with
        | None => Ret []
        | Some (_, fds) => runcmd (0%nat :: id) c fds
        end
      else Ret []
  | LIST l r =>
      if fork_ok e id 0 then
        child ← runcmd (0%nat :: id) l fds;
        rest ← runcmd (1%nat :: id) r fds;
        Ret (child ++ Wait fds :: rest)
      else Ret []
  | PIPE l r =>
      if pipe_ok e id then
        match pipe id fds with
        | None => Ret []
        | Some (p0, p1, fds) =>
            if fork_ok e id 0 then
              child0 ← runcmd (0%nat :: id) l (close (close (dup (close fds 1) p1) p0) p1);
              if fork_ok e id 1 then
                child1 ← runcmd (1%nat :: id) r (close (close (dup (close fds 0) p0) p0) p1);
                let fds := close (close fds p0) p1 in
                Ret (child0 ++ child1 ++ [Wait fds; Wait fds])
              else Ret child0
            else Ret []
        end
      else Ret []
  | BACK c => if fork_ok e id 0 then runcmd (0%nat :: id) c fds else Ret []
  end.

End runcmd.

(** ** [main] *)

(** [gets(buf, max)]: the characters stored and the input left. *)
Fixpoint gets_loop (input : list Z) (max : nat) : list Z * list Z :=
  match max with
  | O => ([], input)
  | S max =>
      match input with
      | [] => ([], [])
      | c :: input =>
          if (c =? 10) || (c =? 13) then ([c], input)
          else let '(l, input) := gets_loop input max in (c :: l, input)
      end
  end.
(** The buffer after [memset] and [gets]; it holds 100 characters. *)
Definition getcmd (input : list Z) : list Z * list Z :=
  let '(l, input) := gets_loop input 99 in
  (l ++ replicate (100 - length l) 0, input).

(** What the shell does for one line. *)
Inductive action := Chdir (path : list Z) | Run (events : outcome (list event)).

(** [while((fd = open("console", O_RDWR)) >= 0) if(fd >= 3){ close(fd); break; }] *)
Definition console : list Z := [99; 111; 110; 115; 111; 108; 101].
Fixpoint open_console (ok : bool) (fds : fdtable) (fuel : nat) : outcome fdtable :=
  match (if ok then open console O_RDWR fds else None) with
  | None => Ret fds
  | Some (fd, fds) =>
      if 3 <=? fd then Ret (close fds fd)
      else match fuel with O => NoFuel | S fuel => open_console ok fds fuel end
  end.

(** The child that [main] forks for a line. *)
Definition run_line (e : env) (buf : list Z) (fds : fdtable) : outcome (list event) :=
  '(c, b) ← parsecmd buf;
  runcmd e b [] c fds.

(** One round of the loop; [None] when [fork1] ends the shell. *)
Definition do_line (e : env) (buf : list Z) (fds : fdtable) : outcome (option action) :=
  c0 ← arr_get buf 0;
  c1 ← arr_get buf 1;
  c2 ← arr_get buf 2;
  if (c0 =? 99) && (c1 =? 100) && (c2 =? 32) then
    n ← strlen buf;
    buf ← arr_set buf (Z.of_nat n - 1) 0;
    path ← opt (cstr buf 3);
    Ret (Some (Chdir path))
  else if shell_fork e then Ret (Some (Run (run_line e buf fds)))
  else Ret None.

(** One line after the other until the buffer stays empty; [es] says what
    succeeds for each line. *)
Fixpoint main_loop (es : nat → env) (k : nat) (input : list Z) (fds : fdtable) (fuel : nat) : outcome (list action) :=
  let '(buf, input) := getcmd input in
  c ← arr_get buf 0;
  if c =? 0 then Ret []
  else
    match fuel with
    | O => NoFuel
    | S fuel =>
        a ← do_line (es k) buf fds;
        match a with
        | None => Ret []
        | Some a => rest ← main_loop es (S k) input fds fuel; Ret (a :: rest)
        end
    end.

Definition main (console_ok : bool) (es : nat → env) (input : list Z) (fds : fdtable) : outcome (list action) :=
  fds ← open_console console_ok fds 3;
  main_loop es 0 input fds (length input).

(** ** The wiring a command line asks for *)

(** A program with its arguments, standard input and output; a wait. *)
Inductive plan := PExec (argv : list (list Z)) (i o : fobj) | PWait (i o : fobj).

Fixpoint wires (e : env) (id : list nat) (a : ast) (i o : fobj) : list plan :=
  match a with
  | AExec [] => []
  | AExec argv => [PExec argv i o]
  | ARedir c w mode fd =>
      if open_ok e id then
        if fd =? 0 then wires e (0%nat :: id) c (Opened w mode) o
        else wires e (0%nat :: id) c i (Opened w mode)
      else []
  | AList l r =>
      if fork_ok e id 0 then wires e (0%nat :: id) l i o ++ PWait i o :: wires e (1%nat :: id) r i o else []
  | APipe l r =>
      if pipe_ok e id then
        if fork_ok e id 0 then
          wires e (0%nat :: id) l i (PipeEnd id true) ++
          if fork_ok e id 1 then wires e (1%nat :: id) r (PipeEnd id false) o ++ [PWait i o; PWait i o] else []
        else []
      else []
  | ABack c => if fork_ok e id 0 then wires e (0%nat :: id) c i o else []
  end.

(** The table of a process with given standard input and output; the other
    descriptors are those of the shell. *)
Definition table (i o : fobj) (rest : fdtable) : fdtable := Some i :: Some o :: rest.
Definition realise (rest : fdtable) (p : plan) : event :=
  match p with
  | PExec argv i o => Exec argv (table i o rest)
  | PWait i o => Wait (table i o rest)
  end.

(** Redirections of the grammar concern descriptors 0 and 1. *)
Fixpoint fds_ok (a : ast) : Prop :=
  match a with
  | AExec _ => True
  | ARedir c _ _ fd => (fd = 0 ∨ fd = 1) ∧ fds_ok c
  | APipe l r | AList l r => fds_ok l ∧ fds_ok r
  | ABack c => fds_ok c
  end.

Lemma wrap_fds rs : ∀ c, fds_ok c → fds_ok (wrap c rs).
Proof. induction rs as [|[[] w] rs IH]; intros c Hc; [done|..]; cbn; apply IH; cbn; auto. Qed.

Lemma back_fds n c : fds_ok c → fds_ok (Nat.iter n ABack c).
Proof. by induction n. Qed.

Lemma den_fds : (∀ l, fds_ok (den_line l)) ∧ (∀ p, fds_ok (den_pipe p)) ∧ (∀ e, fds_ok (den_cmd e)).
Proof. apply syntax_ind; cbn; auto using back_fds, wrap_fds. intros. by apply wrap_fds. Qed.

(** ** System calls on such a table *)
Lemma fdalloc_loop_at {A} (o : list (option A)) f n : o !! n = Some None →
  (∀ m, (m < n)%nat → ∃ g, o !! m = Some (Some g)) → ∀ k,
  fdalloc_loop o f k = Some (k + Z.of_nat n, <[n := Some f]> o).
Proof.
  revert n. induction o as [|x o IH]; intros n Hn Hlt k; [done|]. destruct n as [|n].
  - injection Hn as ->. cbn. by rewrite Z.add_0_r.
  - destruct (Hlt 0%nat) as [g [= ->]]; [lia|]. cbn [fdalloc_loop].
    rewrite (IH n Hn); [|intros m Hm; apply (Hlt (S m)); lia]. cbn.
    by replace (k + 1 + Z.of_nat n) with (k + Z.of_nat (S n)) by lia.
Qed.

Lemma fdalloc_at {A} (o : list (option A)) f n : o !! n = Some None →
  (∀ m, (m < n)%nat → ∃ g, o !! m = Some (Some g)) → fdalloc o f = Some (Z.of_nat n, <[n := Some f]> o).
Proof. intros. unfold fdalloc. by rewrite (fdalloc_loop_at _ _ n). Qed.

Lemma first_free {A} (o : list (option A)) m : o !! m = Some None →
  ∃ n, (n ≤ m)%nat ∧ o !! n = Some None ∧ ∀ k, (k < n)%nat → ∃ g, o !! k = Some (Some g).
Proof.
  revert m. induction o as [|[g|] o IH]; intros m Hm; [done|..].
  - destruct m as [|m]; [done|]. destruct (IH m Hm) as (n & Hle & Hn & Hlt). exists (S n). split; [lia|]. split; [done|].
    intros [|k] Hk; [by eexists|]. apply Hlt. lia.
  - exists 0%nat. split; [lia|]. split; [done|]. lia.
Qed.

(** Taking two free places and giving them back. *)
Lemma insert_two_back {A} (l : list (option A)) a b x y : a ≠ b → l !! a = Some None → l !! b = Some None →
  <[b := None]> (<[a := None]> (<[b := x]> (<[a := y]> l))) = l.
Proof.
  intros Hne Ha Hb. rewrite (list_insert_insert_ne _ a b) by done.
  rewrite !list_insert_insert_eq, (list_insert_id l a) by done. by apply list_insert_id.
Qed.

(** Two descriptors are free besides those of the shell. *)
Definition two_free (rest : fdtable) : Prop :=
  length rest = (NOFILE - 2)%nat ∧ ∃ n m, n ≠ m ∧ rest !! n = Some None ∧ rest !! m = Some None.

Lemma argfd_at {A} (fds : list (option A)) n x : fds !! n = Some x → length fds = NOFILE →
  argfd fds (Z.of_nat n) = x.
Proof.
  intros Hn Hl. pose proof (lookup_lt_Some _ _ _ Hn). unfold argfd.
  case_if as E; [exfalso; apply orb_true_iff in E as [?|?]; bool_to_prop; lia|]. by rewrite Nat2Z.id, Hn.
Qed.

Lemma close_at fds n f : fds !! n = Some (Some f) → length fds = NOFILE →
  close fds (Z.of_nat n) = <[n := None]> fds.
Proof.
  intros Hn Hl. unfold close. rewrite (argfd_at _ _ _ Hn Hl). by rewrite Nat2Z.id.
Qed.

Lemma dup_at fds n m f : fds !! n = Some (Some f) → length fds = NOFILE → fds !! m = Some None →
  (∀ k, (k < m)%nat → ∃ g, fds !! k = Some (Some g)) → dup fds (Z.of_nat n) = <[m := Some f]> fds.
Proof.
  intros Hn Hl Hm Hk. unfold dup. rewrite (argfd_at _ _ _ Hn Hl). by rewrite (fdalloc_at _ _ m).
Qed.

Ltac tab_len := solve [done | unfold NOFILE, table in *; cbn [length]; rewrite ?length_insert; lia].

Lemma redirect_at i o rest path mode fd : length rest = (NOFILE - 2)%nat → fd = 0 ∨ fd = 1 →
  ∃ n, open path mode (close (table i o rest) fd) =
    Some (n, if fd =? 0 then table (Opened path mode) o rest else table i (Opened path mode) rest).
Proof.
  intros Hl [-> | ->]; unfold open, table.
  - rewrite (close_at _ 0 i) by tab_len. eexists. by rewrite (fdalloc_at _ _ 0) by tab_len.
  - rewrite (close_at _ 1 o) by tab_len. eexists. rewrite (fdalloc_at _ _ 1); [done|done|].
    intros m Hm. replace m with 0%nat by lia. by eexists.
Qed.

(** The pipe and the tables of its two sides and of the waiting shell. *)
Lemma pipe_at id i o rest : two_free rest → ∃ p0 p1 fds, pipe id (table i o rest) = Some (p0, p1, fds) ∧
  close (close (dup (close fds 1) p1) p0) p1 = table i (PipeEnd id true) rest ∧
  close (close (dup (close fds 0) p0) p0) p1 = table (PipeEnd id false) o rest ∧
  close (close fds p0) p1 = table i o rest.
Proof.
  intros [Hl (n & m & Hnm & Hn & Hm)].
  destruct (first_free rest n Hn) as (a & _ & Ha & Hlta).
  assert (∃ x, (<[a := Some (PipeEnd id false)]> rest) !! x = Some None) as [x Hx].
  { destruct (decide (a = n)) as [->|]; [exists m|exists n]; by rewrite list_lookup_insert_ne. }
  destruct (first_free _ x Hx) as (b & _ & Hb & Hltb).
  assert (a ≠ b) as Hab. { intros ->. rewrite list_lookup_insert_eq in Hb by by eapply lookup_lt_Some. done. }
  pose proof (lookup_lt_Some _ _ _ Ha). rewrite list_lookup_insert_ne in Hb by done. pose proof (lookup_lt_Some _ _ _ Hb).
  set (full := <[b := Some (PipeEnd id true)]> (<[a := Some (PipeEnd id false)]> rest)).
  assert (full !! a = Some (Some (PipeEnd id false))) as Fa.
  { subst full. rewrite list_lookup_insert_ne by done. by rewrite list_lookup_insert_eq by lia. }
  assert (full !! b = Some (Some (PipeEnd id true))) as Fb.
  { subst full. rewrite list_lookup_insert_eq by (rewrite length_insert; lia). done. }
  assert (length full = NOFILE - 2)%nat as Fl by (subst full; by rewrite !length_insert).
  assert (∀ x y, close (close (Some x :: Some y :: full) (Z.of_nat (S (S a)))) (Z.of_nat (S (S b))) =
    table x y rest) as Hclose.
  { intros x' y. rewrite (close_at _ (S (S a)) (PipeEnd id false)) by tab_len.
    change (<[S (S a) := None]> (Some x' :: Some y :: full)) with (Some x' :: Some y :: <[a := None]> full).
    rewrite (close_at _ (S (S b)) (PipeEnd id true)).
    - cbn [insert list_insert]. unfold table. do 2 f_equal. by apply insert_two_back.
    - change (<[a := None]> full !! b = Some (Some (PipeEnd id true))). by rewrite list_lookup_insert_ne.
    - tab_len. }
  exists (Z.of_nat (S (S a))), (Z.of_nat (S (S b))), (table i o full). unfold pipe, table. split_and!.
  - rewrite (fdalloc_at _ _ (S (S a))); [|done|by intros [|[|k]] Hk; [eexists..|]; cbn; [..|apply Hlta; lia]].
    rewrite (fdalloc_at _ _ (S (S b))); [done|exact (eq_trans (list_lookup_insert_ne _ _ _ _ Hab) Hb)|].
    intros [|[|k]] Hk; [by eexists..|]. apply Hltb. lia.
  - rewrite (close_at _ 1 o) by tab_len. cbn [insert list_insert].
    rewrite (dup_at _ (S (S b)) 1 (PipeEnd id true)); [apply Hclose|done|tab_len|done|].
    intros k Hk. replace k with 0%nat by lia. by eexists.
  - rewrite (close_at _ 0 i) by tab_len. cbn [insert list_insert].
    rewrite (dup_at _ (S (S a)) 0 (PipeEnd id false)); [apply Hclose|done|tab_len|done|lia].
  - apply Hclose.
Qed.

(** ** [runcmd] wires the line *)
Lemma runcmd_spec e b rest c : two_free rest → ∀ id a i o, read_cmd b c = Some a → fds_ok a →
  runcmd e b id c (table i o rest) = Ret (realise rest <$> wires e id a i o).
Proof.
  intros Hrest. induction c as [argv eargv|c IH file efile mode fd|l IHl r IHr|l IHl r IHr|c IH];
    intros id a i o Ha Hfd; cbn [read_cmd] in Ha; cbn [runcmd].
  - destruct (read_args b argv) as [ws|]; [|done]. injection Ha as <-. by destruct ws.
  - destruct (read_cmd b c) as [x|]; [|done]. cbn in Ha.
    destruct (cstr b file) as [w|]; [|done]. injection Ha as <-. destruct Hfd as [Hfd Hx]. cbn [opt mbind outcome_bind wires].
    destruct (open_ok e id); [|done].
    destruct (redirect_at i o rest w mode fd (proj1 Hrest) Hfd) as [n ->]. destruct (fd =? 0); by apply IH.
  - destruct (read_cmd b l) as [x|]; [|done]. destruct (read_cmd b r) as [y|]; [|done]. injection Ha as <-.
    destruct Hfd as [Hx Hy]. cbn [wires]. destruct (pipe_ok e id); [|done].
    destruct (pipe_at id i o rest Hrest) as (p0 & p1 & fds & -> & El & Er & Ew).
    destruct (fork_ok e id 0); [|done]. rewrite El, Er, Ew. rewrite (IHl _ x) by done. cbn [mbind outcome_bind].
    destruct (fork_ok e id 1); [|by rewrite app_nil_r]. rewrite (IHr _ y) by done. cbn. by rewrite !fmap_app.
  - destruct (read_cmd b l) as [x|]; [|done]. destruct (read_cmd b r) as [y|]; [|done]. injection Ha as <-.
    destruct Hfd as [Hx Hy]. cbn [wires]. destruct (fork_ok e id 0); [|done].
    rewrite (IHl _ x), (IHr _ y) by done. cbn. by rewrite fmap_app.
  - destruct (read_cmd b c) as [x|]; [|done]. injection Ha as <-. cbn [wires]. destruct (fork_ok e id 0); [|done]. by apply IH.
Qed.

(** A line of the grammar in the buffer runs as the grammar says. *)
Lemma run_line_spec e str tl l rest i o : 0 ∉ str → ok_line l → lex str = flat_line l → two_free rest →
  run_line e (str ++ 0 :: tl) (table i o rest) = Ret (realise rest <$> wires e [] (den_line l) i o).
Proof.
  intros Hnul Hl Hf Hrest. destruct (lex_ok_length str) as [Hok Hlen].
  pose proof (parsecmd_run str tl Hnul) as Hrun. destruct (tparse_complete (length str)) as [Hc _].
  specialize (Hc l (4 * S (length str))%nat []). rewrite app_nil_r in Hc.
  rewrite Hf in Hlen, Hok, Hrun. rewrite Hc in Hrun; [|done|done|lia|lia|done].
  destruct Hrun as (c & b & E & Hr). unfold run_line. rewrite E. cbn [mbind outcome_bind].
  apply runcmd_spec; [done|done|]. apply den_fds.
Qed.

(** ** The loop of [main] *)

Lemma gets_line l input n : 10 ∉ l → 13 ∉ l → (length l < n)%nat →
  gets_loop (l ++ 10 :: input) n = (l ++ [10], input).
Proof.
  revert n. induction l as [|c l IH]; intros n H1 H2 Hn; (destruct n as [|n]; [cbn in Hn; lia|]); [done|].
  apply not_elem_of_cons in H1 as [Hc1 H1]. apply not_elem_of_cons in H2 as [Hc2 H2]. cbn [gets_loop app].
  case_if as E; [apply orb_true_iff in E as [?|?]; bool_to_prop; congruence|].
  rewrite IH by (done || (cbn in Hn; lia)). done.
Qed.

(** A line as it is typed: no control characters that end it, and short
    enough for the buffer. *)
Definition typed (str : list Z) : Prop :=
  0 ∉ str ∧ 10 ∉ str ∧ 13 ∉ str ∧ (length str ≤ 98)%nat.

Lemma getcmd_line str input : typed str →
  ∃ tl, getcmd (str ++ 10 :: input) = ((str ++ [10]) ++ 0 :: tl, input) ∧ length tl = (98 - length str)%nat.
Proof.
  intros (_ & H1 & H2 & Hl). unfold getcmd. rewrite gets_line by (done || lia).
  exists (replicate (98 - length str) 0). rewrite length_app. cbn [length].
  replace (100 - (length str + 1))%nat with (S (98 - length str)) by lia. by rewrite length_replicate.
Qed.

Lemma lex_newline str : lex (str ++ [10]) = lex str.
Proof.
  induction str as [str IH] using (induction_ltof1 _ length). unfold ltof in IH.
  destruct str as [|c str]; [done|]. pose proof (IH str ltac:(cbn; lia)) as Hs. cbn [app lex].
  rewrite Hs. destruct (strchr whitespace c); [done|]. destruct (c =? c_gt).
  - destruct str as [|c' str]; [done|]. cbn [app] in *. destruct (c' =? c_gt); [|done].
    rewrite IH by (cbn; lia). done.
  - destruct (strchr symbols c); [done|]. destruct str as [|c' str]; [done|]. done.
Qed.

(** [cd path]. *)
Definition cd_path (str : list Z) : option (list Z) :=
  match str with
  | c0 :: c1 :: c2 :: p => if (c0 =? 99) && (c1 =? 100) && (c2 =? 32) then Some p else None
  | _ => None
  end.

(** What the shell should do for a line. *)
Definition line_action (e : env) (i o : fobj) (rest : fdtable) (str : list Z) (act : action) : Prop :=
  match cd_path str with
  | Some p => act = Chdir p
  | None =>
      ∃ r, act = Run r ∧
        (∀ l, ok_line l → lex str = flat_line l → r = Ret (realise rest <$> wires e [] (den_line l) i o)) ∧
        ((∀ l, ok_line l → lex str ≠ flat_line l) → ∃ m, r = Panic m ∧ m ∈ syntax_errors)
  end.

Lemma run_line_error e str tl fds : 0 ∉ str → (∀ l, ok_line l → lex str ≠ flat_line l) →
  ∃ m, run_line e (str ++ 0 :: tl) fds = Panic m ∧ m ∈ syntax_errors.
Proof.
  intros Hnul Hno. pose proof (parsecmd_run str tl Hnul) as Hrun. destruct (lex_ok_length str) as [Hok Hlen].
  destruct (tparse_sound (length str) (4 * S (length str)) (lex str) Hok Hlen) as [Hs _].
  specialize (Hs ltac:(lia)). unfold run_line.
  destruct (tline _ _ _) as [[a [|t ts]]|m| |]; try done.
  - destruct Hs as (l & Hl & Hf & _). rewrite app_nil_r in Hf. by destruct (Hno l Hl).
  - rewrite Hrun. eexists. split; [done|]. set_solver.
  - rewrite Hrun. by eexists.
Qed.

Lemma do_line_chars e c0 c1 c2 r fds : do_line e (c0 :: c1 :: c2 :: r) fds =
  if (c0 =? 99) && (c1 =? 100) && (c2 =? 32) then
    n ← strlen (c0 :: c1 :: c2 :: r);
    buf ← arr_set (c0 :: c1 :: c2 :: r) (Z.of_nat n - 1) 0;
    path ← opt (cstr buf 3);
    Ret (Some (Chdir path))
  else if shell_fork e then Ret (Some (Run (run_line e (c0 :: c1 :: c2 :: r) fds))) else Ret None.
Proof. done. Qed.

Lemma do_line_cd e str p tl fds : typed str → cd_path str = Some p →
  do_line e ((str ++ [10]) ++ 0 :: tl) fds = Ret (Some (Chdir p)).
Proof.
  intros (Hnul & _) Hcd. destruct str as [|c0 [|c1 [|c2 str]]]; try done. cbn -[Z.eqb] in Hcd. case_match eqn:E; [|done].
  injection Hcd as ->. cbn [app]. rewrite do_line_chars, E.
  change (c0 :: c1 :: c2 :: (p ++ [10]) ++ 0 :: tl) with (((c0 :: c1 :: c2 :: p) ++ [10]) ++ 0 :: tl).
  rewrite strlen_spec by (rewrite elem_of_app; set_solver). cbn [mbind outcome_bind].
  rewrite arr_set_in by (rewrite !length_app; cbn; lia). cbn [mbind outcome_bind].
  replace (Z.to_nat _) with (length (c0 :: c1 :: c2 :: p)) by (rewrite length_app; cbn; lia).
  rewrite <- app_assoc, insert_app_r_alt, Nat.sub_diag by done. unfold cstr. cbn -[until_nul].
  rewrite drop_0, until_nul_app by set_solver. done.
Qed.

Lemma do_line_run e str tl fds : (1 ≤ length str + length tl)%nat → cd_path str = None → shell_fork e = true →
  do_line e ((str ++ [10]) ++ 0 :: tl) fds = Ret (Some (Run (run_line e ((str ++ [10]) ++ 0 :: tl) fds))).
Proof.
  intros Hl Hcd Hf. destruct str as [|c0 [|c1 [|c2 str]]]; cbn [app].
  - destruct tl; [cbn in Hl; lia|]. by rewrite do_line_chars, Hf.
  - rewrite do_line_chars, Hf. by rewrite andb_false_r.
  - rewrite do_line_chars, Hf. by rewrite andb_false_r.
  - rewrite do_line_chars, Hf. cbn -[Z.eqb andb] in Hcd. by destruct (_ && _).
Qed.

Lemma main_loop_spec es i o rest fuel : two_free rest → (∀ k, shell_fork (es k) = true) → ∀ ls k,
  Forall typed ls → (length ls ≤ fuel)%nat →
  ∃ acts, main_loop es k (concat ((λ l, l ++ [10]) <$> ls)) (table i o rest) fuel = Ret acts ∧
    length acts = length ls ∧
    ∀ j str, ls !! j = Some str → ∃ act, acts !! j = Some act ∧ line_action (es (k + j)%nat) i o rest str act.
Proof.
  intros Hrest Hfork. induction fuel as [|fuel IH]; intros ls k Hls Hlen;
    (destruct ls as [|str ls]; [by exists []|]); [cbn in Hlen; lia|].
  apply Forall_cons in Hls as [Hstr Hls]. cbn [fmap list_fmap concat]. rewrite <- app_assoc. cbn [app].
  destruct (getcmd_line str (concat ((λ l, l ++ [10]) <$> ls)) Hstr) as (tl & E & Htl).
  cbn [main_loop]. rewrite E. cbn iota.
  destruct (IH ls (S k)) as (acts & Em & Hla & Hacts); [done|cbn in Hlen; lia|].
  assert (∃ c, arr_get ((str ++ [10]) ++ 0 :: tl) 0 = Ret c ∧ (c =? 0) = false) as (c & -> & Hc).
  { destruct str as [|c str]; [by exists 10|]. exists c. split; [done|]. apply Z.eqb_neq. intros ->.
    destruct Hstr as [Hnul _]. set_solver. }
  cbn [mbind outcome_bind]. rewrite Hc.
  assert (∃ act, do_line (es k) ((str ++ [10]) ++ 0 :: tl) (table i o rest) = Ret (Some act) ∧
    line_action (es k) i o rest str act) as (act & -> & Hact).
  { unfold line_action. destruct (cd_path str) as [p|] eqn:Hcd.
    - eexists. split; [by apply do_line_cd|done].
    - rewrite do_line_run by (done || lia). eexists. split; [done|]. eexists. split; [done|].
      assert (0 ∉ str ++ [10]) as Hz by (rewrite elem_of_app; destruct Hstr; set_solver). split.
      + intros l Hl Hf. apply run_line_spec; [done|done|by rewrite lex_newline|done].
      + intros Hno. apply run_line_error; [done|]. by rewrite lex_newline. }
  cbn [mbind outcome_bind]. rewrite Em. cbn. exists (act :: acts). split; [done|]. split; [cbn; lia|].
  intros [|j] str' Hj.
  - injection Hj as <-. exists act. by rewrite Nat.add_0_r.
  - destruct (Hacts j str' Hj) as (act' & ? & ?). exists act'. by rewrite <- Nat.add_succ_comm.
Qed.

(** The descriptors of a shell started with the first [n] open. *)
Definition given (n : nat) : fdtable := (Some ∘ Given <$> seq 0 n) ++ replicate (NOFILE - n) None.
(** Descriptor [k] once the console is open. *)
Definition std (n k : nat) : fobj := if (k <? n)%nat then Given k else Opened console O_RDWR.

Lemma open_console_spec n : (n ≤ 3)%nat →
  open_console true (given n) 3 =
    Ret (table (std n 0) (std n 1) (Some (std n 2) :: replicate (NOFILE - 3) None)).
Proof. intros Hn. do 4 (destruct n as [|n]; [done|]). lia. Qed.


(** Everything succeeds. *)
Definition good_env : env := Env true (λ _, true) (λ _, true) (λ _ _, true).


(** The last line of an input that does not end with a newline loses its last
    character when it is a [cd]: the code removes it without looking at it. *)
Lemma cd_without_newline : do_line good_env (getcmd [99; 100; 32; 97; 98]).1 (given 3) = Ret (Some (Chdir [97])).
Proof. vm_compute. reflexivity. Qed.
