(* ===== verification/Vm.v ===== *)
(** * Page tables (xv6 [vm.c], macros of [mmu.h] and [memlayout.h])

    Physical memory is a set of pages, by their kernel addresses, each with its
    bytes; a page-table page is such a page, read and written word by word.  The
    allocator appears as the list of free pages, which is what [Kalloc] proves
    of the linked list in the code; a free page has no contents, so an access
    to a page behind its [kfree] is [Undef], and so is a second [kfree].  What a
    fresh page holds ([junk]), the end of the kernel ([kend]) and the address
    of its data section ([data]), which the linker provides, are variables. *)

From stdpp Require Import base numbers list gmap strings.
From S2P Require Import Prelude Kalloc Fs.

Open Scope Z_scope.

(** ** Addresses and entries *)
Definition EXTMEM : Z := 1048576.
Definition DEVSPACE : Z := 4261412864.
Definition KERNLINK : Z := KERNBASE + EXTMEM.
Definition NPDENTRIES : Z := 1024.

Definition PTE_P : Z := 1.
Definition PTE_W : Z := 2.
Definition PTE_U : Z := 4.

Definition P2V (a : Z) : Z := u32 (a + KERNBASE).
Definition PDX (va : Z) : Z := Z.land (Z.shiftr va 22) 1023.
Definition PTX (va : Z) : Z := Z.land (Z.shiftr va 12) 1023.
Definition PGADDR (d t o : Z) : Z := u32 (Z.lor (Z.lor (Z.shiftl d 22) (Z.shiftl t 12)) o).
Definition PGROUNDDOWN (a : Z) : Z := Z.land a (u32 (Z.lnot (PGSIZE - 1))).
Definition PTE_ADDR (pte : Z) : Z := Z.land pte (u32 (Z.lnot 4095)).
Definition PTE_FLAGS (pte : Z) : Z := Z.land pte 4095.

(** ** Memory *)
Record vm := Vm { vpages : gmap Z (list Z); vfree : list Z }.

(** The bytes of a page. *)
Definition page (p : Z) : M vm (list Z) := fun s => d ← opt (vpages s !! p); Ret (d, s).
Definition set_page (p : Z) (d : list Z) : M vm unit := fun s =>
  _ ← opt (vpages s !! p); Ret (tt, Vm (<[p := d]> (vpages s)) (vfree s)).

(** [p[i]] and [p[i] = v] for a page of words. *)
Definition get_word (p i : Z) : M vm Z := d ← page p; lift (get32 d (4 * i)).
Definition set_word (p i v : Z) : M vm unit := d ← page p; d ← lift (put32 d (4 * i) v); set_page p d.

Section vm.
Context (kend data : Z) (junk : Z → list Z).

Definition kalloc : M vm Z := fun s =>
  match vfree s with
  | [] => Ret (0, s)
  | p :: l => Ret (p, Vm (<[p := junk p]> (vpages s)) l)
  end.

Definition kfree (v : Z) : M vm unit := fun s =>
  if negb (v mod PGSIZE =? 0) || (v <? kend) || (PHYSTOP <=? V2P v) then Panic "kfree"
  else _ ← opt (vpages s !! v); Ret (tt, Vm (delete v (vpages s)) (v :: vfree s)).

(** [memset(p, 0, PGSIZE)]. *)
Definition zero_page (p : Z) : M vm unit := set_page p (replicate (Z.to_nat PGSIZE) 0).

(** ** Page tables *)

(** The entry is the [PTX]-th word of a page; [None] is the null pointer. *)
Definition walkpgdir (pgdir va : Z) (alloc : bool) : M vm (option (Z * Z)) :=
  pde ← get_word pgdir (PDX va);
  if negb (Z.land pde PTE_P =? 0) then mret (Some (P2V (PTE_ADDR pde), PTX va))
  else if negb alloc then mret None
  else
    pgtab ← kalloc;
    if pgtab =? 0 then mret None
    else
      zero_page pgtab ;;
      set_word pgdir (PDX va) (Z.lor (Z.lor (Z.lor (V2P pgtab) PTE_P) PTE_W) PTE_U) ;;
      mret (Some (pgtab, PTX va)).

(** The loop of [mappages]; the result. *)
Fixpoint mappages_loop (pgdir a last pa perm : Z) (fuel : nat) : M vm Z :=
  pte ← walkpgdir pgdir a true;
  match pte with
  | None => mret (-1)
  | Some (pgtab, i) =>
      x ← get_word pgtab i;
      if negb (Z.land x PTE_P =? 0) then panic "remap"
      else
        set_word pgtab i (Z.lor (Z.lor pa perm) PTE_P) ;;
        if a =? last then mret 0
        else
          match fuel with
          | O => lift NoFuel
          | S fuel => mappages_loop pgdir (u32 (a + PGSIZE)) last (u32 (pa + PGSIZE)) perm fuel
          end
  end.
Definition mappages (pgdir va size pa perm : Z) : M vm Z :=
  let a := PGROUNDDOWN va in
  let last := PGROUNDDOWN (u32 (va + size - 1)) in
  mappages_loop pgdir a last pa perm (Z.to_nat (u32 (last - a) / PGSIZE)).

(** The loop of [deallocuvm]. *)
Fixpoint deallocuvm_loop (pgdir a oldsz : Z) (fuel : nat) : M vm unit :=
  if a <? oldsz then
    match fuel with
    | O => lift NoFuel
    | S fuel =>
        pte ← walkpgdir pgdir a false;
        match pte with
        | None => deallocuvm_loop pgdir (u32 (u32 (PGADDR (PDX a + 1) 0 0 - PGSIZE) + PGSIZE)) oldsz fuel
        | Some (pgtab, i) =>
            x ← get_word pgtab i;
            (if negb (Z.land x PTE_P =? 0) then
               let pa := PTE_ADDR x in
               if pa =? 0 then panic "kfree"
               else kfree (P2V pa) ;; set_word pgtab i 0
             else mret tt) ;;
            deallocuvm_loop pgdir (u32 (a + PGSIZE)) oldsz fuel
        end
    end
  else mret tt.
Definition deallocuvm (pgdir oldsz newsz : Z) : M vm Z :=
  if oldsz <=? newsz then mret oldsz
  else
    let a := PGROUNDUP newsz in
    deallocuvm_loop pgdir a oldsz (Z.to_nat ((oldsz - a) / PGSIZE + 1)) ;;
    mret newsz.

(** The loop of [allocuvm]: [false] when memory ran out. *)
Fixpoint allocuvm_loop (pgdir a oldsz newsz : Z) (fuel : nat) : M vm bool :=
  if a <? newsz then
    match fuel with
    | O => lift NoFuel
    | S fuel =>
        mem ← kalloc;
        if mem =? 0 then deallocuvm pgdir newsz oldsz ;; mret false
        else
          zero_page mem ;;
          r ← mappages pgdir a PGSIZE (V2P mem) (Z.lor PTE_W PTE_U);
          if r <? 0 then deallocuvm pgdir newsz oldsz ;; kfree mem ;; mret false
          else allocuvm_loop pgdir (u32 (a + PGSIZE)) oldsz newsz fuel
    end
  else mret true.
Definition allocuvm (pgdir oldsz newsz : Z) : M vm Z :=
  if KERNBASE <=? newsz then mret 0
  else if newsz <? oldsz then mret oldsz
  else
    let a := PGROUNDUP oldsz in
    ok ← allocuvm_loop pgdir a oldsz newsz (Z.to_nat ((newsz - a) / PGSIZE + 1));
    mret (if (ok : bool) then newsz else 0).

(** [for(i = 0; i < NPDENTRIES; i++) ...] of [freevm], one round. *)
Definition free_table (pgdir i : Z) : M vm unit :=
  pde ← get_word pgdir i;
  if negb (Z.land pde PTE_P =? 0) then kfree (P2V (PTE_ADDR pde)) else mret tt.
Definition freevm (pgdir : Z) : M vm unit :=
  if pgdir =? 0 then panic "freevm: no pgdir"
  else
    deallocuvm pgdir KERNBASE 0 ;;
    for_loop 0 (Z.to_nat NPDENTRIES) (free_table pgdir) ;;
    kfree pgdir.

(** [struct kmap]: virtual address, physical start and end, permissions. *)
Definition kmap : list (Z * Z * Z * Z) :=
  [(KERNBASE, 0, EXTMEM, PTE_W);
   (KERNLINK, V2P KERNLINK, V2P data, 0);
   (data, V2P data, PHYSTOP, PTE_W);
   (DEVSPACE, DEVSPACE, 0, PTE_W)].
Fixpoint setupkvm_loop (pgdir : Z) (k : list (Z * Z * Z * Z)) : M vm Z :=
  match k with
  | [] => mret pgdir
  | (virt, phys_start, phys_end, perm) :: k =>
      r ← mappages pgdir virt (u32 (phys_end - phys_start)) phys_start perm;
      if r <? 0 then freevm pgdir ;; mret 0 else setupkvm_loop pgdir k
  end.
Definition setupkvm : M vm Z :=
  pgdir ← kalloc;
  if pgdir =? 0 then mret 0
  else
    zero_page pgdir ;;
    if DEVSPACE <? P2V PHYSTOP then panic "PHYSTOP too high"
    else setupkvm_loop pgdir kmap.

Definition inituvm (pgdir : Z) (init : list Z) (sz : Z) : M vm unit :=
  if PGSIZE <=? sz then panic "inituvm: more than a page"
  else
    mem ← kalloc;
    zero_page mem ;;
    mappages pgdir 0 PGSIZE (V2P mem) (Z.lor PTE_W PTE_U) ;;
    d ← page mem;
    bytes ← lift (get_bytes init 0 sz);
    d ← lift (put_bytes d 0 bytes);
    set_page mem d.

Definition clearpteu (pgdir uva : Z) : M vm unit :=
  pte ← walkpgdir pgdir uva false;
  match pte with
  | None => panic "clearpteu"
  | Some (pgtab, i) => x ← get_word pgtab i; set_word pgtab i (Z.land x (u32 (Z.lnot PTE_U)))
  end.

(** The loop of [copyuvm]; [false] is the jump to [bad]. *)
Fixpoint copyuvm_loop (pgdir d i sz : Z) (fuel : nat) : M vm bool :=
  if i <? sz then
    match fuel with
    | O => lift NoFuel
    | S fuel =>
        pte ← walkpgdir pgdir i false;
        match pte with
        | None => panic "copyuvm: pte should exist"
        | Some (pgtab, j) =>
            x ← get_word pgtab j;
            if Z.land x PTE_P =? 0 then panic "copyuvm: page not present"
            else
              let pa := PTE_ADDR x in
              let flags := PTE_FLAGS x in
              mem ← kalloc;
              if mem =? 0 then mret false
              else
                bytes ← page (P2V pa);
                set_page mem bytes ;;
                r ← mappages d i PGSIZE (V2P mem) flags;
                if r <? 0 then mret false
                else copyuvm_loop pgdir d (u32 (i + PGSIZE)) sz fuel
        end
    end
  else mret true.
Definition copyuvm (pgdir sz : Z) : M vm Z :=
  d ← setupkvm;
  if d =? 0 then mret 0
  else
    ok ← copyuvm_loop pgdir d 0 sz (Z.to_nat (sz / PGSIZE + 1));
    if (ok : bool) then mret d else freevm d ;; mret 0.

(** An operation on memory, and one on the file system. *)
Definition on_vm {A} (m : M vm A) : M (vm * fs) A := fun '(v, f) => '(a, v) ← m v; Ret (a, (v, f)).
Definition on_fs {A} (m : M fs A) : M (vm * fs) A := fun '(v, f) => '(a, f) ← m f; Ret (a, (v, f)).

(** [readi] stores at the page what it reads; [dev_read] are the device
    functions it may call. *)
Fixpoint loaduvm_loop (dev_read : Z → option (nat → Z → M fs (Z * list Z))) (pgdir addr : Z) (ip : nat)
    (offset sz i : Z) (fuel : nat) : M (vm * fs) Z :=
  if i <? sz then
    match fuel with
    | O => lift NoFuel
    | S fuel =>
        pte ← on_vm (walkpgdir pgdir (u32 (addr + i)) false);
        match pte with
        | None => panic "loaduvm: address should exist"
        | Some (pgtab, j) =>
            x ← on_vm (get_word pgtab j);
            let pa := PTE_ADDR x in
            let n := if u32 (sz - i) <? PGSIZE then u32 (sz - i) else PGSIZE in
            '(r, bytes) ← on_fs (readi dev_read ip (u32 (offset + i)) n);
            d ← on_vm (page (P2V pa));
            d ← lift (put_bytes d 0 bytes);
            on_vm (set_page (P2V pa) d) ;;
            if negb (r =? n) then mret (-1)
            else loaduvm_loop dev_read pgdir addr ip offset sz (u32 (i + PGSIZE)) fuel
        end
    end
  else mret 0.
Definition loaduvm (dev_read : Z → option (nat → Z → M fs (Z * list Z))) (pgdir addr : Z) (ip : nat)
    (offset sz : Z) : M (vm * fs) Z :=
  if negb (addr mod PGSIZE =? 0) then panic "loaduvm: addr must be page aligned"
  else loaduvm_loop dev_read pgdir addr ip offset sz 0 (Z.to_nat (sz / PGSIZE + 1)).

(** 0 is the null pointer. *)
Definition uva2ka (pgdir uva : Z) : M vm Z :=
  pte ← walkpgdir pgdir uva false;
  match pte with
  | None => lift Undef
  | Some (pgtab, i) =>
      x ← get_word pgtab i;
      if Z.land x PTE_P =? 0 then mret 0
      else if Z.land x PTE_U =? 0 then mret 0
      else mret (P2V (PTE_ADDR x))
  end.

Fixpoint copyout_loop (pgdir va : Z) (buf : list Z) (len : Z) (fuel : nat) : M vm Z :=
  if 0 <? len then
    match fuel with
    | O => lift NoFuel
    | S fuel =>
        let va0 := PGROUNDDOWN va in
        pa0 ← uva2ka pgdir va0;
        if pa0 =? 0 then mret (-1)
        else
          let n := u32 (PGSIZE - (va - va0)) in
          let n := if len <? n then len else n in
          bytes ← lift (get_bytes buf 0 n);
          d ← page pa0;
          d ← lift (put_bytes d (va - va0) bytes);
          set_page pa0 d ;;
          copyout_loop pgdir (u32 (va0 + PGSIZE)) (drop (Z.to_nat n) buf) (u32 (len - n)) fuel
    end
  else mret 0.
Definition copyout (pgdir va : Z) (p : list Z) (len : Z) : M vm Z :=
  copyout_loop pgdir va p len (Z.to_nat len).

End vm.
