(* ===== verification/VmInv.v ===== *)
(** * Address spaces own their pages ([vm.c])

    Every page the allocator manages is free, held by the code that is
    running, or part of exactly one address space: its directory, one of its
    page tables or one of its user pages.  The first parts are the arithmetic of
    addresses and entries, and words inside pages. *)

From stdpp Require Import base numbers list gmap sets strings.
From S2P Require Import Prelude Kalloc Fs FsInode Vm.

Open Scope Z_scope.

(** ** Addresses *)
Lemma mask_page x : 0 ≤ x < 2 ^ 32 → Z.land x (u32 (Z.lnot 4095)) = x / 4096 * 4096.
Proof.
  intros Hx. change (u32 (Z.lnot 4095)) with (Z.land (Z.lnot (Z.ones 12)) (Z.ones 32)).
  rewrite Z.land_assoc, Z.land_ones by lia. rewrite <-Z.ldiff_land, Z.ldiff_ones_r by lia.
  rewrite Z.shiftl_mul_pow2, Z.shiftr_div_pow2 by lia. change (2 ^ 12) with 4096.
  apply Z.mod_small. Z.div_mod_to_equations; lia.
Qed.

Lemma PGROUNDDOWN_eq x : 0 ≤ x < 2 ^ 32 → PGROUNDDOWN x = x / 4096 * 4096.
Proof. apply mask_page. Qed.

Lemma PTE_ADDR_eq x : 0 ≤ x < 2 ^ 32 → PTE_ADDR x = x / 4096 * 4096.
Proof. apply mask_page. Qed.

Lemma PTE_FLAGS_eq x : PTE_FLAGS x = x mod 4096.
Proof. unfold PTE_FLAGS. change 4095 with (Z.ones 12). by rewrite Z.land_ones. Qed.

Lemma PDX_eq va : 0 ≤ va < 2 ^ 32 → PDX va = va / 4096 / 1024.
Proof.
  intros H. unfold PDX. change 1023 with (Z.ones 10). rewrite Z.land_ones, Z.shiftr_div_pow2 by lia.
  change (2 ^ 22) with (4096 * 1024). rewrite <- Z.div_div by lia. apply Z.mod_small. Z.div_mod_to_equations; lia.
Qed.

Lemma PTX_eq va : PTX va = va / 4096 mod 1024.
Proof. unfold PTX. change 1023 with (Z.ones 10). by rewrite Z.land_ones, Z.shiftr_div_pow2 by lia. Qed.

Lemma lor_aligned a f : a mod 4096 = 0 → 0 ≤ f < 4096 → Z.lor a f = a + f.
Proof.
  intros Ha Hf. rewrite <- Z.lxor_lor, Z.add_nocarry_lxor; [done|..];
    apply Z.bits_inj'; intros k Hk; rewrite Z.land_spec, Z.bits_0;
    (destruct (decide (k < 12));
      [replace a with (a / 4096 * 2 ^ 12) by (change (2 ^ 12) with 4096; Z.div_mod_to_equations; lia);
       by rewrite Z.mul_pow2_bits_low
      |replace f with (f mod 2 ^ 12) by (apply Z.mod_small; lia);
       rewrite Z.mod_pow2_bits_high by lia; apply andb_false_r]).
Qed.

(** Entries: an address and flags. *)
Definition present (x : Z) : bool := negb (Z.land x PTE_P =? 0).

Lemma present_odd x : present x = Z.odd x.
Proof.
  unfold present, PTE_P. change 1 with (Z.ones 1). rewrite Z.land_ones by lia. change (2 ^ 1) with 2.
  rewrite Zmod_odd. by destruct (Z.odd x).
Qed.

Definition entry (pa f : Z) : Z := pa + f.

Lemma entry_fields pa f : pa mod 4096 = 0 → 0 ≤ f < 4096 → 0 ≤ pa → pa + f < 2 ^ 32 →
  PTE_ADDR (entry pa f) = pa ∧ PTE_FLAGS (entry pa f) = f ∧ present (entry pa f) = Z.odd f.
Proof.
  intros Ha Hf Hpa Hlt. unfold entry. rewrite PTE_ADDR_eq, PTE_FLAGS_eq, present_odd by lia. split_and!.
  - Z.div_mod_to_equations; lia.
  - Z.div_mod_to_equations; lia.
  - rewrite Z.odd_add. replace pa with (2 * (pa / 4096 * 2048)) by (Z.div_mod_to_equations; lia).
    by rewrite Z.odd_mul.
Qed.

Lemma P2V_V2P kend v : page_ok kend v → P2V (V2P v) = v ∧ V2P v mod 4096 = 0 ∧ 0 < V2P v < PHYSTOP.
Proof.
  unfold page_ok, P2V, V2P, PGSIZE, KERNBASE, PHYSTOP. intros (Ha & _ & Hlo & Hhi).
  rewrite (u32_small (v - _)) by lia. rewrite u32_small by lia. split; [lia|].
  split; [|lia]. Z.div_mod_to_equations; lia.
Qed.

(** ** Words in pages *)
Definition page_data (d : list Z) : Prop := length d = 4096%nat ∧ Forall (λ b, 0 ≤ b < 256) d.

Definition word (d : list Z) (i : Z) : Z := match get32 d (4 * i) with Ret x => x | _ => 0 end.
Definition set_word_data (d : list Z) (i v : Z) : list Z := splice d (Z.to_nat (4 * i)) (le32 v).

Lemma get32_range d o x : Forall (λ b, 0 ≤ b < 256) d → get32 d o = Ret x → 0 ≤ x < 2 ^ 32.
Proof.
  intros Hd E. unfold get32, get16 in E. inv_ret. simplify_eq.
  repeat match goal with H : arr_get _ _ = Ret _ |- _ =>
    apply arr_get_Ret in H as [_ H]; apply (proj1 (Forall_lookup _ _) Hd) in H; cbn beta in H end.
  lia.
Qed.

Lemma get32_in d o : 0 ≤ o → o + 4 ≤ Z.of_nat (length d) → ∃ x, get32 d o = Ret x.
Proof.
  intros H0 H4. unfold get32, get16.
  destruct (arr_get_in d o) as (a & -> & _); [lia|]. destruct (arr_get_in d (o + 1)) as (b & -> & _); [lia|].
  destruct (arr_get_in d (o + 2)) as (c & -> & _); [lia|]. destruct (arr_get_in d (o + 2 + 1)) as (e & -> & _); [lia|].
  by eexists.
Qed.

Lemma word_spec d i : page_data d → 0 ≤ i < 1024 → get32 d (4 * i) = Ret (word d i) ∧ 0 ≤ word d i < 2 ^ 32.
Proof.
  intros [Hl Hd] Hi. unfold word. destruct (get32_in d (4 * i)) as [x E]; [lia|lia|]. rewrite E.
  split; [done|]. by eapply get32_range.
Qed.

Lemma le32_bytes v : Forall (λ b, 0 ≤ b < 256) (le32 v).
Proof. unfold le32, le16. repeat constructor; apply u8_range. Qed.

Lemma set_word_data_spec d i v : page_data d → 0 ≤ i < 1024 →
  put32 d (4 * i) v = Ret (set_word_data d i v) ∧ page_data (set_word_data d i v).
Proof.
  intros [Hl Hd] Hi. unfold set_word_data. split.
  - replace (4 * i) with (Z.of_nat (Z.to_nat (4 * i))) at 1 by lia. apply put32_splice. lia.
  - split; [rewrite splice_length; [done|cbn; lia]|]. unfold splice.
    apply Forall_app_2; [by apply Forall_take|]. apply Forall_app_2; [apply le32_bytes|by apply Forall_drop].
Qed.

Lemma set_word_data_same d i v : page_data d → 0 ≤ i < 1024 → word (set_word_data d i v) i = u32 v.
Proof.
  intros [Hl Hd] Hi. unfold word, set_word_data.
  replace (4 * i) with (Z.of_nat (Z.to_nat (4 * i))) at 2 by lia.
  rewrite (get32_ext _ (le32 v ++ []) _ 0).
  - change (Z.of_nat 0) with 0. by rewrite get32_le32.
  - intros k Hk. rewrite splice_lookup by (cbn; lia). rewrite decide_True by (cbn; lia).
    rewrite app_nil_r. f_equal. lia.
Qed.

Lemma set_word_data_other d i j v : page_data d → 0 ≤ i < 1024 → 0 ≤ j < 1024 → i ≠ j →
  word (set_word_data d i v) j = word d j.
Proof.
  intros [Hl Hd] Hi Hj Hne. unfold word, set_word_data.
  replace (4 * j) with (Z.of_nat (Z.to_nat (4 * j))) by lia.
  rewrite (get32_ext _ d _ (Z.to_nat (4 * j))); [done|].
  intros k Hk. rewrite splice_lookup by (cbn; lia). rewrite decide_False by (cbn; lia). done.
Qed.

Lemma zero_page_data : page_data (replicate (Z.to_nat PGSIZE) 0).
Proof. split; [by rewrite length_replicate|]. apply Forall_replicate. lia. Qed.

Lemma zero_page_word i : 0 ≤ i < 1024 → word (replicate (Z.to_nat PGSIZE) 0) i = 0.
Proof.
  intros Hi. unfold word. replace (4 * i) with (Z.of_nat (Z.to_nat (4 * i))) by lia.
  rewrite (get32_ext _ [0; 0; 0; 0] _ 0); [done|]. intros k Hk. rewrite lookup_replicate_2.
  - by do 4 (destruct k as [|k]; [done|]); lia.
  - unfold PGSIZE. lia.
Qed.

(** ** Address spaces *)

(** The words of a page; the table of a directory entry; the entry of the
    [n]-th page of the address space, 0 when it has no table. *)
Definition W (s : vm) (p i : Z) : Z := match vpages s !! p with Some d => word d i | None => 0 end.
Definition tab (s : vm) (pg i : Z) : Z := P2V (PTE_ADDR (W s pg i)).
Definition pte (s : vm) (pg n : Z) : Z :=
  if present (W s pg (n / 1024)) then W s (tab s pg (n / 1024)) (n mod 1024) else 0.

(** User pages are those below [KERNBASE]. *)
Definition NUSER : Z := 524288.

(** The two index ranges, sealed so that they are never computed. *)
Definition dir_range_aux : seal (seqZ 0 1024).
Proof. by eexists. Qed.
Definition dir_range : list Z := unseal dir_range_aux.
Lemma dir_range_eq : dir_range = seqZ 0 1024.
Proof. apply seal_eq. Qed.
Lemma dir_range_spec : NoDup dir_range ∧ ∀ i, i ∈ dir_range ↔ 0 ≤ i < 1024.
Proof.
  unfold dir_range. rewrite (seal_eq dir_range_aux). split; [apply NoDup_seqZ|]. intros i. rewrite elem_of_seqZ. lia.
Qed.

Definition user_range_aux : seal (seqZ 0 NUSER).
Proof. by eexists. Qed.
Definition user_range : list Z := unseal user_range_aux.
Lemma user_range_eq : user_range = seqZ 0 NUSER.
Proof. apply seal_eq. Qed.
Lemma user_range_spec : NoDup user_range ∧ ∀ n, n ∈ user_range ↔ 0 ≤ n < NUSER.
Proof.
  unfold user_range. rewrite (seal_eq user_range_aux). split; [apply NoDup_seqZ|]. intros n. rewrite elem_of_seqZ. lia.
Qed.

Definition target (x : Z) : option Z := if present x then Some (P2V (PTE_ADDR x)) else None.
Definition tables (s : vm) (pg : Z) : list Z := omap (λ i, target (W s pg i)) dir_range.
Definition upages (s : vm) (pg : Z) : list Z := omap (λ n, target (pte s pg n)) user_range.
Definition owned (s : vm) (pg : Z) : list Z := pg :: tables s pg ++ upages s pg.

Lemma elem_of_tables s pg i : 0 ≤ i < 1024 → present (W s pg i) = true → tab s pg i ∈ tables s pg.
Proof.
  intros Hi Hp. apply list_elem_of_omap. exists i. split; [by apply dir_range_spec|].
  unfold target. by rewrite Hp.
Qed.

Lemma tables_owned s pg p : p ∈ tables s pg → p ∈ owned s pg.
Proof. intros Hp. apply elem_of_cons. right. apply elem_of_app. by left. Qed.

Lemma upages_owned s pg p : p ∈ upages s pg → p ∈ owned s pg.
Proof. intros Hp. apply elem_of_cons. right. apply elem_of_app. by right. Qed.

Lemma dir_owned s pg : pg ∈ owned s pg.
Proof. apply elem_of_cons. by left. Qed.

Lemma elem_of_upages s pg n : 0 ≤ n < NUSER → present (pte s pg n) = true →
  P2V (PTE_ADDR (pte s pg n)) ∈ upages s pg.
Proof.
  intros Hi Hp. apply list_elem_of_omap. exists n. split; [by apply user_range_spec|].
  unfold target. by rewrite Hp.
Qed.

(** Two states show the same directory. *)
Definition same_view (s s' : vm) (pg : Z) : Prop :=
  (∀ i, 0 ≤ i < 1024 → W s' pg i = W s pg i) ∧ (∀ n, 0 ≤ n < 1048576 → pte s' pg n = pte s pg n).

Lemma omap_ext_in {A B} (f g : A → option B) (l : list A) : (∀ x, x ∈ l → f x = g x) → omap f l = omap g l.
Proof.
  induction l as [|x l IH]; intros H; [done|]. cbn.
  rewrite (H x) by set_solver. rewrite IH by set_solver. done.
Qed.

Lemma tables_view s s' pg : (∀ i, 0 ≤ i < 1024 → W s' pg i = W s pg i) → tables s' pg = tables s pg.
Proof. intros H. apply omap_ext_in. intros i Hi%dir_range_spec. by rewrite H. Qed.

Lemma upages_view s s' pg : (∀ n, 0 ≤ n < 1048576 → pte s' pg n = pte s pg n) → upages s' pg = upages s pg.
Proof. intros H. apply omap_ext_in. intros n Hn%user_range_spec. unfold NUSER in Hn. by rewrite H by lia. Qed.

Lemma owned_view s s' pg : same_view s s' pg → owned s' pg = owned s pg.
Proof. intros [H1 H2]. unfold owned. by rewrite (tables_view s s'), (upages_view s s'). Qed.

(** A directory is seen through its own page and its tables only. *)
Lemma view_frame s s' pg : (∀ p, p ∈ pg :: tables s pg → vpages s' !! p = vpages s !! p) → same_view s s' pg.
Proof.
  intros H. assert (∀ i, 0 ≤ i < 1024 → W s' pg i = W s pg i) as HW.
  { intros i Hi. unfold W. by rewrite H by set_solver. }
  split; [done|]. intros n Hn. unfold pte, tab.
  assert (0 ≤ n / 1024 < 1024) by (Z.div_mod_to_equations; lia).
  rewrite HW by done. destruct (present (W s pg (n / 1024))) eqn:Hp; [|done].
  unfold W at 1 3. rewrite H; [done|]. apply elem_of_cons. right. by apply elem_of_tables.
Qed.

(** Changing one element of a partial image. *)
Lemma omap_change {A B} `{EqDecision A} (f g : A → option B) (l : list A) k : NoDup l → k ∈ l → (∀ x, x ∈ l → x ≠ k → g x = f x) →
  option_list (f k) ++ omap g l ≡ₚ option_list (g k) ++ omap f l.
Proof.
  induction l as [|x l IH]; intros Hnd Hk H; [by apply elem_of_nil in Hk|].
  apply NoDup_cons in Hnd as [Hx Hnd]. destruct (decide (x = k)) as [->|Hne].
  - assert (omap g l = omap f l) as E.
    { apply omap_ext_in. intros y Hy. apply H; [set_solver|]. by intros ->. }
    cbn. rewrite E. destruct (f k), (g k); cbn; by rewrite 1?Permutation_swap.
  - specialize (IH Hnd ltac:(set_solver) ltac:(intros; apply H; set_solver)).
    cbn. rewrite (H x) by set_solver. destruct (f x) as [y|]; [|done].
    rewrite <- !Permutation_middle. by rewrite IH.
Qed.

(** ** The invariant *)
Section ownership.
Context (kend : Z).

(** A fresh page is a page of bytes. *)
Definition junk_ok (junk : Z → list Z) : Prop := ∀ p, page_data (junk p).

(** The pages [tot] of the allocator: free, held, or of the spaces [ds]. *)
Record vinv (s : vm) (held ds tot : list Z) : Prop := {
  vi_perm : vfree s ++ held ++ concat (owned s <$> ds) ≡ₚ tot;
  vi_nodup : NoDup tot;
  vi_ok p : p ∈ tot → page_ok kend p;
  vi_free p : p ∈ vfree s → vpages s !! p = None;
  vi_data p : p ∈ held ++ concat (owned s <$> ds) → ∃ d, vpages s !! p = Some d ∧ page_data d
}.

Lemma vinv_ds s held ds ds' tot : ds ≡ₚ ds' → vinv s held ds tot → vinv s held ds' tot.
Proof.
  intros Hp [H1 H2 H3 H4 H5].
  assert (concat (owned s <$> ds) ≡ₚ concat (owned s <$> ds')) as E.
  { clear -Hp. induction Hp; cbn [fmap list_fmap concat]; [done|by rewrite IHHp|by rewrite !app_assoc, (Permutation_app_comm (owned s x))|by etrans]. }
  split; try done; [by rewrite <- E|]. intros p Hin. apply H5. by rewrite E.
Qed.

Lemma vinv_held s held held' ds tot : held ≡ₚ held' → vinv s held ds tot → vinv s held' ds tot.
Proof.
  intros Hp [H1 H2 H3 H4 H5]. split; try done; [by rewrite <- Hp|]. intros p Hin. apply H5. by rewrite Hp.
Qed.

(** The other side of the books: a directory with what it owns. *)
Lemma vinv_release s held d ds tot : vinv s held (d :: ds) tot → vinv s (owned s d ++ held) ds tot.
Proof.
  intros [H1 H2 H3 H4 H5]. cbn [fmap list_fmap concat] in *. split; try done.
  - rewrite <- H1. rewrite (Permutation_app_comm (owned s d) held). by rewrite <- app_assoc.
  - intros p Hp. apply H5. set_solver.
Qed.

Lemma vinv_nodup s held ds tot : vinv s held ds tot → NoDup (vfree s ++ held ++ concat (owned s <$> ds)).
Proof. intros [H1 H2 _ _ _]. by rewrite H1. Qed.

Lemma vinv_page_ok s held ds tot p : vinv s held ds tot → p ∈ vfree s ++ held ++ concat (owned s <$> ds) → page_ok kend p.
Proof. intros [H1 _ H3 _ _] Hp. apply H3. by rewrite <- H1. Qed.

Lemma page_ok_nz p : page_ok kend p → p ≠ 0.
Proof. unfold page_ok, KERNBASE. lia. Qed.

Lemma owned_concat s ds d p : d ∈ ds → p ∈ owned s d → p ∈ concat (owned s <$> ds).
Proof.
  intros Hd Hp. apply list_elem_of_In, in_concat. exists (owned s d). rewrite <- !list_elem_of_In.
  split; [|done]. apply list_elem_of_fmap. eauto.
Qed.

(** Outside the pages of its spaces the state may change. *)
Lemma concat_owned_frame s s' ds : (∀ p, p ∈ concat (owned s <$> ds) → vpages s' !! p = vpages s !! p) →
  (∀ d, d ∈ ds → same_view s s' d) ∧ concat (owned s' <$> ds) = concat (owned s <$> ds).
Proof.
  intros H. assert (∀ d, d ∈ ds → same_view s s' d) as Hv.
  { intros d Hd. apply view_frame. intros p Hp. apply H. eapply owned_concat; [done|].
    apply elem_of_cons in Hp as [->|Hp]; [apply dir_owned|by apply tables_owned]. }
  split; [done|]. f_equal. apply list_fmap_ext. intros i d Hd%list_elem_of_lookup_2. by apply owned_view, Hv.
Qed.

(** The rest of the state, as the code that works on [d] leaves it: what is
    held, the user pages of [d] and the other spaces keep their contents. *)
Definition kept (s s' : vm) (held : list Z) (d : Z) (ds : list Z) : Prop :=
  ∀ p, p ∈ held ++ upages s d ++ concat (owned s <$> ds) → vpages s' !! p = vpages s !! p.

Lemma vinv_disjoint s held ds tot p : vinv s held ds tot → p ∈ vfree s → p ∉ held ++ concat (owned s <$> ds).
Proof. intros H%vinv_nodup Hf. apply NoDup_app in H as (_ & H & _). by apply H. Qed.

Lemma vm_kalloc_spec junk s held ds tot : junk_ok junk → vinv s held ds tot →
  (vfree s = [] ∧ kalloc junk s = Ret (0, s)) ∨
  ∃ v s', v ≠ 0 ∧ kalloc junk s = Ret (v, s') ∧ vinv s' (v :: held) ds tot ∧ vfree s = v :: vfree s' ∧
    (∀ p, p ≠ v → vpages s' !! p = vpages s !! p) ∧ v ∉ held ++ concat (owned s <$> ds).
Proof.
  intros Hjunk Hv. unfold kalloc. destruct (vfree s) as [|v l] eqn:Hf; [by left|]. right.
  assert (v ∉ held ++ concat (owned s <$> ds)) as Hnot by (eapply vinv_disjoint; [done|]; rewrite Hf; set_solver).
  eexists v, _. assert (v ≠ 0) as Hnz.
  { eapply page_ok_nz, vinv_page_ok; [done|]. rewrite Hf. set_solver. }
  split; [done|]. split; [done|].
  assert (∀ p, p ≠ v → (<[v := junk v]> (vpages s)) !! p = vpages s !! p) as Hfr by (intros; by rewrite lookup_insert_ne by congruence).
  split; [|by rewrite ?Hf]. pose proof (vinv_nodup _ _ _ _ Hv) as Hnd.
  destruct Hv as [H1 H2 H3 H4 H5].
  destruct (concat_owned_frame s (Vm (<[v := junk v]> (vpages s)) l) ds) as [_ E]; [cbn; intros p Hp; apply Hfr; set_solver|].
  rewrite Hf in *. split; cbn [vfree vpages]; rewrite ?E; try done.
  - rewrite <- H1. cbn [app]. symmetry. apply Permutation_middle.
  - intros p Hp. rewrite Hfr; [apply H4; set_solver|]. intros ->. cbn in Hnd. apply NoDup_cons in Hnd as [Hnd _]. set_solver.
  - intros p Hp. destruct (decide (p = v)) as [->|Hne]; [rewrite lookup_insert_eq; eauto|].
    rewrite Hfr by done. apply H5. set_solver.
Qed.

Lemma vm_kfree_spec s v held ds tot : vinv s (v :: held) ds tot →
  kfree kend v s = Ret (tt, Vm (delete v (vpages s)) (v :: vfree s)) ∧
  vinv (Vm (delete v (vpages s)) (v :: vfree s)) held ds tot.
Proof.
  intros Hv. assert (page_ok kend v) as Hok by (eapply vinv_page_ok; [done|set_solver]).
  pose proof (vinv_nodup _ _ _ _ Hv) as Hnd. pose proof Hv as [H1 H2 H3 H4 H5].
  destruct (H5 v) as (d & Hd & _); [set_solver|]. split.
  - pose proof (page_range kend v Hok) as (_ & _ & Hp). destruct Hok as (Ha & Hk & _). unfold kfree.
    rewrite Ha. cbn [negb Z.eqb orb]. case_if as E; [apply orb_true_iff in E as [?|?]; bool_to_prop; lia|].
    by rewrite Hd.
  - assert (∀ p, p ≠ v → (delete v (vpages s)) !! p = vpages s !! p) as Hfr by (intros; by rewrite lookup_delete_ne by congruence).
    apply NoDup_app in Hnd as (Hnd1 & Hnd2 & Hnd3). cbn in Hnd3. apply NoDup_cons in Hnd3 as [Hnot _].
    destruct (concat_owned_frame s (Vm (delete v (vpages s)) (v :: vfree s)) ds) as [_ E].
    { cbn. intros p Hp. apply Hfr. set_solver. }
    split; cbn [vfree vpages]; rewrite ?E; try done.
    + rewrite <- H1. cbn [app]. apply Permutation_middle.
    + intros p [->|Hp]%elem_of_cons; [by rewrite lookup_delete_eq|].
      destruct (decide (p = v)) as [->|]; [by rewrite lookup_delete_eq|]. rewrite Hfr by done. by apply H4.
    + intros p Hp. rewrite Hfr by (intros ->; set_solver). apply H5. set_solver.
Qed.

Lemma set_page_held s v x held ds tot : vinv s (v :: held) ds tot → page_data x →
  set_page v x s = Ret (tt, Vm (<[v := x]> (vpages s)) (vfree s)) ∧
  vinv (Vm (<[v := x]> (vpages s)) (vfree s)) (v :: held) ds tot.
Proof.
  intros Hv Hx. pose proof (vinv_nodup _ _ _ _ Hv) as Hnd. pose proof Hv as [H1 H2 H3 H4 H5].
  destruct (H5 v) as (d & Hd & _); [set_solver|]. unfold set_page. rewrite Hd. split; [done|].
  assert (∀ p, p ≠ v → (<[v := x]> (vpages s)) !! p = vpages s !! p) as Hfr by (intros; by rewrite lookup_insert_ne by congruence).
  apply NoDup_app in Hnd as (Hnd1 & Hnd2 & Hnd3). cbn in Hnd3. apply NoDup_cons in Hnd3 as [Hnot _].
  destruct (concat_owned_frame s (Vm (<[v := x]> (vpages s)) (vfree s)) ds) as [_ E].
  { cbn. intros p Hp. apply Hfr. set_solver. }
  split; cbn [vfree vpages]; rewrite ?E; try done.
  - intros p Hp. rewrite Hfr by (intros ->; set_solver). by apply H4.
  - intros p Hp. destruct (decide (p = v)) as [->|]; [rewrite lookup_insert_eq; eauto|].
    rewrite Hfr by done. by apply H5.
Qed.

(** ** Words of owned pages *)
Definition has_data (s : vm) (p : Z) : Prop := ∃ d, vpages s !! p = Some d ∧ page_data d.

(** The state after a store of a word. *)
Definition setw (s : vm) (p i v : Z) : vm :=
  match vpages s !! p with
  | Some d => Vm (<[p := set_word_data d i v]> (vpages s)) (vfree s)
  | None => s
  end.

Lemma get_word_run s p i : has_data s p → 0 ≤ i < 1024 → get_word p i s = Ret (W s p i, s) ∧ 0 ≤ W s p i < 2 ^ 32.
Proof.
  intros (d & Hd & Hp) Hi. unfold get_word, W. destruct (word_spec d i Hp Hi) as [E Hr].
  unfold mbind, M_bind, page, lift. rewrite Hd. cbn. by rewrite E.
Qed.

Lemma set_word_run s p i v : has_data s p → 0 ≤ i < 1024 → set_word p i v s = Ret (tt, setw s p i v).
Proof.
  intros (d & Hd & Hp) Hi. destruct (set_word_data_spec d i v Hp Hi) as [E _].
  unfold set_word, setw, mbind, M_bind, page, lift, set_page. rewrite Hd. cbn. rewrite E. cbn. by rewrite Hd.
Qed.

Lemma setw_frame s p i v q : q ≠ p → vpages (setw s p i v) !! q = vpages s !! q.
Proof. intros Hne. unfold setw. destruct (vpages s !! p); [|done]. cbn. by rewrite lookup_insert_ne. Qed.

Lemma setw_free s p i v : vfree (setw s p i v) = vfree s.
Proof. unfold setw. by destruct (vpages s !! p). Qed.

Lemma setw_data s p i v q : has_data s p → 0 ≤ i < 1024 → has_data s q → has_data (setw s p i v) q.
Proof.
  intros (d & Hd & Hp) Hi Hq. destruct (decide (q = p)) as [->|Hne].
  - exists (set_word_data d i v). unfold setw. rewrite Hd. cbn. rewrite lookup_insert_eq.
    split; [done|]. by apply set_word_data_spec.
  - unfold has_data. by rewrite setw_frame.
Qed.

Lemma setw_W s p i v q j : has_data s p → 0 ≤ i < 1024 → 0 ≤ j < 1024 →
  W (setw s p i v) q j = if decide (q = p ∧ j = i) then u32 v else W s q j.
Proof.
  intros (d & Hd & Hp) Hi Hj. unfold W. destruct (decide (q = p)) as [->|Hne].
  - unfold setw. rewrite Hd. cbn. rewrite lookup_insert_eq. case_decide as Hc.
    + destruct Hc as [_ ->]. by apply set_word_data_same.
    + apply set_word_data_other; try done. intros ->. by apply Hc.
  - rewrite setw_frame by done. rewrite decide_False by tauto. done.
Qed.

(** ** What an owned directory looks like *)
Lemma omap_inj {A B} `{EqDecision A} (f : A → option B) (l : list A) x y b : NoDup (omap f l) →
  x ∈ l → y ∈ l → f x = Some b → f y = Some b → x = y.
Proof.
  induction l as [|z l IH]; intros Hnd Hx Hy Ex Ey; [by apply elem_of_nil in Hx|].
  destruct (decide (x = y)) as [|Hxy]; [done|exfalso]. cbn in Hnd.
  apply elem_of_cons in Hx as [->|Hx], Hy as [<-|Hy]; [done|..].
  - rewrite Ex in Hnd. apply NoDup_cons in Hnd as [Hn _]. apply Hn, list_elem_of_omap. eauto.
  - rewrite Ey in Hnd. apply NoDup_cons in Hnd as [Hn _]. apply Hn, list_elem_of_omap. eauto.
  - apply Hxy, IH; try done. destruct (f z); [by apply NoDup_cons in Hnd as [_ ?]|done].
Qed.

Record dir_facts (s : vm) (held : list Z) (d : Z) (ds : list Z) : Prop := {
  df_data p : p ∈ owned s d → has_data s p;
  df_ok p : p ∈ owned s d → page_ok kend p;
  df_dir : d ∉ tables s d;
  df_apart p : p ∈ d :: tables s d → p ∉ vfree s ++ held ++ upages s d ++ concat (owned s <$> ds);
  df_inj i j : 0 ≤ i < 1024 → 0 ≤ j < 1024 → present (W s d i) = true → present (W s d j) = true →
    tab s d i = tab s d j → i = j
}.

Lemma dir_facts_of s held d ds tot : vinv s held (d :: ds) tot → dir_facts s held d ds.
Proof.
  intros Hv. pose proof (vinv_nodup _ _ _ _ Hv) as Hnd. cbn [fmap list_fmap concat] in Hnd.
  assert (NoDup ((d :: tables s d) ++ vfree s ++ held ++ upages s d ++ concat (owned s <$> ds))) as Hnd'.
  { assert (∀ a f h r : list Z, a ++ f ++ h ++ r ≡ₚ f ++ h ++ a ++ r) as E.
    { intros a f h r. rewrite (app_assoc f h r), (app_assoc f h (a ++ r)). apply Permutation_app_swap_app. }
    rewrite E. unfold owned at 1 in Hnd. cbn [app] in *. by rewrite <- app_assoc in Hnd. }
  apply NoDup_app in Hnd' as (Hd1 & Hd2 & Hd3). apply NoDup_cons in Hd1 as [Hd0 Hdt]. split.
  - intros p Hp. apply (vi_data _ _ _ _ Hv). cbn [fmap list_fmap concat]. set_solver.
  - intros p Hp. eapply vinv_page_ok; [done|]. cbn [fmap list_fmap concat]. set_solver.
  - done.
  - done.
  - intros i j Hi Hj Hpi Hpj Ht. eapply (omap_inj (λ i, target (W s d i)) dir_range); [done|by apply dir_range_spec..| |].
    + unfold target. by rewrite Hpi.
    + unfold target. rewrite Hpj. by f_equal.
Qed.

Lemma df_user s held d ds p : dir_facts s held d ds → p ∈ upages s d → p ∉ d :: tables s d.
Proof. intros Hf Hu Ht. apply (df_apart _ _ _ _ Hf p Ht). set_solver. Qed.

Lemma walk_present junk s held d ds tot va alloc : vinv s held ds tot → d ∈ ds → 0 ≤ va < 2 ^ 32 →
  present (W s d (va / 4096 / 1024)) = true →
  walkpgdir junk d va alloc s = Ret (Some (tab s d (va / 4096 / 1024), va / 4096 mod 1024), s).
Proof.
  intros Hv Hd Hva Hp. assert (has_data s d) as Hdata.
  { apply (vi_data _ _ _ _ Hv). apply elem_of_app. right. eapply owned_concat; [done|apply dir_owned]. }
  unfold walkpgdir. rewrite PDX_eq, PTX_eq by done.
  destruct (get_word_run s d (va / 4096 / 1024) Hdata) as [E _]; [Z.div_mod_to_equations; lia|].
  erewrite M_bind_run by exact E. unfold present in Hp. by rewrite Hp.
Qed.

Lemma walk_absent junk s held d ds tot va : vinv s held ds tot → d ∈ ds → 0 ≤ va < 2 ^ 32 →
  present (W s d (va / 4096 / 1024)) = false → walkpgdir junk d va false s = Ret (None, s).
Proof.
  intros Hv Hd Hva Hp. assert (has_data s d) as Hdata.
  { apply (vi_data _ _ _ _ Hv). apply elem_of_app. right. eapply owned_concat; [done|apply dir_owned]. }
  unfold walkpgdir. rewrite PDX_eq by done.
  destruct (get_word_run s d (va / 4096 / 1024) Hdata) as [E _]; [Z.div_mod_to_equations; lia|].
  erewrite M_bind_run by exact E. unfold present in Hp. by rewrite Hp.
Qed.

(** ** Storing an entry of a page table *)
Lemma page_index n : 0 ≤ n < 1048576 → 0 ≤ n / 1024 < 1024 ∧ 0 ≤ n mod 1024 < 1024 ∧ n = n / 1024 * 1024 + n mod 1024.
Proof. intros. Z.div_mod_to_equations. lia. Qed.

Lemma pte_set_view s held d ds n x : dir_facts s held d ds → 0 ≤ n < 1048576 → 0 ≤ x < 2 ^ 32 →
  present (W s d (n / 1024)) = true →
  let s' := setw s (tab s d (n / 1024)) (n mod 1024) x in
  (∀ i, 0 ≤ i < 1024 → W s' d i = W s d i) ∧
  (∀ m, 0 ≤ m < 1048576 → pte s' d m = if decide (m = n) then x else pte s d m) ∧
  kept s s' held d ds.
Proof.
  intros Hf Hn Hx Hp s'. destruct (page_index n Hn) as (Hi & Hj & En).
  assert (tab s d (n / 1024) ∈ tables s d) as Ht by by apply elem_of_tables.
  assert (has_data s (tab s d (n / 1024))) as Hdata by by apply (df_data _ _ _ _ Hf), tables_owned.
  assert (d ≠ tab s d (n / 1024)) as Hne by (intros E; apply (df_dir _ _ _ _ Hf); by rewrite E at 1).
  assert (∀ i, 0 ≤ i < 1024 → W s' d i = W s d i) as HW.
  { intros i Hi'. subst s'. rewrite setw_W by done. by rewrite decide_False by tauto. }
  split_and!; [done| |].
  - intros m Hm. destruct (page_index m Hm) as (Hi' & Hj' & Em). unfold pte, tab at 1. rewrite HW by done. fold (tab s d (m / 1024)).
    destruct (present (W s d (m / 1024))) eqn:Hpm.
    + subst s'. rewrite setw_W by done. case_decide as Hc.
      * destruct Hc as [Hc1 Hc2]. rewrite decide_True; [by apply u32_small|].
        apply (df_inj _ _ _ _ Hf) in Hc1; [|done..]. lia.
      * rewrite decide_False; [done|]. intros ->. by apply Hc.
    + rewrite decide_False; [done|]. intros ->. by rewrite Hp in Hpm.
  - intros p Hin. apply setw_frame. intros ->. apply (df_apart _ _ _ _ Hf (tab s d (n / 1024))); [set_solver|].
    apply elem_of_app. by right.
Qed.

Lemma upages_set s s' d n x : 0 ≤ n < 1048576 →
  (∀ m, 0 ≤ m < 1048576 → pte s' d m = if decide (m = n) then x else pte s d m) →
  if decide (n < NUSER) then option_list (target (pte s d n)) ++ upages s' d ≡ₚ option_list (target x) ++ upages s d
  else upages s' d = upages s d.
Proof.
  intros Hn H. case_decide as Hlt.
  - rewrite (omap_change (λ n, target (pte s d n)) (λ n, target (pte s' d n)) user_range n).
    + rewrite H, decide_True by done. done.
    + apply user_range_spec.
    + apply user_range_spec. lia.
    + intros m Hm%user_range_spec Hne. unfold NUSER in *. by rewrite H, decide_False by (lia || done).
  - apply omap_ext_in. intros m Hm%user_range_spec. unfold NUSER in *. by rewrite H, decide_False by lia.
Qed.

(** What an entry gives up and what it takes. *)
Definition moved (n old new : Z) (held held' : list Z) : Prop :=
  if decide (n < NUSER) then option_list (target new) ++ held' ≡ₚ option_list (target old) ++ held else held' = held.

Lemma pte_set_vinv s held held' d ds tot n x : vinv s held (d :: ds) tot → 0 ≤ n < 1048576 → 0 ≤ x < 2 ^ 32 →
  present (W s d (n / 1024)) = true → moved n (pte s d n) x held held' →
  vinv (setw s (tab s d (n / 1024)) (n mod 1024) x) held' (d :: ds) tot.
Proof.
  intros Hv Hn Hx Hp Hmv. pose proof (dir_facts_of _ _ _ _ _ Hv) as Hf.
  destruct (pte_set_view s held d ds n x Hf Hn Hx Hp) as (HW & Hpte & Hkept).
  set (s' := setw _ _ _ _) in *. destruct (page_index n Hn) as (Hi & Hj & _).
  assert (has_data s (tab s d (n / 1024))) as Hdata.
  { by apply (df_data _ _ _ _ Hf), tables_owned, elem_of_tables. }
  destruct (concat_owned_frame s s' ds) as [_ E]; [intros p Hin; apply Hkept; set_solver|].
  assert (held' ++ upages s' d ≡ₚ held ++ upages s d) as Hperm.
  { pose proof (upages_set s s' d n x Hn Hpte) as Hup. unfold moved in Hmv. case_decide; [|by rewrite Hmv, Hup].
    apply (Permutation_app_inv_l (option_list (target x) ++ option_list (target (pte s d n)))).
    transitivity ((option_list (target x) ++ held') ++ option_list (target (pte s d n)) ++ upages s' d);
      [by solve_Permutation|]. rewrite Hmv, Hup. by solve_Permutation. }
  assert (held' ++ concat (owned s' <$> d :: ds) ≡ₚ held ++ concat (owned s <$> d :: ds)) as Hall.
  { cbn [fmap list_fmap concat]. rewrite E. unfold owned at 1 3. rewrite (tables_view s s') by done.
    transitivity ((held' ++ upages s' d) ++ d :: tables s d ++ concat (owned s <$> ds)); [by solve_Permutation|].
    rewrite Hperm. by solve_Permutation. }
  destruct Hv as [H1 H2 H3 H4 H5]. subst s'. split; rewrite ?setw_free; try done.
  - by rewrite Hall.
  - intros p Hfree. rewrite setw_frame; [by apply H4|]. intros ->.
    apply (df_apart _ _ _ _ Hf (tab s d (n / 1024))); [|set_solver].
    apply elem_of_cons. right. by apply elem_of_tables.
  - intros p Hin. rewrite Hall in Hin. apply setw_data; try done. by apply H5.
Qed.

Lemma kept_trans s s1 s2 held d ds : (∀ n, 0 ≤ n < 1048576 → pte s1 d n = pte s d n) →
  kept s s1 held d ds → kept s1 s2 held d ds → kept s s2 held d ds.
Proof.
  intros Hpte H1 H2 p Hin. rewrite H2; [by apply H1|].
  rewrite (upages_view s s1) by done. destruct (concat_owned_frame s s1 ds) as [_ ->]; [|done].
  intros q Hq. apply H1. set_solver.
Qed.

(** ** A new page table *)
Definition table_entry (v : Z) : Z := Z.lor (Z.lor (Z.lor (V2P v) PTE_P) PTE_W) PTE_U.

Lemma table_entry_spec v : page_ok kend v →
  0 ≤ table_entry v < 2 ^ 32 ∧ target (table_entry v) = Some v ∧ P2V (PTE_ADDR (table_entry v)) = v ∧
  present (table_entry v) = true.
Proof.
  intros Hok. destruct (P2V_V2P kend v Hok) as (E & Ha & Hr). unfold PHYSTOP in Hr.
  assert (table_entry v = entry (V2P v) 7) as ->.
  { unfold table_entry. rewrite <- !Z.lor_assoc. change (Z.lor PTE_P (Z.lor PTE_W PTE_U)) with 7. by apply lor_aligned. }
  destruct (entry_fields (V2P v) 7) as (E1 & _ & E3); [done|lia|lia|lia|].
  unfold target. rewrite E3, E1. cbn. unfold entry. split_and!; [lia|lia|by f_equal|done|done].
Qed.

Lemma dir_set_vinv s v held d ds tot i : vinv s (v :: held) (d :: ds) tot → 0 ≤ i < 1024 →
  present (W s d i) = false → (∀ j, 0 ≤ j < 1024 → W s v j = 0) →
  let s' := setw s d i (table_entry v) in
  vinv s' held (d :: ds) tot ∧ (∀ n, 0 ≤ n < 1048576 → pte s' d n = pte s d n) ∧
  tab s' d i = v ∧ present (W s' d i) = true ∧ kept s s' held d ds.
Proof.
  intros Hv Hi Hp Hz s'. pose proof (dir_facts_of _ _ _ _ _ Hv) as Hf.
  assert (page_ok kend v) as Hok by (eapply vinv_page_ok; [done|set_solver]).
  destruct (table_entry_spec v Hok) as (Hr & Htgt & Haddr & Hpres).
  assert (has_data s d) as Hdata by by apply (df_data _ _ _ _ Hf), dir_owned.
  assert (∀ p, p ∈ held ++ upages s d ++ concat (owned s <$> ds) → p ≠ d) as Hapart.
  { intros p Hin ->. apply (df_apart _ _ _ _ Hf d); set_solver. }
  assert (v ≠ d) as Hvd by (intros ->; apply (df_apart _ _ _ _ Hf d); set_solver).
  assert (∀ j, 0 ≤ j < 1024 → W s' d j = if decide (j = i) then table_entry v else W s d j) as HW.
  { intros j Hj. subst s'. rewrite setw_W by done. repeat case_decide; try tauto. by apply u32_small. }
  assert (tab s' d i = v) as Htab by (unfold tab; by rewrite HW, decide_True).
  assert (present (W s' d i) = true) as Hpi by by rewrite HW, decide_True.
  assert (∀ n, 0 ≤ n < 1048576 → pte s' d n = pte s d n) as Hpte.
  { intros n Hn. destruct (page_index n Hn) as (Hi' & Hj & _). unfold pte.
    destruct (decide (n / 1024 = i)) as [->|Hne].
    - rewrite Hpi, Hp, Htab. subst s'. rewrite setw_W by done. rewrite decide_False by tauto. by apply Hz.
    - unfold tab at 1. rewrite HW, decide_False by done. destruct (present (W s d (n / 1024))) eqn:Hpn; [|done].
      fold (tab s d (n / 1024)). subst s'. rewrite setw_W by done. rewrite decide_False; [done|].
      intros [Ed _]. apply (df_dir _ _ _ _ Hf). rewrite <- Ed at 1. by apply elem_of_tables. }
  assert (kept s s' held d ds) as Hkept by (intros p Hin; apply setw_frame; auto).
  split_and!; try done.
  destruct (concat_owned_frame s s' ds) as [_ E]; [intros p Hin; apply Hkept; set_solver|].
  assert (tables s' d ≡ₚ v :: tables s d) as Htabs.
  { pose proof (omap_change (λ i, target (W s d i)) (λ i, target (W s' d i)) dir_range i) as H.
    assert (target (W s d i) = None) as HN by (unfold target; by rewrite Hp).
    cbn beta in H. rewrite HN, (HW i), decide_True, Htgt in H by done. apply H.
    - apply dir_range_spec.
    - by apply dir_range_spec.
    - intros j Hj%dir_range_spec Hne. by rewrite HW, decide_False. }
  assert (held ++ concat (owned s' <$> d :: ds) ≡ₚ (v :: held) ++ concat (owned s <$> d :: ds)) as Hall.
  { cbn [fmap list_fmap concat]. rewrite E. unfold owned at 1 3. rewrite (upages_view s s') by done.
    rewrite Htabs. by solve_Permutation. }
  destruct Hv as [H1 H2 H3 H4 H5]. subst s'. split; rewrite ?setw_free; try done.
  - by rewrite Hall.
  - intros p Hfree. rewrite setw_frame; [by apply H4|]. intros ->. apply (df_apart _ _ _ _ Hf d); set_solver.
  - intros p Hin. rewrite Hall in Hin. apply setw_data; try done. by apply H5.
Qed.

(** [walkpgdir] with [alloc]: the entry, behind a new table if need be. *)
Lemma walk_alloc junk s held d ds tot va : junk_ok junk → vinv s held (d :: ds) tot → 0 ≤ va < 2 ^ 32 →
  (vfree s = [] ∧ walkpgdir junk d va true s = Ret (None, s)) ∨
  ∃ s', walkpgdir junk d va true s = Ret (Some (tab s' d (va / 4096 / 1024), va / 4096 mod 1024), s') ∧
    vinv s' held (d :: ds) tot ∧ present (W s' d (va / 4096 / 1024)) = true ∧
    (∀ n, 0 ≤ n < 1048576 → pte s' d n = pte s d n) ∧ kept s s' held d ds.
Proof.
  intros Hjunk Hv Hva. assert (0 ≤ va / 4096 / 1024 < 1024) as Hi by (Z.div_mod_to_equations; lia).
  destruct (present (W s d (va / 4096 / 1024))) eqn:Hp.
  { right. exists s. split; [eapply walk_present; [done|set_solver|done|done]|]. split_and!; try done. }
  pose proof (dir_facts_of _ _ _ _ _ Hv) as Hf.
  unfold walkpgdir. rewrite PDX_eq, PTX_eq by done.
  destruct (get_word_run s d (va / 4096 / 1024)) as [E _]; [by apply (df_data _ _ _ _ Hf), dir_owned|done|].
  erewrite M_bind_run by exact E. unfold present in Hp. rewrite Hp. cbn [negb].
  destruct (vm_kalloc_spec junk s held (d :: ds) tot Hjunk Hv) as [[Hfree Ek]|(v & s1 & Hnz & Ek & Hv1 & Hfree & Hfr & Hnot)].
  { left. split; [done|]. erewrite M_bind_run by exact Ek. done. }
  right. erewrite M_bind_run by exact Ek. apply Z.eqb_neq in Hnz. rewrite Hnz.
  unfold zero_page. generalize zero_page_data zero_page_word. generalize (replicate (Z.to_nat PGSIZE) 0).
  intros zp Hzp Hzw.
  destruct (set_page_held s1 v zp held (d :: ds) tot Hv1 Hzp) as [Ez Hv2].
  set (s2 := Vm _ _) in Ez, Hv2. erewrite M_bind_run by exact Ez.
  assert (kept s s2 held d ds) as Hkept.
  { intros p Hin. assert (p ≠ v) by (intros ->; apply Hnot; cbn [fmap list_fmap concat owned]; set_solver).
    subst s2. cbn. rewrite lookup_insert_ne by done. by apply Hfr. }
  assert (same_view s s2 d) as [HW2 Hpte2].
  { apply view_frame. intros p Hin. assert (p ≠ v) by (intros ->; apply Hnot; cbn [fmap list_fmap concat owned]; set_solver).
    subst s2. cbn. rewrite lookup_insert_ne by done. by apply Hfr. }
  destruct (dir_set_vinv s2 v held d ds tot (va / 4096 / 1024) Hv2 Hi) as (Hv3 & Hpte3 & Htab & Hpres & Hkept3).
  { unfold present. by rewrite HW2. }
  { intros j Hj. unfold W. subst s2. cbn. rewrite lookup_insert_eq. by apply Hzw. }
  erewrite M_bind_run.
  2: { apply set_word_run; [|done]. apply (df_data _ _ _ _ (dir_facts_of _ _ _ _ _ Hv2)), dir_owned. }
  eexists. rewrite Htab. split; [done|]. split_and!; try done.
  - intros n Hn. rewrite Hpte3 by done. by apply Hpte2.
  - by eapply kept_trans.
Qed.

(** ** Mapping *)
Definition map_word (pa perm : Z) : Z := Z.lor (Z.lor pa perm) PTE_P.

Lemma map_word_entry pa perm : pa mod 4096 = 0 → 0 ≤ perm < 4096 → 0 ≤ pa → pa + 4096 ≤ 2 ^ 32 →
  map_word pa perm = entry pa (Z.lor perm 1) ∧ 0 ≤ Z.lor perm 1 < 4096 ∧ Z.odd (Z.lor perm 1) = true.
Proof.
  intros Ha Hp H0 Hlt. assert (0 ≤ Z.lor perm 1 < 4096) as Hr.
  { split; [apply Z.lor_nonneg; lia|]. destruct (decide (perm = 0)) as [->|]; [done|].
    change 4096 with (2 ^ 12). apply Z.log2_lt_pow2.
    - assert (0 ≤ Z.lor perm 1) by (apply Z.lor_nonneg; lia). assert (Z.lor perm 1 ≠ 0) by (rewrite Z.lor_eq_0_iff; lia). lia.
    - rewrite Z.log2_lor by lia. apply Z.max_lub_lt; [|cbn; lia]. apply Z.log2_lt_pow2; [lia|]. lia. }
  split_and!; try done; try lia.
  - unfold map_word, PTE_P. rewrite <- Z.lor_assoc. by apply lor_aligned.
  - rewrite <- Z.bit0_odd, Z.lor_spec. apply orb_true_r.
Qed.

Lemma map_entry junk s held held' d ds tot va x : junk_ok junk → vinv s held (d :: ds) tot → 0 ≤ va < 2 ^ 32 →
  present (pte s d (va / 4096)) = false → 0 ≤ x < 2 ^ 32 → moved (va / 4096) (pte s d (va / 4096)) x held held' →
  (vfree s = [] ∧ walkpgdir junk d va true s = Ret (None, s)) ∨
  ∃ t i s1 y s', walkpgdir junk d va true s = Ret (Some (t, i), s1) ∧ get_word t i s1 = Ret (y, s1) ∧
    present y = false ∧ set_word t i x s1 = Ret (tt, s') ∧ vinv s' held' (d :: ds) tot ∧
    (∀ m, 0 ≤ m < 1048576 → pte s' d m = if decide (m = va / 4096) then x else pte s d m) ∧ kept s s' held d ds.
Proof.
  intros Hjunk Hv Hva Hp Hx Hmv.
  destruct (walk_alloc junk s held d ds tot va Hjunk Hv Hva) as [[Hf E]|(s1 & E & Hv1 & Hp1 & Hpte1 & Hk1)]; [by left|right].
  assert (0 ≤ va / 4096 < 1048576) as Hn by (Z.div_mod_to_equations; lia).
  destruct (page_index _ Hn) as (Hi & Hj & _). pose proof (dir_facts_of _ _ _ _ _ Hv1) as Hf1.
  assert (has_data s1 (tab s1 d (va / 4096 / 1024))) as Hdata by by apply (df_data _ _ _ _ Hf1), tables_owned, elem_of_tables.
  destruct (get_word_run s1 _ (va / 4096 mod 1024) Hdata Hj) as [Eg _].
  rewrite <- Hpte1 in Hp, Hmv by done.
  destruct (pte_set_view s1 held d ds (va / 4096) x Hf1 Hn Hx Hp1) as (_ & Hpte2 & Hk2).
  eexists _, _, s1, _, _. split; [exact E|]. split; [exact Eg|]. split.
  { unfold pte in Hp. by rewrite Hp1 in Hp. }
  split; [by apply set_word_run|]. split; [by eapply pte_set_vinv|]. split.
  - intros m Hm. rewrite Hpte2 by done. case_decide; [done|]. by apply Hpte1.
  - by eapply kept_trans.
Qed.

(** A fresh user page. *)
Lemma moved_in n v held x : target x = Some v → n < NUSER → ∀ old, present old = false → moved n old x (v :: held) held.
Proof.
  intros Ht Hn old Ho. unfold moved. rewrite decide_True by done. rewrite Ht. unfold target. by rewrite Ho.
Qed.

Lemma mappages_user junk s v held d ds tot n f : junk_ok junk → vinv s (v :: held) (d :: ds) tot → 0 ≤ n < NUSER →
  present (pte s d n) = false → 0 ≤ f < 4096 →
  (vfree s = [] ∧ mappages junk d (n * 4096) PGSIZE (V2P v) f s = Ret (-1, s)) ∨
  ∃ s', mappages junk d (n * 4096) PGSIZE (V2P v) f s = Ret (0, s') ∧ vinv s' held (d :: ds) tot ∧
    (∀ m, 0 ≤ m < 1048576 → pte s' d m = if decide (m = n) then entry (V2P v) (Z.lor f 1) else pte s d m) ∧
    kept s s' (v :: held) d ds.
Proof.
  intros Hjunk Hv Hn Hp Hf. unfold NUSER in Hn.
  assert (page_ok kend v) as Hok by (eapply vinv_page_ok; [done|set_solver]).
  destruct (P2V_V2P kend v Hok) as (E2 & Ha & Hr). unfold PHYSTOP in Hr.
  destruct (map_word_entry (V2P v) f Ha Hf) as (Ew & Hl & Ho); [lia|lia|].
  destruct (entry_fields (V2P v) (Z.lor f 1) Ha Hl) as (Ea & _ & Epr); [lia|lia|].
  assert (n * 4096 / 4096 = n) as En by by rewrite Z.div_mul.
  destruct (map_entry junk s (v :: held) held d ds tot (n * 4096) (map_word (V2P v) f) Hjunk Hv)
    as [[Hfree E]|(t & i & s1 & y & s' & Ewalk & Eg & Hy & Es & Hv' & Hpte & Hk)].
  { lia. } { by rewrite En. } { rewrite Ew. unfold entry. lia. }
  { rewrite En, Ew. apply moved_in; [|unfold NUSER; lia|done]. unfold target. by rewrite Epr, Ho, Ea, E2. }
  all: unfold mappages, PGSIZE; rewrite !PGROUNDDOWN_eq by (rewrite ?u32_small; lia);
    rewrite u32_small by lia;
    replace ((n * 4096 + 4096 - 1) / 4096 * 4096) with (n * 4096) by (Z.div_mod_to_equations; lia);
    rewrite En, Z.sub_diag; change (Z.to_nat (u32 0 / 4096)) with 0%nat; cbn [mappages_loop].
  - left. split; [done|]. by erewrite M_bind_run by exact E.
  - right. exists s'. erewrite M_bind_run by exact Ewalk. cbn beta iota. erewrite M_bind_run by exact Eg. cbn beta.
    unfold present in Hy. rewrite Hy. erewrite M_bind_run by exact Es. cbn beta. rewrite Z.eqb_refl.
    rewrite En, Ew in Hpte. done.
Qed.

(** ** Unmapping *)

(** The user pages that are left, what is held and the other spaces keep
    their contents. *)
Definition kept_left (s s' : vm) (held : list Z) (d : Z) (ds : list Z) : Prop :=
  ∀ p, p ∈ held ++ upages s' d ++ concat (owned s <$> ds) → vpages s' !! p = vpages s !! p.

Lemma remove_entry s held d ds tot n : vinv s held (d :: ds) tot → 0 ≤ n < NUSER →
  present (W s d (n / 1024)) = true → present (pte s d n) = true →
  PTE_ADDR (pte s d n) ≠ 0 ∧
  ∃ s1 s', kfree kend (P2V (PTE_ADDR (pte s d n))) s = Ret (tt, s1) ∧
    set_word (tab s d (n / 1024)) (n mod 1024) 0 s1 = Ret (tt, s') ∧ vinv s' held (d :: ds) tot ∧
    (∀ i, 0 ≤ i < 1024 → W s' d i = W s d i) ∧
    (∀ m, 0 ≤ m < 1048576 → pte s' d m = if decide (m = n) then 0 else pte s d m) ∧ kept_left s s' held d ds.
Proof.
  intros Hv Hn Hp Hpn. assert (0 ≤ n < 1048576) as Hn' by (unfold NUSER in Hn; lia).
  destruct (page_index n Hn') as (Hi & Hj & _). pose proof (dir_facts_of _ _ _ _ _ Hv) as Hf.
  set (v := P2V (PTE_ADDR (pte s d n))). set (t := tab s d (n / 1024)).
  assert (v ∈ upages s d) as Hvin by by apply elem_of_upages.
  assert (page_ok kend v) as Hok by by apply (df_ok _ _ _ _ Hf), upages_owned.
  split. { intros E. subst v. rewrite E in Hok. change (P2V 0) with KERNBASE in Hok. unfold page_ok in Hok. lia. }
  assert (t ∈ tables s d) as Htin by by apply elem_of_tables.
  assert (has_data s t) as Hdt by by apply (df_data _ _ _ _ Hf), tables_owned.
  destruct (df_data _ _ _ _ Hf v) as (x & Hx & _); [by apply upages_owned|].
  assert (v ≠ t) as Hvt.
  { intros E. apply (df_user _ _ _ _ v Hf Hvin). rewrite E. by apply elem_of_cons; right. }
  destruct (pte_set_view s held d ds n 0 Hf Hn') as (HW & Hpte & Hk); [lia|done|]. fold t in HW, Hpte, Hk.
  set (s0 := setw s t (n mod 1024) 0) in *.
  assert (vinv s0 (v :: held) (d :: ds) tot) as Hv0.
  { apply pte_set_vinv with (held := held); try done. unfold moved. rewrite decide_True by lia.
    unfold target at 2. rewrite Hpn. done. }
  destruct (vm_kfree_spec s0 v held (d :: ds) tot Hv0) as [_ Hv1].
  pose proof (page_range kend v Hok) as (_ & _ & Hps).
  set (s1 := Vm (delete v (vpages s0)) (v :: vfree s0)) in *.
  assert (∀ i, 0 ≤ i < 1024 → W s1 d i = W s d i) as HW1.
  { intros i Hi'. rewrite <- HW by done. unfold W, s1. cbn. rewrite lookup_delete_ne; [done|]. intros E.
    apply (df_user _ _ _ _ v Hf Hvin). rewrite E. by apply elem_of_cons; left. }
  exists (Vm (delete v (vpages s)) (v :: vfree s)), s1. split_and!; try done.
  - destruct Hok as (Ha & Hk' & _). unfold kfree. fold v. rewrite Ha. cbn [negb Z.eqb orb].
    case_if as E; [apply orb_true_iff in E as [?|?]; bool_to_prop; lia|]. by rewrite Hx.
  - destruct Hdt as (y & Hy & Hyd). rewrite set_word_run; [|exists y; split; [cbn; by rewrite lookup_delete_ne|done]|done].
    unfold s1, s0, setw. cbn. rewrite lookup_delete_ne, Hy by done. cbn. by rewrite delete_insert_ne.
  - pose proof (dir_facts_of _ _ _ _ _ Hv0) as Hf0. destruct (view_frame s0 s1 d) as [_ Hview].
    { intros p Hin. unfold s1. cbn. rewrite lookup_delete_ne; [done|]. intros ->.
      apply (df_apart _ _ _ _ Hf0 p); set_solver. }
    intros m Hm. rewrite Hview by done. by apply Hpte.
  - intros p Hin. pose proof (dir_facts_of _ _ _ _ _ Hv1) as Hf1.
    destruct (concat_owned_frame s s1 ds) as [_ E].
    { intros q Hq. unfold s1. cbn. rewrite lookup_delete_ne; [apply Hk; set_solver|]. intros ->.
      pose proof (vinv_nodup _ _ _ _ Hv) as Hnd. cbn [fmap list_fmap concat] in Hnd.
      apply NoDup_app in Hnd as (_ & _ & Hnd). apply NoDup_app in Hnd as (_ & _ & Hnd).
      apply NoDup_app in Hnd as (_ & Hnd & _). by eapply Hnd; [apply upages_owned|]. }
    rewrite <- E in Hin.
    assert (p ≠ v) as Hpv.
    { intros ->. eapply (vinv_disjoint s1 held (d :: ds) tot v Hv1); [unfold s1; cbn; set_solver|].
      cbn [fmap list_fmap concat]. apply elem_of_app in Hin as [?|[?|?]%elem_of_app]; [set_solver| |set_solver].
      apply elem_of_app. right. apply elem_of_app. left. by apply upages_owned. }
    assert (p ≠ t) as Hpt.
    { intros ->. apply (df_apart _ _ _ _ Hf1 t); [rewrite (tables_view s s1) by done; set_solver|set_solver]. }
    unfold s1. cbn. rewrite lookup_delete_ne by done. unfold s0. by apply setw_frame.
Qed.
End ownership.
