(* ===== verification/VmOps.v ===== *)
(** * The operations on address spaces ([vm.c])

    [deallocuvm], [allocuvm], [freevm], [setupkvm], [copyuvm] keep the
    ownership invariant of [VmInv] and change the page table as they should. *)

From stdpp Require Import base numbers list gmap sets strings relations.
From S2P Require Import Prelude Kalloc Fs FsInode Vm VmInv.

Open Scope Z_scope.

(** A page of zeros, sealed so that it is never computed. *)
Definition zeros_aux : seal (replicate (Z.to_nat PGSIZE) 0).
Proof. by eexists. Qed.
Definition zeros : list Z := unseal zeros_aux.
Lemma zeros_eq : zeros = replicate (Z.to_nat PGSIZE) 0.
Proof. apply seal_eq. Qed.
Lemma zeros_data : page_data zeros.
Proof. rewrite zeros_eq. apply zero_page_data. Qed.
Lemma zero_page_zeros p : zero_page p = set_page p zeros.
Proof. by rewrite zeros_eq. Qed.

(** ** Address spaces as maps *)

(** The flags and contents of a user page. *)
Definition uspace (s : vm) (d m : Z) : option (Z * list Z) :=
  if present (pte s d m) then
    x ← vpages s !! P2V (PTE_ADDR (pte s d m)); Some (PTE_FLAGS (pte s d m), x)
  else None.

(** What is held and the other spaces stay as they are. *)
Definition others (s s' : vm) (held ds : list Z) : Prop :=
  ∀ p, p ∈ held ++ concat (owned s <$> ds) → vpages s' !! p = vpages s !! p.

Lemma others_refl s held ds : others s s held ds.
Proof. done. Qed.

Lemma others_trans s s1 s2 held ds : others s s1 held ds → others s1 s2 held ds → others s s2 held ds.
Proof.
  intros H1 H2 p Hin. rewrite H2; [by apply H1|]. destruct (concat_owned_frame s s1 ds) as [_ ->]; [|done].
  intros q Hq. apply H1. set_solver.
Qed.

Lemma others_sub s s' held held' ds : held' ⊆ held → others s s' held ds → others s s' held' ds.
Proof. intros Hsub H p Hin. apply H. set_solver. Qed.

Lemma kept_others s s' held d ds : kept s s' held d ds → others s s' held ds.
Proof. intros H p Hin. apply H. set_solver. Qed.

Lemma kept_left_others s s' held d ds : kept_left s s' held d ds → others s s' held ds.
Proof. intros H p Hin. apply H. set_solver. Qed.

Lemma upages_sub s s' d : (∀ m, 0 ≤ m < 1048576 → pte s' d m = pte s d m ∨ present (pte s' d m) = false) →
  upages s' d ⊆ upages s d.
Proof.
  intros H p Hp. apply list_elem_of_omap in Hp as (m & Hm & Ht). apply user_range_spec in Hm as Hm'.
  unfold NUSER in Hm'. destruct (H m) as [E|E]; [lia| |].
  - apply list_elem_of_omap. exists m. by rewrite <- E.
  - unfold target in Ht. by rewrite E in Ht.
Qed.

Lemma kept_left_trans s s1 s2 held d ds :
  (∀ m, 0 ≤ m < 1048576 → pte s2 d m = pte s1 d m ∨ present (pte s2 d m) = false) →
  kept_left s s1 held d ds → kept_left s1 s2 held d ds → kept_left s s2 held d ds.
Proof.
  intros Hpte H1 H2 p Hin. pose proof (upages_sub _ _ _ Hpte) as Hsub.
  rewrite H2; [apply H1; set_solver|]. destruct (concat_owned_frame s s1 ds) as [_ ->]; [|done].
  intros q Hq. apply H1. set_solver.
Qed.

Lemma uspace_upages s d m p : 0 ≤ m < NUSER → present (pte s d m) = true → p = P2V (PTE_ADDR (pte s d m)) →
  p ∈ upages s d.
Proof. intros Hm Hp ->. by apply elem_of_upages. Qed.

Lemma uspace_same s s' d m : pte s' d m = pte s d m →
  (present (pte s d m) = true → vpages s' !! P2V (PTE_ADDR (pte s d m)) = vpages s !! P2V (PTE_ADDR (pte s d m))) →
  uspace s' d m = uspace s d m.
Proof. intros E H. unfold uspace. rewrite E. destruct (present _); [|done]. by rewrite H. Qed.

Lemma uspace_kept s s' held d ds m : kept s s' held d ds → 0 ≤ m < NUSER → pte s' d m = pte s d m →
  uspace s' d m = uspace s d m.
Proof.
  intros Hk Hm E. apply uspace_same; [done|]. intros Hp. apply Hk.
  pose proof (elem_of_upages s d m Hm Hp). set_solver.
Qed.

Lemma apart_view s s' held d ds v : v ∉ held ++ concat (owned s <$> d :: ds) →
  (∀ p, p ≠ v → vpages s' !! p = vpages s !! p) →
  same_view s s' d ∧ (∀ m, 0 ≤ m < NUSER → uspace s' d m = uspace s d m) ∧ others s s' held ds.
Proof.
  intros Hnot Hfr. cbn [fmap list_fmap concat] in Hnot.
  assert (same_view s s' d) as Hview.
  { apply view_frame. intros p Hin. apply Hfr. intros ->. apply Hnot. apply elem_of_app. right. apply elem_of_app. left.
    apply elem_of_cons in Hin as [->|Hin]; [apply dir_owned|by apply tables_owned]. }
  split; [done|]. split.
  - intros m Hm. apply uspace_same; [apply Hview; unfold NUSER in Hm; lia|]. intros Hp. apply Hfr. intros E.
    apply Hnot. apply elem_of_app. right. apply elem_of_app. left. apply upages_owned. rewrite <- E. by apply elem_of_upages.
  - intros p Hin. apply Hfr. intros ->. set_solver.
Qed.

Lemma others_same s s' held ds e : others s s' held ds → e ∈ ds →
  same_view s s' e ∧ ∀ m, 0 ≤ m < NUSER → uspace s' e m = uspace s e m.
Proof.
  intros Ho He. destruct (concat_owned_frame s s' ds) as [Hview _]; [intros p Hin; apply Ho; set_solver|].
  split; [by apply Hview|]. intros m Hm. apply uspace_same; [apply Hview; [done|unfold NUSER in Hm; lia]|].
  intros Hp. apply Ho. apply elem_of_app. right. eapply owned_concat; [done|]. by apply upages_owned, elem_of_upages.
Qed.

(** From [s] to [s']: the user part of [d] becomes [f], all else stays. *)
Record becomes (kend : Z) (s s' : vm) (held : list Z) (d : Z) (ds tot : list Z) (f : Z → option (Z * list Z)) : Prop := {
  be_inv : vinv kend s' held (d :: ds) tot;
  be_user m : 0 ≤ m < NUSER → uspace s' d m = f m;
  be_kernel m : NUSER ≤ m < 1048576 → pte s' d m = pte s d m;
  be_others : others s s' held ds
}.

Lemma becomes_trans kend s s1 s2 held d ds tot f g :
  becomes kend s s1 held d ds tot f → becomes kend s1 s2 held d ds tot g → becomes kend s s2 held d ds tot g.
Proof.
  intros [V1 U1 K1 O1] [V2 U2 K2 O2]. split; try done.
  - intros m Hm. by rewrite K2, K1.
  - by eapply others_trans.
Qed.

Lemma becomes_ext kend s s' held d ds tot f g : (∀ m, 0 ≤ m < NUSER → f m = g m) →
  becomes kend s s' held d ds tot f → becomes kend s s' held d ds tot g.
Proof. intros Hfg [V U K O]. split; try done. intros m Hm. by rewrite U, Hfg. Qed.

(** The first page at or above a size. *)
Definition npages (sz : Z) : Z := (sz + 4095) / 4096.

Lemma npages_lt n sz : n * 4096 < sz ↔ n < npages sz.
Proof. unfold npages. split; intros; Z.div_mod_to_equations; lia. Qed.

Definition unmapped (lo hi m x : Z) : Z := if decide (lo ≤ m < hi ∧ present x = true) then 0 else x.

Lemma unmapped_from lo lo' hi m x : (lo ≤ m < hi ↔ lo' ≤ m < hi) → unmapped lo hi m x = unmapped lo' hi m x.
Proof. intros H. unfold unmapped. repeat case_decide; tauto. Qed.

Lemma unmapped_absent lo hi m x : present x = false → unmapped lo hi m x = x.
Proof. intros H. unfold unmapped. rewrite H. rewrite decide_False; [done|]. naive_solver. Qed.

Lemma next_table a : 0 ≤ a < KERNBASE →
  u32 (u32 (PGADDR (PDX a + 1) 0 0 - PGSIZE) + PGSIZE) = (a / 4096 / 1024 + 1) * 1024 * 4096.
Proof.
  unfold KERNBASE. intros Ha. rewrite u32_add_l, PDX_eq by lia. unfold PGADDR.
  rewrite !Z.shiftl_0_l, !Z.lor_0_r, Z.shiftl_mul_pow2 by lia. unfold PGSIZE.
  rewrite (u32_small ((a / 4096 / 1024 + 1) * 2 ^ 22)) by (Z.div_mod_to_equations; lia).
  rewrite u32_small by (Z.div_mod_to_equations; lia). lia.
Qed.

Lemma PGROUNDUP_npages sz : 0 ≤ sz → sz + PGSIZE < 2 ^ 32 → PGROUNDUP sz = npages sz * 4096.
Proof.
  intros H0 H1. destruct (PGROUNDUP_spec sz H0 H1) as [Hm Hb]. unfold npages, PGSIZE in *.
  Z.div_mod_to_equations; lia.
Qed.

Section ops.
Context (kend data : Z) (junk : Z → list Z) (Hjunk : junk_ok junk).

Notation vinv := (vinv kend).
Notation becomes := (becomes kend).

(** ** [deallocuvm] *)
Lemma deallocuvm_loop_spec held d ds tot oldsz fuel : 0 ≤ oldsz ≤ KERNBASE → ∀ s n,
  vinv s held (d :: ds) tot → 0 ≤ n → npages oldsz - n ≤ Z.of_nat fuel →
  ∃ s', deallocuvm_loop kend junk d (n * 4096) oldsz fuel s = Ret (tt, s') ∧ vinv s' held (d :: ds) tot ∧
    (∀ i, 0 ≤ i < 1024 → W s' d i = W s d i) ∧
    (∀ m, 0 ≤ m < 1048576 → pte s' d m = unmapped n (npages oldsz) m (pte s d m)) ∧ kept_left s s' held d ds.
Proof.
  intros Hold. induction fuel as [|fuel IH]; intros s n Hv Hn Hfuel; cbn [deallocuvm_loop];
    (destruct (n * 4096 <? oldsz) eqn:Hlt; [apply Z.ltb_lt, npages_lt in Hlt|apply Z.ltb_ge in Hlt]).
  1: lia. 1, 3: exists s; split_and!; try done; intros m Hm; unfold unmapped; rewrite decide_False; [done|];
    pose proof (npages_lt n oldsz); lia.
  assert (npages oldsz ≤ NUSER) as HN by (unfold npages, NUSER, KERNBASE in *; Z.div_mod_to_equations; lia).
  unfold NUSER in HN. assert (n * 4096 / 4096 = n) as En by by rewrite Z.div_mul.
  assert (0 ≤ n < 1048576) as Hn' by lia. destruct (page_index n Hn') as (Hi & Hj & Hsplit).
  destruct (present (W s d (n / 1024))) eqn:Hp.
  - erewrite M_bind_run.
    2: { apply (walk_present kend junk s held d (d :: ds) tot); [done|set_solver|lia|by rewrite En]. }
    rewrite En. cbn iota beta. pose proof (dir_facts_of _ _ _ _ _ _ Hv) as Hf.
    destruct (get_word_run s (tab s d (n / 1024)) (n mod 1024)) as [Eg _];
      [by apply (df_data _ _ _ _ _ Hf), tables_owned, elem_of_tables|done|].
    erewrite M_bind_run by exact Eg. cbn beta.
    assert (W s (tab s d (n / 1024)) (n mod 1024) = pte s d n) as Epte by (unfold pte; by rewrite Hp).
    rewrite Epte. rewrite u32_small by (unfold PGSIZE; lia).
    replace (n * 4096 + PGSIZE) with ((n + 1) * 4096) by (unfold PGSIZE; lia).
    destruct (present (pte s d n)) eqn:Hpn.
    + destruct (remove_entry kend s held d ds tot n Hv) as (Hnz & s1 & s2 & Ek & Es & Hv2 & HW2 & Hpte2 & Hk2);
        [unfold NUSER; lia|done|done|].
      apply Z.eqb_neq in Hnz. unfold present in Hpn. rewrite Hpn, Hnz.
      erewrite M_bind_run by (erewrite M_bind_run by exact Ek; exact Es).
      destruct (IH s2 (n + 1)) as (s3 & E3 & Hv3 & HW3 & Hpte3 & Hk3); [done|lia|lia|].
      exists s3. split; [done|]. split; [done|]. split; [intros i Hi'; by rewrite HW3, HW2|]. split.
      * intros m Hm. rewrite Hpte3, Hpte2 by done. destruct (decide (m = n)) as [->|Hne].
        -- rewrite unmapped_absent by done. unfold unmapped, present. rewrite Hpn, decide_True by (split; [lia|done]). done.
        -- apply unmapped_from. lia.
      * eapply kept_left_trans; [|done|done]. intros m Hm. rewrite Hpte3 by done. unfold unmapped.
        case_decide; [by right|by left].
    + unfold present in Hpn. rewrite Hpn. erewrite M_bind_run by done.
      destruct (IH s (n + 1)) as (s3 & E3 & Hv3 & HW3 & Hpte3 & Hk3); [done|lia|lia|].
      exists s3. split; [done|]. split; [done|]. split; [done|]. split; [|done].
      intros m Hm. rewrite Hpte3 by done. destruct (decide (m = n)) as [->|Hne].
      * by rewrite !unmapped_absent.
      * apply unmapped_from. lia.
  - erewrite M_bind_run.
    2: { apply (walk_absent kend junk s held d (d :: ds) tot); [done|set_solver|lia|by rewrite En]. }
    cbn iota beta. rewrite next_table, En by (unfold KERNBASE; lia).
    destruct (IH s ((n / 1024 + 1) * 1024)) as (s3 & E3 & Hv3 & HW3 & Hpte3 & Hk3); [done|lia|lia|].
    exists s3. split; [done|]. split; [done|]. split; [done|]. split; [|done].
    intros m Hm. rewrite Hpte3 by done. destruct (decide (m / 1024 = n / 1024)) as [Ed|Hne].
    + rewrite !unmapped_absent; [done|..]; unfold pte; by rewrite Ed, Hp.
    + apply unmapped_from. destruct (page_index m Hm) as (_ & ? & ?). lia.
Qed.

Lemma deallocuvm_spec s held d ds tot oldsz newsz : vinv s held (d :: ds) tot →
  0 ≤ oldsz ≤ KERNBASE → 0 ≤ newsz →
  ∃ s', deallocuvm kend junk d oldsz newsz s = Ret (if oldsz <=? newsz then oldsz else newsz, s') ∧
    becomes s s' held d ds tot (λ m, if decide (npages newsz ≤ m < npages oldsz) then None else uspace s d m) ∧
    (∀ i, 0 ≤ i < 1024 → W s' d i = W s d i).
Proof.
  intros Hv Hold Hnew. unfold deallocuvm. destruct (oldsz <=? newsz) eqn:Hle.
  - apply Z.leb_le in Hle. exists s. split; [done|]. split; [|done]. split; [done| |done|done].
    intros m Hm. rewrite decide_False; [done|]. unfold npages. Z.div_mod_to_equations; lia.
  - apply Z.leb_gt in Hle. unfold KERNBASE in Hold. rewrite PGROUNDUP_npages by (unfold PGSIZE; lia).
    destruct (deallocuvm_loop_spec held d ds tot oldsz (Z.to_nat ((oldsz - npages newsz * 4096) / PGSIZE + 1)))
      with (s := s) (n := npages newsz) as (s' & E & Hv' & HW & Hpte & Hk); [unfold KERNBASE; lia|done| | |].
    + unfold npages. Z.div_mod_to_equations; lia.
    + unfold npages, PGSIZE. Z.div_mod_to_equations; lia.
    + exists s'. erewrite M_bind_run by exact E. split; [done|]. split; [|done]. split; [done| | |by eapply kept_left_others].
      * intros m Hm. assert (0 ≤ m < 1048576) as Hm' by (unfold NUSER in Hm; lia). specialize (Hpte m Hm').
        destruct (decide (npages newsz ≤ m < npages oldsz ∧ present (pte s d m) = true)) as [[Hr Hp]|Hn].
        -- rewrite decide_True by done. unfold uspace. rewrite Hpte. unfold unmapped. by rewrite decide_True.
        -- unfold unmapped in Hpte. rewrite decide_False in Hpte by done.
           assert (uspace s' d m = uspace s d m) as ->.
           { apply uspace_same; [done|]. intros Hp. apply Hk. rewrite <- Hpte in *.
             pose proof (elem_of_upages s' d m Hm Hp). set_solver. }
           case_decide; [|done]. unfold uspace. destruct (present (pte s d m)); [|done]. naive_solver.
      * intros m Hm. rewrite Hpte by (unfold NUSER in Hm; lia). unfold unmapped. rewrite decide_False; [done|].
        unfold NUSER, npages in *. Z.div_mod_to_equations; lia.
Qed.

(** ** Adding a page *)
Lemma fresh_page s held ds tot x : vinv s held ds tot → page_data x →
  (vfree s = [] ∧ kalloc junk s = Ret (0, s)) ∨
  ∃ v s1 s2, v ≠ 0 ∧ kalloc junk s = Ret (v, s1) ∧ set_page v x s1 = Ret (tt, s2) ∧ vinv s2 (v :: held) ds tot ∧
    vpages s2 !! v = Some x ∧ v ∉ held ++ concat (owned s <$> ds) ∧
    (∀ p, p ≠ v → vpages s1 !! p = vpages s !! p ∧ vpages s2 !! p = vpages s !! p).
Proof.
  intros Hv Hx.
  destruct (vm_kalloc_spec kend junk s held ds tot Hjunk Hv) as [?|(v & s1 & Hnz & Ek & Hv1 & _ & Hfr & Hnot)]; [by left|right].
  destruct (set_page_held kend s1 v x held ds tot Hv1 Hx) as [Es Hv2].
  exists v, s1, (Vm (<[v := x]> (vpages s1)) (vfree s1)). split_and!; try done.
  - cbn. by rewrite lookup_insert_eq.
  - intros p Hp. cbn. rewrite lookup_insert_ne by congruence. auto.
Qed.

Lemma free_held s v held d ds tot : vinv s (v :: held) (d :: ds) tot →
  ∃ s', kfree kend v s = Ret (tt, s') ∧ becomes s s' held d ds tot (uspace s d).
Proof.
  intros Hv. destruct (vm_kfree_spec kend s v held (d :: ds) tot Hv) as [E Hv']. eexists. split; [exact E|].
  destruct (apart_view s (Vm (delete v (vpages s)) (v :: vfree s)) held d ds v) as ([_ Hpte] & Hus & Hoth).
  - pose proof (vinv_nodup _ _ _ _ _ Hv) as Hnd. apply NoDup_app in Hnd as (_ & _ & Hnd).
    cbn [app] in Hnd. by apply NoDup_cons in Hnd as [? _].
  - intros p Hp. cbn. by rewrite lookup_delete_ne.
  - split; try done. intros m Hm. apply Hpte. unfold NUSER in Hm. lia.
Qed.

(** Out of memory for the page, out of memory for its table, or mapped. *)
Lemma add_page s held d ds tot n x f : vinv s held (d :: ds) tot → 0 ≤ n < NUSER → present (pte s d n) = false →
  0 ≤ f < 4096 → page_data x →
  (vfree s = [] ∧ kalloc junk s = Ret (0, s)) ∨
  ∃ v s1 s2, v ≠ 0 ∧ kalloc junk s = Ret (v, s1) ∧ set_page v x s1 = Ret (tt, s2) ∧
    (∀ p, p ∈ held ++ concat (owned s <$> d :: ds) → vpages s1 !! p = vpages s !! p) ∧
    ((vfree s2 = [] ∧ mappages junk d (n * 4096) PGSIZE (V2P v) f s2 = Ret (-1, s2) ∧
      vinv s2 (v :: held) (d :: ds) tot ∧ same_view s s2 d ∧ (∀ m, 0 ≤ m < NUSER → uspace s2 d m = uspace s d m) ∧
      others s s2 held ds) ∨
     ∃ s3, mappages junk d (n * 4096) PGSIZE (V2P v) f s2 = Ret (0, s3) ∧
       becomes s s3 held d ds tot (λ m, if decide (m = n) then Some (Z.lor f 1, x) else uspace s d m) ∧
       (∀ m, 0 ≤ m < 1048576 → m ≠ n → pte s3 d m = pte s d m)).
Proof.
  intros Hv Hn Hp Hf Hx.
  destruct (fresh_page s held (d :: ds) tot x Hv Hx) as [?|(v & s1 & s2 & Hnz & Ek & Es & Hv2 & Hxv & Hnot & Hfr)]; [by left|right].
  exists v, s1, s2. destruct (apart_view s s2 held d ds v Hnot) as (Hview & Hus & Hoth); [intros; by apply Hfr|].
  split; [done|]. split; [done|]. split; [done|]. split.
  { intros p Hin. apply Hfr. by intros ->. }
  assert (0 ≤ n < 1048576) as Hn' by (unfold NUSER in Hn; lia).
  destruct (mappages_user kend junk s2 v held d ds tot n f Hjunk Hv2 Hn) as [[Hfull Em]|(s3 & Em & Hv3 & Hpte3 & Hk3)];
    [by rewrite (proj2 Hview)|done|by left|right].
  exists s3. split; [done|].
  assert (page_ok kend v) as Hok by (eapply vinv_page_ok; [exact Hv2|set_solver]).
  destruct (P2V_V2P kend v Hok) as (E2 & Ha & Hr). unfold PHYSTOP in Hr.
  destruct (map_word_entry (V2P v) f Ha Hf) as (_ & Hl & Ho); [lia|lia|].
  destruct (entry_fields (V2P v) (Z.lor f 1) Ha Hl) as (Ea & Ef & Epr); [lia|lia|].
  split; [split|].
  - done.
  - intros m Hm. assert (0 ≤ m < 1048576) as Hm' by (unfold NUSER in Hm; lia). case_decide as Hc.
    + subst m. unfold uspace. rewrite Hpte3, decide_True, Epr, Ho by done. rewrite Ea, E2, Ef.
      rewrite (Hk3 v) by set_solver. by rewrite Hxv.
    + rewrite <- Hus by done. eapply uspace_kept; [done|done|]. by rewrite Hpte3, decide_False.
  - intros m Hm. rewrite Hpte3, decide_False by (unfold NUSER in *; lia). apply Hview. unfold NUSER in *. lia.
  - eapply others_trans; [done|]. eapply others_sub; [|by eapply kept_others]. set_solver.
  - intros m Hm Hne. rewrite Hpte3, decide_False by done. by apply Hview.
Qed.

(** ** [allocuvm] *)
Definition fresh_user : Z * list Z := (7, zeros).

Definition grown (ok : bool) (lo0 lo hi m : Z) (old : option (Z * list Z)) : option (Z * list Z) :=
  if ok then if decide (lo ≤ m < hi) then Some fresh_user else old
  else if decide (lo0 ≤ m < hi) then None else old.

Lemma uspace_present s held ds tot d m : vinv s held ds tot → d ∈ ds → 0 ≤ m < NUSER →
  is_Some (uspace s d m) ↔ present (pte s d m) = true.
Proof.
  intros Hv Hd Hm. unfold uspace. destruct (present (pte s d m)) eqn:Hp; [|by split; [intros []|]].
  destruct (vi_data _ _ _ _ _ Hv (P2V (PTE_ADDR (pte s d m)))) as (x & -> & _).
  - apply elem_of_app. right. eapply owned_concat; [done|]. by apply upages_owned, elem_of_upages.
  - split; [done|]. intros _. by eexists.
Qed.

(** Memory ran out: in some state on the way no page was free, with at most one
    page more in use outside the spaces, and no new one from page [hi] of [d] on. *)
Definition starved (s : vm) (held : list Z) (d : Z) (ds tot : list Z) (hi : Z) : Prop :=
  ∃ s1 more, vfree s1 = [] ∧ (length more ≤ 1)%nat ∧ vinv s1 (more ++ held) (d :: ds) tot ∧ others s s1 held ds ∧
    ∀ m, hi ≤ m < NUSER → present (pte s1 d m) = true → present (pte s d m) = true.

Lemma present_same s s1 held held1 d ds tot m : vinv s held (d :: ds) tot → vinv s1 held1 (d :: ds) tot → 0 ≤ m < NUSER →
  uspace s1 d m = uspace s d m → present (pte s1 d m) = true → present (pte s d m) = true.
Proof.
  intros Hv Hv1 Hm E Hp. assert (d ∈ d :: ds) as Hd by (apply elem_of_cons; by left).
  apply (uspace_present s held (d :: ds) tot); try done. rewrite <-E. by apply (uspace_present s1 held1 (d :: ds) tot).
Qed.

Lemma starved_later s s1 held d ds tot hi f : vinv s held (d :: ds) tot → becomes s s1 held d ds tot f →
  (∀ m, hi ≤ m < NUSER → f m = uspace s d m) → 0 ≤ hi → starved s1 held d ds tot hi → starved s held d ds tot hi.
Proof.
  intros Hv Hb Hf Hhi (s2 & more & H1 & H2 & H3 & H4 & H5). exists s2, more. split_and!; try done.
  - eapply others_trans; [by apply Hb|done].
  - intros m Hm Hp. eapply (present_same s s1 held held); [done|by apply Hb|lia| |by apply H5].
    rewrite (be_user _ _ _ _ _ _ _ _ Hb) by lia. by apply Hf.
Qed.

Lemma allocuvm_loop_spec held d ds tot oldsz newsz fuel : 0 ≤ oldsz → newsz < KERNBASE → oldsz ≤ newsz → ∀ s n,
  vinv s held (d :: ds) tot → npages oldsz ≤ n → npages newsz - n ≤ Z.of_nat fuel →
  (∀ m, n ≤ m < npages newsz → present (pte s d m) = false) →
  ∃ ok s', allocuvm_loop kend junk d (n * 4096) oldsz newsz fuel s = Ret (ok, s') ∧
    becomes s s' held d ds tot (λ m, grown ok (npages oldsz) n (npages newsz) m (uspace s d m)) ∧
    (ok = false → starved s held d ds tot (npages newsz)).
Proof.
  intros Hold Hnew Hle. assert (npages newsz ≤ NUSER) as HN.
  { unfold npages, NUSER, KERNBASE in *. Z.div_mod_to_equations; lia. }
  assert (0 ≤ npages oldsz) by (unfold npages; Z.div_mod_to_equations; lia).
  assert (∀ s s2 held' n, vinv s2 held' (d :: ds) tot → npages oldsz ≤ n →
    (∀ m, 0 ≤ m < NUSER → uspace s2 d m = uspace s d m) → (∀ m, NUSER ≤ m < 1048576 → pte s2 d m = pte s d m) →
    others s s2 held' ds → ∃ s', deallocuvm kend junk d newsz oldsz s2 = Ret (if newsz <=? oldsz then newsz else oldsz, s') ∧
      becomes s s' held' d ds tot (λ m, grown false (npages oldsz) n (npages newsz) m (uspace s d m))) as Hfail.
  { intros s s2 held' n Hv2 Hn Hus Hker Hoth. destruct (deallocuvm_spec s2 held' d ds tot newsz oldsz) as (s' & E & [V U K O] & _);
      [done|lia|done|]. exists s'. split; [done|]. split; try done.
    - intros m Hm. rewrite U by done. unfold grown. by rewrite Hus.
    - intros m Hm. by rewrite K, Hker.
    - by eapply others_trans. }
  induction fuel as [|fuel IH]; intros s n Hv Hn Hfuel Habs; cbn [allocuvm_loop];
    (destruct (n * 4096 <? newsz) eqn:Hlt; [apply Z.ltb_lt, npages_lt in Hlt|apply Z.ltb_ge in Hlt]).
  1: lia.
  1, 3: exists true, s; split; [done|]; split; [|done]; split; try done; intros m Hm; unfold grown;
    rewrite decide_False; [done|]; pose proof (npages_lt n newsz); lia.
  unfold NUSER in HN.
  destruct (add_page s held d ds tot n zeros (Z.lor PTE_W PTE_U)) as [[Hfull Ek]|(v & s1 & s2 & Hnz & Ek & Es & _ & Hmap)];
    [done|unfold NUSER; lia|apply Habs; lia|done|apply zeros_data| |].
  - erewrite M_bind_run by exact Ek. cbn beta. change (0 =? 0) with true. cbn iota.
    destruct (Hfail s s held n) as (s' & E & Hb); [done..|]. exists false, s'.
    erewrite M_bind_run by exact E. split; [done|]. split; [done|]. intros _. exists s, []. split_and!; try done. cbn. lia.
  - erewrite M_bind_run by exact Ek. apply Z.eqb_neq in Hnz. cbn beta. rewrite Hnz, zero_page_zeros.
    erewrite M_bind_run by exact Es. destruct Hmap as [(Hfull & Em & Hv2 & Hview & Hus & Hoth)|(s3 & Em & Hb & Hpte3)];
      erewrite M_bind_run by exact Em; cbn beta.
    + change (-1 <? 0) with true. cbn iota.
      destruct (Hfail s2 s2 (v :: held) n) as (s3 & E3 & Hb3); [done..|]. erewrite M_bind_run by exact E3.
      destruct (free_held s3 v held d ds tot (be_inv _ _ _ _ _ _ _ _ Hb3)) as (s4 & E4 & Hb4).
      exists false, s4. erewrite M_bind_run by exact E4. split; [done|]. destruct Hb3 as [V3 U3 K3 O3], Hb4 as [V4 U4 K4 O4].
      split; [split; try done|].
      * intros m Hm. rewrite U4, U3 by done. unfold grown. by rewrite Hus.
      * intros m Hm. rewrite K4, K3 by done. apply Hview. unfold NUSER in Hm. lia.
      * eapply others_trans; [done|]. eapply others_trans; [|done]. eapply others_sub; [|done]. set_solver.
      * intros _. exists s2, [v]. split_and!; try done. intros m Hm Hp. eapply (present_same s s2 held (v :: held)); try done; [lia|]. apply Hus. lia.
    + change (0 <? 0) with false. cbn iota. rewrite u32_small by (unfold PGSIZE; lia).
      replace (n * 4096 + PGSIZE) with ((n + 1) * 4096) by (unfold PGSIZE; lia).
      destruct (IH s3 (n + 1)) as (ok & s' & E & Hb' & Hst); [by apply Hb|lia|lia| |].
      { intros m Hm. rewrite Hpte3 by lia. apply Habs. lia. }
      exists ok, s'. split; [done|]. split.
      * eapply becomes_ext; [|by eapply becomes_trans].
        intros m Hm. cbn beta. rewrite (be_user _ _ _ _ _ _ _ _ Hb) by done. unfold grown.
        destruct ok; repeat case_decide; try done; try lia.
      * intros Hok. eapply starved_later; [exact Hv|exact Hb| |lia|by apply Hst]. intros m Hm. cbn beta. rewrite decide_False by lia. done.
Qed.

Lemma allocuvm_spec s held d ds tot oldsz newsz : vinv s held (d :: ds) tot → 0 ≤ oldsz ≤ newsz → newsz < KERNBASE →
  (∀ m, npages oldsz ≤ m < npages newsz → present (pte s d m) = false) →
  ∃ ok s', allocuvm kend junk d oldsz newsz s = Ret (if (ok : bool) then newsz else 0, s') ∧
    becomes s s' held d ds tot (λ m, if ok then if decide (npages oldsz ≤ m < npages newsz) then Some fresh_user
                                            else uspace s d m else uspace s d m) ∧
    (ok = false → starved s held d ds tot (npages newsz)).
Proof.
  intros Hv Hold Hnew Habs. unfold allocuvm. unfold KERNBASE in Hnew.
  case_if; [unfold KERNBASE in *; lia|]. case_if; [lia|]. rewrite PGROUNDUP_npages by (unfold PGSIZE; lia).
  destruct (allocuvm_loop_spec held d ds tot oldsz newsz (Z.to_nat ((newsz - npages oldsz * 4096) / PGSIZE + 1)))
    with (s := s) (n := npages oldsz) as (ok & s' & E & Hb & Hst); try done; try lia.
  - unfold npages, PGSIZE. Z.div_mod_to_equations; lia.
  - exists ok, s'. erewrite M_bind_run by exact E. split; [done|]. split; [|done]. eapply becomes_ext; [|done].
    intros m Hm. unfold grown. destruct ok; [done|]. case_decide as Hc; [|done].
    unfold uspace. by rewrite Habs.
Qed.

(** ** [freevm] *)
Lemma no_upages s held d ds tot : vinv s held (d :: ds) tot → (∀ m, 0 ≤ m < NUSER → uspace s d m = None) → upages s d = [].
Proof.
  intros Hv Hus. destruct (upages s d) as [|p l] eqn:E; [done|exfalso].
  assert (p ∈ upages s d) as Hp by (rewrite E; set_solver). clear E.
  pose proof Hp as Hp'. apply list_elem_of_omap in Hp' as (m & Hm & Ht). apply user_range_spec in Hm.
  unfold target in Ht. destruct (present (pte s d m)) eqn:Hpr; [|done]. injection Ht as Ht.
  destruct (df_data _ _ _ _ _ (dir_facts_of _ _ _ _ _ _ Hv) p) as (x & Hx & _); [by apply upages_owned|].
  specialize (Hus m Hm). unfold uspace in Hus. by rewrite Hpr, Ht, Hx in Hus.
Qed.

(** The tables of the directory entries from [k] on. *)
Definition tables_from (s : vm) (d : Z) (k : nat) : list Z :=
  omap (λ i, target (W s d i)) (seqZ (Z.of_nat k) (1024 - Z.of_nat k)).

Lemma tables_from_0 s d : tables_from s d 0 = tables s d.
Proof.
  unfold tables, tables_from. rewrite dir_range_eq. change (1024 - Z.of_nat 0) with 1024.
  change (Z.of_nat 0) with 0. reflexivity.
Qed.

Lemma tables_from_end s d : tables_from s d (Z.to_nat NPDENTRIES) = [].
Proof. unfold tables_from. change (Z.of_nat (Z.to_nat NPDENTRIES)) with 1024. rewrite Z.sub_diag. reflexivity. Qed.

Lemma tables_from_S s d k : (k < 1024)%nat →
  tables_from s d k = option_list (target (W s d (Z.of_nat k))) ++ tables_from s d (S k).
Proof.
  intros Hk. unfold tables_from. rewrite seqZ_cons by lia. cbn [omap list_omap].
  replace (Z.succ (Z.of_nat k)) with (Z.of_nat (S k)) by lia.
  replace (Z.pred (1024 - Z.of_nat k)) with (1024 - Z.of_nat (S k)) by lia.
  by destruct (target (W s d (Z.of_nat k))).
Qed.

Lemma free_table_spec s0 s held d ds tot k : (k < 1024)%nat →
  vinv s (d :: tables_from s0 d k ++ held) ds tot → vpages s !! d = vpages s0 !! d →
  ∃ s', free_table kend d (Z.of_nat k) s = Ret (tt, s') ∧ vinv s' (d :: tables_from s0 d (S k) ++ held) ds tot ∧
    vpages s' !! d = vpages s0 !! d ∧ others s s' held ds.
Proof.
  intros Hk Hv Hd. assert (has_data s d) as Hdata by (apply (vi_data _ _ _ _ _ Hv); set_solver).
  destruct (get_word_run s d (Z.of_nat k) Hdata) as [Eg _]; [lia|]. unfold free_table.
  erewrite M_bind_run by exact Eg. cbn beta.
  assert (W s d (Z.of_nat k) = W s0 d (Z.of_nat k)) as EW by (unfold W; by rewrite Hd). rewrite EW.
  rewrite tables_from_S in Hv by done. unfold target in Hv. unfold present in *.
  destruct (negb (Z.land (W s0 d (Z.of_nat k)) PTE_P =? 0)); [|by exists s].
  cbn [option_list app] in Hv. set (v := P2V _) in *. set (l := tables_from s0 d (S k)) in *.
  assert (vinv s (v :: d :: l ++ held) ds tot) as Hv1.
  { eapply vinv_held; [|exact Hv]. apply Permutation_swap. }
  destruct (vm_kfree_spec kend s v _ ds tot Hv1) as [E Hv2]. eexists. split; [exact E|]. split; [done|].
  pose proof (vinv_nodup _ _ _ _ _ Hv1) as Hnd. apply NoDup_app in Hnd as (_ & _ & Hnd). cbn [app] in Hnd.
  apply NoDup_cons in Hnd as [Hnot _]. cbn. split.
  - rewrite lookup_delete_ne; [done|]. intros ->. set_solver.
  - intros p Hp. cbn. rewrite lookup_delete_ne; [done|]. intros ->. apply Hnot. set_solver.
Qed.

Lemma freevm_spec s held d ds tot : vinv s held (d :: ds) tot →
  ∃ s', freevm kend junk d s = Ret (tt, s') ∧ vinv s' held ds tot ∧ others s s' held ds.
Proof.
  intros Hv. assert (d ≠ 0) as Hnz.
  { eapply page_ok_nz, (df_ok _ _ _ _ _ (dir_facts_of _ _ _ _ _ _ Hv)), dir_owned. }
  unfold freevm. apply Z.eqb_neq in Hnz. rewrite Hnz.
  destruct (deallocuvm_spec s held d ds tot KERNBASE 0) as (s1 & E1 & [V1 U1 K1 O1] & _); [done|unfold KERNBASE; lia|done|].
  erewrite M_bind_run by exact E1.
  assert (upages s1 d = []) as Hup.
  { eapply no_upages; [done|]. intros m Hm. rewrite U1 by done. rewrite decide_True; [done|].
    unfold NUSER, npages, KERNBASE in *. Z.div_mod_to_equations; lia. }
  assert (vinv s1 (d :: tables_from s1 d 0 ++ held) ds tot) as V2.
  { eapply vinv_held; [|by apply vinv_release]. unfold owned. rewrite Hup, app_nil_r, tables_from_0. cbn [app].
    reflexivity. }
  destruct (for_loop_inv (λ k s, vinv s (d :: tables_from s1 d k ++ held) ds tot ∧ vpages s !! d = vpages s1 !! d ∧
    others s1 s held ds) (free_table kend d) 0 (Z.to_nat NPDENTRIES) s1) as (s2 & E2 & V3 & _ & O3).
  { by split_and!. }
  { intros k sk Hk (Vk & Dk & Ok). change (Z.to_nat NPDENTRIES) with 1024%nat in Hk.
    destruct (free_table_spec s1 sk held d ds tot k Hk Vk Dk) as (s' & E & V' & D' & O').
    exists s'. rewrite Z.add_0_l. split; [done|]. split_and!; try done. by eapply others_trans. }
  erewrite M_bind_run by exact E2.
  rewrite tables_from_end in V3. cbn [app] in V3.
  destruct (vm_kfree_spec kend s2 d held ds tot V3) as [E V4]. eexists. split; [exact E|]. split; [done|].
  eapply others_trans; [done|]. eapply others_trans; [done|]. intros p Hp. cbn. rewrite lookup_delete_ne; [done|].
  intros ->. pose proof (vinv_nodup _ _ _ _ _ V3) as Hnd. apply NoDup_app in Hnd as (_ & _ & Hnd). cbn [app] in Hnd.
  by apply NoDup_cons in Hnd as [? _].
Qed.
End ops.
