(* ===== verification/VmKernel.v ===== *)
(** * Kernel mappings and fork ([setupkvm], [copyuvm] of [vm.c])

    A new directory maps the kernel as [kmap] says and no user page; a copied
    address space has the pages of the original with fresh memory behind them. *)

From stdpp Require Import base numbers list gmap sets strings relations.
From S2P Require Import Prelude Kalloc Fs FsInode Vm VmInv VmOps.

Open Scope Z_scope.

(** ** A new directory *)
Lemma new_dir kend s v held ds tot : vinv kend s (v :: held) ds tot → (∀ i, 0 ≤ i < 1024 → W s v i = 0) →
  vinv kend s held (v :: ds) tot ∧ ∀ m, 0 ≤ m < 1048576 → pte s v m = 0.
Proof.
  intros [H1 H2 H3 H4 H5] Hz.
  assert (∀ m, 0 ≤ m < 1048576 → pte s v m = 0) as Hpte.
  { intros m Hm. destruct (page_index m Hm) as (Hi & _). unfold pte. by rewrite Hz. }
  split; [|done]. assert (owned s v = [v]) as Ho.
  { unfold owned. assert (∀ {A} (f : A → option Z) l, (∀ x, x ∈ l → f x = None) → omap f l = []) as Hnil.
    { intros A f l. induction l as [|x l IH]; intros H; [done|]. cbn. rewrite (H x) by set_solver. apply IH. set_solver. }
    unfold tables, upages. rewrite !Hnil; [done|..].
    - intros m Hm%user_range_spec. unfold NUSER in Hm. by rewrite Hpte by lia.
    - intros i Hi%dir_range_spec. by rewrite Hz. }
  assert (held ++ concat (owned s <$> v :: ds) ≡ₚ (v :: held) ++ concat (owned s <$> ds)) as Hp.
  { cbn [fmap list_fmap concat]. rewrite Ho. by solve_Permutation. }
  split; try done; [by rewrite Hp|]. intros p Hin. apply H5. by rewrite <- Hp.
Qed.

Section kernel.
Context (kend data : Z) (junk : Z → list Z) (Hjunk : junk_ok junk).

Notation vinv := (vinv kend).

(** ** Kernel regions *)

(** [cnt] pages from page [n] on, mapped to [pa] with permissions [perm]. *)
Record region := Region { r_n : Z; r_cnt : Z; r_pa : Z; r_perm : Z }.

Definition region_ok (lo : Z) (r : region) : Prop :=
  lo ≤ r_n r ∧ NUSER ≤ r_n r ∧ 0 < r_cnt r ∧ r_n r + r_cnt r ≤ 1048576 ∧ r_pa r mod 4096 = 0 ∧ 0 ≤ r_pa r ∧
  r_pa r + r_cnt r * 4096 ≤ 2 ^ 32 ∧ 0 ≤ r_perm r < 4096.

(** The entry of page [m] in a region. *)
Definition region_entry (r : region) (m : Z) : Z := entry (r_pa r + (m - r_n r) * 4096) (Z.lor (r_perm r) 1).
Definition in_region (r : region) (m : Z) : Prop := r_n r ≤ m < r_n r + r_cnt r.
#[local] Instance in_region_dec r m : Decision (in_region r m).
Proof. unfold in_region. apply _. Defined.

(** What mapping a part of the kernel leaves: entries outside [lo, hi) and the
    rest of the machine are the same. *)
Record kmapped (s s' : vm) (held : list Z) (d : Z) (ds tot : list Z) (lo hi : Z) : Prop := {
  km_inv : vinv s' held (d :: ds) tot;
  km_out m : 0 ≤ m < 1048576 → ¬ (lo ≤ m < hi) → pte s' d m = pte s d m;
  km_others : others s s' held ds
}.

Lemma kmapped_trans s s1 s2 held d ds tot lo hi :
  kmapped s s1 held d ds tot lo hi → kmapped s1 s2 held d ds tot lo hi → kmapped s s2 held d ds tot lo hi.
Proof.
  intros [V1 P1 O1] [V2 P2 O2]. split; [done| |by eapply others_trans]. intros m Hm Hn. by rewrite P2, P1.
Qed.

Lemma kmapped_wider s s' held d ds tot lo hi lo' hi' : lo' ≤ lo → hi ≤ hi' →
  kmapped s s' held d ds tot lo hi → kmapped s s' held d ds tot lo' hi'.
Proof. intros H1 H2 [V P O]. split; try done. intros m Hm Hn. apply P; [done|lia]. Qed.

Lemma mappages_loop_kernel held d ds tot perm fuel : 0 ≤ perm < 4096 → ∀ s n k pa,
  vinv s held (d :: ds) tot → NUSER ≤ n → 0 ≤ k ≤ Z.of_nat fuel → n + k < 1048576 →
  pa mod 4096 = 0 → 0 ≤ pa → pa + (k + 1) * 4096 ≤ 2 ^ 32 →
  (∀ m, n ≤ m ≤ n + k → present (pte s d m) = false) →
  ∃ r s', mappages_loop junk d (n * 4096) ((n + k) * 4096) pa perm fuel s = Ret (r, s') ∧
    kmapped s s' held d ds tot n (n + k + 1) ∧
    (r = -1 ∧ vfree s' = [] ∨ r = 0 ∧ ∀ m, n ≤ m ≤ n + k → pte s' d m = entry (pa + (m - n) * 4096) (Z.lor perm 1)).
Proof.
  intros Hperm. induction fuel as [|fuel IH]; intros s n k pa Hv Hn Hk Hnk Hal Hpa Hlt Habs; unfold NUSER in Hn.
  all: assert (n * 4096 / 4096 = n) as En by (by rewrite Z.div_mul);
    destruct (map_word_entry pa perm Hal Hperm) as (Ew & Hl & Ho); [lia|lia|];
    destruct (map_entry kend junk s held held d ds tot (n * 4096) (map_word pa perm) Hjunk Hv)
      as [[Hfull E]|(t & i & s1 & y & s' & Ewalk & Eg & Hy & Es & Hv' & Hpte & Hkept)];
    [lia|rewrite En; apply Habs; lia|rewrite Ew; unfold entry; lia
    |rewrite En; unfold moved; rewrite decide_False by (unfold NUSER; lia); done| |];
    cbn [mappages_loop].
  1, 3: erewrite M_bind_run by exact E; exists (-1), s; split; [done|]; split; [by split|by left].
  all: erewrite M_bind_run by exact Ewalk; cbn beta iota; erewrite M_bind_run by exact Eg; cbn beta;
    unfold present in Hy; rewrite Hy; erewrite M_bind_run by exact Es; cbn beta; rewrite En, Ew in Hpte;
    assert (kmapped s s' held d ds tot n (n + k + 1)) as Hkm
      by (split; [done|intros m Hm Hout; rewrite Hpte, decide_False by lia; done|by eapply kept_others]).
  - assert (k = 0) as -> by lia. rewrite Z.add_0_r, Z.eqb_refl. exists 0, s'. split; [done|]. rewrite Z.add_0_r in Hkm.
    split; [done|]. right. split; [done|]. intros m Hm. assert (m = n) as -> by lia.
    rewrite Hpte, decide_True by lia. by rewrite Z.sub_diag, Z.add_0_r.
  - destruct (decide (k = 0)) as [->|Hk0].
    { rewrite Z.add_0_r, Z.eqb_refl. exists 0, s'. split; [done|]. rewrite Z.add_0_r in Hkm.
      split; [done|]. right. split; [done|]. intros m Hm. assert (m = n) as -> by lia.
      rewrite Hpte, decide_True by lia. by rewrite Z.sub_diag, Z.add_0_r. }
    destruct (n * 4096 =? (n + k) * 4096) eqn:Eq; [apply Z.eqb_eq in Eq; lia|].
    rewrite !u32_small by (unfold PGSIZE; lia).
    replace (n * 4096 + PGSIZE) with ((n + 1) * 4096) by (unfold PGSIZE; lia).
    replace ((n + k) * 4096) with ((n + 1 + (k - 1)) * 4096) by lia.
    destruct (IH s' (n + 1) (k - 1) (pa + PGSIZE)) as (r & s2 & E & Hkm2 & Hr); unfold PGSIZE in *;
      [done|unfold NUSER; lia|lia|lia|Z.div_mod_to_equations; lia|lia|lia| |].
    { intros m Hm. rewrite Hpte, decide_False by lia. apply Habs. lia. }
    exists r, s2. split; [done|]. split.
    { eapply kmapped_trans; [done|]. eapply kmapped_wider; [| |exact Hkm2]; lia. }
    destruct Hr as [?|[-> Hr]]; [by left|right]. split; [done|]. intros m Hm.
    destruct (decide (m = n)) as [->|Hne].
    + rewrite (km_out _ _ _ _ _ _ _ _ Hkm2) by lia. rewrite Hpte, decide_True by lia. by rewrite Z.sub_diag, Z.add_0_r.
    + rewrite Hr by lia. f_equal. lia.
Qed.

(** The line of [kmap] for a region. *)
Definition kmap_line (r : region) : Z * Z * Z * Z :=
  (r_n r * 4096, r_pa r, u32 (r_pa r + r_cnt r * 4096), r_perm r).

Lemma mappages_region s held d ds tot lo r : vinv s held (d :: ds) tot → region_ok lo r →
  (∀ m, in_region r m → present (pte s d m) = false) →
  ∃ res s', mappages junk d (r_n r * 4096) (u32 (u32 (r_pa r + r_cnt r * 4096) - r_pa r)) (r_pa r) (r_perm r) s = Ret (res, s') ∧
    kmapped s s' held d ds tot (r_n r) (r_n r + r_cnt r) ∧
    (res = -1 ∧ vfree s' = [] ∨ res = 0 ∧ ∀ m, in_region r m → pte s' d m = region_entry r m).
Proof.
  intros Hv (_ & Hn & Hc & Hnc & Hal & Hpa & Hlt & Hperm) Habs. unfold NUSER in Hn. unfold mappages.
  assert (u32 (u32 (r_pa r + r_cnt r * 4096) - r_pa r) = r_cnt r * 4096) as ->.
  { replace (u32 (r_pa r + r_cnt r * 4096) - r_pa r) with (u32 (r_pa r + r_cnt r * 4096) + - r_pa r) by lia.
    rewrite u32_add_l, u32_small by lia. lia. }
  rewrite (u32_small (r_n r * 4096 + r_cnt r * 4096 - 1)) by lia. rewrite !PGROUNDDOWN_eq by lia.
  rewrite Z.div_mul by done.
  replace ((r_n r * 4096 + r_cnt r * 4096 - 1) / 4096 * 4096) with ((r_n r + (r_cnt r - 1)) * 4096)
    by (Z.div_mod_to_equations; lia).
  destruct (mappages_loop_kernel held d ds tot (r_perm r)
    (Z.to_nat (u32 ((r_n r + (r_cnt r - 1)) * 4096 - r_n r * 4096) / PGSIZE)) Hperm s (r_n r) (r_cnt r - 1) (r_pa r))
    as (res & s' & E & Hkm & Hr); [done|done| |lia|done|done|lia| |].
  - rewrite u32_small by lia. unfold PGSIZE. rewrite Z2Nat.id by (Z.div_mod_to_equations; lia).
    Z.div_mod_to_equations; lia.
  - intros m Hm. apply Habs. unfold in_region. lia.
  - exists res, s'. split; [done|]. split; [eapply kmapped_wider; [| |exact Hkm]; lia|].
    destruct Hr as [?|[-> Hr]]; [by left|right]. split; [done|]. intros m Hm. apply Hr. unfold in_region in Hm. lia.
Qed.

(** Regions in ascending order from [lo] on, and the entries they make. *)
Fixpoint regions_ok (lo : Z) (rs : list region) : Prop :=
  match rs with
  | [] => True
  | r :: rs => region_ok lo r ∧ regions_ok (r_n r + r_cnt r) rs
  end.
Fixpoint regions_entry (rs : list region) (m x : Z) : Z :=
  match rs with
  | [] => x
  | r :: rs => if decide (in_region r m) then region_entry r m else regions_entry rs m x
  end.

Lemma regions_entry_below lo rs m x : regions_ok lo rs → m < lo → regions_entry rs m x = x.
Proof.
  revert lo. induction rs as [|r rs IH]; intros lo Hok Hm; [done|]. cbn in *. destruct Hok as [[Hlo H] Hok].
  rewrite decide_False by (unfold in_region; lia). eapply IH; [done|]. lia.
Qed.

Lemma setupkvm_loop_spec held d ds tot rs : ∀ lo s, vinv s held (d :: ds) tot → regions_ok lo rs →
  (∀ m, lo ≤ m < 1048576 → present (pte s d m) = false) →
  ∃ res s', setupkvm_loop kend junk d (kmap_line <$> rs) s = Ret (res, s') ∧ others s s' held ds ∧
    ((res = 0 ∧ vinv s' held ds tot ∧ starved kend s held d ds tot 0) ∨
     (res = d ∧ vinv s' held (d :: ds) tot ∧
      ∀ m, 0 ≤ m < 1048576 → pte s' d m = regions_entry rs m (pte s d m))).
Proof.
  induction rs as [|r rs IH]; intros lo s Hv Hok Habs; cbn [fmap list_fmap setupkvm_loop kmap_line].
  { exists d, s. split; [done|]. split; [done|]. by right. }
  destruct Hok as [Hr Hok]. pose proof Hr as (Hlo & Hn & Hc & Hnc & _). unfold NUSER in Hn.
  destruct (mappages_region s held d ds tot lo r Hv Hr) as (res & s1 & E & [V1 P1 O1] & Hres).
  { intros m Hm. apply Habs. unfold in_region in Hm. lia. }
  erewrite M_bind_run by exact E. cbn beta. destruct Hres as [[-> Hfull]|[-> Hent]].
  - change (-1 <? 0) with true. cbn iota. destruct (freevm_spec kend junk Hjunk s1 held d ds tot V1) as (s2 & E2 & V2 & O2).
    exists 0, s2. erewrite M_bind_run by exact E2. split; [done|]. split; [by eapply others_trans|]. left.
    split; [done|]. split; [done|]. exists s1, []. split_and!; try done; [cbn; lia|]. intros m Hm. unfold NUSER in Hm.
    by rewrite P1 by lia.
  - change (0 <? 0) with false. cbn iota.
    destruct (IH (r_n r + r_cnt r) s1) as (res & s2 & E2 & O2 & Hres); [done|done| |].
    { intros m Hm. rewrite P1 by lia. apply Habs. lia. }
    exists res, s2. split; [done|]. split; [by eapply others_trans|].
    destruct Hres as [(-> & V2 & s3 & more & F3 & L3 & V3 & O3 & P3)|(-> & V2 & P2)]; [left|right].
    { split; [done|]. split; [done|]. exists s3, more. split_and!; try done; [by eapply others_trans|].
      intros m Hm Hp. rewrite <-(P1 m); [by apply P3|unfold NUSER in Hm; lia|unfold NUSER in Hm; lia]. }
    split; [done|]. split; [done|].
    intros m Hm. rewrite P2 by done. cbn [regions_entry]. case_decide as Hin.
    + rewrite (regions_entry_below (r_n r + r_cnt r)); [by apply Hent|done|]. unfold in_region in Hin. lia.
    + rewrite P1; [done|done|]. done.
Qed.

(** ** [setupkvm] *)

(** The end of the kernel's text is a page boundary inside physical memory
    (the linker script aligns it). *)
Context (Hdata : data mod 4096 = 0) (Hlink : KERNLINK < data < KERNBASE + PHYSTOP).

(** I/O space, text, data and memory, devices. *)
Definition kernel_regions : list region :=
  [Region 524288 256 0 PTE_W;
   Region 524544 ((data - KERNLINK) / 4096) EXTMEM 0;
   Region (data / 4096) ((KERNBASE + PHYSTOP - data) / 4096) (data - KERNBASE) PTE_W;
   Region 1040384 8192 DEVSPACE PTE_W].

Lemma kernel_regions_ok : regions_ok NUSER kernel_regions.
Proof.
  unfold kernel_regions, regions_ok, region_ok, NUSER, EXTMEM, DEVSPACE, PTE_W. cbn [r_n r_cnt r_pa r_perm].
  unfold KERNLINK, KERNBASE, PHYSTOP, EXTMEM in *. split_and!; Z.div_mod_to_equations; lia.
Qed.

Lemma kmap_lines : kmap data = kmap_line <$> kernel_regions.
Proof.
  unfold kmap, kernel_regions, kmap_line. cbn [fmap list_fmap r_n r_cnt r_pa r_perm].
  unfold V2P, KERNLINK, KERNBASE, PHYSTOP, EXTMEM in *.
  assert (u32 (data - 2147483648) = data - 2147483648) as -> by (apply u32_small; lia).
  assert (data / 4096 * 4096 = data) as -> by (Z.div_mod_to_equations; lia).
  assert (1048576 + (data - (2147483648 + 1048576)) / 4096 * 4096 = data - 2147483648) as ->
    by (Z.div_mod_to_equations; lia).
  assert (data - 2147483648 + (2147483648 + 234881024 - data) / 4096 * 4096 = 234881024) as ->
    by (Z.div_mod_to_equations; lia).
  assert (u32 (data - 2147483648) = data - 2147483648) as -> by (apply u32_small; lia).
  reflexivity.
Qed.

Lemma zeros_word i : 0 ≤ i < 1024 → word zeros i = 0.
Proof. rewrite zeros_eq. apply zero_page_word. Qed.

(** Memory that ran out has gone to the tables and user pages of one space. *)
Lemma present_count s d hi : 0 ≤ hi ≤ NUSER → (∀ m, hi ≤ m < NUSER → present (pte s d m) = false) →
  Z.of_nat (length (upages s d)) ≤ hi.
Proof.
  intros Hhi H. unfold upages. rewrite user_range_eq. unfold NUSER in *.
  replace 524288 with (hi + (524288 - hi)) by lia. rewrite seqZ_app, omap_app by lia.
  assert (omap (λ n, target (pte s d n)) (seqZ (0 + hi) (524288 - hi)) = []) as ->.
  { assert (∀ l, Forall (λ m, present (pte s d m) = false) l → omap (λ n, target (pte s d n)) l = []) as Hnil.
    { induction l as [|m l IH]; intros Hl; [done|]. apply Forall_cons in Hl as [Hm Hl]. cbn.
      unfold target at 1. rewrite Hm. by apply IH. }
    apply Hnil, Forall_forall. intros m Hm%elem_of_seqZ. apply H. lia. }
  rewrite app_nil_r. assert (∀ l, (length (omap (λ n, target (pte s d n)) l) ≤ length l)%nat) as Hlen.
  { induction l as [|m l IH]; cbn; [lia|]. destruct (target _); cbn; lia. }
  specialize (Hlen (seqZ 0 hi)). rewrite length_seqZ in Hlen. lia.
Qed.

Lemma starved_count s held d ds tot s1 more hi : vinv s held ds tot → vinv s1 (more ++ held) (d :: ds) tot →
  vfree s1 = [] → (length more ≤ 1)%nat → others s s1 held ds → 0 ≤ hi ≤ NUSER →
  (∀ m, hi ≤ m < NUSER → present (pte s1 d m) = false) → Z.of_nat (length (vfree s)) ≤ 1026 + hi.
Proof.
  intros Hv Hv1 Hf Hl Ho Hhi Hp. pose proof (present_count s1 d hi Hhi Hp) as Hu.
  assert (length (tables s1 d) ≤ 1024)%nat as Ht.
  { unfold tables. assert (∀ l, (length (omap (λ i, target (W s1 d i)) l) ≤ length l)%nat) as Hlen.
    { induction l as [|m l IH]; cbn; [lia|]. destruct (target _); cbn; lia. }
    specialize (Hlen dir_range). rewrite dir_range_eq, length_seqZ in Hlen. rewrite dir_range_eq. lia. }
  destruct (concat_owned_frame s s1 ds) as [_ E]; [intros p Hin; apply Ho; apply elem_of_app; by right|].
  pose proof (Permutation_length (vi_perm _ _ _ _ _ Hv)) as L. pose proof (Permutation_length (vi_perm _ _ _ _ _ Hv1)) as L1.
  rewrite !length_app in L, L1. rewrite Hf in L1. cbn [fmap list_fmap concat length app] in L1. rewrite length_app in L1.
  rewrite E in L1. unfold owned at 1 in L1. cbn [app length] in L1. rewrite !length_app in L1. lia.
Qed.

Lemma starved_new s s2 held d ds tot : vinv s held ds tot → others s s2 held ds →
  (∀ m, 0 ≤ m < NUSER → present (pte s2 d m) = false) → starved kend s2 held d ds tot 0 →
  Z.of_nat (length (vfree s)) ≤ 1026.
Proof.
  intros Hv Ho Hp (s1 & more & H1 & H2 & H3 & H4 & H5).
  change 1026 with (1026 + 0). eapply starved_count; [done|done|done|done|by eapply others_trans|unfold NUSER; lia|].
  intros m Hm. destruct (present (pte s1 d m)) eqn:E; [|done]. specialize (H5 m Hm E). by rewrite Hp in H5.
Qed.

(** The entries of a new directory. *)
Definition kernel_entry (m : Z) : Z := regions_entry kernel_regions m 0.

Lemma setupkvm_spec s held ds tot : vinv s held ds tot →
  ∃ r s', setupkvm kend data junk s = Ret (r, s') ∧ others s s' held ds ∧
    ((r = 0 ∧ vinv s' held ds tot ∧ Z.of_nat (length (vfree s)) ≤ 1026) ∨
     (r ≠ 0 ∧ vinv s' held (r :: ds) tot ∧ ∀ m, 0 ≤ m < 1048576 → pte s' r m = kernel_entry m)).
Proof.
  intros Hv. unfold setupkvm.
  destruct (fresh_page kend junk Hjunk s held ds tot zeros Hv zeros_data)
    as [[Hfull E]|(v & s1 & s2 & Hnz & Ek & Es & Hv2 & Hzv & Hnot & Hfr)].
  { exists 0, s. erewrite M_bind_run by exact E. split; [done|]. split; [done|]. left. rewrite Hfull. cbn. by split_and!. }
  erewrite M_bind_run by exact Ek. cbn beta. apply Z.eqb_neq in Hnz as Hnz'. rewrite Hnz', zero_page_zeros.
  erewrite M_bind_run by exact Es. change (DEVSPACE <? P2V PHYSTOP) with false. cbn iota. rewrite kmap_lines.
  assert (∀ i, 0 ≤ i < 1024 → W s2 v i = 0) as Hz by (intros i Hi; unfold W; rewrite Hzv; by apply zeros_word).
  destruct (new_dir kend s2 v held ds tot Hv2 Hz) as [Hv3 Hpte].
  assert (others s s2 held ds) as O2 by (intros p Hin; apply Hfr; by intros ->).
  destruct (setupkvm_loop_spec held v ds tot kernel_regions NUSER s2 Hv3 kernel_regions_ok) as (r & s' & E & O & Hres).
  { intros m Hm. unfold NUSER in Hm. by rewrite Hpte by lia. }
  exists r, s'. split; [done|]. split; [by eapply others_trans|].
  destruct Hres as [(-> & V & Hst)|(-> & V & P)]; [left|right]; (split; [done|]); (split; [done|]).
  - eapply starved_new; [done|exact O2| |exact Hst]. intros m Hm. by rewrite Hpte by (unfold NUSER in Hm; lia).
  - intros m Hm. by rewrite P, Hpte.
Qed.

(** ** [copyuvm] *)
Lemma flags_spec x : PTE_FLAGS x = x mod 4096 ∧ 0 ≤ PTE_FLAGS x < 4096 ∧ (present x = true → Z.lor (PTE_FLAGS x) 1 = PTE_FLAGS x).
Proof.
  rewrite PTE_FLAGS_eq. split; [done|]. split; [by apply Z.mod_pos_bound|]. rewrite present_odd. intros Ho.
  apply Z.bits_inj'. intros k Hk. rewrite Z.lor_spec. destruct (decide (k = 0)) as [->|Hne].
  - change 4096 with (2 ^ 12). rewrite Z.mod_pow2_bits_low by lia. rewrite Z.bit0_odd, Ho. done.
  - rewrite (Z.bits_above_log2 1) by (cbn; lia). by rewrite orb_false_r.
Qed.

Lemma copyuvm_loop_spec held pg d ds tot sz fuel : sz ≤ KERNBASE → ∀ s n,
  vinv s held (d :: pg :: ds) tot → 0 ≤ n → npages sz - n ≤ Z.of_nat fuel →
  (∀ m, n ≤ m < npages sz → present (pte s pg m) = true) →
  (∀ m, n ≤ m < npages sz → present (pte s d m) = false) →
  ∃ ok s', copyuvm_loop junk pg d (n * 4096) sz fuel s = Ret (ok, s') ∧
    if (ok : bool) then
      becomes kend s s' held d (pg :: ds) tot (λ m, if decide (n ≤ m < npages sz) then uspace s pg m else uspace s d m)
    else ∃ lost, vinv s' (lost ++ held) (d :: pg :: ds) tot ∧ (length lost ≤ 1)%nat ∧ others s s' held (pg :: ds).
Proof.
  intros Hsz. assert (npages sz ≤ NUSER) as HN by (unfold npages, NUSER, KERNBASE in *; Z.div_mod_to_equations; lia).
  unfold NUSER in HN.
  induction fuel as [|fuel IH]; intros s n Hv Hn Hfuel Hpg Hd; cbn [copyuvm_loop];
    (destruct (n * 4096 <? sz) eqn:Hlt; [apply Z.ltb_lt, npages_lt in Hlt|apply Z.ltb_ge in Hlt]).
  1: lia.
  1, 3: exists true, s; split; [done|]; split; try done; intros m Hm;
    rewrite decide_False; [done|]; pose proof (npages_lt n sz); lia.
  assert (n * 4096 / 4096 = n) as En by by rewrite Z.div_mul.
  assert (0 ≤ n < 1048576) as Hn' by lia. assert (0 ≤ n < NUSER) as Hnu by (unfold NUSER; lia).
  destruct (page_index n Hn') as (Hi & Hj & _).
  specialize (Hpg n ltac:(lia)) as Hpn. assert (present (W s pg (n / 1024)) = true) as Hpt.
  { destruct (present (W s pg (n / 1024))) eqn:E; [done|]. unfold pte in Hpn. by rewrite E in Hpn. }
  assert (vinv s held (pg :: d :: ds) tot) as Hv' by (eapply vinv_ds; [apply Permutation_swap|done]).
  pose proof (dir_facts_of _ _ _ _ _ _ Hv') as Hf.
  erewrite M_bind_run.
  2: { apply (walk_present kend junk s held pg (pg :: d :: ds) tot); [done|set_solver|lia|by rewrite En]. }
  rewrite En. cbn beta iota.
  destruct (get_word_run s (tab s pg (n / 1024)) (n mod 1024)) as [Eg _];
    [by apply (df_data _ _ _ _ _ Hf), tables_owned, elem_of_tables|done|].
  erewrite M_bind_run by exact Eg. cbn beta.
  assert (W s (tab s pg (n / 1024)) (n mod 1024) = pte s pg n) as -> by (unfold pte; by rewrite Hpt).
  pose proof Hpn as Hpn'. unfold present in Hpn'. apply negb_true_iff in Hpn'. rewrite Hpn'.
  set (src := P2V (PTE_ADDR (pte s pg n))).
  assert (src ∈ owned s pg) as Hsrc by by apply upages_owned, elem_of_upages.
  destruct (df_data _ _ _ _ _ Hf src Hsrc) as (x & Hx & Hxd).
  destruct (flags_spec (pte s pg n)) as (_ & Hfl & Hlor).
  destruct (add_page kend junk Hjunk s held d (pg :: ds) tot n x (PTE_FLAGS (pte s pg n)))
    as [[_ Ek]|(v & s1 & s2 & Hnz & Ek & Es & Hfr1 & Hmap)]; [done|done|apply Hd; lia|done|done| |].
  { erewrite M_bind_run by exact Ek. exists false, s. split; [done|]. exists []. split; [done|]. cbn. split; [lia|done]. }
  erewrite M_bind_run by exact Ek. cbn beta. apply Z.eqb_neq in Hnz. rewrite Hnz.
  erewrite M_bind_run.
  2: { unfold page. rewrite Hfr1, Hx; [done|]. apply elem_of_app. right. eapply owned_concat; [|done]. set_solver. }
  erewrite M_bind_run by exact Es. destruct Hmap as [(_ & Em & Hv2 & _ & _ & Hoth)|(s3 & Em & Hb & Hpte3)];
    erewrite M_bind_run by exact Em; cbn beta.
  - change (-1 <? 0) with true. exists false, s2. split; [done|]. exists [v]. split; [done|]. cbn. split; [lia|done].
  - change (0 <? 0) with false. cbn iota. rewrite u32_small by (unfold PGSIZE; lia).
    replace (n * 4096 + PGSIZE) with ((n + 1) * 4096) by (unfold PGSIZE; lia).
    destruct (others_same s s3 held (pg :: ds) pg) as [[_ Hptepg] Huspg]; [by apply Hb|set_solver|].
    destruct (IH s3 (n + 1)) as (ok & s' & E & Hres); [by apply Hb|lia|lia| | |].
    { intros m Hm. rewrite Hptepg by lia. apply Hpg. lia. }
    { intros m Hm. rewrite Hpte3 by lia. apply Hd. lia. }
    exists ok, s'. split; [done|]. destruct ok.
    + eapply becomes_ext; [|by eapply becomes_trans]. intros m Hm. cbn beta.
      destruct (decide (m = n)) as [->|Hne].
      * rewrite decide_False, decide_True by lia. rewrite (be_user _ _ _ _ _ _ _ _ Hb), decide_True by done.
        unfold uspace. rewrite Hpn. fold src. rewrite Hx. cbn. by rewrite Hlor.
      * rewrite (be_user _ _ _ _ _ _ _ _ Hb) by done. rewrite (decide_False (P := m = n)) by done.
        rewrite Huspg by done. repeat case_decide; try done; lia.
    + destruct Hres as (lost & Vl & Hl & Ol). exists lost. split; [done|]. split; [done|].
      eapply others_trans; [exact (be_others _ _ _ _ _ _ _ _ Hb)|done].
Qed.

Lemma kernel_entry_user m : m < NUSER → kernel_entry m = 0.
Proof. apply regions_entry_below, kernel_regions_ok. Qed.

(** The child has the pages of the parent below [sz]; when memory runs out
    there is no child, and at most one page is lost. *)
Lemma copyuvm_spec s held pg ds tot sz : vinv s held (pg :: ds) tot → 0 ≤ sz ≤ KERNBASE →
  (∀ m, 0 ≤ m < npages sz → present (pte s pg m) = true) →
  ∃ r s', copyuvm kend data junk pg sz s = Ret (r, s') ∧ others s s' held (pg :: ds) ∧
    ((r ≠ 0 ∧ vinv s' held (r :: pg :: ds) tot ∧
      (∀ m, 0 ≤ m < NUSER → uspace s' r m = if decide (m < npages sz) then uspace s pg m else None) ∧
      (∀ m, NUSER ≤ m < 1048576 → pte s' r m = kernel_entry m)) ∨
     (r = 0 ∧ ∃ lost, (length lost ≤ 1)%nat ∧ vinv s' (lost ++ held) (pg :: ds) tot)).
Proof.
  intros Hv Hsz Hpres. unfold copyuvm. assert (npages sz ≤ NUSER) as HN.
  { unfold npages, NUSER, KERNBASE in *. Z.div_mod_to_equations; lia. }
  destruct (setupkvm_spec s held (pg :: ds) tot Hv) as (d & s1 & E1 & O1 & [(-> & V1 & _)|(Hnz & V1 & P1)]).
  { exists 0, s1. erewrite M_bind_run by exact E1. split; [done|]. split; [done|]. right. split; [done|].
    exists []. split; [cbn; lia|done]. }
  erewrite M_bind_run by exact E1. cbn beta. apply Z.eqb_neq in Hnz as Hnz'. rewrite Hnz'.
  destruct (others_same s s1 held (pg :: ds) pg O1) as [[_ Hptepg] Huspg]; [set_solver|].
  assert (∀ m, 0 ≤ m < NUSER → present (pte s1 d m) = false) as Habs.
  { intros m Hm. rewrite P1 by (unfold NUSER in Hm; lia). by rewrite kernel_entry_user by lia. }
  unfold NUSER in HN.
  destruct (copyuvm_loop_spec held pg d ds tot sz (Z.to_nat (sz / PGSIZE + 1)) (proj2 Hsz) s1 0)
    as (ok & s2 & E2 & Hres); [done|done| | | |].
  - unfold npages, PGSIZE. rewrite Z2Nat.id by (Z.div_mod_to_equations; lia). Z.div_mod_to_equations; lia.
  - intros m Hm. rewrite Hptepg by lia. apply Hpres. lia.
  - intros m Hm. apply Habs. unfold NUSER. lia.
  - rewrite Z.mul_0_l in E2. erewrite M_bind_run by exact E2. cbn beta. destruct ok.
    + destruct Hres as [V2 U2 K2 O2]. exists d, s2. split; [done|]. split; [by eapply others_trans|]. left.
      split; [done|]. split; [done|]. split.
      * intros m Hm. rewrite U2 by done. rewrite Huspg by done.
        assert (uspace s1 d m = None) as -> by (unfold uspace; by rewrite Habs). repeat case_decide; try done; lia.
      * intros m Hm. rewrite K2 by done. apply P1. unfold NUSER in Hm. lia.
    + destruct Hres as (lost & V2 & Hl & O2).
      destruct (freevm_spec kend junk Hjunk s2 (lost ++ held) d (pg :: ds) tot V2) as (s3 & E3 & V3 & O3).
      exists 0, s3. erewrite M_bind_run by exact E3. split; [done|]. split.
      * eapply others_trans; [done|]. eapply others_trans; [done|]. eapply others_sub; [|done]. set_solver.
      * right. split; [done|]. by exists lost.
Qed.
End kernel.
