(* ===== verification/VmSafe.v ===== *)
(** * Address spaces over time ([vm.c])

    The kernel creates, grows, shrinks, copies and destroys address spaces in
    any order.  A state lists the spaces with their sizes and counts the calls
    of [copyuvm] that failed. *)

From stdpp Require Import base numbers list gmap sets strings relations.
From S2P Require Import Prelude Kalloc Fs FsInode Vm VmInv VmOps VmKernel.

Open Scope Z_scope.

Record machine := Machine { memory : vm; spaces : list (Z * Z); failed : nat }.

Section machine.
Context (kend data : Z) (junk : Z → list Z).

Inductive vstep : machine → machine → Prop :=
  | vs_new s l k r s' :
      setupkvm kend data junk s = Ret (r, s') →
      vstep (Machine s l k) (Machine s' (if r =? 0 then l else (r, 0) :: l) k)
  | vs_grow s l1 d sz l2 k newsz r s' :
      0 ≤ newsz < 2 ^ 32 → allocuvm kend junk d sz newsz s = Ret (r, s') →
      vstep (Machine s (l1 ++ (d, sz) :: l2) k) (Machine s' (l1 ++ (d, if r =? 0 then sz else r) :: l2) k)
  | vs_shrink s l1 d sz l2 k newsz r s' :
      0 ≤ newsz → deallocuvm kend junk d sz newsz s = Ret (r, s') →
      vstep (Machine s (l1 ++ (d, sz) :: l2) k) (Machine s' (l1 ++ (d, r) :: l2) k)
  | vs_copy s l1 d sz l2 k r s' :
      copyuvm kend data junk d sz s = Ret (r, s') →
      vstep (Machine s (l1 ++ (d, sz) :: l2) k)
        (Machine s' (if r =? 0 then l1 ++ (d, sz) :: l2 else (r, sz) :: l1 ++ (d, sz) :: l2)
          (if r =? 0 then S k else k))
  | vs_free s l1 d sz l2 k s' :
      freevm kend junk d s = Ret (tt, s') →
      vstep (Machine s (l1 ++ (d, sz) :: l2) k) (Machine s' (l1 ++ l2) k).

(** The kernel at boot: every page is free. *)
Definition boot (l : list Z) : machine := Machine (Vm ∅ l) [] 0.

(** A space has exactly the pages below its size. *)
Definition sized (s : vm) (x : Z * Z) : Prop :=
  0 ≤ x.2 ≤ KERNBASE ∧ ∀ m, 0 ≤ m < NUSER → is_Some (uspace s x.1 m) ↔ m < npages x.2.

Definition minv (tot : list Z) (σ : machine) : Prop :=
  ∃ lost, (length lost ≤ failed σ)%nat ∧ vinv kend (memory σ) lost (spaces σ).*1 tot ∧
    Forall (sized (memory σ)) (spaces σ).

(** No operation on one of the spaces panics or leaves the memory it owns. *)
Definition progress (σ : machine) : Prop :=
  (∃ r s', setupkvm kend data junk (memory σ) = Ret (r, s')) ∧
  ∀ d sz, (d, sz) ∈ spaces σ →
    (∀ newsz, 0 ≤ newsz < 2 ^ 32 → ∃ r s', allocuvm kend junk d sz newsz (memory σ) = Ret (r, s')) ∧
    (∀ newsz, 0 ≤ newsz → ∃ r s', deallocuvm kend junk d sz newsz (memory σ) = Ret (r, s')) ∧
    (∃ r s', copyuvm kend data junk d sz (memory σ) = Ret (r, s')) ∧
    (∃ s', freevm kend junk d (memory σ) = Ret (tt, s')).

Context (Hjunk : junk_ok junk) (Hdata : data mod 4096 = 0) (Hlink : KERNLINK < data < KERNBASE + PHYSTOP).

Lemma absent_of s held ds tot d sz m : vinv kend s held ds tot → d ∈ ds → sized s (d, sz) → 0 ≤ m < NUSER →
  present (pte s d m) = true ↔ m < npages sz.
Proof. intros Hv Hd [_ Hs] Hm. rewrite <- (uspace_present kend s held ds tot) by done. by apply Hs. Qed.

Lemma sized_others s s' held l : others s s' held l.*1 → Forall (sized s) l → Forall (sized s') l.
Proof.
  intros Ho Hl. apply Forall_forall. intros [e sze] He. pose proof (proj1 (Forall_forall _ _) Hl _ He) as [Hr Hs].
  split; [done|]. intros m Hm. destruct (others_same s s' held l.*1 e Ho) as [_ Hus].
  - apply list_elem_of_fmap. by exists (e, sze).
  - rewrite Hus by done. by apply Hs.
Qed.

Lemma focus (l1 l2 : list (Z * Z)) d sz : (l1 ++ (d, sz) :: l2).*1 ≡ₚ d :: (l1 ++ l2).*1.
Proof. rewrite !fmap_app. cbn. by rewrite <- Permutation_middle. Qed.

(** A space in focus: the invariant with it in front, and the rest. *)
Lemma minv_focus tot s l1 d sz l2 k : minv tot (Machine s (l1 ++ (d, sz) :: l2) k) →
  ∃ lost, (length lost ≤ k)%nat ∧ vinv kend s lost (d :: (l1 ++ l2).*1) tot ∧ sized s (d, sz) ∧
    Forall (sized s) (l1 ++ l2).
Proof.
  intros (lost & Hl & Hv & Hs). cbn in *. exists lost. split; [done|]. split; [by eapply vinv_ds; [apply focus|]|].
  rewrite Forall_app, Forall_cons in Hs. rewrite Forall_app. tauto.
Qed.

Lemma minv_refocus tot s l1 d sz l2 k lost : (length lost ≤ k)%nat → vinv kend s lost (d :: (l1 ++ l2).*1) tot →
  sized s (d, sz) → Forall (sized s) (l1 ++ l2) → minv tot (Machine s (l1 ++ (d, sz) :: l2) k).
Proof.
  intros Hl Hv Hd Hs. exists lost. cbn. split; [done|]. split; [eapply vinv_ds; [symmetry; apply focus|done]|].
  rewrite Forall_app in Hs. rewrite Forall_app, Forall_cons. tauto.
Qed.

(** [allocuvm] and [deallocuvm] on a space of a given size. *)
Lemma grow_run s lost d ds tot sz newsz : vinv kend s lost (d :: ds) tot → sized s (d, sz) → 0 ≤ newsz < 2 ^ 32 →
  ∃ r s', allocuvm kend junk d sz newsz s = Ret (r, s') ∧ vinv kend s' lost (d :: ds) tot ∧ others s s' lost ds ∧
    sized s' (d, if r =? 0 then sz else r).
Proof.
  intros Hv Hs Hnew. pose proof Hs as [Hr Hu]. cbn in Hr.
  assert (allocuvm kend junk d sz newsz s = Ret (0, s) ∨ allocuvm kend junk d sz newsz s = Ret (sz, s) ∨
    (sz ≤ newsz < KERNBASE)) as [E|[E|Hle]].
  { unfold allocuvm. case_if; [by left|]. case_if; [by right; left|]. right. right. lia. }
  - exists 0, s. done.
  - exists sz, s. split; [done|]. split; [done|]. split; [done|]. by destruct (sz =? 0).
  - destruct (allocuvm_spec kend junk Hjunk s lost d ds tot sz newsz) as (ok & s' & E & [V U K O] & _); [done|lia|lia| |].
    { intros m Hm. apply not_true_is_false. rewrite (absent_of s lost (d :: ds) tot d sz m Hv);
        [lia|set_solver|done|]. unfold npages, NUSER, KERNBASE in *. Z.div_mod_to_equations; lia. }
    exists (if ok then newsz else 0), s'. split; [done|]. split; [done|]. split; [done|].
    assert (sz = 0 ∧ newsz = 0 ∨ newsz ≠ 0) as Hz by lia. split; cbn [fst snd].
    + destruct ok; case_if; lia.
    + intros m Hm. rewrite U by done. specialize (Hu m Hm). cbn in Hu.
      assert (npages sz ≤ npages newsz) by (unfold npages; Z.div_mod_to_equations; lia).
      destruct ok; [|done]. destruct Hz as [[-> ->]|Hz]; [rewrite decide_False by lia; done|].
      apply Z.eqb_neq in Hz. rewrite Hz. case_decide as Hc; [split; [lia|by eexists]|]. rewrite Hu. lia.
Qed.

Lemma shrink_run s lost d ds tot sz newsz : vinv kend s lost (d :: ds) tot → sized s (d, sz) → 0 ≤ newsz →
  ∃ r s', deallocuvm kend junk d sz newsz s = Ret (r, s') ∧ vinv kend s' lost (d :: ds) tot ∧ others s s' lost ds ∧
    sized s' (d, r).
Proof.
  intros Hv [Hr Hu] Hnew. cbn in Hr, Hu.
  destruct (deallocuvm_spec kend junk Hjunk s lost d ds tot sz newsz) as (s' & E & [V U K O] & _); [done..|].
  eexists _, s'. split; [exact E|]. split; [done|]. split; [done|]. split; cbn [fst snd].
  - case_if; lia.
  - intros m Hm. rewrite U by done. specialize (Hu m Hm). case_decide as Hc.
    + destruct (sz <=? newsz) eqn:Hle; bool_to_prop; [unfold npages in Hc; Z.div_mod_to_equations; lia|].
      split; [by intros []|lia].
    + rewrite Hu. destruct (sz <=? newsz) eqn:Hle; bool_to_prop; [done|].
      assert (npages newsz ≤ npages sz) by (unfold npages; Z.div_mod_to_equations; lia). lia.
Qed.

Lemma copy_run s lost d ds tot sz : vinv kend s lost (d :: ds) tot → sized s (d, sz) →
  ∃ r s', copyuvm kend data junk d sz s = Ret (r, s') ∧ others s s' lost (d :: ds) ∧
    if r =? 0 then ∃ more, (length more ≤ 1)%nat ∧ vinv kend s' (more ++ lost) (d :: ds) tot
    else vinv kend s' lost (r :: d :: ds) tot ∧ sized s' (r, sz).
Proof.
  intros Hv Hs. pose proof Hs as [Hr Hu]. cbn in Hr, Hu.
  destruct (copyuvm_spec kend data junk Hjunk Hdata Hlink s lost d ds tot sz Hv Hr)
    as (r & s' & E & O & [(Hnz & V & U & _)|(-> & more & Hm & V)]).
  - intros m Hm. apply (absent_of s lost (d :: ds) tot d sz m Hv); [set_solver|done| |lia].
    unfold npages, NUSER, KERNBASE in *. Z.div_mod_to_equations; lia.
  - exists r, s'. split; [done|]. split; [done|]. apply Z.eqb_neq in Hnz. rewrite Hnz. split; [done|]. split; [done|].
    intros m Hm. cbn [fst snd]. rewrite U by done. specialize (Hu m Hm).
    case_decide as Hc; [by rewrite Hu|]. split; [by intros []|done].
  - exists 0, s'. split; [done|]. split; [done|]. cbn. eauto.
Qed.

Lemma vstep_inv tot σ σ' : vstep σ σ' → minv tot σ → minv tot σ'.
Proof.
  destruct 1 as [s l k r s' E|s l1 d sz l2 k newsz r s' Hnew E|s l1 d sz l2 k newsz r s' Hnew E|s l1 d sz l2 k r s' E|s l1 d sz l2 k s' E];
    intros Hinv.
  - destruct Hinv as (lost & Hl & Hv & Hs). cbn in *.
    destruct (setupkvm_spec kend data junk Hjunk Hdata Hlink s lost l.*1 tot Hv) as (r' & s2 & E' & O & Hres).
    rewrite E in E'. injection E' as <- <-. pose proof (sized_others s s' lost l O Hs) as Hs'.
    destruct Hres as [(-> & V & _)|(Hnz & V & P)]; [by exists lost|]. apply Z.eqb_neq in Hnz. rewrite Hnz. exists lost. cbn.
    split; [done|]. split; [done|]. constructor; [|done]. split; cbn [fst snd]; [unfold KERNBASE; lia|].
    intros m Hm. rewrite (uspace_present kend s' lost (r :: l.*1) tot) by (done || set_solver).
    rewrite P by (unfold NUSER in Hm; lia). rewrite (kernel_entry_user data Hdata Hlink) by lia. cbn. split; [done|].
    unfold npages. Z.div_mod_to_equations; lia.
  - apply minv_focus in Hinv as (lost & Hl & Hv & Hd & Hs).
    destruct (grow_run s lost d _ tot sz newsz Hv Hd Hnew) as (r' & s2 & E' & V & O & Hd').
    rewrite E in E'. injection E' as <- <-. eapply minv_refocus; try done. by eapply sized_others.
  - apply minv_focus in Hinv as (lost & Hl & Hv & Hd & Hs).
    destruct (shrink_run s lost d _ tot sz newsz Hv Hd Hnew) as (r' & s2 & E' & V & O & Hd').
    rewrite E in E'. injection E' as <- <-. eapply minv_refocus; try done. by eapply sized_others.
  - apply minv_focus in Hinv as (lost & Hl & Hv & Hd & Hs).
    destruct (copy_run s lost d _ tot sz Hv Hd) as (r' & s2 & E' & O & Hres).
    rewrite E in E'. injection E' as <- <-.
    assert (Forall (sized s') ((d, sz) :: l1 ++ l2)) as Hs' by (eapply sized_others; [done|by constructor]).
    apply Forall_cons in Hs' as [Hd' Hs']. destruct (r =? 0).
    + destruct Hres as (more & Hm & V). eapply minv_refocus; [|done|done|done]. rewrite length_app. lia.
    + destruct Hres as [V Hr]. apply (minv_refocus tot s' [] r sz (l1 ++ (d, sz) :: l2) k lost); [done| |done|].
      * eapply vinv_ds; [|exact V]. cbn. constructor. symmetry. apply focus.
      * cbn. rewrite Forall_app in Hs'. rewrite Forall_app, Forall_cons. tauto.
  - apply minv_focus in Hinv as (lost & Hl & Hv & Hd & Hs).
    destruct (freevm_spec kend junk Hjunk s lost d _ tot Hv) as (s2 & E' & V & O).
    rewrite E in E'. injection E' as <-. exists lost. cbn. split; [done|]. split; [done|]. by eapply sized_others.
Qed.

Lemma minv_progress tot σ : minv tot σ → progress σ.
Proof.
  intros Hinv. split.
  - destruct Hinv as (lost & Hl & Hv & Hs).
    destruct (setupkvm_spec kend data junk Hjunk Hdata Hlink _ lost _ tot Hv) as (r & s' & E & _). eauto.
  - intros d sz Hin. destruct σ as [s l k]. cbn in *. apply list_elem_of_split in Hin as (l1 & l2 & ->).
    apply minv_focus in Hinv as (lost & Hl & Hv & Hd & Hs). split_and!.
    + intros newsz Hn. destruct (grow_run s lost d _ tot sz newsz Hv Hd Hn) as (r & s' & E & _). eauto.
    + intros newsz Hn. destruct (shrink_run s lost d _ tot sz newsz Hv Hd Hn) as (r & s' & E & _). eauto.
    + destruct (copy_run s lost d _ tot sz Hv Hd) as (r & s' & E & _). eauto.
    + destruct (freevm_spec kend junk Hjunk s lost d _ tot Hv) as (s' & E & _). eauto.
Qed.

Lemma boot_inv l : NoDup l → Forall (page_ok kend) l → minv l (boot l).
Proof.
  intros Hnd Hok. exists []. cbn. split; [done|]. split; [|done]. split; cbn; try done.
  - by rewrite app_nil_r.
  - by apply Forall_forall.
  - by intros p Hp%elem_of_nil.
Qed.

Lemma reachable_vinv l σ : NoDup l → Forall (page_ok kend) l → rtc vstep (boot l) σ → minv l σ.
Proof.
  intros Hnd Hok Hr. pose proof (boot_inv l Hnd Hok) as Hb. clear Hnd Hok.
  induction Hr; [done|]. eauto using vstep_inv.
Qed.


(** C17. [fork] copies memory: in every state that satisfies the invariant (all
    reachable ones do) [copyuvm] either returns a new address space whose user
    pages below the size have the flags and the bytes of the parent's, with no
    other user page and with the kernel mappings of [kmap]; or it returns 0.  In
    both cases the parent and every other space keep their pages and contents. *)
Theorem copyuvm_correct (l : list Z) (σ : machine) (d sz : Z) (Hinv : minv l σ) (Hin : (d, sz) ∈ spaces σ) :
  ∃ r s', copyuvm kend data junk d sz (memory σ) = Ret (r, s') ∧
    (∀ e sze m, (e, sze) ∈ spaces σ → 0 ≤ m < NUSER → uspace s' e m = uspace (memory σ) e m) ∧
    (r ≠ 0 →
      (∀ m, 0 ≤ m < NUSER → uspace s' r m = if decide (m < npages sz) then uspace (memory σ) d m else None) ∧
      (∀ m, NUSER ≤ m < 1048576 → pte s' r m = kernel_entry data m)).
Proof.
  destruct σ as [s sp k]. cbn in *.
  apply list_elem_of_split in Hin as (l1 & l2 & ->).
  apply minv_focus in Hinv as (lost & Hl & Hv & [Hsz Hu] & Hs). cbn in Hsz, Hu.
  destruct (copyuvm_spec kend data junk Hjunk Hdata Hlink s lost d (l1 ++ l2).*1 l sz Hv Hsz)
    as (r & s' & E & O & Hres).
  { intros m Hm. apply (absent_of s lost (d :: (l1 ++ l2).*1) l d sz m Hv); [set_solver|done| |lia].
    unfold npages, NUSER, KERNBASE in *. Z.div_mod_to_equations; lia. }
  exists r, s'. split; [done|]. split.
  - intros e sze m He Hm. apply (others_same s s' lost (d :: (l1 ++ l2).*1) e O); [|done].
    rewrite <- (focus l1 l2 d sz). apply list_elem_of_fmap. by exists (e, sze).
  - intros Hnz. destruct Hres as [(_ & _ & U & K)|[? _]]; [done|by destruct Hnz].
Qed.
End machine.

(** ** Examples *)
Definition demo_kend : Z := KERNBASE + 2097152.
Definition demo_data : Z := KERNBASE + 1081344.
Definition demo_junk (p : Z) : list Z := replicate (Z.to_nat PGSIZE) 1.
Definition demo_pages : list Z := [KERNBASE + 4194304; KERNBASE + 4198400].

Lemma demo_junk_ok : junk_ok demo_junk.
Proof. intros p. split; [apply length_replicate|]. apply Forall_replicate. lia. Qed.

Lemma demo_pages_ok : NoDup demo_pages ∧ Forall (page_ok demo_kend) demo_pages.
Proof.
  split; [apply (bool_decide_unpack (NoDup demo_pages)); vm_compute; exact I|].
  unfold demo_pages, page_ok, demo_kend. repeat constructor; vm_compute; done.
Qed.

Lemma demo_data_ok : demo_data mod 4096 = 0 ∧ KERNLINK < demo_data < KERNBASE + PHYSTOP.
Proof. split; [vm_compute; reflexivity|split; vm_compute; reflexivity]. Qed.

(** With two pages there is no room for a new address space. *)
Lemma demo_new : setupkvm demo_kend demo_data demo_junk (Vm ∅ demo_pages) =
  Ret (0, Vm ∅ demo_pages).
Proof. vm_compute. reflexivity. Qed.


(** An address space with a directory and one user page. *)
Definition demo_dir : Z := KERNBASE + 4194304.
Definition demo_empty : vm := Vm {[demo_dir := replicate (Z.to_nat PGSIZE) 0]} [KERNBASE + 4198400; KERNBASE + 4202496].
Definition demo_tot : list Z := [KERNBASE + 4198400; KERNBASE + 4202496; demo_dir].
Definition demo_space : vm :=
  match allocuvm demo_kend demo_junk demo_dir 0 4096 demo_empty with Ret (_, s) => s | _ => demo_empty end.

Lemma demo_alloc : allocuvm demo_kend demo_junk demo_dir 0 4096 demo_empty = Ret (4096, demo_space).
Proof. vm_compute. reflexivity. Qed.

Lemma demo_empty_inv : vinv demo_kend demo_empty [] [demo_dir] demo_tot ∧
  ∀ m, 0 ≤ m < 1048576 → pte demo_empty demo_dir m = 0.
Proof.
  apply new_dir.
  - split; cbn [vfree vpages demo_empty].
    + by apply reflexive_eq.
    + apply (bool_decide_unpack (NoDup demo_tot)). vm_compute. exact I.
    + apply Forall_forall. unfold demo_tot, page_ok. repeat constructor; vm_compute; done.
    + intros p Hp. apply lookup_singleton_None. intros <-.
      apply (bool_decide_unpack (demo_dir ∉ [KERNBASE + 4198400; KERNBASE + 4202496])) in Hp; [done|]. vm_compute. exact I.
    + intros p [->|Hp%elem_of_nil]%elem_of_cons; [|done]. eexists. split; [apply lookup_singleton_eq|apply zero_page_data].
  - intros i Hi. unfold W, demo_empty. cbn [vpages]. rewrite lookup_singleton_eq. by apply zero_page_word.
Qed.

Lemma demo_inv : minv demo_kend demo_tot (Machine demo_space [(demo_dir, 4096)] 0).
Proof.
  destruct demo_empty_inv as [Hv Hz].
  destruct (grow_run demo_kend demo_data demo_junk demo_junk_ok (proj1 demo_data_ok) (proj2 demo_data_ok) demo_empty [] demo_dir [] demo_tot 0 4096) as (r & s' & E & V & _ & Hs).
  - exact Hv.
  - split; [cbn; unfold KERNBASE; lia|]. intros m Hm. cbn [fst snd]. unfold uspace.
    rewrite Hz by (unfold NUSER in Hm; lia). cbn. split; [by intros []|]. unfold npages. Z.div_mod_to_equations; lia.
  - lia.
  - rewrite demo_alloc in E. injection E as <- <-. exists []. split; [cbn; lia|]. split; [exact V|].
    constructor; [exact Hs|constructor].
Qed.

Lemma copyuvm_correct_witness : ∃ r s', copyuvm demo_kend demo_data demo_junk demo_dir 4096 demo_space = Ret (r, s') ∧
  ∀ m, 0 ≤ m < NUSER → uspace s' demo_dir m = uspace demo_space demo_dir m.
Proof.
  destruct demo_data_ok as [Hd Hl].
  destruct (copyuvm_correct demo_kend demo_data demo_junk demo_junk_ok Hd Hl demo_tot
    (Machine demo_space [(demo_dir, 4096)] 0) demo_dir 4096 demo_inv) as (r & s' & E & Hk & _).
  - by apply elem_of_cons; left.
  - exists r, s'. split; [exact E|]. intros m Hm. exact (Hk demo_dir 4096 m ltac:(by apply elem_of_cons; left) Hm).
Defined.

(** The page a failing [copyuvm] loses: the child's directory has no table and
    one page is free; the copy takes it, finds no memory for the table and
    leaves the loop with the page neither free nor in an address space. *)
Definition demo_child : Z := KERNBASE + 4206592.
Definition demo_last : Z := KERNBASE + 4210688.
Definition demo_full : vm :=
  Vm (<[demo_child := replicate (Z.to_nat PGSIZE) 0]> (vpages demo_space)) [demo_last].

Lemma copyuvm_loses_page :
  match copyuvm_loop demo_junk demo_dir demo_child 0 4096 1 demo_full with
  | Ret (ok, s) => ok = false ∧ vfree s = [] ∧ bool_decide (is_Some (vpages s !! demo_last)) = true ∧
      W s demo_child 0 = 0 ∧ pte s demo_dir 0 = pte demo_space demo_dir 0
  | _ => False
  end.
Proof. vm_compute. split_and!; reflexivity. Qed.
