(* ===== verification/Exec.v ===== *)
(** * Program loading (xv6 [exec.c], [elf.h])

    [exec] on the memory of [Vm], the files of [File] and the calling process.
    A path and an argument are their characters: they lie in pages of the old
    address space, which is in force until the end and which nothing writes. *)

From stdpp Require Import base numbers list gmap strings.
From S2P Require Import Prelude Kalloc Fs FsInode File Syscall Vm.

Open Scope Z_scope.

Definition ELF_MAGIC : Z := 0x464C457F.
Definition ELF_PROG_LOAD : Z := 1.

(** The fields [exec] reads. *)
Record elfhdr := ElfHdr { e_magic : Z; e_entry : Z; e_phoff : Z; e_phnum : Z }.
Record proghdr := ProgHdr { p_type : Z; p_off : Z; p_vaddr : Z; p_filesz : Z; p_memsz : Z }.
Definition ELFHDR : Z := 52.
Definition PROGHDR : Z := 32.

Definition elf_fields (d : list Z) : outcome elfhdr :=
  magic ← get32 d 0; entry ← get32 d 24; phoff ← get32 d 28; phnum ← get16 d 44;
  Ret (ElfHdr magic entry phoff phnum).
Definition ph_fields (d : list Z) : outcome proghdr :=
  type ← get32 d 0; off ← get32 d 4; vaddr ← get32 d 8; filesz ← get32 d 16; memsz ← get32 d 20;
  Ret (ProgHdr type off vaddr filesz memsz).

(** The calling process, as far as [exec] changes it. *)
Record task := Task { t_pgdir : Z; t_sz : Z; t_eip : Z; t_esp : Z; t_name : list Z; t_cwd : nat }.
Record est := ESt { emem : vm; efiles : kst; cur : task }.

Definition on_mem {A} (m : M vm A) : M est A := fun s =>
  '(a, v) ← m (emem s); Ret (a, ESt v (efiles s) (cur s)).
Definition on_files {A} (m : M kst A) : M est A := fun s =>
  '(a, k) ← m (efiles s); Ret (a, ESt (emem s) k (cur s)).
Definition on_inode {A} (m : M fs A) : M est A := on_files (File.on_fs m).
Definition on_both {A} (m : M (vm * fs) A) : M est A := fun s =>
  let k := efiles s in
  '(a, (v, f)) ← m (emem s, fsys k); Ret (a, ESt v (KSt (ftable k) (pipes k) f (ops k)) (cur s)).

(** The loop over the path: what follows its last slash. *)
Fixpoint last_elem (last s : list Z) : list Z :=
  match s with
  | [] => last
  | c :: s => last_elem (if c =? 47 then s else last) s
  end.

Section exec.
Context (kend data : Z) (junk : Z → list Z).
Context (dev_read : Z → option (nat → Z → M fs (Z * list Z))).

(** ** The program *)

(** One round of the loop over the program headers; [None] is [goto bad]. *)
Definition load_segment (pgdir : Z) (ip : nat) (sz : Z) (ph : proghdr) : M est (option Z) :=
  if negb (p_type ph =? ELF_PROG_LOAD) then mret (Some sz)
  else if p_memsz ph <? p_filesz ph then mret None
  else if u32 (p_vaddr ph + p_memsz ph) <? p_vaddr ph then mret None
  else
    sz ← on_mem (allocuvm kend junk pgdir sz (u32 (p_vaddr ph + p_memsz ph)));
    if sz =? 0 then mret None
    else if negb (p_vaddr ph mod PGSIZE =? 0) then mret None
    else
      r ← on_both (loaduvm junk dev_read pgdir (p_vaddr ph) ip (p_off ph) (p_filesz ph));
      if r <? 0 then mret None else mret (Some sz).

Fixpoint load_segments (pgdir : Z) (ip : nat) (off sz : Z) (phnum : nat) : M est (option Z) :=
  match phnum with
  | O => mret (Some sz)
  | S phnum =>
      '(r, bytes) ← on_inode (readi dev_read ip off PROGHDR);
      if negb (r =? PROGHDR) then mret None
      else
        ph ← lift (ph_fields bytes);
        sz ← load_segment pgdir ip sz ph;
        match sz with
        | None => mret None
        | Some sz => load_segments pgdir ip (u32 (off + PROGHDR)) sz phnum
        end
  end.

(** The directory at [goto bad] (0 if there is none), or what was loaded. *)
Inductive loading := Bad (pgdir : Z) | Loaded (pgdir sz entry : Z).

Definition load_program (ip : nat) : M est loading :=
  '(r, bytes) ← on_inode (readi dev_read ip 0 ELFHDR);
  if negb (r =? ELFHDR) then mret (Bad 0)
  else
    elf ← lift (elf_fields bytes);
    if negb (e_magic elf =? ELF_MAGIC) then mret (Bad 0)
    else
      pgdir ← on_mem (setupkvm kend data junk);
      if pgdir =? 0 then mret (Bad 0)
      else
        sz ← load_segments pgdir ip (e_phoff elf) 0 (Z.to_nat (e_phnum elf));
        mret (match sz with None => Bad pgdir | Some sz => Loaded pgdir sz (e_entry elf) end).

(** ** The stack *)

(** The loop over the arguments: the number of arguments, the stack pointer
    and [ustack]. *)
Fixpoint push_args (pgdir : Z) (argv : list (list Z)) (argc sp : Z) (ustack : list Z) :
    M vm (option (Z * Z * list Z)) :=
  match argv with
  | [] => mret (Some (argc, sp, ustack))
  | arg :: argv =>
      if MAXARG <=? argc then mret None
      else
        let n := Z.of_nat (length arg) + 1 in
        let sp := Z.land (u32 (sp - n)) (u32 (Z.lnot 3)) in
        r ← copyout junk pgdir sp (arg ++ [0]) n;
        if r <? 0 then mret None
        else
          ustack ← lift (arr_set ustack (3 + argc) sp);
          push_args pgdir argv (argc + 1) sp ustack
  end.

(** [ustack] has 3+MAXARG+1 words; what they hold at first is not used. *)
Definition user_stack (pgdir sz : Z) (argv : list (list Z)) : M vm (option (Z * Z)) :=
  let sz := PGROUNDUP sz in
  sz ← allocuvm kend junk pgdir sz (u32 (sz + 2 * PGSIZE));
  if sz =? 0 then mret None
  else
    clearpteu junk pgdir (u32 (sz - 2 * PGSIZE)) ;;
    r ← push_args pgdir argv 0 sz (replicate (Z.to_nat (3 + MAXARG + 1)) 0);
    match r with
    | None => mret None
    | Some (argc, sp, ustack) =>
        ustack ← lift (arr_set ustack (3 + argc) 0);
        ustack ← lift (arr_set ustack 0 0xffffffff);
        ustack ← lift (arr_set ustack 1 argc);
        ustack ← lift (arr_set ustack 2 (u32 (sp - (argc + 1) * 4)));
        let sp := u32 (sp - (3 + argc + 1) * 4) in
        r ← copyout junk pgdir sp (le32s ustack) ((3 + argc + 1) * 4);
        if r <? 0 then mret None else mret (Some (sz, sp))
    end.

(** ** The call *)

(** The label [bad]. *)
Definition bad (pgdir : Z) (ip : option nat) : M est Z :=
  (if pgdir =? 0 then mret tt else on_mem (freevm kend junk pgdir)) ;;
  match ip with
  | Some ip => on_inode (iunlockput ip) ;; on_files end_op
  | None => mret tt
  end ;;
  mret (-1).

(** From [safestrcpy] on; [switchuvm] loads processor registers. *)
Definition commit (pgdir sz entry sp : Z) (path : list Z) : M est Z := fun s =>
  let p := cur s in
  let p' := Task pgdir sz entry sp (take 15 (last_elem path path)) (t_cwd p) in
  '(_, v) ← freevm kend junk (t_pgdir p) (emem s);
  Ret (0, ESt v (efiles s) p').

Definition exec (path : list Z) (argv : list (list Z)) : M est Z :=
  on_files begin_op ;;
  s ← get_st;
  ip ← on_inode (namei dev_read (t_cwd (cur s)) path);
  match ip with
  | None => on_files end_op ;; mret (-1)
  | Some ip =>
      on_inode (ilock (Some ip)) ;;
      r ← load_program ip;
      match r with
      | Bad pgdir => bad pgdir (Some ip)
      | Loaded pgdir sz entry =>
          on_inode (iunlockput ip) ;;
          on_files end_op ;;
          r ← on_mem (user_stack pgdir sz argv);
          match r with
          | None => bad pgdir None
          | Some (sz, sp) => commit pgdir sz entry sp path
          end
      end
  end.
End exec.
