(* ===== verification/VmUser.v ===== *)
(** * The memory of a user program ([loaduvm], [copyout], [clearpteu] of [vm.c])

    The user part of an address space as bytes and flags: what the operations
    of [exec] do to them, and that they keep the ownership invariant. *)

From stdpp Require Import base numbers list gmap sets strings.
From S2P Require Import Prelude Kalloc Fs FsInode Vm VmInv VmOps VmKernel VmSafe.

Open Scope Z_scope.

(** The byte at a user address; the flags of a user page. *)
Definition ubyte (s : vm) (d a : Z) : option Z :=
  match uspace s d (a / 4096) with Some (_, x) => x !! Z.to_nat (a mod 4096) | None => None end.
Definition uflag (s : vm) (d m : Z) : option Z := fst <$> uspace s d m.

(** The bytes [bs] at [va] over those of [f]. *)
Definition patch (va : Z) (bs : list Z) (f : Z → option Z) (a : Z) : option Z :=
  if decide (va ≤ a < va + Z.of_nat (length bs)) then bs !! Z.to_nat (a - va) else f a.

Lemma patch_nil va f a : patch va [] f a = f a.
Proof. unfold patch. rewrite decide_False; [done|]. cbn. lia. Qed.

Lemma patch_app va bs cs f a : patch va (bs ++ cs) f a = patch (va + Z.of_nat (length bs)) cs (patch va bs f) a.
Proof.
  unfold patch. rewrite length_app. destruct (decide (va ≤ a < va + Z.of_nat (length bs))).
  - rewrite decide_True, decide_False by lia. by rewrite lookup_app_l by lia.
  - destruct (decide (va + Z.of_nat (length bs) ≤ a < va + Z.of_nat (length bs) + Z.of_nat (length cs))).
    + rewrite decide_True by lia. rewrite lookup_app_r by lia. f_equal. lia.
    + by rewrite decide_False by lia.
Qed.

Lemma patch_ext va bs f g a : f a = g a → patch va bs f a = patch va bs g a.
Proof. intros E. unfold patch. by rewrite E. Qed.

Definition bytes (l : list Z) : Prop := Forall (λ b, 0 ≤ b < 256) l.

Section user.
Context (kend : Z) (junk : Z → list Z).

Notation vinv := (vinv kend).

(** From [s] to [s'] the user bytes of [d] became [f] and the flags [g]; the
    rest is as it was. *)
Record stored (s s' : vm) (held : list Z) (d : Z) (ds tot : list Z) (g : Z → option Z) (f : Z → option Z) : Prop := {
  st_inv : vinv s' held (d :: ds) tot;
  st_flags m : 0 ≤ m < NUSER → uflag s' d m = g m;
  st_bytes a : 0 ≤ a < KERNBASE → ubyte s' d a = f a;
  st_kernel m : NUSER ≤ m < 1048576 → pte s' d m = pte s d m;
  st_tables i : 0 ≤ i < 1024 → W s' d i = W s d i;
  st_others : others s s' held ds
}.

Lemma stored_refl s held d ds tot : vinv s held (d :: ds) tot →
  stored s s held d ds tot (uflag s d) (ubyte s d).
Proof. by split. Qed.

Lemma stored_trans s s1 s2 held d ds tot g1 g2 f1 f2 :
  stored s s1 held d ds tot g1 f1 → stored s1 s2 held d ds tot g2 f2 → stored s s2 held d ds tot g2 f2.
Proof.
  intros [V1 G1 F1 K1 T1 O1] [V2 G2 F2 K2 T2 O2]. split; try done.
  - intros m Hm. by rewrite K2, K1.
  - intros i Hi. by rewrite T2, T1.
  - by eapply others_trans.
Qed.

Lemma stored_ext s s' held d ds tot g g' f f' : (∀ m, 0 ≤ m < NUSER → g m = g' m) →
  (∀ a, 0 ≤ a < KERNBASE → f a = f' a) → stored s s' held d ds tot g f → stored s s' held d ds tot g' f'.
Proof.
  intros Hg Hf [V G F K T O]. split; try done.
  - intros m Hm. by rewrite G, Hg.
  - intros a Ha. by rewrite F, Hf.
Qed.

(** A space keeps its size. *)
Lemma sized_flags s s' d sz : (∀ m, 0 ≤ m < NUSER → uflag s' d m = uflag s d m ∨ is_Some (uflag s' d m) ∧ is_Some (uflag s d m)) →
  sized s (d, sz) → sized s' (d, sz).
Proof.
  intros H [Hr Hs]. split; [done|]. intros m Hm. cbn [fst snd] in *. rewrite <-(Hs m Hm).
  destruct (H m Hm) as [E|[H1 H2]]; unfold uflag in *.
  - by rewrite <-(fmap_is_Some fst), E, fmap_is_Some.
  - rewrite fmap_is_Some in H1, H2. done.
Qed.

Lemma uspace_page s held d ds tot m f x : vinv s held (d :: ds) tot → 0 ≤ m < NUSER → uspace s d m = Some (f, x) →
  present (pte s d m) = true ∧ vpages s !! P2V (PTE_ADDR (pte s d m)) = Some x ∧ page_data x ∧
  PTE_FLAGS (pte s d m) = f ∧ present (W s d (m / 1024)) = true ∧ P2V (PTE_ADDR (pte s d m)) ∈ upages s d.
Proof.
  intros Hv Hm E. unfold uspace in E. destruct (present (pte s d m)) eqn:Hp; [|done].
  destruct (vpages s !! P2V (PTE_ADDR (pte s d m))) as [y|] eqn:Hy; [|done]. injection E as E1 E2. subst y.
  assert (P2V (PTE_ADDR (pte s d m)) ∈ upages s d) as Hin by by apply elem_of_upages.
  destruct (df_data _ _ _ _ _ (dir_facts_of _ _ _ _ _ _ Hv) _ (upages_owned _ _ _ Hin)) as (z & Hz & Hd).
  rewrite Hy in Hz. injection Hz as <-. split_and!; try done.
  destruct (present (W s d (m / 1024))) eqn:HW; [done|]. unfold pte in Hp. by rewrite HW in Hp.
Qed.

Lemma ubyte_at s d m f x o : uspace s d m = Some (f, x) → 0 ≤ o < 4096 → ubyte s d (m * 4096 + o) = x !! Z.to_nat o.
Proof.
  intros E Ho. unfold ubyte. replace ((m * 4096 + o) / 4096) with m by (Z.div_mod_to_equations; lia).
  rewrite E. do 2 f_equal. Z.div_mod_to_equations; lia.
Qed.

(** Replacing the bytes of a user page. *)
Lemma set_upage s held d ds tot m f x x' : vinv s held (d :: ds) tot → 0 ≤ m < NUSER → uspace s d m = Some (f, x) →
  page_data x' → let p := P2V (PTE_ADDR (pte s d m)) in let s' := Vm (<[p := x']> (vpages s)) (vfree s) in
  set_page p x' s = Ret (tt, s') ∧ vinv s' held (d :: ds) tot ∧
  (∀ k, 0 ≤ k < NUSER → uspace s' d k = if decide (k = m) then Some (f, x') else uspace s d k) ∧
  same_view s s' d ∧ others s s' held ds.
Proof.
  intros Hv Hm E Hx' p s'. destruct (uspace_page _ _ _ _ _ _ _ _ Hv Hm E) as (Hp & Hx & Hxd & Hf & HW & Hin). fold p in Hx, Hin.
  pose proof (dir_facts_of _ _ _ _ _ _ Hv) as Hdf. pose proof (vinv_nodup _ _ _ _ _ Hv) as Hnd.
  cbn [fmap list_fmap concat] in Hnd. unfold owned at 1 in Hnd.
  assert (∀ q, q ≠ p → vpages s' !! q = vpages s !! q) as Hfr by (intros q Hq; subst s'; cbn; by rewrite lookup_insert_ne by congruence).
  assert (same_view s s' d) as Hview.
  { apply view_frame. intros q Hq. apply Hfr. intros ->. by apply (df_user _ _ _ _ _ _ Hdf Hin). }
  assert (others s s' held ds) as Hoth.
  { intros q Hq. apply Hfr. intros ->. apply NoDup_app in Hnd as (_ & _ & Hnd). apply NoDup_app in Hnd as (_ & Hh & Hnd).
    apply NoDup_app in Hnd as (_ & Ho & _). apply elem_of_app in Hq as [Hq|Hq].
    - apply (Hh _ Hq). apply elem_of_app. left. by apply upages_owned.
    - apply (Ho p); [|done]. by apply upages_owned. }
  split. { unfold set_page. by rewrite Hx. }
  split.
  - destruct (concat_owned_frame s s' ds) as [_ Eds]; [intros q Hq; apply Hoth; apply elem_of_app; by right|].
    assert (concat (owned s' <$> d :: ds) = concat (owned s <$> d :: ds)) as E'.
    { cbn [fmap list_fmap concat]. rewrite Eds. f_equal. by apply owned_view. }
    pose proof (vinv_disjoint _ _ _ _ _ p Hv) as Hdisj. cbn [fmap list_fmap concat] in Hdisj.
    destruct Hv as [H1 H2 H3 H4 H5]. split; rewrite ?E'; try done.
    + intros q Hq. rewrite Hfr; [by apply H4|]. intros ->. apply (Hdisj Hq). apply elem_of_app. right.
      apply elem_of_app. left. by apply upages_owned.
    + intros q Hq. destruct (decide (q = p)) as [->|Hne].
      * exists x'. subst s'. cbn. by rewrite lookup_insert_eq.
      * rewrite Hfr by done. by apply H5.
  - split; [|done]. intros k Hk. destruct Hview as [_ Hpte]. unfold NUSER in *. case_decide as Hc.
    + subst k. unfold uspace. rewrite Hpte, Hp by lia. fold p. subst s'. cbn. by rewrite lookup_insert_eq, Hf.
    + apply uspace_same; [apply Hpte; lia|]. intros Hpk. apply Hfr. intros Ek. apply Hc.
      assert (NoDup (upages s d)) as Hu.
      { apply NoDup_app in Hnd as (_ & _ & Hnd). apply NoDup_app in Hnd as (_ & _ & Hnd).
        apply NoDup_app in Hnd as (Hnd & _ & _). apply NoDup_cons in Hnd as [_ Hnd]. by apply NoDup_app in Hnd as (_ & _ & ?). }
      eapply (omap_inj (λ n, target (pte s d n)) user_range k m p); [exact Hu| | | |].
      * apply user_range_spec. unfold NUSER. lia.
      * apply user_range_spec. unfold NUSER. lia.
      * unfold target. rewrite Hpk. by f_equal.
      * unfold target. by rewrite Hp.
Qed.

Lemma put_bytes_run x o bs : page_data x → bytes bs → 0 ≤ o → o + Z.of_nat (length bs) ≤ 4096 →
  put_bytes x o bs = Ret (splice x (Z.to_nat o) bs) ∧ page_data (splice x (Z.to_nat o) bs).
Proof.
  intros [Hl Hx] Hbs Ho Hle. split.
  - unfold put_bytes. case_if as E; [done|]. apply andb_false_iff in E as [?|?]; bool_to_prop; lia.
  - split; [rewrite splice_length; lia|]. unfold splice.
    apply Forall_app_2; [by apply Forall_take|]. apply Forall_app_2; [done|by apply Forall_drop].
Qed.

(** Storing inside one user page. *)
Lemma put_upage s held d ds tot m f x o bs : vinv s held (d :: ds) tot → 0 ≤ m < NUSER → uspace s d m = Some (f, x) →
  bytes bs → 0 ≤ o → o + Z.of_nat (length bs) ≤ 4096 →
  ∃ x' s', put_bytes x o bs = Ret x' ∧ set_page (P2V (PTE_ADDR (pte s d m))) x' s = Ret (tt, s') ∧
    stored s s' held d ds tot (uflag s d) (patch (m * 4096 + o) bs (ubyte s d)).
Proof.
  intros Hv Hm E Hbs Ho Hle. destruct (uspace_page _ _ _ _ _ _ _ _ Hv Hm E) as (_ & _ & Hx & _).
  destruct (put_bytes_run x o bs Hx Hbs Ho Hle) as [Ep Hx']. destruct (set_upage _ _ _ _ _ _ _ _ _ Hv Hm E Hx') as (Es & Hv' & Hu & [HW Hpte] & Hoth).
  eexists _, _. split; [exact Ep|]. split; [exact Es|]. split; try done.
  - intros k Hk. unfold uflag. rewrite Hu by done. case_decide; [subst k; by rewrite E|done].
  - intros a Ha. unfold KERNBASE in Ha. assert (0 ≤ a / 4096 < NUSER) as Hq by (unfold NUSER; Z.div_mod_to_equations; lia).
    unfold ubyte at 1. rewrite Hu by done. destruct Hx as [Hl _].
    assert (0 ≤ a mod 4096 < 4096) as Hr by (apply Z.mod_pos_bound; lia).
    assert (a = a / 4096 * 4096 + a mod 4096) as Ea by (Z.div_mod_to_equations; lia).
    unfold patch. case_decide as Hc.
    + rewrite splice_lookup by lia. rewrite Hc in Ea.
      destruct (decide (m * 4096 + o ≤ a < m * 4096 + o + Z.of_nat (length bs))) as [Hin|Hin].
      * rewrite decide_True by lia. f_equal. lia.
      * rewrite decide_False by lia. unfold ubyte. by rewrite Hc, E.
    + rewrite decide_False; [done|]. intros Hin. apply Hc. Z.div_mod_to_equations; lia.
  - intros k Hk. apply Hpte. unfold NUSER in Hk. lia.
Qed.

(** The entry of a user page, as [walkpgdir] and a load of the word give it. *)
Lemma walk_user s held d ds tot m va : vinv s held (d :: ds) tot → 0 ≤ m < NUSER → is_Some (uspace s d m) →
  va / 4096 = m → 0 ≤ va < 2 ^ 32 →
  walkpgdir junk d va false s = Ret (Some (tab s d (m / 1024), m mod 1024), s) ∧
  get_word (tab s d (m / 1024)) (m mod 1024) s = Ret (pte s d m, s) ∧ 0 ≤ pte s d m < 2 ^ 32.
Proof.
  intros Hv Hm [[f x] E] Em Hva. rewrite <-Em in Hm, E |- *. clear Em m. set (m := va / 4096) in *.
  destruct (uspace_page _ _ _ _ _ _ _ _ Hv Hm E) as (Hp & _ & _ & _ & HW & _).
  assert (0 ≤ m < 1048576) as Hm' by (unfold NUSER in Hm; lia). destruct (page_index m Hm') as (Hi & Hj & _).
  split. { apply (walk_present kend junk s held d (d :: ds) tot); [done|set_solver|done|done]. }
  assert (pte s d m = W s (tab s d (m / 1024)) (m mod 1024)) as -> by (unfold pte; by rewrite HW).
  apply get_word_run; [|done]. apply (df_data _ _ _ _ _ (dir_facts_of _ _ _ _ _ _ Hv)).
  by apply tables_owned, elem_of_tables.
Qed.

(** ** [clearpteu] *)
Lemma clear_user x : 0 ≤ x < 2 ^ 32 → let y := Z.land x (u32 (Z.lnot PTE_U)) in
  0 ≤ y < 2 ^ 32 ∧ PTE_ADDR y = PTE_ADDR x ∧ present y = present x ∧ PTE_FLAGS y = Z.land (PTE_FLAGS x) (u32 (Z.lnot PTE_U)).
Proof.
  unfold PTE_ADDR, PTE_FLAGS, present, PTE_P. change (u32 (Z.lnot PTE_U)) with 4294967291.
  change (u32 (Z.lnot 4095)) with 4294963200. cbn zeta. intros Hx. split_and!.
  - apply Z.land_nonneg. lia.
  - assert (Z.land x 4294967291 = u32 (Z.land x 4294967291)) as ->; [|apply u32_range].
    unfold u32. rewrite <-Z.land_ones, <-Z.land_assoc by lia. done.
  - by rewrite <-Z.land_assoc.
  - by rewrite <-Z.land_assoc.
  - by rewrite <-!Z.land_assoc, (Z.land_comm 4294967291).
Qed.

Definition no_user (f : Z) : Z := Z.land f (u32 (Z.lnot PTE_U)).

Lemma clearpteu_spec s held d ds tot m : vinv s held (d :: ds) tot → 0 ≤ m < NUSER → is_Some (uspace s d m) →
  ∃ s', clearpteu junk d (m * 4096) s = Ret (tt, s') ∧
    stored s s' held d ds tot (λ k, if decide (k = m) then no_user <$> uflag s d m else uflag s d k) (ubyte s d).
Proof.
  intros Hv Hm Hu. pose proof Hu as [[f x] E]. assert (0 ≤ m < 1048576) as Hm' by (unfold NUSER in Hm; lia).
  destruct (uspace_page _ _ _ _ _ _ _ _ Hv Hm E) as (Hp & Hx & Hxd & Hf & HW & Hin).
  destruct (walk_user s held d ds tot m (m * 4096) Hv Hm Hu) as (Ew & Eg & Hr); [by rewrite Z.div_mul|lia|].
  unfold clearpteu. erewrite M_bind_run by exact Ew. cbn beta iota. erewrite M_bind_run by exact Eg. cbn beta.
  pose proof (clear_user (pte s d m) Hr) as Hc. cbn zeta in Hc. revert Hc. set (y := Z.land _ _). intros (Hy & Ey & Epy & Efy).
  pose proof (dir_facts_of _ _ _ _ _ _ Hv) as Hdf. destruct (page_index m Hm') as (Hi & Hj & _).
  destruct (pte_set_view kend s held d ds m y Hdf Hm' Hy HW) as (HWs & Hpte & Hk).
  assert (vinv (setw s (tab s d (m / 1024)) (m mod 1024) y) held (d :: ds) tot) as Hv'.
  { apply pte_set_vinv with (held := held); try done. unfold moved. case_decide; [|done].
    unfold target. by rewrite Epy, Ey, Hp. }
  eexists. split.
  { apply set_word_run; [|done]. apply (df_data _ _ _ _ _ Hdf). by apply tables_owned, elem_of_tables. }
  set (s' := setw _ _ _ _) in *.
  assert (∀ k, 0 ≤ k < NUSER → uspace s' d k = if decide (k = m) then Some (no_user f, x) else uspace s d k) as Hus.
  { intros k Hk'. case_decide as Ek.
    - subst k. unfold uspace. rewrite Hpte, decide_True, Epy, Hp, Ey, Efy by done. rewrite (Hk _), Hx, Hf; [done|].
      apply elem_of_app. right. apply elem_of_app. by left.
    - eapply uspace_kept; [done|done|]. rewrite Hpte, decide_False; [done|done|]. unfold NUSER in Hk'. lia. }
  split; try done.
  - intros k Hk'. unfold uflag. rewrite Hus by done. case_decide; [subst k; by rewrite E|done].
  - intros a Ha. unfold ubyte. rewrite Hus by (unfold NUSER, KERNBASE in *; Z.div_mod_to_equations; lia).
    case_decide as Ek; [by rewrite Ek, E|done].
  - intros k Hk'. rewrite Hpte, decide_False; [done|lia|lia].
  - by eapply kept_others.
Qed.

(** ** [copyout] *)
Lemma flag_user x : Z.land x PTE_U = Z.land (PTE_FLAGS x) PTE_U.
Proof. unfold PTE_FLAGS. by rewrite <-Z.land_assoc. Qed.

Lemma uva2ka_user s held d ds tot m f x : vinv s held (d :: ds) tot → 0 ≤ m < NUSER → uspace s d m = Some (f, x) →
  uva2ka junk d (m * 4096) s = Ret (if Z.land f PTE_U =? 0 then 0 else P2V (PTE_ADDR (pte s d m)), s).
Proof.
  intros Hv Hm E. destruct (uspace_page _ _ _ _ _ _ _ _ Hv Hm E) as (Hp & _ & _ & Hf & _).
  destruct (walk_user s held d ds tot m (m * 4096) Hv Hm) as (Ew & Eg & _); [by eexists|by rewrite Z.div_mul|unfold NUSER in Hm; lia|].
  unfold uva2ka. erewrite M_bind_run by exact Ew. cbn beta iota. erewrite M_bind_run by exact Eg. cbn beta.
  rewrite flag_user, Hf. unfold present in Hp. apply negb_true_iff in Hp. rewrite Hp. by case_if.
Qed.

(** Kernel pages have no [PTE_U]. *)
Lemma uva2ka_kernel s held d ds tot n : vinv s held (d :: ds) tot → 0 ≤ n < 1048576 → present (pte s d n) = true →
  Z.land (PTE_FLAGS (pte s d n)) PTE_U = 0 → uva2ka junk d (n * 4096) s = Ret (0, s).
Proof.
  intros Hv Hn Hp Hf. destruct (page_index n Hn) as (Hi & Hj & _).
  assert (present (W s d (n / 1024)) = true) as HW by (unfold pte in Hp; by destruct (present (W s d (n / 1024)))).
  unfold uva2ka. erewrite M_bind_run.
  2:{ apply (walk_present kend junk s held d (d :: ds) tot); [done|by apply elem_of_cons; left|lia|by rewrite Z.div_mul]. }
  rewrite Z.div_mul by done. cbn beta iota.
  destruct (get_word_run s (tab s d (n / 1024)) (n mod 1024)) as [Eg _]; [|done|].
  { apply (df_data _ _ _ _ _ (dir_facts_of _ _ _ _ _ _ Hv)). by apply tables_owned, elem_of_tables. }
  erewrite M_bind_run by exact Eg. cbn beta.
  assert (W s (tab s d (n / 1024)) (n mod 1024) = pte s d n) as -> by (unfold pte; by rewrite HW).
  rewrite flag_user, Hf. unfold present in Hp. apply negb_true_iff in Hp. rewrite Hp. done.
Qed.

(** The pages that the bytes from [va] to [va + n] lie in. *)
Definition touched (va n m : Z) : Prop := 0 < n ∧ va / 4096 ≤ m ∧ m * 4096 < va + n.
Definition user_pages (s : vm) (d va n : Z) : Prop :=
  ∀ m, touched va n m → ∃ f, uflag s d m = Some f ∧ Z.land f PTE_U ≠ 0.

Lemma touched_user va n m : 0 ≤ va → va + n ≤ KERNBASE → touched va n m → 0 ≤ m < NUSER.
Proof. unfold touched, KERNBASE, NUSER. intros. Z.div_mod_to_equations; lia. Qed.

Lemma copyout_loop_spec held d ds tot fuel : ∀ s va buf, vinv s held (d :: ds) tot → bytes buf → 0 ≤ va →
  va + Z.of_nat (length buf) ≤ KERNBASE → (∀ m, touched va (Z.of_nat (length buf)) m → is_Some (uspace s d m)) →
  (length buf ≤ fuel)%nat →
  ∃ r s' f, copyout_loop junk d va buf (Z.of_nat (length buf)) fuel s = Ret (r, s') ∧
    stored s s' held d ds tot (uflag s d) f ∧
    ((r = 0 ∧ user_pages s d va (Z.of_nat (length buf)) ∧ ∀ a, 0 ≤ a < KERNBASE → f a = patch va buf (ubyte s d) a) ∨
     (r = -1 ∧ ¬ user_pages s d va (Z.of_nat (length buf)))).
Proof.
  induction fuel as [|fuel IH]; intros s va buf Hv Hb Hva Hend Hmap Hfuel; cbn [copyout_loop]; case_if as Hlen; [lia|..].
  1, 3: assert (length buf = 0%nat) as Hl by lia; destruct buf; [|done]; exists 0, s, (ubyte s d); split; [done|];
    split; [by apply stored_refl|]; left; split; [done|]; split;
    [intros m [H1 _]; cbn in H1; lia|intros; by rewrite patch_nil].
  unfold KERNBASE in Hend. set (m := va / 4096). set (o := va mod 4096).
  assert (va = m * 4096 + o ∧ 0 ≤ o < 4096) as [Eva Ho] by (unfold m, o; Z.div_mod_to_equations; lia).
  assert (touched va (Z.of_nat (length buf)) m) as Htm by (split_and!; unfold m; Z.div_mod_to_equations; lia).
  assert (0 ≤ m < NUSER) as Hm by (eapply touched_user; [done| |exact Htm]; unfold KERNBASE; lia).
  assert (PGROUNDDOWN va = m * 4096) as -> by (by rewrite PGROUNDDOWN_eq by lia).
  destruct (Hmap m Htm) as [[fl x] E]. cbv zeta. erewrite M_bind_run by (eapply uva2ka_user; done). cbn beta.
  destruct (uspace_page _ _ _ _ _ _ _ _ Hv Hm E) as (Hp & Hx & Hxd & Hfl & _ & Hin).
  assert (P2V (PTE_ADDR (pte s d m)) ≠ 0) as Hnz.
  { eapply page_ok_nz, (df_ok _ _ _ _ _ (dir_facts_of _ _ _ _ _ _ Hv)). by apply upages_owned. }
  destruct (Z.land fl PTE_U =? 0) eqn:EU; bool_to_prop.
  { change (0 =? 0) with true. cbn iota. exists (-1), s, (ubyte s d). split; [done|]. split; [by apply stored_refl|].
    right. split; [done|]. intros H. destruct (H m Htm) as (f & Ef & Hf). unfold uflag in Ef. rewrite E in Ef.
    injection Ef as <-. done. }
  apply Z.eqb_neq in Hnz. rewrite Hnz. replace (va - m * 4096) with o by lia. rewrite (u32_small (PGSIZE - o)) by (unfold PGSIZE; lia).
  set (n := if Z.of_nat (length buf) <? PGSIZE - o then Z.of_nat (length buf) else PGSIZE - o).
  assert (n = Z.min (Z.of_nat (length buf)) (4096 - o)) as En by (unfold n, PGSIZE; case_if; lia).
  set (b1 := take (Z.to_nat n) buf). set (b2 := drop (Z.to_nat n) buf).
  assert (Z.of_nat (length b1) = n) as Hl1 by (unfold b1; rewrite length_take; lia).
  assert (Z.of_nat (length b2) = Z.of_nat (length buf) - n) as Hl2 by (unfold b2; rewrite length_drop; lia).
  assert (buf = b1 ++ b2) as Eb by (unfold b1, b2; by rewrite take_drop).
  assert (bytes b1 ∧ bytes b2) as [Hb1 Hb2] by (split; [by apply Forall_take|by apply Forall_drop]).
  assert (lift (get_bytes buf 0 n) s = Ret (b1, s)) as Eget.
  { unfold lift, get_bytes. rewrite drop_0. case_if as Eg; [done|]. apply andb_false_iff in Eg as [?|?]; bool_to_prop; lia. }
  erewrite M_bind_run by exact Eget. cbn beta.
  erewrite M_bind_run by (unfold page; by rewrite Hx). cbn beta.
  destruct (put_upage s held d ds tot m fl x o b1 Hv Hm E Hb1) as (x' & s1 & Ep & Es & Hst); [lia|lia|].
  erewrite M_bind_run by (unfold lift; by rewrite Ep). cbn beta. erewrite M_bind_run by exact Es.
  replace (u32 (Z.of_nat (length buf) - n)) with (Z.of_nat (length b2)) by (rewrite u32_small; lia).
  assert (∀ k, is_Some (uspace s d k) → 0 ≤ k < NUSER → is_Some (uspace s1 d k)) as Hmap1.
  { intros k Hk Hr. rewrite <-(fmap_is_Some fst). change (is_Some (uflag s1 d k)). rewrite (st_flags _ _ _ _ _ _ _ _ Hst) by done.
    unfold uflag. by rewrite fmap_is_Some. }
  rewrite <-Eva in Hst.
  destruct (decide (b2 = [])) as [Hnil|Hne].
  { exists 0, s1, (patch va b1 (ubyte s d)). split; [rewrite Hnil; by destruct fuel|]. split; [done|].
    left. split; [done|]. rewrite Eb, Hnil, app_nil_r. split; [|done]. intros k (H0 & H1 & H2).
    assert (k = m) as -> by (rewrite Hl1 in H2; unfold m in *; Z.div_mod_to_equations; lia).
    exists fl. unfold uflag. rewrite E. done. }
  assert (0 < length b2)%nat as Hpos by (destruct b2; [done|cbn; lia]).
  rewrite u32_small by (unfold PGSIZE; lia).
  assert (va + n = m * 4096 + PGSIZE) as Evn by (unfold PGSIZE; lia).
  destruct (IH s1 (m * 4096 + PGSIZE) b2) as (r & s' & f & E2 & Hst2 & Hr).
  { apply (st_inv _ _ _ _ _ _ _ _ Hst). } { done. } { unfold PGSIZE. lia. } { unfold KERNBASE. lia. }
  { intros k (H0 & H1 & H2). apply Hmap1.
    - apply Hmap. split; [lia|]. split; [|lia]. unfold m in *. unfold PGSIZE in *. Z.div_mod_to_equations; lia.
    - eapply touched_user; [| |split_and!; [exact H0|exact H1|exact H2]]; unfold PGSIZE, KERNBASE; lia. }
  { unfold b2. rewrite length_drop. lia. }
  assert (user_pages s d va (Z.of_nat (length buf)) ↔ user_pages s1 d (m * 4096 + PGSIZE) (Z.of_nat (length b2))) as Hup.
  { assert (∀ k, 0 ≤ k < NUSER → uflag s1 d k = uflag s d k) as Hfl1 by (apply (st_flags _ _ _ _ _ _ _ _ Hst)).
    unfold user_pages, touched. split; intros H k (H0 & H1 & H2).
    - rewrite Hfl1; [apply H; unfold m, PGSIZE in *; Z.div_mod_to_equations; lia|].
      unfold NUSER, PGSIZE in *. Z.div_mod_to_equations; lia.
    - destruct (decide (k = m)) as [->|Hk]; [exists fl; unfold uflag; by rewrite E|]. rewrite <-Hfl1.
      + apply H. split; [lia|]. unfold PGSIZE in *. split; [|lia]. unfold m in *. Z.div_mod_to_equations; lia.
      + unfold NUSER in *. Z.div_mod_to_equations; lia. }
  exists r, s', f. split; [exact E2|]. split.
  { eapply stored_ext; [|done|by eapply stored_trans]. intros k Hk. apply (st_flags _ _ _ _ _ _ _ _ Hst); done. }
  destruct Hr as [(-> & Hu & Hf)|[-> Hu]]; [left|right; split; [done|by rewrite Hup]].
  split; [done|]. split; [by apply Hup|]. intros a Ha. rewrite Hf by done. rewrite Eb, patch_app, Hl1, Evn.
  apply patch_ext. by apply (st_bytes _ _ _ _ _ _ _ _ Hst).
Qed.

Lemma copyout_spec held d ds tot s va buf : vinv s held (d :: ds) tot → bytes buf → 0 ≤ va →
  va + Z.of_nat (length buf) ≤ KERNBASE → (∀ m, touched va (Z.of_nat (length buf)) m → is_Some (uspace s d m)) →
  ∃ r s' f, copyout junk d va buf (Z.of_nat (length buf)) s = Ret (r, s') ∧
    stored s s' held d ds tot (uflag s d) f ∧
    ((r = 0 ∧ user_pages s d va (Z.of_nat (length buf)) ∧ ∀ a, 0 ≤ a < KERNBASE → f a = patch va buf (ubyte s d) a) ∨
     (r = -1 ∧ ¬ user_pages s d va (Z.of_nat (length buf)))).
Proof. intros. unfold copyout. apply copyout_loop_spec; try done. lia. Qed.

Lemma copyout_kernel s held d ds tot va buf : vinv s held (d :: ds) tot → 0 ≤ va < 2 ^ 32 →
  present (pte s d (va / 4096)) = true → Z.land (PTE_FLAGS (pte s d (va / 4096))) PTE_U = 0 → 0 < Z.of_nat (length buf) →
  copyout junk d va buf (Z.of_nat (length buf)) s = Ret (-1, s).
Proof.
  intros Hv Hva Hp Hf Hl. unfold copyout. destruct (Z.to_nat (Z.of_nat (length buf))) eqn:E; [lia|]. cbn [copyout_loop].
  case_if; [|lia]. rewrite PGROUNDDOWN_eq by done.
  erewrite M_bind_run by (eapply uva2ka_kernel; [done|Z.div_mod_to_equations; lia|done|done]). done.
Qed.

(** ** [loaduvm] *)

(** The bytes of a file from [off] on, and what [readi] gives of them. *)
Definition slice (img : list Z) (off n : Z) : list Z := take (Z.to_nat n) (drop (Z.to_nat off) img).
Definition file_read (img : list Z) (off n : Z) : Z * list Z :=
  let len := Z.of_nat (length img) in
  if (len <? off) || (2 ^ 32 <=? off + n) then (-1, [])
  else let r := Z.min n (len - off) in (r, slice img off r).

Lemma length_slice img off n : 0 ≤ off → 0 ≤ n → off + n ≤ Z.of_nat (length img) → Z.of_nat (length (slice img off n)) = n.
Proof. intros. unfold slice. rewrite length_take, length_drop. lia. Qed.

Lemma bytes_slice img off n : bytes img → bytes (slice img off n).
Proof. intros H. by apply Forall_take, Forall_drop. Qed.

Lemma slice_split img off m n : 0 ≤ off → 0 ≤ m ≤ n → slice img off n = slice img off m ++ slice img (off + m) (n - m).
Proof.
  intros H0 Hm. unfold slice. replace (Z.to_nat (off + m)) with (Z.to_nat off + Z.to_nat m)%nat by lia.
  rewrite <-drop_drop. set (l := drop (Z.to_nat off) img). replace (Z.to_nat n) with (Z.to_nat m + Z.to_nat (n - m))%nat by lia.
  by rewrite take_take_drop.
Qed.

(** The result of a read: the bytes asked for, or something else. *)
Lemma file_read_full img off n r bs : 0 ≤ off → 0 ≤ n → Z.of_nat (length img) < 2 ^ 32 → file_read img off n = (r, bs) → bytes img →
  bytes bs ∧ Z.of_nat (length bs) ≤ n ∧
  (r = n ∧ off + n ≤ Z.of_nat (length img) ∧ bs = slice img off n ∨ r ≠ n ∧ Z.of_nat (length img) < off + n).
Proof.
  intros H0 Hn Hl E Hb. unfold file_read in E. cbn zeta in E. destruct ((Z.of_nat (length img) <? off) || (2 ^ 32 <=? off + n)) eqn:Ec.
  - injection E as <- <-. split; [by apply Forall_nil_2|]. split; [cbn; lia|]. right.
    apply orb_true_iff in Ec as [?|?]; bool_to_prop; lia.
  - bool_to_prop. injection E as <- <-. split; [by apply bytes_slice|]. rewrite length_slice by lia. split; [lia|].
    destruct (decide (off + n ≤ Z.of_nat (length img))); [left|right; lia]. rewrite Z.min_l by lia. done.
Qed.

Section load.
Context (dev_read : Z → option (nat → Z → M fs (Z * list Z))).

(** In [f] the locked inode [ip] is a file of the bytes [img], all of whose
    blocks are allocated. *)
Definition holds (f : fs) (ip : nat) (img : list Z) : Prop :=
  bytes img ∧ Z.of_nat (length img) < 2 ^ 31 ∧
  ∀ off n, 0 ≤ off < 2 ^ 32 → 0 ≤ n < 2 ^ 32 → readi dev_read ip off n f = Ret (file_read img off n, f).

Lemma loaduvm_loop_spec f ip img held d ds tot addr off sz fuel : holds f ip img → addr mod 4096 = 0 → 0 ≤ addr →
  addr + sz ≤ KERNBASE → 0 ≤ off < 2 ^ 32 → ∀ s i, vinv s held (d :: ds) tot → 0 ≤ i → i mod 4096 = 0 →
  (i < sz → i = 0 ∨ off + i ≤ Z.of_nat (length img)) → (∀ m, touched (addr + i) (sz - i) m → is_Some (uspace s d m)) →
  sz - i ≤ Z.of_nat fuel * 4096 →
  ∃ r s' g, loaduvm_loop junk dev_read d addr ip off sz i fuel (s, f) = Ret (r, (s', f)) ∧
    stored s s' held d ds tot (uflag s d) g ∧
    ((r = 0 ∧ (i < sz → off + sz ≤ Z.of_nat (length img)) ∧
      ∀ a, 0 ≤ a < KERNBASE → g a = patch (addr + i) (slice img (off + i) (sz - i)) (ubyte s d) a) ∨
     (r = -1 ∧ i < sz ∧ Z.of_nat (length img) < off + sz)).
Proof.
  intros (Hb & Hlen & Hread) Hal Ha Hend Hoff. unfold KERNBASE in Hend.
  induction fuel as [|fuel IH]; intros s i Hv Hi Hia Hoi Hmap Hfuel; cbn [loaduvm_loop]; case_if as Hlt; [lia|..].
  1, 3: exists 0, s, (ubyte s d); split; [done|]; split; [by apply stored_refl|]; left; split; [done|]; split; [lia|];
    intros a _; unfold slice; replace (Z.to_nat (sz - i)) with 0%nat by lia; by rewrite patch_nil.
  rewrite (u32_small (addr + i)), (u32_small (sz - i)) by lia.
  set (m := (addr + i) / 4096). assert (addr + i = m * 4096) as Em by (unfold m; Z.div_mod_to_equations; lia).
  assert (touched (addr + i) (sz - i) m) as Htm by (split_and!; unfold m in *; lia).
  assert (0 ≤ m < NUSER) as Hm by (eapply touched_user; [| |exact Htm]; unfold KERNBASE; lia).
  destruct (Hmap m Htm) as [[fl x] E]. destruct (uspace_page _ _ _ _ _ _ _ _ Hv Hm E) as (_ & Hx & _).
  destruct (walk_user s held d ds tot m (addr + i) Hv Hm) as (Ew & Eg & _); [by eexists|done|lia|].
  erewrite M_bind_run by (unfold on_vm; rewrite Ew; reflexivity). cbn beta iota.
  erewrite M_bind_run by (unfold on_vm; rewrite Eg; reflexivity). cbn beta zeta.
  set (n := if sz - i <? PGSIZE then sz - i else PGSIZE).
  assert (n = Z.min (sz - i) 4096) as En by (unfold n, PGSIZE; case_if; lia).
  rewrite (u32_small (off + i)) by lia.
  destruct (file_read img (off + i) n) as [r bs] eqn:Er.
  destruct (file_read_full img (off + i) n r bs) as (Hbs & Hlbs & Hr); [lia|lia|lia|done|done|].
  erewrite M_bind_run by (unfold on_fs; rewrite Hread, Er by lia; reflexivity). cbn beta iota.
  erewrite M_bind_run by (unfold on_vm, page; rewrite Hx; reflexivity). cbn beta.
  destruct (put_upage s held d ds tot m fl x 0 bs Hv Hm E Hbs) as (x' & s1 & Ep & Es & Hst); [lia|lia|].
  erewrite M_bind_run by (unfold lift; rewrite Ep; reflexivity). cbn beta.
  erewrite M_bind_run by (unfold on_vm; rewrite Es; reflexivity).
  rewrite Z.add_0_r, <-Em in Hst. destruct Hr as [(-> & Hle & ->)|[Hne Hgt]].
  2:{ apply Z.eqb_neq in Hne. rewrite Hne. eexists _, s1, _. split; [done|]. split; [exact Hst|]. right.
      split; [done|]. lia. }
  rewrite Z.eqb_refl. cbn [negb]. rewrite u32_small by (unfold PGSIZE; lia).
  assert (∀ k, 0 ≤ k < NUSER → uflag s1 d k = uflag s d k) as Hfl1 by (apply (st_flags _ _ _ _ _ _ _ _ Hst)).
  destruct (IH s1 (i + PGSIZE)) as (r & s' & g & E2 & Hst2 & Hr); unfold PGSIZE in *.
  { apply (st_inv _ _ _ _ _ _ _ _ Hst). } { lia. } { Z.div_mod_to_equations; lia. }
  { lia. }
  { intros k (H0 & H1 & H2). assert (0 ≤ k < NUSER) as Hk by (unfold NUSER; Z.div_mod_to_equations; lia).
    rewrite <-(fmap_is_Some fst). change (is_Some (uflag s1 d k)). rewrite Hfl1 by done. unfold uflag. rewrite fmap_is_Some.
    apply Hmap. split_and!; [lia|Z.div_mod_to_equations; lia|lia]. }
  { lia. }
  exists r, s', g. split; [exact E2|]. split; [eapply stored_ext; [|done|by eapply stored_trans]; done|].
  destruct Hr as [(-> & Hle2 & Hg)|(-> & H1 & H2)]; [left|right; lia]. split; [done|]. split; [lia|].
  intros a Ha'. rewrite Hg by done. rewrite (patch_ext _ _ _ _ _ (st_bytes _ _ _ _ _ _ _ _ Hst a Ha')).
  destruct (decide (sz - i ≤ 4096)).
  - replace n with (sz - i) by lia. unfold slice at 1. replace (Z.to_nat (sz - (i + 4096))) with 0%nat by lia.
    by rewrite patch_nil.
  - rewrite (slice_split img (off + i) n (sz - i)) by lia. rewrite patch_app, length_slice by lia.
    by replace n with 4096 by lia; replace (addr + i + 4096) with (addr + (i + 4096)) by lia;
      replace (off + i + 4096) with (off + (i + 4096)) by lia; replace (sz - i - 4096) with (sz - (i + 4096)) by lia.
Qed.

Lemma loaduvm_spec f ip img held d ds tot addr off sz s : holds f ip img → vinv s held (d :: ds) tot →
  addr mod 4096 = 0 → 0 ≤ addr → addr + sz ≤ KERNBASE → 0 ≤ off < 2 ^ 32 → 0 ≤ sz →
  (∀ m, touched addr sz m → is_Some (uspace s d m)) →
  ∃ r s' g, loaduvm junk dev_read d addr ip off sz (s, f) = Ret (r, (s', f)) ∧
    stored s s' held d ds tot (uflag s d) g ∧
    ((r = 0 ∧ (0 < sz → off + sz ≤ Z.of_nat (length img)) ∧
      ∀ a, 0 ≤ a < KERNBASE → g a = patch addr (slice img off sz) (ubyte s d) a) ∨
     (r = -1 ∧ 0 < sz ∧ Z.of_nat (length img) < off + sz)).
Proof.
  intros Hf Hv Hal Ha Hend Hoff Hsz Hmap. unfold loaduvm. replace (addr mod PGSIZE) with 0 by (unfold PGSIZE; lia). cbn [negb Z.eqb].
  destruct (loaduvm_loop_spec f ip img held d ds tot addr off sz (Z.to_nat (sz / PGSIZE + 1)) Hf Hal Ha Hend Hoff s 0)
    as (r & s' & g & E & Hst & Hr); rewrite ?Z.add_0_r, ?Z.sub_0_r in *; try done; try lia.
  { unfold PGSIZE. Z.div_mod_to_equations; lia. }
  eauto 6.
Qed.
End load.
End user.
