(* ===== verification/ExecLoad.v ===== *)
(** * Loading a program image ([exec.c])

    The image of an ELF file as a size and a function from addresses to bytes,
    and the loops of [exec] that put it into a new address space. *)

From stdpp Require Import base numbers list gmap sets strings.
From S2P Require Import Prelude Kalloc Fs FsInode File Syscall Vm VmInv VmOps VmKernel VmSafe VmUser Exec.

Open Scope Z_scope.

(** ** Images *)

(** Bytes [f] after growing from [lo] to [hi] bytes: new pages are zero. *)
Definition zeroed (lo hi : Z) (f : Z → option Z) (a : Z) : option Z :=
  if decide (npages lo ≤ a / 4096 < npages hi) then Some 0 else f a.

Definition prog : Type := Z * (Z → option Z).

Section image.
Context (img : list Z).
Notation len := (Z.of_nat (length img)).

(** A segment must lie below the kernel and in the file, and start on a page. *)
Definition seg_ok (ph : proghdr) : bool :=
  (p_filesz ph <=? p_memsz ph) && (p_vaddr ph + p_memsz ph <? KERNBASE) && (p_vaddr ph mod PGSIZE =? 0) &&
  ((p_filesz ph =? 0) || (p_off ph + p_filesz ph <=? len)).
Definition add_segment (ph : proghdr) (p : prog) : option prog :=
  let '(sz, f) := p in
  if negb (p_type ph =? ELF_PROG_LOAD) then Some (sz, f)
  else
    let hi := p_vaddr ph + p_memsz ph in
    if seg_ok ph && negb (Z.max sz hi =? 0) then
      Some (Z.max sz hi, patch (p_vaddr ph) (slice img (p_off ph) (p_filesz ph)) (zeroed sz hi f))
    else None.
Fixpoint program (off : Z) (phnum : nat) (p : prog) : option prog :=
  match phnum with
  | O => Some p
  | S phnum =>
      if off + PROGHDR <=? len then
        match ph_fields (slice img off PROGHDR) with
        | Ret ph => match add_segment ph p with Some p => program (u32 (off + PROGHDR)) phnum p | None => None end
        | _ => None
        end
      else None
  end.

(** The entry point and the image. *)
Definition executable : option (Z * prog) :=
  if ELFHDR <=? len then
    match elf_fields (slice img 0 ELFHDR) with
    | Ret elf =>
        if e_magic elf =? ELF_MAGIC then
          option_map (pair (e_entry elf)) (program (e_phoff elf) (Z.to_nat (e_phnum elf)) (0, λ _, None))
        else None
    | _ => None
    end
  else None.

Lemma add_segment_grows ph sz f sz' f' : add_segment ph (sz, f) = Some (sz', f') → sz ≤ sz' ∧
  (p_type ph = ELF_PROG_LOAD → p_vaddr ph + p_memsz ph ≤ sz').
Proof. unfold add_segment. case_if as E; [|case_if]; intros [= <- <-]; bool_to_prop; lia. Qed.

Lemma program_grows phnum : ∀ off sz f sz' f', program off phnum (sz, f) = Some (sz', f') → sz ≤ sz'.
Proof.
  induction phnum as [|phnum IH]; intros off sz f sz' f' E; cbn [program] in E; [by injection E as <- <-|].
  destruct (off + PROGHDR <=? len); [|done]. destruct (ph_fields _) as [ph| | |]; try done.
  destruct (add_segment ph (sz, f)) as [[sz1 f1]|] eqn:Ea; [|done]. apply add_segment_grows in Ea as [? _].
  apply IH in E. lia.
Qed.
End image.

(** The fields of the headers are machine words. *)
Definition words_ok (ph : proghdr) : Prop :=
  0 ≤ p_off ph < 2 ^ 32 ∧ 0 ≤ p_vaddr ph < 2 ^ 32 ∧ 0 ≤ p_filesz ph < 2 ^ 32 ∧ 0 ≤ p_memsz ph < 2 ^ 32.

Lemma get32_ok d o : bytes d → 0 ≤ o → o + 4 ≤ Z.of_nat (length d) → ∃ x, get32 d o = Ret x ∧ 0 ≤ x < 2 ^ 32.
Proof. intros Hb H0 H4. destruct (get32_in d o H0 H4) as [x E]. exists x. split; [done|]. by eapply get32_range. Qed.

Lemma ph_fields_ok d : bytes d → Z.of_nat (length d) = PROGHDR → ∃ ph, ph_fields d = Ret ph ∧ words_ok ph.
Proof.
  unfold PROGHDR. intros Hb Hl. unfold ph_fields.
  destruct (get32_ok d 0 Hb) as (a & -> & _); [lia|lia|]. destruct (get32_ok d 4 Hb) as (b & -> & ?); [lia|lia|].
  destruct (get32_ok d 8 Hb) as (c & -> & ?); [lia|lia|]. destruct (get32_ok d 16 Hb) as (e & -> & ?); [lia|lia|].
  destruct (get32_ok d 20 Hb) as (g & -> & ?); [lia|lia|]. eexists. split; [reflexivity|]. unfold words_ok. cbn [p_off p_vaddr p_filesz p_memsz]. split; [|split; [|split]]; assumption.
Qed.

Lemma elf_fields_ok d : bytes d → Z.of_nat (length d) = ELFHDR → ∃ e, elf_fields d = Ret e ∧ 0 ≤ e_phoff e < 2 ^ 32.
Proof.
  unfold ELFHDR. intros Hb Hl. unfold elf_fields.
  destruct (get32_ok d 0 Hb) as (a & -> & _); [lia|lia|]. destruct (get32_ok d 24 Hb) as (b & -> & ?); [lia|lia|].
  destruct (get32_ok d 28 Hb) as (c & -> & ?); [lia|lia|].
  assert (∃ x, get16 d 44 = Ret x) as [x ->].
  { unfold get16. destruct (arr_get_in d 44) as (u & -> & _); [lia|]. destruct (arr_get_in d (44 + 1)) as (v & -> & _); [lia|].
    by eexists. }
  eexists. split; [reflexivity|]. done.
Qed.

(** ** The address space under construction *)
Lemma npages_mono a b : a ≤ b → npages a ≤ npages b.
Proof. unfold npages. intros. Z.div_mod_to_equations; lia. Qed.

Lemma sized_npages s d sz : sized s (d, sz) → 0 ≤ npages sz ≤ NUSER.
Proof. intros [H _]. cbn in H. unfold npages, NUSER, KERNBASE in *. Z.div_mod_to_equations; lia. Qed.

Section load.
Context (kend data : Z) (junk : Z → list Z) (Hjunk : junk_ok junk).
Context (Hdata : data mod 4096 = 0) (Hlink : KERNLINK < data < KERNBASE + PHYSTOP).

(** Where [exec] starts, and the pages besides the new space. *)
Context (s0 : vm) (held ds tot : list Z) (H0 : vinv kend s0 held ds tot).

Notation vinv := (vinv kend).

(** The space [d] holds an image and is otherwise as new; [g] are the flags. *)
Record space (s : vm) (d sz : Z) (g : Z → option Z) (f : Z → option Z) : Prop := {
  sp_inv : vinv s held (d :: ds) tot;
  sp_sized : sized s (d, sz);
  sp_flags m : 0 ≤ m < npages sz → uflag s d m = g m;
  sp_bytes a : 0 ≤ a < KERNBASE → ubyte s d a = f a;
  sp_kernel m : NUSER ≤ m < 1048576 → pte s d m = kernel_entry data m;
  sp_others : others s0 s held ds
}.
Notation loaded s d sz f := (space s d sz (λ _, Some 7) f).

(** Enough free pages for [sz] bytes, page tables included. *)
Definition room (sz : Z) : Prop := 1026 + npages sz < Z.of_nat (length (vfree s0)).

Lemma room_mono a b : a ≤ b → room b → room a.
Proof. intros H%npages_mono. unfold room. lia. Qed.

(** Loading keeps the shape. *)
Lemma space_stored s s' d sz g f f' : space s d sz g f → stored kend s s' held d ds tot (uflag s d) f' → space s' d sz g f'.
Proof.
  intros [V S G F K O] [V' G' F' K' _ O']. split; try done.
  - eapply sized_flags; [|exact S]. intros m Hm. left. by apply G'.
  - intros m Hm. pose proof (sized_npages _ _ _ S). rewrite G' by lia. by apply G.
  - intros m Hm. rewrite K' by done. by apply K.
  - by eapply others_trans.
Qed.

Lemma space_mapped s d sz g f va n m : space s d sz g f → 0 ≤ va → va + n ≤ sz → touched va n m → is_Some (uspace s d m).
Proof.
  intros Hs Hva Hn (H1 & H2 & H3). pose proof (sp_sized _ _ _ _ _ Hs) as [Hr Hu]. cbn in Hr.
  apply Hu; cbn; unfold NUSER, KERNBASE, npages in *; Z.div_mod_to_equations; lia.
Qed.

Lemma grow_space s d sz g f newsz : space s d sz g f → 0 ≤ newsz < 2 ^ 32 →
  ∃ r s', allocuvm kend junk d sz newsz s = Ret (r, s') ∧
    (r ≠ 0 ∧ newsz < KERNBASE ∧ r = Z.max sz newsz ∧
       space s' d r (λ m, if decide (npages sz ≤ m) then Some 7 else g m) (zeroed sz newsz f) ∨
     r = 0 ∧ space s' d sz g f ∧ (KERNBASE ≤ newsz ∨ Z.max sz newsz = 0 ∨ ¬ room newsz)).
Proof using All.
  intros Hs Hnew. pose proof (sized_npages _ _ _ (sp_sized _ _ _ _ _ Hs)) as HN. pose proof Hs as [V [Hr Hu] G F K O]. cbn in Hr, Hu.
  destruct (decide (KERNBASE ≤ newsz)) as [Hk|Hk].
  { exists 0, s. split; [|right; tauto]. unfold allocuvm. case_if; [done|lia]. }
  destruct (decide (newsz < sz)) as [Hlt|Hlt].
  { exists sz, s. split; [unfold allocuvm; case_if; [lia|]; case_if; [done|lia]|]. left.
    pose proof (npages_mono newsz sz ltac:(lia)). split_and!; [lia|lia|lia|]. split; try done.
    - intros m Hm. rewrite decide_False by lia. by apply G.
    - intros a Ha. unfold zeroed. rewrite decide_False by lia. by apply F. }
  destruct (allocuvm_spec kend junk Hjunk s held d ds tot sz newsz) as (ok & s' & E & Hb & Hst); [done|lia|lia| |].
  { intros m Hm. apply not_true_is_false. rewrite (absent_of kend s held (d :: ds) tot d sz m V);
      [lia|by apply elem_of_cons; left|done|]. unfold npages, NUSER, KERNBASE in *. Z.div_mod_to_equations; lia. }
  assert (npages newsz ≤ NUSER) as HN' by (unfold npages, NUSER, KERNBASE in *; Z.div_mod_to_equations; lia).
  pose proof (npages_mono sz newsz ltac:(lia)) as Hmono. destruct Hb as [V' U' K' O']. exists (if ok then newsz else 0), s'.
  split; [exact E|]. destruct (decide (newsz = 0)) as [->|Hnz].
  { right. split; [by destruct ok|]. split; [|lia]. assert (sz = 0) as -> by lia. split; try done.
    - split; [cbn; lia|]. intros m Hm. cbn. rewrite U' by done. destruct ok; [rewrite decide_False by lia|]; by apply Hu.
    - intros m Hm. change (npages 0) with 0 in Hm. lia.
    - intros a Ha. rewrite <-F by done. unfold ubyte. rewrite U' by (unfold NUSER, KERNBASE in *; Z.div_mod_to_equations; lia).
      destruct ok; [by rewrite decide_False by lia|done].
    - intros m Hm. rewrite K' by done. by apply K.
    - by eapply others_trans. }
  destruct ok; [left|right].
  - split; [done|]. split; [lia|]. rewrite Z.max_r by lia. split; [done|]. split; try done.
    + split; [cbn; lia|]. intros m Hm. cbn. rewrite U' by done. case_decide; [split; [lia|by eexists]|].
      rewrite Hu by done. lia.
    + intros m Hm. unfold uflag. rewrite U' by lia. destruct (decide (npages sz ≤ m)).
      * by rewrite decide_True by lia.
      * rewrite decide_False by lia. apply G. lia.
    + intros a Ha. unfold ubyte, zeroed. rewrite U' by (unfold NUSER, KERNBASE in *; Z.div_mod_to_equations; lia).
      case_decide; [|by rewrite <-F]. unfold fresh_user. rewrite zeros_eq. apply lookup_replicate_2. unfold PGSIZE.
      Z.div_mod_to_equations; lia.
    + intros m Hm. rewrite K' by done. by apply K.
    + by eapply others_trans.
  - split; [done|]. split.
    + split; try done.
      * split; [cbn; lia|]. intros m Hm. cbn. rewrite U' by done. by apply Hu.
      * intros m Hm. unfold uflag. rewrite U' by lia. by apply G.
      * intros a Ha. rewrite <-F by done. unfold ubyte.
        by rewrite U' by (unfold NUSER, KERNBASE in *; Z.div_mod_to_equations; lia).
      * intros m Hm. rewrite K' by done. by apply K.
      * by eapply others_trans.
    + right. right. unfold room. destruct (Hst eq_refl) as (s1 & more & S1 & S2 & S3 & S4 & S5).
      assert (Z.of_nat (length (vfree s0)) ≤ 1026 + npages newsz); [|lia].
      eapply starved_count; [exact H0|exact S3|done|done|by eapply others_trans|lia|].
      intros m Hm. destruct (present (pte s1 d m)) eqn:Ep; [|done]. apply S5 in Ep; [|done].
      apply (absent_of kend s held (d :: ds) tot d sz m V) in Ep; [lia|by apply elem_of_cons; left|done|lia].
Qed.

(** ** Segments *)
Context (dev_read : Z → option (nat → Z → M fs (Z * list Z))).
Context (f : fs) (ip : nat) (img : list Z) (Hf : holds dev_read f ip img).
Context (k : kst) (Hk : fsys k = f) (c : task).

Notation st s := (ESt s k c).

Lemma on_mem_run {A} (m : M vm A) s (a : A) s' : m s = Ret (a, s') → on_mem m (st s) = Ret (a, st s').
Proof. intros E. unfold on_mem. cbn [emem efiles cur]. by rewrite E. Qed.

Lemma readi_run s off n : 0 ≤ off < 2 ^ 32 → 0 ≤ n < 2 ^ 32 →
  on_inode (readi dev_read ip off n) (st s) = Ret (file_read img off n, st s).
Proof using Hf Hk.
  intros Ho Hn. unfold on_inode, on_files, File.on_fs. cbn [emem efiles cur]. rewrite Hk.
  destruct Hf as (_ & _ & Hr). rewrite Hr by done. cbn. destruct k; cbn in *; by subst.
Qed.

Lemma on_both_run {A} (m : M (vm * fs) A) s a s' : m (s, f) = Ret (a, (s', f)) → on_both m (st s) = Ret (a, st s').
Proof using Hk. intros E. unfold on_both. cbn [emem efiles cur]. rewrite Hk, E. cbn. destruct k; cbn in *; by subst. Qed.

(** [goto bad]: a space to be freed, for a reason. *)
Definition abandoned (s : vm) (d : Z) : Prop := vinv s held (d :: ds) tot ∧ others s0 s held ds.

Lemma space_abandoned s d sz g h : space s d sz g h → abandoned s d.
Proof. intros [V _ _ _ _ O]. by split. Qed.

Lemma load_segment_spec s d sz h ph : loaded s d sz h → words_ok ph →
  ∃ r s', load_segment kend junk dev_read d ip sz ph (st s) = Ret (r, st s') ∧
    match r with
    | Some sz' => ∃ h', add_segment img ph (sz, h) = Some (sz', h') ∧ loaded s' d sz' h'
    | None => abandoned s' d ∧ ∀ sz' h', add_segment img ph (sz, h) = Some (sz', h') → ¬ room sz'
    end.
Proof using All.
  intros Hs (Ho & Hva & Hfz & Hmz). unfold load_segment. pose proof (space_abandoned _ _ _ _ _ Hs) as Hab.
  unfold add_segment. destruct (negb (p_type ph =? ELF_PROG_LOAD)); [by exists (Some sz), s; eauto|].
  set (hi := p_vaddr ph + p_memsz ph). unfold seg_ok. fold hi.
  assert (∀ (b : bool) x, b = false → (if b && x then Some (Z.max sz hi, patch (p_vaddr ph) (slice img (p_off ph) (p_filesz ph)) (zeroed sz hi h))
    else None) = None) as Hno by (by intros b x ->).
  destruct (p_memsz ph <? p_filesz ph) eqn:E1; bool_to_prop.
  { exists None, s. split; [done|]. split; [done|]. rewrite Hno; [done|].
    destruct (p_filesz ph <=? p_memsz ph) eqn:E; bool_to_prop; [lia|done]. }
  destruct (u32 hi <? p_vaddr ph) eqn:E2; bool_to_prop.
  { exists None, s. split; [done|]. split; [done|]. rewrite Hno; [done|].
    destruct (decide (hi < KERNBASE)); [rewrite u32_small in E2 by (unfold KERNBASE in *; lia); lia|].
    destruct (hi <? KERNBASE) eqn:E; bool_to_prop; [lia|]. by rewrite andb_false_r. }
  assert (hi < 2 ^ 32) as Hhi.
  { destruct (decide (hi < 2 ^ 32)); [done|]. exfalso. unfold u32 in E2.
    rewrite <-(Z.mod_unique hi (2 ^ 32) 1 (hi - 2 ^ 32)) in E2; lia. }
  rewrite u32_small by lia. destruct (grow_space s d sz _ h hi Hs) as (r & s1 & E & Hr); [lia|].
  erewrite M_bind_run by by apply on_mem_run. cbn beta. destruct Hr as [(Hnz & Hlt & -> & Hs1)|(-> & Hs1 & Hwhy)].
  2:{ exists None, s1. split; [done|]. split; [by eapply space_abandoned|]. intros sz' h' Ea.
      destruct Hwhy as [Hge|[Hz|Hroom]].
      - rewrite Hno in Ea; [done|]. destruct (hi <? KERNBASE) eqn:E3; bool_to_prop; [lia|]. by rewrite andb_false_r.
      - rewrite Hz in Ea. cbn in Ea. by rewrite andb_false_r in Ea.
      - case_match; [|done]. injection Ea as <- <-. intros Hr. apply Hroom. eapply room_mono; [|exact Hr]. lia. }
  apply Z.eqb_neq in Hnz as Hnz'. rewrite Hnz'. destruct (p_vaddr ph mod PGSIZE =? 0) eqn:E3; bool_to_prop; cbn [negb].
  2:{ exists None, s1. split; [done|]. split; [by eapply space_abandoned|]. rewrite Hno; [done|]. by rewrite andb_false_r. }
  assert (loaded s1 d (Z.max sz hi) (zeroed sz hi h)) as Hs1'.
  { destruct Hs1 as [V S G F K O]. split; try done. intros m Hm. rewrite G by done. by case_decide. }
  assert (hi ≤ Z.max sz hi) by lia. pose proof (sp_sized _ _ _ _ _ Hs1') as [Hszr _]. cbn in Hszr.
  destruct (loaduvm_spec kend junk dev_read f ip img held d ds tot (p_vaddr ph) (p_off ph) (p_filesz ph) s1)
    as (r & s2 & g2 & E4 & Hst & Hr); [exact Hf|by apply (sp_inv _ _ _ _ _ Hs1')|exact E3|lia|lia|lia|lia| |].
  { intros m Hm. eapply space_mapped; [exact Hs1'| | |exact Hm]; lia. }
  erewrite M_bind_run by by apply on_both_run. cbn beta. pose proof (space_stored _ _ _ _ _ _ _ Hs1' Hst) as Hs2.
  destruct Hr as [(-> & Hfit & Hg)|(-> & Hpos & Hshort)].
  - change (0 <? 0) with false. cbn iota. exists (Some (Z.max sz hi)), s2. split; [done|].
    replace ((p_filesz ph <=? p_memsz ph)) with true by lia. replace (hi <? KERNBASE) with true by lia.
    replace (p_vaddr ph mod PGSIZE =? 0) with true by lia.
    assert ((p_filesz ph =? 0) || (p_off ph + p_filesz ph <=? Z.of_nat (length img)) = true) as -> by lia.
    cbn [andb negb]. eexists. split; [done|]. destruct Hs2 as [V S G F K O]. split; try done.
    intros a Ha. rewrite F, Hg by done. apply patch_ext. by apply (sp_bytes _ _ _ _ _ Hs1').
  - change (-1 <? 0) with true. cbn iota. exists None, s2. split; [done|]. split; [by eapply space_abandoned|].
    rewrite Hno; [done|]. assert ((p_filesz ph =? 0) || (p_off ph + p_filesz ph <=? Z.of_nat (length img)) = false) as -> by lia.
    by rewrite andb_false_r.
Qed.

Lemma load_segments_spec d phnum : ∀ off s sz h, loaded s d sz h → 0 ≤ off < 2 ^ 32 →
  ∃ r s', load_segments kend junk dev_read d ip off sz phnum (st s) = Ret (r, st s') ∧
    match r with
    | Some sz' => ∃ h', program img off phnum (sz, h) = Some (sz', h') ∧ loaded s' d sz' h'
    | None => abandoned s' d ∧ ∀ sz' h', program img off phnum (sz, h) = Some (sz', h') → ¬ room sz'
    end.
Proof using All.
  induction phnum as [|phnum IH]; intros off s sz h Hs Hoff; cbn [load_segments program].
  { exists (Some sz), s. eauto. }
  pose proof Hf as (Hb & Hl & _). erewrite M_bind_run by (apply readi_run; [done|unfold PROGHDR; lia]).
  destruct (file_read img off PROGHDR) as [r bs] eqn:Er. cbn beta iota.
  destruct (file_read_full img off PROGHDR r bs) as (_ & _ & Hr); [lia|unfold PROGHDR; lia|lia|done|done|].
  destruct Hr as [(-> & Hle & ->)|[Hne Hgt]].
  2:{ apply Z.eqb_neq in Hne. rewrite Hne. exists None, s. split; [done|]. split; [by eapply space_abandoned|].
      case_if; [lia|done]. }
  rewrite Z.eqb_refl. cbn [negb]. case_if; [|lia].
  destruct (ph_fields_ok (slice img off PROGHDR)) as (ph & Ep & Hw);
    [by apply bytes_slice|rewrite length_slice; unfold PROGHDR in *; lia|].
  erewrite M_bind_run by (unfold lift; rewrite Ep; reflexivity). rewrite Ep. cbn beta.
  destruct (load_segment_spec s d sz h ph Hs Hw) as (r & s1 & E1 & Hr1). erewrite M_bind_run by exact E1. cbn beta.
  destruct r as [sz1|].
  - destruct Hr1 as (h1 & -> & Hs1). apply IH; [done|]. unfold PROGHDR. apply u32_range.
  - destruct Hr1 as [Hab Hwhy]. exists None, s1. split; [done|]. split; [done|]. intros sz' h' Ea.
    destruct (add_segment img ph (sz, h)) as [[sz1 h1]|] eqn:Eg; [|done]. apply program_grows in Ea.
    intros Hroom. apply (Hwhy sz1 h1); [done|]. by eapply room_mono.
Qed.

(** The state before [setupkvm], and what [load_program] leaves. *)
Lemma load_program_spec : 
  ∃ r s', load_program kend data junk dev_read ip (st s0) = Ret (r, st s') ∧
    match r with
    | Loaded d sz entry => d ≠ 0 ∧ ∃ h, executable img = Some (entry, (sz, h)) ∧ loaded s' d sz h
    | Bad d => (if d =? 0 then vinv s' held ds tot ∧ others s0 s' held ds else abandoned s' d) ∧
        ∀ entry sz h, executable img = Some (entry, (sz, h)) → ¬ room sz
    end.
Proof using All.
  pose proof Hf as (Hb & Hl & _). unfold load_program, executable.
  erewrite M_bind_run by (apply readi_run; [lia|unfold ELFHDR; lia]).
  destruct (file_read img 0 ELFHDR) as [r bs] eqn:Er. cbn beta iota.
  destruct (file_read_full img 0 ELFHDR r bs) as (_ & _ & Hr); [lia|unfold ELFHDR; lia|lia|done|done|].
  destruct Hr as [(-> & Hle & ->)|[Hne Hgt]].
  2:{ apply Z.eqb_neq in Hne. rewrite Hne. exists (Bad 0), s0. split; [done|]. split; [done|]. case_if; [lia|done]. }
  rewrite Z.eqb_refl. cbn [negb]. case_if; [|lia].
  destruct (elf_fields_ok (slice img 0 ELFHDR)) as (e & Ee & Hph);
    [by apply bytes_slice|rewrite length_slice; unfold ELFHDR in *; lia|].
  erewrite M_bind_run by (unfold lift; rewrite Ee; reflexivity). rewrite Ee. cbn beta.
  destruct (e_magic e =? ELF_MAGIC); cbn [negb]; [|exists (Bad 0), s0; by split].
  destruct (setupkvm_spec kend data junk Hjunk Hdata Hlink s0 held ds tot H0) as (d & s1 & E1 & O1 & Hd).
  erewrite M_bind_run by by apply on_mem_run. cbn beta.
  destruct Hd as [(-> & V1 & Hcnt)|(Hnz & V1 & P1)].
  { exists (Bad 0), s1. split; [done|]. split; [by split|]. intros entry sz h Ex Hroom.
    assert (0 ≤ sz) as Hsz.
    { destruct (program img _ _ _) as [[sz1 h1]|] eqn:Ep; [|done]. injection Ex as <- <- <-. by eapply program_grows. }
    apply npages_mono in Hsz. change (npages 0) with 0 in Hsz. unfold room in Hroom. lia. }
  apply Z.eqb_neq in Hnz as Hnz'. rewrite Hnz'.
  assert (∀ m, 0 ≤ m < NUSER → uspace s1 d m = None) as Hu1.
  { intros m Hm. unfold uspace. rewrite P1 by (unfold NUSER in Hm; lia). by rewrite (kernel_entry_user data Hdata Hlink) by lia. }
  assert (loaded s1 d 0 (λ _, None)) as Hs1.
  { split; try done.
    - split; [cbn; unfold KERNBASE; lia|]. intros m Hm. rewrite Hu1 by done. change (npages (d, 0).2) with 0. split; [by intros []|lia].
    - intros m Hm. change (npages 0) with 0 in Hm. lia.
    - intros a Ha. unfold ubyte. by rewrite Hu1 by (unfold NUSER, KERNBASE in *; Z.div_mod_to_equations; lia).
    - intros m Hm. apply P1. unfold NUSER in Hm. lia. }
  destruct (load_segments_spec d (Z.to_nat (e_phnum e)) (e_phoff e) s1 0 (λ _, None) Hs1 Hph) as (r & s2 & E2 & Hr).
  erewrite M_bind_run by exact E2. cbn beta. destruct r as [sz|].
  - destruct Hr as (h & Ep & Hs2). exists (Loaded d sz (e_entry e)), s2. split; [done|]. split; [done|].
    exists h. by rewrite Ep.
  - destruct Hr as [Hab Hwhy]. exists (Bad d), s2. split; [done|]. rewrite Hnz'. split; [done|].
    intros entry sz h Ex. destruct (program img _ _ _) as [[sz1 h1]|] eqn:Ep; [|done]. injection Ex as <- <- <-. by eapply Hwhy.
Qed.
End load.
