(* ===== verification/ExecStack.v ===== *)
(** * The first stack of a program ([exec.c])

    Two pages above the image: one that user code cannot touch, and the stack
    with the argument strings, their addresses and the words that [main] finds. *)

From stdpp Require Import base numbers list gmap sets strings.
From S2P Require Import Prelude Kalloc Fs FsInode File Syscall Vm VmInv VmOps VmKernel VmSafe VmUser Exec ExecLoad.

Open Scope Z_scope.

Definition stack_top (sz : Z) : Z := (npages sz + 2) * 4096.
(** The stack pointer after an argument, and after all of them. *)
Definition below (sp : Z) (arg : list Z) : Z := (sp - (Z.of_nat (length arg) + 1)) / 4 * 4.
Definition stack_ptr (sp : Z) (argv : list (list Z)) : Z := foldl below sp argv.
Definition entry_sp (top : Z) (argv : list (list Z)) : Z := stack_ptr top argv - (4 + Z.of_nat (length argv)) * 4.
Definition fits (top : Z) (argv : list (list Z)) : Prop :=
  Z.of_nat (length argv) ≤ MAXARG ∧ top - 4096 ≤ entry_sp top argv.

(** The bytes [bs] lie at [a]. *)
Definition reads (f : Z → option Z) (a : Z) (bs : list Z) : Prop :=
  ∀ i b, bs !! i = Some b → f (a + Z.of_nat i) = Some b.
(** What [main(argc, argv)] finds: a return address, [argc], the address of
    the array, and the array, whose last entry is null. *)
Definition main_args (f : Z → option Z) (esp : Z) (argv : list (list Z)) : Prop :=
  ∃ qs, length qs = length argv ∧
    reads f esp (le32s (0xffffffff :: Z.of_nat (length argv) :: esp + 12 :: qs ++ [0])) ∧
    ∀ i q arg, qs !! i = Some q → argv !! i = Some arg → reads f q (arg ++ [0]).

(** User pages, with the guard page at [n]. *)
Definition guarded (n m : Z) : option Z := Some (if decide (m = n) then 3 else 7).

Lemma reads_patch va bs f : 0 ≤ va → reads (patch va bs f) va bs.
Proof.
  intros Hva i b Hi. pose proof (lookup_lt_Some _ _ _ Hi). unfold patch. rewrite decide_True by lia.
  rewrite <-Hi. f_equal. lia.
Qed.

Lemma reads_same f g a bs : (∀ x, a ≤ x < a + Z.of_nat (length bs) → g x = f x) → reads f a bs → reads g a bs.
Proof. intros H Hr i b Hi. pose proof (lookup_lt_Some _ _ _ Hi). rewrite H by lia. by apply Hr. Qed.

Lemma mask_word x : 0 ≤ x < 2 ^ 32 → Z.land x (u32 (Z.lnot 3)) = x / 4 * 4.
Proof.
  intros Hx. change (u32 (Z.lnot 3)) with (Z.land (Z.lnot (Z.ones 2)) (Z.ones 32)).
  rewrite Z.land_assoc, Z.land_ones by lia. rewrite <-Z.ldiff_land, Z.ldiff_ones_r by lia.
  rewrite Z.shiftl_mul_pow2, Z.shiftr_div_pow2 by lia. change (2 ^ 2) with 4.
  apply Z.mod_small. Z.div_mod_to_equations; lia.
Qed.

Lemma below_spec sp arg : sp - (Z.of_nat (length arg) + 1) - 3 ≤ below sp arg ≤ sp - (Z.of_nat (length arg) + 1).
Proof. unfold below. Z.div_mod_to_equations; lia. Qed.

Lemma stack_ptr_le argv : ∀ sp, stack_ptr sp argv ≤ sp.
Proof.
  induction argv as [|arg argv IH]; intros sp; cbn; [lia|]. specialize (IH (below sp arg)).
  pose proof (below_spec sp arg). unfold stack_ptr in IH. lia.
Qed.

Lemma le32s_take n ws : take (4 * n) (le32s ws) = le32s (take n ws).
Proof.
  revert n. induction ws as [|w ws IH]; intros n; [by destruct n; rewrite ?take_nil|]. destruct n as [|n]; [done|].
  unfold le32s. cbn [take fmap list_fmap concat]. replace (4 * S n)%nat with (length (le32 w) + 4 * n)%nat by (cbn; lia).
  rewrite take_app_add by done. f_equal. apply IH.
Qed.

Lemma le32s_bytes ws : bytes (le32s ws).
Proof.
  unfold le32s. induction ws as [|w ws IH]; [by apply Forall_nil_2|]. cbn [fmap list_fmap concat].
  apply Forall_app_2; [apply le32_bytes|done].
Qed.

(** [copyout] looks at the bytes it copies only. *)
Lemma copyout_take junk d buf fuel : ∀ s va len, 0 ≤ va < 2 ^ 32 → len < 2 ^ 32 →
  (len ≤ Z.of_nat (length buf)) → copyout_loop junk d va buf len fuel s = copyout_loop junk d va (take (Z.to_nat len) buf) len fuel s.
Proof.
  revert buf. induction fuel as [|fuel IH]; intros buf s va len Hva Hlt Hlen; cbn [copyout_loop]; case_if; try done.
  cbv beta iota zeta delta [mbind M_bind outcome_bind].
  destruct (uva2ka junk d (PGROUNDDOWN va) s) as [[p s1]| | |]; try done. cbv beta iota.
  destruct (p =? 0); [done|]. set (pg := u32 _). pose proof (u32_range (PGSIZE - (va - PGROUNDDOWN va))) as Hpg. fold pg in Hpg.
  set (n := if len <? pg then len else pg). assert (n = Z.min len pg) as En by (unfold n; case_if; lia). clearbody n pg.
  assert (get_bytes (take (Z.to_nat len) buf) 0 n = get_bytes buf 0 n) as ->.
  { unfold get_bytes. rewrite length_take, !drop_0, take_take.
    rewrite !Nat.min_l by lia. rewrite Z2Nat.id by lia.
    replace (0 + n <=? len) with (0 + n <=? Z.of_nat (length buf)) by lia. done. }
  destruct (lift (get_bytes buf 0 n) s1) as [[bs s2]| | |]; try done. cbv beta iota.
  destruct (page p s2) as [[x s3]| | |]; try done. cbv beta iota.
  destruct (lift (put_bytes x (va - PGROUNDDOWN va) bs) s3) as [[y s4]| | |]; try done. cbv beta iota.
  destruct (set_page p y s4) as [[[] s5]| | |]; try done. cbv beta iota.
  rewrite (u32_small (len - n)) by lia. rewrite IH; [| | |rewrite length_drop; lia]; [|apply u32_range|lia].
  rewrite skipn_firstn_comm. do 3 f_equal. lia.
Qed.

Section stack.
Context (kend data : Z) (junk : Z → list Z) (Hjunk : junk_ok junk).
Context (Hdata : data mod 4096 = 0) (Hlink : KERNLINK < data < KERNBASE + PHYSTOP).
Context (s0 : vm) (held ds tot : list Z) (H0 : vinv kend s0 held ds tot).

Notation vinv := (vinv kend).
Notation space := (space kend data s0 held ds tot).
Notation abandoned := (abandoned kend s0 held ds tot).
Notation room := (room s0).

(** The pages of the device region are not for user code. *)
Lemma device_page m : 1040384 ≤ m < 1048576 → present (kernel_entry data m) = true ∧ Z.land (PTE_FLAGS (kernel_entry data m)) PTE_U = 0.
Proof using Hdata Hlink.
  clear -Hdata Hlink. intros Hm. unfold KERNLINK, KERNBASE, PHYSTOP, EXTMEM in Hlink.
  assert (kernel_entry data m = entry ((1040384 + (m - 1040384)) * 4096) 3) as ->.
  { unfold kernel_entry, kernel_regions. cbn [regions_entry]. unfold in_region. cbn [r_n r_cnt].
    unfold KERNLINK, KERNBASE, PHYSTOP, EXTMEM. rewrite !decide_False by (Z.div_mod_to_equations; lia).
    rewrite decide_True by lia. unfold region_entry. cbn [r_pa r_n r_perm]. change (Z.lor PTE_W 1) with 3. f_equal.
    unfold DEVSPACE. lia. }
  destruct (entry_fields ((1040384 + (m - 1040384)) * 4096) 3) as (_ & -> & ->);
    [by rewrite Z.mod_mul|lia|lia|lia|]. done.
Qed.

Context (d top : Z) (Htop : top mod 4096 = 0) (Htop2 : 8192 ≤ top).
Notation guard := (guarded (top / 4096 - 2)).

Lemma top_pages : npages top = top / 4096.
Proof using Htop. clear -Htop. unfold npages. Z.div_mod_to_equations; lia. Qed.

(** A copy that ends in the stack page or just below it. *)
Lemma push_bytes s h va buf : space s d top guard h → bytes buf → 0 ≤ va → va + Z.of_nat (length buf) ≤ top →
  top - 8192 < va + Z.of_nat (length buf) → (0 < length buf)%nat →
  ∃ r s', copyout junk d va buf (Z.of_nat (length buf)) s = Ret (r, s') ∧
    (r = 0 ∧ top - 4096 ≤ va ∧ space s' d top guard (patch va buf h) ∨
     r = -1 ∧ abandoned s' d ∧ va < top - 4096).
Proof using All.
  intros Hs Hb Hva Hend Hlow Hlen. pose proof (sp_sized _ _ _ _ _ _ _ _ _ _ _ Hs) as [Hr _]. cbn in Hr.
  destruct (copyout_spec kend junk held d ds tot s va buf) as (r & s' & f & E & Hst & Hres);
    [by apply (sp_inv _ _ _ _ _ _ _ _ _ _ _ Hs)|done|done|lia| |].
  { intros m Hm. eapply space_mapped; [exact Hs| | |exact Hm]; lia. }
  exists r, s'. split; [exact E|]. pose proof (space_stored _ _ _ _ _ _ _ _ _ _ _ _ _ Hs Hst) as Hs'.
  assert (∀ m, touched va (Z.of_nat (length buf)) m → uflag s d m = guard m) as Hflag.
  { intros m (H1 & H2 & H3). apply (sp_flags _ _ _ _ _ _ _ _ _ _ _ Hs). rewrite top_pages. Z.div_mod_to_equations; lia. }
  destruct Hres as [(-> & Hu & Hf)|[-> Hu]]; [left|right]; (split; [done|]).
  - destruct (decide (top - 4096 ≤ va)) as [Hok|Hno].
    + split; [done|]. destruct Hs' as [V S G F K O]. split; try done. intros a Ha. rewrite F, Hf by done.
      apply patch_ext. by apply (sp_bytes _ _ _ _ _ _ _ _ _ _ _ Hs).
    + exfalso. assert (touched va (Z.of_nat (length buf)) (top / 4096 - 2)) as Ht.
      { split; [lia|]. Z.div_mod_to_equations; lia. }
      destruct (Hu _ Ht) as (fl & Efl & Hfl). rewrite Hflag in Efl by done. unfold guarded in Efl.
      rewrite decide_True in Efl by done. injection Efl as <-. by apply Hfl.
  - split; [by eapply space_abandoned|]. destruct (decide (va < top - 4096)); [done|]. exfalso. apply Hu.
    intros m Ht. rewrite Hflag by done. destruct Ht as (H1 & H2 & H3). unfold guarded. rewrite decide_False.
    + eexists. split; [done|]. done.
    + Z.div_mod_to_equations; lia.
Qed.

(** A stack pointer that wrapped around. *)
Lemma push_wrapped s h va buf : space s d top guard h → DEVSPACE ≤ va < 2 ^ 32 → (0 < length buf)%nat →
  copyout junk d va buf (Z.of_nat (length buf)) s = Ret (-1, s).
Proof using All.
  intros Hs Hva Hl. unfold DEVSPACE in Hva. assert (1040384 ≤ va / 4096 < 1048576) as Hm by (Z.div_mod_to_equations; lia).
  destruct (device_page _ Hm) as [Hp Hu]. apply (copyout_kernel kend junk s held d ds tot); try lia.
  - apply (sp_inv _ _ _ _ _ _ _ _ _ _ _ Hs).
  - rewrite (sp_kernel _ _ _ _ _ _ _ _ _ _ _ Hs) by (unfold NUSER; lia). done.
  - rewrite (sp_kernel _ _ _ _ _ _ _ _ _ _ _ Hs) by (unfold NUSER; lia). done.
Qed.

Definition arg_ok (arg : list Z) : Prop := bytes arg ∧ Z.of_nat (length arg) < 2 ^ 25.

Lemma push_arg s h sp arg : space s d top guard h → arg_ok arg → top - 4096 ≤ sp ≤ top →
  let va := Z.land (u32 (sp - (Z.of_nat (length arg) + 1))) (u32 (Z.lnot 3)) in
  ∃ r s', copyout junk d va (arg ++ [0]) (Z.of_nat (length arg) + 1) s = Ret (r, s') ∧
    (r = 0 ∧ va = below sp arg ∧ top - 4096 ≤ va ∧ space s' d top guard (patch va (arg ++ [0]) h) ∨
     r = -1 ∧ abandoned s' d ∧ below sp arg < top - 4096).
Proof using All.
  intros Hs [Hb Hl] Hsp va. pose proof (below_spec sp arg) as Hbe. set (n := Z.of_nat (length arg) + 1) in *.
  assert (Z.of_nat (length (arg ++ [0])) = n) as En by (rewrite length_app; cbn; lia). rewrite <-En.
  assert (bytes (arg ++ [0])) as Hb' by (apply Forall_app_2; [done|by repeat constructor]).
  pose proof (sp_sized _ _ _ _ _ _ _ _ _ _ _ Hs) as [Hr _]. cbn in Hr. unfold KERNBASE in Hr.
  assert (va = u32 (sp - n) / 4 * 4) as Eva by (apply mask_word, u32_range).
  destruct (decide (0 ≤ sp - n)) as [Hpos|Hneg].
  - rewrite u32_small in Eva by lia. assert (va = below sp arg) as Eb by done.
    destruct (push_bytes s h va (arg ++ [0]) Hs Hb') as (r & s' & E & Hres); [|lia|lia|lia|].
    { rewrite Eva. Z.div_mod_to_equations; lia. }
    exists r, s'. split; [done|]. destruct Hres as [(-> & H1 & H2)|(-> & H1 & H2)]; [left|right]; split_and!; try done. lia.
  - assert (u32 (sp - n) = sp - n + 2 ^ 32) as Ew.
    { unfold u32. symmetry. apply (Z.mod_unique _ _ (-1)); lia. }
    rewrite Ew in Eva. exists (-1), s. split.
    + apply (push_wrapped s h); [done| |lia]. unfold DEVSPACE. Z.div_mod_to_equations; lia.
    + right. split; [done|]. split; [by eapply space_abandoned|lia].
Qed.

Lemma push_args_spec x0 x1 x2 argv : ∀ s h sp ps pad, space s d top guard h → Forall arg_ok argv →
  (length ps + length pad = 33)%nat → top - 4096 ≤ sp ≤ top →
  ∃ r s', push_args junk d argv (Z.of_nat (length ps)) sp ([x0; x1; x2] ++ ps ++ pad) s = Ret (r, s') ∧
    match r with
    | Some (argc, sp', us) => ∃ qs pad' h', us = [x0; x1; x2] ++ (ps ++ qs) ++ pad' ∧ length qs = length argv ∧
        argc = Z.of_nat (length (ps ++ qs)) ∧ argc ≤ Z.max MAXARG (Z.of_nat (length ps)) ∧ (length (ps ++ qs) + length pad' = 33)%nat ∧
        sp' = stack_ptr sp argv ∧ top - 4096 ≤ sp' ∧ space s' d top guard h' ∧
        (∀ a, ¬ (sp' ≤ a < sp) → h' a = h a) ∧
        ∀ i q arg, qs !! i = Some q → argv !! i = Some arg →
          sp' ≤ q ∧ q + Z.of_nat (length (arg ++ [0])) ≤ sp ∧ reads h' q (arg ++ [0])
    | None => abandoned s' d ∧ (MAXARG < Z.of_nat (length ps) + Z.of_nat (length argv) ∨ stack_ptr sp argv < top - 4096)
    end.
Proof using All.
  induction argv as [|arg argv IH]; intros s h sp ps pad Hs Hargs Hlen Hsp; cbn [push_args].
  { eexists _, s. split; [done|]. cbn beta iota. exists [], pad, h. rewrite app_nil_r.
    split_and!; try done; lia. }
  apply Forall_cons in Hargs as [Harg Hargs]. destruct (MAXARG <=? Z.of_nat (length ps)) eqn:Em; bool_to_prop.
  { exists None, s. split; [done|]. split; [by eapply space_abandoned|]. left. rewrite length_cons. lia. }
  cbv zeta. destruct (push_arg s h sp arg Hs Harg Hsp) as (r & s1 & E & Hres). cbn zeta in E, Hres.
  set (va := Z.land _ _) in *. erewrite M_bind_run by exact E. cbn beta.
  destruct Hres as [(-> & Eva & Hva & Hs1)|(-> & Hab & Hlow)].
  2:{ change (-1 <? 0) with true. exists None, s1. split; [done|]. split; [done|]. right. cbn.
      pose proof (stack_ptr_le argv (below sp arg)). unfold stack_ptr in *. lia. }
  change (0 <? 0) with false. cbn iota. destruct pad as [|y pad]; [cbn in Hlen; unfold MAXARG in Em; lia|].
  assert (arr_set ([x0; x1; x2] ++ ps ++ y :: pad) (3 + Z.of_nat (length ps)) va = Ret ([x0; x1; x2] ++ (ps ++ [va]) ++ pad)) as ->.
  { rewrite arr_set_in by (rewrite !length_app; cbn; lia). f_equal.
    replace (Z.to_nat (3 + Z.of_nat (length ps))) with (length ([x0; x1; x2] ++ ps) + 0)%nat by (rewrite length_app; cbn; lia).
    rewrite app_assoc, insert_app_r. cbn [insert list_insert]. by rewrite <-!app_assoc. }
  erewrite M_bind_run by (unfold lift; reflexivity). cbn beta.
  replace (Z.of_nat (length ps) + 1) with (Z.of_nat (length (ps ++ [va]))) by (rewrite length_app; cbn; lia).
  pose proof (below_spec sp arg) as Hbe.
  destruct (IH s1 _ va (ps ++ [va]) pad Hs1 Hargs) as (r & s2 & E2 & Hres); [rewrite length_app; cbn in *; lia|lia|].
  exists r, s2. split; [exact E2|]. destruct r as [[[argc sp'] us]|].
  - destruct Hres as (qs & pad' & h' & Hus & Hq & Hargc & Hmax & Hl & Hsp' & Htop' & Hs2 & Hsame & Hread).
    exists (va :: qs), pad', h'. rewrite <-app_assoc in *. cbn [app] in *.
    assert (length (arg ++ [0]) = S (length arg)) as Hla by (rewrite length_app; cbn; lia).
    pose proof (stack_ptr_le argv va) as Hle. split_and!; try done.
    + by rewrite Hus, <-app_assoc.
    + cbn. by rewrite Hq.
    + revert Hmax. rewrite length_app. cbn [length]. lia.
    + cbn [stack_ptr foldl]. by rewrite <-Eva.
    + intros a Ha. rewrite Hsame by lia. unfold patch. rewrite decide_False by lia. done.
    + intros i q arg' Hi Ha. destruct i as [|i]; cbn in Hi, Ha.
      * injection Hi as <-. injection Ha as <-. split; [lia|]. split; [lia|].
        eapply reads_same; [|apply (reads_patch va (arg ++ [0]) h); lia]. intros x Hx. apply Hsame. lia.
      * destruct (Hread i q arg' Hi Ha) as (H1 & H2 & H3). split_and!; [lia|lia|done].
  - destruct Hres as [Hab Hwhy]. split; [done|]. rewrite length_app in Hwhy. cbn [length stack_ptr foldl] in *. rewrite <-Eva.
    unfold stack_ptr in Hwhy. lia.
Qed.
End stack.

Section user_stack.
Context (kend data : Z) (junk : Z → list Z) (Hjunk : junk_ok junk).
Context (Hdata : data mod 4096 = 0) (Hlink : KERNLINK < data < KERNBASE + PHYSTOP).
Context (s0 : vm) (held ds tot : list Z) (H0 : vinv kend s0 held ds tot).

Notation space := (space kend data s0 held ds tot).
Notation abandoned := (abandoned kend s0 held ds tot).

Lemma stack_top_facts sz : 0 ≤ sz → stack_top sz mod 4096 = 0 ∧ 8192 ≤ stack_top sz ∧
  stack_top sz / 4096 - 2 = npages sz ∧ npages (stack_top sz) = npages sz + 2 ∧ stack_top sz = npages sz * 4096 + 8192.
Proof. unfold stack_top, npages. intros. split_and!; Z.div_mod_to_equations; lia. Qed.

(** The guard page below a stack page, both new. *)
Lemma stack_pages s d sz h : space s d sz (λ _, Some 7) h → 0 ≤ sz →
  ∃ r s', allocuvm kend junk d (PGROUNDUP sz) (u32 (PGROUNDUP sz + 2 * PGSIZE)) s = Ret (r, s') ∧
    (r = stack_top sz ∧ space s' d r (λ _, Some 7) (zeroed sz (stack_top sz) h) ∨
     r = 0 ∧ abandoned s' d ∧ (KERNBASE ≤ stack_top sz ∨ ¬ room s0 (stack_top sz))).
Proof using All.
  intros Hs Hsz. destruct (stack_top_facts sz Hsz) as (T1 & T2 & T3 & T4 & T5).
  pose proof (sp_sized _ _ _ _ _ _ _ _ _ _ _ Hs) as [Hr Hu]. cbn in Hr, Hu.
  assert (npages sz * 4096 ≤ KERNBASE) as HN by (unfold npages, KERNBASE in *; Z.div_mod_to_equations; lia).
  assert (npages (npages sz * 4096) = npages sz) as En by (unfold npages; Z.div_mod_to_equations; lia).
  rewrite PGROUNDUP_npages by (unfold PGSIZE, KERNBASE in *; lia). rewrite u32_small by (unfold PGSIZE, KERNBASE in *; lia).
  replace (npages sz * 4096 + 2 * PGSIZE) with (stack_top sz) by (unfold PGSIZE; lia).
  assert (space s d (npages sz * 4096) (λ _, Some 7) h) as Hs'.
  { destruct Hs as [V S G F K O]. split; try done; [|by rewrite En]. split; [cbn; lia|]. cbn. by rewrite En. }
  destruct (grow_space kend data junk Hjunk Hdata Hlink s0 held ds tot H0 s d _ _ h (stack_top sz) Hs')
    as (r & s' & E & Hres); [unfold KERNBASE in *; lia|]. exists r, s'. split; [exact E|].
  destruct Hres as [(Hnz & Hlt & -> & Hg)|(-> & Hg & Hwhy)]; [left|right].
  - rewrite Z.max_r in * by lia. split; [done|]. destruct Hg as [V S G F K O]. split; try done.
    + intros m Hm. rewrite G by done. by case_decide.
    + intros a Ha. rewrite F by done. unfold zeroed. by rewrite En.
  - split; [done|]. split; [by eapply space_abandoned|]. destruct Hwhy as [?|[?|?]]; [by left|lia|by right].
Qed.

Lemma guard_page s d sz h : space s d (stack_top sz) (λ _, Some 7) h → 0 ≤ sz →
  ∃ s', clearpteu junk d (u32 (stack_top sz - 2 * PGSIZE)) s = Ret (tt, s') ∧
    space s' d (stack_top sz) (guarded (stack_top sz / 4096 - 2)) h.
Proof using All.
  intros Hs Hsz. destruct (stack_top_facts sz Hsz) as (T1 & T2 & T3 & T4 & T5).
  pose proof (sp_sized _ _ _ _ _ _ _ _ _ _ _ Hs) as [Hr Hu]. cbn in Hr, Hu. pose proof Hs as [V S G F K O].
  assert (0 ≤ npages sz) by (unfold npages; Z.div_mod_to_equations; lia).
  pose proof (sized_npages _ _ _ S) as HN. rewrite T4 in *.
  rewrite u32_small by (unfold PGSIZE, KERNBASE in *; lia).
  replace (stack_top sz - 2 * PGSIZE) with (npages sz * 4096) by (unfold PGSIZE; lia).
  destruct (clearpteu_spec kend junk s held d ds tot (npages sz) V) as (s' & E & Hst); [lia|apply Hu; lia|].
  exists s'. split; [exact E|]. rewrite T3. destruct Hst as [V' G' F' K' _ O']. split; try done.
  - eapply sized_flags; [|exact S]. intros m Hm. rewrite G' by done. case_decide as Em; [right|by left].
    subst m. unfold uflag. destruct (Hu (npages sz)) as [_ [x ->]]; [lia|lia|]. by split; eexists.
  - intros m Hm. rewrite T4 in Hm. rewrite G' by lia. unfold guarded. case_decide as Em; [subst m|]; rewrite G by lia; done.
  - intros a Ha. rewrite F' by done. by apply F.
  - intros m Hm. rewrite K' by done. by apply K.
  - by eapply others_trans.
Qed.

Lemma fits_spec top argv : fits top argv ↔ Z.of_nat (length argv) ≤ MAXARG ∧ top - 4096 ≤ stack_ptr top argv ∧
  top - 4096 ≤ entry_sp top argv.
Proof. unfold fits, entry_sp. lia. Qed.

(** Storing into the words of [ustack]. *)
Lemma set_ustack (l1 l2 : list Z) x y i : i = Z.of_nat (length l1) → arr_set (l1 ++ x :: l2) i y = Ret (l1 ++ y :: l2).
Proof.
  intros ->. rewrite arr_set_in by (rewrite length_app; cbn; lia). f_equal. rewrite Nat2Z.id.
  replace (length l1) with (length l1 + 0)%nat by lia. by rewrite insert_app_r.
Qed.

Lemma set_ustack_012 a b c (l : list Z) y :
  arr_set (a :: b :: c :: l) 0 y = Ret (y :: b :: c :: l) ∧ arr_set (a :: b :: c :: l) 1 y = Ret (a :: y :: c :: l) ∧
  arr_set (a :: b :: c :: l) 2 y = Ret (a :: b :: y :: l).
Proof. split_and!; [by apply (set_ustack [])|by apply (set_ustack [a])|by apply (set_ustack [a; b])]. Qed.

Lemma user_stack_spec s d sz h argv : space s d sz (λ _, Some 7) h → 0 ≤ sz → Forall arg_ok argv →
  ∃ r s', user_stack kend junk d sz argv s = Ret (r, s') ∧
    match r with
    | Some (top, sp) => top = stack_top sz ∧ sp = entry_sp top argv ∧ fits top argv ∧
        ∃ h', space s' d top (guarded (npages sz)) h' ∧ main_args h' sp argv ∧
          ∀ a, 0 ≤ a < npages sz * 4096 → h' a = h a
    | None => abandoned s' d ∧ (KERNBASE ≤ stack_top sz ∨ ¬ fits (stack_top sz) argv ∨ ¬ room s0 (stack_top sz))
    end.
Proof using All.
  intros Hs Hsz Hargs. destruct (stack_top_facts sz Hsz) as (T1 & T2 & T3 & T4 & T5). unfold user_stack. cbv zeta.
  destruct (stack_pages s d sz h Hs Hsz) as (r & s1 & E1 & Hr). erewrite M_bind_run by exact E1. cbn beta.
  destruct Hr as [(-> & Hs1)|(-> & Hab & Hwhy)].
  2:{ change (0 =? 0) with true. exists None, s1. split; [done|]. split; [done|]. tauto. }
  assert (stack_top sz =? 0 = false) as -> by lia. set (top := stack_top sz) in *.
  destruct (guard_page s1 d sz _ Hs1 Hsz) as (s2 & E2 & Hs2). erewrite M_bind_run by exact E2. fold top in Hs2. rewrite T3 in Hs2.
  pose proof (sp_sized _ _ _ _ _ _ _ _ _ _ _ Hs2) as [Hr2 _]. cbn in Hr2. rewrite <-T3 in Hs2.
  destruct (push_args_spec kend data junk Hjunk Hdata Hlink s0 held ds tot H0 d top T1 T2 0 0 0 argv s2 _ top []
    (replicate 33 0) Hs2 Hargs) as (r & s3 & E3 & Hr3); [done|lia|].
  change ([0; 0; 0] ++ [] ++ replicate 33 0) with (replicate (Z.to_nat (3 + MAXARG + 1)) 0) in E3.
  change (Z.of_nat (length [])) with 0 in E3. erewrite M_bind_run by exact E3. cbn beta.
  destruct r as [[[argc sp] us]|].
  2:{ destruct Hr3 as [Hab Hwhy]. exists None, s3. split; [done|]. split; [done|]. right. left.
      rewrite fits_spec. cbn in Hwhy. unfold top in *. lia. }
  destruct Hr3 as (qs & pad & h3 & -> & Hq & -> & Hmax & Hpad & -> & Hsp & Hs3 & Hsame & Hread). cbn [app] in *.
  set (sp := stack_ptr top argv) in *. pose proof (stack_ptr_le argv top) as Hsple. fold sp in Hsple.
  assert (Z.of_nat (length qs) ≤ MAXARG) as Hargc by (cbn in Hmax; unfold MAXARG in *; lia).
  destruct pad as [|y pad]; [cbn in *; unfold MAXARG in *; lia|].
  set (n := Z.of_nat (length qs)) in *.
  assert (arr_set (0 :: 0 :: 0 :: qs ++ y :: pad) (3 + n) 0 = Ret (0 :: 0 :: 0 :: qs ++ 0 :: pad)) as ->.
  { apply (set_ustack (0 :: 0 :: 0 :: qs)). cbn. lia. }
  erewrite M_bind_run by (unfold lift; reflexivity). cbn beta.
  erewrite M_bind_run by (unfold lift; rewrite (proj1 (set_ustack_012 _ _ _ _ _)); reflexivity). cbn beta.
  erewrite M_bind_run by (unfold lift; rewrite (proj1 (proj2 (set_ustack_012 _ _ _ _ _))); reflexivity). cbn beta.
  erewrite M_bind_run by (unfold lift; rewrite (proj2 (proj2 (set_ustack_012 _ _ _ _ _))); reflexivity). cbn beta.
  assert (0 ≤ n ≤ 32) as Hn by (unfold MAXARG in *; lia). unfold KERNBASE in Hr2.
  rewrite !u32_small by lia. replace (3 + n + 1) with (4 + n) by lia.
  assert (sp - (4 + n) * 4 = entry_sp top argv) as Eesp by (unfold entry_sp; fold sp; rewrite <-Hq; done). rewrite Eesp.
  replace (sp - (n + 1) * 4) with (entry_sp top argv + 12) by lia. set (esp := entry_sp top argv) in *.
  set (ws := 0xffffffff :: n :: esp + 12 :: qs ++ [0]).
  set (us := 0xffffffff :: n :: esp + 12 :: qs ++ 0 :: pad).
  assert (le32s ws = take (Z.to_nat ((4 + n) * 4)) (le32s us)) as Ews.
  { replace (Z.to_nat ((4 + n) * 4)) with (4 * (length ws))%nat by (unfold ws; cbn; rewrite length_app; cbn; lia).
    rewrite le32s_take. f_equal. assert (us = ws ++ pad) as -> by (unfold us, ws; cbn; by rewrite <-app_assoc). by rewrite take_app_length. }
  assert (Z.of_nat (length (le32s ws)) = (4 + n) * 4) as Elen.
  { rewrite le32s_length. unfold ws. cbn. rewrite length_app. cbn. lia. }
  assert (copyout junk d esp (le32s us) ((4 + n) * 4) s3 = copyout junk d esp (le32s ws) (Z.of_nat (length (le32s ws))) s3) as Ecp.
  { rewrite Elen, Ews. unfold copyout. apply copyout_take; [lia|lia|]. rewrite le32s_length. unfold us. cbn. rewrite length_app. cbn. lia. }
  destruct (push_bytes kend data junk Hjunk Hdata Hlink s0 held ds tot H0 d top T1 T2 s3 h3 esp (le32s ws) Hs3) as (r & s4 & E4 & Hr4).
  { apply le32s_bytes. } { lia. } { lia. } { lia. } { lia. }
  erewrite M_bind_run by (rewrite Ecp; exact E4). cbn beta. destruct Hr4 as [(-> & Hlo & Hs4)|(-> & Hab & Hlow)].
  2:{ change (-1 <? 0) with true. exists None, s4. split; [done|]. split; [done|]. right. left. rewrite fits_spec. fold esp. lia. }
  change (0 <? 0) with false. cbn iota. exists (Some (top, esp)), s4. split; [done|].
  split; [done|]. split; [done|]. split. { rewrite fits_spec. fold esp sp. rewrite <-Hq. fold n. done. }
  rewrite T3 in Hs4. exists (patch esp (le32s ws) h3). split; [done|]. split.
  - exists qs. split; [done|]. split.
    + rewrite <-Hq. fold n. fold ws. apply reads_patch. lia.
    + intros i q arg Hi Ha. destruct (Hread i q arg Hi Ha) as (H1 & H2 & H3). eapply reads_same; [|exact H3].
      intros x Hx. unfold patch. rewrite decide_False by lia. done.
  - intros a Ha. unfold patch. rewrite decide_False by lia. rewrite Hsame by lia. unfold zeroed.
    rewrite decide_False; [done|]. Z.div_mod_to_equations; lia.
Qed.
End user_stack.
