(* ===== verification/ExecSafe.v ===== *)
(** * What exec does ([exec.c])

    [exec] replaces the address space of the caller by the image in the file,
    or leaves everything as it was; it fails for a bad image, for arguments
    that do not fit, or for lack of memory, and for nothing else. *)

From stdpp Require Import base numbers list gmap sets strings.
From S2P Require Import Prelude Spinlock Kalloc Fs FsBlocks FsInode FsFile File Syscall Vm VmInv VmOps VmKernel VmSafe VmUser Exec ExecLoad ExecStack.

Open Scope Z_scope.

(** ** Files whose blocks are all there *)
Lemma slice_frange s x n o m : 0 ≤ o → 0 ≤ m → o + m ≤ n → slice (frange s x 0 n) o m = frange s x o m.
Proof.
  intros Ho Hm Hn. rewrite (frange_split s x 0 o n) by lia. rewrite Z.add_0_l.
  rewrite (frange_split s x o m (n - o)) by lia. unfold slice.
  assert (∀ a b, 0 ≤ b → length (frange s x a b) = Z.to_nat b) as Hl.
  { intros a b Hb. unfold frange. by rewrite length_fmap, length_seqZ. }
  rewrite drop_app_length' by (by rewrite Hl by lia). by rewrite take_app_length' by (by rewrite Hl by lia).
Qed.

Lemma holds_file dev_read s ip x : file_ok s ip x → type x ≠ T_DEV → 0 ≤ size x ≤ MAXFILE * BSIZE →
  (∀ i, 0 ≤ i < ceil512 (size x) → slot s x i ≠ 0) → bytes (frange s x 0 (size x)) →
  holds dev_read s ip (frange s x 0 (size x)).
Proof.
  change (MAXFILE * BSIZE) with 71680. intros Hok Ht Hsz Hsl Hb.
  assert (Z.of_nat (length (frange s x 0 (size x))) = size x) as Hl.
  { unfold frange. rewrite length_fmap, length_seqZ. lia. }
  split; [done|]. rewrite Hl. split; [lia|]. intros off n Ho Hn. destruct (u32_add_overflow off n Ho Hn) as [Eo Es].
  unfold readi. erewrite M_bind_run by (apply get_inode_run, (f_inode _ _ _ Hok)).
  apply Z.eqb_neq in Ht. rewrite Ht, Eo. unfold file_read. rewrite Hl. cbv zeta. case_if as E; [done|]. bool_to_prop.
  rewrite Es by lia. set (r := Z.min n (size x - off)).
  assert ((if size x <? off + n then u32 (size x - off) else n) = r) as ->.
  { unfold r. case_if; [rewrite u32_small by lia|]; lia. }
  assert (0 ≤ r ∧ off + r ≤ size x) as Hr by (unfold r; lia).
  erewrite M_bind_run.
  2:{ apply (readi_loop_hit ip _ s x); try done; try lia. rewrite Z.sub_0_r. intros i Hi. apply Hsl.
      unfold ceil512 in *. Z.div_mod_to_equations; lia. }
  rewrite Z.sub_0_r, slice_frange by lia. done.
Qed.

Section exec.
Context (kend data : Z) (junk : Z → list Z) (Hjunk : junk_ok junk).
Context (Hdata : data mod 4096 = 0) (Hlink : KERNLINK < data < KERNBASE + PHYSTOP).

Lemma others_tail s s' held d ds : others s s' held (d :: ds) → others s s' held ds.
Proof.
  intros H p Hp. apply H. apply elem_of_app in Hp as [Hp|Hp]; apply elem_of_app; [by left|right].
  cbn [fmap list_fmap concat]. apply elem_of_app. by right.
Qed.

(** The label [bad], with and without a file to put back. *)
Lemma bad_file_run s0 s held ds tot d ip k f3 c : (if d =? 0 then vinv kend s held ds tot ∧ others s0 s held ds
    else abandoned kend s0 held ds tot s d) → iunlockput ip (fsys k) = Ret (tt, f3) →
  ∃ s', bad kend junk d (Some ip) (ESt s k c) = Ret (-1, ESt s' (KSt (ftable k) (pipes k) f3 (ops k - 1)) c) ∧
    vinv kend s' held ds tot ∧ others s0 s' held ds.
Proof using Hjunk.
  intros Hs Eput. unfold bad. assert (∃ s', (if d =? 0 then mret tt else on_mem (freevm kend junk d)) (ESt s k c) = Ret (tt, ESt s' k c) ∧
    vinv kend s' held ds tot ∧ others s0 s' held ds) as (s' & E & V & O).
  { destruct (d =? 0); [by exists s; destruct Hs|]. destruct Hs as [V O].
    destruct (freevm_spec kend junk Hjunk s held d ds tot V) as (s' & E & V' & O'). exists s'.
    split; [unfold on_mem; cbn [emem]; by rewrite E|]. split; [done|]. by eapply others_trans. }
  exists s'. split; [|done]. erewrite M_bind_run by exact E. erewrite M_bind_run.
  2:{ erewrite M_bind_run.
      2:{ unfold on_inode, on_files, File.on_fs. cbn [efiles]. rewrite Eput. reflexivity. }
      reflexivity. }
  reflexivity.
Qed.

Lemma bad_run s0 s held ds tot d k c : d ≠ 0 → abandoned kend s0 held ds tot s d →
  ∃ s', bad kend junk d None (ESt s k c) = Ret (-1, ESt s' k c) ∧ vinv kend s' held ds tot ∧ others s0 s' held ds.
Proof using Hjunk.
  intros Hd [V O]. apply Z.eqb_neq in Hd. unfold bad. rewrite Hd.
  destruct (freevm_spec kend junk Hjunk s held d ds tot V) as (s' & E & V' & O'). exists s'. split.
  - erewrite M_bind_run by (unfold on_mem; cbn [emem]; rewrite E; reflexivity). done.
  - split; [done|]. by eapply others_trans.
Qed.

(** Giving up the old space leaves the new one. *)
Lemma exec_commit_run s0 s held old ds tot d g h top sz entry sp path k c : t_pgdir c = old → 0 ≤ top →
  space kend data s0 held (old :: ds) tot s d top g h →
  ∃ s', commit kend junk d sz entry sp path (ESt s k c) =
      Ret (0, ESt s' k (Task d sz entry sp (take 15 (last_elem path path)) (t_cwd c))) ∧
    space kend data s0 held ds tot s' d top g h.
Proof using Hjunk.
  intros <- Htop [V S G F K O]. set (old := t_pgdir c) in *.
  assert (vinv kend s held (old :: d :: ds) tot) as V2 by (eapply vinv_ds; [apply Permutation_swap|done]).
  destruct (freevm_spec kend junk Hjunk s held old (d :: ds) tot V2) as (s' & E & V' & O').
  exists s'. split. { unfold commit. cbn [emem cur]. fold old. by rewrite E. }
  destruct (others_same s s' held (d :: ds) d O') as [[_ Hpte] Hus]; [apply elem_of_cons; by left|].
  pose proof (sized_npages _ _ _ S) as HN. split; try done.
  - destruct S as [Hr Hu]. split; [done|]. intros m Hm. cbn in *. by rewrite Hus, Hu.
  - intros m Hm. unfold uflag. rewrite Hus by lia. by apply G.
  - intros a Ha. unfold ubyte. rewrite Hus by (unfold NUSER, KERNBASE in *; Z.div_mod_to_equations; lia). by apply F.
  - intros m Hm. rewrite Hpte by (unfold NUSER in Hm; lia). by apply K.
  - eapply others_trans; [by eapply others_tail|by eapply others_tail].
Qed.

Context (dev_read : Z → option (nat → Z → M fs (Z * list Z))).


(** A path that names nothing. *)
Lemma exec_no_file mem k p path argv f1 : namei dev_read (t_cwd p) path (fsys k) = Ret (None, f1) →
  exec kend data junk dev_read path argv (ESt mem k p) = Ret (-1, ESt mem (KSt (ftable k) (pipes k) f1 (ops k + 1 - 1)) p).
Proof.
  intros Hname. unfold exec. erewrite M_bind_run by reflexivity. cbn beta. erewrite M_bind_run by reflexivity.
  cbn beta. cbn [cur]. erewrite M_bind_run.
  2:{ unfold on_inode, on_files, File.on_fs. cbn [efiles emem cur fsys ftable pipes ops]. rewrite Hname. reflexivity. }
  reflexivity.
Qed.

(** An argument so long that the stack pointer wraps around to an address
    without a page table: [uva2ka] uses the null pointer that [walkpgdir]
    returns, which in the running process is the first word of user memory. *)
Lemma exec_huge_argument s held d ds tot arg argv argc sp ustack : vinv kend s held (d :: ds) tot → argc < MAXARG →
  let va := Z.land (u32 (sp - (Z.of_nat (length arg) + 1))) (u32 (Z.lnot 3)) in
  present (W s d (va / 4096 / 1024)) = false →
  push_args junk d (arg :: argv) argc sp ustack s = Undef.
Proof.
  intros Hv Hargc va Hp. cbn [push_args]. destruct (MAXARG <=? argc) eqn:E; bool_to_prop; [lia|]. cbv zeta. fold va.
  assert (0 ≤ va < 2 ^ 32) as Hva.
  { unfold va. pose proof (u32_range (sp - (Z.of_nat (length arg) + 1))). rewrite mask_word by done.
    Z.div_mod_to_equations; lia. }
  assert (uva2ka junk d (va / 4096 * 4096) s = Undef) as Eu.
  { unfold uva2ka, mbind, M_bind. rewrite (walk_absent kend junk s held d (d :: ds) tot); [done|done|by apply elem_of_cons; left| |].
    - Z.div_mod_to_equations; lia.
    - by rewrite Z.div_mul. }
  assert (copyout junk d va (arg ++ [0]) (Z.of_nat (length arg) + 1) s = Undef) as Ec.
  { unfold copyout. destruct (Z.to_nat (Z.of_nat (length arg) + 1)) as [|fuel] eqn:Ef; [lia|]. cbn [copyout_loop].
    case_if; [|lia]. cbv zeta. rewrite PGROUNDDOWN_eq by done. unfold mbind, M_bind. by rewrite Eu. }
  unfold mbind, M_bind. by rewrite Ec.
Qed.
End exec.

(** ** An example: a program without segments *)
Definition demo_header : list Z := [127; 69; 76; 70] ++ replicate 48 0.
Definition demo_prog (r l : Z) : inode := Inode 1 1 r (SLock l 0) 1 T_FILE 0 0 1 52 (5 :: replicate 12 0).
Definition demo_disk (r l : Z) : fs :=
  Fs (<[5 := demo_header ++ replicate 460 0]> (blk demo_fs)) demo_sb [demo_prog r l].

Lemma demo_prog_slot r l i : 0 ≤ i → slot (demo_disk r l) (demo_prog r l) i = if decide (i = 0) then 5 else 0.
Proof.
  intros H0. unfold slot. change (ind (demo_prog r l)) with 0. destruct (i <? 12) eqn:Ei; bool_to_prop.
  - case_decide as Hi; [by subst i|]. cbn [addrs demo_prog].
    destruct (Z.to_nat i) as [|j] eqn:Ej; [lia|]. cbn [lookup list_lookup].
    destruct (replicate 12 0 !! j) eqn:El; [|done]. by apply lookup_replicate in El as [-> _].
  - rewrite decide_False by lia. by case_if.
Qed.

Lemma demo_prog_blocks r l b : 0 ≤ b < 20 → BBLOCK b (demo_disk r l) = 3 ∧
  ∃ d, blk (demo_disk r l) !! b = Some d ∧ length d = 512%nat.
Proof.
  intros Hb. split; [unfold BBLOCK, BPB; cbn [sb demo_disk bmapstart demo_sb]; by rewrite Z.div_small by lia|].
  destruct (decide (b = 5)) as [->|Hne].
  - cbn [blk demo_disk]. rewrite lookup_insert_eq. eexists. split; [done|]. done.
  - cbn [blk demo_disk]. rewrite lookup_insert_ne by done. exact (f_disk _ _ _ demo_file_ok b Hb).
Qed.

Lemma demo_prog_ok r l : file_ok (demo_disk r l) 0 (demo_prog r l).
Proof.
  assert (∀ i, 0 ≤ i ≤ INDIRECT → slot (demo_disk r l) (demo_prog r l) i ≠ 0 → i = 0) as Hs.
  { intros i Hi H. rewrite demo_prog_slot in H by lia. by case_decide. }
  split; try done.
  - destruct demo_bitmap_ok as [B1 B2 B3]. split; [done|..].
    + intros b Hb. destruct (demo_prog_blocks r l b Hb) as [-> _]. by apply demo_prog_blocks.
    + intros b Hb Hf. split.
      * destruct (demo_prog_blocks r l b Hb) as (_ & d & -> & _). done.
      * intros b' Hb'. destruct (demo_prog_blocks r l b' Hb') as [-> _]. intros <-. vm_compute in Hf. done.
  - intros b Hb. by apply demo_prog_blocks.
  - intros i Hi H. rewrite (Hs i Hi H), demo_prog_slot, decide_True by (lia || done). constructor.
    + done.
    + done.
    + intros b Hb. destruct (demo_prog_blocks r l b Hb) as [-> _]. done.
  - intros i j Hi Hj H1 E. rewrite (Hs i Hi H1). symmetry. apply Hs; [done|]. by rewrite <-E.
Qed.

Lemma demo_prog_holds r l : holds (λ _, None) (demo_disk r l) 0 demo_header.
Proof.
  assert (frange (demo_disk r l) (demo_prog r l) 0 52 = demo_header) as <- by (vm_compute; reflexivity).
  apply (holds_file (λ _, None) (demo_disk r l) 0 (demo_prog r l)).
  - apply demo_prog_ok.
  - done.
  - vm_compute. split; intros [=].
  - intros i Hi. change (ceil512 (size (demo_prog r l))) with 1 in Hi. rewrite demo_prog_slot, decide_True by lia. done.
  - assert (frange (demo_disk r l) (demo_prog r l) 0 (size (demo_prog r l)) = demo_header) as -> by (vm_compute; reflexivity).
    repeat constructor; vm_compute; intros [=].
Qed.

