(* ===== verification/Mkfs.v ===== *)
(** * The program that builds the disk image (xv6 [mkfs.c])

    mkfs runs on the host and writes the image that the kernel boots from.  The
    image is a host file, here the map from its sectors to their 512 bytes; the
    host stores integers in little-endian order.  [exit(1)] and a failed [assert]
    are a [Panic].  A host file that is copied into the image is the list of the
    chunks that [read] returns for it. *)

From stdpp Require Import base numbers list gmap sets strings.
From S2P Require Import Prelude Fs.

Open Scope Z_scope.

(** ** The layout *)
Definition NINODES : Z := 200.
Definition FSSIZE : Z := 1000.
Definition LOGSIZE : Z := 30.

Definition nbitmap : Z := FSSIZE / (BSIZE * 8) + 1.
Definition ninodeblocks : Z := NINODES / IPB + 1.
Definition nmeta : Z := 2 + LOGSIZE + ninodeblocks + nbitmap.

(** To Intel byte order and back: the value whose bytes in memory are the
    little-endian bytes of [x]. *)
Definition xshort (x : Z) : Z := u8 x + 256 * u8 (Z.shiftr x 8).
Definition xint (x : Z) : Z :=
  u8 x + 256 * u8 (Z.shiftr x 8) + 65536 * u8 (Z.shiftr x 16) + 16777216 * u8 (Z.shiftr x 24).

(** The super block that [main] fills in. *)
Definition mksb : superblock :=
  SuperBlock (xint FSSIZE) (xint (FSSIZE - nmeta)) (xint NINODES) (xint LOGSIZE) (xint 2)
    (xint (2 + LOGSIZE)) (xint (2 + LOGSIZE + ninodeblocks)).

Record dinode := Dinode {
  d_type : Z; d_major : Z; d_minor : Z; d_nlink : Z; d_size : Z; d_addrs : list Z
}.
Definition set_dsize (d : dinode) (n : Z) : dinode :=
  Dinode (d_type d) (d_major d) (d_minor d) (d_nlink d) n (d_addrs d).
Definition set_daddrs (d : dinode) (a : list Z) : dinode :=
  Dinode (d_type d) (d_major d) (d_minor d) (d_nlink d) (d_size d) a.

(** The image, and the globals [freeinode] and [freeblock]. *)
Record mk := Mk { img : gmap Z (list Z); freeinode : Z; freeblock : Z }.
Definition mk0 : mk := Mk ∅ 1 0.

(** ** Sectors *)

(** The sector at the file offset that [lseek] is given. *)
Definition sector (sec : Z) : Z := u32 (sec * BSIZE) / BSIZE.

(** Writing behind the end extends the host file. *)
Definition wsect (sec : Z) (buf : list Z) : M mk unit := fun s =>
  Ret (tt, Mk (<[sector sec := buf]> (img s)) (freeinode s) (freeblock s)).
Definition rsect (sec : Z) : M mk (list Z) := fun s =>
  match img s !! sector sec with Some d => Ret (d, s) | None => Panic "read" end.

(** ** Inodes *)
Definition iblock (inum : Z) : Z := inum / IPB + inodestart mksb.
(** The byte offset of [((struct dinode* )buf) + (inum % IPB)]. *)
Definition dip_at (inum : Z) : Z := inum mod IPB * 64.

Definition winode (inum : Z) (ip : dinode) : M mk unit :=
  let bn := iblock inum in
  buf ← rsect bn;
  let o := dip_at inum in
  buf ← lift (put16 buf o (d_type ip));
  buf ← lift (put16 buf (o + 2) (d_major ip));
  buf ← lift (put16 buf (o + 4) (d_minor ip));
  buf ← lift (put16 buf (o + 6) (d_nlink ip));
  buf ← lift (put32 buf (o + 8) (d_size ip));
  buf ← lift (put32s buf (o + 12) (d_addrs ip));
  wsect bn buf.

Definition rinode (inum : Z) : M mk dinode :=
  buf ← rsect (iblock inum);
  let o := dip_at inum in
  ty ← lift (get16 buf o);
  ma ← lift (get16 buf (o + 2));
  mi ← lift (get16 buf (o + 4));
  nl ← lift (get16 buf (o + 6));
  sz ← lift (get32 buf (o + 8));
  ad ← lift (get32s buf (o + 12) 13);
  mret (Dinode (i16 ty) (i16 ma) (i16 mi) (i16 nl) sz ad).

(** [freeinode++] and [freeblock++]. *)
Definition next_inode : M mk Z := fun s =>
  Ret (freeinode s, Mk (img s) (u32 (freeinode s + 1)) (freeblock s)).
Definition next_block : M mk Z := fun s =>
  Ret (freeblock s, Mk (img s) (freeinode s) (u32 (freeblock s + 1))).
Definition set_freeblock (b : Z) : M mk unit := fun s => Ret (tt, Mk (img s) (freeinode s) b).

Definition ialloc (type : Z) : M mk Z :=
  inum ← next_inode;
  winode inum (Dinode (i16 (xshort type)) 0 0 (i16 (xshort 1)) (xint 0) (replicate 13 0)) ;;
  mret inum.

(** ** Appending to a file *)

(** [if(xint(din.addrs[i]) == 0) din.addrs[i] = xint(freeblock++)], and the
    address. *)
Definition map_addr (din : dinode) (i : Z) : M mk (dinode * Z) :=
  a ← lift (arr_get (d_addrs din) i);
  din ← (if xint a =? 0 then
           b ← next_block;
           ad ← lift (arr_set (d_addrs din) i (xint b));
           mret (set_daddrs din ad)
         else mret din);
  a ← lift (arr_get (d_addrs din) i);
  mret (din, xint a).

(** The same for an entry of the indirect block [ind]. *)
Definition map_entry (ind j : Z) : M mk Z :=
  indirect ← rsect ind;
  w ← lift (get32 indirect (4 * j));
  indirect ← (if w =? 0 then
           b ← next_block;
           indirect ← lift (put32 indirect (4 * j) (xint b));
           wsect ind indirect ;;
           mret indirect
         else mret indirect);
  w ← lift (get32 indirect (4 * j));
  mret (xint w).

(** The block [x] that holds block [fbn] of the contents, with the inode, which
    may have got a new address. *)
Definition map_block (din : dinode) (fbn : Z) : M mk (dinode * Z) :=
  if fbn <? NDIRECT then map_addr din fbn
  else
    '(din, ind) ← map_addr din NDIRECT;
    x ← map_entry ind (fbn - NDIRECT);
    mret (din, x).

(** The loop of [iappend]: the inode and the offset at its end.  Every round
    copies at least one byte. *)
Fixpoint iappend_loop (din : dinode) (p : list Z) (off n : Z) (fuel : nat) : M mk (dinode * Z) :=
  if 0 <? n then
    match fuel with
    | O => lift NoFuel
    | S fuel =>
        let fbn := off / BSIZE in
        if fbn <? MAXFILE then
          '(din, x) ← map_block din fbn;
          let n1 := Z.min n (u32 ((fbn + 1) * BSIZE - off)) in
          buf ← rsect x;
          chunk ← lift (get_bytes p 0 n1);
          buf ← lift (put_bytes buf (off - fbn * BSIZE) chunk);
          wsect x buf ;;
          iappend_loop din (drop (Z.to_nat n1) p) (u32 (off + n1)) (n - n1) fuel
        else panic "assert: fbn < MAXFILE"
    end
  else mret (din, off).

Definition iappend (inum : Z) (xp : list Z) (n : Z) : M mk unit :=
  din ← rinode inum;
  '(din, off) ← iappend_loop din xp (xint (d_size din)) n (Z.to_nat n);
  winode inum (set_dsize din (xint off)).

(** ** The bitmap *)

(** The loop of [balloc] from bit [i]. *)
Fixpoint mark_loop (buf : list Z) (i : Z) (cnt : nat) : outcome (list Z) :=
  match cnt with
  | O => Ret buf
  | S cnt =>
      b ← arr_get buf (i / 8);
      buf ← arr_set buf (i / 8) (Z.lor b (Z.shiftl 1 (i mod 8)));
      mark_loop buf (i + 1) cnt
  end.
Definition balloc (used : Z) : M mk unit :=
  if used <? BSIZE * 8 then
    buf ← lift (mark_loop (replicate (Z.to_nat BSIZE) 0) 0 (Z.to_nat used));
    wsect (bmapstart mksb) buf
  else panic "assert: used < BSIZE*8".

(** ** [main] *)

(** A [struct dirent] in memory; the name is stored by [strcpy] or [strncpy]. *)
Definition dirent (inum : Z) (name : list Z) : list Z :=
  [u8 (xshort inum); u8 (xshort inum / 256)] ++ dirname name.

(** A host file given on the command line: its name, and the chunks that [read]
    returns until the end, if it can be opened. *)
Definition host_file : Type := list Z * option (list (list Z)).

(** [if(argv[i][0] == '_') ++argv[i]]. *)
Definition skip_underscore (name : list Z) : list Z :=
  match name with c :: name' => if c =? 95 then name' else name | [] => [] end.

Fixpoint copy_chunks (inum : Z) (chunks : list (list Z)) : M mk unit :=
  match chunks with
  | [] => mret tt
  | c :: chunks => iappend inum c (Z.of_nat (length c)) ;; copy_chunks inum chunks
  end.

Definition add_file (rootino : Z) (f : host_file) : M mk unit :=
  if existsb (λ c, c =? slash) f.1 then panic "assert: index(argv[i], '/') == 0"
  else
    match f.2 with
    | None => panic "open"
    | Some chunks =>
        inum ← ialloc T_FILE;
        iappend rootino (dirent inum (skip_underscore f.1)) DIRENT ;;
        copy_chunks inum chunks
    end.
Fixpoint add_files (rootino : Z) (fl : list host_file) : M mk unit :=
  match fl with
  | [] => mret tt
  | f :: fl => add_file rootino f ;; add_files rootino fl
  end.

(** [fix size of root inode dir]. *)
Definition fix_root (rootino : Z) : M mk unit :=
  din ← rinode rootino;
  let off := xint (d_size din) in
  winode rootino (set_dsize din (xint (u32 ((off / BSIZE + 1) * BSIZE)))).

(** From the image file, opened and empty, and the files to copy. *)
Definition main (fl : list host_file) : M mk unit :=
  set_freeblock nmeta ;;
  for_loop 0 (Z.to_nat FSSIZE) (λ i, wsect i (replicate (Z.to_nat BSIZE) 0)) ;;
  buf ← lift (put32s (replicate (Z.to_nat BSIZE) 0) 0
    [sb_size mksb; nblocks mksb; ninodes mksb; nlog mksb; logstart mksb; inodestart mksb; bmapstart mksb]);
  wsect 1 buf ;;
  rootino ← ialloc T_DIR;
  if negb (rootino =? ROOTINO) then panic "assert: rootino == ROOTINO"
  else
    iappend rootino (dirent rootino [46]) DIRENT ;;
    iappend rootino (dirent rootino [46; 46]) DIRENT ;;
    add_files rootino fl ;;
    fix_root rootino ;;
    s ← get_st;
    balloc (freeblock s).
