(* ===== verification/MkfsFile.v ===== *)
(** * Appending to a file of the image

    [iappend] of mkfs allocates blocks in order and has its own code for the block
    map.  The lemmas of this file run it side by side with [writei] of the kernel
    on a ghost file system that has the blocks of the image and a bitmap in which
    the blocks handed out so far are in use; so what FsFile proves of [writei]
    holds of the image. *)

From stdpp Require Import base numbers list gmap sets strings.
From S2P Require Import Prelude Spinlock Fs FsBlocks FsInode FsFile Mkfs.

Open Scope Z_scope.

(** ** Integers and sectors *)
Lemma shiftr_div x k : 0 ≤ k → Z.shiftr x k = x / 2 ^ k.
Proof. intros. by apply Z.shiftr_div_pow2. Qed.

Lemma xint_u32 x : xint x = u32 x.
Proof. unfold xint, u8, u32. rewrite !shiftr_div by done. Z.div_mod_to_equations. lia. Qed.
Lemma xint_id x : 0 ≤ x < 2 ^ 32 → xint x = x.
Proof. intros. by rewrite xint_u32, u32_small. Qed.
Lemma xshort_id x : 0 ≤ x < 65536 → xshort x = x.
Proof. intros. unfold xshort, u8. rewrite !shiftr_div by done. Z.div_mod_to_equations. lia. Qed.

Lemma sector_id b : 0 ≤ b < 1000 → sector b = b.
Proof. intros. unfold sector, BSIZE. rewrite u32_small by lia. by rewrite Z.div_mul. Qed.

(** ** The bitmap of the blocks handed out *)
Lemma mark_loop_spec cnt : ∀ buf i,
  0 ≤ i → i + Z.of_nat cnt ≤ 4096 → length buf = 512%nat →
  ∃ buf', mark_loop buf i cnt = Ret buf' ∧ length buf' = 512%nat ∧
    ∀ j, 0 ≤ j → bit_of buf' j = bool_decide (i ≤ j < i + Z.of_nat cnt) || bit_of buf j.
Proof.
  induction cnt as [|cnt IH]; intros buf i Hi Hc Hl; cbn [mark_loop].
  { exists buf. split_and!; [done..|]. intros j Hj. by rewrite bool_decide_false by lia. }
  destruct (arr_get_in buf (i / 8)) as (b & Eb & Hb); [Z.div_mod_to_equations; lia|].
  rewrite Eb. cbn [mbind outcome_bind]. rewrite arr_set_in by (Z.div_mod_to_equations; lia).
  cbn [mbind outcome_bind].
  destruct (IH (<[Z.to_nat (i / 8) := Z.lor b (Z.shiftl 1 (i mod 8))]> buf) (i + 1)) as (buf' & E & Hl' & Hbit);
    [lia|lia|by rewrite length_insert|].
  exists buf'. split_and!; [done..|]. intros j Hj. rewrite Hbit by done.
  rewrite (bit_of_insert buf i b) by (try done; intros k Hk Hne;
    rewrite lor_bit, bool_decide_false by (done || (Z.div_mod_to_equations; lia)); done).
  destruct (decide (j = i)) as [->|Hne].
  - rewrite lor_bit by (Z.div_mod_to_equations; lia). rewrite (bool_decide_true (i mod 8 = _)) by done.
    rewrite (bool_decide_true (i ≤ i < _)) by lia. by rewrite orb_true_r.
  - f_equal. apply bool_decide_ext. lia.
Qed.

Lemma mark_free k : 0 ≤ k ≤ 1000 → ∃ buf, mark_loop zero_bytes 0 (Z.to_nat k) = Ret buf ∧ length buf = 512%nat ∧
  ∀ j, 0 ≤ j < 1000 → bit_of buf j = (j <? k).
Proof.
  intros Hk. destruct (mark_loop_spec (Z.to_nat k) zero_bytes 0) as (buf & E & Hl & Hb); [lia|lia|done|].
  exists buf. split_and!; [done..|]. intros j Hj. rewrite Hb by lia.
  assert (bit_of zero_bytes j = false) as ->.
  { unfold bit_of, zero_bytes. destruct (_ !! _) as [z|] eqn:Ez; [|apply Z.bits_0].
    apply lookup_replicate in Ez as [-> _]. apply Z.bits_0. }
  rewrite orb_false_r. case_bool_decide; symmetry; [apply Z.ltb_lt|apply Z.ltb_ge]; lia.
Qed.

(** ** The image as the kernel sees it *)
Definition view (s : mk) (l : list inode) : fs := Fs (img s) mksb l.
(** The inode in memory, the only entry of the ghost's cache. *)
Definition ino (n : Z) (d : dinode) : inode :=
  Inode 0 n 1 initsleeplock 1 (d_type d) (d_major d) (d_minor d) (d_nlink d) (d_size d) (d_addrs d).

(** The sectors are whole, and the blocks not yet handed out are zero. *)
Record image_ok (s : mk) : Prop := {
  im_block b : 0 ≤ b < 1000 → ∃ d, img s !! b = Some d ∧ length d = 512%nat;
  im_zero b : freeblock s ≤ b < 1000 → img s !! b = Some zero_bytes;
  im_next : 59 ≤ freeblock s ≤ 1000
}.

(** The ghost file system during the writing of inode [d]. *)
Record ghost (s : mk) (d : dinode) (g : fs) : Prop := {
  gh_sb : sb g = mksb;
  gh_inode : icache g = [ino 0 d];
  gh_block b : b ≠ 58 → blk g !! b = img s !! b;
  gh_used b : 0 ≤ b < 1000 → in_use g b = (b <? freeblock s);
  gh_bitmap : bitmap_ok g
}.

Lemma BBLOCK_mk g b : sb g = mksb → 0 ≤ b < 1000 → BBLOCK b g = 58.
Proof. intros E Hb. unfold BBLOCK, BPB. rewrite E. rewrite Z.div_small by lia. done. Qed.

(** A file system on the image whose bitmap block has the first [k] bits set. *)
Lemma bitmap_view g k buf : sb g = mksb → blk g !! 58 = Some buf → length buf = 512%nat →
  (∀ j, 0 ≤ j < 1000 → bit_of buf j = (j <? k)) → 59 ≤ k → (∀ b, k ≤ b < 1000 → is_Some (blk g !! b)) →
  (∀ b, 0 ≤ b < 1000 → in_use g b = (b <? k)) ∧ bitmap_ok g.
Proof.
  intros Hsb Hbuf Hl Hbit Hk Hsome.
  assert (∀ b, 0 ≤ b < 1000 → in_use g b = (b <? k)) as Hu.
  { intros b Hb. unfold in_use. rewrite BBLOCK_mk, Hbuf by done. cbn [default from_option id].
    unfold BPB. rewrite Z.mod_small by lia. by apply Hbit. }
  split; [done|]. split; rewrite ?Hsb; change (sb_size mksb) with 1000; [lia|..].
  - intros b Hb. rewrite BBLOCK_mk by done. by exists buf.
  - intros b Hb. rewrite Hu by done. intros Hf. bool_to_prop. split; [apply Hsome; lia|].
    intros b' Hb'. rewrite BBLOCK_mk by done. lia.
Qed.

Lemma ghost_exists s d : image_ok s → ∃ g, ghost s d g.
Proof.
  intros [H1 H2 H3]. destruct (mark_free (freeblock s)) as (buf & _ & Hl & Hb); [lia|].
  exists (Fs (<[58 := buf]> (img s)) mksb [ino 0 d]).
  destruct (bitmap_view (Fs (<[58 := buf]> (img s)) mksb [ino 0 d]) (freeblock s) buf) as [Hu Hok];
    try done; [cbn; by rewrite lookup_insert_eq|lia| |].
  - intros b Hr. cbn. rewrite lookup_insert_ne by lia. rewrite H2 by done. done.
  - split; try done. intros b Hne. cbn. by rewrite lookup_insert_ne.
Qed.

(** ** Allocation *)
Definition bump (s : mk) : mk := Mk (img s) (freeinode s) (u32 (freeblock s + 1)).

Lemma bump_next s : image_ok s → freeblock (bump s) = freeblock s + 1.
Proof. intros [_ _ ?]. cbn. apply u32_small. lia. Qed.

Lemma bump_ok s : image_ok s → freeblock s < 1000 → image_ok (bump s).
Proof.
  intros Hok Hlt. pose proof (bump_next s Hok) as E. destruct Hok as [H1 H2 H3].
  split; [done| |]; rewrite E; [|lia]. intros b Hb. apply H2. lia.
Qed.

Lemma balloc_sim s d g : image_ok s → ghost s d g → freeblock s < 1000 →
  ∃ g', Fs.balloc g = Ret (freeblock s, g') ∧ allocated g g' (freeblock s) ∧ ghost (bump s) d g'.
Proof.
  intros Hok [G1 G2 G3 G4 G5] Hlt. pose proof Hok as [H1 H2 H3].
  assert (sb_size (sb g) = 1000) as Es by by rewrite G1.
  destruct (balloc_spec g G5) as [(k & g' & E & Hk & Hal & Hj)|[_ Hall]].
  2:{ specialize (Hall (freeblock s) ltac:(lia)). rewrite G4 in Hall by lia. bool_to_prop. lia. }
  rewrite Es in *. assert (k = freeblock s) as ->.
  { pose proof (al_free _ _ _ Hal) as Hf. rewrite G4 in Hf by lia. bool_to_prop.
    destruct (decide (k = freeblock s)); [done|]. specialize (Hj (freeblock s) ltac:(lia)).
    rewrite G4 in Hj by lia. bool_to_prop. lia. }
  exists g'. split_and!; [done..|]. destruct Hal as [A1 A2 A3 A4 A5 A6 A7]. split; try congruence.
  - intros b Hb. cbn [bump img]. destruct (decide (b = freeblock s)) as [->|Hne].
    + rewrite A3, H2 by lia. done.
    + rewrite A4 by (try done; rewrite (BBLOCK_mk g) by (done || lia); done). by apply G3.
  - intros b Hb. rewrite bump_next, A2, G4 by (done || lia).
    case_bool_decide; cbn [orb]; [symmetry; apply Z.ltb_lt; lia|].
    destruct (Z.ltb_spec b (freeblock s)), (Z.ltb_spec b (freeblock s + 1)); (done || lia).
Qed.

(** ** The block map, side by side with [bmap] *)

(** Both sides have run to related states; the slot [i0] of the file has got the
    block that was free if it had none. *)
Record mapped_to (s : mk) (d : dinode) (g : fs) (s' : mk) (d' : dinode) (g' : fs) (i0 : Z) : Prop := {
  mt_image : image_ok s';
  mt_ghost : ghost s' d' g';
  mt_file : file_ok g' 0 (ino 0 d');
  mt_meta : d' = set_daddrs d (d_addrs d');
  mt_slots i : 0 ≤ i ≤ INDIRECT → slot g' (ino 0 d') i =
    if decide (i = i0 ∧ slot g (ino 0 d) i0 = 0) then freeblock s else slot g (ino 0 d) i;
  mt_next : freeblock s' = freeblock s + (if slot g (ino 0 d) i0 =? 0 then 1 else 0);
  mt_inode : freeinode s' = freeinode s
}.

Lemma mapped_to_refl s d g i0 : image_ok s → ghost s d g → file_ok g 0 (ino 0 d) → slot g (ino 0 d) i0 ≠ 0 →
  mapped_to s d g s d g i0.
Proof.
  intros H1 H2 H3 Hn. split; try done.
  - by destruct d.
  - intros i Hi. rewrite decide_False; [done|]. by intros [-> ?].
  - apply Z.eqb_neq in Hn. rewrite Hn. lia.
Qed.

Lemma addr_small s d g (n : nat) : ghost s d g → file_ok g 0 (ino 0 d) → (n < 13)%nat →
  ∃ a, arr_get (d_addrs d) (Z.of_nat n) = Ret a ∧ d_addrs d !! n = Some a ∧ 0 ≤ a < 1000 ∧
    slot g (ino 0 d) (if decide (n = 12%nat) then INDIRECT else Z.of_nat n) = a.
Proof.
  intros Hg Hok Hn. pose proof (f_naddrs _ _ _ Hok) as Hl. change (length (d_addrs d) = 13%nat) in Hl.
  destruct (arr_get_in (d_addrs d) (Z.of_nat n)) as (a & Ea & Ha); [lia|]. rewrite Nat2Z.id in Ha.
  set (i := if decide (n = 12%nat) then INDIRECT else Z.of_nat n).
  assert (0 ≤ i ≤ INDIRECT ∧ slot g (ino 0 d) i = a) as [Hi Es].
  { unfold i, slot, ind. cbn [addrs ino]. case_decide as E.
    - subst. by rewrite Ha.
    - destruct (Z.of_nat n <? 12) eqn:E2; bool_to_prop; [|lia]. rewrite Nat2Z.id, Ha.
      unfold INDIRECT. split; [lia|done]. }
  exists a. split; [done|]. split; [done|]. split; [|done].
  destruct (decide (a = 0)) as [->|Hne]; [done|].
  destruct (f_slot _ _ _ Hok i Hi) as [Hr _ _]; [congruence|]. rewrite (gh_sb _ _ _ Hg) in Hr.
  change (sb_size mksb) with 1000 in Hr. lia.
Qed.

Lemma ghost_put_addr s d g1 (n : nat) k : ghost s d g1 →
  ghost s (set_daddrs d (<[n := k]> (d_addrs d))) (put_addr g1 0 (ino 0 d) n k).
Proof.
  intros [G1 G2 G3 G4 G5]. split; try done.
  - cbn [put_addr icache set_icache]. by rewrite G2.
  - destruct G5 as [B1 B2 B3]. by split.
Qed.

Lemma map_addr_sim s d g (n : nat) : image_ok s → ghost s d g → file_ok g 0 (ino 0 d) → (n < 13)%nat →
  let i0 := if decide (n = 12%nat) then INDIRECT else Z.of_nat n in
  let a := slot g (ino 0 d) i0 in
  freeblock s + (if a =? 0 then 1 else 0) ≤ 1000 →
  ∃ d' s' g', map_addr d (Z.of_nat n) s = Ret ((d', slot g' (ino 0 d') i0), s') ∧
    (if a =? 0 then k ← Fs.balloc; x ← get_inode 0; ad ← lift (arr_set (addrs x) (Z.of_nat n) k);
                    set_inode 0 (set_addrs x ad) ;; mret k
     else mret a) g = Ret (slot g' (ino 0 d') i0, g') ∧
    slot g' (ino 0 d') i0 ≠ 0 ∧ mapped_to s d g s' d' g' i0.
Proof.
  intros Him Hg Hok Hn i0 a Hroom. destruct (addr_small s d g n Hg Hok Hn) as (a' & Ea & Ha & Hr & Es).
  fold i0 in Es. fold a in Es. subst a'. pose proof (f_naddrs _ _ _ Hok) as Hl. change (length (d_addrs d) = 13%nat) in Hl.
  unfold map_addr. erewrite M_bind_run by (unfold lift; rewrite Ea; done). cbn beta. rewrite xint_id by lia.
  destruct (a =? 0) eqn:E0; bool_to_prop.
  - pose proof Him as [_ _ Hnx]. destruct (balloc_sim s d g Him Hg ltac:(lia)) as (g1 & Eb & Hal & Hg1).
    set (k := freeblock s) in *. set (ad := <[n := k]> (d_addrs d)).
    exists (set_daddrs d ad), (bump s), (put_addr g1 0 (ino 0 d) n k).
    assert (0 ≤ k < sb_size (sb g)) as Hk by (rewrite (gh_sb _ _ _ Hg); change (sb_size mksb) with 1000; lia).
    assert (∀ i, 0 ≤ i ≤ INDIRECT → slot (put_addr g1 0 (ino 0 d) n k) (ino 0 (set_daddrs d ad)) i =
      if decide (i = i0 ∧ a = 0) then k else slot g (ino 0 d) i) as Hs.
    { intros i Hi. assert (slot g1 (ino 0 d) i = slot g (ino 0 d) i) as <-
        by (by apply (alloc_slot g 0 (ino 0 d) k g1)).
      assert (slot (put_addr g1 0 (ino 0 d) n k) (ino 0 (set_daddrs d ad)) i =
        if decide (i = i0) then k else slot g1 (ino 0 d) i) as ->.
      { unfold i0. destruct (decide (n = 12%nat)) as [->|Hne].
        - apply (slot_put_ind g1 0 (ino 0 d)); [exact Hl|exact E0|lia|apply (al_zero _ _ _ Hal)|exact Hi].
        - pose proof (slot_put_direct g1 0 (ino 0 d) (Z.of_nat n) k i Hl ltac:(lia) Hi) as HH.
          rewrite Nat2Z.id in HH. exact HH. }
      repeat case_decide; try done; naive_solver. }
    assert (slot (put_addr g1 0 (ino 0 d) n k) (ino 0 (set_daddrs d ad)) i0 = k) as Ei0.
    { rewrite Hs; [by rewrite decide_True|]. unfold i0, INDIRECT. destruct (decide (n = 12%nat)); lia. }
    assert ((k ← Fs.balloc; x ← get_inode 0; ad ← lift (arr_set (addrs x) (Z.of_nat n) k);
             set_inode 0 (set_addrs x ad) ;; mret k) g = Ret (k, put_addr g1 0 (ino 0 d) n k)) as Erun.
    { erewrite M_bind_run by done. erewrite M_bind_run.
      2:{ apply (get_inode_run _ _ (ino 0 d)). by rewrite (gh_inode _ _ _ Hg1). }
      erewrite M_bind_run; [|unfold lift; cbn [addrs ino]; rewrite arr_set_in by lia; done].
      rewrite Nat2Z.id. done. }
    rewrite Ei0. split_and!.
    + erewrite M_bind_run.
      2:{ erewrite M_bind_run by done. cbn beta. erewrite M_bind_run; [|unfold lift; rewrite arr_set_in by lia;
          rewrite xint_id by lia; done]. done. }
      cbn beta. rewrite Nat2Z.id. fold k ad. erewrite M_bind_run.
      2:{ unfold lift. cbn [d_addrs set_daddrs]. rewrite arr_get_nat. unfold ad. rewrite list_lookup_insert_eq by lia. done. }
      unfold mret, M_ret, bump. cbn beta. rewrite xint_id by lia. done.
    + exact Erun.
    + lia.
    + destruct (alloc_addr g 0 (ino 0 d) n i0 (if decide (n = 12%nat) then 12 else Z.of_nat n) Hok Hn) as [F|(k' & s'' & x'' & R & _ & _ & Hm)].
      * cbn [addrs ino]. by rewrite Ha.
      * unfold i0. destruct (decide (n = 12%nat)); [right; done|left; lia].
      * destruct (decide (n = 12%nat)); lia.
      * rewrite Erun in F. discriminate F.
      * rewrite Erun in R. injection R as <- <-.
        pose proof (mp_ok _ _ _ _ _ _ _ Hm) as Hok'.
        assert (x'' = ino 0 (set_daddrs d ad)) as ->.
        { pose proof (f_inode _ _ _ Hok') as E. cbn [put_addr icache set_icache] in E.
          rewrite (gh_inode _ _ _ Hg1) in E. by injection E as <-. }
        split; try done; [by apply bump_ok; [|lia]|by apply ghost_put_addr|].
        fold a. rewrite E0. cbn [Z.eqb]. by rewrite bump_next.
  - exists d, s, g. split_and!; [|done|by fold a|by apply mapped_to_refl].
    erewrite M_bind_run by done. cbn beta. erewrite M_bind_run by (unfold lift; rewrite Ea; done). cbn beta.
    by rewrite xint_id by lia.
Qed.

(** A block of the file is the same on both sides, and whole. *)
Lemma slot_block s d g i : ghost s d g → file_ok g 0 (ino 0 d) → 0 ≤ i ≤ INDIRECT →
  let p := slot g (ino 0 d) i in p ≠ 0 →
  0 < p < 1000 ∧ p ≠ 58 ∧ ∃ b, blk g !! p = Some b ∧ length b = 512%nat ∧ img s !! sector p = Some b.
Proof.
  intros Hg Hok Hi p Hp. destruct (f_slot _ _ _ Hok i Hi Hp) as [Hr _ Hb].
  rewrite (gh_sb _ _ _ Hg) in Hr, Hb. change (sb_size mksb) with 1000 in *. fold p in Hr, Hb.
  specialize (Hb 0 ltac:(lia)). rewrite (BBLOCK_mk g) in Hb by (try apply (gh_sb _ _ _ Hg); lia).
  destruct (f_disk _ _ _ Hok p) as (b & Eb & Hl); [rewrite (gh_sb _ _ _ Hg); change (sb_size mksb) with 1000; lia|].
  split; [done|]. split; [lia|]. exists b. split_and!; [done..|].
  rewrite sector_id by lia. rewrite <-(gh_block _ _ _ Hg); [done|lia].
Qed.

(** Storing a whole block at block [p] of both sides. *)
Definition put_block (s : mk) (p : Z) (b : list Z) : mk := Mk (<[p := b]> (img s)) (freeinode s) (freeblock s).

Lemma put_block_ok s p b : image_ok s → p < freeblock s → length b = 512%nat → image_ok (put_block s p b).
Proof.
  intros [H1 H2 H3] Hp Hl. split; cbn [img put_block freeblock]; [| |done].
  - intros z Hz. destruct (decide (z = p)) as [->|Hne]; [rewrite lookup_insert_eq; eauto|].
    rewrite lookup_insert_ne by done. by apply H1.
  - intros z Hz. rewrite lookup_insert_ne by lia. by apply H2.
Qed.

Lemma put_block_ghost s d g p b : ghost s d g → 0 ≤ p < 1000 → p ≠ 58 →
  ghost (put_block s p b) d (set_blk g (<[p := b]> (blk g))).
Proof.
  intros [G1 G2 G3 G4 G5] Hp Hne.
  assert (∀ z, 0 ≤ z < 1000 → in_use (set_blk g (<[p := b]> (blk g))) z = in_use g z) as Hu.
  { intros z Hz. unfold in_use, BBLOCK. cbn [blk sb set_blk]. fold (BBLOCK z g).
    rewrite lookup_insert_ne; [done|]. rewrite BBLOCK_mk by done. done. }
  split; try done.
  - intros z Hz. cbn [blk set_blk img put_block]. destruct (decide (z = p)) as [->|Hzp]; [by rewrite !lookup_insert_eq|].
    rewrite !lookup_insert_ne by done. by apply G3.
  - intros z Hz. rewrite Hu by done. by apply G4.
  - destruct G5 as [B1 B2 B3]. assert (sb_size (sb g) = 1000) as Es by by rewrite G1.
    split; cbn [sb set_blk]; [done| |]; rewrite Es in *.
    + intros z Hz. unfold BBLOCK. cbn [sb set_blk blk]. fold (BBLOCK z g).
      rewrite lookup_insert_ne by (rewrite BBLOCK_mk by done; done). by apply B2.
    + intros z Hz. rewrite Hu by done. intros Hf. destruct (B3 z Hz Hf) as [? ?]. split; [|done].
      cbn [blk set_blk]. rewrite lookup_insert_is_Some'. by right.
Qed.

Lemma get32_splice b j w : length b = 512%nat → 0 ≤ j < 128 → 0 ≤ w < 2 ^ 32 →
  get32 (splice b (Z.to_nat (4 * j)) (le32 w)) (4 * j) = Ret w.
Proof.
  intros Hl Hj Hw. assert (length (splice b (Z.to_nat (4 * j)) (le32 w)) = 512%nat) as Hl'.
  { rewrite splice_length; [done|]. change (length (le32 w)) with 4%nat. lia. }
  rewrite get32_some by done. rewrite word_splice by done. by rewrite decide_True.
Qed.

Lemma map_entry_sim s d g j : image_ok s → ghost s d g → file_ok g 0 (ino 0 d) →
  ind (ino 0 d) ≠ 0 → 0 ≤ j < 128 →
  let a := slot g (ino 0 d) (12 + j) in
  freeblock s + (if a =? 0 then 1 else 0) ≤ 1000 → ind (ino 0 d) < freeblock s →
  ∃ s' g', let b := slot g' (ino 0 d) (12 + j) in
    map_entry (ind (ino 0 d)) j s = Ret (b, s') ∧
    bmap_entry (ind (ino 0 d)) j g = Ret (b, g') ∧ b ≠ 0 ∧ mapped_to s d g s' d g' (12 + j).
Proof.
  intros Him Hg Hok Hind Hj a Hroom Hold.
  destruct (slot_block s d g INDIRECT Hg Hok) as (Hp & Hp58 & b & Eb & Hl & Ei); [unfold INDIRECT; lia|done|].
  rewrite slot_ind in *. set (p := ind (ino 0 d)) in *.
  assert (a = word b j) as Ea.
  { unfold a, slot, block_at, INDIRECT. fold p. rewrite Eb. destruct (12 + j <? 12) eqn:?; bool_to_prop; [lia|].
    destruct (12 + j =? 140) eqn:?; bool_to_prop; [lia|]. apply Z.eqb_neq in Hind. rewrite Hind. f_equal. lia. }
  assert (0 ≤ a < 1000) as Har.
  { destruct (decide (a = 0)) as [->|Hne]; [done|].
    destruct (slot_block s d g (12 + j) Hg Hok) as (Hr & _); [unfold INDIRECT; lia|done|fold a in Hr; lia]. }
  unfold map_entry, bmap_entry. pose proof (get32_some b j Hl Hj) as Ew. rewrite <-Ea in Ew.
  erewrite M_bind_run by (unfold rsect; rewrite Ei; done). cbn beta.
  erewrite M_bind_run by (unfold lift; rewrite Ew; done). cbn beta.
  erewrite (M_bind_run (bread p)) by (unfold bread; rewrite Eb; done). cbn beta.
  erewrite (M_bind_run (lift (get32 b _)) _ g) by (unfold lift; rewrite Ew; done). cbn beta.
  destruct (a =? 0) eqn:E0; bool_to_prop.
  - pose proof Him as [_ _ Hnx]. destruct (balloc_sim s d g Him Hg ltac:(lia)) as (g1 & Ebal & Hal & Hg1).
    set (k := freeblock s) in *.
    assert (0 ≤ k < sb_size (sb g)) as Hk by (rewrite (gh_sb _ _ _ Hg); change (sb_size mksb) with 1000; lia).
    assert (blk g1 !! p = Some b) as Eb1.
    { rewrite (gh_block _ _ _ Hg1) by done. cbn [bump img]. rewrite <-(gh_block _ _ _ Hg); done. }
    set (b' := splice b (Z.to_nat (4 * j)) (le32 k)).
    assert (length b' = 512%nat) as Hl' by (unfold b'; rewrite splice_length; [done|]; change (length (le32 k)) with 4%nat; lia).
    assert (put32 b (4 * j) k = Ret b') as Eput.
    { replace (4 * j) with (Z.of_nat (Z.to_nat (4 * j))) by lia. rewrite put32_splice by lia. done. }
    set (g' := set_blk g1 (<[p := b']> (blk g1))). exists (put_block (bump s) p b'), g'.
    assert (∀ i, 0 ≤ i ≤ INDIRECT → slot g' (ino 0 d) i =
      if decide (i = 12 + j ∧ a = 0) then k else slot g (ino 0 d) i) as Hs.
    { intros i Hi. assert (slot g1 (ino 0 d) i = slot g (ino 0 d) i) as <-
        by (by apply (alloc_slot g 0 (ino 0 d) k g1)).
      pose proof (slot_put_entry g1 (ino 0 d) b j k i Eb1 Hl Hind Hj ltac:(lia) Hi) as Hput. fold p b' g' in Hput.
      rewrite Hput.
      repeat case_decide; try done; naive_solver. }
    assert (slot g' (ino 0 d) (12 + j) = k) as Es.
    { rewrite Hs; [by rewrite decide_True|]. unfold INDIRECT. lia. }
    cbv zeta. rewrite Es.
    assert ((k ← Fs.balloc; d ← bread p; d ← lift (put32 d (4 * j) k); log_write p d ;; mret k) g = Ret (k, g')) as Erun.
    { erewrite M_bind_run by done. erewrite M_bind_run by (unfold bread; rewrite Eb1; done).
      erewrite M_bind_run by (unfold lift; rewrite Eput; done).
      erewrite M_bind_run by (unfold log_write; rewrite Eb1; done). done. }
    split_and!; [|exact Erun|lia|].
    + erewrite M_bind_run.
      2:{ erewrite M_bind_run by done. cbn beta. fold k. rewrite xint_id by lia.
          erewrite M_bind_run by (unfold lift; rewrite Eput; done).
          erewrite M_bind_run by (unfold wsect; done). done. }
      cbn beta. unfold b'. erewrite M_bind_run by (unfold lift; rewrite get32_splice by lia; done). cbn beta.
      rewrite xint_id by lia. rewrite sector_id by lia. done.
    + destruct (alloc_entry g 0 (ino 0 d) j b Hok Hind Hj) as [F|(k' & g'' & R & _ & _ & Hm)];
        [exact E0|exact Eb|fold p in F; rewrite Erun in F; discriminate F|].
      fold p in R. rewrite Erun in R. injection R as <- <-.
      split; try done.
      * apply put_block_ok; [by apply bump_ok; [|lia]|rewrite bump_next by done; lia|done].
      * apply (put_block_ghost (bump s) d g1); [done|lia|done].
      * by apply (mp_ok _ _ _ _ _ _ _ Hm).
      * by destruct d.
      * cbn [put_block freeblock]. fold a. rewrite E0. by rewrite bump_next.
  - exists s, g. split_and!; [|done|done|by apply mapped_to_refl].
    erewrite M_bind_run by done. cbn beta. erewrite M_bind_run by (unfold lift; rewrite Ew; done). cbn beta.
    by rewrite xint_id by lia.
Qed.

(** ** A file that is being written: its blocks are those up to its end *)
Definition blocks_for (n : Z) : Z := ceil512 n + (if 12 <? ceil512 n then 1 else 0).

Record laid (s : mk) (d : dinode) (g : fs) (off : Z) : Prop := {
  la_image : image_ok s;
  la_ghost : ghost s d g;
  la_file : file_ok g 0 (ino 0 d);
  la_range i : 0 ≤ i ≤ INDIRECT → slot g (ino 0 d) i ≠ 0 → 59 ≤ slot g (ino 0 d) i < freeblock s;
  la_dense i : 0 ≤ i < 140 → slot g (ino 0 d) i ≠ 0 ↔ i < ceil512 off;
  la_ind : ind (ino 0 d) ≠ 0 ↔ 12 < ceil512 off
}.

Lemma mapped_to_range s d g s' d' g' i0 off : laid s d g off → mapped_to s d g s' d' g' i0 → 0 ≤ i0 ≤ INDIRECT →
  ∀ i, 0 ≤ i ≤ INDIRECT → slot g' (ino 0 d') i ≠ 0 → 59 ≤ slot g' (ino 0 d') i < freeblock s'.
Proof.
  intros Hla [M1 M2 M3 M4 M5 M6 M7] Hi0 i Hi. rewrite M5, M6 by done. pose proof (im_next _ (la_image _ _ _ _ Hla)).
  destruct (decide (i = i0 ∧ slot g (ino 0 d) i0 = 0)) as [[_ E]|E].
  - intros _. rewrite E. cbn. lia.
  - intros Hn. pose proof (la_range _ _ _ _ Hla i Hi Hn). case_if; lia.
Qed.

Lemma ceil_step off m : 0 ≤ off → 0 < m → off mod 512 + m ≤ 512 →
  ceil512 (off + m) = off / 512 + 1 ∧ ceil512 off = (if off mod 512 =? 0 then off / 512 else off / 512 + 1).
Proof.
  intros. unfold ceil512. case_if; Z.div_mod_to_equations; lia.
Qed.

Lemma blocks_step off m : 0 ≤ off → 0 < m → off mod 512 + m ≤ 512 →
  blocks_for (off + m) - blocks_for off =
    if off mod 512 =? 0 then 1 + (if off / 512 =? 12 then 1 else 0) else 0.
Proof.
  intros H1 H2 H3. unfold blocks_for. destruct (ceil_step off m H1 H2 H3) as [-> ->].
  destruct (off mod 512 =? 0); [|lia].
  destruct (Z.eqb_spec (off / 512) 12), (Z.ltb_spec 12 (off / 512 + 1)), (Z.ltb_spec 12 (off / 512)); lia.
Qed.

(** What one round's block map leaves. *)
Record mapped_block (s : mk) (d : dinode) (s' : mk) (d' : dinode) (g' : fs) (off m : Z) : Prop := {
  mb_laid : laid s' d' g' (off + m);
  mb_meta : d' = set_daddrs d (d_addrs d');
  mb_next : freeblock s' = freeblock s + (blocks_for (off + m) - blocks_for off);
  mb_inode : freeinode s' = freeinode s
}.

Section map_block.
Context (s : mk) (d : dinode) (g : fs) (off m : Z) (Hla : laid s d g off).
Context (H0 : 0 ≤ off) (Hm : 0 < m) (Hmm : off mod 512 + m ≤ 512) (Hend : off + m ≤ 140 * 512).
Context (Hroom : freeblock s + (blocks_for (off + m) - blocks_for off) ≤ 1000).
Notation bn := (off / 512).

Lemma bn_range : 0 ≤ bn < 140.
Proof using H0 Hm Hend. Z.div_mod_to_equations. lia. Qed.

Lemma slot_bn : (slot g (ino 0 d) bn =? 0) = (off mod 512 =? 0).
Proof using All.
  pose proof bn_range. pose proof (la_dense _ _ _ _ Hla bn ltac:(done)) as Hd.
  destruct (ceil_step off m H0 Hm Hmm) as [_ E]. rewrite E in Hd.
  destruct (off mod 512 =? 0) eqn:E1; [apply Z.eqb_eq|apply Z.eqb_neq].
  - destruct (decide (slot g (ino 0 d) bn = 0)); [done|]. assert (bn < bn) by by apply Hd. lia.
  - apply Hd. lia.
Qed.

Lemma ind_bn : 12 ≤ bn → (ind (ino 0 d) =? 0) = (off mod 512 =? 0) && (bn =? 12).
Proof using All.
  intros Hbn. pose proof (la_ind _ _ _ _ Hla) as Hd.
  destruct (ceil_step off m H0 Hm Hmm) as [_ E]. rewrite E in Hd.
  apply eq_true_iff_eq. rewrite andb_true_iff, !Z.eqb_eq.
  destruct (Z.eqb_spec (off mod 512) 0); destruct (decide (ind (ino 0 d) = 0)); split; try done; try lia;
    intros; exfalso; intuition lia.
Qed.

Lemma map_direct_sim : bn < 12 →
  ∃ d' s' g', let b := slot g' (ino 0 d') bn in
    map_block d bn s = Ret ((d', b), s') ∧ bmap 0 bn g = Ret (b, g') ∧ b ≠ 0 ∧ mapped_block s d s' d' g' off m.
Proof using All.
  intros Hlt. pose proof bn_range as Hr. pose proof slot_bn as Hs0. destruct Hla as [L1 L2 L3 L4 L5 L6].
  rewrite blocks_step in Hroom by done.
  assert ((if decide (Z.to_nat bn = 12%nat) then INDIRECT else Z.of_nat (Z.to_nat bn)) = bn) as Ei0
    by (rewrite decide_False by lia; lia).
  destruct (map_addr_sim s d g (Z.to_nat bn) L1 L2 L3) as (d' & s' & g' & R1 & R2 & Hn & Hmt); [lia| |].
  { rewrite Ei0, Hs0. revert Hroom. destruct (off mod 512 =? 0); [destruct (bn =? 12)|]; lia. }
  rewrite Ei0 in *. rewrite Z2Nat.id in * by lia. exists d', s', g'.
  pose proof (mapped_to_range s d g s' d' g' bn off Hla Hmt ltac:(unfold INDIRECT; lia)) as Hrange.
  destruct Hmt as [M1 M2 M3 M4 M5 M6 M7]. split_and!; [| |done|].
  - unfold map_block, NDIRECT. apply Z.ltb_lt in Hlt. by rewrite Hlt.
  - unfold bmap, NDIRECT. erewrite M_bind_run by (apply get_inode_run, (f_inode _ _ _ L3)).
    pose proof Hlt as Hlt'. apply Z.ltb_lt in Hlt'. rewrite Hlt'.
    destruct (addr_small s d g (Z.to_nat bn) L2 L3 ltac:(lia)) as (a & Ea & Ha & _ & Es).
    rewrite Z2Nat.id in Ea, Es by lia. rewrite Ei0 in Es. erewrite M_bind_run by (unfold lift; cbn [addrs ino]; rewrite Ea; done). cbn beta.
    rewrite <-Es. exact R2.
  - destruct (ceil_step off m H0 Hm Hmm) as [Ec Ec0]. split; try done.
    + split; try done.
      * intros i Hi. rewrite Ec, M5 by (unfold INDIRECT; lia). specialize (L5 i Hi). rewrite Ec0 in L5.
        assert (slot g (ino 0 d) bn = 0 ↔ off mod 512 = 0) as Hz by (rewrite <-!Z.eqb_eq, Hs0; done).
        pose proof (im_next _ L1). destruct (decide (i = bn ∧ slot g (ino 0 d) bn = 0)) as [[-> _]|E].
        -- split; lia.
        -- rewrite L5. destruct (Z.eqb_spec (off mod 512) 0); [|done]. split; [lia|]. intros ?.
           destruct (decide (i = bn)) as [->|]; [|lia]. exfalso. apply E. split; [done|]. by apply Hz.
      * rewrite <-(slot_ind g'), M5, decide_False, slot_ind, L6, Ec, Ec0 by (unfold INDIRECT; lia).
        destruct (Z.eqb_spec (off mod 512) 0); lia.
    + rewrite M6, Hs0, blocks_step by done. destruct (off mod 512 =? 0); [|done].
      destruct (Z.eqb_spec bn 12); lia.
Qed.

Lemma map_indirect_sim : 12 ≤ bn →
  ∃ d' s' g', let b := slot g' (ino 0 d') bn in
    map_block d bn s = Ret ((d', b), s') ∧ bmap 0 bn g = Ret (b, g') ∧ b ≠ 0 ∧ mapped_block s d s' d' g' off m.
Proof using All.
  intros Hge. pose proof bn_range as Hr. pose proof slot_bn as Hs0. pose proof (ind_bn Hge) as Hi0.
  pose proof (blocks_step off m H0 Hm Hmm) as Hbs. pose proof Hla as [L1 L2 L3 L4 L5 L6].
  rewrite Hbs in Hroom. pose proof (im_next _ L1) as Hnx.
  destruct (map_addr_sim s d g 12 L1 L2 L3) as (d1 & s1 & g1 & R1 & R2 & Hn1 & Hmt); [lia| |].
  { rewrite decide_True, slot_ind, Hi0 by done. revert Hroom.
    destruct (off mod 512 =? 0), (bn =? 12); cbn [andb]; lia. }
  rewrite decide_True in * by done. change (Z.of_nat 12) with 12 in *.
  pose proof (mapped_to_range s d g s1 d1 g1 INDIRECT off Hla Hmt ltac:(unfold INDIRECT; lia)) as Hrange1.
  pose proof Hmt as [M1 M2 M3 M4 M5 M6 M7]. rewrite slot_ind in *. rewrite Hi0 in M6.
  assert (slot g1 (ino 0 d1) bn = slot g (ino 0 d) bn) as Es1.
  { rewrite M5, decide_False by (unfold INDIRECT; lia). done. }
  destruct (map_entry_sim s1 d1 g1 (bn - 12) M1 M2 M3 Hn1) as (s2 & g2 & R3 & R4 & Hn2 & Hmt2); [lia| | |].
  { replace (12 + (bn - 12)) with bn by lia. rewrite Es1, Hs0, M6. revert Hroom.
    destruct (off mod 512 =? 0), (bn =? 12); cbn [andb]; lia. }
  { specialize (Hrange1 INDIRECT). rewrite slot_ind in Hrange1. apply Hrange1; [unfold INDIRECT; lia|done]. }
  replace (12 + (bn - 12)) with bn in * by lia. exists d1, s2, g2.
  pose proof Hmt2 as [N1 N2 N3 N4 N5 N6 N7]. rewrite Es1, Hs0 in N6. split_and!; [| |done|].
  - unfold map_block, NDIRECT. apply Z.ltb_ge in Hge as Hge'. rewrite Hge'.
    erewrite M_bind_run by exact R1. cbn beta iota. erewrite M_bind_run by exact R3. done.
  - unfold bmap, NDIRECT, NINDIRECT. erewrite M_bind_run by (apply get_inode_run, (f_inode _ _ _ L3)).
    apply Z.ltb_ge in Hge as Hge'. rewrite Hge'. cbv zeta.
    destruct (bn - 12 <? 128) eqn:Elt; bool_to_prop; [|lia].
    destruct (addr_small s d g 12 L2 L3 ltac:(lia)) as (a & Ea & Ha & _ & Es). rewrite decide_True, slot_ind in Es by done.
    change (Z.of_nat 12) with 12 in Ea. erewrite M_bind_run by (unfold lift; cbn [addrs ino]; rewrite Ea; done). cbn beta.
    rewrite <-Es. erewrite M_bind_run by exact R2. cbn beta. exact R4.
  - assert (∀ i, 0 ≤ i ≤ INDIRECT → slot g2 (ino 0 d1) i =
      if decide (i = bn ∧ off mod 512 = 0) then freeblock s1
      else if decide (i = INDIRECT ∧ ind (ino 0 d) = 0) then freeblock s else slot g (ino 0 d) i) as Hs2.
    { intros i Hi. rewrite (N5 i Hi), Es1, (M5 i Hi).
      assert (slot g (ino 0 d) bn = 0 ↔ off mod 512 = 0) as Hz by (rewrite <-!Z.eqb_eq, Hs0; done).
      destruct (decide (i = bn ∧ slot g (ino 0 d) bn = 0)), (decide (i = bn ∧ off mod 512 = 0)); try done;
        exfalso; intuition. }
    destruct (ceil_step off m H0 Hm Hmm) as [Ec Ec0]. pose proof (im_next _ M1). split.
    + split; try done.
      * intros i Hi Hn. destruct (decide (slot g1 (ino 0 d1) i = slot g2 (ino 0 d1) i)) as [E|E].
        -- rewrite <-E in Hn |- *. specialize (Hrange1 i Hi Hn). rewrite N6. destruct (_ =? 0); lia.
        -- rewrite N5, Es1 in E |- * by done.
           destruct (decide (i = bn ∧ slot g (ino 0 d) bn = 0)) as [[-> Ez]|]; [|done]. rewrite N6, <-Hs0, Ez. cbn. lia.
      * intros i Hi. rewrite Hs2, Ec by (unfold INDIRECT; lia). specialize (L5 i Hi). rewrite Ec0 in L5.
        destruct (decide (i = bn ∧ off mod 512 = 0)) as [[-> E]|E]; [split; lia|].
        rewrite (decide_False (P := _ ∧ _)) by (unfold INDIRECT; lia). rewrite L5.
        destruct (Z.eqb_spec (off mod 512) 0); [|done]. lia.
      * assert (ind (ino 0 d1) ≠ 0 ↔ True) as ->; [done|]. rewrite Ec. split; [lia|done].
    + done.
    + rewrite N6, M6, Hbs. destruct (off mod 512 =? 0), (bn =? 12); cbn [andb]; lia.
    + congruence.
Qed.

(** The map of one round, on both sides. *)
Lemma map_block_sim :
  ∃ d' s' g', let b := slot g' (ino 0 d') bn in
    map_block d bn s = Ret ((d', b), s') ∧ bmap 0 bn g = Ret (b, g') ∧ b ≠ 0 ∧ mapped_block s d s' d' g' off m.
Proof using All.
  destruct (decide (bn < 12)); [by apply map_direct_sim|apply map_indirect_sim; lia].
Qed.
End map_block.

(** ** The loop *)
Lemma store_laid s d g off bn b : laid s d g off → 0 ≤ bn < 140 → slot g (ino 0 d) bn ≠ 0 → length b = 512%nat →
  let p := slot g (ino 0 d) bn in laid (put_block s p b) d (set_blk g (<[p := b]> (blk g))) off.
Proof.
  intros [L1 L2 L3 L4 L5 L6] Hbn Hn Hl p.
  destruct (slot_block s d g bn L2 L3 ltac:(unfold INDIRECT; lia) Hn) as (Hp & Hp58 & _).
  pose proof (L4 bn ltac:(unfold INDIRECT; lia) Hn) as Hr. fold p in Hr, Hp, Hp58.
  assert (∀ i, 0 ≤ i ≤ INDIRECT → slot (set_blk g (<[p := b]> (blk g))) (ino 0 d) i = slot g (ino 0 d) i) as Hs
    by (intros i Hi; by apply (store_slot g 0 (ino 0 d) bn b L3 Hbn Hn Hl)).
  split.
  - apply put_block_ok; (done || lia).
  - apply put_block_ghost; (done || lia).
  - by apply (store_ok g 0 (ino 0 d) bn b L3 Hbn Hn Hl).
  - intros i Hi. rewrite Hs by done. cbn [put_block freeblock]. by apply L4.
  - intros i Hi. rewrite Hs by (unfold INDIRECT; lia). by apply L5.
  - done.
Qed.

Lemma ceil512_mono a b : a ≤ b → ceil512 a ≤ ceil512 b.
Proof. unfold ceil512. intros. Z.div_mod_to_equations. lia. Qed.
Lemma blocks_for_mono a b : a ≤ b → blocks_for a ≤ blocks_for b.
Proof.
  intros H%ceil512_mono. unfold blocks_for. destruct (Z.ltb_spec 12 (ceil512 a)), (Z.ltb_spec 12 (ceil512 b)); lia.
Qed.

Lemma iappend_loop_sim fuel : ∀ s d g p off n n' tot,
  laid s d g off → 0 ≤ n → n = n' - tot → 0 ≤ off → n ≤ Z.of_nat fuel → off + n ≤ 140 * 512 →
  n ≤ Z.of_nat (length p) → freeblock s + (blocks_for (off + n) - blocks_for off) ≤ 1000 →
  ∃ s' d' g', iappend_loop d p off n fuel s = Ret ((d', off + n), s') ∧
    writei_loop 0 p off n' tot fuel g = Ret (off + n, g') ∧ mapped_block s d s' d' g' off n.
Proof.
  induction fuel as [|fuel IH]; intros s d g p off n n' tot Hla Hn En Ho Hf Hend Hp Hroom;
    cbn [iappend_loop writei_loop].
  - assert (n = 0) as -> by lia. exists s, d, g. rewrite Z.add_0_r.
    assert ((tot <? n') = false) as -> by (apply Z.ltb_ge; lia). cbn. split_and!; [done..|].
    split; rewrite ?Z.add_0_r; [done|by destruct d|lia|done].
  - destruct (0 <? n) eqn:E0; bool_to_prop.
    2:{ assert (n = 0) as -> by lia. exists s, d, g. rewrite Z.add_0_r.
        assert ((tot <? n') = false) as -> by (apply Z.ltb_ge; lia). split_and!; [done..|].
        split; rewrite ?Z.add_0_r; [done|by destruct d|lia|done]. }
    assert ((tot <? n') = true) as -> by (apply Z.ltb_lt; lia).
    unfold BSIZE. assert (0 ≤ off mod 512 < 512) as Hmod by (apply Z.mod_pos_bound; lia).
    assert (off mod 512 = off - off / 512 * 512) as Emod by (Z.div_mod_to_equations; lia).
    set (m := Z.min (n' - tot) (512 - off mod 512)).
    assert (0 < m ≤ n ∧ off mod 512 + m ≤ 512) as (Hm & Hmm) by (unfold m; lia).
    pose proof (blocks_for_mono (off + m) (off + n) ltac:(lia)) as Hmono.
    assert ((off / 512 <? MAXFILE) = true) as ->.
    { apply Z.ltb_lt. change MAXFILE with 140. Z.div_mod_to_equations. lia. }
    destruct (map_block_sim s d g off m Hla Ho ltac:(lia) Hmm ltac:(lia) ltac:(lia))
      as (d1 & s1 & g1 & R1 & R2 & Hb & [M1 M2 M3 M4]).
    set (b := slot g1 (ino 0 d1) (off / 512)) in *.
    assert (0 ≤ off / 512 < 140) as Hbn by (Z.div_mod_to_equations; lia).
    pose proof M1 as [L1 L2 L3 L4 L5 L6].
    destruct (slot_block s1 d1 g1 (off / 512) L2 L3 ltac:(unfold INDIRECT; lia) Hb) as (Hr & Hb58 & bb & Ebb & Hlb & Eimg).
    fold b in Hr, Hb58, Ebb, Eimg.
    assert (Z.min n (u32 ((off / 512 + 1) * 512 - off)) = m) as ->.
    { rewrite u32_small by (Z.div_mod_to_equations; lia). unfold m. lia. }
    set (chunk := take (Z.to_nat m) p).
    assert (length chunk = Z.to_nat m) as Hlc by (unfold chunk; rewrite length_take; lia).
    assert (get_bytes p 0 m = Ret chunk) as Eget.
    { unfold get_bytes. assert ((0 <=? 0) && (0 + m <=? Z.of_nat (length p)) = true) as ->; [|done].
      apply andb_true_iff. split; [done|]. apply Z.leb_le. lia. }
    set (bb' := splice bb (Z.to_nat (off mod 512)) chunk).
    assert (length bb' = 512%nat) as Hl' by (unfold bb'; rewrite splice_length; lia).
    assert (put_bytes bb (off mod 512) chunk = Ret bb') as Eput.
    { unfold put_bytes. assert ((0 <=? off mod 512) && (off mod 512 + Z.of_nat (length chunk) <=? Z.of_nat (length bb)) = true) as ->; [|done].
      apply andb_true_iff. split; apply Z.leb_le; lia. }
    erewrite M_bind_run by exact R1. cbn beta iota.
    erewrite M_bind_run by (unfold rsect; rewrite Eimg; done). cbn beta.
    erewrite M_bind_run by (unfold lift; rewrite Eget; done). cbn beta. rewrite <-Emod.
    erewrite M_bind_run by (unfold lift; rewrite Eput; done). cbn beta.
    erewrite M_bind_run by (unfold wsect; done). cbn beta. rewrite sector_id by lia.
    rewrite (u32_small (off + m)) by lia.
    erewrite (M_bind_run (bmap 0 _)) by exact R2. cbn beta.
    erewrite (M_bind_run (bread b)) by (unfold bread; rewrite Ebb; done). cbn beta.
    erewrite (M_bind_run (lift (get_bytes _ _ _)) _ g1) by (unfold lift; rewrite Eget; done). cbn beta.
    erewrite (M_bind_run (lift (put_bytes _ _ _)) _ g1) by (unfold lift; rewrite Eput; done). cbn beta.
    erewrite (M_bind_run (log_write _ _)) by (unfold log_write; rewrite Ebb; done). cbn beta.
    destruct (IH (put_block s1 b bb') d1 (set_blk g1 (<[b := bb']> (blk g1))) (drop (Z.to_nat m) p) (off + m) (n - m)
      n' (tot + m)) as (s2 & d2 & g2 & R3 & R4 & [N1 N2 N3 N4]); try lia.
    + by apply store_laid.
    + rewrite length_drop. lia.
    + cbn [put_block freeblock]. replace (off + m + (n - m)) with (off + n) by lia. lia.
    + replace (off + m + (n - m)) with (off + n) in * by lia. exists s2, d2, g2. split_and!; [exact R3|exact R4|].
      split; [done| | |].
      * rewrite N2, M2. by destruct d.
      * rewrite N3. cbn [put_block freeblock]. lia.
      * rewrite N4. exact M4.
Qed.
