(* ===== verification/MkfsImage.v ===== *)
(** * The files of the image

    The inodes and contents that the image holds while mkfs builds it, and what
    [ialloc], [iappend] and the copying of a file do to them. *)

From stdpp Require Import base numbers list gmap sets strings.
From S2P Require Import Prelude Spinlock Fs FsBlocks FsInode FsFile Mkfs MkfsFile.

Open Scope Z_scope.

(** ** A file of the image *)
Definition islot (s : mk) (d : dinode) (i : Z) : Z := slot (view s []) (ino 0 d) i.

(** The contents, wherever the size is recorded: the blocks are those up to the
    end, and zeros follow. *)
Record body (s : mk) (d : dinode) (c : list Z) : Prop := {
  bd_addrs : length (d_addrs d) = 13%nat;
  bd_range i : 0 ≤ i ≤ INDIRECT → islot s d i ≠ 0 → 59 ≤ islot s d i < freeblock s;
  bd_inj i j : 0 ≤ i ≤ INDIRECT → 0 ≤ j ≤ INDIRECT → islot s d i ≠ 0 → islot s d i = islot s d j → i = j;
  bd_dense i : 0 ≤ i < 140 → islot s d i ≠ 0 ↔ i < ceil512 (Z.of_nat (length c));
  bd_ind : ind (ino 0 d) ≠ 0 ↔ 12 < ceil512 (Z.of_nat (length c));
  bd_bytes k : 0 ≤ k < 140 * 512 → fbyte (view s []) (ino 0 d) k = default 0 (c !! Z.to_nat k)
}.

(** The inode on the image. *)
Record inode_at (s : mk) (n : Z) (d : dinode) : Prop := {
  ia_bytes : dinode_of (view s []) n = Some (dinode_bytes (ino n d));
  ia_ok : inode_ok (ino n d)
}.

Record file_at (s : mk) (n : Z) (d : dinode) (c : list Z) : Prop := {
  fa_inode : inode_at s n d;
  fa_body : body s d c;
  fa_size : d_size d = Z.of_nat (length c);
  fa_max : Z.of_nat (length c) ≤ 140 * 512
}.

(** ** The image and the ghost file system *)
Lemma slot_ext s s' x i : 0 ≤ i ≤ INDIRECT → blk s' !! ind x = blk s !! ind x → slot s' x i = slot s x i.
Proof. intros Hi E. unfold slot, block_at. by rewrite E. Qed.

Lemma fbyte_ext s s' x k : 0 ≤ k < 140 * 512 → blk s' !! ind x = blk s !! ind x →
  (slot s x (k / 512) ≠ 0 → blk s' !! slot s x (k / 512) = blk s !! slot s x (k / 512)) →
  fbyte s' x k = fbyte s x k.
Proof.
  intros Hk E Hs. unfold fbyte. rewrite (slot_ext s s') by (try done; unfold INDIRECT; Z.div_mod_to_equations; lia).
  case_if as E0; [done|]. unfold block_at. by rewrite Hs.
Qed.

Lemma body_ind s d c : body s d c → ind (ino 0 d) ≠ 58.
Proof.
  intros Hb E. pose proof (bd_range _ _ _ Hb INDIRECT) as H. unfold islot in H. rewrite slot_ind in H.
  specialize (H ltac:(unfold INDIRECT; lia) ltac:(lia)). lia.
Qed.

Lemma ghost_slot s d g i : ghost s d g → ind (ino 0 d) ≠ 58 → 0 ≤ i ≤ INDIRECT → slot g (ino 0 d) i = islot s d i.
Proof. intros Hg Hi Hr. apply (slot_ext (view s []) g); [done|]. by apply (gh_block _ _ _ Hg). Qed.

Lemma ghost_byte s d g k : ghost s d g → ind (ino 0 d) ≠ 58 →
  (∀ i, 0 ≤ i ≤ INDIRECT → islot s d i ≠ 58) → 0 ≤ k < 140 * 512 →
  fbyte g (ino 0 d) k = fbyte (view s []) (ino 0 d) k.
Proof.
  intros Hg Hi Hs Hk. apply fbyte_ext; [done|by apply (gh_block _ _ _ Hg)|].
  intros _. apply (gh_block _ _ _ Hg). apply Hs. unfold INDIRECT. Z.div_mod_to_equations. lia.
Qed.

Lemma body_58 s d c i : body s d c → 0 ≤ i ≤ INDIRECT → islot s d i ≠ 58.
Proof. intros Hb Hi E. pose proof (bd_range _ _ _ Hb i Hi ltac:(lia)). lia. Qed.

Lemma body_laid s d c g : image_ok s → body s d c → ghost s d g → laid s d g (Z.of_nat (length c)).
Proof.
  intros Him Hb Hg. pose proof (body_ind _ _ _ Hb) as Hi.
  assert (∀ i, 0 ≤ i ≤ INDIRECT → slot g (ino 0 d) i = islot s d i) as Hs by (intros; by apply ghost_slot).
  pose proof (im_next _ Him) as Hnx. destruct Hb as [B1 B2 B3 B4 B5 B6]. pose proof Hg as [G1 G2 G3 G4 G5].
  assert (sb_size (sb g) = 1000) as Es by by rewrite G1.
  split; try done.
  - split; rewrite ?Es; try done.
    + by rewrite G2.
    + rewrite G4 by lia. apply Z.ltb_lt. lia.
    + intros b Hr. destruct (decide (b = 58)) as [->|Hne].
      * destruct (bm_block _ G5 0) as (z & Hz & Hl); [lia|]. rewrite BBLOCK_mk in Hz by done. by exists z.
      * rewrite G3 by done. by apply (im_block _ Him).
    + intros i Hir. rewrite Hs by done. intros Hn. pose proof (B2 i Hir Hn).
      split; rewrite ?Es; [lia|rewrite G4 by lia; apply Z.ltb_lt; lia|].
      intros b' Hb'. rewrite BBLOCK_mk by done. lia.
    + intros i j Hir Hjr. rewrite !Hs by done. by apply B3.
  - intros i Hir. rewrite Hs by done. by apply B2.
  - intros i Hir. rewrite Hs by (unfold INDIRECT; lia). by apply B4.
Qed.

Lemma laid_body s d g c : laid s d g (Z.of_nat (length c)) →
  (∀ k, 0 ≤ k < 140 * 512 → fbyte g (ino 0 d) k = default 0 (c !! Z.to_nat k)) → body s d c.
Proof.
  intros [L1 L2 L3 L4 L5 L6] Hby.
  assert (ind (ino 0 d) ≠ 58) as Hi.
  { intros E. pose proof (L4 INDIRECT) as H. rewrite slot_ind in H. specialize (H ltac:(unfold INDIRECT; lia) ltac:(lia)). lia. }
  assert (∀ i, 0 ≤ i ≤ INDIRECT → islot s d i = slot g (ino 0 d) i) as Hs by (intros; symmetry; by apply ghost_slot).
  split; try done.
  - apply (f_naddrs _ _ _ L3).
  - intros i Hr. rewrite Hs by done. by apply L4.
  - intros i j Hr Hjr. rewrite !Hs by done. by apply (f_inj _ _ _ L3).
  - intros i Hr. rewrite Hs by (unfold INDIRECT; lia). by apply L5.
  - intros k Hk. rewrite <-(ghost_byte s d g k L2 Hi); [by apply Hby| |done].
    intros i Hr. rewrite Hs by done. intros E. pose proof (L4 i Hr ltac:(lia)). lia.
Qed.

(** A body depends on the blocks of the file only. *)
Lemma body_frame s s' d c : body s d c → freeblock s ≤ freeblock s' →
  (∀ i, 0 ≤ i ≤ INDIRECT → islot s d i ≠ 0 → img s' !! islot s d i = img s !! islot s d i) → body s' d c.
Proof.
  intros [B1 B2 B3 B4 B5 B6] Hf Hb.
  assert (∀ i, 0 ≤ i ≤ INDIRECT → islot s' d i = islot s d i) as Hs.
  { intros i Hi. destruct (decide (ind (ino 0 d) = 0)) as [E0|E0].
    - unfold islot, slot. by rewrite E0.
    - apply slot_ext; [done|]. cbn [view blk]. pose proof (Hb INDIRECT) as H. unfold islot in H.
      rewrite slot_ind in H. apply H; [unfold INDIRECT; lia|done]. }
  split; try done.
  - intros i Hi. rewrite Hs by done. intros Hn. specialize (B2 i Hi Hn). lia.
  - intros i j Hi Hj. rewrite !Hs by done. by apply B3.
  - intros i Hi. rewrite Hs by (unfold INDIRECT; lia). by apply B4.
  - intros k Hk. rewrite <-B6 by done. assert (0 ≤ k / 512 ≤ INDIRECT) as Hki by (unfold INDIRECT; Z.div_mod_to_equations; lia).
    unfold fbyte. fold (islot s' d (k / 512)) (islot s d (k / 512)). rewrite Hs by done. case_if; [done|].
    unfold block_at. cbn [view blk]. by rewrite Hb.
Qed.

(** ** Inode blocks *)
Lemma iblock_range n : 0 ≤ n < 208 → 32 ≤ iblock n < 58.
Proof.
  intros Hn. unfold iblock, IPB. change (inodestart mksb) with 32. Z.div_mod_to_equations. lia.
Qed.

Lemma iblock_some s n : image_ok s → 0 ≤ n < 208 →
  ∃ b, img s !! iblock n = Some b ∧ length b = 512%nat ∧ rsect (iblock n) s = Ret (b, s).
Proof.
  intros Him Hn. pose proof (iblock_range n Hn). destruct (im_block _ Him (iblock n)) as (b & Eb & Hl); [lia|].
  exists b. split_and!; [done..|]. unfold rsect. rewrite sector_id by lia. by rewrite Eb.
Qed.

Lemma winode_run s n d b : 0 ≤ n < 208 → img s !! iblock n = Some b → length b = 512%nat →
  length (d_addrs d) = 13%nat →
  winode n d s = Ret (tt, put_block s (iblock n) (splice b (Z.to_nat (dip_off n)) (dinode_bytes (ino n d)))).
Proof.
  intros Hn Eb Hl Ha. pose proof (iblock_range n Hn). destruct (dip_off_nat n) as [Ho Hlt]. rewrite <-Hl in Hlt.
  pose proof (put_dinode _ _ (ino n d) Hlt Ha) as Hput. rewrite <-Ho in Hput.
  unfold winode. erewrite M_bind_run by (unfold rsect; rewrite sector_id by lia; rewrite Eb; done). cbv zeta.
  change (dip_at n) with (dip_off n).
  do 5 (apply bind_Ret in Hput as (? & E & Hput);
    erewrite M_bind_run; [|unfold lift; cbn [type major minor nlink size ino] in E; rewrite E; done]; clear E).
  erewrite M_bind_run; [|unfold lift; cbn [addrs ino] in Hput; rewrite Hput; done].
  unfold wsect. rewrite sector_id by lia. done.
Qed.

Lemma splice_self b o k : (o + k ≤ length b)%nat → splice b o (take k (drop o b)) = b.
Proof.
  intros H. assert (length (take k (drop o b)) = k) as Hk by (rewrite length_take, length_drop; lia).
  unfold splice. rewrite Hk. rewrite <-drop_drop. rewrite take_drop. by rewrite take_drop.
Qed.

(** An inode read back. *)
Lemma inode_block s n d : inode_at s n d → ∃ b, img s !! iblock n = Some b ∧
  take 64 (drop (Z.to_nat (dip_off n)) b) = dinode_bytes (ino n d).
Proof.
  intros [H _]. unfold dinode_of in H. change (IBLOCK n (view s [])) with (iblock n) in H. cbn [view blk] in H.
  apply fmap_Some in H as (b & Eb & H). exists b. split; [done|]. by symmetry.
Qed.

Lemma rinode_run s n d : image_ok s → 0 ≤ n < 208 → inode_at s n d → rinode n s = Ret (d, s).
Proof.
  intros Him Hn Hia. destruct (inode_block s n d Hia) as (b & Eb & Ed).
  destruct (iblock_some s n Him Hn) as (b' & Eb' & Hl & Hr). assert (b' = b) as -> by congruence.
  destruct (dip_off_nat n) as [Ho Hlt]. rewrite <-Hl in Hlt. destruct (ia_ok _ _ _ Hia) as [O1 O2 O3 O4 O5 O6 O7] eqn:Eok.
  destruct (get_dinode b _ (ino n d) Hlt (ia_ok _ _ _ Hia)) as (G1 & G2 & G3 & G4 & G5 & G6).
  rewrite <-Ed, splice_self, <-Ho in * by lia. unfold rinode. erewrite M_bind_run by exact Hr. cbv zeta.
  change (dip_at n) with (dip_off n).
  do 6 (erewrite M_bind_run; [|unfold lift; (rewrite G1 || rewrite G2 || rewrite G3 || rewrite G4 || rewrite G5 || rewrite G6); done];
    cbn beta).
  cbn [type major minor nlink size addrs ino] in *. rewrite !i16_mod by done. by destruct d.
Qed.

Lemma winode_inode s n d b : 0 ≤ n < 208 → img s !! iblock n = Some b → length b = 512%nat → inode_ok (ino n d) →
  let s' := put_block s (iblock n) (splice b (Z.to_nat (dip_off n)) (dinode_bytes (ino n d))) in
  inode_at s' n d ∧
  ∀ m, 0 ≤ m < 208 → m ≠ n → dinode_of (view s' []) m = dinode_of (view s []) m.
Proof.
  intros Hn Eb Hl Hok s'. destruct (dip_off_nat n) as [Ho Hlt]. rewrite <-Hl in Hlt.
  pose proof (dinode_bytes_length (ino n d) (ok_naddrs _ Hok)) as Hlen. split.
  - split; [|done]. unfold dinode_of. change (IBLOCK n (view s' [])) with (iblock n). cbn [s' view blk put_block img].
    rewrite lookup_insert_eq. cbn [fmap option_fmap option_map compose]. f_equal.
    apply list_eq. intros i. destruct (decide (i < 64)%nat).
    + rewrite lookup_take_lt, lookup_drop, splice_lookup by lia. rewrite decide_True by lia. f_equal. lia.
    + rewrite lookup_take_ge, lookup_ge_None_2 by lia. done.
  - intros m Hm Hne. unfold dinode_of. change (IBLOCK m (view ?z [])) with (iblock m). cbn [s' view blk put_block img].
    destruct (decide (iblock m = iblock n)) as [E|E]; [|by rewrite lookup_insert_ne].
    rewrite E, lookup_insert_eq, Eb. cbn [fmap option_fmap option_map compose]. f_equal.
    apply splice_other; [lia|]. rewrite Hlen. revert E Hne Hm Hn. unfold iblock, dip_off, IPB.
    clear. intros. Z.div_mod_to_equations. lia.
Qed.

(** ** [iappend] *)
Record appended (s : mk) (n : Z) (d : dinode) (c p : list Z) (s' : mk) (d' : dinode) : Prop := {
  ap_image : image_ok s';
  ap_file : file_at s' n d' (c ++ p);
  ap_type : d_type d' = d_type d;
  ap_nlink : d_nlink d' = d_nlink d;
  ap_next : freeblock s' = freeblock s + (blocks_for (Z.of_nat (length (c ++ p))) - blocks_for (Z.of_nat (length c)));
  ap_inode : freeinode s' = freeinode s;
  ap_slots i : 0 ≤ i ≤ INDIRECT → islot s' d' i ≠ 0 → islot s' d' i = islot s d i ∨ freeblock s ≤ islot s' d' i;
  ap_other b : b ≠ iblock n → b ≠ 58 → (∀ i, 0 ≤ i ≤ INDIRECT → islot s' d' i ≠ 0 → islot s' d' i ≠ b) →
    img s' !! b = img s !! b;
  ap_inodes m : 0 ≤ m < 208 → m ≠ n → dinode_of (view s' []) m = dinode_of (view s []) m
}.

Lemma addrs_small s d g : ghost s d g → file_ok g 0 (ino 0 d) → Forall (λ w, 0 ≤ w < 2 ^ 32) (d_addrs d).
Proof.
  intros Hg Hok. apply Forall_lookup. intros i a Hi. pose proof (f_naddrs _ _ _ Hok) as Hl.
  change (length (d_addrs d) = 13%nat) in Hl. pose proof (lookup_lt_Some _ _ _ Hi).
  destruct (addr_small s d g i Hg Hok ltac:(lia)) as (a' & _ & Ha & Hr & _). assert (a = a') as -> by congruence. lia.
Qed.

Lemma body_set_size s d c z : body s d c → body s (set_dsize d z) c.
Proof. intros [B1 B2 B3 B4 B5 B6]. by split. Qed.

Lemma ceil512_le n : n ≤ 140 * 512 → ceil512 n ≤ 140.
Proof. unfold ceil512. intros. Z.div_mod_to_equations. lia. Qed.

(** The loop of [iappend] on the image: the body grows, and what else changes. *)
Lemma iappend_body s d c p : image_ok s → body s d c → Z.of_nat (length c + length p) ≤ 140 * 512 →
  let off := Z.of_nat (length c) in let n := Z.of_nat (length p) in
  freeblock s + (blocks_for (off + n) - blocks_for off) ≤ 1000 →
  ∃ s' d', iappend_loop d p off n (Z.to_nat n) s = Ret ((d', off + n), s') ∧ image_ok s' ∧
    body s' d' (c ++ p) ∧ d' = set_daddrs d (d_addrs d') ∧ Forall (λ w, 0 ≤ w < 2 ^ 32) (d_addrs d') ∧
    freeblock s' = freeblock s + (blocks_for (off + n) - blocks_for off) ∧ freeinode s' = freeinode s ∧
    (∀ i, 0 ≤ i ≤ INDIRECT → islot s' d' i ≠ 0 → islot s' d' i = islot s d i ∨ freeblock s ≤ islot s' d' i) ∧
    (∀ b, b ≠ 58 → (∀ i, 0 ≤ i ≤ INDIRECT → islot s' d' i ≠ 0 → islot s' d' i ≠ b) → img s' !! b = img s !! b).
Proof.
  intros Him Hb Hmax off n Hroom. destruct (ghost_exists s d Him) as [g Hg].
  pose proof (body_laid s d c g Him Hb Hg) as Hla. pose proof (body_ind _ _ _ Hb) as Hi58.
  destruct (iappend_loop_sim (Z.to_nat n) s d g p off n n 0) as (s' & d' & g' & R1 & R2 & [M1 M2 M3 M4]); try lia; try done.
  destruct (writei_loop_spec 0 (Z.to_nat n) g (ino 0 d) p off n 0 (la_file _ _ _ _ Hla)) as [F|(g2 & x' & R3 & Hw)];
    try lia; [rewrite R2 in F; discriminate F|].
  rewrite Z.sub_0_r in R3, Hw. rewrite R2 in R3. injection R3 as <-.
  pose proof (la_ghost _ _ _ _ M1) as Hg'. assert (x' = ino 0 d') as ->.
  { pose proof (f_inode _ _ _ (wr_ok _ _ _ _ _ _ _ _ Hw)) as E. rewrite (gh_inode _ _ _ Hg') in E. by injection E as <-. }
  assert (body s' d' (c ++ p)) as Hb'.
  { apply (laid_body s' d' g'); [by rewrite length_app, Nat2Z.inj_add|]. intros k Hk.
    rewrite (wr_bytes _ _ _ _ _ _ _ _ Hw) by done. unfold overlay.
    rewrite (ghost_byte s d g k Hg Hi58) by (done || (intros; by eapply body_58)).
    rewrite (bd_bytes _ _ _ Hb) by done. case_decide as E.
    - rewrite lookup_app_r by lia. do 2 f_equal. lia.
    - destruct (decide (k < off)); [by rewrite lookup_app_l by lia|].
      rewrite !lookup_ge_None_2; [done|rewrite length_app; lia|lia]. }
  pose proof (body_ind _ _ _ Hb') as Hi58'.
  assert (∀ i, 0 ≤ i ≤ INDIRECT → slot g' (ino 0 d') i = islot s' d' i) as Hs' by (intros; by apply ghost_slot).
  exists s', d'. split_and!; try done.
  - by apply (la_image _ _ _ _ M1).
  - by apply (addrs_small s' d' g' Hg'), (la_file _ _ _ _ M1).
  - intros i Hi. rewrite <-Hs' by done. intros Hn. rewrite <-(ghost_slot s d g i Hg Hi58 Hi).
    destruct (decide (slot g (ino 0 d) i = 0)) as [E|E].
    + right. pose proof (gr_new _ _ _ _ _ (wr_grows _ _ _ _ _ _ _ _ Hw) i Hi E Hn) as Hf.
      pose proof (la_range _ _ _ _ M1 i Hi Hn). pose proof (im_next _ (la_image _ _ _ _ M1)).
      rewrite (gh_used _ _ _ Hg) in Hf by lia. bool_to_prop. lia.
    + left. apply (gr_slots _ _ _ _ _ (wr_grows _ _ _ _ _ _ _ _ Hw)); done.
  - intros b Hne Hb0. destruct (decide (img s' !! b = img s !! b)) as [|E]; [done|exfalso].
    rewrite <-(gh_block _ _ _ Hg' b Hne), <-(gh_block _ _ _ Hg b Hne) in E.
    destruct (wr_touches _ _ _ _ _ _ _ _ Hw b E) as [(b' & Hb2 & ->)|(Hn & [->|(i & Hi & ->)])].
    + rewrite (gh_sb _ _ _ Hg) in Hb2. by rewrite BBLOCK_mk in Hne by (done || apply (gh_sb _ _ _ Hg)).
    + assert (islot s' d' INDIRECT = ind (ino 0 d')) as Ei by apply slot_ind.
      apply (Hb0 INDIRECT); [unfold INDIRECT; lia|congruence|done].
    + pose proof (ceil512_le (off + n)). assert (0 ≤ off / 512) by (apply Z.div_pos; lia).
      assert (0 ≤ i ≤ INDIRECT) as Hr by (unfold INDIRECT; lia).
      by apply (Hb0 i Hr); rewrite <-(Hs' i Hr).
Qed.

Lemma iappend_spec s n d c p : image_ok s → 0 ≤ n < 208 → file_at s n d c →
  Z.of_nat (length c + length p) ≤ 140 * 512 →
  freeblock s + (blocks_for (Z.of_nat (length (c ++ p))) - blocks_for (Z.of_nat (length c))) ≤ 1000 →
  ∃ s' d', iappend n p (Z.of_nat (length p)) s = Ret (tt, s') ∧ appended s n d c p s' d'.
Proof.
  intros Him Hn [Hia Hb Hsz Hmax0] Hmax Hroom. rewrite length_app, Nat2Z.inj_add in Hroom.
  destruct (iappend_body s d c p Him Hb Hmax Hroom)
    as (s1 & d1 & R & Him1 & Hb1 & Hm & Hadr & Hnx & Hin & Hsl & Hot).
  set (off := Z.of_nat (length c) + Z.of_nat (length p)) in *.
  set (d2 := set_dsize d1 off). pose proof (iblock_range n Hn) as Hib.
  assert (∀ m, 0 ≤ m < 208 → ∀ i, 0 ≤ i ≤ INDIRECT → islot s1 d1 i ≠ 0 → islot s1 d1 i ≠ iblock m) as Hnot.
  { intros m Hm0 i Hi Hn0. pose proof (bd_range _ _ _ Hb1 i Hi Hn0). pose proof (iblock_range m Hm0). lia. }
  assert (∀ m, 0 ≤ m < 208 → img s1 !! iblock m = img s !! iblock m) as Hinodes.
  { intros m Hm0. pose proof (iblock_range m Hm0). apply Hot; [lia|by apply Hnot]. }
  destruct (iblock_some s1 n Him1 Hn) as (b & Eb & Hl & _).
  assert (inode_ok (ino n d2)) as Hok.
  { destruct (ia_ok _ _ _ Hia) as [O1 O2 O3 O4 O5 O6 O7]. unfold d2. rewrite Hm in *. split; try done.
    - cbn [size ino d_size set_dsize]. lia.
    - cbn [addrs ino]. apply (bd_addrs _ _ _ Hb1). }
  destruct (winode_inode s1 n d2 b Hn Eb Hl Hok) as [Hia2 Hin2].
  pose proof (winode_run s1 n d2 b Hn Eb Hl (ok_naddrs _ Hok)) as Hrun.
  set (s2 := put_block s1 (iblock n) (splice b (Z.to_nat (dip_off n)) (dinode_bytes (ino n d2)))) in *.
  assert (∀ i, 0 ≤ i ≤ INDIRECT → islot s1 d1 i ≠ 0 → img s2 !! islot s1 d1 i = img s1 !! islot s1 d1 i) as Hkeep.
  { intros i Hi Hn0. cbn [s2 put_block img]. rewrite lookup_insert_ne; [done|].
    by apply not_eq_sym, Hnot. }
  assert (∀ i, 0 ≤ i ≤ INDIRECT → islot s2 d2 i = islot s1 d1 i) as Hsl2.
  { intros i Hi. destruct (decide (ind (ino 0 d1) = 0)) as [E0|E0].
    - transitivity (islot s2 d1 i); [reflexivity|]. unfold islot, slot. by rewrite E0.
    - apply (slot_ext (view s1 []) (view s2 []) (ino 0 d2)); [done|]. cbn [view blk].
      specialize (Hkeep INDIRECT). unfold islot in Hkeep. rewrite slot_ind in Hkeep.
      apply Hkeep; [unfold INDIRECT; lia|done]. }
  exists s2, d2. split.
  { unfold iappend. erewrite M_bind_run by (by apply rinode_run). cbn beta. rewrite Hsz, xint_id by lia.
    erewrite M_bind_run by exact R. cbn beta iota. rewrite xint_id by lia. exact Hrun. }
  split; try done.
  - apply put_block_ok; [done|pose proof (im_next _ Him1); lia|].
    destruct (dip_off_nat n) as [_ ?]. rewrite splice_length; [done|].
    rewrite dinode_bytes_length; [lia|by apply (ok_naddrs _ Hok)].
  - split; [done| | |].
    + apply body_set_size. apply (body_frame s1); [done|done|exact Hkeep].
    + cbn [d2 d_size set_dsize]. rewrite length_app. lia.
    + rewrite length_app. lia.
  - cbn. by rewrite Hm.
  - cbn. by rewrite Hm.
  - cbn [s2 put_block freeblock]. rewrite length_app, Nat2Z.inj_add. exact Hnx.
  - intros i Hi. rewrite Hsl2 by done. by apply Hsl.
  - intros z Hz1 Hz2 Hz3. cbn [s2 put_block img]. rewrite lookup_insert_ne by done. apply Hot; [done|].
    intros i Hi. rewrite <-Hsl2 by done. by apply Hz3.
  - intros m Hm0 Hne. rewrite Hin2 by done. unfold dinode_of. cbn [view blk].
    change (IBLOCK m (view ?z [])) with (iblock m). by rewrite Hinodes.
Qed.
