(* ===== verification/MkfsBuild.v ===== *)
(** * Building the image

    The invariant of mkfs between its steps: the image holds a list of files, in
    the order of their inode numbers, that share no block; the blocks handed out
    are the ones they need. *)

From stdpp Require Import base numbers list gmap sets strings.
From S2P Require Import Prelude Spinlock Fs FsBlocks FsInode FsFile Mkfs MkfsFile MkfsImage.

Open Scope Z_scope.

(** ** The files and the blocks they need *)

(** A file is its type and its contents. *)
Notation mfile := (Z * list Z)%type.
Definition file_blocks (f : mfile) : Z := blocks_for (Z.of_nat (length f.2)).
Fixpoint blocks_of (fl : list mfile) : Z :=
  match fl with [] => 0 | f :: fl => file_blocks f + blocks_of fl end.

Lemma ceil512_nonneg n : 0 ≤ n → 0 ≤ ceil512 n.
Proof. intros. unfold ceil512. apply Z.div_pos; lia. Qed.
Lemma file_blocks_nonneg f : 0 ≤ file_blocks f.
Proof. unfold file_blocks, blocks_for. pose proof (ceil512_nonneg (Z.of_nat (length f.2)) ltac:(lia)). case_if; lia. Qed.

Lemma blocks_of_app fl fl' : blocks_of (fl ++ fl') = blocks_of fl + blocks_of fl'.
Proof. induction fl as [|f fl IH]; cbn; lia. Qed.
Lemma blocks_of_nonneg fl : 0 ≤ blocks_of fl.
Proof. induction fl as [|f fl IH]; cbn; [lia|]. pose proof (file_blocks_nonneg f). lia. Qed.
Lemma blocks_of_insert fl k f f' : fl !! k = Some f →
  blocks_of (<[k := f']> fl) = blocks_of fl + (file_blocks f' - file_blocks f).
Proof.
  revert k. induction fl as [|g fl IH]; intros [|k] E; try done.
  - injection E as ->. cbn. lia.
  - pose proof (IH k E) as H.
    change (blocks_of (<[S k := f']> (g :: fl))) with (file_blocks g + blocks_of (<[k := f']> fl)).
    cbn [blocks_of]. lia.
Qed.

(** ** The invariant *)
Definition sb_block : list Z :=
  le32s [1000; 941; 200; 30; 2; 32; 58] ++ replicate 484 0.

(** The boot block, the super block and the log. *)
Definition low_block (b : Z) : list Z := if b =? 1 then sb_block else zero_bytes.

Record built (s : mk) (ds : list dinode) (fl : list mfile) : Prop := {
  bu_image : image_ok s;
  bu_len : length ds = length fl;
  bu_inode : freeinode s = 1 + Z.of_nat (length fl);
  bu_count : (length fl ≤ 207)%nat;
  bu_files k d f : ds !! k = Some d → fl !! k = Some f →
    file_at s (1 + Z.of_nat k) d f.2 ∧ d_type d = f.1 ∧ d_nlink d = 1;
  bu_disjoint k k' d d' i j : ds !! k = Some d → ds !! k' = Some d' → k ≠ k' →
    0 ≤ i ≤ INDIRECT → 0 ≤ j ≤ INDIRECT → islot s d i ≠ 0 → islot s d i ≠ islot s d' j;
  bu_next : freeblock s = 59 + blocks_of fl;
  bu_free m : 1 + Z.of_nat (length fl) ≤ m < 208 → dinode_of (view s []) m = Some (replicate 64 0);
  bu_low b : 0 ≤ b < 32 → img s !! b = Some (low_block b)
}.

Lemma file_at_frame s s' n d c : file_at s n d c → freeblock s ≤ freeblock s' →
  dinode_of (view s' []) n = dinode_of (view s []) n →
  (∀ i, 0 ≤ i ≤ INDIRECT → islot s d i ≠ 0 → img s' !! islot s d i = img s !! islot s d i) → file_at s' n d c.
Proof.
  intros [[F1 F2] F3 F4 F5] Hf Hd Hb. split; try done; [|by apply (body_frame s)]. split; [|done]. by rewrite Hd.
Qed.

Lemma islot_frame s s' d c i : body s d c → (∀ i, 0 ≤ i ≤ INDIRECT → islot s d i ≠ 0 → img s' !! islot s d i = img s !! islot s d i) →
  0 ≤ i ≤ INDIRECT → islot s' d i = islot s d i.
Proof.
  intros Hb H Hi. destruct (decide (ind (ino 0 d) = 0)) as [E0|E0]; [unfold islot, slot; by rewrite E0|].
  apply slot_ext; [done|]. cbn [view blk]. specialize (H INDIRECT). unfold islot in H. rewrite slot_ind in H.
  apply H; [unfold INDIRECT; lia|done].
Qed.

(** ** A new inode *)
Definition new_inode (t : Z) : dinode := Dinode t 0 0 1 0 (replicate 13 0).

Lemma new_slot s t i : 0 ≤ i ≤ INDIRECT → islot s (new_inode t) i = 0.
Proof.
  intros Hi. unfold islot, slot, ind. cbn [addrs ino d_addrs new_inode].
  change (replicate 13 0 !! 12%nat) with (Some 0). cbn [default from_option id Z.eqb].
  case_if; [|by case_if]. destruct (replicate 13 0 !! Z.to_nat i) as [z|] eqn:E; [|done].
  by apply lookup_replicate in E as [-> _].
Qed.

Lemma new_body s t : body s (new_inode t) [].
Proof.
  assert (ceil512 (Z.of_nat (length ([] : list Z))) = 0) as Ec by done.
  split; rewrite ?Ec; try done.
  - intros i Hi. by rewrite new_slot.
  - intros i j Hi _. by rewrite new_slot.
  - intros i Hi. rewrite new_slot by (unfold INDIRECT; lia). lia.
  - intros k Hk. unfold fbyte. fold (islot s (new_inode t) (k / 512)).
    rewrite new_slot by (unfold INDIRECT; Z.div_mod_to_equations; lia). done.
Qed.

Lemma ialloc_built s ds fl t : built s ds fl → (length fl < 207)%nat → 0 < t < 32768 →
  ∃ s', ialloc t s = Ret (1 + Z.of_nat (length fl), s') ∧ built s' (ds ++ [new_inode t]) (fl ++ [(t, [])]).
Proof.
  intros Hb Hlt Ht. pose proof Hb as [B1 B2 B3 B4 B5 B6 B7 B8 B9].
  set (n := 1 + Z.of_nat (length fl)) in *.
  set (s0 := Mk (img s) (u32 (freeinode s + 1)) (freeblock s)).
  assert (image_ok s0) as Him0 by (destruct B1; by split).
  assert (0 ≤ n < 208) as Hn by lia. pose proof (iblock_range n Hn) as Hib.
  destruct (iblock_some s0 n Him0 Hn) as (b & Eb & Hl & _).
  assert (inode_ok (ino n (new_inode t))) as Hok.
  { split; cbn [type major minor nlink size addrs ino d_type d_major d_minor d_nlink d_size d_addrs new_inode]; try lia; [|done].
    apply Forall_replicate. lia. }
  destruct (winode_inode s0 n (new_inode t) b Hn Eb Hl Hok) as [Hia Hin].
  pose proof (winode_run s0 n (new_inode t) b Hn Eb Hl eq_refl) as Hrun.
  set (s' := put_block s0 (iblock n) (splice b (Z.to_nat (dip_off n)) (dinode_bytes (ino n (new_inode t))))) in *.
  exists s'. split.
  { unfold ialloc, next_inode. erewrite M_bind_run by done. cbn beta. fold s0. rewrite B3. fold n.
    rewrite xshort_id by lia. change (i16 (xshort 1)) with 1. change (xint 0) with 0.
    assert (i16 t = t) as -> by (unfold i16; rewrite Z.mod_small; lia).
    erewrite M_bind_run by exact Hrun. done. }
  assert (∀ d c, body s d c → ∀ i, 0 ≤ i ≤ INDIRECT → islot s d i ≠ 0 → img s' !! islot s d i = img s !! islot s d i) as Hkeep.
  { intros d c Hbd i Hi Hn0. pose proof (bd_range _ _ _ Hbd i Hi Hn0). cbn [s' put_block img].
    by rewrite lookup_insert_ne by lia. }
  assert (∀ k d, ds !! k = Some d → ∃ c, body s d c) as Hbody.
  { intros k d Hk. destruct (lookup_lt_is_Some_2 fl k) as [f Hf]; [rewrite <-B2; by eapply lookup_lt_Some|].
    exists f.2. by apply (B5 k d f Hk Hf). }
  assert (∀ k d, ds !! k = Some d → ∀ i, 0 ≤ i ≤ INDIRECT → islot s' d i = islot s d i) as Hsl.
  { intros k d Hk. destruct (Hbody k d Hk) as [c Hc]. intros i Hi. by eapply islot_frame, Hi; [|by eapply Hkeep]. }
  split.
  - apply put_block_ok; [done|cbn; pose proof (im_next _ B1); lia|].
    destruct (dip_off_nat n) as [_ ?]. rewrite splice_length; [done|].
    rewrite dinode_bytes_length; [lia|done].
  - by rewrite !length_app, B2.
  - cbn [s' s0 put_block freeinode]. rewrite u32_small, length_app by lia. cbn [length]. lia.
  - rewrite length_app. cbn [length]. lia.
  - intros k d f Hd Hf. apply lookup_app_Some in Hd as [Hd|[Hk Hd]].
    + pose proof (lookup_lt_Some _ _ _ Hd). rewrite lookup_app_l in Hf by lia.
      destruct (B5 k d f Hd Hf) as (F & ? & ?). split; [|done]. apply (file_at_frame s); try done.
      * rewrite Hin; [done|lia|lia].
      * eapply Hkeep, F.
    + rewrite lookup_app_r in Hf by lia. rewrite B2 in *.
      apply list_lookup_singleton_Some in Hd as [Ek <-]. rewrite Ek in Hf. injection Hf as <-.
      replace (1 + Z.of_nat k) with n by lia. split; [|done]. split; [done|apply new_body|done|cbn; lia].
  - intros k k' d d' i j Hd Hd' Hne Hi Hj. apply lookup_app_Some in Hd as [Hd|[_ Hd]].
    2:{ apply list_lookup_singleton_Some in Hd as [_ <-]. by rewrite new_slot. }
    rewrite (Hsl k d Hd i Hi). apply lookup_app_Some in Hd' as [Hd'|[_ Hd']].
    + rewrite (Hsl k' d' Hd' j Hj). by apply (B6 k k').
    + apply list_lookup_singleton_Some in Hd' as [_ <-]. by rewrite new_slot.
  - cbn [s' s0 put_block freeblock]. rewrite B7, blocks_of_app. change (blocks_of [(t, [])]) with 0. lia.
  - intros m Hm. rewrite length_app in Hm. cbn [length] in Hm. rewrite Hin by lia. apply (B8 m). lia.
  - intros z Hz. cbn [s' s0 put_block img]. rewrite lookup_insert_ne by lia. by apply B9.
Qed.

(** ** Appending *)
Lemma append_built s ds fl k t c p : built s ds fl → fl !! k = Some (t, c) →
  Z.of_nat (length (c ++ p)) ≤ 140 * 512 → 59 + blocks_of (<[k := (t, c ++ p)]> fl) ≤ 1000 →
  ∃ s' ds', iappend (1 + Z.of_nat k) p (Z.of_nat (length p)) s = Ret (tt, s') ∧
    built s' ds' (<[k := (t, c ++ p)]> fl).
Proof.
  intros Hb Hk Hmax Hroom. pose proof Hb as [B1 B2 B3 B4 B5 B6 B7 B8 B9].
  rewrite (blocks_of_insert fl k (t, c)) in Hroom by done.
  destruct (lookup_lt_is_Some_2 ds k) as [d Hd]; [rewrite B2; by eapply lookup_lt_Some|].
  pose proof (lookup_lt_Some _ _ _ Hk) as Hlt. destruct (B5 k d (t, c) Hd Hk) as (Hf & Ht & Hl). cbn [fst snd] in *.
  unfold file_blocks in Hroom. cbn [fst snd] in Hroom.
  destruct (iappend_spec s (1 + Z.of_nat k) d c p B1 ltac:(lia) Hf) as (s' & d' & Hrun & [A1 A2 A3 A4 A5 A6 A7 A8 A9]);
    [rewrite <-length_app; done|lia|].
  exists s', (<[k := d']> ds). split; [done|].
  assert (freeblock s ≤ freeblock s') as Hgrow.
  { pose proof (blocks_for_mono (Z.of_nat (length c)) (Z.of_nat (length (c ++ p)))) as H. rewrite length_app in *. lia. }
  assert (∀ k1 d1, ds !! k1 = Some d1 → k1 ≠ k → ∃ f, fl !! k1 = Some f ∧ file_at s (1 + Z.of_nat k1) d1 f.2) as Hfile.
  { intros k1 d1 H1 _. destruct (lookup_lt_is_Some_2 fl k1) as [f Hf1]; [rewrite <-B2; by eapply lookup_lt_Some|].
    exists f. split; [done|]. by apply (B5 k1 d1 f H1 Hf1). }
  (* the blocks of the other files are not those of this one *)
  assert (∀ k1 d1, ds !! k1 = Some d1 → k1 ≠ k → ∀ i j, 0 ≤ i ≤ INDIRECT → 0 ≤ j ≤ INDIRECT → islot s d1 i ≠ 0 →
    islot s' d' j ≠ 0 → islot s' d' j ≠ islot s d1 i) as Hdis.
  { intros k1 d1 H1 Hne i j Hi Hj Hn1 Hn2 E. destruct (Hfile k1 d1 H1 Hne) as (f & _ & F).
    pose proof (bd_range _ _ _ (fa_body _ _ _ _ F) i Hi Hn1). destruct (A7 j Hj Hn2) as [E2|?]; [|lia].
    apply (B6 k1 k d1 d i j H1 Hd Hne Hi Hj Hn1). congruence. }
  assert (∀ k1 d1, ds !! k1 = Some d1 → k1 ≠ k → ∀ i, 0 ≤ i ≤ INDIRECT → islot s d1 i ≠ 0 →
    img s' !! islot s d1 i = img s !! islot s d1 i) as Hkeep.
  { intros k1 d1 H1 Hne i Hi Hn1. destruct (Hfile k1 d1 H1 Hne) as (f & _ & F).
    pose proof (bd_range _ _ _ (fa_body _ _ _ _ F) i Hi Hn1). pose proof (iblock_range (1 + Z.of_nat k) ltac:(lia)).
    apply A8; [lia|lia|]. intros j Hj Hn2. by apply (Hdis k1 d1 H1 Hne i j). }
  assert (∀ k1 d1, ds !! k1 = Some d1 → k1 ≠ k → ∀ i, 0 ≤ i ≤ INDIRECT → islot s' d1 i = islot s d1 i) as Hsl.
  { intros k1 d1 H1 Hne i Hi. destruct (Hfile k1 d1 H1 Hne) as (f & _ & F).
    eapply islot_frame; [apply (fa_body _ _ _ _ F)|by eapply Hkeep|done]. }
  split.
  - done.
  - by rewrite !length_insert.
  - by rewrite A6, length_insert.
  - by rewrite length_insert.
  - intros k1 d1 f H1 Hf1. destruct (decide (k1 = k)) as [->|Hne].
    + rewrite list_lookup_insert_eq in H1 by lia. rewrite list_lookup_insert_eq in Hf1 by done. injection H1 as <-. injection Hf1 as <-.
      split; [done|]. cbn [fst]. split; congruence.
    + rewrite list_lookup_insert_ne in H1 by done. rewrite list_lookup_insert_ne in Hf1 by done. destruct (B5 k1 d1 f H1 Hf1) as (F & ? & ?).
      pose proof (lookup_lt_Some _ _ _ Hf1). split; [|done].
      apply (file_at_frame s); [done|done|apply A9; lia|by apply (Hkeep k1)].
  - intros k1 k2 d1 d2 i j H1 H2 Hne Hi Hj. destruct (decide (k1 = k)) as [->|Hne1].
    + rewrite list_lookup_insert_eq in H1 by lia. injection H1 as <-.
      rewrite list_lookup_insert_ne in H2 by done. rewrite (Hsl k2 d2 H2 ltac:(done) j Hj). intros Hn E.
      apply (Hdis k2 d2 H2 ltac:(done) j i Hj Hi); congruence.
    + rewrite list_lookup_insert_ne in H1 by done. rewrite (Hsl k1 d1 H1 Hne1 i Hi). intros Hn.
      destruct (decide (k2 = k)) as [->|Hne2].
      * rewrite list_lookup_insert_eq in H2 by lia. injection H2 as <-. intros E.
        apply (Hdis k1 d1 H1 Hne1 i j Hi Hj Hn); congruence.
      * rewrite list_lookup_insert_ne in H2 by done. rewrite (Hsl k2 d2 H2 Hne2 j Hj). by apply (B6 k1 k2).
  - rewrite A5, (blocks_of_insert fl k (t, c)), B7 by done. unfold file_blocks. cbn [snd]. lia.
  - intros m. rewrite length_insert. intros Hm. rewrite A9 by lia. apply B8. lia.
  - intros b Hb0. pose proof (iblock_range (1 + Z.of_nat k) ltac:(lia)). rewrite A8; [by apply B9|lia|lia|].
    intros i Hi Hn. pose proof (bd_range _ _ _ (fa_body _ _ _ _ A2) i Hi Hn). lia.
Qed.

Lemma file_blocks_app t c p p' : file_blocks (t, c ++ p) ≤ file_blocks (t, c ++ p ++ p').
Proof. apply blocks_for_mono. cbn [snd]. rewrite !length_app. lia. Qed.

Lemma copy_chunks_built chunks : ∀ s ds fl k t c, built s ds fl → fl !! k = Some (t, c) →
  Z.of_nat (length (c ++ concat chunks)) ≤ 140 * 512 → 59 + blocks_of (<[k := (t, c ++ concat chunks)]> fl) ≤ 1000 →
  ∃ s' ds', copy_chunks (1 + Z.of_nat k) chunks s = Ret (tt, s') ∧ built s' ds' (<[k := (t, c ++ concat chunks)]> fl).
Proof.
  induction chunks as [|p chunks IH]; intros s ds fl k t c Hb Hk Hmax Hroom; cbn [copy_chunks concat] in *.
  - exists s, ds. rewrite app_nil_r, list_insert_id by done. done.
  - pose proof (lookup_lt_Some _ _ _ Hk) as Hlt.
    assert (59 + blocks_of (<[k := (t, c ++ p)]> fl) ≤ 1000) as Hroom1.
    { rewrite (blocks_of_insert _ _ _ _ Hk) in Hroom. rewrite (blocks_of_insert _ _ _ _ Hk). pose proof (file_blocks_app t c p (concat chunks)). lia. }
    destruct (append_built s ds fl k t c p Hb Hk) as (s1 & ds1 & R1 & Hb1); [|done|].
    { revert Hmax. rewrite !length_app. lia. }
    destruct (IH s1 ds1 (<[k := (t, c ++ p)]> fl) k t (c ++ p) Hb1) as (s2 & ds2 & R2 & Hb2).
    + by rewrite list_lookup_insert_eq.
    + by rewrite <-app_assoc.
    + rewrite list_insert_insert_eq, <-app_assoc. exact Hroom.
    + exists s2, ds2. rewrite list_insert_insert_eq, <-app_assoc in Hb2. split; [|done].
      erewrite M_bind_run by exact R1. exact R2.
Qed.
