(* ===== verification/MkfsSafe.v ===== *)
(** * The image that mkfs makes is a file system

    [main] copies its files into a fresh image.  What it leaves is a consistent
    file system of [fs.c]: the kernel reads the super block, the bitmap, the root
    directory and the files from it. *)

From stdpp Require Import base numbers list gmap sets strings.
From S2P Require Import Prelude Spinlock Fs FsBlocks FsInode FsFile FsCache FsPath FsDir Mkfs MkfsFile MkfsImage MkfsBuild.

Open Scope Z_scope.

(** ** The files on the command line *)
Notation hostf := (list Z * list (list Z))%type.
Definition host (f : hostf) : host_file := (f.1, Some f.2).
Definition file_name (f : hostf) : list Z := skip_underscore f.1.
Definition file_data (f : hostf) : list Z := concat f.2.
Definition root_dirents (fl : list hostf) : list Z :=
  dirent 1 [46] ++ dirent 1 [46; 46] ++ concat (imap (λ i f, dirent (2 + Z.of_nat i) (file_name f)) fl).
(** The files of the image, the root directory first. *)
Definition files_of (fl : list hostf) : list mfile :=
  (T_DIR, root_dirents fl) :: ((λ f, (T_FILE, file_data f)) <$> fl).

Lemma dirent_length n nm : length (dirent n nm) = 16%nat.
Proof. unfold dirent, dirname. rewrite length_app, length_take, length_app, length_replicate.
  change (Z.to_nat DIRSIZ) with 14%nat. rewrite Nat.min_l by lia. done. Qed.

Lemma root_dirents_snoc fl f : root_dirents (fl ++ [f]) = root_dirents fl ++ dirent (2 + Z.of_nat (length fl)) (file_name f).
Proof.
  unfold root_dirents. rewrite imap_app, concat_app. cbn [imap concat]. rewrite app_nil_r, <-!app_assoc.
  by rewrite Nat.add_0_r.
Qed.

Lemma root_dirents_length fl : length (root_dirents fl) = (16 * (2 + length fl))%nat.
Proof.
  induction fl as [|f fl IH] using rev_ind; [by vm_compute|].
  rewrite root_dirents_snoc, length_app, dirent_length, IH, length_app. cbn [length]. lia.
Qed.

Lemma files_of_snoc fl f : files_of (fl ++ [f]) =
  <[O := (T_DIR, root_dirents fl ++ dirent (2 + Z.of_nat (length fl)) (file_name f))]> (files_of fl) ++ [(T_FILE, file_data f)].
Proof. unfold files_of. rewrite fmap_app, root_dirents_snoc. done. Qed.

Lemma blocks_of_files_mono fl fl' : blocks_of (files_of fl) ≤ blocks_of (files_of (fl ++ fl')).
Proof.
  unfold files_of. cbn [blocks_of]. rewrite fmap_app, blocks_of_app.
  pose proof (blocks_of_nonneg ((λ f : hostf, (T_FILE, file_data f)) <$> fl')).
  assert (file_blocks (T_DIR, root_dirents fl) ≤ file_blocks (T_DIR, root_dirents (fl ++ fl'))); [|lia].
  apply blocks_for_mono. cbn [snd]. rewrite !root_dirents_length, length_app. lia.
Qed.

(** ** Copying one file *)
Lemma add_file_built s ds fl f : built s ds (files_of fl) → (length fl < 198)%nat →
  ~ 47 ∈ f.1 → Z.of_nat (length (file_data f)) ≤ 140 * 512 → 59 + blocks_of (files_of (fl ++ [f])) ≤ 1000 →
  ∃ s' ds', add_file 1 (host f) s = Ret (tt, s') ∧ built s' ds' (files_of (fl ++ [f])).
Proof.
  intros Hb Hlt Hslash Hmax Hroom.
  assert (length (files_of fl) = S (length fl)) as Hlen by (unfold files_of; cbn [length]; by rewrite length_fmap).
  destruct (ialloc_built s ds (files_of fl) T_FILE Hb) as (s1 & R1 & Hb1); [rewrite Hlen; lia|done|].
  rewrite Hlen in R1. replace (1 + Z.of_nat (S (length fl))) with (2 + Z.of_nat (length fl)) in R1 by lia.
  set (e := dirent (2 + Z.of_nat (length fl)) (file_name f)) in *.
  set (mid := <[O := (T_DIR, root_dirents fl ++ e)]> (files_of fl) ++ [(T_FILE, [])]).
  assert (<[O := (T_DIR, root_dirents fl ++ e)]> (files_of fl ++ [(T_FILE, [])]) = mid) as Emid by done.
  assert (mid !! S (length fl) = Some (T_FILE, [])) as Hm.
  { unfold mid. rewrite lookup_app_r, length_insert, Hlen, Nat.sub_diag by (rewrite length_insert, Hlen; lia). done. }
  assert (<[S (length fl) := (T_FILE, file_data f)]> mid = files_of (fl ++ [f])) as Efin.
  { rewrite files_of_snoc. unfold mid. rewrite insert_app_r_alt by (rewrite length_insert, Hlen; lia).
    by rewrite length_insert, Hlen, Nat.sub_diag. }
  assert (blocks_of (files_of (fl ++ [f])) = blocks_of mid + file_blocks (T_FILE, file_data f)) as Eblk.
  { rewrite <-Efin, (blocks_of_insert mid _ (T_FILE, [])) by done. change (file_blocks (T_FILE, [])) with 0. lia. }
  pose proof (file_blocks_nonneg (T_FILE, file_data f)).
  destruct (append_built s1 _ _ 0%nat T_DIR (root_dirents fl) e Hb1) as (s2 & ds2 & R2 & Hb2);
    [done| |rewrite Emid; lia|].
  { rewrite length_app, root_dirents_length. unfold e. rewrite dirent_length. lia. }
  rewrite Emid in Hb2. change (1 + Z.of_nat 0) with 1 in R2. unfold e in R2. rewrite dirent_length in R2.
  destruct (copy_chunks_built f.2 s2 ds2 mid (S (length fl)) T_FILE [] Hb2 Hm) as (s3 & ds3 & R3 & Hb3).
  { done. }
  { rewrite app_nil_l. fold (file_data f). rewrite Efin. done. }
  exists s3, ds3. rewrite app_nil_l in Hb3. fold (file_data f) in Hb3. rewrite Efin in Hb3. split; [|done].
  unfold add_file, host. cbn [fst snd].
  assert (existsb (λ c, c =? slash) f.1 = false) as ->.
  { apply not_true_is_false. intros (c & Hin & Hc)%existsb_exists. apply Z.eqb_eq in Hc. subst c.
    by apply Hslash, list_elem_of_In. }
  erewrite M_bind_run by exact R1. cbn beta. erewrite M_bind_run by exact R2. cbn beta.
  replace (2 + Z.of_nat (length fl)) with (1 + Z.of_nat (S (length fl))) by lia. exact R3.
Qed.

Lemma add_files_built rest : ∀ fl s ds, built s ds (files_of fl) → (length (fl ++ rest) ≤ 198)%nat →
  Forall (λ f, ~ 47 ∈ f.1 ∧ Z.of_nat (length (file_data f)) ≤ 140 * 512) rest →
  59 + blocks_of (files_of (fl ++ rest)) ≤ 1000 →
  ∃ s' ds', add_files 1 (host <$> rest) s = Ret (tt, s') ∧ built s' ds' (files_of (fl ++ rest)).
Proof.
  induction rest as [|f rest IH]; intros fl s ds Hb Hlen Hv Hroom; cbn [fmap list_fmap add_files].
  { exists s, ds. by rewrite app_nil_r. }
  apply Forall_cons in Hv as [[Hs Hm] Hv].
  replace (fl ++ f :: rest) with ((fl ++ [f]) ++ rest) in * by by rewrite <-app_assoc.
  pose proof (blocks_of_files_mono (fl ++ [f]) rest). rewrite !length_app in Hlen. cbn [length] in Hlen.
  destruct (add_file_built s ds fl f Hb) as (s1 & ds1 & R1 & Hb1); try done; [lia|lia|].
  destruct (IH (fl ++ [f]) s1 ds1 Hb1) as (s2 & ds2 & R2 & Hb2); try done; [rewrite !length_app; cbn [length]; lia|].
  exists s2, ds2. split; [|done]. erewrite M_bind_run by exact R1. exact R2.
Qed.

(** ** The empty image *)
Lemma zero_loop : ∃ s, for_loop 0 (Z.to_nat FSSIZE) (λ i, wsect i (replicate (Z.to_nat BSIZE) 0)) (Mk ∅ 1 59) = Ret (tt, s) ∧
  freeinode s = 1 ∧ freeblock s = 59 ∧ ∀ b, 0 ≤ b < 1000 → img s !! b = Some zero_bytes.
Proof.
  destruct (for_loop_inv (λ n s, freeinode s = 1 ∧ freeblock s = 59 ∧ ∀ b, 0 ≤ b < Z.of_nat n → img s !! b = Some zero_bytes)
    (λ i, wsect i (replicate (Z.to_nat BSIZE) 0)) 0 (Z.to_nat FSSIZE) (Mk ∅ 1 59)) as (s & E & H1 & H2 & H3).
  - split_and!; [done..|]. lia.
  - intros n s Hn (H1 & H2 & H3). change (Z.to_nat FSSIZE) with 1000%nat in Hn.
    exists (Mk (<[0 + Z.of_nat n := zero_bytes]> (img s)) (freeinode s) (freeblock s)). split.
    + unfold wsect. rewrite sector_id by lia. done.
    + split_and!; [done..|]. intros b Hb. cbn [img]. destruct (decide (b = 0 + Z.of_nat n)) as [->|Hne].
      * by rewrite lookup_insert_eq.
      * rewrite lookup_insert_ne by done. apply H3. lia.
  - exists s. split_and!; [exact E|done|done|]. intros b Hb. apply H3. change (Z.to_nat FSSIZE) with 1000%nat. lia.
Qed.

Lemma put_sb_block : put32s (replicate (Z.to_nat BSIZE) 0) 0
  [sb_size mksb; nblocks mksb; ninodes mksb; nlog mksb; logstart mksb; inodestart mksb; bmapstart mksb] = Ret sb_block.
Proof. vm_compute. reflexivity. Qed.

Lemma zero_dinode n : take 64 (drop (Z.to_nat (dip_off n)) zero_bytes) = replicate 64 0.
Proof.
  destruct (dip_off_nat n) as [_ H]. unfold zero_bytes. change (Z.to_nat BSIZE) with 512%nat.
  rewrite drop_replicate, take_replicate. f_equal. lia.
Qed.

Lemma empty_built s : freeinode s = 1 → freeblock s = 59 → (∀ b, 0 ≤ b < 1000 → img s !! b = Some zero_bytes) →
  built (put_block s 1 sb_block) [] [].
Proof.
  intros H1 H2 H3. split; try done.
  - split; cbn [put_block img freeblock]; rewrite ?H2; [| |lia].
    + intros b Hb. destruct (decide (b = 1)) as [->|Hne]; [rewrite lookup_insert_eq; by exists sb_block|].
      rewrite lookup_insert_ne, H3 by lia. by exists zero_bytes.
    + intros b Hb. by rewrite lookup_insert_ne, H3 by lia.
  - cbn. lia.
  - intros m Hm. pose proof (iblock_range m ltac:(cbn in Hm; lia)). unfold dinode_of.
    change (IBLOCK m (view ?z [])) with (iblock m). cbn [view blk put_block img].
    rewrite lookup_insert_ne, H3 by lia. cbn [fmap option_fmap option_map compose]. by rewrite zero_dinode.
  - intros b Hb. cbn [put_block img]. unfold low_block. destruct (Z.eqb_spec b 1) as [->|Hne]; [by rewrite lookup_insert_eq|].
    by rewrite lookup_insert_ne, H3 by lia.
Qed.

(** ** The end of [main] *)

(** What the image holds when mkfs ends: the files, the root directory with the
    size [rsz], and the bitmap. *)
Record finished (s : mk) (fl : list hostf) : Prop := {
  fin_bitmap k : blk k = img s → sb k = mksb →
    (∀ b, 0 ≤ b < 1000 → in_use k b = (b <? 59 + blocks_of (files_of fl))) ∧ bitmap_ok k;
  fin_blocks b : 0 ≤ b < 1000 → ∃ d, img s !! b = Some d ∧ length d = 512%nat;
  fin_next : freeblock s = 59 + blocks_of (files_of fl);
  fin_low b : 0 ≤ b < 32 → img s !! b = Some (low_block b);
  fin_free m : 2 + Z.of_nat (length fl) ≤ m < 208 → dinode_of (view s []) m = Some (replicate 64 0);
  fin_root : ∃ d, inode_at s 1 d ∧ body s d (root_dirents fl) ∧ d_type d = T_DIR ∧ d_nlink d = 1 ∧
    d_size d = (16 * (2 + Z.of_nat (length fl)) / 512 + 1) * 512;
  fin_file i f : fl !! i = Some f → ∃ d, file_at s (2 + Z.of_nat i) d (file_data f) ∧ d_type d = T_FILE ∧ d_nlink d = 1
}.

Lemma main_end s ds fl : built s ds (files_of fl) → (length fl ≤ 198)%nat → 59 + blocks_of (files_of fl) ≤ 1000 →
  ∃ s', (fix_root 1 ;; x ← get_st; balloc (freeblock x)) s = Ret (tt, s') ∧ finished s' fl.
Proof.
  intros Hb Hlen Hroom. pose proof Hb as [B1 B2 B3 B4 B5 B6 B7 B8 B9].
  assert (length (files_of fl) = S (length fl)) as Hlf by (unfold files_of; cbn [length]; by rewrite length_fmap).
  destruct (lookup_lt_is_Some_2 ds 0%nat) as [d Hd]; [lia|].
  destruct (B5 0%nat d (T_DIR, root_dirents fl) Hd eq_refl) as ([Hia Hbd Hsz Hmx] & Ht & Hl).
  change (1 + Z.of_nat 0) with 1 in Hia. cbn [fst snd] in *. rewrite root_dirents_length in Hsz.
  set (rsz := (16 * (2 + Z.of_nat (length fl)) / 512 + 1) * 512).
  assert (0 ≤ rsz < 2 ^ 32) as Hrsz by (unfold rsz; Z.div_mod_to_equations; lia).
  set (d' := set_dsize d rsz). assert (0 ≤ 1 < 208) as H1 by lia. pose proof (iblock_range 1 H1) as Hib.
  destruct (iblock_some s 1 B1 H1) as (b & Eb & Hlb & _).
  assert (inode_ok (ino 1 d')) as Hok by (destruct (ia_ok _ _ _ Hia); by split).
  destruct (winode_inode s 1 d' b H1 Eb Hlb Hok) as [Hia2 Hin2].
  pose proof (winode_run s 1 d' b H1 Eb Hlb (ok_naddrs _ Hok)) as Hrun.
  set (b' := splice b (Z.to_nat (dip_off 1)) (dinode_bytes (ino 1 d'))) in *.
  set (s1 := put_block s (iblock 1) b') in *.
  assert (length b' = 512%nat) as Hlb'.
  { destruct (dip_off_nat 1) as [_ ?]. unfold b'. rewrite splice_length; [done|].
    rewrite dinode_bytes_length; [lia|by apply (ok_naddrs _ Hok)]. }
  pose proof (im_next _ B1) as Hnx. rewrite B7 in Hnx.
  destruct (mark_free (freeblock s)) as (buf & Ebuf & Hlbuf & Hbits); [lia|].
  set (s2 := put_block s1 58 buf). exists s2. split.
  { erewrite M_bind_run.
    2:{ unfold fix_root. erewrite M_bind_run by (by apply rinode_run). cbv zeta. cbn beta.
        rewrite Hsz, (xint_id (Z.of_nat (16 * (2 + length fl)))) by lia. rewrite u32_small, xint_id by (unfold BSIZE; Z.div_mod_to_equations; lia).
        unfold BSIZE. replace (Z.of_nat (16 * (2 + length fl))) with (16 * (2 + Z.of_nat (length fl))) by lia.
        exact Hrun. }
    erewrite M_bind_run by done. cbn beta. unfold balloc. change (freeblock s1) with (freeblock s).
    assert ((freeblock s <? BSIZE * 8) = true) as -> by (apply Z.ltb_lt; unfold BSIZE; lia).
    erewrite M_bind_run by (unfold lift; fold zero_bytes; rewrite Ebuf; done). done. }
  assert (∀ z, z ≠ iblock 1 → z ≠ 58 → img s2 !! z = img s !! z) as Hoth.
  { intros z Hz1 Hz2. cbn [s2 s1 put_block img]. by rewrite !lookup_insert_ne by done. }
  assert (img s2 !! iblock 1 = Some b') as Hi1.
  { cbn [s2 s1 put_block img]. rewrite lookup_insert_ne, lookup_insert_eq by lia. done. }
  assert (∀ m, 0 ≤ m < 208 → dinode_of (view s2 []) m = dinode_of (view s1 []) m) as Hdin.
  { intros m Hm. pose proof (iblock_range m Hm). unfold dinode_of. change (IBLOCK m (view ?z [])) with (iblock m).
    cbn [s2 view blk put_block img]. by rewrite lookup_insert_ne by lia. }
  assert (∀ e c, body s e c → ∀ i, 0 ≤ i ≤ INDIRECT → islot s e i ≠ 0 → img s2 !! islot s e i = img s !! islot s e i) as Hkeep.
  { intros e c He i Hi Hn. pose proof (bd_range _ _ _ He i Hi Hn). apply Hoth; lia. }
  split.
  - intros k Ek Es. destruct (bitmap_view k (freeblock s) buf) as [Hu Hok2]; try done; try lia.
    + rewrite Ek. cbn [s2 put_block img]. by rewrite lookup_insert_eq.
    + intros z Hz. rewrite Ek, Hoth by lia. destruct (im_block _ B1 z) as (dz & -> & _); [lia|done].
    + rewrite <-B7. done.
  - intros z Hz. destruct (decide (z = 58)) as [->|Hne]; [exists buf; cbn [s2 put_block img]; by rewrite lookup_insert_eq|].
    destruct (decide (z = iblock 1)) as [->|Hne1]; [by exists b'|]. rewrite Hoth by done. by apply (im_block _ B1).
  - exact B7.
  - intros z Hz. rewrite Hoth by lia. by apply B9.
  - intros m Hm. rewrite Hdin, Hin2 by lia. apply B8. rewrite Hlf. lia.
  - exists d'. split_and!; [|by apply body_set_size, (body_frame s); [|done|eapply Hkeep]|done..].
    destruct Hia2 as [I1 I2]. split; [|done]. by rewrite Hdin.
  - intros i f Hf. destruct (lookup_lt_is_Some_2 ds (S i)) as [e He].
    { rewrite B2, Hlf. pose proof (lookup_lt_Some _ _ _ Hf). lia. }
    pose proof (lookup_lt_Some _ _ _ Hf) as Hlt.
    destruct (B5 (S i) e (T_FILE, file_data f) He) as (F & ? & ?).
    { change (((λ g : hostf, (T_FILE, file_data g)) <$> fl) !! i = Some (T_FILE, file_data f)). by rewrite list_lookup_fmap, Hf. }
    replace (1 + Z.of_nat (S i)) with (2 + Z.of_nat i) in F by lia. cbn [fst snd] in *. exists e. split; [|done].
    apply (file_at_frame s); [done|done| |by eapply Hkeep, (fa_body _ _ _ _ F)].
    rewrite Hdin, Hin2 by lia. done.
Qed.

(** ** The inputs mkfs can copy *)

(** The names in the root directory with their inode numbers. *)
Definition root_list (fl : list hostf) : list (Z * list Z) :=
  (1, [46]) :: (1, [46; 46]) :: imap (λ i f, (2 + Z.of_nat i, file_name f)) fl.
Definition root_map (fl : list hostf) : gmap (list Z) Z :=
  list_to_map ((λ e, (name_key e.2, e.1)) <$> root_list fl).

Record input_ok (fl : list hostf) : Prop := {
  in_count : (length fl ≤ 198)%nat;
  in_name : Forall (λ f, bytes f.1 ∧ ~ slash ∈ f.1) fl;
  in_distinct : NoDup (name_key ∘ snd <$> root_list fl);
  in_size : Forall (λ f, Z.of_nat (length (file_data f)) ≤ MAXFILE * BSIZE) fl;
  in_room : 59 + blocks_of (files_of fl) ≤ FSSIZE
}.

Lemma main_run fl : input_ok fl → ∃ s, main (host <$> fl) mk0 = Ret (tt, s) ∧ finished s fl.
Proof.
  intros [I1 I2 I3 I4 I5]. change (MAXFILE * BSIZE) with (140 * 512) in I4. change FSSIZE with 1000 in I5.
  destruct zero_loop as (s0 & R0 & H1 & H2 & H3). pose proof (empty_built s0 H1 H2 H3) as Hb0.
  destruct (ialloc_built _ _ _ T_DIR Hb0 ltac:(cbn; lia) ltac:(done)) as (s1 & R1 & Hb1).
  cbn [length app] in R1, Hb1. change (1 + Z.of_nat 0) with 1 in R1.
  destruct (append_built s1 _ _ 0%nat T_DIR [] (dirent 1 [46]) Hb1) as (s2 & ds2 & R2 & Hb2); [done|by vm_compute|by vm_compute|].
  destruct (append_built s2 _ _ 0%nat T_DIR (dirent 1 [46]) (dirent 1 [46; 46]) Hb2) as (s3 & ds3 & R3 & Hb3);
    [done|by vm_compute|by vm_compute|].
  change (1 + Z.of_nat 0) with 1 in R2, R3. rewrite dirent_length in R2, R3.
  assert (built s3 ds3 (files_of [])) as Hb3' by exact Hb3.
  destruct (add_files_built fl [] s3 ds3 Hb3') as (s4 & ds4 & R4 & Hb4); [done| |done|].
  { rewrite Forall_forall in I2, I4 |- *. intros f Hf. split; [by apply I2|by apply I4]. }
  cbn [app] in Hb4. destruct (main_end s4 ds4 fl Hb4 I1 I5) as (s5 & R5 & Hfin). exists s5. split; [|done].
  unfold main, mk0. erewrite M_bind_run by (unfold set_freeblock; cbn [img freeinode]; change nmeta with 59; done).
  cbn beta. erewrite M_bind_run by exact R0. cbn beta. rewrite put_sb_block.
  erewrite M_bind_run by done. cbn beta. erewrite M_bind_run by (unfold wsect; done). cbn beta.
  erewrite M_bind_run by exact R1. cbn beta.
  change (negb (1 =? ROOTINO)) with false. cbv iota.
  erewrite M_bind_run by exact R2. cbn beta. erewrite M_bind_run by exact R3. cbn beta.
  erewrite M_bind_run by exact R4. cbn beta. exact R5.
Qed.

(** ** The kernel on the image *)

(** The memory of the kernel before [iinit]: its data is zero. *)
Definition blank : inode := Inode 0 0 0 (SLock 0 0) 0 0 0 0 0 0 (replicate 13 0).
Definition power_on (s : mk) : fs := Fs (img s) (SuperBlock 0 0 0 0 0 0 0) (replicate NINODE blank).

(** Initialised, the kernel opens inode [n] and has [x] for it in its cache. *)
Definition opens (s : mk) (n : Z) (k : fs) (x : inode) : Prop :=
  (iinit ;; ip ← iget ROOTDEV n; ilock (Some ip) ;; mret ip) (power_on s) = Ret (0%nat, k) ∧
  icache k !! 0%nat = Some x ∧ blk k = img s ∧ sb k = mksb.

Lemma readsb_image s fl k : finished s fl → blk k = img s → readsb k = Ret (mksb, k).
Proof.
  intros Hf Ek. unfold readsb, bread. erewrite M_bind_run.
  2:{ rewrite Ek, (fin_low _ _ Hf) by lia. done. }
  cbn beta. erewrite M_bind_run; [|unfold lift; vm_compute; reflexivity]. done.
Qed.

Lemma opens_inode s fl n d : finished s fl → 0 ≤ n < 208 → inode_at s n d → d_type d ≠ 0 →
  ∃ k, opens s n k (Inode 1 n 1 (SLock 1 0) 1 (d_type d) (d_major d) (d_minor d) (d_nlink d) (d_size d) (d_addrs d)).
Proof.
  intros Hf Hn Hia Ht. pose proof (iblock_range n Hn) as Hib. destruct (inode_block s n d Hia) as (b & Eb & Ed).
  destruct (fin_blocks _ _ Hf (iblock n)) as (b' & Eb' & Hl); [lia|]. assert (b' = b) as -> by congruence.
  destruct (dip_off_nat n) as [Ho Hlt]. rewrite <-Hl in Hlt.
  set (l0 := (λ x, set_ilk x initsleeplock) <$> replicate NINODE blank).
  set (y := Inode 1 n 1 initsleeplock 0 0 0 0 0 0 (replicate 13 0)).
  set (k1 := Fs (img s) mksb (<[0%nat := y]> l0)).
  assert (ilock (Some 0%nat) k1 = Ret (tt, set_icache k1 (<[0%nat := filled (ino n d) y]> (icache k1)))) as Hlock.
  { apply (ilock_run k1 0 y (ino n d) b); try done; [apply (ia_ok _ _ _ Hia)|].
    cbn [blk k1]. change (IBLOCK (inum y) k1) with (iblock n). change (inum y) with n.
    rewrite <-Ed, splice_self by done. done. }
  exists (set_icache k1 (<[0%nat := filled (ino n d) y]> (icache k1))). split; [|done].
  assert (iinit (power_on s) = Ret (tt, Fs (img s) mksb l0)) as Hinit.
  { unfold iinit. erewrite M_bind_run by done. cbn beta. unfold load_sb.
    erewrite M_bind_run by (by apply (readsb_image s fl)). done. }
  assert (iget ROOTDEV n (Fs (img s) mksb l0) = Ret (0%nat, k1)) as Hget by reflexivity.
  erewrite M_bind_run by exact Hinit. cbn beta. erewrite M_bind_run by exact Hget.
  cbn beta. erewrite M_bind_run by exact Hlock. done.
Qed.

Section kernel.
Context (s : mk) (fl : list hostf) (Hf : finished s fl) (Hroom : 59 + blocks_of (files_of fl) ≤ 1000).
Context (k : fs) (Ek : blk k = img s) (Es : sb k = mksb).
Context (ip : nat) (x : inode) (d : dinode) (c : list Z) (Hx : icache k !! ip = Some x) (Ha : addrs x = d_addrs d).
Context (Hb : body s d c).

Lemma kernel_slot i : slot k x i = islot s d i.
Proof. unfold islot, slot, ind, block_at. rewrite Ek. cbn [addrs ino view blk]. by rewrite Ha. Qed.

Lemma kernel_byte o : 0 ≤ o < 140 * 512 → fbyte k x o = default 0 (c !! Z.to_nat o).
Proof. intros Ho. rewrite <-(bd_bytes _ _ _ Hb) by done. unfold fbyte, block_at. rewrite kernel_slot, Ek. done. Qed.

Lemma kernel_file : file_ok k ip x.
Proof.
  destruct (fin_bitmap _ _ Hf k Ek Es) as [Hu Hok]. assert (sb_size (sb k) = 1000) as Ez by by rewrite Es.
  pose proof (blocks_of_nonneg (files_of fl)). destruct Hb as [B1 B2 B3 B4 B5 B6].
  split; rewrite ?Ez; try done.
  - by rewrite Ha.
  - rewrite Hu by lia. apply Z.ltb_lt. lia.
  - intros b Hr. rewrite Ek. by apply (fin_blocks _ _ Hf).
  - intros i Hi. rewrite kernel_slot. intros Hn. pose proof (B2 i Hi Hn) as Hr. rewrite (fin_next _ _ Hf) in Hr.
    split; rewrite ?Ez; [lia|rewrite Hu by lia; apply Z.ltb_lt; lia|].
    intros b' Hb'. rewrite BBLOCK_mk by done. lia.
  - intros i j Hi Hj. rewrite !kernel_slot. by apply B3.
Qed.

Lemma kernel_inode_block : 0 ≤ inum x < 208 → inode_block_ok k x.
Proof.
  intros Hn. pose proof (iblock_range _ Hn) as Hib. destruct (fin_bitmap _ _ Hf k Ek Es) as [Hu _].
  pose proof (blocks_of_nonneg (files_of fl)).
  assert (IBLOCK (inum x) k = iblock (inum x)) as E by (unfold IBLOCK, iblock; by rewrite Es).
  split; rewrite E.
  - split; rewrite ?Es; [change (sb_size mksb) with 1000; lia|rewrite Hu by lia; apply Z.ltb_lt; lia|].
    intros b' Hb'. rewrite BBLOCK_mk by done. lia.
  - intros i Hi E2. rewrite kernel_slot in E2. pose proof (bd_range _ _ _ Hb i Hi ltac:(lia)). lia.
Qed.

Lemma kernel_mapped i : 0 ≤ i < ceil512 (Z.of_nat (length c)) → Z.of_nat (length c) ≤ 140 * 512 → slot k x i ≠ 0.
Proof.
  intros Hi Hm. rewrite kernel_slot. pose proof (ceil512_le _ Hm). apply (bd_dense _ _ _ Hb); lia.
Qed.

Lemma kernel_range : Z.of_nat (length c) ≤ 140 * 512 → frange k x 0 (Z.of_nat (length c)) = c.
Proof.
  intros Hm. apply list_eq. intros i. destruct (decide (Z.of_nat i < Z.of_nat (length c))).
  - rewrite frange_lookup, Z.add_0_l, kernel_byte by lia. rewrite Nat2Z.id.
    destruct (lookup_lt_is_Some_2 c i) as [z ->]; [lia|done].
  - rewrite !lookup_ge_None_2; [done|lia|rewrite length_frange; lia].
Qed.

Lemma kernel_read dev_read : type x ≠ T_DEV → size x = Z.of_nat (length c) → Z.of_nat (length c) ≤ 140 * 512 →
  readi dev_read ip 0 (size x) k = Ret (size x, c, k).
Proof.
  intros Ht Hs Hm. unfold readi. erewrite M_bind_run by (by apply get_inode_run).
  apply Z.eqb_neq in Ht. rewrite Ht, Hs. cbv zeta. rewrite Z.add_0_l, u32_small by lia.
  assert ((Z.of_nat (length c) <? 0) || (Z.of_nat (length c) <? 0) = false) as ->.
  { apply orb_false_iff. split; apply Z.ltb_ge; lia. }
  rewrite Z.ltb_irrefl. erewrite M_bind_run.
  2:{ apply (readi_loop_hit ip _ k x 0 (Z.of_nat (length c)) 0 kernel_file); try lia.
      intros i Hi. rewrite Z.sub_0_r, Z.add_0_l in Hi. change (0 / 512) with 0 in Hi. by apply kernel_mapped. }
  cbn beta. rewrite Z.sub_0_r, kernel_range by done. done.
Qed.
End kernel.

(** ** The root directory *)
Lemma root_dirents_list fl : root_dirents fl = concat ((λ e, dirent e.1 e.2) <$> root_list fl).
Proof. unfold root_dirents, root_list. cbn [fmap list_fmap concat fst snd]. by rewrite fmap_imap. Qed.

Lemma concat_lookup {A} (n : nat) (ls : list (list A)) : Forall (λ l, length l = n) ls → ∀ j r, (r < n)%nat →
  concat ls !! (n * j + r)%nat = ls !! j ≫= (λ l, l !! r).
Proof.
  induction 1 as [|l ls Hl H IH]; intros j r Hr; cbn [concat]; [by rewrite !lookup_nil|]. destruct j as [|j].
  - rewrite Nat.mul_0_r, lookup_app_l by lia. done.
  - rewrite lookup_app_r by lia. cbn [lookup list_lookup]. rewrite <-IH by done. f_equal. lia.
Qed.

Definition dead_entry : dentry := (0, replicate 14 0).
Definition root_entry (e : Z * list Z) : dentry := (e.1, dirname e.2).

Lemma dirmap_dead m : dirmap (replicate m dead_entry) = ∅.
Proof. induction m as [|m IH]; [done|]. exact IH. Qed.
Lemma live_names_dead m : live_names (replicate m dead_entry) = [].
Proof. induction m as [|m IH]; [done|]. exact IH. Qed.

Lemma name_key_dirname nm : name_key (dirname nm) = name_key nm.
Proof. apply significant_dirname. Qed.

Lemma dirmap_live L : Forall (λ e : Z * list Z, e.1 ≠ 0) L →
  dirmap (root_entry <$> L) = list_to_map ((λ e, (name_key e.2, e.1)) <$> L) ∧
  live_names (root_entry <$> L) = name_key ∘ snd <$> L.
Proof.
  induction 1 as [|e L He HL [IH1 IH2]]; [done|].
  assert (live (root_entry e) = true) as Hl by (unfold live; cbn [fst root_entry]; by apply negb_true_iff, Z.eqb_neq).
  cbn [fmap list_fmap dirmap]. rewrite Hl. split.
  - cbn [list_to_map foldr curry fst snd root_entry]. rewrite name_key_dirname. cbn. by f_equal.
  - rewrite live_names_cons, IH2. unfold live_names at 1. rewrite filter_cons_True by done. cbn.
    by rewrite significant_dirname.
Qed.

Lemma root_list_length fl : length (root_list fl) = (2 + length fl)%nat.
Proof. unfold root_list. cbn [length]. by rewrite length_imap. Qed.

Lemma root_list_range fl : (length fl ≤ 198)%nat → Forall (λ e : Z * list Z, 0 < e.1 < 65536) (root_list fl).
Proof.
  intros H. unfold root_list. apply Forall_cons_2; [cbn; lia|]. apply Forall_cons_2; [cbn; lia|].
  apply Forall_lookup. intros i e Hi. rewrite list_lookup_imap in Hi. apply fmap_Some in Hi as (f & Hf & ->).
  apply lookup_lt_Some in Hf. cbn. lia.
Qed.

Lemma file_name_bytes f : bytes f.1 → bytes (file_name f).
Proof.
  unfold file_name, skip_underscore. intros H. destruct f.1 as [|c l]; [done|]. case_if; [|done]. by inversion H.
Qed.

Lemma root_list_bytes fl : Forall (λ f, bytes f.1 ∧ ~ slash ∈ f.1) fl → Forall (λ e : Z * list Z, bytes e.2) (root_list fl).
Proof.
  intros H. assert (bytes [46] ∧ bytes [46; 46]) as [H1 H2].
  { split; repeat (apply Forall_cons_2; [lia|]); apply Forall_nil_2. }
  unfold root_list. apply Forall_cons_2; [exact H1|]. apply Forall_cons_2; [exact H2|].
  apply Forall_lookup. intros i e Hi. rewrite list_lookup_imap in Hi. apply fmap_Some in Hi as (f & Hf & ->).
  apply (file_name_bytes f). by apply (Forall_lookup_1 _ _ _ _ H Hf).
Qed.

Lemma dirname_bytes nm : bytes nm → bytes (dirname nm).
Proof.
  intros H. unfold dirname. apply Forall_take, Forall_app. split; [done|]. apply Forall_replicate. lia.
Qed.

Lemma dirent_bytes n nm : bytes nm → bytes (dirent n nm).
Proof.
  intros H. unfold dirent. apply Forall_app. split; [|by apply dirname_bytes].
  apply Forall_cons_2; [apply u8_range|]. apply Forall_cons_2; [apply u8_range|]. apply Forall_nil_2.
Qed.

Section root.
Context (fl : list hostf) (Hin : input_ok fl) (k : fs) (x : inode).
Context (Hby : ∀ o, 0 ≤ o < 140 * 512 → fbyte k x o = default 0 (root_dirents fl !! Z.to_nat o)).
Context (Hsz : size x = (16 * (2 + Z.of_nat (length fl)) / 512 + 1) * 512).

Lemma root_entry_at (j : nat) : (j < 4480)%nat → entry k x (DIRENT * Z.of_nat j) =
  match root_list fl !! j with Some e => root_entry e | None => dead_entry end.
Proof using Hin Hby.
  intros Hj. pose proof (root_list_range fl (in_count _ Hin)) as Hr.
  assert (∀ r : nat, (r < 16)%nat → fbyte k x (DIRENT * Z.of_nat j + Z.of_nat r) =
    default 0 (root_list fl !! j ≫= λ e, dirent e.1 e.2 !! r)) as Hbyte.
  { intros r Hrr. unfold DIRENT. rewrite Hby by lia. replace (Z.to_nat (16 * Z.of_nat j + Z.of_nat r)) with (16 * j + r)%nat by lia.
    rewrite root_dirents_list, (concat_lookup 16); [|by apply Forall_fmap, Forall_true; intros; apply dirent_length|done].
    rewrite list_lookup_fmap. by destruct (root_list fl !! j). }
  unfold entry. pose proof (Hbyte 0%nat ltac:(lia)) as E0. pose proof (Hbyte 1%nat ltac:(lia)) as E1.
  rewrite Z.add_0_r in E0. change (Z.of_nat 1) with 1 in E1. rewrite E0, E1.
  destruct (root_list fl !! j) as [[n nm]|] eqn:E; cbn [mbind option_bind default from_option id fst snd].
  - pose proof (Forall_lookup_1 _ _ _ _ Hr E) as Hn. cbn [fst] in Hn.
    unfold root_entry. cbn [fst snd]. f_equal.
    + unfold dirent. cbn [app lookup list_lookup default from_option id]. rewrite xshort_id by lia.
      unfold u8. Z.div_mod_to_equations. lia.
    + apply list_eq. intros i. destruct (decide (i < 14)%nat).
      * rewrite frange_lookup by (unfold DIRSIZ; lia). specialize (Hbyte (2 + i)%nat ltac:(lia)).
        replace (DIRENT * Z.of_nat j + 2 + Z.of_nat i) with (DIRENT * Z.of_nat j + Z.of_nat (2 + i)) by lia.
        rewrite Hbyte. cbn [mbind option_bind fst snd]. unfold dirent. cbn [app Nat.add lookup list_lookup].
        destruct (lookup_lt_is_Some_2 (dirname nm) i) as [z Hz].
        { pose proof (dirent_length n nm) as Hl. unfold dirent in Hl. rewrite length_app in Hl. cbn [length] in Hl. lia. }
        etransitivity; [|symmetry; exact Hz]. f_equal. change (default 0 (dirname nm !! i) = z). by rewrite Hz.
      * rewrite !lookup_ge_None_2; [done| |rewrite length_frange by done; unfold DIRSIZ; lia].
        pose proof (dirent_length n nm) as Hl. unfold dirent in Hl. rewrite length_app in Hl. cbn [length] in Hl. lia.
  - unfold dead_entry. f_equal. apply list_eq. intros i. destruct (decide (i < 14)%nat).
    + rewrite frange_lookup by (unfold DIRSIZ; lia). specialize (Hbyte (2 + i)%nat ltac:(lia)).
      replace (DIRENT * Z.of_nat j + 2 + Z.of_nat i) with (DIRENT * Z.of_nat j + Z.of_nat (2 + i)) by lia.
      rewrite Hbyte. cbn [mbind option_bind default from_option id]. by rewrite lookup_replicate_2.
    + rewrite !lookup_ge_None_2; [done| |rewrite length_frange by done; unfold DIRSIZ; lia]. rewrite length_replicate. lia.
Qed.

Lemma root_count : size x / DIRENT = 32 * ((2 + Z.of_nat (length fl)) / 32 + 1) ∧ size x ≤ 140 * 512.
Proof using Hin Hsz. pose proof (in_count _ Hin). rewrite Hsz. unfold DIRENT. Z.div_mod_to_equations. lia. Qed.

Lemma root_entries : ∃ m, entries k x = (root_entry <$> root_list fl) ++ replicate m dead_entry.
Proof using All.
  destruct root_count as [Hc Hmax]. pose proof (root_list_length fl) as Hl.
  exists (Z.to_nat (size x / DIRENT) - (2 + length fl))%nat. pose proof (in_count _ Hin).
  assert ((2 + Z.of_nat (length fl)) < size x / DIRENT ≤ 4480) as Hlt by (rewrite Hc; Z.div_mod_to_equations; lia).
  unfold entries. apply list_eq. intros i. rewrite list_lookup_fmap.
  destruct (decide (Z.of_nat i < size x / DIRENT)).
  - rewrite lookup_seqZ_lt by lia. cbn [fmap option_fmap option_map]. rewrite Z.add_0_l, root_entry_at by lia.
    destruct (decide (i < 2 + length fl)%nat).
    + rewrite lookup_app_l, list_lookup_fmap by (rewrite length_fmap; lia).
      destruct (lookup_lt_is_Some_2 (root_list fl) i) as [e ->]; [lia|]. done.
    + rewrite (lookup_ge_None_2 (root_list fl)) by lia.
      rewrite lookup_app_r, length_fmap by (rewrite length_fmap; lia). rewrite lookup_replicate_2 by lia. done.
  - rewrite lookup_seqZ_ge by lia. rewrite lookup_ge_None_2; [done|].
    rewrite length_app, length_fmap, length_replicate. lia.
Qed.

Lemma root_dirmap : dirmap (entries k x) = root_map fl ∧ NoDup (live_names (entries k x)).
Proof using All.
  destruct root_entries as [m ->].
  destruct (dirmap_live (root_list fl)) as [E1 E2].
  { eapply Forall_impl; [apply (root_list_range fl (in_count _ Hin))|]. cbn. lia. }
  rewrite dirmap_app, live_names_app, dirmap_dead, live_names_dead, app_nil_r, E1, E2, (right_id_L ∅ (∪)).
  split; [done|]. apply (in_distinct _ Hin).
Qed.

Lemma root_bytes o : 0 ≤ o < size x → 0 ≤ fbyte k x o < 256.
Proof using All.
  intros Ho. destruct root_count as [_ Hm]. rewrite Hby by lia.
  destruct (root_dirents fl !! Z.to_nat o) as [z|] eqn:E; cbn; [|lia].
  assert (bytes (root_dirents fl)) as Hb.
  { rewrite root_dirents_list. unfold bytes. rewrite Forall_concat, Forall_fmap.
    eapply Forall_impl; [apply (root_list_bytes fl (in_name _ Hin))|]. intros e He. by apply dirent_bytes. }
  exact (Forall_lookup_1 _ _ _ _ Hb E).
Qed.
End root.

(** ** The theorem *)

(** C12. mkfs makes a file system: for names without slashes, all different, and
    files that fit (and whose entries do not end at a block boundary, see
    [mkfs_root_hole]), [main] succeeds.  From its image the kernel reads the super
    block that mkfs computed; the bitmap marks exactly the blocks that the meta
    data and the files take; opened with [iinit], [iget] and [ilock], inode 1 is
    a directory that maps the names (a leading underscore dropped), "." and ".."
    to their inode numbers, and inode 2 + i is a file with one link whose [readi]
    gives the contents of the i-th file; the other inodes are free and the log
    is empty. *)
Theorem mkfs_image (dev_read : Z → option (nat → Z → M fs (Z * list Z))) (fl : list hostf) (Hin : input_ok fl)
    (Hroot : (2 + Z.of_nat (length fl)) mod 32 ≠ 0) :
  ∃ s, main (host <$> fl) mk0 = Ret (tt, s) ∧
    readsb (power_on s) = Ret (mksb, power_on s) ∧
    (∀ k, blk k = img s → sb k = mksb →
      bitmap_ok k ∧ (∀ b, 0 ≤ b < FSSIZE → in_use k b = (b <? 59 + blocks_of (files_of fl))) ∧
      ∀ n, 2 + Z.of_nat (length fl) ≤ n < NINODES → dinode_of k n = Some (replicate 64 0)) ∧
    (∃ k x, opens s ROOTINO k x ∧ dir_rep k 0 x (root_map fl)) ∧
    (∀ i f, fl !! i = Some f → ∃ k x, opens s (2 + Z.of_nat i) k x ∧ type x = T_FILE ∧ nlink x = 1 ∧
      readi dev_read 0 0 (size x) k = Ret (Z.of_nat (length (file_data f)), file_data f, k)) ∧
    ∀ b, 2 ≤ b < 2 + LOGSIZE → img s !! b = Some zero_bytes.
Proof.
  destruct (main_run fl Hin) as (s & Hrun & Hf). exists s. split; [done|].
  pose proof (in_room _ Hin) as Hroom. change FSSIZE with 1000 in *. pose proof (in_count _ Hin) as Hcnt. split_and!.
  - by apply (readsb_image s fl).
  - intros k E1 E2.
    destruct (fin_bitmap _ _ Hf k E1 E2) as [Hu Hok]. split; [exact Hok|]. split; [exact Hu|]. intros n Hn.
    rewrite <-(fin_free _ _ Hf n) by (unfold NINODES in Hn; lia). unfold dinode_of, IBLOCK. by rewrite E1, E2.
  - destruct (fin_root _ _ Hf) as (d & Hia & Hb & Ht & Hl & Hsz).
    destruct (opens_inode s fl 1 d Hf ltac:(lia) Hia) as (k & Hop); [rewrite Ht; done|].
    eexists k, _. split; [exact Hop|]. destruct Hop as (_ & Hx & Ek & Es).
    match type of Hx with _ = Some ?y => set (x := y) in * end.
    assert (∀ o, 0 ≤ o < 140 * 512 → fbyte k x o = default 0 (root_dirents fl !! Z.to_nat o)) as Hby
      by (intros o; by apply (kernel_byte s k Ek x d _ eq_refl Hb)).
    destruct (root_count fl Hin x Hsz) as [Hc Hmax]. destruct (root_dirmap fl Hin k x Hby Hsz) as [Hm Hnd].
    split; [|exact Hnd|exact Hm|cbn; lia]. split.
    + by apply (kernel_file s fl Hf Hroom k Ek Es 0 x d (root_dirents fl)).
    + apply (kernel_inode_block s fl Hf k Ek Es x d (root_dirents fl)); [done|done|cbn; lia].
    + exact Ht.
    + change (MAXFILE * BSIZE) with (140 * 512). change (size x) with (d_size d). rewrite Hsz.
      revert Hcnt. clear. intros. Z.div_mod_to_equations. lia.
    + change (size x) with (d_size d). rewrite Hsz. unfold DIRENT. clear. Z.div_mod_to_equations. lia.
    + intros i Hi. apply (kernel_mapped s k Ek x d (root_dirents fl) eq_refl Hb); rewrite root_dirents_length; [|lia].
      change (size x) with (d_size d) in Hi. rewrite Hsz in Hi. revert Hi Hroot. unfold ceil512.
      clear. intros. Z.div_mod_to_equations. lia.
    + by apply (root_bytes fl Hin k x Hby Hsz).
  - intros i f Hi. pose proof (lookup_lt_Some _ _ _ Hi). destruct (fin_file _ _ Hf i f Hi) as (d & [Hia Hb Hsz Hmax] & Ht & Hl).
    destruct (opens_inode s fl (2 + Z.of_nat i) d Hf ltac:(lia) Hia) as (k & Hop); [rewrite Ht; done|].
    eexists k, _. split; [exact Hop|]. destruct Hop as (_ & Hx & Ek & Es).
    match type of Hx with _ = Some ?y => set (x := y) in * end.
    split; [exact Ht|]. split; [exact Hl|].
    rewrite (kernel_read s fl Hf Hroom k Ek Es 0 x d (file_data f) Hx eq_refl Hb); [by rewrite <-Hsz|cbn; by rewrite Ht|exact Hsz|exact Hmax].
  - intros b Hb. rewrite (fin_low _ _ Hf) by (unfold LOGSIZE in Hb; lia). unfold low_block.
    destruct (Z.eqb_spec b 1); [lia|done].
Qed.

(** With 30, 62, ... files the entries of the root directory end at a block
    boundary, and [fix_root] gives the directory a block that it does not have. *)
Lemma mkfs_root_hole (fl : list hostf) : input_ok fl → (2 + Z.of_nat (length fl)) mod 32 = 0 →
  ∃ s d, main (host <$> fl) mk0 = Ret (tt, s) ∧ inode_at s 1 d ∧ islot s d (d_size d / 512 - 1) = 0.
Proof.
  intros Hin Hr. destruct (main_run fl Hin) as (s & Hrun & Hf). pose proof (in_count _ Hin).
  destruct (fin_root _ _ Hf) as (d & Hia & Hb & _ & _ & Hsz). exists s, d. split_and!; [done..|].
  rewrite Hsz. destruct (decide (islot s d ((16 * (2 + Z.of_nat (length fl)) / 512 + 1) * 512 / 512 - 1) = 0)) as [|Hn]; [done|].
  exfalso. apply (bd_dense _ _ _ Hb) in Hn; [|clear -H; Z.div_mod_to_equations; lia].
  rewrite root_dirents_length in Hn. revert Hn Hr. unfold ceil512. clear. intros. Z.div_mod_to_equations. lia.
Qed.

(** Two files, one of them read in two chunks. *)
Definition demo_files : list hostf :=
  [([95; 115; 104], [[1; 2; 3]; [4]]); ([82; 69; 65; 68; 77; 69], [[7]])].

Lemma demo_files_ok : input_ok demo_files.
Proof.
  split; [cbn; lia| | | |by vm_compute].
  - repeat (apply Forall_cons_2; [split; [repeat (apply Forall_cons_2; [lia|]); apply Forall_nil_2|apply (bool_decide_unpack _); vm_compute; exact I]|]).
    apply Forall_nil_2.
  - apply (bool_decide_unpack _). vm_compute. exact I.
  - repeat (apply Forall_cons_2; [by vm_compute|]). apply Forall_nil_2.
Qed.

Lemma mkfs_image_witness : ∃ s, main (host <$> demo_files) mk0 = Ret (tt, s) ∧
  ∃ k x, opens s 2 k x ∧ readi (λ _, None) 0 0 (size x) k = Ret (4, [1; 2; 3; 4], k).
Proof.
  destruct (mkfs_image (λ _, None) demo_files demo_files_ok) as (s & E & _ & _ & _ & H & _); [done|].
  exists s. split; [exact E|].
  destruct (H 0%nat ([95; 115; 104], [[1; 2; 3]; [4]]) eq_refl) as (k & x & Hop & _ & _ & Hr). exists k, x.
  split; [exact Hop|exact Hr].
Defined.
