(* ===== verification/Trap.v ===== *)
(** * Traps (xv6 [trap.c])

    A trap runs the handler of its vector, and decides what the process does next:
    go on, give up the processor, run a system call, or exit.  The handler stops
    where other processes may run (in [yield] and in [syscall]); [trap_yielded] and
    [trap_syscalled] are what follows when the process runs again.  The handlers
    are those of Ide, Console and Kbd; the bytes that the keyboard and the serial
    port have are arguments.  The messages are left out. *)

From stdpp Require Import base numbers list gmap sets strings relations.
From S2P Require Import Prelude Spinlock Bio Ide Console Kbd Proc.

Open Scope Z_scope.

Definition T_SYSCALL : Z := 64.
Definition T_IRQ0 : Z := 32.
Definition IRQ_TIMER : Z := 0.
Definition IRQ_KBD : Z := 1.
Definition IRQ_COM1 : Z := 4.
Definition IRQ_IDE : Z := 14.
Definition IRQ_SPURIOUS : Z := 31.
Definition DPL_USER : Z := 3.

(** ** The interrupt descriptor table *)
Definition STS_IG32 : Z := 0xE.
Definition STS_TG32 : Z := 0xF.
Definition SEG_KCODE : Z := 1.

Record gatedesc := Gate {
  off_15_0 : Z; g_cs : Z; g_args : Z; g_rsv1 : Z; g_type : Z; g_s : Z; g_dpl : Z; g_p : Z; off_31_16 : Z
}.
Definition SETGATE (istrap : bool) (sel off d : Z) : gatedesc :=
  Gate (Z.land (u32 off) 0xffff) sel 0 0 (if istrap then STS_TG32 else STS_IG32) 0 d 1 (Z.shiftr (u32 off) 16).

(** From the 256 addresses in [vectors]. *)
Definition tvinit (vectors : list Z) : outcome (list gatedesc) :=
  let idt := (λ v, SETGATE false (Z.shiftl SEG_KCODE 3) v 0) <$> vectors in
  v ← arr_get vectors T_SYSCALL;
  arr_set idt T_SYSCALL (SETGATE true (Z.shiftl SEG_KCODE 3) v DPL_USER).

(** ** The state of the kernel that traps change *)
Section trap.
Context {D : Type} `{Ata D} (polls : nat).
(** The addresses of [ticks], [input.r] and the buffers, as sleep channels. *)
Context (ticks_addr input_addr : Z) (buf_addr : nat → Z).

(** [eois] counts the interrupts acknowledged at the local controller. *)
Record kern := Kern {
  ptab : ptable; ticks : Z; disk : ide D; con : cons; kshift : Z; eois : nat
}.
Definition set_ptab (s : kern) (t : ptable) : kern := Kern t (ticks s) (disk s) (con s) (kshift s) (eois s).

Definition wake (a : Z) : M kern unit := fun s => Ret (tt, set_ptab s (wakeup (ptab s) (Addr a))).
Definition lapiceoi : M kern unit := fun s =>
  Ret (tt, Kern (ptab s) (ticks s) (disk s) (con s) (kshift s) (S (eois s))).

Definition next_tick : M kern unit := fun s =>
  Ret (tt, Kern (ptab s) (u32 (ticks s + 1)) (disk s) (con s) (kshift s) (eois s)).
Definition timer (cpuid : Z) : M kern unit :=
  if cpuid =? 0 then
    next_tick ;; wake ticks_addr
  else mret tt.

(** [ideintr] and the [wakeup] in it. *)
Definition disk_intr : M kern unit := fun s =>
  '(b, dk) ← ideintr polls (disk s);
  let s := Kern (ptab s) (ticks s) dk (con s) (kshift s) (eois s) in
  match b with Some b => wake (buf_addr b) s | None => Ret (tt, s) end.

(** [kbdintr] and [uartintr] with the [wakeup] in [consoleintr]. *)
Definition woken (c : cons) (sh : Z) (wk : bool) : M kern unit := fun s =>
  let s := Kern (ptab s) (ticks s) (disk s) c sh (eois s) in
  if wk then wake input_addr s else Ret (tt, s).
Definition kbd_intr (codes : list Z) : M kern unit := fun s =>
  '((sh, (wk, _)), c) ← kbdintr (kshift s) codes (con s);
  woken c sh wk s.
Definition uartintr (serial : list Z) : M kern unit := fun s =>
  '((wk, _), c) ← consoleintr serial (con s);
  woken c (kshift s) wk s.

(** ** [trap] *)

(** [myproc()]: the process of this processor. *)
Definition cur_proc (cur : option nat) : M kern (option proc) := fun s =>
  match cur with
  | None => Ret (None, s)
  | Some i => p ← opt (procs (ptab s) !! i); Ret (Some p, s)
  end.
Definition user_mode (f : trapframe) : bool := Z.land (cs f) 3 =? DPL_USER.
Definition set_tf (p : proc) (f : trapframe) : proc :=
  Proc (sz p) (pgdir p) (kstack p) (state p) (pid p) (parent p) f (chan_ p) (killed p) (ofile p) (cwd p) (name p).

(** A store to a field of [*myproc()]. *)
Definition store_proc (i : nat) (g : proc → proc) : M kern unit := fun s =>
  Ret (tt, set_ptab s (upd (ptab s) i g)).

(** The switch on the vector. *)
Definition dispatch (cpuid : Z) (cur : option nat) (trapno : Z) (f : trapframe) (codes serial : list Z) : M kern unit :=
  if trapno =? T_IRQ0 + IRQ_TIMER then timer cpuid ;; lapiceoi
  else if trapno =? T_IRQ0 + IRQ_IDE then disk_intr ;; lapiceoi
  else if trapno =? T_IRQ0 + IRQ_IDE + 1 then mret tt
  else if trapno =? T_IRQ0 + IRQ_KBD then kbd_intr codes ;; lapiceoi
  else if trapno =? T_IRQ0 + IRQ_COM1 then uartintr serial ;; lapiceoi
  else if (trapno =? T_IRQ0 + 7) || (trapno =? T_IRQ0 + IRQ_SPURIOUS) then lapiceoi
  else
    match cur with
    | None => panic "trap"
    | Some i =>
        if Z.land (cs f) 3 =? 0 then panic "trap"
        else store_proc i (λ p, set_killed p 1)
    end.

(** What the process does next. *)
Inductive next := Return | Exit | Yield | Syscall.

(** [if(myproc() && myproc()->killed && (tf->cs&3) == DPL_USER)]. *)
Definition must_exit (cur : option nat) (f : trapframe) : M kern bool :=
  p ← cur_proc cur;
  mret match p with Some p => negb (killed p =? 0) && user_mode f | None => false end.

Definition trap (cpuid : Z) (cur : option nat) (trapno : Z) (f : trapframe) (codes serial : list Z) : M kern next :=
  if trapno =? T_SYSCALL then
    p ← cur_proc cur;
    match p, cur with
    | Some p, Some i =>
        if negb (killed p =? 0) then mret Exit
        else store_proc i (λ p, set_tf p f) ;; mret Syscall
    | _, _ => lift Undef
    end
  else
    dispatch cpuid cur trapno f codes serial ;;
    x ← must_exit cur f;
    if (x : bool) then mret Exit
    else
      p ← cur_proc cur;
      match p with
      | Some p =>
          if bool_decide (state p = RUNNING) && (trapno =? T_IRQ0 + IRQ_TIMER) then mret Yield
          else x ← must_exit cur f; mret (if (x : bool) then Exit else Return)
      | None => mret Return
      end.

(** When [yield] and when [syscall] have returned. *)
Definition trap_yielded (cur : option nat) (f : trapframe) : M kern next :=
  x ← must_exit cur f; mret (if (x : bool) then Exit else Return).
Definition trap_syscalled (cur : option nat) : M kern next :=
  p ← cur_proc cur;
  match p with
  | Some p => mret (if killed p =? 0 then Return else Exit)
  | None => lift Undef
  end.

(** ** What the handlers leave alone *)

(** The process table up to what [wakeup] and the marking of [i] change. *)
Definition marked (t : ptable) (i : nat) : Prop := ∃ p, procs t !! i = Some p ∧ killed p ≠ 0.

Lemma wakeup_lookup t c i p : procs t !! i = Some p →
  ∃ p', procs (wakeup t c) !! i = Some p' ∧ killed p' = killed p ∧ (state p = RUNNING → p' = p).
Proof.
  intros Hp. unfold wakeup, wakeup1. cbn [procs set_procs]. rewrite list_lookup_fmap, Hp. cbn.
  eexists. split; [done|]. destruct (bool_decide (state p = SLEEPING)) eqn:E; cbn; [|done].
  apply bool_decide_eq_true in E. rewrite E. destruct (bool_decide _); [|done]. done.
Qed.

(** What a handler does to the entry of the running process: nothing. *)
Definition quiet (m : M kern unit) (n : nat) : Prop := ∀ s u s', m s = Ret (u, s') →
  eois s' = (n + eois s)%nat ∧
  ∀ i p, procs (ptab s) !! i = Some p →
    ∃ p', procs (ptab s') !! i = Some p' ∧ killed p' = killed p ∧ (state p = RUNNING → p' = p).

Lemma quiet_ret : quiet (mret tt) 0.
Proof. intros s u s' [= <- <-]. split; [done|]. intros i p Hp. eauto. Qed.

Lemma quiet_seq m k a b : quiet m a → quiet k b → quiet (m ;; k) (b + a).
Proof.
  intros Hm Hk s u s' (v & s1 & E1 & E2)%M_bind_Ret. destruct (Hm s v s1 E1) as [A1 A2], (Hk s1 u s' E2) as [B1 B2].
  split; [lia|]. intros i p Hp. destruct (A2 i p Hp) as (p1 & H1 & K1 & R1). destruct (B2 i p1 H1) as (p2 & H2 & K2 & R2).
  exists p2. split; [done|]. split; [congruence|]. intros Hr. pose proof (R1 Hr) as ->. auto.
Qed.

Lemma quiet_wake a : quiet (wake a) 0.
Proof. intros s u s' [= <- <-]. split; [done|]. intros i p Hp. by apply wakeup_lookup. Qed.

Lemma quiet_eoi : quiet lapiceoi 1.
Proof. intros s u s' [= <- <-]. split; [done|]. intros i p Hp. eauto. Qed.

Lemma quiet_timer c : quiet (timer c) 0.
Proof.
  unfold timer. case_if; [|apply quiet_ret]. apply (quiet_seq _ _ 0 0); [|apply quiet_wake].
  intros s u s' [= <- <-]. split; [done|]. intros i p Hp. eauto.
Qed.

Lemma quiet_woken c sh wk : quiet (woken c sh wk) 0.
Proof.
  intros s u s' E. unfold woken in E. destruct wk; [apply (quiet_wake _ _ _ _ E)|].
  injection E as <- <-. split; [done|]. intros i p Hp. eauto.
Qed.

Lemma quiet_disk : quiet disk_intr 0.
Proof.
  intros s u s' E. unfold disk_intr in E. apply bind_Ret in E as ([b dk] & _ & E). destruct b as [b|].
  - apply (quiet_wake _ _ _ _ E).
  - injection E as <- <-. split; [done|]. intros i p Hp. eauto.
Qed.

Lemma quiet_kbd codes : quiet (kbd_intr codes) 0.
Proof.
  intros s u s' E. unfold kbd_intr in E. apply bind_Ret in E as ([[sh [wk d]] c] & _ & E).
  apply (quiet_woken _ _ _ _ _ _ E).
Qed.

Lemma quiet_uart serial : quiet (uartintr serial) 0.
Proof.
  intros s u s' E. unfold uartintr in E. apply bind_Ret in E as ([[wk d] c] & _ & E).
  apply (quiet_woken _ _ _ _ _ _ E).
Qed.

(** The vectors with a handler, and whether they are acknowledged. *)
Definition handled (trapno : Z) : bool :=
  (trapno =? 32) || (trapno =? 46) || (trapno =? 47) || (trapno =? 33) || (trapno =? 36) || (trapno =? 39) || (trapno =? 63).
Definition acks (trapno : Z) : nat := if handled trapno && negb (trapno =? 47) then 1 else 0.

Lemma dispatch_handled cpuid cur trapno f codes serial : handled trapno = true →
  quiet (dispatch cpuid cur trapno f codes serial) (acks trapno).
Proof.
  unfold handled, acks, handled, dispatch, T_IRQ0, IRQ_TIMER, IRQ_IDE, IRQ_KBD, IRQ_COM1, IRQ_SPURIOUS.
  change (32 + 0) with 32. change (32 + 14) with 46. change (46 + 1) with 47. change (32 + 1) with 33.
  change (32 + 4) with 36. change (32 + 7) with 39. change (32 + 31) with 63. intros Hh.
  destruct (Z.eqb_spec trapno 32) as [->|]; [apply (quiet_seq _ _ 0 1); [apply quiet_timer|apply quiet_eoi]|].
  destruct (Z.eqb_spec trapno 46) as [->|]; [apply (quiet_seq _ _ 0 1); [apply quiet_disk|apply quiet_eoi]|].
  destruct (Z.eqb_spec trapno 47) as [->|]; [apply quiet_ret|].
  destruct (Z.eqb_spec trapno 33) as [->|]; [apply (quiet_seq _ _ 0 1); [apply quiet_kbd|apply quiet_eoi]|].
  destruct (Z.eqb_spec trapno 36) as [->|]; [apply (quiet_seq _ _ 0 1); [apply quiet_uart|apply quiet_eoi]|].
  destruct (Z.eqb_spec trapno 39) as [->|]; [apply quiet_eoi|].
  destruct (Z.eqb_spec trapno 63) as [->|]; [apply quiet_eoi|]. discriminate Hh.
Qed.

Lemma dispatch_fault cpuid cur trapno f codes serial : handled trapno = false →
  dispatch cpuid cur trapno f codes serial =
    match cur with
    | None => panic "trap"
    | Some i =>
        if Z.land (cs f) 3 =? 0 then panic "trap"
        else store_proc i (λ p, set_killed p 1)
    end.
Proof.
  unfold handled. rewrite !orb_false_iff. intros ((((((H1 & H2) & H3) & H4) & H5) & H6) & H7).
  unfold dispatch, T_IRQ0, IRQ_TIMER, IRQ_IDE, IRQ_KBD, IRQ_COM1, IRQ_SPURIOUS.
  change (32 + 0) with 32. change (32 + 14) with 46. change (46 + 1) with 47. change (32 + 1) with 33.
  change (32 + 4) with 36. change (32 + 7) with 39. change (32 + 31) with 63.
  by rewrite H1, H2, H3, H4, H5, H6, H7.
Qed.

(** ** A mark stays until the process is reaped *)
Definition keeps (t t' : ptable) : Prop :=
  ∀ i p, procs t !! i = Some p → ∃ p', procs t' !! i = Some p' ∧ (killed p ≠ 0 → killed p' ≠ 0).

Lemma keeps_refl t : keeps t t.
Proof. intros i p Hp. eauto. Qed.
Lemma keeps_trans t1 t2 t3 : keeps t1 t2 → keeps t2 t3 → keeps t1 t3.
Proof. intros H1 H2 i p Hp. destruct (H1 i p Hp) as (p1 & E1 & K1). destruct (H2 i p1 E1) as (p2 & E2 & K2). eauto. Qed.

Lemma keeps_upd t k g : (∀ p, killed p ≠ 0 → killed (g p) ≠ 0) → keeps t (upd t k g).
Proof.
  intros Hg i p Hp. unfold upd. cbn [procs set_procs]. destruct (decide (i = k)) as [->|Hne].
  - rewrite list_lookup_alter_eq, Hp. cbn. eauto.
  - rewrite list_lookup_alter_ne by done. eauto.
Qed.

Lemma keeps_wakeup t c : keeps t (wakeup1 t c).
Proof. intros i p Hp. destruct (wakeup_lookup t c i p Hp) as (p' & E & K & _). exists p'. split; [done|]. by rewrite K. Qed.

Lemma keeps_abandon cur cnt : ∀ i t, keeps t (abandon cur i cnt t).
Proof.
  induction cnt as [|cnt IH]; intros i t; cbn [abandon]; [apply keeps_refl|].
  eapply keeps_trans; [|apply IH]. destruct (procs t !! i) as [p|]; [|apply keeps_refl].
  destruct (bool_decide (parent p = Some cur)); [|apply keeps_refl].
  assert (keeps t (upd t i (λ p, set_parent p (initproc t)))) as Hk by by apply keeps_upd.
  destruct (bool_decide (state p = ZOMBIE)); [|done]. eapply keeps_trans; [exact Hk|apply keeps_wakeup].
Qed.

Lemma keeps_kill t n : keeps t (kill t n).2.
Proof.
  unfold kill. destruct (kill_loop (procs t) n) as [l|] eqn:E; [|apply keeps_refl]. cbn [snd].
  intros i p. cbn [procs set_procs]. revert l i E. induction (procs t) as [|q l0 IH]; intros l i E Hp; [done|].
  cbn [kill_loop] in E. destruct (pid q =? n).
  - injection E as <-. destruct i as [|i]; [|eauto]. injection Hp as ->. cbn. eexists. split; [done|].
    intros _. by destruct (bool_decide _).
  - destruct (kill_loop l0 n) as [l1|] eqn:E1; [|done]. injection E as <-. destruct i as [|i]; [eauto|].
    exact (IH l1 i eq_refl Hp).
Qed.

(** Only [wait] takes a mark away, and then the entry is free. *)
Lemma kstep_keeps a b i : kstep a b → marked (tab a) i →
  marked (tab b) i ∨ ∃ p, procs (tab b) !! i = Some p ∧ state p = UNUSED.
Proof.
  intros Hs (p & Hp & Hk).
  assert (keeps (tab a) (tab b) → marked (tab b) i ∨ ∃ p, procs (tab b) !! i = Some p ∧ state p = UNUSED) as Hkeep.
  { intros H1. left. destruct (H1 i p Hp) as (p' & E & K). exists p'. auto. }
  destruct Hs as
    [c j t t' cs ms tr Hc Hpick|c j t cs ms tr Hc|c j x t t' cs ms tr Hc Hsl|ch t cs ms tr|n t cs ms tr
    |c j n newsz r t t' cs ms tr Hc Hg|c j np t t' cs ms tr Hc Hm Hf|c j np k t cs ms tr Hc Hm
    |c j np pg r t t' e cs ms tr Hc Hm Hf|c j t t' e cs ms tr Hc Hm He|c j t t' cs ms tr Hc Hm He
    |c j res t t' e cs ms tr Hc Hm Hw|c j f fd o q t cs ms tr Hc Hm Hq Ho|c j fd r t t' e cs ms tr Hc Hm Hd
    |c j fd r t t' e cs ms tr Hc Hm Hd]; cbn [tab] in *.
  - apply Hkeep. unfold scheduler_pick in Hpick. destruct (procs t !! j) as [q|]; [|done].
    case_bool_decide; [|done]. injection Hpick as <-. eapply keeps_trans; [|by apply keeps_upd]. by apply keeps_upd.
  - apply Hkeep. by apply keeps_upd.
  - apply Hkeep. injection Hsl as <-. by apply keeps_upd.
  - apply Hkeep. apply keeps_wakeup.
  - apply Hkeep. apply keeps_kill.
  - apply Hkeep. unfold growproc in Hg. apply bind_Ret in Hg as (x & _ & Hg). destruct (n =? 0); [injection Hg as _ <-; apply keeps_refl|].
    destruct (newsz =? 0); injection Hg as _ <-; [apply keeps_refl|by apply keeps_upd].
  - apply Hkeep. unfold allocproc_find in Hf. destruct (find_proc _ _ _) as [k|]; [|done]. injection Hf as _ <-.
    intros i0 p0 H0. apply (keeps_upd t k (λ p, set_pid (set_state p EMBRYO) (nextpid t)) (λ q Hq, Hq) i0 p0 H0).
  - apply Hkeep. unfold allocproc_stack. destruct (k =? 0); by apply keeps_upd.
  - apply Hkeep. unfold fork_copy in Hf. apply bind_Ret in Hf as (x & _ & Hf). apply bind_Ret in Hf as (y & Hy & Hf).
    apply opt_Ret in Hy. destruct (pg =? 0); [injection Hf as _ <- _; by apply keeps_upd|].
    destruct (dup_files _ _) as [files e0]. apply bind_Ret in Hf as (ip & _ & Hf). injection Hf as _ <- _. by apply keeps_upd.
  - apply Hkeep. unfold exit_close in He. apply bind_Ret in He as (x & _ & He). case_bool_decide; [done|].
    destruct (close_files _) as [files e0]. apply bind_Ret in He as (ip & _ & He). injection He as <- _. by apply keeps_upd.
  - apply Hkeep. unfold exit_zombie in He. apply bind_Ret in He as (x & _ & He). injection He as <-.
    eapply keeps_trans; [apply keeps_wakeup|]. eapply keeps_trans; [apply keeps_abandon|]. by apply keeps_upd.
  - unfold wait in Hw. apply bind_Ret in Hw as (x & _ & Hw). destruct (wait_loop _ _ _ _) as [hk [k|]].
    + apply bind_Ret in Hw as (q & Hq & Hw). apply opt_Ret in Hq. injection Hw as _ <- _.
      unfold marked, upd. cbn [procs set_procs]. destruct (decide (i = k)) as [->|Hne].
      * right. rewrite list_lookup_alter_eq, Hp. cbn. by eexists.
      * left. rewrite list_lookup_alter_ne by done. eauto.
    + apply Hkeep. destruct (negb hk || _); [injection Hw as _ <- _; apply keeps_refl|].
      apply bind_Ret in Hw as (t1 & Hsl & Hw). injection Hw as _ <- _. injection Hsl as <-. by apply keeps_upd.
  - apply Hkeep. by apply keeps_upd.
  - apply Hkeep. unfold sys_dup in Hd. apply bind_Ret in Hd as (x & _ & Hd). destruct (argfd _ _); [|injection Hd as _ <- _; apply keeps_refl].
    destruct (fdalloc _ _) as [[fd' o]|]; injection Hd as _ <- _; [by apply keeps_upd|apply keeps_refl].
  - apply Hkeep. unfold sys_close in Hd. apply bind_Ret in Hd as (x & _ & Hd).
    destruct (argfd _ _); injection Hd as _ <- _; [by apply keeps_upd|apply keeps_refl].
Qed.

(** A successful [kill] marks a process with that pid. *)
Lemma kill_marks t n t' : kill t n = (0, t') → ∃ i p, procs t !! i = Some p ∧ pid p = n ∧ marked t' i.
Proof.
  unfold kill. destruct (kill_loop (procs t) n) as [l|] eqn:E; [|done]. intros [= <-].
  assert (∀ l0 l, kill_loop l0 n = Some l → ∃ i p q, l0 !! i = Some p ∧ pid p = n ∧ l !! i = Some q ∧ killed q = 1) as Hgen.
  { clear. induction l0 as [|q l0 IH]; intros l E; [done|]. cbn [kill_loop] in E. destruct (Z.eqb_spec (pid q) n).
    - injection E as <-. exists 0%nat, q. eexists. split_and!; [done..|]. by destruct (bool_decide _).
    - destruct (kill_loop l0 n) as [l1|] eqn:E1; [|done]. injection E as <-.
      destruct (IH l1 eq_refl) as (i & p & r & H1 & H2 & H3 & H4). exists (S i), p, r. done. }
  destruct (Hgen _ _ E) as (i & p & q & H1 & H2 & H3 & H4). exists i, p. split_and!; [done..|].
  exists q. split; [done|]. lia.
Qed.

(** ** What a trap does *)
Lemma cur_proc_some i p s : procs (ptab s) !! i = Some p → cur_proc (Some i) s = Ret (Some p, s).
Proof. intros Hp. unfold cur_proc. by rewrite Hp. Qed.

Lemma must_exit_some i p f s : procs (ptab s) !! i = Some p →
  must_exit (Some i) f s = Ret (negb (killed p =? 0) && user_mode f, s).
Proof. intros Hp. unfold must_exit. by erewrite M_bind_run by (by apply cur_proc_some). Qed.

(** The end of [trap], behind the switch. *)
Definition decides (trapno : Z) (f : trapframe) (p : proc) : next :=
  if negb (killed p =? 0) && user_mode f then Exit
  else if bool_decide (state p = RUNNING) && (trapno =? T_IRQ0 + IRQ_TIMER) then Yield else Return.

Lemma trap_run cpuid i trapno f codes serial s s1 p : trapno ≠ T_SYSCALL →
  dispatch cpuid (Some i) trapno f codes serial s = Ret (tt, s1) → procs (ptab s1) !! i = Some p →
  trap cpuid (Some i) trapno f codes serial s = Ret (decides trapno f p, s1).
Proof.
  intros Hn Hd Hp. unfold trap. apply Z.eqb_neq in Hn. rewrite Hn. erewrite M_bind_run by exact Hd. cbn beta.
  erewrite M_bind_run by (by apply must_exit_some). cbn beta. unfold decides.
  destruct (negb (killed p =? 0) && user_mode f) eqn:E; [done|].
  erewrite M_bind_run by (by apply cur_proc_some). cbn beta iota.
  destruct (bool_decide (state p = RUNNING) && (trapno =? T_IRQ0 + IRQ_TIMER)); [done|].
  erewrite M_bind_run by (by apply must_exit_some). cbn beta. by rewrite E.
Qed.


(** C14. A killed process runs no more user code: when [kill] has found a process,
    then whatever the kernel does afterwards on all processors, as long as the
    process is not yet reaped, each trap it takes in user mode ends in [exit], and
    so do its return from a system call and its return to user mode after it gave
    up the processor. *)
Theorem killed_process_exits (t t' : ptable) (n : Z) (cs0 : list (option nat)) (ms : gmap nat kmode) (tr : list effect)
    (Hkill : kill t n = (0, t')) :
  ∃ i p, procs t !! i = Some p ∧ pid p = n ∧
  ∀ b, rtc (λ x y, kstep x y ∧ ∀ q, procs (tab y) !! i = Some q → state q ≠ UNUSED) (PSys t' cs0 ms tr) b →
  ∀ (s : kern) (f : trapframe), ptab s = tab b → user_mode f = true →
    (∀ cpuid trapno codes serial r s', trap cpuid (Some i) trapno f codes serial s = Ret (r, s') → r = Exit) ∧
    trap_yielded (Some i) f s = Ret (Exit, s) ∧ trap_syscalled (Some i) s = Ret (Exit, s).
Proof.
  destruct (kill_marks t n t' Hkill) as (i & p & Hp & Hpid & Hm). exists i, p. split_and!; [done..|].
  intros b Hrtc s f Es Hu. assert (marked (tab b) i) as (q & Hq & Hk).
  { clear -Hrtc Hm. remember (PSys t' cs0 ms tr) as a eqn:Ea. assert (marked (tab a) i) as Ha by by subst. clear Hm Ea t'.
    induction Hrtc as [|a b' c [Hs Hr] _ IH]; [done|]. apply IH. destruct (kstep_keeps a b' i Hs Ha) as [|(q & E1 & E2)]; [done|].
    by destruct (Hr q E1). }
  rewrite <-Es in Hq. apply Z.eqb_neq in Hk. split_and!.
  - intros cpuid trapno codes serial r s' Ht. destruct (decide (trapno = T_SYSCALL)) as [->|Hn].
    { unfold trap in Ht. rewrite Z.eqb_refl in Ht. erewrite M_bind_run in Ht by (by apply cur_proc_some).
      cbn beta iota in Ht. rewrite Hk in Ht. by injection Ht. }
    pose proof Ht as Ht0. unfold trap in Ht. pose proof Hn as Hn'. apply Z.eqb_neq in Hn'. rewrite Hn' in Ht.
    apply M_bind_Ret in Ht as ([] & s1 & Hd & _).
    assert (∃ q', procs (ptab s1) !! i = Some q' ∧ (killed q' =? 0) = false) as (q' & Hq' & Hk').
    { destruct (handled trapno) eqn:Hh.
      - destruct (dispatch_handled cpuid (Some i) trapno f codes serial Hh s tt s1 Hd) as [_ Hq0].
        destruct (Hq0 i q Hq) as (q' & E & K & _). exists q'. by rewrite K.
      - rewrite dispatch_fault in Hd by done. destruct (Z.land (cs f) 3 =? 0); [done|]. injection Hd as <-.
        exists (set_killed q 1). cbn [ptab set_ptab upd procs set_procs]. by rewrite list_lookup_alter_eq, Hq. }
    rewrite (trap_run _ _ _ _ _ _ _ _ q' Hn Hd Hq') in Ht0. injection Ht0 as <- _. unfold decides. by rewrite Hk', Hu.
  - unfold trap_yielded. erewrite M_bind_run by (by apply must_exit_some). cbn beta. by rewrite Hk, Hu.
  - unfold trap_syscalled. erewrite M_bind_run by (by apply cur_proc_some). cbn beta iota. by rewrite Hk.
Qed.
End trap.

(** Every vector has a gate into the kernel, and only the one for system calls
    may be used by user code; it alone leaves interrupts on. *)
Lemma tvinit_gates (vectors : list Z) : length vectors = 256%nat → Forall (λ v, 0 ≤ v < 2 ^ 32) vectors →
  ∃ idt, tvinit vectors = Ret idt ∧ ∀ i v, vectors !! i = Some v → ∃ g, idt !! i = Some g ∧
    g_cs g = 8 ∧ g_p g = 1 ∧ off_15_0 g + 2 ^ 16 * off_31_16 g = v ∧
    g_dpl g = (if decide (i = 64%nat) then DPL_USER else 0) ∧
    g_type g = (if decide (i = 64%nat) then STS_TG32 else STS_IG32).
Proof.
  intros Hl Hv. destruct (arr_get_in vectors T_SYSCALL) as (v64 & E64 & H64); [rewrite Hl; done|].
  unfold tvinit. rewrite E64. cbn [mbind outcome_bind]. eexists. split.
  { apply arr_set_in. rewrite length_fmap, Hl. done. }
  assert (∀ v, 0 ≤ v < 2 ^ 32 → Z.land (u32 v) 0xffff + 2 ^ 16 * Z.shiftr (u32 v) 16 = v) as Hoff.
  { intros v Hr. rewrite u32_small by done. change 0xffff with (Z.ones 16). rewrite Z.land_ones, Z.shiftr_div_pow2 by done.
    pose proof (Z.div_mod v (2 ^ 16)). lia. }
  intros i v Hi. pose proof (Forall_lookup_1 _ _ _ _ Hv Hi) as Hr. destruct (decide (i = 64%nat)) as [->|Hne].
  - change (Z.to_nat T_SYSCALL) with 64%nat in *. assert (v = v64) as -> by congruence.
    rewrite list_lookup_insert_eq by (rewrite length_fmap, Hl; lia). eexists. split; [done|]. by split_and!; [..|apply Hoff| |].
  - rewrite list_lookup_insert_ne by done. rewrite list_lookup_fmap, Hi. eexists. split; [done|].
    by split_and!; [..|apply Hoff| |].
Qed.

(** A machine with one process, in user mode. *)
Definition demo_frame : trapframe := user_trapframe (TrapFrame 0 0 0 0 0 0 0 0 []).
Definition demo_table : ptable :=
  PTable [Proc 4096 1 2 RUNNING 7 None demo_frame Null 0 [] None []] None 8.
Definition demo_kern : kern (D := sdisk) := Kern demo_table 5 demo_boot demo_console 0 0.


Lemma killed_process_exits_witness : ∃ r s', trap 1 100 200 Z.of_nat 0 (Some 0%nat) 32 demo_frame [] []
  (Kern (D := sdisk) (kill demo_table 7).2 5 demo_boot demo_console 0 0) = Ret (r, s') ∧ r = Exit.
Proof.
  destruct (killed_process_exits (D := sdisk) 1 100 200 Z.of_nat demo_table (kill demo_table 7).2 7 [Some 0%nat] ∅ [])
    as (i & p & Hp & _ & Hall); [reflexivity|].
  assert (i = 0%nat) as -> by (destruct i; [done|discriminate Hp]).
  destruct (Hall _ (rtc_refl _ _) (Kern (D := sdisk) (kill demo_table 7).2 5 demo_boot demo_console 0 0) demo_frame) as (H & _);
    [reflexivity|reflexivity|].
  eexists _, _. split; [reflexivity|]. eapply (H 0 32 [] []). reflexivity.
Defined.
