(* ===== verification/Words.v ===== *)
(** * Words of a line

    The maximal blocks of characters that are not delimiters: what the tokenizer
    of the mini-shell finds and what [wc] counts. *)

From stdpp Require Import base numbers list.
From S2P Require Import Prelude.

Open Scope Z_scope.

Section words.
Context (delim : Z → bool).

(** The characters up to the first delimiter, and the words behind it. *)
Fixpoint split_words (l : list Z) : list Z * list (list Z) :=
  match l with
  | [] => ([], [])
  | c :: l =>
      let '(w, ws) := split_words l in
      if delim c then ([], if bool_decide (w = []) then ws else w :: ws) else (c :: w, ws)
  end.
Definition words (l : list Z) : list (list Z) :=
  let '(w, ws) := split_words l in if bool_decide (w = []) then ws else w :: ws.

Lemma words_delim c l : delim c = true → words (c :: l) = words l.
Proof. intros Hc. unfold words. cbn [split_words]. destruct (split_words l) as [w ws]. rewrite Hc. done. Qed.

Lemma words_delims d l : Forall (λ c, delim c = true) d → words (d ++ l) = words l.
Proof. intros Hd. induction Hd as [|c d Hc _ IH]; [done|]. cbn [app]. by rewrite words_delim. Qed.

Lemma split_words_word w l : Forall (λ c, delim c = false) w → l = [] ∨ (∃ c l', l = c :: l' ∧ delim c = true) →
  split_words (w ++ l) = (w, words (tail l)).
Proof.
  intros Hw Hl. induction Hw as [|c w Hc _ IH].
  - destruct Hl as [->|(c & l' & -> & Hc)]; [done|]. cbn [app tail split_words]. unfold words.
    destruct (split_words l') as [w ws]. by rewrite Hc.
  - cbn [app split_words]. rewrite IH. by rewrite Hc.
Qed.

(** The first word of a line. *)
Lemma words_first r :
  (Forall (λ c, delim c = true) r ∧ words r = []) ∨
  ∃ d w l, r = d ++ w ++ l ∧ Forall (λ c, delim c = true) d ∧ w ≠ [] ∧ Forall (λ c, delim c = false) w ∧
    (l = [] ∨ ∃ c l', l = c :: l' ∧ delim c = true) ∧ words r = w :: words (tail l).
Proof.
  induction r as [|c r IH]; [by left|]. destruct (delim c) eqn:Hc.
  - rewrite words_delim by done. destruct IH as [[Hr Hw]|(d & w & l & -> & Hd & Hne & Hw & Hl & Hws)].
    + left. split; [by constructor|done].
    + right. exists (c :: d), w, l. split_and!; auto.
  - right. exists [].
    assert (∃ w l, r = w ++ l ∧ Forall (λ c, delim c = false) w ∧
      (l = [] ∨ ∃ c l', l = c :: l' ∧ delim c = true)) as (w & l & -> & Hw & Hl).
    { clear. induction r as [|x r (w & l & -> & Hw & Hl)]; [exists [], []; auto|]. destruct (delim x) eqn:Hx.
      - exists [], (x :: w ++ l). split_and!; [done|done|]. right. eauto.
      - exists (x :: w), l. auto. }
    exists (c :: w), l. split_and!; try done; [by constructor|]. unfold words at 1. cbn [app].
    pose proof (split_words_word (c :: w) l) as E. cbn [app] in E. rewrite E; [done|by constructor|done].
Qed.


(** Words are not empty. *)
Lemma words_nonempty l : Forall (λ w, w ≠ []) (words l).
Proof.
  assert (Forall (λ w, w ≠ []) (snd (split_words l)) ∧ Forall (λ w, w ≠ []) (words l)) as [_ H]; [|done].
  induction l as [|c l [IH1 IH2]]; [split; constructor|]. unfold words in *. cbn [split_words].
  destruct (split_words l) as [w ws]. cbn in *. destruct (delim c); cbn; [by destruct (bool_decide (w = []))|].
  split; [done|]. by constructor.
Qed.
End words.
