(* ===== verification/MiniShell.v ===== *)
(** * The mini-shell (Assignment4 [shell.c]): reading and parsing a line

    The line buffer is an array of characters with the bytes that were never
    written marked; a pointer into it is an index.  [getline] and [strtok] are
    the functions of the C library; how much a line longer than the buffer
    makes [getline] allocate is a parameter.  Messages are left out. *)

From stdpp Require Import base numbers list sets.
From S2P Require Import Prelude Words.

Open Scope Z_scope.

Notation buf := (list (option Z)).
(** An element of the array of tokens: unwritten, [NULL] or a pointer. *)
Notation slot := (option (option nat)).

Definition rd (b : buf) (p : nat) : outcome Z := x ← opt (b !! p); opt x.

(** ** String functions of the C library *)

(** The string that starts the buffer. *)
Fixpoint c_string (b : buf) : outcome (list Z) :=
  match b with
  | Some c :: b => if c =? 0 then Ret [] else w ← c_string b; Ret (c :: w)
  | _ => Undef
  end.
Definition str_at (b : buf) (p : nat) : outcome (list Z) := c_string (drop p b).

(** [strcmp] of a literal and a string is 0. *)
Fixpoint str_is (lit : list Z) (b : buf) : outcome bool :=
  match b with
  | Some c :: b =>
      match lit with
      | [] => Ret (c =? 0)
      | x :: lit => if c =? x then str_is lit b else Ret false
      end
  | _ => Undef
  end.
Definition strcmp0 (lit : list Z) (b : buf) (p : nat) : outcome bool := str_is lit (drop p b).

(** How many characters from the start satisfy [d]. *)
Fixpoint span (d : Z → bool) (b : buf) : outcome nat :=
  match b with
  | Some c :: b => if d c then n ← span d b; Ret (S n) else Ret 0%nat
  | _ => Undef
  end.

Definition DELIMITERS : list Z := [32; 9; 13; 10; 7].
Definition delim (c : Z) : bool := bool_decide (c ∈ DELIMITERS).

(** The token, the buffer and where the next call goes on. *)
Definition strtok (b : buf) (p : nat) : outcome (option nat * buf * nat) :=
  n ← span delim (drop p b);
  let s := (p + n)%nat in
  c ← rd b s;
  if c =? 0 then Ret (None, b, s)
  else
    n ← span (λ c, negb (delim c || (c =? 0))) (drop s b);
    let e := (s + n)%nat in
    c ← rd b e;
    if c =? 0 then Ret (Some s, b, e)
    else Ret (Some s, <[e := Some 0]> b, S e).

(** ** [read_line] *)
Definition LINE_LENGTH : nat := 80.
Definition TOK_SIZE : nat := 64.

Section getline.
Context (grow : nat → nat).

(** The line with its newline, and the input left. *)
Fixpoint next_line (input : list Z) : list Z * list Z :=
  match input with
  | [] => ([], [])
  | c :: input => if c =? 10 then ([c], input) else let '(l, input) := next_line input in (c :: l, input)
  end.

(** The size of the buffer that holds [n] characters. *)
Definition capacity (n : nat) : nat := if (n <=? LINE_LENGTH)%nat then LINE_LENGTH else grow n.

(** At the end of the input nothing is stored. *)
Definition read_line (input : list Z) : buf * list Z :=
  match input with
  | [] => (replicate LINE_LENGTH None, [])
  | _ =>
      let '(l, input) := next_line input in
      ((Some <$> l) ++ Some 0 :: replicate (capacity (S (length l)) - S (length l)) None, input)
  end.
End getline.

(** ** [string_trim] *)

(** The loop that moves [tail] back over blanks. *)
Fixpoint trim_tail (b : buf) (tail : Z) (fuel : nat) : outcome Z :=
  c ← arr_get b tail;
  c ← opt c;
  if c =? 32 then match fuel with O => NoFuel | S fuel => trim_tail b (tail - 1) fuel end
  else Ret tail.

Definition string_trim (b : buf) : outcome (nat * buf) :=
  s ← str_at b 0;
  head ← span (Z.eqb 32) b;
  tail ← trim_tail b (Z.of_nat (length s)) (length b);
  b ← arr_set b (tail + 1) (Some 0);
  Ret (head, b).

(** ** [parse_line] *)
Record globals := Globals {
  background : Z; piping : Z; pipe_posn : Z; line_length : Z; left : Z; right : Z; posn_right : Z; posn_left : Z
}.

Definition set_background (g : globals) : globals :=
  Globals 1 (piping g) (pipe_posn g) (line_length g) (left g) (right g) (posn_right g) (posn_left g).
Definition set_piping (g : globals) (posn : Z) : globals :=
  Globals (background g) 1 posn (line_length g) (left g) (right g) (posn_right g) (posn_left g).
Definition set_right (g : globals) (posn : Z) : globals :=
  Globals (background g) (piping g) (pipe_posn g) (line_length g) (left g) 1 posn (posn_left g).
Definition set_left (g : globals) (posn : Z) : globals :=
  Globals (background g) (piping g) (pipe_posn g) (line_length g) 1 (right g) (posn_right g) posn.
Definition set_line_length (g : globals) (n : Z) : globals :=
  Globals (background g) (piping g) (pipe_posn g) n (left g) (right g) (posn_right g) (posn_left g).
Definition reset_flags (g : globals) : globals :=
  Globals 0 0 (pipe_posn g) (line_length g) 0 0 (posn_right g) (posn_left g).

Definition AMP : list Z := [38].
Definition BAR : list Z := [124].
Definition GT : list Z := [62].
Definition LT : list Z := [60].

Fixpoint parse_loop (b : buf) (save : nat) (posn : Z) (tokens : list slot) (g : globals) (fuel : nat)
    : outcome (list slot * buf * globals) :=
  '(token, b, save) ← strtok b save;
  match token with
  | None =>
      tokens ← arr_set tokens posn (Some None);
      Ret (tokens, b, set_line_length g posn)
  | Some t =>
      amp ← strcmp0 AMP b t;
      if (amp : bool) then
        tokens ← arr_set tokens posn (Some None);
        Ret (tokens, b, set_line_length (set_background g) posn)
      else
        bar ← strcmp0 BAR b t;
        let g := if (bar : bool) then set_piping g posn else g in
        gt ← strcmp0 GT b t;
        let g := if (gt : bool) then set_right g posn else g in
        lt ← strcmp0 LT b t;
        let g := if (lt : bool) then set_left g posn else g in
        tokens ← arr_set tokens posn (Some (Some t));
        match fuel with O => NoFuel | S fuel => parse_loop b save (posn + 1) tokens g fuel end
  end.

Definition parse_line (b : buf) (g : globals) : outcome (list slot * buf * globals) :=
  '(line, b) ← string_trim b;
  parse_loop b line 0 (replicate TOK_SIZE None) (reset_flags g) (length b).

(** ** What the words of a line are *)
Notation line_words := (words delim).

(** The command: what comes before the first [&]. *)
Fixpoint command (ws : list (list Z)) : list (list Z) :=
  match ws with
  | [] => []
  | w :: ws => if bool_decide (w = AMP) then [] else w :: command ws
  end.

(** The words before and after the last [sep]. *)
Fixpoint split_last (sep : list Z) (ws : list (list Z)) : option (list (list Z) * list (list Z)) :=
  match ws with
  | [] => None
  | w :: ws =>
      match split_last sep ws with
      | Some (l, r) => Some (w :: l, r)
      | None => if bool_decide (w = sep) then Some ([], ws) else None
      end
  end.
Definition flag_of (sep : list Z) (ws : list (list Z)) : Z :=
  match split_last sep ws with Some _ => 1 | None => 0 end.
Definition posn_of (sep : list Z) (ws : list (list Z)) (old : Z) : Z :=
  match split_last sep ws with Some (l, _) => Z.of_nat (length l) | None => old end.

(** What [parse_line] says of a line in the global variables. *)
Definition flags_of (ws : list (list Z)) (g : globals) : globals :=
  let c := command ws in
  Globals (if bool_decide (AMP ∈ ws) then 1 else 0) (flag_of BAR c) (posn_of BAR c (pipe_posn g))
    (Z.of_nat (length c)) (flag_of LT c) (flag_of GT c) (posn_of GT c (posn_right g)) (posn_of LT c (posn_left g)).

(** ** The C string functions do their job *)
Lemma str_at_split b p w : str_at b p = Ret w ↔
  0 ∉ w ∧ ∃ junk, drop p b = (Some <$> w) ++ Some 0 :: junk.
Proof.
  unfold str_at. generalize (drop p b). clear. intros b. split.
  - revert w. induction b as [|[c|] b IH]; intros w; cbn; [done| |done]. destruct (Z.eqb_spec c 0) as [->|Hc].
    + intros [= <-]. split; [set_solver|]. by exists b.
    + intros (w0 & E & [= <-])%bind_Ret. destruct (IH w0 E) as (H0 & junk & ->). split; [set_solver|]. by exists junk.
  - intros (H0 & junk & ->). induction w as [|c w IH]; [done|]. cbn. destruct (Z.eqb_spec c 0) as [->|Hc]; [set_solver|].
    rewrite IH by set_solver. done.
Qed.

Lemma str_at_run b p w junk : drop p b = (Some <$> w) ++ Some 0 :: junk → 0 ∉ w → str_at b p = Ret w.
Proof. intros. apply str_at_split. eauto. Qed.

(** A string depends on its own characters only. *)
Lemma str_at_agree b b' p w : length b' = length b → (∀ i, (i ≤ p + length w)%nat → b' !! i = b !! i) →
  str_at b p = Ret w → str_at b' p = Ret w.
Proof.
  intros Hlen Hag (H0 & junk & Hb)%str_at_split. apply str_at_split. split; [done|].
  exists (drop (S (p + length w)) b').
  rewrite <- (take_drop (S (length w)) (drop p b')), drop_drop, <- plus_n_Sm. 
  replace (take (S (length w)) (drop p b')) with (take (S (length w)) (drop p b)).
  - rewrite Hb, (cons_middle (Some 0)), app_assoc. rewrite take_app_length'; [by rewrite <- app_assoc|].
    rewrite length_app, length_fmap. cbn. lia.
  - apply list_eq. intros i. destruct (decide (i < S (length w))%nat).
    + rewrite !lookup_take_lt, !lookup_drop by done. symmetry. apply Hag. lia.
    + by rewrite !lookup_take_ge by lia.
Qed.

Lemma strcmp_spec lit b p w : 0 ∉ lit → str_at b p = Ret w → strcmp0 lit b p = Ret (bool_decide (w = lit)).
Proof.
  intros Hl (H0 & junk & Hb)%str_at_split. unfold strcmp0. rewrite Hb. clear Hb.
  revert lit Hl. induction w as [|c w IH]; intros [|x lit] Hl; cbn [str_is fmap list_fmap app].
  - done.
  - rewrite bool_decide_eq_false_2 by done. destruct (Z.eqb_spec 0 x) as [<-|]; [set_solver|done].
  - rewrite bool_decide_eq_false_2 by done. destruct (Z.eqb_spec c 0) as [->|]; [set_solver|done].
  - destruct (Z.eqb_spec c x) as [->|Hne].
    + rewrite IH by set_solver. f_equal. apply bool_decide_ext. naive_solver.
    + rewrite bool_decide_eq_false_2; [done|]. congruence.
Qed.

Lemma span_spec d l c b : Forall (λ x, d x = true) l → d c = false →
  span d ((Some <$> l) ++ Some c :: b) = Ret (length l).
Proof.
  intros Hl Hc. induction Hl as [|x l Hx _ IH]; cbn; [by rewrite Hc|]. by rewrite Hx, IH.
Qed.

Lemma rd_drop b p c l : drop p b = Some c :: l → rd b p = Ret c.
Proof. intros Hd. unfold rd. rewrite <- (Nat.add_0_r p), <- lookup_drop, Hd. done. Qed.

Lemma drop_app_more {A} p n (b l k : list A) : drop p b = l ++ k → length l = n → drop (p + n) b = k.
Proof. intros Hd <-. rewrite <- drop_drop, Hd. apply drop_app_length. Qed.

(** ** [strtok] finds the words one after the other *)
Lemma strtok_spec b p r junk : drop p b = (Some <$> r) ++ Some 0 :: junk → 0 ∉ r →
  match line_words r with
  | [] => ∃ e, strtok b p = Ret (None, b, e)
  | w :: ws => ∃ t b' e r' junk',
      strtok b p = Ret (Some t, b', e) ∧ str_at b' t = Ret w ∧ (t + length w ≤ e)%nat ∧ (p ≤ e)%nat ∧
      length b' = length b ∧ (∀ i, (i ≤ p)%nat → b' !! i = b !! i) ∧
      drop e b' = (Some <$> r') ++ Some 0 :: junk' ∧ 0 ∉ r' ∧ ws = line_words r' ∧ (length r' < length r)%nat
  end.
Proof.
  intros Hb H0. assert (delim 0 = false) as D0 by done.
  destruct (words_first delim r) as [[Hr ->]|(d & w & l & -> & Hd & Hne & Hw & Hl & ->)].
  - exists (p + length r)%nat. unfold strtok. rewrite Hb, span_spec by done. cbn.
    rewrite (rd_drop b (p + length r) 0 junk); [done|]. eapply drop_app_more; [done|by rewrite length_fmap].
  - rewrite !fmap_app, <- !app_assoc in Hb. pose proof Hb as Hb1. apply (drop_app_more p (length d)) in Hb1; [|by rewrite length_fmap].
    pose proof Hb1 as Hb2. apply (drop_app_more _ (length w)) in Hb2; [|by rewrite length_fmap].
    set (s := (p + length d)%nat) in *. destruct w as [|c w]; [done|].
    assert (Forall (λ x, negb (delim x || (x =? 0)) = true) (c :: w)) as Hw'.
    { rewrite Forall_forall in Hw |- *. intros x Hx. rewrite (Hw x Hx). destruct (Z.eqb_spec x 0) as [->|]; [set_solver|done]. }
    assert (delim c = false) as Hc by by inversion Hw. assert (c ≠ 0) as Hc0 by set_solver.
    assert (span delim (drop p b) = Ret (length d)) as Sd.
    { rewrite Hb. cbn [fmap list_fmap app]. by apply span_spec. }
    assert (∃ x k, (Some <$> l) ++ Some 0 :: junk = Some x :: k ∧ negb (delim x || (x =? 0)) = false) as (x & k & Ek & Hx).
    { destruct Hl as [->|(x & l' & -> & Hx)]; cbn; eexists _, _; (split; [done|]); by rewrite ?Hx. }
    assert (span (λ x, negb (delim x || (x =? 0))) (drop s b) = Ret (length (c :: w))) as Sw.
    { rewrite Hb1, Ek. by apply span_spec. }
    unfold strtok. rewrite Sd. cbn [mbind outcome_bind]. fold s.
    rewrite (rd_drop b s c _ Hb1). cbn [mbind outcome_bind]. destruct (Z.eqb_spec c 0) as [|_]; [done|].
    rewrite Sw. cbn [mbind outcome_bind]. set (e := (s + length (c :: w))%nat) in *. rewrite Ek in Hb2.
    rewrite (rd_drop b e x k Hb2). cbn [mbind outcome_bind].
    assert (p ≤ s ∧ s < e)%nat as [Hps Hse] by (subst s e; cbn; lia).
    destruct Hl as [->|(x' & l' & -> & Hx')]; cbn in Ek; injection Ek as <- <-.
    + exists s, b, e, [], junk. split_and!; try done; [|lia|set_solver|rewrite length_app; cbn; lia].
      eapply str_at_run; [exact Hb1|]. set_solver.
    + assert (x' ≠ 0) as Hx0 by (intros ->; done). destruct (Z.eqb_spec x' 0) as [|_]; [done|].
      assert (e < length b)%nat as He. { pose proof (length_drop b e) as Hn. rewrite Hb2 in Hn. cbn in Hn. lia. }
      exists s, (<[e := Some 0]> b), (S e), l', junk.
      split_and!; try done; [|lia|lia|by rewrite length_insert| | |set_solver|rewrite !length_app; cbn; lia].
      * apply (str_at_run _ _ _ ((Some <$> l') ++ Some 0 :: junk)); [|set_solver].
        rewrite drop_insert_ge by lia. rewrite Hb1. replace (e - s)%nat with (length (Some <$> c :: w) + 0)%nat.
        { by rewrite insert_app_r. } rewrite length_fmap. subst e. lia.
      * intros i Hi. rewrite list_lookup_insert_ne by lia. done.
      * rewrite drop_insert_lt by lia. rewrite <- Nat.add_1_r, <- drop_drop, Hb2. done.
Qed.

(** ** The flags *)

(** The globals after the words [ws], the first of them at [posn]. *)
Definition upd_flag (sep : list Z) (ws : list (list Z)) (old : Z) : Z :=
  match split_last sep ws with Some _ => 1 | None => old end.
Definition upd_posn (sep : list Z) (posn : Z) (ws : list (list Z)) (old : Z) : Z :=
  match split_last sep ws with Some (l, _) => posn + Z.of_nat (length l) | None => old end.
Definition flags_from (posn : Z) (ws : list (list Z)) (g : globals) : globals :=
  let c := command ws in
  Globals (if bool_decide (AMP ∈ ws) then 1 else background g)
    (upd_flag BAR c (piping g)) (upd_posn BAR posn c (pipe_posn g)) (posn + Z.of_nat (length c))
    (upd_flag LT c (left g)) (upd_flag GT c (right g))
    (upd_posn GT posn c (posn_right g)) (upd_posn LT posn c (posn_left g)).

Lemma upd_flag_cons sep w c (old : Z) :
  upd_flag sep (w :: c) old = upd_flag sep c (if bool_decide (w = sep) then 1 else old).
Proof. unfold upd_flag. cbn [split_last]. destruct (split_last sep c) as [[l r]|]; [done|]. by destruct (bool_decide _). Qed.

Lemma upd_posn_cons sep posn w c (old : Z) :
  upd_posn sep posn (w :: c) old = upd_posn sep (posn + 1) c (if bool_decide (w = sep) then posn else old).
Proof.
  unfold upd_posn. cbn [split_last]. destruct (split_last sep c) as [[l r]|]; cbn [length]; [lia|].
  destruct (bool_decide _); cbn [length]; [lia|done].
Qed.

(** What one word does to them. *)
Definition word_flags (posn : Z) (w : list Z) (g : globals) : globals :=
  let g := if bool_decide (w = BAR) then set_piping g posn else g in
  let g := if bool_decide (w = GT) then set_right g posn else g in
  if bool_decide (w = LT) then set_left g posn else g.

Lemma flags_from_word posn w ws g : w ≠ AMP →
  flags_from posn (w :: ws) g = flags_from (posn + 1) ws (word_flags posn w g).
Proof.
  intros Hw. unfold flags_from. cbn [command]. rewrite (bool_decide_eq_false_2 (w = AMP)) by done.
  rewrite !upd_flag_cons, !upd_posn_cons. cbn [length]. unfold word_flags.
  replace (bool_decide (AMP ∈ w :: ws)) with (bool_decide (AMP ∈ ws)) by (apply bool_decide_ext; set_solver).
  replace (posn + Z.of_nat (S (length (command ws)))) with (posn + 1 + Z.of_nat (length (command ws))) by lia.
  by destruct (bool_decide (w = BAR)), (bool_decide (w = GT)), (bool_decide (w = LT)).
Qed.

Lemma flags_from_end posn g : flags_from posn [] g = set_line_length g posn.
Proof. unfold flags_from, upd_flag, upd_posn. cbn. by rewrite Z.add_0_r. Qed.

Lemma flags_from_amp posn ws g : flags_from posn (AMP :: ws) g = set_line_length (set_background g) posn.
Proof.
  unfold flags_from, upd_flag, upd_posn. cbn [command]. rewrite (bool_decide_eq_true_2 (AMP = AMP)) by done.
  rewrite bool_decide_eq_true_2 by set_solver. cbn. by rewrite Z.add_0_r.
Qed.

Lemma flags_from_start ws g : flags_from 0 ws (reset_flags g) = flags_of ws g.
Proof. unfold flags_from, flags_of, upd_flag, upd_posn, flag_of, posn_of, reset_flags. cbn [background piping pipe_posn left right posn_right posn_left]. by destruct (split_last BAR _) as [[]|], (split_last GT _) as [[]|], (split_last LT _) as [[]|]. Qed.

(** ** The loop of [parse_line] *)

(** The tokens are the strings [ws], up to [NULL]. *)
Definition tokens_are (b : buf) (args : list slot) (ws : list (list Z)) : Prop :=
  ∃ ps rest, args = (Some ∘ Some <$> ps) ++ Some None :: rest ∧ Forall2 (λ p w, str_at b p = Ret w) ps ws.

Lemma store_token (done : list slot) m x : 
  arr_set (done ++ replicate m None) (Z.of_nat (length done)) x =
    match m with O => Undef | S m => Ret ((done ++ [x]) ++ replicate m None) end.
Proof.
  destruct m as [|m]; cbn [replicate].
  - unfold arr_set. rewrite app_nil_r. case_if as E; [|done]. bool_to_prop. lia.
  - rewrite arr_set_in by (rewrite length_app; cbn; lia). rewrite Nat2Z.id.
    rewrite <- (Nat.add_0_r (length done)), insert_app_r, <- app_assoc. done.
Qed.

(** The characters of a token lie before [e]. *)
Definition fixed (b b' : buf) (e : nat) : Prop := length b' = length b ∧ ∀ i, (i ≤ e)%nat → b' !! i = b !! i.

Lemma parse_loop_spec n : ∀ b save r junk dn m g fuel,
  (length r ≤ n)%nat → (length r ≤ fuel)%nat → drop save b = (Some <$> r) ++ Some 0 :: junk → 0 ∉ r →
  let c := command (line_words r) in
  let posn := Z.of_nat (length dn) in
  if (length c <? m)%nat then
    ∃ b' ps, parse_loop b save posn (dn ++ replicate m None) g fuel =
      Ret (dn ++ (Some ∘ Some <$> ps) ++ Some None :: replicate (m - S (length c)) None, b', flags_from posn (line_words r) g) ∧
      Forall2 (λ p w, str_at b' p = Ret w) ps c ∧ fixed b b' save
  else parse_loop b save posn (dn ++ replicate m None) g fuel = Undef.
Proof.
  induction n as [n IH] using lt_wf_ind; intros b save r junk dn m g fuel Hn Hfuel Hb H0 c posn; subst c posn;
    pose proof (strtok_spec b save r junk Hb H0) as Hs.
  destruct (line_words r) as [|w ws].
  - destruct Hs as [e He]. cbn [command length].
    assert (parse_loop b save (Z.of_nat (length dn)) (dn ++ replicate m None) g fuel =
      (tokens ← arr_set (dn ++ replicate m None) (Z.of_nat (length dn)) (Some None);
       Ret (tokens, b, set_line_length g (Z.of_nat (length dn))))) as -> by (destruct fuel; cbn [parse_loop]; by rewrite He).
    rewrite store_token. destruct m as [|m]; [done|]. cbn. exists b, []. rewrite Nat.sub_0_r, <- app_assoc, flags_from_end.
    split_and!; [done|constructor|done..].
  - destruct Hs as (t & b1 & e & r' & junk' & Ht & Hw & Hte & Hse & Hlen & Hfix & Hd & H0' & -> & Hlt).
    destruct fuel as [|fuel]; [lia|]. cbn [parse_loop]. rewrite Ht. cbn [mbind outcome_bind].
    rewrite !(strcmp_spec _ b1 t w) by (done || set_solver). cbn [mbind outcome_bind command].
    destruct (decide (w = AMP)) as [->|Hne].
    + rewrite (bool_decide_eq_true_2 (AMP = AMP)) by done. rewrite store_token. destruct m as [|m]; [done|]. cbn.
      exists b1, []. rewrite Nat.sub_0_r, <- app_assoc, flags_from_amp. split_and!; [done|constructor|done].
    + rewrite (bool_decide_eq_false_2 (w = AMP)) by done. rewrite store_token. destruct m as [|m]; [done|].
      change (length (w :: command (line_words r')) <? S m)%nat with (length (command (line_words r')) <? m)%nat.
      cbn [mbind outcome_bind]. fold (word_flags (Z.of_nat (length dn)) w g).
      replace (Z.of_nat (length dn) + 1) with (Z.of_nat (length (dn ++ [Some (Some t)]))) by (rewrite length_app; cbn; lia).
      pose proof (IH (length r') ltac:(lia) b1 e r' junk' (dn ++ [Some (Some t)]) m
        (word_flags (Z.of_nat (length dn)) w g) fuel ltac:(lia) ltac:(lia) Hd H0') as IHr. cbn zeta in IHr.
      destruct (length (command (line_words r')) <? m)%nat; [|exact IHr]. destruct IHr as (b2 & ps & -> & Hps & Hlen2 & Hfix2).
      exists b2, (t :: ps). rewrite flags_from_word by done. split_and!.
      * rewrite <- app_assoc. do 3 f_equal. f_equal. rewrite length_app. cbn. lia.
      * constructor; [|done]. apply (str_at_agree b1); [done| |done]. intros i Hi. apply Hfix2. lia.
      * split; [congruence|]. intros i Hi. rewrite Hfix2, Hfix by lia. done.
Qed.

(** ** [parse_line] *)
Lemma span_blanks s b : 0 ∉ s → ∃ n, span (Z.eqb 32) ((Some <$> s) ++ Some 0 :: b) = Ret n ∧
  Forall (λ c, c = 32) (take n s) ∧ (n ≤ length s)%nat.
Proof.
  intros H0. induction s as [|c s IH]; [by exists 0%nat|]. cbn [fmap list_fmap app span].
  destruct (Z.eqb_spec 32 c) as [<-|]; [|exists 0%nat; split_and!; [done|constructor|lia]].
  destruct IH as (n & -> & Hf & Hle); [set_solver|]. exists (S n). cbn. split_and!; [done|by constructor|lia].
Qed.

(** Only the blanks before the line go: the other loop starts at the end of
    the string and stops there. *)
Lemma trim_spec s junk : 0 ∉ s → ∃ n,
  string_trim ((Some <$> s) ++ Some 0 :: junk) =
    match junk with
    | [] => Undef
    | _ :: junk => Ret (n, (Some <$> s) ++ Some 0 :: Some 0 :: junk)
    end ∧ Forall (λ c, c = 32) (take n s) ∧ (n ≤ length s)%nat.
Proof.
  intros H0. destruct (span_blanks s junk H0) as (n & Es & Hf & Hle). exists n. split; [|done].
  set (b := (Some <$> s) ++ Some 0 :: junk) in *. assert (length (Some <$> s) = length s) as Hl by by rewrite length_fmap.
  unfold string_trim. rewrite (str_at_run b 0 s junk) by done. cbn [mbind outcome_bind]. rewrite Es. cbn [mbind outcome_bind].
  assert (trim_tail b (Z.of_nat (length s)) (length b) = Ret (Z.of_nat (length s))) as ->.
  { assert (arr_get b (Z.of_nat (length s)) = Ret (Some 0)) as E.
    { rewrite arr_get_nat. subst b. by rewrite lookup_app_r, Hl, Nat.sub_diag by lia. }
    destruct (length b); cbn [trim_tail]; by rewrite E. }
  cbn [mbind outcome_bind]. subst b. destruct junk as [|x junk].
  - unfold arr_set. case_if as E; [|done]. bool_to_prop. rewrite length_app, Hl in *. cbn in *. lia.
  - rewrite arr_set_in by (rewrite length_app, Hl; cbn; lia). cbn [mbind outcome_bind].
    replace (Z.to_nat (Z.of_nat (length s) + 1)) with (length (Some <$> s) + 1)%nat by lia. by rewrite insert_app_r.
Qed.

Lemma parse_line_spec s junk g : 0 ∉ s →
  let c := command (line_words s) in
  match junk with
  | [] => parse_line ((Some <$> s) ++ [Some 0]) g = Undef
  | _ :: _ =>
      if (length c <? TOK_SIZE)%nat then
        ∃ args b', parse_line ((Some <$> s) ++ Some 0 :: junk) g = Ret (args, b', flags_of (line_words s) g) ∧
          length args = TOK_SIZE ∧ tokens_are b' args c
      else parse_line ((Some <$> s) ++ Some 0 :: junk) g = Undef
  end.
Proof.
  intros H0 c. destruct (trim_spec s junk H0) as (n & Et & Hf & Hn). unfold parse_line. destruct junk as [|x junk].
  - by rewrite Et.
  - rewrite Et. cbn [mbind outcome_bind]. set (b := (Some <$> s) ++ Some 0 :: Some 0 :: junk).
    assert (line_words (drop n s) = line_words s) as Hw.
    { rewrite <- (take_drop n s) at 2. rewrite words_delims; [done|]. eapply Forall_impl; [exact Hf|]. by intros ? ->. }
    assert (drop n b = (Some <$> drop n s) ++ Some 0 :: Some 0 :: junk) as Hd.
    { subst b. rewrite drop_app_le by (rewrite length_fmap; lia). by rewrite fmap_drop. }
    pose proof (parse_loop_spec (length (drop n s)) b n (drop n s) (Some 0 :: junk) [] TOK_SIZE (reset_flags g)
      (length b) ltac:(lia)) as Hp. cbn zeta in Hp. rewrite Hw in Hp. cbn [length app] in Hp. rewrite flags_from_start in Hp.
    fold c in Hp. destruct (length c <? TOK_SIZE)%nat eqn:Ec.
    + destruct Hp as (b' & ps & E & Hps & _); [|done| |].
      * subst b. rewrite length_drop, length_app, length_fmap. cbn. lia.
      * intros Hin. apply H0. rewrite <- (take_drop n s). set_solver.
      * eexists _, b'. split; [exact E|]. split.
        { rewrite length_app, length_fmap, (Forall2_length _ _ _ Hps). cbn [length]. rewrite length_replicate.
          apply Nat.ltb_lt in Ec. lia. }
        by eexists _, _.
    + apply Hp; [|done|].
      * subst b. rewrite length_drop, length_app, length_fmap. cbn. lia.
      * intros Hin. apply H0. rewrite <- (take_drop n s). set_solver.
Qed.
