(* ===== verification/MiniShellRun.v ===== *)
(** * The mini-shell (Assignment4 [shell.c]): running a line

    The shell and the processes it forks are runs of the same code on copies of
    its state; what they ask of the system is recorded in [trace], a child's
    part at its [fork] (processes run concurrently: the order between two of
    them means nothing).  Which calls succeed is an argument, line by line. *)

From stdpp Require Import base numbers list sets.
From S2P Require Import Prelude Words MiniShell.

Open Scope Z_scope.

(** ** Descriptors *)
Inductive file := Inherited (n : nat) | Opened (path : list Z) (flags : Z) | PipeRead | PipeWrite.
Notation fdtable := (list (option file)).

(** The lowest free descriptor. *)
Fixpoint alloc_fd (fds : fdtable) (f : file) : nat * fdtable :=
  match fds with
  | [] => (0%nat, [Some f])
  | None :: fds => (0%nat, Some f :: fds)
  | Some g :: fds => let '(n, fds) := alloc_fd fds f in (S n, Some g :: fds)
  end.
Definition close_fd (fds : fdtable) (n : nat) : fdtable := <[n := None]> fds.
(** [dup2] onto a descriptor of the table. *)
Definition dup_fd (fds : fdtable) (from to_ : nat) : fdtable :=
  match fds !! from with Some (Some f) => <[to_ := Some f]> fds | _ => fds end.

Definition O_RDONLY : Z := 0.
Definition O_WRONLY : Z := 1.
Definition O_CREAT : Z := 64.
Definition O_TRUNC : Z := 512.
Definition STDIN_FILENO : nat := 0.
Definition STDOUT_FILENO : nat := 1.
Definition EXIT_FAILURE : Z := 1.
Definition EXIT_SUCCESS : Z := 0.

(** ** The system *)

(** A program that is started, with its descriptors; a wait for a child; a
    change of directory; a child that ends, or goes back to [shell_loop]. *)
Inductive event :=
  | Exec (argv : list (list Z)) (fds : fdtable) | Wait | Chdir (path : list Z) | Exit (code : Z) | Back (status : Z).

Record env := Env {
  line_ok : bool; tokens_ok : bool; left_ok : bool; right_ok : bool;
  fork_ok : bool; fork2_ok : bool; pipe_ok : bool; open_ok : bool; exec_ok : list (list Z) → bool;
  home : option (list Z); pwd_set : bool
}.

(** [chld_ignored] is set when children are reaped by the system. *)
Record shell := Shell { vars : globals; fds : fdtable; chld_ignored : bool; trace : list event }.

Definition emit (e : event) : M shell unit := fun s =>
  Ret (tt, Shell (vars s) (fds s) (chld_ignored s) (trace s ++ [e])).
Definition set_fds (f : fdtable → fdtable) : M shell unit := fun s =>
  Ret (tt, Shell (vars s) (f (fds s)) (chld_ignored s) (trace s)).
Definition ignore_chld : M shell unit := fun s => Ret (tt, Shell (vars s) (fds s) true (trace s)).
Definition set_vars (g : globals) : M shell unit := fun s => Ret (tt, Shell g (fds s) (chld_ignored s) (trace s)).

(** A child works on its own copy. *)
Definition in_child (m : M shell unit) : M shell unit := fun s =>
  '(_, s') ← m s;
  Ret (tt, Shell (vars s) (fds s) (chld_ignored s) (trace s')).

(** The loop around [waitpid].  When [SIGCHLD] is ignored, [waitpid] fails and
    leaves [status], which nothing has initialised. *)
Definition wait_child : M shell unit :=
  s ← get_st;
  if chld_ignored s then lift Undef else emit Wait.

(** ** Arguments *)
Definition slot_at (args : list slot) (i : Z) : outcome (option nat) := x ← arr_get args i; opt x.

Fixpoint read_args (b : buf) (args : list slot) : outcome (list (list Z)) :=
  match args with
  | Some None :: _ => Ret []
  | Some (Some p) :: args => w ← str_at b p; ws ← read_args b args; Ret (w :: ws)
  | _ => Undef
  end.

(** [execvp(args[0], args)]; the result says whether it returns. *)
Definition execvp (e : env) (b : buf) (args : list slot) : M shell bool :=
  argv ← lift (read_args b args);
  match argv with
  | [] => lift Undef
  | _ => s ← get_st; emit (Exec argv (fds s)) ;; mret (negb (exec_ok e argv))
  end.

(** [open] of a string that may be [NULL]; [None] is the result -1. *)
Definition open_file (e : env) (b : buf) (path : option nat) (flags : Z) : M shell (option nat) :=
  match path with
  | None => mret None
  | Some p =>
      w ← lift (str_at b p);
      if open_ok e then
        s ← get_st;
        set_fds (λ fds, snd (alloc_fd fds (Opened w flags))) ;;
        mret (Some (fst (alloc_fd (fds s) (Opened w flags))))
      else mret None
  end.

(** ** The commands that are built in *)
Inductive builtin := cd_func | help_func | exit_func | pwd_func.
Definition builtins : list (list Z * builtin) :=
  [([99; 100], cd_func); ([104; 101; 108; 112], help_func); ([101; 120; 105; 116], exit_func);
   ([112; 119; 100], pwd_func)].
Definition TILDE : list Z := [126].

Definition run_builtin (e : env) (b : buf) (args : list slot) (f : builtin) : M shell Z :=
  match f with
  | cd_func =>
      a ← lift (slot_at args 1);
      match a with
      | None => mret 1
      | Some p =>
          t ← lift (strcmp0 TILDE b p);
          if (t : bool) then
            match home e with
            | Some h => emit (Chdir h) ;; mret 1
            | None => lift Undef
            end
          else w ← lift (str_at b p); emit (Chdir w) ;; mret 1
      end
  | help_func => mret 1
  | exit_func => mret 0
  | pwd_func => mret (if pwd_set e then 1 else -1)
  end.

(** ** [redirect_write], [redirect_read] and [launch] *)

(** Both, for the flags of [open], the descriptor and the position. *)
Definition redirect (e : env) (b : buf) (args : list slot) (posn flags : Z) (fd : nat) : M shell unit :=
  path ← lift (slot_at args (posn + 1));
  args ← lift (arr_set args posn (Some None));
  r ← open_file e b path flags;
  match r with
  | None => emit (Exit EXIT_FAILURE)
  | Some n =>
      set_fds (λ fds, dup_fd fds n fd) ;;
      x ← execvp e b args;
      if (x : bool) then emit (Exit EXIT_FAILURE) else mret tt
  end.
Definition redirect_write (e : env) (b : buf) (args : list slot) : M shell unit :=
  s ← get_st;
  redirect e b args (posn_right (vars s)) (Z.lor O_CREAT (Z.lor O_WRONLY O_TRUNC)) STDOUT_FILENO.
Definition redirect_read (e : env) (b : buf) (args : list slot) : M shell unit :=
  s ← get_st;
  redirect e b args (posn_left (vars s)) (Z.lor O_CREAT O_RDONLY) STDIN_FILENO.

(** What the parent does after [fork]. *)
Definition after_fork : M shell unit :=
  s ← get_st;
  if background (vars s) =? 0 then wait_child else ignore_chld.

(** [None]: the shell exits. *)
Definition launch (e : env) (b : buf) (args : list slot) : M shell (option Z) :=
  if fork_ok e then
    in_child (
      s ← get_st;
      if right (vars s) =? 1 then redirect_write e b args
      else if left (vars s) =? 1 then redirect_read e b args
      else
        x ← execvp e b args;
        if (x : bool) then emit (Exit EXIT_FAILURE) else mret tt) ;;
    after_fork ;;
    mret (Some 1)
  else mret None.

(** ** [launch_pipe] *)

(** [cmd[j++] = args[i++]], [cnt] times, and [NULL]. *)
Fixpoint copy_cmd (args : list slot) (i : Z) (cmd : list slot) (j : Z) (cnt : nat) : outcome (list slot) :=
  match cnt with
  | O => arr_set cmd j (Some None)
  | S cnt =>
      a ← slot_at args i;
      cmd ← arr_set cmd j (Some a);
      copy_cmd args (i + 1) cmd (j + 1) cnt
  end.

(** Both children come back when their program cannot be started, and end
    the loop with the status 0. *)
Definition right_child (e : env) (b : buf) (right_cmd : list slot) (p0 p1 : nat) : M shell unit :=
  set_fds (λ fds, dup_fd fds p0 0) ;;
  set_fds (λ fds, close_fd fds p1) ;;
  x ← execvp e b right_cmd;
  if (x : bool) then emit (Back EXIT_SUCCESS) else mret tt.

(** Without a pipe the descriptors in [pipeline] are not initialised. *)
Definition left_child (e : env) (b : buf) (left_cmd right_cmd : list slot) (pipeline : option (nat * nat)) : M shell unit :=
  if fork2_ok e then
    '(p0, p1) ← lift (opt pipeline);
    in_child (right_child e b right_cmd p0 p1) ;;
    set_fds (λ fds, dup_fd fds p1 1) ;;
    set_fds (λ fds, close_fd fds p0) ;;
    x ← execvp e b left_cmd;
    if (x : bool) then emit Wait ;; emit (Back EXIT_SUCCESS) else mret tt
  else emit (Back EXIT_SUCCESS).

Definition make_pipe (e : env) : M shell (option (nat * nat)) :=
  if pipe_ok e then
    s ← get_st;
    let '(p0, fds) := alloc_fd (fds s) PipeRead in
    let '(p1, fds) := alloc_fd fds PipeWrite in
    set_fds (λ _, fds) ;;
    mret (Some (p0, p1))
  else mret None.

Definition launch_pipe (e : env) (b : buf) (args : list slot) : M shell (option Z) :=
  if left_ok e && right_ok e then
    pipeline ← make_pipe e;
    s ← get_st;
    let g := vars s in
    left_cmd ← lift (copy_cmd args 0 (replicate LINE_LENGTH None) 0 (Z.to_nat (pipe_posn g)));
    right_cmd ← lift (copy_cmd args (pipe_posn g + 1) (replicate LINE_LENGTH None) 0
      (Z.to_nat (line_length g - (pipe_posn g + 1))));
    if fork_ok e then
      in_child (left_child e b left_cmd right_cmd pipeline) ;;
      after_fork ;;
      mret (Some EXIT_SUCCESS)
    else mret (Some EXIT_SUCCESS)
  else mret None.

(** ** [execute] and [shell_loop] *)
Fixpoint find_builtin (b : buf) (p : nat) (l : list (list Z * builtin)) : outcome (option builtin) :=
  match l with
  | [] => Ret None
  | (name, f) :: l => x ← strcmp0 name b p; if (x : bool) then Ret (Some f) else find_builtin b p l
  end.

Definition execute (e : env) (b : buf) (args : list slot) : M shell (option Z) :=
  a ← lift (slot_at args 0);
  match a with
  | None => mret (Some 1)
  | Some p =>
      f ← lift (find_builtin b p builtins);
      match f with
      | Some f => r ← run_builtin e b args f; mret (Some r)
      | None =>
          s ← get_st;
          if piping (vars s) =? 1 then launch_pipe e b args else launch e b args
      end
  end.

Fixpoint shell_loop (grow : nat → nat) (es : nat → env) (k : nat) (input : list Z) (fuel : nat) : M shell unit :=
  if line_ok (es k) then
    let '(b, input) := read_line grow input in
    if tokens_ok (es k) then
      s ← get_st;
      '(args, b, g) ← lift (parse_line b (vars s));
      set_vars g ;;
      status ← execute (es k) b args;
      match status with
      | None => mret tt
      | Some status =>
          if status =? 0 then mret tt
          else match fuel with O => lift NoFuel | S fuel => shell_loop grow es (S k) input fuel end
      end
    else mret tt
  else mret tt.

Definition no_globals : globals := Globals 0 0 0 0 0 0 0 0.
(** From [main], with the descriptors and the disposition of [SIGCHLD] it was started with. *)
Definition main (grow : nat → nat) (es : nat → env) (input : list Z) (fds : fdtable) (chld : bool) : outcome (list event) :=
  '(_, s) ← shell_loop grow es 0 input (length input) (Shell no_globals fds chld []);
  Ret (trace s).

(** ** What a line asks for *)

(** A program with its arguments, standard input and standard output. *)
Inductive plan :=
  | PExec (argv : list (list Z)) (i o : file) | PWait | PChdir (path : list Z) | PExit (code : Z) | PBack (status : Z).

(** The descriptors of a program: where it reads and writes, and no other end
    of a pipe. *)
Definition wired (fds : fdtable) (i o : file) : Prop :=
  fds !! 0%nat = Some (Some i) ∧ fds !! 1%nat = Some (Some o) ∧
  ∀ n f, fds !! n = Some (Some f) → f = PipeRead ∨ f = PipeWrite → f = i ∨ f = o.

Inductive realises : event → plan → Prop :=
  | R_exec argv fds i o : wired fds i o → realises (Exec argv fds) (PExec argv i o)
  | R_wait : realises Wait PWait
  | R_chdir w : realises (Chdir w) (PChdir w)
  | R_exit c : realises (Exit c) (PExit c)
  | R_back c : realises (Back c) (PBack c).

Section plan.
Context (e : env) (i o : file).

(** A program, and what follows when it cannot be started. *)
Definition started (argv : list (list Z)) (i o : file) (fail : list plan) : outcome (list plan) :=
  match argv with
  | [] => Undef
  | _ => Ret (PExec argv i o :: if exec_ok e argv then [] else fail)
  end.

(** A program whose last redirection goes to the first of [r]. *)
Definition redirected (r : list (list Z)) (run : list Z → outcome (list plan)) : outcome (list plan) :=
  match r with
  | [] => Ret [PExit EXIT_FAILURE]
  | w :: _ => if open_ok e then run w else Ret [PExit EXIT_FAILURE]
  end.

(** One program; a redirection of the output hides those of the input. *)
Definition simple_plan (c : list (list Z)) : outcome (list plan) :=
  match split_last GT c with
  | Some (l, r) => redirected r (λ w, started l i (Opened w 577) [PExit EXIT_FAILURE])
  | None =>
      match split_last LT c with
      | Some (l, r) => redirected r (λ w, started l (Opened w 64) o [PExit EXIT_FAILURE])
      | None => started c i o [PExit EXIT_FAILURE]
      end
  end.

(** Two programs and the pipe between them. *)
Definition pipe_plan (l r : list (list Z)) : outcome (list plan) :=
  if fork2_ok e then
    if pipe_ok e then
      right ← started r PipeRead o [PBack 0];
      left ← started l i PipeWrite [PWait; PBack 0];
      Ret (right ++ left)
    else Undef
  else Ret [PBack 0].

Definition waited (bg ign : bool) : outcome (list plan) :=
  if bg then Ret [] else if ign then Undef else Ret [PWait].

(** A line, when children are reaped by the system or not; and whether they
    are from now on, [None] when the shell ends. *)
Definition line_plan (ws : list (list Z)) (ign : bool) : outcome (list plan * option bool) :=
  let bg := bool_decide (AMP ∈ ws) in
  match command ws with
  | [] => Ret ([], Some ign)
  | name :: args =>
      match snd <$> list_find (λ p, name = p.1) builtins with
      | Some (_, cd_func) =>
          match args with
          | [] => Ret ([], Some ign)
          | d :: _ =>
              if bool_decide (d = TILDE) then h ← opt (home e); Ret ([PChdir h], Some ign)
              else Ret ([PChdir d], Some ign)
          end
      | Some (_, exit_func) => Ret ([], None)
      | Some _ => Ret ([], Some ign)
      | None =>
          match split_last BAR (name :: args) with
          | Some (l, r) =>
              if left_ok e && right_ok e && fork_ok e then
                p ← pipe_plan l r;
                w ← waited bg ign;
                Ret (p ++ w, None)
              else Ret ([], None)
          | None =>
              if fork_ok e then
                p ← simple_plan (name :: args);
                w ← waited bg ign;
                Ret (p ++ w, Some (ign || bg))
              else Ret ([], None)
          end
      end
  end.
End plan.

(** The lines of the input with their newlines. *)
Fixpoint lines (input : list Z) : list (list Z) :=
  match input with
  | [] => []
  | c :: input =>
      if c =? 10 then [c] :: lines input
      else match lines input with [] => [[c]] | l :: ls => (c :: l) :: ls end
  end.

(** The line and its [NUL] must leave room in the buffer, the words and
    [NULL] must fit the array. *)
Definition fits (grow : nat → nat) (l : list Z) : bool :=
  (S (length l) <? capacity grow (S (length l)))%nat && (length (command (line_words l)) <? TOK_SIZE)%nat.

Fixpoint session (grow : nat → nat) (es : nat → env) (i o : file) (k : nat) (ign : bool) (ls : list (list Z)) : outcome (list plan) :=
  if line_ok (es k) && tokens_ok (es k) then
    match ls with
    | [] => Undef
    | l :: ls =>
        if fits grow l then
          '(p, next) ← line_plan (es k) i o (line_words l) ign;
          match next with
          | None => Ret p
          | Some ign => ps ← session grow es i o (S k) ign ls; Ret (p ++ ps)
          end
        else Undef
    end
  else Ret [].

(** ** Reading the array of tokens *)
Lemma slot_tokens ps rest n : (n ≤ length ps)%nat →
  slot_at ((Some ∘ Some <$> ps) ++ Some None :: rest) (Z.of_nat n) = Ret (ps !! n).
Proof.
  intros Hn. unfold slot_at. rewrite arr_get_nat. destruct (decide (n < length ps)%nat) as [Hlt|].
  - rewrite lookup_app_l by (by rewrite length_fmap). rewrite list_lookup_fmap.
    destruct (lookup_lt_is_Some_2 ps n Hlt) as [p ->]. done.
  - replace n with (length ps) by lia. rewrite lookup_app_r, length_fmap, Nat.sub_diag by (by rewrite length_fmap).
    rewrite (lookup_ge_None_2 ps) by lia. done.
Qed.

Lemma read_tokens b args ws : tokens_are b args ws → read_args b args = Ret ws.
Proof.
  intros (ps & rest & -> & Hps). induction Hps as [|p w ps ws Hp _ IH]; [done|]. cbn. rewrite Hp. cbn. by rewrite IH.
Qed.

(** [args[posn] = NULL] *)
Lemma cut_tokens b ps rest l w r : Forall2 (λ p w, str_at b p = Ret w) ps (l ++ w :: r) →
  ∃ args, arr_set ((Some ∘ Some <$> ps) ++ Some None :: rest) (Z.of_nat (length l)) (Some None) = Ret args ∧
    tokens_are b args l.
Proof.
  intros Hps. apply Forall2_app_inv_r in Hps as (pl & pr & Hl & Hr & ->). pose proof (Forall2_length _ _ _ Hl) as Hlen.
  destruct pr as [|p pr]; [by inversion Hr|]. rewrite fmap_app, <- app_assoc.
  rewrite arr_set_in by (rewrite length_app, length_fmap; cbn; lia). eexists. split; [done|].
  replace (Z.to_nat (Z.of_nat (length l))) with (length (Some ∘ Some <$> pl) + 0)%nat by (rewrite length_fmap; lia).
  rewrite insert_app_r. cbn. by eexists pl, _.
Qed.

Lemma copy_cmd_spec ps rest : ∀ cnt i dn m, (i + cnt ≤ length ps)%nat → (cnt < m)%nat →
  copy_cmd ((Some ∘ Some <$> ps) ++ Some None :: rest) (Z.of_nat i) (dn ++ replicate m None) (Z.of_nat (length dn)) cnt =
    Ret (dn ++ (Some ∘ Some <$> take cnt (drop i ps)) ++ Some None :: replicate (m - S cnt) None).
Proof.
  induction cnt as [|cnt IH]; intros i dn m Hi Hm; destruct m as [|m]; try lia; cbn [copy_cmd].
  - rewrite store_token, <- app_assoc. replace (S m - 1)%nat with m by lia. done.
  - rewrite slot_tokens by lia. cbn [mbind outcome_bind]. rewrite store_token. cbn [mbind outcome_bind].
    replace (Z.of_nat i + 1) with (Z.of_nat (S i)) by lia.
    replace (Z.of_nat (length dn) + 1) with (Z.of_nat (length (dn ++ [Some (ps !! i)]))) by (rewrite length_app; cbn; lia).
    rewrite IH by lia. destruct (lookup_lt_is_Some_2 ps i) as [p Hp]; [lia|]. rewrite Hp.
    rewrite (drop_S ps p i Hp), <- app_assoc. done.
Qed.

(** The words before and after a position, copied to an array. *)
Lemma copy_words b ps rest cnt i ws : Forall2 (λ p w, str_at b p = Ret w) ps ws → (i + cnt ≤ length ws)%nat →
  (cnt < LINE_LENGTH)%nat → ∃ cmd,
  copy_cmd ((Some ∘ Some <$> ps) ++ Some None :: rest) (Z.of_nat i) (replicate LINE_LENGTH None) 0 cnt = Ret cmd ∧
    tokens_are b cmd (take cnt (drop i ws)).
Proof.
  intros Hps Hi Hc. eexists. split.
  - apply (copy_cmd_spec ps rest cnt i [] LINE_LENGTH); [|done]. by rewrite (Forall2_length _ _ _ Hps).
  - eexists _, _. split; [done|]. by apply Forall2_take, Forall2_drop.
Qed.

Lemma split_last_app sep ws l r : split_last sep ws = Some (l, r) → ws = l ++ sep :: r.
Proof.
  revert l. induction ws as [|w ws IH]; intros l; [done|]. cbn. destruct (split_last sep ws) as [[l' r']|].
  - intros [= <- ->]. cbn. f_equal. by apply IH.
  - case_bool_decide; [|done]. by intros [= <- <-]; subst.
Qed.

(** ** Descriptors *)
Definition no_pipe (fds : fdtable) : Prop := ∀ n f, fds !! n = Some (Some f) → f ≠ PipeRead ∧ f ≠ PipeWrite.

Lemma alloc_fd_spec fds f : let '(n, fds') := alloc_fd fds f in
  (fds !! n = None ∨ fds !! n = Some None) ∧ fds' !! n = Some (Some f) ∧ (n < length fds')%nat ∧
  (∀ m g, fds' !! m = Some (Some g) → m = n ∨ fds !! m = Some (Some g)) ∧
  (∀ m g, fds !! m = Some (Some g) → m ≠ n ∧ fds' !! m = Some (Some g)).
Proof.
  induction fds as [|[g|] fds IH]; cbn [alloc_fd].
  - split_and!; [by left|done|cbn; lia| |done]. intros [|m] g; cbn; [auto|]. done.
  - destruct (alloc_fd fds f) as [n fds']. destruct IH as (H1 & H2 & H3 & H4 & H5). split_and!; [done|done|cbn; lia| |].
    + intros [|m] g' Hg'; [by right|]. destruct (H4 m g' Hg') as [->|H6]; [by left|by right].
    + intros [|m] g' Hg'; [done|]. destruct (H5 m g' Hg') as [H6 H7]. split; [congruence|done].
  - split_and!; [by right|done|cbn; lia| |].
    + intros [|m] g; cbn; auto.
    + intros [|m] g; cbn; [done|]. auto.
Qed.

Lemma alloc_fd_eq fds f n fds' : alloc_fd fds f = (n, fds') →
  fds' !! n = Some (Some f) ∧
  (∀ m g, fds' !! m = Some (Some g) → m = n ∨ fds !! m = Some (Some g)) ∧
  (∀ m g, fds !! m = Some (Some g) → m ≠ n ∧ fds' !! m = Some (Some g)).
Proof. intros E. pose proof (alloc_fd_spec fds f) as H. rewrite E in H. tauto. Qed.

(** An opened file becomes the input or the output. *)
Lemma wired_redirect fds i o w flags n fds' fd : no_pipe fds → fds !! 0%nat = Some (Some i) → fds !! 1%nat = Some (Some o) →
  alloc_fd fds (Opened w flags) = (n, fds') →
  (fd = 0%nat → wired (dup_fd fds' n fd) (Opened w flags) o) ∧ (fd = 1%nat → wired (dup_fd fds' n fd) i (Opened w flags)).
Proof.
  intros Hp Hi Ho (Hn & Hold & Hnew)%alloc_fd_eq. unfold dup_fd. rewrite Hn.
  destruct (Hnew _ _ Hi) as [Ni Hi'], (Hnew _ _ Ho) as [No Ho'].
  assert (∀ m f, fd = m → <[fd := Some (Opened w flags)]> fds' !! m = Some (Some f) → f = Opened w flags) as Hsame.
  { intros m f <- E. rewrite list_lookup_insert in E. case_decide as Hd; [congruence|].
    destruct Hd. split; [done|]. by eapply lookup_lt_Some. }
  assert (∀ m f, <[fd := Some (Opened w flags)]> fds' !! m = Some (Some f) → ¬ (f = PipeRead ∨ f = PipeWrite)) as Hno.
  { intros m f E Hf. destruct (decide (fd = m)) as [Heq|Hne].
    - pose proof (Hsame m f Heq E) as ->. by destruct Hf.
    - rewrite list_lookup_insert_ne in E by done. destruct (Hold m f E) as [->|E1].
      + rewrite Hn in E. injection E as <-. by destruct Hf.
      + destruct (Hp m f E1) as [H1 H2]. tauto. }
  split; intros ->; split_and!.
  - apply list_lookup_insert_eq. by eapply lookup_lt_Some.
  - by rewrite list_lookup_insert_ne.
  - intros m f E Hf. destruct (Hno m f E Hf).
  - by rewrite list_lookup_insert_ne.
  - apply list_lookup_insert_eq. by eapply lookup_lt_Some.
  - intros m f E Hf. destruct (Hno m f E Hf).
Qed.

(** The two sides of a pipe keep their own end only. *)
Lemma wired_pipe fds i o p0 f1 p1 f2 : no_pipe fds → fds !! 0%nat = Some (Some i) → fds !! 1%nat = Some (Some o) →
  alloc_fd fds PipeRead = (p0, f1) → alloc_fd f1 PipeWrite = (p1, f2) →
  wired (close_fd (dup_fd f2 p0 0) p1) PipeRead o ∧ wired (close_fd (dup_fd f2 p1 1) p0) i PipeWrite.
Proof.
  intros Hp Hi Ho (Hp0 & Hold1 & Hnew1)%alloc_fd_eq (Hp1 & Hold2 & Hnew2)%alloc_fd_eq.
  destruct (Hnew1 _ _ Hi) as [Ni Hi1], (Hnew1 _ _ Ho) as [No Ho1], (Hnew2 _ _ Hi1) as [Mi Hi2], (Hnew2 _ _ Ho1) as [Mo Ho2].
  destruct (Hnew2 _ _ Hp0) as [H01 Hp0']. unfold dup_fd, close_fd. rewrite Hp0', Hp1.
  assert (∀ m f, f2 !! m = Some (Some f) → f = PipeRead ∨ f = PipeWrite → m = p0 ∨ m = p1) as Hends.
  { intros m f E Hf. destruct (Hold2 m f E) as [->|E1]; [by right|]. destruct (Hold1 m f E1) as [->|E2]; [by left|].
    destruct (Hp m f E2). tauto. }
  assert (0 < length f2 ∧ 1 < length f2)%nat as [L0 L1] by eauto using lookup_lt_Some.
  split; split_and!.
  - rewrite list_lookup_insert_ne by done. by apply list_lookup_insert_eq.
  - by rewrite !list_lookup_insert_ne.
  - intros m f E Hf. destruct (decide (m = p1)) as [->|N1].
    { rewrite list_lookup_insert in E. case_decide as Hd; [done|]. destruct Hd. split; [done|]. by eapply lookup_lt_Some. }
    rewrite list_lookup_insert_ne in E by done. destruct (decide (m = 0%nat)) as [->|N0].
    { rewrite list_lookup_insert_eq in E by done. left. congruence. }
    rewrite list_lookup_insert_ne in E by done. destruct (Hends m f E Hf) as [->|]; [|done]. left. congruence.
  - rewrite !list_lookup_insert_ne by done. done.
  - rewrite list_lookup_insert_ne by done. by apply list_lookup_insert_eq.
  - intros m f E Hf. destruct (decide (m = p0)) as [->|N1].
    { rewrite list_lookup_insert in E. case_decide as Hd; [done|]. destruct Hd. split; [done|]. by eapply lookup_lt_Some. }
    rewrite list_lookup_insert_ne in E by done. destruct (decide (m = 1%nat)) as [->|N0].
    { rewrite list_lookup_insert_eq in E by done. right. congruence. }
    rewrite list_lookup_insert_ne in E by done. destruct (Hends m f E Hf) as [| ->]; [done|]. right. congruence.
Qed.

(** ** Runs and plans *)
Definition log (s : shell) (evs : list event) : shell := Shell (vars s) (fds s) (chld_ignored s) (trace s ++ evs).

(** What a process does from [s] on is the plan. *)
Definition acts (m : M shell unit) (s : shell) (p : outcome (list plan)) : Prop :=
  match p with
  | Ret ps => ∃ s' evs, m s = Ret (tt, s') ∧ trace s' = trace s ++ evs ∧ Forall2 realises evs ps
  | Undef => m s = Undef
  | _ => False
  end.

Lemma acts_emit ev p s : realises ev p → acts (emit ev) s (Ret [p]).
Proof. intros Hr. eexists _, [ev]. split; [done|]. split; [done|]. by repeat constructor. Qed.

Lemma acts_nil s : acts (mret tt) s (Ret []).
Proof. exists s, []. split; [done|]. by rewrite app_nil_r. Qed.

Lemma acts_seq m k s ps qs : acts m s (Ret ps) → (∀ s', acts k s' (Ret qs)) → acts (m ;; k) s (Ret (ps ++ qs)).
Proof.
  intros (s1 & e1 & E1 & T1 & R1) Hk. destruct (Hk s1) as (s2 & e2 & E2 & T2 & R2).
  exists s2, (e1 ++ e2). erewrite M_bind_run by done. cbn beta. split; [done|].
  rewrite T2, T1, app_assoc. split; [done|]. by apply Forall2_app.
Qed.

Lemma acts_started e b args argv fail failp s i o : read_args b args = Ret argv → wired (fds s) i o →
  (∀ s, acts fail s (Ret failp)) →
  acts (x ← execvp e b args; if (x : bool) then fail else mret tt) s (started e argv i o failp).
Proof.
  intros Ha Hw Hf. unfold started, execvp, lift. rewrite Ha. destruct argv as [|a argv]; [done|].
  assert (acts (emit (Exec (a :: argv) (fds s))) s (Ret [PExec (a :: argv) i o])) as Hx by by apply acts_emit, R_exec.
  assert (∀ s', acts (if negb (exec_ok e (a :: argv)) then fail else mret tt) s'
    (Ret (if exec_ok e (a :: argv) then [] else failp))) as Hk.
  { intros s'. destruct (exec_ok e (a :: argv)); cbn [negb]; [apply acts_nil|apply Hf]. }
  exact (acts_seq _ _ _ _ _ Hx Hk).
Qed.

Lemma lift_bind {A B} (o : outcome A) (a : A) (f : A → M shell B) s : o = Ret a → (lift o ≫= f) s = f a s.
Proof. by intros ->. Qed.

Lemma acts_ext m m' s p : m s = m' s → acts m' s p → acts m s p.
Proof. unfold acts. by intros ->. Qed.

(** The same from a state with other descriptors. *)
Lemma acts_from m m' s s' p : m s = m' s' → trace s' = trace s → acts m' s' p → acts m s p.
Proof. unfold acts. intros -> Ht. by rewrite Ht. Qed.

Lemma redirect_spec e b ps rest l w r s i o flags fd :
  Forall2 (λ p w, str_at b p = Ret w) ps (l ++ w :: r) →
  no_pipe (fds s) → fds s !! 0%nat = Some (Some i) → fds s !! 1%nat = Some (Some o) → fd = 0%nat ∨ fd = 1%nat →
  acts (redirect e b ((Some ∘ Some <$> ps) ++ Some None :: rest) (Z.of_nat (length l)) flags fd) s
    (redirected e r (λ w, started e l (if decide (fd = 0%nat) then Opened w flags else i)
      (if decide (fd = 0%nat) then o else Opened w flags) [PExit EXIT_FAILURE])).
Proof.
  intros Hps Hp Hi Ho Hfd. pose proof (Forall2_length _ _ _ Hps) as Hlen. rewrite length_app in Hlen. cbn in Hlen.
  destruct (cut_tokens b ps rest l w r Hps) as (args & Ea & Ha).
  assert (∀ s, acts (emit (Exit EXIT_FAILURE)) s (Ret [PExit EXIT_FAILURE])) as Hexit by (intros; by apply acts_emit, R_exit).
  unfold redirect. replace (Z.of_nat (length l) + 1) with (Z.of_nat (S (length l))) by lia.
  eapply acts_ext; [rewrite (lift_bind _ _ _ _ (slot_tokens ps rest (S (length l)) ltac:(lia)));
    rewrite (lift_bind _ _ _ _ Ea); reflexivity|].
  destruct r as [|w' r]; cbn [redirected].
  - rewrite (lookup_ge_None_2 ps) by (cbn in *; lia). apply Hexit.
  - apply Forall2_app_inv_r in Hps as (pl & pr & Hl & Hr & ->). destruct pr as [|p [|p' pr]];
      [by inversion Hr|inversion_clear Hr as [|? ? ? ? _ Hr1]; by inversion Hr1|].
    rewrite lookup_app_r, <- (Forall2_length _ _ _ Hl) by (rewrite <- (Forall2_length _ _ _ Hl); lia).
    rewrite Nat.sub_succ_l, Nat.sub_diag by lia. cbn [lookup list_lookup]. inversion_clear Hr as [|? ? ? ? _ Hr1].
    inversion_clear Hr1 as [|? ? ? ? Hp' _]. cbn [open_file].
    destruct (open_ok e); [|eapply acts_ext; [unfold open_file; by rewrite (M_bind_run _ _ _ None s) by (unfold lift; by rewrite Hp')|apply Hexit]].
    destruct (alloc_fd (fds s) (Opened w' flags)) as [n fds'] eqn:Ef.
    pose proof (wired_redirect _ _ _ _ _ _ _ fd Hp Hi Ho Ef) as [W0 W1].
    apply (acts_from _ (x ← execvp e b args; if (x : bool) then emit (Exit EXIT_FAILURE) else mret tt) _
      (Shell (vars s) (dup_fd fds' n fd) (chld_ignored s) (trace s))).
    + rewrite (M_bind_run _ _ _ (Some n) (Shell (vars s) fds' (chld_ignored s) (trace s))); [done|].
      unfold lift. rewrite Hp'. unfold mbind, M_bind, get_st, set_fds. cbn. by rewrite Ef.
    + done.
    + apply acts_started; [by apply read_tokens| |done]. destruct Hfd as [-> | ->]; cbn [fds]; [by apply W0|by apply W1].
Qed.

(** ** Launching a program *)

(** The state in which a line is executed. *)
Definition ready (s : shell) (b : buf) (args : list slot) (ws : list (list Z)) (i o : file) : Prop :=
  (∃ g, vars s = flags_of ws g) ∧ tokens_are b args (command ws) ∧ (length (command ws) < TOK_SIZE)%nat ∧
  no_pipe (fds s) ∧ fds s !! 0%nat = Some (Some i) ∧ fds s !! 1%nat = Some (Some o).

Definition launched (e : env) (b : buf) (args : list slot) : M shell unit :=
  s ← get_st;
  if right (vars s) =? 1 then redirect_write e b args
  else if left (vars s) =? 1 then redirect_read e b args
  else
    x ← execvp e b args;
    if (x : bool) then emit (Exit EXIT_FAILURE) else mret tt.

Lemma no_pipe_wired s i o : no_pipe (fds s) → fds s !! 0%nat = Some (Some i) → fds s !! 1%nat = Some (Some o) →
  wired (fds s) i o.
Proof. intros Hp Hi Ho. split_and!; [done..|]. intros n f Hf [-> | ->]; by destruct (Hp n _ Hf). Qed.

Lemma launched_spec e s b args ws i o : ready s b args ws i o →
  acts (launched e b args) s (simple_plan e i o (command ws)).
Proof.
  intros ((g & Hg) & Ht & Hlen & Hp & Hi & Ho). unfold simple_plan.
  set (c := command ws) in *. destruct Ht as (ps & rest & -> & Hps).
  assert (right (vars s) = flag_of GT c) as Er by by rewrite Hg. assert (left (vars s) = flag_of LT c) as El by by rewrite Hg.
  assert (posn_right (vars s) = posn_of GT c (posn_right g)) as Epr by by rewrite Hg.
  assert (posn_left (vars s) = posn_of LT c (posn_left g)) as Epl by by rewrite Hg.
  eapply acts_ext; [unfold launched; erewrite (M_bind_run get_st) by reflexivity; cbn beta; rewrite Er, El; reflexivity|].
  unfold flag_of, posn_of in *. destruct (split_last GT c) as [[l r]|] eqn:Eg.
  - apply split_last_app in Eg. rewrite Eg in Hps. eapply acts_ext; [reflexivity|]. cbn.
    eapply acts_ext; [unfold redirect_write; erewrite (M_bind_run get_st) by reflexivity; cbn beta; rewrite Epr; reflexivity|].
    apply (redirect_spec e b ps rest l GT r s i o 577 1 Hps Hp Hi Ho). by right.
  - destruct (split_last LT c) as [[l r]|] eqn:Ell; cbn.
    + apply split_last_app in Ell. rewrite Ell in Hps.
      eapply acts_ext; [unfold redirect_read; erewrite (M_bind_run get_st) by reflexivity; cbn beta; rewrite Epl; reflexivity|].
      apply (redirect_spec e b ps rest l LT r s i o 64 0 Hps Hp Hi Ho). by left.
    + apply acts_started; [apply read_tokens; by eexists _, _|by apply no_pipe_wired|]. intros. by apply acts_emit, R_exit.
Qed.

(** ** A pipe *)
Lemma acts_run m s ps : acts m s (Ret ps) →
  ∃ evs, in_child m s = Ret (tt, log s evs) ∧ Forall2 realises evs ps.
Proof.
  intros (s' & evs & E & T & R). exists evs. split; [|done]. unfold in_child. rewrite E. cbn. by rewrite T.
Qed.

Lemma acts_undef m s : acts m s Undef → in_child m s = Undef.
Proof. unfold acts, in_child. by intros ->. Qed.

Lemma started_ret e argv i o fail : started e argv i o fail = Undef ∨ ∃ ps, started e argv i o fail = Ret ps.
Proof. destruct argv; [by left|right]. by eexists. Qed.

Lemma left_child_spec e b left_cmd right_cmd l r s i o pipeline :
  tokens_are b left_cmd l → tokens_are b right_cmd r →
  (pipe_ok e = true → ∃ p0 p1, pipeline = Some (p0, p1) ∧
    wired (close_fd (dup_fd (fds s) p0 0) p1) PipeRead o ∧ wired (close_fd (dup_fd (fds s) p1 1) p0) i PipeWrite) →
  (pipe_ok e = false → pipeline = None) →
  acts (left_child e b left_cmd right_cmd pipeline) s (pipe_plan e i o l r).
Proof.
  intros Hl Hr Hok Hbad. unfold left_child, pipe_plan. destruct (fork2_ok e); [|by apply acts_emit, R_back].
  destruct (pipe_ok e); [|by rewrite (Hbad eq_refl)]. destruct (Hok eq_refl) as (p0 & p1 & -> & W0 & W1).
  assert (acts (right_child e b right_cmd p0 p1) s (started e r PipeRead o [PBack 0])) as Hright.
  { apply (acts_from _ (x ← execvp e b right_cmd; if (x : bool) then emit (Back EXIT_SUCCESS) else mret tt) _
      (Shell (vars s) (close_fd (dup_fd (fds s) p0 0) p1) (chld_ignored s) (trace s))); [done..|].
    apply acts_started; [by apply read_tokens|done|]. intros. by apply acts_emit, R_back. }
  eapply acts_ext; [apply (lift_bind (opt (Some (p0, p1)))); reflexivity|cbn beta iota].
  destruct (started_ret e r PipeRead o [PBack 0]) as [E|[pr E]]; rewrite E in Hright |- *; cbn [mbind outcome_bind].
  { unfold acts. unfold mbind at 1, M_bind at 1. by rewrite (acts_undef _ _ Hright). }
  destruct (acts_run _ _ _ Hright) as (e1 & E1 & R1).
  assert (acts (x ← execvp e b left_cmd; if (x : bool) then emit Wait ;; emit (Back EXIT_SUCCESS) else mret tt)
    (Shell (vars s) (close_fd (dup_fd (fds s) p1 1) p0) (chld_ignored s) (trace s ++ e1))
    (started e l i PipeWrite [PWait; PBack 0])) as Hleft.
  { apply acts_started; [by apply read_tokens|done|]. intros s'.
    apply (acts_seq _ _ _ [PWait] [PBack 0]); intros; apply acts_emit; constructor. }
  destruct (started_ret e l i PipeWrite [PWait; PBack 0]) as [E2|[pl E2]]; rewrite E2 in Hleft |- *; cbn [mbind outcome_bind acts] in *.
  - erewrite M_bind_run by done. exact Hleft.
  - destruct Hleft as (s2 & e2 & H2 & T2 & R2). exists s2, (e1 ++ e2). split_and!.
    + erewrite M_bind_run by done. exact H2.
    + rewrite T2. cbn [trace]. by rewrite app_assoc.
    + by apply Forall2_app.
Qed.

(** ** Forking, and waiting for the child *)

(** A line: what happens, and how the shell goes on. *)
Definition line_acts (m : M shell (option Z)) (s : shell) (p : outcome (list plan * option bool)) : Prop :=
  match p with
  | Ret (ps, next) => ∃ r s' evs, m s = Ret (r, s') ∧ trace s' = trace s ++ evs ∧ Forall2 realises evs ps ∧
      match next with
      | Some ign => (∃ v, r = Some v ∧ v ≠ 0) ∧ fds s' = fds s ∧ chld_ignored s' = ign
      | None => r = None ∨ r = Some 0
      end
  | Undef => m s = Undef
  | _ => False
  end.

Lemma forked_spec m s p (bg : bool) v : acts m s p → background (vars s) = (if bg then 1 else 0) →
  line_acts (in_child m ;; after_fork ;; mret (Some v)) s
    (p ← p; w ← waited bg (chld_ignored s); Ret (p ++ w, if v =? 0 then None else Some (chld_ignored s || bg))).
Proof.
  intros Hm Hbg. destruct p as [ps| | |]; cbn [mbind outcome_bind]; [|done| |done].
  - destruct (acts_run _ _ _ Hm) as (evs & E & R). destruct s as [vs fs ign t]. cbn [vars fds chld_ignored trace] in *.
    assert (∀ ign t, match (if v =? 0 then None else Some ign) with
      | Some ign' => (∃ v', Some v = Some v' ∧ v' ≠ 0) ∧ fds (Shell vs fs ign t) = fs ∧ chld_ignored (Shell vs fs ign t) = ign'
      | None => Some v = None ∨ Some v = Some 0 end) as Hnext.
    { intros ign0 t0. destruct (Z.eqb_spec v 0) as [->|]; [by right|]. split_and!; eauto. }
    assert ((in_child m ;; after_fork ;; mret (Some v)) (Shell vs fs ign t) =
      ((if bg then ignore_chld else if ign then lift Undef else emit Wait) ;; mret (Some v)) (Shell vs fs ign (t ++ evs))) as Erun.
    { erewrite M_bind_run by exact E. unfold after_fork, wait_child, mbind, M_bind, get_st, log. cbn. rewrite Hbg. by destruct bg, ign. }
    unfold waited. destruct bg; [|destruct ign]; cbn [mbind outcome_bind line_acts].
    + rewrite orb_true_r. eexists _, _, evs. split; [exact Erun|]. rewrite app_nil_r. split_and!; [done|done|apply Hnext].
    + exact Erun.
    + eexists _, _, (evs ++ [Wait]). split; [exact Erun|]. split; [cbn; by rewrite <- app_assoc|].
      split; [|apply Hnext]. apply Forall2_app; [done|]. repeat constructor.
  - cbn. unfold mbind at 1, M_bind at 1. by rewrite (acts_undef _ _ Hm).
Qed.

Lemma launch_spec e b args ws s i o : ready s b args ws i o →
  line_acts (launch e b args) s
    (if fork_ok e then
       p ← simple_plan e i o (command ws);
       w ← waited (bool_decide (AMP ∈ ws)) (chld_ignored s);
       Ret (p ++ w, Some (chld_ignored s || bool_decide (AMP ∈ ws)))
     else Ret ([], None)).
Proof.
  intros Hr. unfold launch. fold (launched e b args). destruct (fork_ok e).
  - apply (forked_spec (launched e b args) s _ (bool_decide (AMP ∈ ws)) 1); [by apply launched_spec|].
    destruct Hr as ((g & ->) & _). cbn. by destruct (bool_decide _).
  - exists None, s, []. rewrite app_nil_r. split_and!; auto.
Qed.

(** The state with the two ends of the pipe. *)
Lemma make_pipe_spec e s i o : no_pipe (fds s) → fds s !! 0%nat = Some (Some i) → fds s !! 1%nat = Some (Some o) →
  ∃ s' pipeline, make_pipe e s = Ret (pipeline, s') ∧ vars s' = vars s ∧ chld_ignored s' = chld_ignored s ∧ trace s' = trace s ∧
    (pipe_ok e = true → ∃ p0 p1, pipeline = Some (p0, p1) ∧
      wired (close_fd (dup_fd (fds s') p0 0) p1) PipeRead o ∧ wired (close_fd (dup_fd (fds s') p1 1) p0) i PipeWrite) ∧
    (pipe_ok e = false → pipeline = None).
Proof.
  intros Hp Hi Ho. unfold make_pipe. destruct (pipe_ok e); [|by exists s, None].
  destruct (alloc_fd (fds s) PipeRead) as [p0 f1] eqn:E0. destruct (alloc_fd f1 PipeWrite) as [p1 f2] eqn:E1.
  exists (Shell (vars s) f2 (chld_ignored s) (trace s)), (Some (p0, p1)). split.
  - unfold mbind, M_bind, get_st. cbn. by rewrite E0, E1.
  - split_and!; [done..| |done]. intros _. exists p0, p1. split; [done|]. by apply (wired_pipe (fds s) i o p0 f1 p1 f2).
Qed.

Lemma line_acts_ext m m' s p : m s = m' s → line_acts m' s p → line_acts m s p.
Proof. unfold line_acts. by intros ->. Qed.

Lemma line_acts_from m m' s s' ps p : m s = m' s' → trace s' = trace s → 
  line_acts m' s' p → (p = Undef ∨ p = Ret (ps, None)) → line_acts m s p.
Proof.
  unfold line_acts. intros -> Ht Hm [-> | ->]; [done|]. destruct Hm as (r & s2 & evs & E & T & R & Hn).
  exists r, s2, evs. rewrite T, Ht. auto.
Qed.

Lemma launch_pipe_spec e b args ws s i o l r : ready s b args ws i o → split_last BAR (command ws) = Some (l, r) →
  line_acts (launch_pipe e b args) s
    (if left_ok e && right_ok e && fork_ok e then
       p ← pipe_plan e i o l r;
       w ← waited (bool_decide (AMP ∈ ws)) (chld_ignored s);
       Ret (p ++ w, None)
     else Ret ([], None)).
Proof.
  intros ((g & Hg) & (ps & rest & -> & Hps) & Hlen & Hp & Hi & Ho) Hs. unfold launch_pipe.
  destruct (left_ok e && right_ok e); cbn [andb];
    [|exists None, s, []; rewrite app_nil_r; split_and!; auto].
  destruct (make_pipe_spec e s i o Hp Hi Ho) as (s' & pl & Em & Ev & Ec & Et & Hok & Hbad).
  pose proof (split_last_app _ _ _ _ Hs) as Hc. assert (length (command ws) = length l + S (length r))%nat as Hlc.
  { rewrite Hc, length_app. done. }
  destruct (copy_words b ps rest (length l) 0 _ Hps) as (lc & El & Hl); [lia|unfold TOK_SIZE, LINE_LENGTH in *; lia|].
  destruct (copy_words b ps rest (length r) (S (length l)) _ Hps) as (rc & Er & Hr); [lia|unfold TOK_SIZE, LINE_LENGTH in *; lia|].
  rewrite Hc in Hl, Hr. rewrite drop_0, take_app_length in Hl.
  replace (S (length l)) with (length l + 1)%nat in Hr by lia. rewrite <- drop_drop, drop_app_length in Hr.
  change (drop 1 (BAR :: r)) with r in Hr. rewrite firstn_all in Hr.
  assert (pipe_posn (vars s') = Z.of_nat (length l)) as Hpp by (rewrite Ev, Hg; cbn; unfold posn_of; by rewrite Hs).
  assert (line_length (vars s') = Z.of_nat (length l + S (length r))) as Hll by (rewrite Ev, Hg; cbn; by rewrite Hlc).
  match goal with |- line_acts ?m s ?p => set (mm := m); set (pp := p) end.
  assert (mm s = ((if fork_ok e then
      in_child (left_child e b lc rc pl) ;; after_fork ;; mret (Some EXIT_SUCCESS)
    else mret (Some EXIT_SUCCESS)) : M shell (option Z)) s') as Emm.
  { subst mm. erewrite M_bind_run by exact Em. cbn beta. erewrite (M_bind_run get_st) by reflexivity. cbn beta zeta.
    rewrite Hpp, Hll, Nat2Z.id. rewrite (lift_bind _ lc) by exact El.
    replace (Z.of_nat (length l) + 1) with (Z.of_nat (S (length l))) by lia.
    replace (Z.to_nat (Z.of_nat (length l + S (length r)) - Z.of_nat (S (length l)))) with (length r) by lia.
    by rewrite (lift_bind _ rc) by exact Er. }
  destruct (fork_ok e) eqn:Ef; subst pp; cbn [andb].
  - pose proof (left_child_spec e b lc rc l r s' i o pl Hl Hr Hok Hbad) as Hk.
    apply (forked_spec _ _ _ (bool_decide (AMP ∈ ws)) 0) in Hk; [|rewrite Ev, Hg; cbn; by destruct (bool_decide _)].
    rewrite Ec in Hk. cbn [Z.eqb] in Hk.
    destruct (pipe_plan e i o l r) as [ps1| | |] eqn:Ep; cbn [mbind outcome_bind] in Hk |- *; [|done| |done].
    + destruct (waited _ _) as [w| | |] eqn:Ew; cbn [mbind outcome_bind] in Hk |- *; [|done| |done].
      * eapply line_acts_from; [exact Emm|exact Et|exact Hk|by right].
      * eapply (line_acts_from _ _ _ _ []); [exact Emm|exact Et|exact Hk|by left].
    + eapply (line_acts_from _ _ _ _ []); [exact Emm|exact Et|exact Hk|by left].
  - exists (Some 0), s', []. rewrite app_nil_r. split_and!; [exact Emm|done|constructor|by right].
Qed.

(** ** A line *)
Lemma find_builtin_spec b p w l : str_at b p = Ret w → (∀ n f, (n, f) ∈ l → 0 ∉ n) →
  find_builtin b p l = Ret (snd ∘ snd <$> list_find (λ x, w = x.1) l).
Proof.
  intros Hw. induction l as [|[n f] l IH]; intros Hl; [done|]. cbn [find_builtin list_find fst].
  rewrite (strcmp_spec n b p w) by (done || (eapply Hl; left)). cbn [mbind outcome_bind].
  destruct (decide (w = n)) as [->|Hne].
  - by rewrite bool_decide_eq_true_2.
  - rewrite bool_decide_eq_false_2 by done. rewrite IH by (intros ???; eapply Hl; by right).
    by destruct (list_find _ l) as [[k [n' f']]|].
Qed.

Lemma builtin_names n f : (n, f) ∈ builtins → 0 ∉ n.
Proof.
  intros Hin. assert (Forall (λ x : list Z * builtin, 0 ∉ x.1) builtins) as Hall by (repeat constructor; cbn; set_solver).
  exact (proj1 (Forall_forall _ _) Hall (n, f) Hin).
Qed.

(** [cd] of the directory given, or of the home directory. *)
Lemma cd_spec e b p ps rest ags s : Forall2 (λ p w, str_at b p = Ret w) ps ags →
  line_acts (r ← run_builtin e b ((Some ∘ Some <$> p :: ps) ++ Some None :: rest) cd_func; mret (Some r)) s
    (match ags with
     | [] => Ret ([], Some (chld_ignored s))
     | d :: _ =>
         if bool_decide (d = TILDE) then h ← opt (home e); Ret ([PChdir h], Some (chld_ignored s))
         else Ret ([PChdir d], Some (chld_ignored s))
     end).
Proof.
  intros Hags. set (args := (Some ∘ Some <$> p :: ps) ++ Some None :: rest). cbn [run_builtin].
  assert (slot_at args 1 = Ret (ps !! 0%nat)) as E1 by (apply (slot_tokens (p :: ps) rest 1); cbn; lia).
  assert (∀ h, line_acts (λ s, Ret (Some 1, log s [Chdir h])) s (Ret ([PChdir h], Some (chld_ignored s)))) as Hcd.
  { intros h. eexists _, _, [Chdir h]. split_and!; [done|done|repeat constructor| |done..]. by exists 1. }
  inversion Hags as [|q d ps' ags' Hq _]; subst.
  - exists (Some 1), s, []. rewrite app_nil_r. unfold mbind at 1, M_bind at 1. rewrite (lift_bind _ None) by done. split_and!; eauto.
  - case_bool_decide as Hd.
    + assert (strcmp0 TILDE b q = Ret true) as Et.
      { rewrite (strcmp_spec _ _ _ d) by (done || set_solver). by rewrite bool_decide_eq_true_2. }
      destruct (home e) as [h|]; cbn [opt mbind outcome_bind].
      * eapply line_acts_ext; [|apply Hcd]. unfold mbind at 1, M_bind at 1. rewrite (lift_bind _ (Some q)) by done.
        by rewrite (lift_bind _ true).
      * unfold line_acts. unfold mbind at 1, M_bind at 1. rewrite (lift_bind _ (Some q)) by done. by rewrite (lift_bind _ true).
    + eapply line_acts_ext; [|apply Hcd]. unfold mbind at 1, M_bind at 1. rewrite (lift_bind _ (Some q)) by done.
      rewrite (lift_bind _ false) by (rewrite (strcmp_spec _ _ _ d) by (done || set_solver); by rewrite bool_decide_eq_false_2).
      by rewrite (lift_bind _ d).
Qed.

Lemma execute_spec e b args ws s i o : ready s b args ws i o →
  line_acts (execute e b args) s (line_plan e i o ws (chld_ignored s)).
Proof.
  intros Hr. pose proof Hr as ((g & Hg) & (ps & rest & Ea & Hps) & Hlen & Hp & Hi & Ho).
  assert (∀ v m, m s = Ret (Some v, s) → v ≠ 0 → line_acts m s (Ret ([], Some (chld_ignored s)))) as Hgo.
  { intros v m E Hv. exists (Some v), s, []. rewrite app_nil_r. split_and!; eauto. }
  assert (slot_at args 0 = Ret (ps !! 0%nat)) as E0 by (rewrite Ea; apply (slot_tokens ps rest 0); lia).
  unfold line_plan. destruct (command ws) as [|name ags] eqn:Ec.
  { inversion Hps; subst. apply (Hgo 1); [|done]. unfold execute. by rewrite (lift_bind _ None). }
  destruct ps as [|p ps]; [by inversion Hps|]. inversion Hps as [|? ? ? ? Hname Hags]; subst.
  assert (execute e b ((Some ∘ Some <$> p :: ps) ++ Some None :: rest) s =
    (match snd <$> list_find (λ x, name = x.1) builtins with
     | Some (_, f) => r ← run_builtin e b ((Some ∘ Some <$> p :: ps) ++ Some None :: rest) f; mret (Some r)
     | None => if piping (vars s) =? 1 then launch_pipe e b ((Some ∘ Some <$> p :: ps) ++ Some None :: rest)
               else launch e b ((Some ∘ Some <$> p :: ps) ++ Some None :: rest)
     end) s) as Ex.
  { unfold execute. rewrite (lift_bind _ (Some p)) by exact E0.
    rewrite (lift_bind _ _ _ _ (find_builtin_spec b p name builtins Hname builtin_names)).
    destruct (list_find _ builtins) as [[k [n f]]|]; [done|]. done. }
  set (args := (Some ∘ Some <$> p :: ps) ++ Some None :: rest) in *.
  eapply line_acts_ext; [exact Ex|].
  destruct (snd <$> list_find (λ x, name = x.1) builtins) as [[n f]|].
  - destruct f; cbn [run_builtin].
    + eapply line_acts_ext; [reflexivity|]. by apply cd_spec.
    + by apply (Hgo 1).
    + exists (Some 0), s, []. rewrite app_nil_r. split_and!; auto.
    + apply (Hgo (if pwd_set e then 1 else -1)); [done|]. by destruct (pwd_set e).
  - assert (piping (vars s) = flag_of BAR (name :: ags)) as -> by (rewrite Hg; cbn; by rewrite Ec).
    unfold flag_of. rewrite <- Ec in *. destruct (split_last BAR (command ws)) as [[l r]|] eqn:Eb; cbn [Z.eqb Pos.eqb].
    + by apply launch_pipe_spec.
    + by apply launch_spec.
Qed.

(** ** The session *)
Lemma next_line_spec input : input ≠ [] → ∃ l rest, next_line input = (l, rest) ∧ lines input = l :: lines rest ∧
  input = l ++ rest ∧ (length rest < length input)%nat.
Proof.
  induction input as [|c input IH]; [done|]. intros _. cbn [next_line lines]. destruct (Z.eqb_spec c 10) as [->|Hc].
  { exists [10], input. split_and!; [done..|cbn; lia]. }
  destruct input as [|c' input]; [exists [c], []; split_and!; [done..|cbn; lia]|].
  destruct IH as (l & rest & -> & -> & E & Hlt); [done|]. exists (c :: l), rest. split_and!; [done..|cbn in *; by rewrite E|cbn in *; lia].
Qed.

(** Parsing the line that [getline] delivered. *)
Lemma parse_fits grow l g : (∀ n, (n ≤ grow n)%nat) → 0 ∉ l →
  let b := (Some <$> l) ++ Some 0 :: replicate (capacity grow (S (length l)) - S (length l)) None in
  match fits grow l with
  | true => ∃ args b', parse_line b g = Ret (args, b', flags_of (line_words l) g) ∧
      tokens_are b' args (command (line_words l)) ∧ (length (command (line_words l)) < TOK_SIZE)%nat
  | false => parse_line b g = Undef
  end.
Proof.
  intros Hgrow H0 b. assert (S (length l) ≤ capacity grow (S (length l)))%nat as Hcap.
  { unfold capacity. case_if as Ec; [by apply Nat.leb_le in Ec|apply Hgrow]. }
  subst b. pose proof (λ junk, parse_line_spec l junk g H0) as Hparse. cbn zeta in Hparse. unfold fits.
  destruct (Nat.ltb_spec (S (length l)) (capacity grow (S (length l)))) as [Hroom|Hfull]; cbn [andb].
  - replace (capacity grow (S (length l)) - S (length l))%nat with (S (capacity grow (S (length l)) - S (S (length l))))%nat by lia.
    cbn [replicate]. specialize (Hparse (None :: replicate (capacity grow (S (length l)) - S (S (length l))) None)).
    cbv beta iota in Hparse. destruct (Nat.ltb_spec (length (command (line_words l))) TOK_SIZE) as [Hc|Hc]; [|done].
    destruct Hparse as (args & b' & Ep & _ & Ht). eauto.
  - replace (capacity grow (S (length l)) - S (length l))%nat with 0%nat by lia. exact (Hparse []).
Qed.

Lemma loop_spec grow es i o : (∀ n, (n ≤ grow n)%nat) → ∀ fuel k input s, (length input ≤ fuel)%nat → 0 ∉ input →
  no_pipe (fds s) → fds s !! 0%nat = Some (Some i) → fds s !! 1%nat = Some (Some o) →
  acts (shell_loop grow es k input fuel) s (session grow es i o k (chld_ignored s) (lines input)).
Proof.
  intros Hgrow. induction fuel as [fuel IH] using lt_wf_ind. intros k input s Hfuel H0 Hp Hi Ho.
  destruct (decide (input = [])) as [->|Hne].
  { cbn [lines session]. destruct fuel; cbn [shell_loop]; (destruct (line_ok (es k)); [|apply acts_nil]);
      (destruct (tokens_ok (es k)); [done|apply acts_nil]). }
  destruct (next_line_spec input Hne) as (l & rest & El & -> & Ein & Hlt).
  assert (read_line grow input = ((Some <$> l) ++ Some 0 :: replicate (capacity grow (S (length l)) - S (length l)) None, rest)) as Er.
  { unfold read_line. rewrite El. by destruct input. }
  assert (0 ∉ l) as H0l by (rewrite Ein in H0; set_solver). assert (0 ∉ rest) as H0r by (rewrite Ein in H0; set_solver).
  set (b := (Some <$> l) ++ Some 0 :: replicate (capacity grow (S (length l)) - S (length l)) None) in *.
  assert (∃ fuel', fuel = S fuel' ∧ (length rest ≤ fuel')%nat) as (fuel' & -> & Hf') by (destruct fuel; [lia|eexists; split; [done|lia]]).
  cbn [session shell_loop]. rewrite Er. destruct (line_ok (es k)); [|apply acts_nil].
  destruct (tokens_ok (es k)); [|apply acts_nil]. cbn [andb].
  eapply acts_ext; [erewrite (M_bind_run get_st) by reflexivity; reflexivity|]. cbn beta.
  pose proof (parse_fits grow l (vars s) Hgrow H0l) as Hparse. fold b in Hparse.
  destruct (fits grow l); [|unfold acts; unfold mbind at 1, M_bind at 1, lift; by rewrite Hparse].
  destruct Hparse as (args & b' & Ep & Ht & Hc).
  set (s1 := Shell (flags_of (line_words l) (vars s)) (fds s) (chld_ignored s) (trace s)).
  eapply (acts_from _ (execute (es k) b' args ≫= _) s s1);
    [rewrite (lift_bind _ _ _ _ Ep); cbn beta iota; erewrite (M_bind_run (set_vars _)) by reflexivity; reflexivity|done|].
  assert (ready s1 b' args (line_words l) i o) as Hready by (split_and!; eauto).
  pose proof (execute_spec (es k) b' args (line_words l) s1 i o Hready) as Hx. change (chld_ignored s1) with (chld_ignored s) in Hx.
  destruct (line_plan (es k) i o (line_words l) (chld_ignored s)) as [[ps next]| | |]; cbn [mbind outcome_bind]; [|done| |done].
  2:{ unfold acts. unfold mbind at 1, M_bind at 1. by rewrite Hx. }
  destruct Hx as (r & s2 & evs & Ex & Tx & Rx & Hn). unfold acts. rewrite (M_bind_run _ _ _ _ _ Ex).
  destruct next as [ign|].
  - destruct Hn as ((v & -> & Hv) & Hfds & Hign). destruct (Z.eqb_spec v 0) as [|_]; [done|].
    assert (no_pipe (fds s2) ∧ fds s2 !! 0%nat = Some (Some i) ∧ fds s2 !! 1%nat = Some (Some o)) as (Hp2 & Hi2 & Ho2) by by rewrite Hfds.
    pose proof (IH fuel' ltac:(lia) (S k) rest s2 Hf' H0r Hp2 Hi2 Ho2) as Hrest. rewrite Hign in Hrest.
    destruct (session _ _ _ _ _ _ _) as [qs| | |]; cbn [mbind outcome_bind]; [|done..].
    destruct Hrest as (s3 & e3 & E3 & T3 & R3). exists s3, (evs ++ e3). split; [exact E3|]. rewrite T3, Tx, app_assoc.
    split; [done|]. by apply Forall2_app.
  - destruct Hn as [->| ->]; exists s2, evs; split_and!; done.
Qed.

(** ** The shell does what its input says *)


Definition demo_env : env := Env true true true true true true true true (λ _, true) None true.
(** [echo hi > f], [cd /tmp], [ls | wc]. *)
Definition demo_input : list Z :=
  [32; 101; 99; 104; 111; 32; 104; 105; 32; 62; 32; 102; 10; 99; 100; 9; 47; 116; 109; 112; 10; 108; 115; 32; 124; 32; 119; 99; 10].
Definition demo_fds : fdtable := [Some (Inherited 0); Some (Inherited 1); Some (Inherited 2)].


(** ** What the shell gets wrong *)

(** After a pipe the shell ends. *)
Lemma pipe_ends_shell e i o ws ign name l r p next : line_plan e i o ws ign = Ret (p, next) →
  split_last BAR (command ws) = Some (l, r) → head (command ws) = Some name → (∀ f, (name, f) ∉ builtins) → next = None.
Proof.
  unfold line_plan. destruct (command ws) as [|n args]; [done|]. intros Hp Hs [= ->] Hb. rewrite Hs in Hp. clear Hs.
  destruct (list_find (λ x, name = x.1) builtins) as [[k [n f]]|] eqn:E.
  - apply list_find_Some in E as (E1 & -> & _). destruct (Hb f). by eapply list_elem_of_lookup_2.
  - cbn in Hp. destruct (left_ok e && right_ok e && fork_ok e); [|by injection Hp].
    apply bind_Ret in Hp as (q & _ & Hp). apply bind_Ret in Hp as (w & _ & Hp). by injection Hp.
Qed.

(** [cat < a > b] passes [<] and [a] to the program and reads the terminal. *)
Example output_hides_input i o : ∃ l, simple_plan demo_env i o [[99]; LT; [97]; GT; [98]] = Ret [PExec l i (Opened [98] 577)] ∧ LT ∈ l.
Proof. eexists. split; [reflexivity|]. set_solver. Qed.

(** [a &] and then [b]: the shell waits for a child that the system reaps. *)
Example wait_after_background : session (λ n, n) (λ _, demo_env) (Inherited 0) (Inherited 1) 0 false
  (lines [97; 32; 38; 10; 98; 10]) = Undef.
Proof. reflexivity. Qed.

(** Input that ends without [exit]. *)
Example end_of_input : session (λ n, n) (λ _, demo_env) (Inherited 0) (Inherited 1) 0 false [] = Undef.
Proof. reflexivity. Qed.

(** A line of 79 characters: one character is written past the buffer. *)
Lemma full_buffer g : parse_line (fst (read_line (λ n, n) (replicate 78 97 ++ [10]))) g = Undef.
Proof. reflexivity. Qed.
