(* ===== verification/UserLib.v ===== *)
(** * The library of the user programs (xv6 [ulib.c], [printf.c])

    Strings are arrays with their final NUL; [printf] is the list of the
    characters it writes one by one.  [gets] is modelled with the shell. *)

From stdpp Require Import base numbers list sets.
From S2P Require Import Prelude Console.

Open Scope Z_scope.

(** ** [ulib.c] *)
Fixpoint strlen (s : list Z) : outcome Z :=
  match s with
  | [] => Undef
  | c :: s => if c =? 0 then Ret 0 else n ← strlen s; Ret (n + 1)
  end.

(** The array after the copy of [t] to its index [i]. *)
Fixpoint strcpy (s : list Z) (i : Z) (t : list Z) : outcome (list Z) :=
  match t with
  | [] => Undef
  | c :: t => s ← arr_set s i c; if c =? 0 then Ret s else strcpy s (i + 1) t
  end.

Fixpoint strcmp (p q : list Z) : outcome Z :=
  match p, q with
  | a :: p, b :: q => if negb (a =? 0) && (a =? b) then strcmp p q else Ret (u8 a - u8 b)
  | _, _ => Undef
  end.

(** Where the first [c] is. *)
Fixpoint strchr (s : list Z) (c : Z) : outcome (option Z) :=
  match s with
  | [] => Undef
  | x :: s =>
      if x =? 0 then Ret None
      else if x =? c then Ret (Some 0)
      else r ← strchr s c; Ret (fmap (M:=option) (λ i, i + 1) r)
  end.

(** [memset(s + i, c, n)] *)
Fixpoint memset (s : list Z) (i c : Z) (n : nat) : outcome (list Z) :=
  match n with
  | O => Ret s
  | S n => s ← arr_set s i (u8 c); memset s (i + 1) c n
  end.

(** [memmove] from [src] to [dst] in one array, in rising order. *)
Fixpoint memmove (m : list Z) (dst src : Z) (n : nat) : outcome (list Z) :=
  match n with
  | O => Ret m
  | S n => c ← arr_get m src; m ← arr_set m dst c; memmove m (dst + 1) (src + 1) n
  end.

Fixpoint atoi_loop (s : list Z) (n : Z) : outcome Z :=
  match s with
  | [] => Undef
  | c :: s => if (48 <=? c) && (c <=? 57) then atoi_loop s (i32 (n * 10 + c - 48)) else Ret n
  end.
Definition atoi (s : list Z) : outcome Z := atoi_loop s 0.

(** ** [printf.c] *)
Definition digits : list Z :=
  [48; 49; 50; 51; 52; 53; 54; 55; 56; 57; 65; 66; 67; 68; 69; 70].

(** The [do] loop: the digits, least significant first, from index [i] of [buf]. *)
Fixpoint digit_loop (x base i : Z) (fuel : nat) : outcome (list Z) :=
  match fuel with
  | O => NoFuel
  | S fuel =>
      if 16 <=? i then Undef
      else
        d ← arr_get digits (x mod base);
        if x / base =? 0 then Ret [d]
        else ds ← digit_loop (x / base) base (i + 1) fuel; Ret (d :: ds)
  end.

(** The characters written. *)
Definition printint (xx base : Z) (sgn : bool) : outcome (list Z) :=
  let neg := sgn && (xx <? 0) in
  let x := u32 (if neg then - xx else xx) in
  ds ← digit_loop x base 0 33;
  if neg then
    if 16 <=? Z.of_nat (length ds) then Undef else Ret (45 :: reverse ds)
  else Ret (reverse ds).

(** The characters of a string argument; [NULL] is shown. *)
Fixpoint str_chars (s : list Z) : outcome (list Z) :=
  match s with
  | [] => Undef
  | c :: s => if c =? 0 then Ret [] else cs ← str_chars s; Ret (c :: cs)
  end.
Definition null_text : list Z := [40; 110; 117; 108; 108; 41; 0].

(** [state] is set behind a [%]. *)
Fixpoint printf_loop (fmt : list Z) (state : bool) (ap : list arg) : outcome (list Z) :=
  match fmt with
  | [] => Undef
  | c :: fmt =>
      if c =? 0 then Ret []
      else if negb state then
        if c =? 37 then printf_loop fmt true ap
        else cs ← printf_loop fmt false ap; Ret (u8 c :: cs)
      else if c =? 100 then
        match ap with
        | AWord x :: ap => ds ← printint (i32 x) 10 true; cs ← printf_loop fmt false ap; Ret (ds ++ cs)
        | _ => Undef
        end
      else if (c =? 120) || (c =? 112) then
        match ap with
        | AWord x :: ap => ds ← printint (i32 x) 16 false; cs ← printf_loop fmt false ap; Ret (ds ++ cs)
        | _ => Undef
        end
      else if c =? 115 then
        match ap with
        | AStr s :: ap =>
            ds ← str_chars (default null_text s); cs ← printf_loop fmt false ap; Ret (ds ++ cs)
        | _ => Undef
        end
      else if c =? 99 then
        match ap with
        | AWord x :: ap => cs ← printf_loop fmt false ap; Ret (u8 x :: cs)
        | _ => Undef
        end
      else if c =? 37 then cs ← printf_loop fmt false ap; Ret (u8 c :: cs)
      else cs ← printf_loop fmt false ap; Ret (37 :: u8 c :: cs)
  end.
Definition printf (fmt : list Z) (ap : list arg) : outcome (list Z) := printf_loop fmt false ap.

(** ** Strings *)

(** [s] holds the string [w]. *)
Definition holds (s w : list Z) : Prop := 0 ∉ w ∧ ∃ junk, s = w ++ 0 :: junk.

Lemma strlen_holds s w : holds s w → strlen s = Ret (Z.of_nat (length w)).
Proof.
  intros [H0 [junk ->]]. induction w as [|c w IH]; [done|]. cbn [app strlen].
  destruct (Z.eqb_spec c 0) as [->|]; [set_solver|]. rewrite IH by set_solver. cbn. f_equal. lia.
Qed.

Lemma str_chars_spec s w : holds s w → str_chars s = Ret w.
Proof.
  intros [H0 [junk ->]]. induction w as [|c w IH]; [done|]. cbn [app str_chars].
  destruct (Z.eqb_spec c 0) as [->|]; [set_solver|]. by rewrite IH by set_solver.
Qed.

Lemma strchr_holds s w c : holds s w →
  ∃ r, strchr s c = Ret r ∧ (is_Some r ↔ c ∈ w).
Proof.
  intros [H0 [junk ->]]. induction w as [|x w IH]; [exists None; split; [done|]; split; [by intros []|set_solver]|].
  cbn [app strchr]. destruct (Z.eqb_spec x 0) as [->|]; [set_solver|].
  destruct (Z.eqb_spec x c) as [->|Hne]; [exists (Some 0); split; [done|]; split; [set_solver|by eexists]|].
  destruct IH as (r & -> & Hr); [set_solver|]. eexists. split; [done|]. rewrite fmap_is_Some, Hr. set_solver.
Qed.

Lemma strcmp_refl s w : holds s w → strcmp s s = Ret 0.
Proof.
  intros [H0 [junk ->]]. induction w as [|c w IH]; [done|]. cbn [app strcmp].
  destruct (Z.eqb_spec c 0) as [->|]; [set_solver|]. rewrite Z.eqb_refl. apply IH. set_solver.
Qed.

(** Moving to a lower address is safe. *)
Lemma memmove_down n : ∀ m dst src, (dst ≤ src)%nat → (src + n ≤ length m)%nat →
  memmove m (Z.of_nat dst) (Z.of_nat src) n = Ret (take dst m ++ take n (drop src m) ++ drop (dst + n) m).
Proof.
  induction n as [|n IH]; intros m dst src Hle Hn; cbn [memmove].
  - rewrite Nat.add_0_r, take_0. cbn. by rewrite take_drop.
  - destruct (lookup_lt_is_Some_2 m src) as [c Hc]; [lia|]. rewrite arr_get_nat, Hc. cbn [opt mbind outcome_bind].
    rewrite arr_set_in by lia. cbn [mbind outcome_bind]. rewrite Nat2Z.id.
    replace (Z.of_nat dst + 1) with (Z.of_nat (S dst)) by lia. replace (Z.of_nat src + 1) with (Z.of_nat (S src)) by lia.
    rewrite IH by (rewrite ?length_insert; lia). f_equal.
    rewrite !drop_insert_lt by lia. rewrite (drop_S m c src Hc). cbn [take].
    rewrite (take_S_r _ dst c) by (apply list_lookup_insert_eq; lia).
    rewrite take_insert_ge by lia. rewrite <- app_assoc. replace (S dst + n)%nat with (dst + S n)%nat by lia. done.
Qed.

(** Moving to a higher one is not: the characters are repeated. *)
Example memmove_overlap : memmove [1; 2; 3; 0] 1 0 3 = Ret [1; 1; 1; 1].
Proof. reflexivity. Qed.

(** ** Numbers *)

(** The digits are those of the kernel in capitals. *)
Definition upper (c : Z) : Z := if c <? 58 then c else c - 32.
Definition uppers (cs : list Z) : list Z := upper <$> cs.

Lemma digits_upper k : 0 ≤ k < 16 → arr_get digits k = (d ← arr_get Console.digits k; Ret (upper d)).
Proof.
  intros Hk. assert (∃ n : nat, (n < 16)%nat ∧ k = Z.of_nat n) as (n & Hn & ->) by (exists (Z.to_nat k); lia).
  rewrite !arr_get_nat. do 16 (destruct n as [|n]; [reflexivity|]). lia.
Qed.

Lemma digit_loop_upper base fuel : 2 ≤ base ≤ 16 → ∀ x i,
  digit_loop x base i fuel = (ds ← Console.digit_loop x base i fuel; Ret (uppers ds)).
Proof.
  intros Hb. induction fuel as [|fuel IH]; intros x i; [done|]. cbn [digit_loop Console.digit_loop].
  destruct (16 <=? i); [done|]. pose proof (Z.mod_pos_bound x base ltac:(lia)). rewrite digits_upper by lia.
  destruct (arr_get Console.digits (x mod base)) as [d| | |]; cbn [mbind outcome_bind]; [|done..].
  destruct (x / base =? 0); [done|]. rewrite IH. by destruct (Console.digit_loop _ _ _ _).
Qed.

Lemma printint_upper xx base sgn : 2 ≤ base ≤ 16 →
  printint xx base sgn = (cs ← printint_chars xx base sgn; Ret (uppers cs)).
Proof.
  intros Hb. unfold printint, printint_chars. rewrite digit_loop_upper by done.
  destruct (Console.digit_loop _ _ _ _) as [ds| | |]; cbn [mbind outcome_bind]; [|done..]. unfold uppers. rewrite length_fmap.
  destruct (sgn && _).
  - destruct (16 <=? _); [done|]. cbn. by rewrite fmap_reverse.
  - cbn. by rewrite fmap_reverse.
Qed.

(** The decimal numeral of a number that is not negative. *)
Definition add_digit (x c : Z) : Z := x * 10 + (c - 48).
Definition numeral (n : Z) (cs : list Z) : Prop :=
  Forall (λ c, 48 ≤ c ≤ 57) cs ∧ cs ≠ [] ∧ foldl add_digit 0 cs = n ∧ (head cs = Some 48 → cs = [48]).

Lemma digit10 y : 0 ≤ y < 10 → arr_get Console.digits y = Ret (48 + y).
Proof.
  intros Hy. assert (∃ n : nat, (n < 10)%nat ∧ y = Z.of_nat n) as (n & Hn & ->) by (exists (Z.to_nat y); lia).
  rewrite arr_get_nat. do 10 (destruct n as [|n]; [reflexivity|]). lia.
Qed.

Lemma digit_loop_ten fuel : ∀ x i ds, 0 ≤ x → Console.digit_loop x 10 i fuel = Ret ds →
  Forall (λ c, 48 ≤ c ≤ 57) ds ∧ foldl add_digit 0 (reverse ds) = x ∧ (head (reverse ds) = Some 48 → ds = [48]) ∧ ds ≠ [].
Proof.
  induction fuel as [|fuel IH]; intros x i ds Hx E; [done|]. cbn [Console.digit_loop] in E.
  destruct (16 <=? i); [done|]. pose proof (Z.mod_pos_bound x 10 ltac:(lia)) as Hm. pose proof (Z.div_mod x 10 ltac:(lia)) as Hd.
  rewrite digit10 in E by done. cbn [mbind outcome_bind] in E. destruct (Z.eqb_spec (x / 10) 0) as [Hz|Hz].
  - injection E as <-. rewrite Hz in Hd. split_and!; [repeat constructor; lia|cbn; unfold add_digit; lia| |done]. intros [= E]. f_equal. lia.
  - apply bind_Ret in E as (ds' & E & [= <-]). destruct (IH (x / 10) (i + 1) ds') as (Hf & Hn & Hh & Hne); [by apply Z.div_pos|done|].
    split_and!; [constructor; [lia|done]|rewrite reverse_cons, foldl_app, Hn; cbn; unfold add_digit; lia| |done].
    rewrite reverse_cons. intros H. destruct (reverse ds') as [|c l] eqn:Er.
    { apply (f_equal length) in Er. rewrite length_reverse in Er. by destruct ds'. }
    cbn in H. injection H as ->. specialize (Hh eq_refl). subst ds'. cbn in Er. injection Er as <-.
    cbn in Hn. unfold add_digit in Hn. lia.
Qed.

(** Numbers that are not negative are printed as their numeral. *)
Lemma printint_numeral n : 0 ≤ n < 2 ^ 31 → ∃ cs, printint n 10 true = Ret cs ∧ numeral n cs.
Proof.
  intros Hn. rewrite printint_upper by lia. unfold printint_chars. rewrite (proj2 (Z.ltb_ge n 0)) by lia. cbn [andb].
  rewrite u32_small by lia. destruct (digit_loop_spec 10 9 ltac:(lia) n 0 33) as (ds & E & _); [lia..|]. rewrite E.
  destruct (digit_loop_ten _ _ _ _ (proj1 Hn) E) as (Hf & Hv & Hh & Hne). cbn [mbind outcome_bind].
  assert (uppers (reverse ds) = reverse ds) as ->.
  { unfold uppers. rewrite <- (list_fmap_id (reverse ds)) at 2. apply Forall_fmap_ext_1. apply Forall_reverse.
    eapply Forall_impl; [exact Hf|]. cbn. intros c Hc. unfold upper. case_if; [done|lia]. }
  exists (reverse ds). split; [done|]. split_and!; [by apply Forall_reverse| |exact Hv|].
  - intros H. apply (f_equal length) in H. rewrite length_reverse in H. by destruct ds.
  - intros H. by rewrite (Hh H).
Qed.

Lemma add_digits_ge cs : ∀ n, Forall (λ c, 48 ≤ c ≤ 57) cs → 0 ≤ n → n ≤ foldl add_digit n cs.
Proof.
  induction cs as [|c cs IH]; intros n Hc Hn; cbn; [lia|]. apply Forall_cons in Hc as [Hc Hcs].
  assert (n ≤ add_digit n c) by (unfold add_digit; lia). etrans; [eassumption|]. apply IH; [done|lia].
Qed.

Lemma atoi_spec cs junk : ∀ n, Forall (λ c, 48 ≤ c ≤ 57) cs → 0 ≤ n → foldl add_digit n cs < 2 ^ 31 →
  atoi_loop (cs ++ 0 :: junk) n = Ret (foldl add_digit n cs).
Proof.
  induction cs as [|c cs IH]; intros n Hc Hn Hb; [done|]. apply Forall_cons in Hc as [Hc Hcs]. cbn [app atoi_loop foldl] in *.
  rewrite (proj2 (Z.leb_le 48 c)), (proj2 (Z.leb_le c 57)) by lia. cbn [andb].
  assert (0 ≤ add_digit n c) as Hp by (unfold add_digit; lia). pose proof (add_digits_ge cs _ Hcs Hp).
  replace (n * 10 + c - 48) with (add_digit n c) by (unfold add_digit; lia). rewrite i32_small by lia. by apply IH.
Qed.

(** Printing a number and reading it back. *)
Lemma atoi_printint n junk : 0 ≤ n < 2 ^ 31 →
  ∃ cs, printint n 10 true = Ret cs ∧ atoi (cs ++ 0 :: junk) = Ret n.
Proof.
  intros Hn. destruct (printint_numeral n Hn) as (cs & E & Hf & _ & Hv & _). exists cs. split; [done|].
  unfold atoi. rewrite atoi_spec; [by rewrite Hv|done|lia|]. rewrite Hv. lia.
Qed.
