(* ===== verification/UserProgs.v ===== *)
(** * User programs (xv6 [wc.c], [cat.c], [cp.c], [echo.c], [ls.c])

    What a program writes is a list of characters, to whichever descriptor.  The results of [read], and
    of [write] where the program looks at them, are arguments: the chunks of
    the input, and whether it ends or fails behind them. *)

From stdpp Require Import base numbers list sets strings.
From S2P Require Import Prelude Words Console UserLib.

Open Scope Z_scope.

(** The output so far; a program goes on or exits. *)
Notation out := (list Z).
Inductive next := Continue | Exited.

Definition put (cs : list Z) : M out unit := fun o => Ret (tt, o ++ cs).
Definition print (fmt : list Z) (ap : list arg) : M out unit := cs ← lift (printf fmt ap); put cs.

(** The characters of a string literal. *)
Definition codes (t : string) : list Z := (λ a, Z.of_N (Ascii.N_of_ascii a)) <$> String.list_ascii_of_string t.

(** An open file: the chunks that the calls of [read] deliver, and whether the
    last call gives 0 or -1. *)
Record input := Input { chunks : list (list Z); ends : bool }.
Definition chunk_ok (c : list Z) : Prop := (1 ≤ length c ≤ 512)%nat.

(** ** [wc] *)
Definition SPACES : list Z := [32; 13; 9; 10; 11; 0].
Definition wc_format : list Z := Eval vm_compute in codes "%d %d %d %s" ++ [10; 0].
Definition wc_read_error : list Z := Eval vm_compute in codes "wc: read error" ++ [10; 0].
Definition wc_cannot_open : list Z := Eval vm_compute in codes "wc: cannot open %s" ++ [10; 0].

Record counts := Counts { cl : Z; cw : Z; cc : Z; inword : bool }.

Definition count_char (buf : list Z) (s : counts) (i : Z) : outcome counts :=
  x ← arr_get buf i;
  let s := Counts (cl s) (cw s) (i32 (cc s + 1)) (inword s) in
  let s := if x =? 10 then Counts (i32 (cl s + 1)) (cw s) (cc s) (inword s) else s in
  p ← strchr SPACES x;
  match p with
  | Some _ => Ret (Counts (cl s) (cw s) (cc s) false)
  | None => Ret (if inword s then s else Counts (cl s) (i32 (cw s + 1)) (cc s) true)
  end.

(** [for(i=0; i<n; i++)] *)
Fixpoint count_chars (buf : list Z) (s : counts) (i : Z) (n : nat) : outcome counts :=
  match n with
  | O => Ret s
  | S n => s ← count_char buf s i; count_chars buf s (i + 1) n
  end.

Definition read_into (buf chunk : list Z) : list Z := chunk ++ drop (length chunk) buf.
Fixpoint wc_loop (buf : list Z) (s : counts) (reads : list (list Z)) : outcome counts :=
  match reads with
  | [] => Ret s
  | c :: reads =>
      let buf := read_into buf c in
      s ← count_chars buf s 0 (length c);
      wc_loop buf s reads
  end.

Definition wc (f : input) (name : list Z) : M out next :=
  s ← lift (wc_loop (replicate 512 0) (Counts 0 0 0 false) (chunks f));
  if ends f then
    print wc_format [AWord (cl s); AWord (cw s); AWord (cc s); AStr (Some name)] ;;
    mret Continue
  else print wc_read_error [] ;; mret Exited.

(** The arguments with the files they open. *)
Fixpoint wc_args (argv : list (list Z * option input)) : M out unit :=
  match argv with
  | [] => mret tt
  | (name, None) :: _ => print wc_cannot_open [AStr (Some name)]
  | (name, Some f) :: argv =>
      r ← wc f name;
      match r with Continue => wc_args argv | Exited => mret tt end
  end.
Definition wc_main (argv : list (list Z * option input)) (stdin : input) : M out unit :=
  match argv with
  | [] => wc stdin [0] ;; mret tt
  | _ => wc_args argv
  end.

(** ** [cat] *)
Definition cat_write_error : list Z := Eval vm_compute in codes "cat: write error" ++ [10; 0].
Definition cat_read_error : list Z := Eval vm_compute in codes "cat: read error" ++ [10; 0].
Definition cat_cannot_open : list Z := Eval vm_compute in codes "cat: cannot open %s" ++ [10; 0].

(** [written c] is the result of [write] for the chunk [c]: how many of its
    characters it takes, or -1. *)
Section cat.
Context (written : list Z → Z).

Fixpoint cat_loop (reads : list (list Z)) (ok : bool) : M out next :=
  match reads with
  | [] => if ok then mret Continue else print cat_read_error [] ;; mret Exited
  | c :: reads =>
      put (take (Z.to_nat (written c)) c) ;;
      if written c =? Z.of_nat (length c) then cat_loop reads ok
      else print cat_write_error [] ;; mret Exited
  end.
Definition cat (f : input) : M out next := cat_loop (chunks f) (ends f).
Fixpoint cat_args (argv : list (list Z * option input)) : M out unit :=
  match argv with
  | [] => mret tt
  | (name, None) :: _ => print cat_cannot_open [AStr (Some name)]
  | (name, Some f) :: argv =>
      r ← cat f;
      match r with Continue => cat_args argv | Exited => mret tt end
  end.
Definition cat_main (argv : list (list Z * option input)) (stdin : input) : M out unit :=
  match argv with
  | [] => cat stdin ;; mret tt
  | _ => cat_args argv
  end.
End cat.

(** ** [cp] *)

(** Writing [d] at an offset of a file. *)
Definition overwrite (f : list Z) (off : nat) (d : list Z) : list Z := take off f ++ d ++ drop (off + length d) f.

(** The file at the end, and whether an error is reported. *)
Fixpoint cp_loop (written : list Z → Z) (dest : list Z) (off : nat) (reads : list (list Z)) (ok : bool) (w : Z) : list Z * bool :=
  match reads with
  | [] => (dest, negb ok || (w <? 0))
  | c :: reads =>
      let w := written c in
      let dest := overwrite dest off (take (Z.to_nat w) c) in
      if negb (w =? Z.of_nat (length c)) || (w <? 0) then (dest, w <? 0)
      else cp_loop written dest (off + length c) reads ok w
  end.
Definition cp_usage : list Z := Eval vm_compute in codes "Usage: cp <source_file> <dest_file>" ++ [10; 0].
Definition cp_no_source : list Z := Eval vm_compute in codes "cp: cannot open source %s" ++ [10; 0].
Definition cp_error : list Z := Eval vm_compute in codes "cp: error copying from %s to %s" ++ [10; 0].

(** The destination at the end, when there is one.  When it cannot be opened
    the descriptor -1 is printed as if it were a string. *)
Definition cp_main (written : list Z → Z) (argv : list (list Z)) (source : option input) (dest : option (list Z))
    : M out (option (list Z)) :=
  match argv with
  | [_; src; dst] =>
      match source with
      | None => print cp_no_source [AStr (Some src)] ;; mret None
      | Some f =>
          match dest with
          | None => lift Undef
          | Some old =>
              let '(new, err) := cp_loop written old 0 (chunks f) (ends f) 0 in
              (if err then print cp_error [AStr (Some src); AStr (Some dst)] else mret tt) ;;
              mret (Some new)
          end
      end
  | _ => print cp_usage [] ;; mret None
  end.

(** ** [echo] *)
Definition echo_format : list Z := [37; 115; 37; 115; 0].
Fixpoint echo (argv : list (list Z)) : M out unit :=
  match argv with
  | [] => mret tt
  | a :: argv =>
      print echo_format [AStr (Some a); AStr (Some (match argv with [] => [10; 0] | _ => [32; 0] end))] ;;
      echo argv
  end.

(** ** [fmtname] of [ls] *)
Definition DIRSIZ : nat := 14.

(** [for(p=path+strlen(path); p >= path && *p != '/'; p--)]: the index behind which the name starts. *)
Fixpoint last_slash (path : list Z) (p : Z) (fuel : nat) : outcome Z :=
  if p <? 0 then Ret p
  else
    c ← arr_get path p;
    if c =? 47 then Ret p
    else match fuel with O => NoFuel | S fuel => last_slash path (p - 1) fuel end.

Fixpoint copy_from (dst : list Z) (i : Z) (src : list Z) (n : nat) : outcome (list Z) :=
  match n with
  | O => Ret dst
  | S n =>
      c ← arr_get src i;
      dst ← arr_set dst i c;
      copy_from dst (i + 1) src n
  end.

(** The string returned, and the static buffer. *)
Definition fmtname (path buf : list Z) : outcome (list Z * list Z) :=
  n ← strlen path;
  p ← last_slash path n (length path);
  let s := drop (Z.to_nat (p + 1)) path in
  n ← strlen s;
  if Z.of_nat DIRSIZ <=? n then Ret (s, buf)
  else
    buf ← copy_from buf 0 s (Z.to_nat n);
    buf ← memset buf n 32 (DIRSIZ - Z.to_nat n);
    Ret (buf, buf).

(** ** [ls] *)
Record status := Status { type : Z; ino : Z; fsize : Z }.
Definition T_DIR : Z := 1.
Definition T_FILE : Z := 2.
(** A path that could be opened: the result of [fstat], and the directory
    entries (number and name) that [read] delivers. *)
Record opened := Opened { fst_ : option status; dirents : list (Z * list Z) }.

Definition ls_format : list Z := Eval vm_compute in codes "%s %d %d %d" ++ [10; 0].
Definition ls_no_open : list Z := Eval vm_compute in codes "ls: cannot open %s" ++ [10; 0].
Definition ls_no_stat : list Z := Eval vm_compute in codes "ls: cannot stat %s" ++ [10; 0].
Definition ls_too_long : list Z := Eval vm_compute in codes "ls: path too long" ++ [10; 0].

Fixpoint store_at (buf : list Z) (i : Z) (src : list Z) : outcome (list Z) :=
  match src with
  | [] => Ret buf
  | c :: src => buf ← arr_set buf i c; store_at buf (i + 1) src
  end.

(** The line of a file; the static buffer of [fmtname] is threaded. *)
Definition ls_entry (path : list Z) (st : status) (sbuf : list Z) : M out (list Z) :=
  '(name, sbuf) ← lift (fmtname path sbuf);
  print ls_format [AStr (Some name); AWord (type st); AWord (ino st); AWord (fsize st)] ;;
  mret sbuf.

Section ls.
(** [stat] of a path. *)
Context (stat : list Z → option status).

Fixpoint ls_loop (buf : list Z) (p : Z) (des : list (Z * list Z)) (sbuf : list Z) : M out (list Z) :=
  match des with
  | [] => mret sbuf
  | (inum, name) :: des =>
      if inum =? 0 then ls_loop buf p des sbuf
      else
        buf ← lift (store_at buf p name);
        buf ← lift (arr_set buf (p + Z.of_nat DIRSIZ) 0);
        path ← lift (str_chars buf);
        match stat path with
        | None => print ls_no_stat [AStr (Some buf)] ;; ls_loop buf p des sbuf
        | Some st => sbuf ← ls_entry buf st sbuf; ls_loop buf p des sbuf
        end
  end.

Definition ls (path : list Z) (file : option opened) (sbuf : list Z) : M out (list Z) :=
  match file with
  | None => print ls_no_open [AStr (Some path)] ;; mret sbuf
  | Some f =>
      match fst_ f with
      | None => print ls_no_stat [AStr (Some path)] ;; mret sbuf
      | Some st =>
          if type st =? T_FILE then ls_entry path st sbuf
          else if type st =? T_DIR then
            n ← lift (strlen path);
            if 512 <? n + 1 + Z.of_nat DIRSIZ + 1 then print ls_too_long [] ;; mret sbuf
            else
              buf ← lift (strcpy (replicate 512 0) 0 path);
              n ← lift (strlen buf);
              buf ← lift (arr_set buf n 47);
              ls_loop buf (n + 1) (dirents f) sbuf
          else mret sbuf
      end
  end.
End ls.

(** ** The counts of [wc] *)
Definition is_space (c : Z) : bool := bool_decide (c ∈ [32; 13; 9; 10; 11]).
Definition newlines (l : list Z) : nat := length (filter (λ c, c = 10) l).

Lemma spaces_string : holds SPACES [32; 13; 9; 10; 11].
Proof. split; [by apply (bool_decide_unpack _)|by exists []]. Qed.

(** One character, when the counters are not full. *)
Definition count_one (s : counts) (x : Z) : counts :=
  Counts (if x =? 10 then cl s + 1 else cl s)
    (if is_space x || inword s then cw s else cw s + 1) (cc s + 1) (negb (is_space x)).
Definition small (s : counts) (n : Z) : Prop :=
  0 ≤ cl s ∧ cl s + n < 2 ^ 31 ∧ 0 ≤ cw s ∧ cw s + n < 2 ^ 31 ∧ 0 ≤ cc s ∧ cc s + n < 2 ^ 31.

Lemma count_char_run buf s i x : buf !! i = Some x → small s 1 →
  count_char buf s (Z.of_nat i) = Ret (count_one s x).
Proof.
  intros Hx (H1 & H2 & H3 & H4 & H5 & H6). unfold count_char. rewrite arr_get_nat, Hx. cbn [opt mbind outcome_bind].
  destruct (strchr_holds _ _ x spaces_string) as (r & Er & Hr). destruct s as [l w c iw]. cbn [cl cw cc inword] in *.
  unfold count_one, is_space. cbn [cl cw cc inword].
  destruct (x =? 10); cbn [cl cw cc inword]; rewrite Er; cbn [mbind outcome_bind];
    (destruct r as [k|]; [rewrite bool_decide_eq_true_2 by (apply Hr; by eexists)|
      rewrite bool_decide_eq_false_2 by (intros H%Hr; by destruct H)]); cbn [orb negb]; rewrite ?i32_small by lia; try done;
    by destruct iw; rewrite ?i32_small by lia.
Qed.

Lemma count_one_small s x n : small s (n + 1) → 0 ≤ n → small (count_one s x) n.
Proof.
  intros (H1 & H2 & H3 & H4 & H5 & H6) Hn. unfold small, count_one. cbn. destruct (x =? 10), (is_space x || inword s); lia.
Qed.

Lemma count_chars_run l : ∀ buf s i, take (length l) (drop i buf) = l → small s (Z.of_nat (length l)) →
  count_chars buf s (Z.of_nat i) (length l) = Ret (foldl count_one s l).
Proof.
  induction l as [|x l IH]; intros buf s i Hl Hs; [done|]. cbn [length count_chars foldl].
  destruct (drop i buf) as [|y b] eqn:Ed; [done|]. cbn in Hl. injection Hl as -> Hl.
  assert (buf !! i = Some x) as Hx by (rewrite <- (Nat.add_0_r i), <- lookup_drop, Ed; done).
  cbn [length] in Hs. replace (Z.of_nat (S (length l))) with (Z.of_nat (length l) + 1) in Hs by lia.
  rewrite (count_char_run buf s i x Hx) by (unfold small in *; lia). cbn [mbind outcome_bind].
  replace (Z.of_nat i + 1) with (Z.of_nat (S i)) by lia. apply IH; [|by apply count_one_small; [|lia]].
  rewrite <- Nat.add_1_r, <- drop_drop, Ed. done.
Qed.

Lemma foldl_small l : ∀ s n, small s (n + Z.of_nat (length l)) → 0 ≤ n → small (foldl count_one s l) n.
Proof.
  induction l as [|x l IH]; intros s n Hs Hn; cbn [foldl length] in *; [by rewrite Z.add_0_r in Hs|].
  apply IH; [|done]. apply count_one_small; [|lia]. by replace (n + Z.of_nat (length l) + 1) with (n + Z.of_nat (S (length l))) by lia.
Qed.

(** The bounds of the chunks do not matter. *)
Lemma wc_loop_run reads : ∀ buf s, length buf = 512%nat → Forall chunk_ok reads → small s (Z.of_nat (length (concat reads))) →
  wc_loop buf s reads = Ret (foldl count_one s (concat reads)).
Proof.
  induction reads as [|c reads IH]; intros buf s Hb Hc Hs; [done|]. apply Forall_cons in Hc as [Hc Hcs]. unfold chunk_ok in Hc.
  cbn [wc_loop concat] in *. rewrite length_app, Nat2Z.inj_add in Hs.
  assert (count_chars (read_into buf c) s 0 (length c) = Ret (foldl count_one s c)) as ->.
  { apply (count_chars_run c (read_into buf c) s 0); [|unfold small in *; lia].
    unfold read_into. by rewrite drop_0, take_app_length. }
  cbn [mbind outcome_bind]. rewrite foldl_app. apply IH; [|done|].
  - unfold read_into. rewrite length_app, length_drop. lia.
  - apply foldl_small; [|lia]. by rewrite Z.add_comm.
Qed.

(** What the counters count. *)
Lemma foldl_counts l : ∀ s, foldl count_one s l =
  Counts (cl s + Z.of_nat (newlines l))
    (cw s + Z.of_nat (if inword s then length (snd (split_words is_space l)) else length (words is_space l)))
    (cc s + Z.of_nat (length l)) (match last l with Some c => negb (is_space c) | None => inword s end).
Proof.
  induction l as [|x l IH]; intros [cl0 cw0 cc0 iw]; [cbn; unfold words; cbn; by destruct iw; rewrite !Z.add_0_r|].
  cbn [foldl]. rewrite IH. unfold count_one. cbn [cl cw cc inword]. f_equal.
  - unfold newlines. rewrite filter_cons. destruct (Z.eqb_spec x 10); [rewrite decide_True by done|rewrite decide_False by done]; cbn [length]; lia.
  - unfold words. cbn [split_words]. destruct (split_words is_space l) as [w ws]. destruct (is_space x); cbn [negb orb snd].
    + by destruct iw, (bool_decide (w = [])).
    + destruct iw; cbn [snd]; [done|]. rewrite bool_decide_eq_false_2 by done. cbn [length]. lia.
  - cbn [length]. lia.
  - rewrite last_cons. by destruct (last l).
Qed.

(** ** [wc] prints them *)

(** The line for a file. *)
Definition wc_line (name txt o : list Z) : Prop :=
  ∃ a b c, numeral (Z.of_nat (newlines txt)) a ∧ numeral (Z.of_nat (length (words is_space txt))) b ∧
    numeral (Z.of_nat (length txt)) c ∧ o = a ++ [32] ++ b ++ [32] ++ c ++ [32] ++ name ++ [10].

Definition text (f : input) : list Z := concat (chunks f).
(** A file that can be read to its end, and whose characters can be counted. *)
Definition readable (f : input) : Prop :=
  ends f = true ∧ Forall chunk_ok (chunks f) ∧ Z.of_nat (length (text f)) < 2 ^ 31.

Lemma newlines_le l : (newlines l ≤ length l)%nat.
Proof. apply length_filter. Qed.

Lemma words_le d l : (length (snd (split_words d l)) ≤ length (words d l) ≤ length l)%nat.
Proof.
  induction l as [|c l [IH1 IH2]]; [done|]. unfold words in *. cbn [split_words length].
  destruct (split_words d l) as [w ws]. cbn in *. destruct (d c); cbn; case_bool_decide; cbn in *; try lia; done.
Qed.

Lemma wc_run f name w o : readable f → holds name w →
  ∃ l, wc f name o = Ret (Continue, o ++ l) ∧ wc_line w (text f) l.
Proof.
  intros (He & Hc & Hlen) Hn. unfold wc.
  rewrite (M_bind_run _ _ o (foldl count_one (Counts 0 0 0 false) (text f)) o).
  2:{ unfold lift. rewrite wc_loop_run; [done|by rewrite length_replicate|done|]. unfold small. cbn. unfold text in Hlen. lia. }
  rewrite He, foldl_counts. cbn [cl cw cc inword]. rewrite !Z.add_0_l.
  pose proof (newlines_le (text f)). pose proof (words_le is_space (text f)).
  destruct (printint_numeral (Z.of_nat (newlines (text f)))) as (a & Ea & Na); [lia|].
  destruct (printint_numeral (Z.of_nat (length (words is_space (text f))))) as (b & Eb & Nb); [lia|].
  destruct (printint_numeral (Z.of_nat (length (text f)))) as (c & Ec & Nc); [lia|].
  exists (a ++ [32] ++ b ++ [32] ++ c ++ [32] ++ w ++ [10]). split; [|by exists a, b, c].
  rewrite (M_bind_run _ _ o tt (o ++ a ++ [32] ++ b ++ [32] ++ c ++ [32] ++ w ++ [10])); [done|].
  unfold print. erewrite M_bind_run; [reflexivity|]. unfold lift, printf, wc_format. cbn -[printint i32 str_chars].
  rewrite !i32_small by lia. rewrite Ea, Eb, Ec. cbn -[str_chars]. by rewrite (str_chars_spec name w Hn).
Qed.

Lemma wc_args_run argv : ∀ o ws, Forall2 (λ a w, ∃ f, a.2 = Some f ∧ readable f ∧ holds a.1 w) argv ws →
  ∃ ls, wc_args argv o = Ret (tt, o ++ concat ls) ∧
    Forall2 (λ aw l, ∃ f, aw.1.2 = Some f ∧ wc_line aw.2 (text f) l) (zip argv ws) ls.
Proof.
  induction argv as [|[s f] argv IH]; intros o ws H; inversion H as [|? w ? ws' (g & E & Hr & Hw) Hws]; subst; cbn [wc_args].
  - exists []. rewrite app_nil_r. split; [done|constructor].
  - cbn in E. subst f. destruct (wc_run g s w o Hr Hw) as (l & El & Hl). destruct (IH (o ++ l) ws' Hws) as (ls & Els & Hls).
    exists (l :: ls). rewrite (M_bind_run _ _ _ _ _ El). cbn [concat]. rewrite app_assoc. split; [done|].
    constructor; [by exists g|done].
Qed.

(** C23. [wc] counts: for files that can be read to their ends and opened under
    their names, [wc] prints for each file in order the number of newlines,
    of words (maximal blocks without white space) and of characters, in
    decimal, and the name, however the calls of [read] cut the files. *)
Theorem wc_correct argv ws stdin o : argv ≠ [] →
  Forall2 (λ a w, ∃ f, a.2 = Some f ∧ readable f ∧ holds a.1 w) argv ws →
  ∃ ls, wc_main argv stdin o = Ret (tt, o ++ concat ls) ∧
    Forall2 (λ aw l, ∃ f, aw.1.2 = Some f ∧ wc_line aw.2 (text f) l) (zip argv ws) ls.
Proof. intros Hne H. unfold wc_main. destruct argv; [done|]. by apply wc_args_run. Qed.

(** The words [ab], [c] and [d] on two lines, cut inside a word. *)
Definition demo_input : input := Input [[97]; [98; 32; 99; 10]; [9; 100; 10]] true.
Definition demo_name : list Z := [102; 0].

Lemma wc_correct_witness : ∃ l, wc_main [(demo_name, Some demo_input)] (Input [] true) [] =
  Ret (tt, l) ∧ l = [50; 32; 51; 32; 56; 32; 102; 10].
Proof.
  destruct (wc_correct [(demo_name, Some demo_input)] [[102]] (Input [] true) []) as (ls & E & _).
  - done.
  - constructor; [|constructor]. exists demo_input. split; [done|]. split.
    + split; [done|]. split; [|vm_compute; done]. repeat constructor; vm_compute; lia.
    + split; [by apply (bool_decide_unpack _)|]. by exists [].
  - eexists. split; [exact E|]. revert E. vm_compute. by intros [= <-].
Defined.

(** ** The other programs *)

(** [cat] copies its files when they can be read and written. *)
Lemma cat_loop_run written reads : ∀ o, (∀ c, c ∈ reads → written c = Z.of_nat (length c)) →
  cat_loop written reads true o = Ret (Continue, o ++ concat reads).
Proof.
  induction reads as [|c reads IH]; intros o Hw; cbn [cat_loop concat]; [by rewrite app_nil_r|].
  rewrite (Hw c) by set_solver. rewrite Nat2Z.id, firstn_all, Z.eqb_refl. erewrite M_bind_run by reflexivity. cbn beta.
  rewrite IH by set_solver. by rewrite app_assoc.
Qed.

Lemma cat_correct written argv stdin : ∀ o fs, argv ≠ [] →
  Forall2 (λ a f, a.2 = Some f ∧ ends f = true ∧ ∀ c, c ∈ chunks f → written c = Z.of_nat (length c)) argv fs →
  cat_main written argv stdin o = Ret (tt, o ++ concat (text <$> fs)).
Proof.
  assert (∀ argv o fs, Forall2 (λ a f, a.2 = Some f ∧ ends f = true ∧ ∀ c, c ∈ chunks f → written c = Z.of_nat (length c)) argv fs →
    cat_args written argv o = Ret (tt, o ++ concat (text <$> fs))) as Hargs.
  { clear argv. induction argv as [|[s f] argv IH]; intros o fs H; inversion H as [|? g ? fs' (E & He & Hw) Hfs]; subst; cbn [cat_args].
    - cbn. by rewrite app_nil_r.
    - cbn in E. subst f. unfold cat. rewrite He. rewrite (M_bind_run _ _ _ _ _ (cat_loop_run written (chunks g) o Hw)).
      cbn [fmap list_fmap concat]. rewrite app_assoc. by apply IH. }
  intros o fs Hne H. destruct argv; [done|]. by apply Hargs.
Qed.

(** [cp] does not empty the file it writes: what was behind the copy stays. *)
Lemma cp_loop_run written reads : ∀ dest off w, (∀ c, c ∈ reads → written c = Z.of_nat (length c)) → 0 ≤ w →
  (off ≤ length dest)%nat →
  cp_loop written dest off reads true w =
    (take off dest ++ concat reads ++ drop (off + length (concat reads)) dest, false).
Proof.
  induction reads as [|c reads IH]; intros dest off w Hw Hp Hoff; cbn [cp_loop concat].
  - rewrite (proj2 (Z.ltb_ge w 0)) by lia. cbn. by rewrite Nat.add_0_r, take_drop.
  - rewrite (Hw c) by set_solver. rewrite Nat2Z.id, firstn_all, Z.eqb_refl, (proj2 (Z.ltb_ge (Z.of_nat (length c)) 0)) by lia.
    cbn [negb orb]. assert (length (take off dest) = off) as Ht by (rewrite length_take; lia).
    rewrite IH; [|set_solver|lia|unfold overwrite; rewrite !length_app, Ht; lia]. f_equal. unfold overwrite.
    rewrite (app_assoc (take off dest) c), take_app_length' by (rewrite length_app, Ht; done).
    rewrite drop_app_ge by (rewrite length_app, Ht; lia). rewrite drop_drop, !length_app, Ht.
    rewrite <- !app_assoc. do 4 f_equal. lia.
Qed.

Lemma cp_keeps_tail written c src dst f old o : ends f = true → (∀ c, c ∈ chunks f → written c = Z.of_nat (length c)) →
  cp_main written [c; src; dst] (Some f) (Some old) o = Ret (Some (text f ++ drop (length (text f)) old), o).
Proof. intros He Hw. unfold cp_main. rewrite He, cp_loop_run by (done || lia). done. Qed.

(** [echo] prints its arguments with blanks between them. *)
Fixpoint joined (ws : list (list Z)) : list Z :=
  match ws with
  | [] => []
  | [w] => w ++ [10]
  | w :: ws => w ++ [32] ++ joined ws
  end.

Lemma echo_correct argv : ∀ ws o, Forall2 holds argv ws → echo argv o = Ret (tt, o ++ joined ws).
Proof.
  induction argv as [|a argv IH]; intros ws o H; inversion H as [|? w ? ws' Hw Hws]; subst; cbn [echo].
  { cbn. by rewrite app_nil_r. }
  assert (∀ s v, holds s v → print echo_format [AStr (Some a); AStr (Some s)] o = Ret (tt, o ++ w ++ v)) as Hp.
  { intros s v Hs. unfold print. erewrite M_bind_run; [reflexivity|]. unfold lift, printf, echo_format. cbn -[str_chars].
    rewrite (str_chars_spec a w Hw). cbn -[str_chars]. rewrite (str_chars_spec s v Hs). cbn. by rewrite app_nil_r. }
  destruct argv as [|b argv].
  - inversion Hws; subst. erewrite M_bind_run; [|apply (Hp _ [10]); split; [by apply (bool_decide_unpack _)|by exists []]]. done.
  - erewrite M_bind_run; [|apply (Hp _ [32]); split; [by apply (bool_decide_unpack _)|by exists []]]. cbn beta.
    rewrite (IH ws') by done. inversion Hws; subst. cbn [joined]. by rewrite <- !app_assoc.
Qed.

(** ** [fmtname] *)

(** The characters behind the last slash. *)
Definition base_name (w : list Z) : list Z := foldl (λ acc c, if c =? 47 then [] else acc ++ [c]) [] w.

Lemma base_name_plain v : ∀ acc, Forall (λ c, c ≠ 47) v →
  foldl (λ acc c, if c =? 47 then [] else acc ++ [c]) acc v = acc ++ v.
Proof.
  induction v as [|c v IH]; intros acc Hv; cbn; [by rewrite app_nil_r|]. apply Forall_cons in Hv as [Hc Hv].
  rewrite (proj2 (Z.eqb_neq c 47) Hc), IH by done. by rewrite <- app_assoc.
Qed.

Lemma base_name_slash u v : u = [] ∨ last u = Some 47 → Forall (λ c, c ≠ 47) v → base_name (u ++ v) = v.
Proof.
  intros Hu Hv. unfold base_name. rewrite foldl_app, base_name_plain by done.
  destruct Hu as [->|Hu]; [done|]. apply last_Some in Hu as [u' ->]. by rewrite foldl_app.
Qed.

Lemma last_slash_run path fuel : ∀ k, (k ≤ length path)%nat → (k ≤ fuel)%nat →
  ∃ j, last_slash path (Z.of_nat k - 1) fuel = Ret (Z.of_nat j - 1) ∧ (j ≤ k)%nat ∧
    (j = 0%nat ∨ path !! (j - 1)%nat = Some 47) ∧ ∀ i, (j ≤ i < k)%nat → path !! i ≠ Some 47.
Proof.
  induction fuel as [|fuel IH]; intros k Hk Hf.
  - exists 0%nat. replace k with 0%nat by lia. split_and!; [done|lia|by left|lia].
  - cbn [last_slash]. destruct k as [|k]; [exists 0%nat; split_and!; [done|lia|by left|lia]|].
    rewrite (proj2 (Z.ltb_ge _ 0)) by lia. replace (Z.of_nat (S k) - 1) with (Z.of_nat k) by lia.
    destruct (lookup_lt_is_Some_2 path k) as [c Hc]; [lia|]. rewrite arr_get_nat, Hc. cbn [opt mbind outcome_bind].
    destruct (Z.eqb_spec c 47) as [->|Hne].
    + exists (S k). split_and!; [f_equal; lia|lia|right; by rewrite Nat.sub_succ, Nat.sub_0_r|lia].
    + destruct (IH k) as (j & E & Hj & Hs & Hn); [lia..|]. exists j. split_and!; [done|lia|done|].
      intros i Hi. destruct (decide (i = k)) as [->|]; [by rewrite Hc; intros [= ->]|apply Hn; lia].
Qed.

Lemma copy_from_spec n : ∀ dst i src, (i + n ≤ length dst)%nat → (i + n ≤ length src)%nat →
  copy_from dst (Z.of_nat i) src n = Ret (take i dst ++ take n (drop i src) ++ drop (i + n) dst).
Proof.
  induction n as [|n IH]; intros dst i src Hd Hs; cbn [copy_from].
  - rewrite Nat.add_0_r, take_0. cbn. by rewrite take_drop.
  - destruct (lookup_lt_is_Some_2 src i) as [c Hc]; [lia|]. rewrite arr_get_nat, Hc. cbn [opt mbind outcome_bind].
    rewrite arr_set_in by lia. cbn [mbind outcome_bind]. rewrite Nat2Z.id. replace (Z.of_nat i + 1) with (Z.of_nat (S i)) by lia.
    rewrite IH by (rewrite ?length_insert; lia). rewrite drop_insert_lt, (drop_S src c i Hc) by lia. cbn [take].
    rewrite (take_S_r _ i c), take_insert_ge by (lia || (apply list_lookup_insert_eq; lia)). rewrite <- app_assoc.
    by replace (S i + n)%nat with (i + S n)%nat by lia.
Qed.

Lemma memset_fill c n : ∀ s i, (i + n ≤ length s)%nat →
  memset s (Z.of_nat i) c n = Ret (take i s ++ replicate n (u8 c) ++ drop (i + n) s).
Proof.
  induction n as [|n IH]; intros s i Hs; cbn [memset replicate].
  - rewrite Nat.add_0_r. cbn. by rewrite take_drop.
  - rewrite arr_set_in by lia. cbn [mbind outcome_bind]. rewrite Nat2Z.id. replace (Z.of_nat i + 1) with (Z.of_nat (S i)) by lia.
    rewrite IH by (rewrite length_insert; lia). rewrite drop_insert_lt by lia.
    rewrite (take_S_r _ i (u8 c)), take_insert_ge by (lia || (apply list_lookup_insert_eq; lia)). rewrite <- app_assoc.
    by replace (S i + n)%nat with (i + S n)%nat by lia.
Qed.

(** [fmtname] gives the last component of the path, with blanks up to 14
    characters, and keeps the final NUL of its buffer. *)
Lemma fmtname_correct path w buf : holds path w → length buf = S DIRSIZ → buf !! DIRSIZ = Some 0 →
  ∃ s buf', fmtname path buf = Ret (s, buf') ∧ length buf' = S DIRSIZ ∧ buf' !! DIRSIZ = Some 0 ∧
    holds s (base_name w ++ replicate (DIRSIZ - length (base_name w)) 32).
Proof.
  intros Hp Hb H14. pose proof Hp as [H0 [junk E]]. unfold fmtname. rewrite (strlen_holds path w Hp). cbn [mbind outcome_bind].
  assert (path !! length w = Some 0) as Hnul by (rewrite E, lookup_app_r, Nat.sub_diag by lia; done).
  destruct (last_slash_run path (length path) (S (length w))) as (j & El & Hj & Hslash & Hno).
  { rewrite E, length_app. cbn. lia. } { rewrite E, length_app. cbn. lia. }
  replace (Z.of_nat (S (length w)) - 1) with (Z.of_nat (length w)) in El by lia. rewrite El. cbn [mbind outcome_bind].
  replace (Z.to_nat (Z.of_nat j - 1 + 1)) with j by lia.
  assert (j ≤ length w)%nat as Hjw.
  { destruct (decide (j = S (length w))) as [->|]; [|lia]. rewrite Nat.sub_succ, Nat.sub_0_r, Hnul in Hslash. by destruct Hslash. }
  set (v := drop j w). assert (holds (drop j path) v) as Hv.
  { split; [intros Hin; apply H0; rewrite <- (take_drop j w); set_solver|]. exists junk. rewrite E. by rewrite drop_app_le. }
  assert (base_name w = v) as ->.
  { rewrite <- (take_drop j w). apply base_name_slash.
    - destruct Hslash as [->|Hs]; [by left|]. destruct j as [|j]; [by left|right].
      rewrite Nat.sub_succ, Nat.sub_0_r in Hs. rewrite E, lookup_app_l in Hs by lia. by rewrite (take_S_r w j 47 Hs), last_snoc.
    - apply Forall_forall. intros c Hc ->. apply list_elem_of_lookup in Hc as [i Hi]. unfold v in Hi. rewrite lookup_drop in Hi.
      pose proof (lookup_lt_Some _ _ _ Hi). apply (Hno (j + i)%nat); [lia|]. by rewrite E, lookup_app_l. }
  rewrite (strlen_holds _ v Hv). cbn [mbind outcome_bind]. destruct (Z.leb_spec (Z.of_nat DIRSIZ) (Z.of_nat (length v))) as [Hl|Hl].
  - exists (drop j path), buf. replace (DIRSIZ - length v)%nat with 0%nat by lia. rewrite app_nil_r. done.
  - rewrite Nat2Z.id. destruct Hv as [Hv0 [junk' Ev]]. change 0 with (Z.of_nat 0) at 1. rewrite (copy_from_spec (length v) buf 0 (drop j path)).
    2:{ rewrite Hb. unfold DIRSIZ in *. lia. } 2:{ rewrite Ev, length_app. lia. }
    cbn [mbind outcome_bind]. rewrite Ev, drop_0, take_app_length, take_0, app_nil_l, Nat.add_0_l.
    rewrite memset_fill by (rewrite length_app, length_drop, Hb; lia). cbn [mbind outcome_bind].
    rewrite take_app_length, drop_app_ge by lia. rewrite drop_drop.
    replace (length v + (length v + (DIRSIZ - length v) - length v))%nat with DIRSIZ by lia.
    assert (drop DIRSIZ buf = [0]) as ->.
    { rewrite (drop_S buf 0 DIRSIZ H14). rewrite drop_ge by lia. done. }
    change (u8 32) with 32. eexists _, _. split; [done|]. rewrite app_assoc.
    assert (length (v ++ replicate (DIRSIZ - length v) 32) = DIRSIZ) as Hlen by (rewrite length_app, length_replicate; lia).
    split; [rewrite length_app, Hlen; done|]. split; [by rewrite lookup_app_r, Hlen, Nat.sub_diag by (rewrite Hlen; done)|].
    split; [|by exists []]. rewrite elem_of_app. intros [?|Hin]; [done|]. apply elem_of_replicate in Hin as [? _]. done.
Qed.

(** ** [ls] lists a directory *)
Lemma store_at_spec src : ∀ buf i, (i + length src ≤ length buf)%nat →
  store_at buf (Z.of_nat i) src = Ret (take i buf ++ src ++ drop (i + length src) buf).
Proof.
  induction src as [|c src IH]; intros buf i Hl; cbn [store_at length] in *.
  - rewrite Nat.add_0_r. cbn. by rewrite take_drop.
  - rewrite arr_set_in by lia. cbn [mbind outcome_bind]. rewrite Nat2Z.id. replace (Z.of_nat i + 1) with (Z.of_nat (S i)) by lia.
    rewrite IH by (rewrite length_insert; lia). rewrite drop_insert_lt by lia.
    rewrite (take_S_r _ i c), take_insert_ge by (lia || (apply list_lookup_insert_eq; lia)). rewrite <- app_assoc.
    by replace (S i + length src)%nat with (i + S (length src))%nat by lia.
Qed.

Lemma strcpy_holds w : ∀ s i t, holds t w → (i + length w < length s)%nat →
  strcpy s (Z.of_nat i) t = Ret (take i s ++ w ++ 0 :: drop (i + S (length w)) s).
Proof.
  induction w as [|c w IH]; intros s i t [H0 [junk ->]] Hl; cbn [app strcpy length] in *.
  - rewrite arr_set_in by lia. cbn [mbind outcome_bind]. rewrite Nat2Z.id. rewrite insert_take_drop by lia.
    by replace (S i) with (i + 1)%nat by lia.
  - rewrite arr_set_in by lia. cbn [mbind outcome_bind]. rewrite Nat2Z.id. destruct (Z.eqb_spec c 0) as [->|_]; [set_solver|].
    replace (Z.of_nat i + 1) with (Z.of_nat (S i)) by lia. rewrite IH; [|split; [set_solver|by exists junk]|rewrite length_insert; lia].
    rewrite drop_insert_lt by lia. rewrite (take_S_r _ i c), take_insert_ge by (lia || (apply list_lookup_insert_eq; lia)).
    rewrite <- app_assoc. by replace (S i + S (length w))%nat with (i + S (S (length w)))%nat by lia.
Qed.

(** The static buffer of [fmtname] ends with NUL. *)
Definition sbuf_ok (sbuf : list Z) : Prop := length sbuf = S DIRSIZ ∧ sbuf !! DIRSIZ = Some 0.
Definition stat_ok (st : status) : Prop := 0 ≤ type st < 2 ^ 31 ∧ 0 ≤ ino st < 2 ^ 31 ∧ 0 ≤ fsize st < 2 ^ 31.
Definition ls_line (name : list Z) (st : status) (o : list Z) : Prop :=
  ∃ a b c, numeral (type st) a ∧ numeral (ino st) b ∧ numeral (fsize st) c ∧
    o = name ++ replicate (DIRSIZ - length name) 32 ++ [32] ++ a ++ [32] ++ b ++ [32] ++ c ++ [10].

Lemma ls_entry_run path w st sbuf o : holds path w → sbuf_ok sbuf → stat_ok st →
  ∃ sbuf' l, ls_entry path st sbuf o = Ret (sbuf', o ++ l) ∧ sbuf_ok sbuf' ∧ ls_line (base_name w) st l.
Proof.
  intros Hp [Hs1 Hs2] (Ht & Hi & Hf). destruct (fmtname_correct path w sbuf Hp Hs1 Hs2) as (s & sbuf' & E & L1 & L2 & Hs).
  destruct (printint_numeral _ Ht) as (a & Ea & Na), (printint_numeral _ Hi) as (b & Eb & Nb), (printint_numeral _ Hf) as (c & Ec & Nc).
  set (name := base_name w) in *. exists sbuf', (name ++ replicate (DIRSIZ - length name) 32 ++ [32] ++ a ++ [32] ++ b ++ [32] ++ c ++ [10]).
  split; [|split; [done|by exists a, b, c]]. unfold ls_entry. rewrite (M_bind_run _ _ o (s, sbuf') o) by (unfold lift; by rewrite E).
  rewrite (M_bind_run _ _ o tt (o ++ name ++ replicate (DIRSIZ - length name) 32 ++ [32] ++ a ++ [32] ++ b ++ [32] ++ c ++ [10])); [done|].
  unfold print. erewrite M_bind_run; [reflexivity|]. unfold lift, printf, ls_format. cbn -[printint i32 str_chars].
  rewrite (str_chars_spec s _ Hs), !i32_small by lia. rewrite Ea, Eb, Ec. cbn. by rewrite <- app_assoc.
Qed.

(** The name in an entry ends at its first NUL or after 14 characters. *)
Definition entry_ok (stat : list Z → option status) (w : list Z) (de : Z * list Z) (x : list Z * status) : Prop :=
  de.1 ≠ 0 ∧ length de.2 = DIRSIZ ∧ (∃ junk, de.2 ++ [0] = x.1 ++ 0 :: junk) ∧ 0 ∉ x.1 ∧ Forall (λ c, c ≠ 47) x.1 ∧
  stat (w ++ 47 :: x.1) = Some x.2 ∧ stat_ok x.2.

Lemma ls_loop_run stat w des xs : ∀ buf sbuf o, Forall2 (entry_ok stat w) (filter (λ de, de.1 ≠ 0) des) xs → 0 ∉ w →
  take (S (length w)) buf = w ++ [47] → length buf = 512%nat → (length w + 16 ≤ 512)%nat → sbuf_ok sbuf →
  ∃ sbuf' ls, ls_loop stat buf (Z.of_nat (length w) + 1) des sbuf o = Ret (sbuf', o ++ concat ls) ∧ sbuf_ok sbuf' ∧
    Forall2 (λ x l, ls_line x.1 x.2 l) xs ls.
Proof.
  revert xs. induction des as [|[inum name] des IH]; intros xs buf sbuf o Hes H0 Hb Hl Hw Hs; cbn [ls_loop].
  { inversion Hes; subst. exists sbuf, []. cbn. by rewrite app_nil_r. }
  rewrite filter_cons in Hes. cbn in Hes. destruct (Z.eqb_spec inum 0) as [->|Hne]; [rewrite decide_False in Hes by (intros []; done); by apply IH|].
  rewrite decide_True in Hes by done. inversion Hes as [|? [v st] ? xs' He Hxs]; subst.
  destruct He as (_ & Hn & (junk & Ej) & Hv0 & Hv47 & Hst & Hok). cbn [fst snd] in *.
  replace (Z.of_nat (length w) + 1) with (Z.of_nat (S (length w))) by lia.
  rewrite (M_bind_run _ _ o (w ++ [47] ++ name ++ drop (S (length w) + DIRSIZ) buf) o).
  2:{ unfold lift. rewrite store_at_spec by (rewrite Hn; unfold DIRSIZ; lia). by rewrite Hb, Hn, <- app_assoc. }
  set (rest := drop (S (S (length w) + DIRSIZ)) buf). set (buf' := w ++ [47] ++ (name ++ [0]) ++ rest).
  assert (length rest = 512 - (length w + 16))%nat as Hrest by (subst rest; rewrite length_drop, Hl; unfold DIRSIZ; lia).
  rewrite (M_bind_run _ _ o buf' o).
  2:{ unfold lift. destruct (lookup_lt_is_Some_2 buf (S (length w) + DIRSIZ)) as [y Hy]; [rewrite Hl; unfold DIRSIZ; lia|].
      rewrite (drop_S buf y _ Hy). fold rest.
      assert (length (w ++ [47%Z] ++ name) = S (length w) + DIRSIZ)%nat as Hlen by (rewrite !length_app, Hn; cbn; lia).
      rewrite arr_set_in by (rewrite !length_app, Hn; cbn; unfold DIRSIZ; lia).
      replace (Z.to_nat (Z.of_nat (S (length w)) + Z.of_nat DIRSIZ)) with (length (w ++ [47%Z] ++ name) + 0)%nat by lia.
      replace (w ++ [47] ++ name ++ y :: rest) with ((w ++ [47] ++ name) ++ y :: rest) by (by rewrite <- !app_assoc).
      rewrite insert_app_r. subst buf'. cbn. by rewrite <- !app_assoc. }
  assert (holds buf' (w ++ 47 :: v)) as Hbuf.
  { split; [rewrite elem_of_app, elem_of_cons; intros [?|[?|?]]; done|]. exists (junk ++ rest). subst buf'. rewrite Ej.
    cbn. by rewrite <- !app_assoc. }
  rewrite (M_bind_run _ _ o (w ++ 47 :: v) o) by (unfold lift; by rewrite (str_chars_spec _ _ Hbuf)).
  rewrite Hst. destruct (ls_entry_run buf' _ st sbuf o Hbuf Hs Hok) as (sbuf1 & l & El & Hs1 & Hline).
  rewrite (M_bind_run _ _ _ _ _ El). replace (Z.of_nat (S (length w))) with (Z.of_nat (length w) + 1) by lia.
  destruct (IH xs' buf' sbuf1 (o ++ l) Hxs H0) as (sbuf2 & ls & Els & Hs2 & Hls); [|subst buf'|done|done|].
  - subst buf'. rewrite (app_assoc w), take_app_length' by (rewrite length_app; cbn; lia). done.
  - rewrite !length_app, Hn, Hrest. cbn. unfold DIRSIZ. lia.
  - exists sbuf2, (l :: ls). cbn [concat]. rewrite app_assoc. split; [done|]. split; [done|]. constructor; [|done].
    cbn. replace (base_name (w ++ 47 :: v)) with v in Hline; [done|]. rewrite (cons_middle 47), app_assoc.
    symmetry. apply base_name_slash; [right; by rewrite last_snoc|done].
Qed.

(** For a directory whose path leaves room in the buffer, [ls] prints a line
    for each entry in use, in order: the name with blanks up to 14 characters,
    the type, the number and the size; names of 14 characters have no NUL in
    the directory. *)
Lemma ls_directory stat path w st des xs sbuf o : holds path w → (length w + 16 ≤ 512)%nat → type st = T_DIR → sbuf_ok sbuf →
  Forall2 (entry_ok stat w) (filter (λ de, de.1 ≠ 0) des) xs →
  ∃ sbuf' out, ls stat path (Some (Opened (Some st) des)) sbuf o = Ret (sbuf', o ++ concat out) ∧ sbuf_ok sbuf' ∧
    Forall2 (λ x l, ls_line x.1 x.2 l) xs out.
Proof.
  intros Hp Hw Ht Hs Hxs. unfold ls. cbn [fst_ dirents]. rewrite Ht. cbn [Z.eqb Pos.eqb T_DIR T_FILE].
  rewrite (M_bind_run _ _ o (Z.of_nat (length w)) o) by (unfold lift; by rewrite (strlen_holds path w Hp)).
  rewrite (proj2 (Z.ltb_ge 512 _)) by (unfold DIRSIZ; lia).
  assert (strcpy (replicate 512 0) 0 path = Ret (w ++ 0 :: replicate (512 - S (length w)) 0)) as Ec.
  { pose proof (strcpy_holds w (replicate 512 0) 0 path Hp) as E. rewrite length_replicate in E. change (Z.of_nat 0) with 0 in E.
    rewrite E by lia. rewrite take_0, Nat.add_0_l, drop_replicate. done. }
  rewrite (M_bind_run _ _ o _ o) by (unfold lift; by rewrite Ec).
  set (tl := replicate (512 - S (length w)) 0). assert (length tl = 512 - S (length w))%nat as Htl by apply length_replicate.
  assert (holds (w ++ 0 :: tl) w) as Hb by (split; [apply Hp|by exists tl]).
  rewrite (M_bind_run _ _ o (Z.of_nat (length w)) o) by (unfold lift; by rewrite (strlen_holds _ w Hb)).
  rewrite (M_bind_run _ _ o (w ++ 47 :: tl) o).
  2:{ unfold lift. rewrite arr_set_in by (rewrite length_app; cbn; lia). rewrite Nat2Z.id.
      rewrite <- (Nat.add_0_r (length w)), insert_app_r. done. }
  apply ls_loop_run; [done|apply Hp| |rewrite length_app; cbn [length]; rewrite Htl; lia|done|done].
  rewrite (cons_middle 47), app_assoc, take_app_length' by (rewrite length_app; cbn; lia). done.
Qed.
