(* ===== verification/Mp.v ===== *)
(** * The multiprocessor tables (xv6 [mp.c])

    The firmware leaves a pointer structure and a table of processors in memory;
    [mpinit] looks for them and fills [cpus].  [rd] is the byte at a virtual
    address, if it is mapped; pointers are addresses. *)

From stdpp Require Import base numbers list strings.
From S2P Require Import Prelude.

Open Scope Z_scope.

Definition KERNBASE : Z := 0x80000000.
Definition P2V (a : Z) : Z := u32 (a + KERNBASE).
Definition NCPU : nat := 8.

(** Table entry types. *)
Definition MPPROC : Z := 0.
Definition MPBUS : Z := 1.
Definition MPIOAPIC : Z := 2.
Definition MPIOINTR : Z := 3.
Definition MPLINTR : Z := 4.

(** Sizes of [struct mp], [mpconf], [mpproc] and [mpioapic]. *)
Definition sizeof_mp : Z := 16.
Definition sizeof_mpconf : Z := 44.
Definition sizeof_mpproc : Z := 20.
Definition sizeof_mpioapic : Z := 8.

Section mp.
Context (rd : Z → option Z).

Definition rd8 (a : Z) : outcome Z := opt (rd a).
Definition rd16 (a : Z) : outcome Z := l ← rd8 a; h ← rd8 (a + 1); Ret (l + 256 * h).
Definition rd32 (a : Z) : outcome Z := l ← rd16 a; h ← rd16 (a + 2); Ret (l + 65536 * h).

(** [sum(addr, len)] from a first value *)
Fixpoint sum_from (s addr : Z) (len : nat) : outcome Z :=
  match len with
  | O => Ret s
  | S len => x ← rd8 addr; sum_from (u8 (s + x)) (addr + 1) len
  end.
Definition sum (addr len : Z) : outcome Z := sum_from 0 addr (Z.to_nat len).

(** [memcmp(p, lit, n) == 0] *)
Fixpoint memcmp0 (p : Z) (lit : list Z) : outcome bool :=
  match lit with
  | [] => Ret true
  | c :: lit => x ← rd8 p; if x =? c then memcmp0 (p + 1) lit else Ret false
  end.

Definition MP_SIG : list Z := [95; 77; 80; 95].
Definition PCMP : list Z := [80; 67; 77; 80].

(** ** Searching *)
Fixpoint mpsearch_loop (p e : Z) (fuel : nat) : outcome (option Z) :=
  if p <? e then
    s ← memcmp0 p MP_SIG;
    ok ← (if (s : bool) then c ← sum p sizeof_mp; Ret (c =? 0) else Ret false);
    if (ok : bool) then Ret (Some p)
    else match fuel with O => NoFuel | S fuel => mpsearch_loop (p + sizeof_mp) e fuel end
  else Ret None.
Definition mpsearch1 (a len : Z) : outcome (option Z) :=
  let addr := P2V a in
  mpsearch_loop addr (addr + len) (Z.to_nat len).

Definition mpsearch : outcome (option Z) :=
  let bda := P2V 0x400 in
  h ← rd8 (bda + 0x0F);
  l ← rd8 (bda + 0x0E);
  let p := Z.shiftl (Z.lor (Z.shiftl h 8) l) 4 in
  r ←
    (if negb (p =? 0) then mpsearch1 p 1024
     else
       h ← rd8 (bda + 0x14);
       l ← rd8 (bda + 0x13);
       let p := Z.lor (Z.shiftl h 8) l * 1024 in
       mpsearch1 (u32 (p - 1024)) 1024);
  match r with
  | Some mp => Ret (Some mp)
  | None => mpsearch1 0xF0000 0x10000
  end.

(** The table and the structure that points to it. *)
Definition mpconfig : outcome (option (Z * Z)) :=
  r ← mpsearch;
  match r with
  | None => Ret None
  | Some mp =>
      physaddr ← rd32 (mp + 4);
      if physaddr =? 0 then Ret None
      else
        let conf := P2V physaddr in
        s ← memcmp0 conf PCMP;
        if negb s then Ret None
        else
          version ← rd8 (conf + 6);
          if negb (version =? 1) && negb (version =? 4) then Ret None
          else
            length ← rd16 (conf + 4);
            c ← sum conf length;
            if negb (c =? 0) then Ret None else Ret (Some (conf, mp))
  end.

(** ** [mpinit] *)

(** [cpus] stands for the [apicid]s of its elements. *)
Record machine := Machine { lapic : Z; ncpu : nat; cpus : list Z; ioapicid : Z }.

Definition add_cpu (m : machine) (apicid : Z) : outcome machine :=
  if (ncpu m <? NCPU)%nat then
    cpus ← arr_set (cpus m) (Z.of_nat (ncpu m)) apicid;
    Ret (Machine (lapic m) (S (ncpu m)) cpus (ioapicid m))
  else Ret m.

(** An entry of another type leaves the [switch], not the loop. *)
Fixpoint entries_loop (p e : Z) (m : machine) (ismp : bool) (fuel : nat) : outcome (machine * bool) :=
  if p <? e then
    t ← rd8 p;
    '(p, m, ismp) ←
      (if t =? MPPROC then
         apicid ← rd8 (p + 1);
         m ← add_cpu m apicid;
         Ret (p + sizeof_mpproc, m, ismp)
       else if t =? MPIOAPIC then
         apicno ← rd8 (p + 1);
         Ret (p + sizeof_mpioapic, Machine (lapic m) (ncpu m) (cpus m) apicno, ismp)
       else if (t =? MPBUS) || (t =? MPIOINTR) || (t =? MPLINTR) then Ret (p + 8, m, ismp)
       else Ret (p, m, false));
    match fuel with O => NoFuel | S fuel => entries_loop p e m ismp fuel end
  else Ret (m, ismp).

Definition set_lapic (m : machine) (a : Z) : machine := Machine a (ncpu m) (cpus m) (ioapicid m).

(** The machine, and whether the interrupt mode register is set. *)
Definition mpinit (m : machine) (fuel : nat) : outcome (machine * bool) :=
  r ← mpconfig;
  match r with
  | None => Panic "Expect to run on an SMP"
  | Some (conf, mp) =>
      lapicaddr ← rd32 (conf + 36);
      length ← rd16 (conf + 4);
      '(m, ismp) ← entries_loop (conf + sizeof_mpconf) (conf + length) (set_lapic m lapicaddr) true fuel;
      if negb ismp then Panic "Didn't find a suitable machine"
      else imcrp ← rd8 (mp + 12); Ret (m, negb (imcrp =? 0))
  end.

(** ** Entries *)
Inductive entry := EProc (apicid : Z) | EIoapic (apicno : Z) | EOther (t : Z).
Definition size (x : entry) : Z :=
  match x with EProc _ => sizeof_mpproc | EIoapic _ => sizeof_mpioapic | EOther _ => 8 end.
Fixpoint entries_at (p : Z) (es : list entry) : Prop :=
  match es with
  | [] => True
  | x :: es =>
      match x with
      | EProc i => rd p = Some MPPROC ∧ rd (p + 1) = Some i
      | EIoapic i => rd p = Some MPIOAPIC ∧ rd (p + 1) = Some i
      | EOther t => rd p = Some t ∧ (t = MPBUS ∨ t = MPIOINTR ∨ t = MPLINTR)
      end ∧ entries_at (p + size x) es
  end.
Definition total (es : list entry) : Z := foldr (λ x n, size x + n) 0 es.

(** What the table says. *)
Definition processors (es : list entry) : list Z := omap (λ x, match x with EProc i => Some i | _ => None end) es.
Definition ioapics (es : list entry) : list Z := omap (λ x, match x with EIoapic i => Some i | _ => None end) es.

Definition learn (m : machine) (es : list entry) : machine :=
  let ids := take (NCPU - ncpu m) (processors es) in
  Machine (lapic m) (ncpu m + length ids) (take (ncpu m) (cpus m) ++ ids ++ drop (ncpu m + length ids) (cpus m))
    (default (ioapicid m) (last (ioapics es))).

Lemma size_pos x : 8 ≤ size x.
Proof. destruct x; cbn; unfold sizeof_mpproc, sizeof_mpioapic; lia. Qed.
Lemma total_nonneg es : 8 * Z.of_nat (length es) ≤ total es.
Proof.
  induction es as [|x es IH]; [done|]. change (total (x :: es)) with (size x + total es). pose proof (size_pos x).
  cbn [length]. lia.
Qed.

Lemma learn_nil m : learn m [] = m.
Proof. unfold learn. cbn. rewrite take_nil. cbn. rewrite Nat.add_0_r, take_drop. by destruct m. Qed.

Lemma learn_proc m i es : length (cpus m) = NCPU → ∃ m', add_cpu m i = Ret m' ∧
  length (cpus m') = NCPU ∧ learn m (EProc i :: es) = learn m' es.
Proof.
  intros Hl. unfold add_cpu. destruct (Nat.ltb_spec (ncpu m) NCPU) as [Hn|Hn].
  - rewrite arr_set_in by lia. cbn [mbind outcome_bind]. rewrite Nat2Z.id. eexists. split; [done|]. cbn [cpus].
    split; [by rewrite length_insert|]. unfold learn. cbn [ncpu cpus lapic ioapicid].
    replace (NCPU - ncpu m)%nat with (S (NCPU - S (ncpu m))) by lia. cbn [processors omap list_omap take length].
    fold (processors es). change (ioapics (EProc i :: es)) with (ioapics es).
    set (ids := take (NCPU - S (ncpu m)) (processors es)). f_equal; [unfold ids; cbn; lia|].
    rewrite (take_S_r _ (ncpu m) i) by (apply list_lookup_insert_eq; lia).
    rewrite take_insert_ge, drop_insert_lt by lia. rewrite <- app_assoc.
    by replace (ncpu m + S (length ids))%nat with (S (ncpu m) + length ids)%nat by lia.
  - exists m. split; [done|]. split; [done|]. unfold learn. replace (NCPU - ncpu m)%nat with 0%nat by lia. done.
Qed.

(** The loop reads them all. *)
Lemma entries_loop_run es : ∀ p m ismp fuel, entries_at p es → (length es ≤ fuel)%nat → length (cpus m) = NCPU →
  entries_loop p (p + total es) m ismp fuel = Ret (learn m es, ismp).
Proof.
  induction es as [|x es IH]; intros p m ismp fuel He Hf Hl.
  { rewrite learn_nil. cbn. rewrite Z.add_0_r. destruct fuel; cbn [entries_loop]; by rewrite Z.ltb_irrefl. }
  destruct fuel as [|fuel]; [cbn in Hf; lia|]. change (total (x :: es)) with (size x + total es). destruct He as [Hx He].
  pose proof (size_pos x) as Hs. pose proof (total_nonneg es) as Ht. cbn [entries_loop].
  rewrite (proj2 (Z.ltb_lt p _)) by lia. rewrite Z.add_assoc. cbn in Hf. unfold rd8.
  destruct x as [i|i|t].
  - destruct Hx as [-> ->]. cbn [opt mbind outcome_bind]. destruct (learn_proc m i es Hl) as (m' & -> & Hl' & ->).
    cbn [mbind outcome_bind]. apply IH; [done|lia|done].
  - destruct Hx as [-> ->]. cbn [opt mbind outcome_bind]. cbn [size] in *.
    change (MPIOAPIC =? MPPROC) with false. change (MPIOAPIC =? MPIOAPIC) with true. cbn [mbind outcome_bind].
    rewrite IH by (done || lia). do 2 f_equal. unfold learn. cbn [ncpu cpus lapic ioapicid]. f_equal.
    change (ioapics (EIoapic i :: es)) with (i :: ioapics es). rewrite last_cons. by destruct (last _).
  - destruct Hx as [-> Hty]. cbn [opt mbind outcome_bind].
    assert ((t =? MPPROC) = false ∧ (t =? MPIOAPIC) = false ∧ (t =? MPBUS) || (t =? MPIOINTR) || (t =? MPLINTR) = true)
      as (-> & -> & ->) by (destruct Hty as [-> | [-> | ->]]; done).
    cbn [mbind outcome_bind]. rewrite IH by (done || lia). done.
Qed.

(** An entry of an unknown type: the loop never ends, and the panic behind it
    is not reached. *)
Lemma unknown_entry p e m t ismp fuel : p < e → rd p = Some t → t ∉ [MPPROC; MPBUS; MPIOAPIC; MPIOINTR; MPLINTR] →
  entries_loop p e m ismp fuel = NoFuel.
Proof.
  intros Hp Ht Hn. rewrite !not_elem_of_cons in Hn. destruct Hn as (N0 & N1 & N2 & N3 & N4 & _).
  revert ismp. induction fuel as [|fuel IH]; intros ismp; cbn [entries_loop]; rewrite (proj2 (Z.ltb_lt p e)) by done;
    unfold rd8; rewrite Ht; cbn [opt mbind outcome_bind]; apply Z.eqb_neq in N0 as E0, N1 as E1, N2 as E2, N3 as E3, N4 as E4;
    rewrite E0, E1, E2, E3, E4; cbn [orb mbind outcome_bind]; [done|apply IH].
Qed.

(** ** The search *)

(** A structure with its signature and checksum, at [p]. *)
Definition signed (p : Z) (b : bool) : Prop :=
  ∃ s, memcmp0 p MP_SIG = Ret s ∧
    if s then ∃ c, sum p sizeof_mp = Ret c ∧ b = (c =? 0) else b = false.

(** The first one in an area, where the area is mapped. *)
Lemma mpsearch_loop_spec n : ∀ p fuel, (n ≤ fuel)%nat → (∀ k, (k < n)%nat → ∃ b, signed (p + 16 * Z.of_nat k) b) →
  ∃ r, mpsearch_loop p (p + 16 * Z.of_nat n) fuel = Ret r ∧
    match r with
    | Some q => ∃ k, (k < n)%nat ∧ q = p + 16 * Z.of_nat k ∧ signed q true ∧
        ∀ j, (j < k)%nat → signed (p + 16 * Z.of_nat j) false
    | None => ∀ j, (j < n)%nat → signed (p + 16 * Z.of_nat j) false
    end.
Proof.
  induction n as [|n IH]; intros p fuel Hf Hs.
  - exists None. split; [|lia]. destruct fuel; cbn [mpsearch_loop]; by rewrite (proj2 (Z.ltb_ge p _)) by lia.
  - destruct fuel as [|fuel]; [lia|]. cbn [mpsearch_loop]. rewrite (proj2 (Z.ltb_lt p _)) by lia.
    destruct (Hs 0%nat) as [b Hb]; [lia|]. rewrite Z.mul_0_r, Z.add_0_r in Hb. pose proof Hb as (s & E & Hsum). rewrite E. cbn [mbind outcome_bind].
    assert ((if s then c ← sum p sizeof_mp; Ret (c =? 0) else Ret false) = Ret b) as ->.
    { destruct s; [destruct Hsum as (c & -> & ->)|subst]; done. }
    cbn [mbind outcome_bind]. destruct b.
    + exists (Some p). split; [done|]. exists 0%nat. split_and!; [lia|lia|done|lia].
    + destruct (IH (p + 16) fuel) as (r & E1 & H1); [lia| |].
      { intros k Hk. destruct (Hs (S k)) as [b Hb']; [lia|]. exists b. by replace (p + 16 + 16 * Z.of_nat k) with (p + 16 * Z.of_nat (S k)) by lia. }
      exists r. unfold sizeof_mp. replace (p + 16 * Z.of_nat (S n)) with (p + 16 + 16 * Z.of_nat n) by lia. split; [done|].
      assert (∀ m, (∀ j, (j < m)%nat → signed (p + 16 + 16 * Z.of_nat j) false) → ∀ j, (j < S m)%nat → signed (p + 16 * Z.of_nat j) false) as Hbefore.
      { intros m Hm [|j] Hj; [by rewrite Z.mul_0_r, Z.add_0_r|].
        replace (p + 16 * Z.of_nat (S j)) with (p + 16 + 16 * Z.of_nat j) by lia. apply Hm. lia. }
      destruct r as [q|]; [|by apply Hbefore]. destruct H1 as (k & Hk & -> & Hq & Hj). exists (S k). split_and!; [lia|lia|done|by apply Hbefore].
Qed.

Lemma mpsearch1_spec a n : (∀ k, (k < n)%nat → ∃ b, signed (P2V a + 16 * Z.of_nat k) b) →
  ∃ r, mpsearch1 a (16 * Z.of_nat n) = Ret r ∧
    match r with
    | Some q => ∃ k, (k < n)%nat ∧ q = P2V a + 16 * Z.of_nat k ∧ signed q true ∧
        ∀ j, (j < k)%nat → signed (P2V a + 16 * Z.of_nat j) false
    | None => ∀ j, (j < n)%nat → signed (P2V a + 16 * Z.of_nat j) false
    end.
Proof. intros Hs. apply mpsearch_loop_spec; [lia|done]. Qed.

(** ** The table is read *)
Record table_at (conf : Z) (es : list entry) (lap : Z) : Prop := {
  tb_sig : memcmp0 conf PCMP = Ret true;
  tb_version : ∃ v, rd (conf + 6) = Some v ∧ (v = 1 ∨ v = 4);
  tb_length : rd16 (conf + 4) = Ret (sizeof_mpconf + total es);
  tb_sum : sum conf (sizeof_mpconf + total es) = Ret 0;
  tb_lapic : rd32 (conf + 36) = Ret lap;
  tb_entries : entries_at (conf + sizeof_mpconf) es
}.

Lemma mpconfig_spec mp pa es lap : mpsearch = Ret (Some mp) → rd32 (mp + 4) = Ret pa → pa ≠ 0 →
  table_at (P2V pa) es lap → mpconfig = Ret (Some (P2V pa, mp)).
Proof.
  intros Es Ep Hpa [Hsig (v & Hv & Hver) Hlen Hsum _ _]. unfold mpconfig. rewrite Es. cbn [mbind outcome_bind].
  rewrite Ep. cbn [mbind outcome_bind]. rewrite (proj2 (Z.eqb_neq pa 0) Hpa), Hsig. cbn [mbind outcome_bind negb].
  unfold rd8 at 1. rewrite Hv. cbn [opt mbind outcome_bind].
  assert (negb (v =? 1) && negb (v =? 4) = false) as -> by (destruct Hver as [-> | ->]; done).
  rewrite Hlen. cbn [mbind outcome_bind]. rewrite Hsum. done.
Qed.

(** [mpinit] learns the processors of the table in order, up to [NCPU] of them,
    the last I/O interrupt controller and the address of the local ones. *)
Lemma mpinit_correct mp pa es lap imcr m fuel : mpsearch = Ret (Some mp) → rd32 (mp + 4) = Ret pa → pa ≠ 0 →
  table_at (P2V pa) es lap → rd (mp + 12) = Some imcr → length (cpus m) = NCPU → (length es ≤ fuel)%nat →
  mpinit m fuel = Ret (learn (set_lapic m lap) es, negb (imcr =? 0)).
Proof.
  intros Es Ep Hpa Ht Hi Hl Hf. unfold mpinit. rewrite (mpconfig_spec mp pa es lap) by done. cbn [mbind outcome_bind].
  destruct Ht as [_ _ Hlen _ Hlap Hes]. rewrite Hlap. cbn [mbind outcome_bind]. rewrite Hlen. cbn [mbind outcome_bind].
  rewrite Z.add_assoc, entries_loop_run by done. cbn [mbind outcome_bind negb]. unfold rd8. by rewrite Hi.
Qed.

(** Without a table the kernel says so. *)
Lemma mpinit_no_table m fuel : mpsearch = Ret None → mpinit m fuel = Panic "Expect to run on an SMP".
Proof. intros E. unfold mpinit, mpconfig. by rewrite E. Qed.
End mp.

(** A machine with two processors: the pointer structure at 0x9FC00, where the
    BIOS data area says, and the table behind it. *)
Definition demo_table : list Z :=
  [80; 67; 77; 80; 92; 0; 4; 141] ++ replicate 28 0 ++ [0; 0; 224; 254] ++ replicate 4 0 ++
  ([0; 0] ++ replicate 18 0) ++ ([0; 1] ++ replicate 18 0) ++ ([2; 2] ++ replicate 6 0).
Definition demo_pointer : list Z := [95; 77; 80; 95; 16; 252; 9; 0; 1; 4; 139; 0] ++ replicate 4 0.
Definition demo_memory (a : Z) : option Z :=
  let p := a - KERNBASE in
  if p =? 0x40E then Some 0xC0 else if p =? 0x40F then Some 0x9F
  else if (0x9FC00 <=? p) && (p <? 0x9FC00 + 108) then (demo_pointer ++ demo_table) !! Z.to_nat (p - 0x9FC00)
  else Some 0.
Definition cold : machine := Machine 0 0 (replicate NCPU 0) 0.

Example mpinit_demo : mpinit demo_memory cold 100 = Ret (Machine 0xFEE00000 2 [0; 1; 0; 0; 0; 0; 0; 0] 2, false).
Proof. vm_compute. reflexivity. Qed.
